(* ===== verification/_CoqProject ===== *)
-Q . S2P
Prelude.v
PyStr.v
Ipaddress.v
RuleMatch.v
Models.v
Db.v
Apply.v
ApplyInv.v
Allocations.v
PyNum.v
Services.v
Isolation.v
Rules.v
ServicesInv.v
FeedParser.v
FeedReconcile.v
FeedInv.v
Lists.v
ListsInv.v
NodeControl.v
FeedJobs.v
Feeds.v
Applier.v
ApplierInv.v
Evolution.v
WorkerInv.v
FeedFetch.v
FeedRunner.v
Processor.v
WorldInv.v
Api.v
ApiInv.v
FeedLedger.v
LedgerOps.v
System.v
LedgerInv.v
DenyInv.v
Requests.v
Demo.v
SessionStore.v
Accounts.v
AccountsApi.v
AccountsInv.v
NodeLanes.v
GatewaySpec.v
WorkerSpec.v
DataPlaneSpec.v
FeedSpec.v
FeedAdminSpec.v
AccountsSpec.v
OpsModels.v
AlertRules.v
Calendar.v
AlertDispatch.v
AlertSources.v
AlertEvaluator.v
AlertInv.v
AlertSpec.v
AlertDelivery.v
AlertApi.v
AlertDemo.v
TelemetryReader.v
Telemetry.v
TelemetrySpec.v
Billing.v
BillingSpec.v
CsvText.v
BillingApi.v
TelemetryApi.v
MeterDemo.v
WorkerLoop.v
WorkerLoopSpec.v
FeedLane.v
NodeLanesSpec.v
Schema.v
Migrations.v
Metadata.v
SchemaSpec.v
ReadRoutes.v
ReadSpec.v
