(* ===== verification/Prelude.v ===== *)
(** * Verification of the anti-DDoS scrubbing gateway's control plane

    The program is the control plane under [src/control-plane/app]: an HTTP
    service with a PostgreSQL database, a Redis queue and a worker that keeps
    the XDP data plane in step with the database.  Tenants own address space,
    protect services inside it with plans, allow rules and whitelists, and a
    node-wide deny list is fed by administrators and threat feeds.  Beside the
    job loop the worker runs lanes that collect telemetry, meter usage for
    billing, raise alerts, and assert node-wide switches, blocked ports and next
    hops in the data plane.

    ** Parts, and where they are modelled

    - Shared ground.  This file: record update, the state and error monad [M],
      its inversion and execution tactics ([minv], [mstep]), lists, options and
      integers.  [PyStr], [Ipaddress], [PyNum]: what the code uses of Python's
      strings, of [ipaddress], and of ints, floats and decimals (regular
      expressions and [urllib.parse] are in [FeedJobs] and [Feeds], their only
      users).
      [Models], [Db]: the rows of [db/models.py], the tables as finite maps, the
      unit of work of [db/session.py] (commit and post-commit callbacks, or
      rollback), the audit trail of [services/audit.py].
    - Configuration ([services/allocations.py], [services.py], [rules.py],
      [lists.py], [node_control.py]): [Allocations], [Services], [Rules],
      [Lists], [NodeControl], one definition per function, with the queries,
      the checks and the constraint violations in the order of the source.
      [RuleMatch] is [core/rulematch.py], with the packet matching of
      [data-plane/src/rules.h] that it is judged against; [Ipaddress.Cidr] is
      [core/cidr.py].
    - Apply ledger ([core/applystate.py], [services/apply.py]): [Apply].
    - Feeds ([core/feed_parser.py], [services/feeds.py],
      [services/feed_fetch.py], [services/feed_reconcile.py],
      [worker/feed_runner.py],
      [worker/feed_jobs.py], [worker/feed_scheduler.py]): [FeedParser], [Feeds],
      [FeedFetch], [FeedReconcile], [FeedRunner], [FeedJobs].
    - Data plane ([worker/applier.py] and the decoder of
      [data-plane/tools/xdpgw-apply.c]): [Applier].
    - Worker ([worker/processor.py], [worker/handlers.py]): [Processor]; its loop
      and the feed download slot ([worker/worker.py],
      [worker/feed_coordinator.py]), and the clean-up when it stops:
      [WorkerLoop].
    - Operations tables of [db/models.py] (telemetry, alerts, billing) and their
      transactions: [OpsModels]; [datetime] and [services/billing_period.py]: [Calendar]; the [csv]
      module: [CsvText].
    - Alerts ([services/alert_rules.py], [worker/alert_sources.py],
      [worker/alert_evaluator.py], [worker/alert_dispatch.py],
      [services/telemetry_math.py], [api/routers/alerts.py]): [AlertRules],
      [AlertSources], [AlertEvaluator], [AlertDispatch], [AlertApi].
    - Telemetry ([worker/telemetry_reader.py], [worker/telemetry.py],
      [api/routers/telemetry.py]): [TelemetryReader], [Telemetry],
      [TelemetryApi].
    - Billing ([worker/billing.py], [services/billing_metrics.py],
      [api/routers/billing.py]): [Billing], [BillingApi].
    - Node lanes ([worker/blocked_port_reconciler.py],
      [worker/node_control_reconciler.py], [worker/nexthop_resolver.py],
      [services/nexthop_metrics.py]) and the blocked ports
      ([services/ddos_amplification.py], [api/routers/ddos.py]): [NodeLanes].
    - HTTP ([core/deps.py], [api/routers], [api/schemas]): [Api], [AccountsApi];
      the routes that only read, with their responses, and the frontend served
      beside them ([main.py]): [ReadRoutes].
    - Accounts ([services/auth.py], [users.py], [tenants.py]) and login sessions
      in Redis ([core/sessions.py], [core/security.py]): [Accounts],
      [SessionStore].
    - Migrations ([src/control-plane/migrations]): [Schema] is what an Alembic
      operation does to a PostgreSQL database, schema and rows; [Migrations] has
      the upgrade and the downgrade of every revision, [Metadata] the tables,
      constraints and indexes that the classes of [db/models.py] declare.

    An operation is a function [S → (exn + A) * S]; [Session] is the state of a
    transaction (tables and registered callbacks), [World] adds the Redis queue
    and what the data plane acknowledged, [Ctx] a transaction with the session
    store, [OSession] and [OWorld] add the operations tables and the messages
    sent, [MeterWorld] and [AggWorld] the memory of a lane, [Loop] that of the
    worker loop.  An exception keeps the state reached so far, and [session_scope]
    [account_scope] or [ops_scope] decides what of it is kept.

    ** Composition

    [System] puts requests, the worker and the surroundings into one transition
    system.  The worker's [phase] is what it holds between two transactions, so
    that requests commit between the claim of a job, the reading of its
    snapshot, the helper's exit and the final mark, and a crash comes at any
    point.  [AccountsSpec] does the same for accounts, with the refresh of a
    login session split into its read and its write.  [WorkerLoopSpec] runs
    the iterations of the loop between steps of its surroundings (requests,
    the end of a download, a restart); each iteration says what Redis, the
    database and the clock do during it.  [AlertSpec] lets the database change
    freely between two ticks of the alert lane.

    ** What the theorems show

    - [GatewaySpec]: in every reachable state a service shown as active is
      enforced with its current configuration, the job ledger matches the
      services, addresses are isolated between tenants, the configuration and
      the deny list are well formed; a tenant's requests reach neither other
      tenants nor the node-wide tables, an answered change requeues its service
      and is dispatched; a refused deletion is rolled back together with the
      denied event it recorded; the worker's functions refine the system's steps.
    - [WorkerSpec]: [process_job] settles every current job, closes stale ones,
      waits during maintenance; retries of the final mark; where startup
      recovery cannot get past.
    - [DataPlaneSpec]: both snapshots survive the trip through the helper's
      decoder; what keeps all services from being applied.
    - [FeedSpec], [FeedFetch], [FeedParser], [Ipaddress], [RuleMatch]: complete and
      bounded downloads, synchronization, dry runs, manual edits and the list in force; parsing and printing of feeds
      and networks; overlap tests against the packets that the data plane
      matches and against sets of addresses.
    - [FeedAdminSpec]: the ledger of synchronization runs is consistent, a deleted
      source is withdrawn, the schedule queues exactly what is due; a deletion
      that a fetch under way undoes.
    - [WorkerLoopSpec], [FeedLane]: the loop stays inside the transition system, so
      the invariants above hold of the running worker; one download at a time,
      the oldest queued feed job is taken, the retry delay is bounded, stopping
      takes bounded time if cancelled tasks end in bounded time, and blocks
      for good on one that does not; where a database outage ends the worker,
      and when stopping leaves resources behind.
    - [AlertSpec], [AlertDelivery], [AlertApi]: a tick moves every alert as an
      abstract lifecycle [life_step] does; streaks before firing and resolving;
      the alert table is well formed; routing is exact and retrying ends; who
      sees an alert; alerts that never resolve.
    - [TelemetrySpec], [TelemetryReader], [TelemetryApi]: snapshots are read
      back as printed, a window is recorded whole, with the growth of every
      counter, or not at all, top talkers and histories are what they claim.
    - [BillingSpec], [BillingApi]: the percentile computed in
      floating point is the exact nearest rank, months partition time, closed
      bills are immutable, an open bill is what the month's samples say, who
      sees a bill, the CSV export reads back.
    - [NodeLanesSpec]: over histories with failed calls, restarts of the worker
      and reloads of the data plane, the lanes converge to the database and then
      rest as far as acknowledged calls took effect; the end of maintenance is
      signalled, a pass of the next-hop lane; a bypass that stays on after a call
      that timed out.
    - [AccountsSpec]: revoked sessions stay revoked, an active administrator is
      always there, who can log in; a logout that is undone, administrators and
      tenants that cannot be removed.
    - [ReadSpec]: what a tenant gets from any [GET] route (configuration, alerts,
      bills, telemetry) is the same in all worlds that agree on the tenant's
      rows, and reading changes nothing; which job listings can be rendered; the page of the frontend does not stand in for an API answer.
    - [SchemaSpec]: the two revisions that rewrite rows (data-plane ids, the end
      of the services' blacklists) do so as intended whatever the tables hold;
      by computation on a database without rows, the migrations build the tables
      the models declare, with an extension and a sequence that only the
      migrations create, and the downgrades undo the upgrades.

    The files in [...Inv] and [Isolation], [Evolution], [FeedLedger],
    [LedgerOps], [Requests] carry the invariants and the lemmas on
    each operation that these theorems apply; [Demo], [AlertDemo], [MeterDemo]
    and the end of [FeedLane] are concrete runs on which they are instantiated.

    ** Parameters

    [sha256] (hex digest), [xdpgw_apply] (the helper process), [fetch_source]
    (the HTTP fetch of a feed), [token_urlsafe] (session ids at their draws,
    assumed distinct), [pwd_hash] and [pwd_verify] (password hashing), the
    number of CPUs, the node capacity and the session limits of the settings;
    [http_post] and [smtp_send] (what a channel answers), the output of the
    [dpstat] process, the outcome of each helper call of a lane, the collation
    of the database and whether the CSV writer quotes a carriage return.

    ** Bounds and fuel

    Loops of the source are structural: over rows, lines, bytes, batches.  The
    regular expressions of the error scrubber run with fuel equal to the length
    of the text plus one; batches are cut with fuel equal to the length of the
    list.  A delete follows references with fuel one more than the number of
    tables, enough as no table of the schema refers to itself through others;
    running out is an error of its own, which the theorems exclude.  The retries
    of the final mark are the source's three attempts.
    Fixed-width fields are written with the source's [struct] formats, whose
    range checks raise; the decoder reads them back at the same width.
    Identifiers of [uuid4] come from a supply that never repeats, and the
    clock is part of the database and moves by steps of its own.  Floating
    point is IEEE double precision, rounded to nearest even; the rank of the
    percentile is checked for every count up to 10,000 samples, more than the
    8,928 five-minute samples of a month.  Shortest decimal digits are searched
    up to 17, which determine a double.  The retry backoff of a notification is
    a valid [timedelta] up to 45 attempts (the default is 3).

    ** Not modelled

    Transactions are atomic and serialized: races that PostgreSQL's default
    isolation admits between requests which take no lock (the check that an
    administrator remains in [services/users.py]) are not represented.  Left out are the HTTP framework (cookies, CSRF
    headers, status codes of unhandled exceptions), logging and metrics, the
    time stamps of rules and [updated_at] of tenants, the writing of BPF
    maps by the helper, the HTTP client that fetches feeds, the JSON encoding
    of sessions, and the 32-bit range of the version counters; the construction
    of the application, of the worker's lanes and of their settings ([main.py],
    [cli.py], [core/config.py], [worker/__main__.py], the first part of
    [Worker.run]), which decides nothing; signal handlers; the test doubles
    among the writers and readers; of Alembic, its own table with the current
    revision and the offline mode. *)

From stdpp Require Export prelude gmap strings list sorting.
From Stdlib Require Export ZArith Lia.

#[export] Set Default Goal Selector "!".
#[export] Set Warnings "-clear-no-such-hyp,-postfix-notation-not-level-1,-register-all".

Open Scope Z_scope.

(** ** Record update

    [r <| f := v |>] replaces field [f] of [r] by [v]: the reading of a
    Python attribute assignment [r.f = v] on a row object.  A record type
    gets the notation by declaring its eta-expansion as an instance. *)

Class Eta (R : Type) := MkEta { eta : R → R }.
Arguments MkEta {R} _.
Class Setter {R T : Type} (get : R → T) := { over : (T → T) → R → R }.
Arguments over {R T} get {_} f r /.

Ltac solve_setter :=
  lazymatch goal with
  | |- @Setter ?R ?T ?get =>
      constructor;
      let f := fresh "f" in
      let r := fresh "r" in
      intros f r;
      let b := constr:(@eta R _ r) in
      let b := eval hnf in b in
      lazymatch eval pattern (get r) in b with
      | ?F _ => let t := eval cbv beta in (F (f (get r))) in exact t
      end
  end.

#[global] Hint Extern 1 (Setter _) => solve_setter : typeclass_instances.

Declare Scope record_scope.
Delimit Scope record_scope with record.
Notation "r <| f := v |>" := (over f (fun _ => v) r)
  (at level 12, left associativity, f at level 11, v at level 200,
   format "r  <| f  :=  v |>") : record_scope.
Open Scope record_scope.

(** ** Exceptions

    One constructor per exception class the modelled code raises or lets
    through; the arguments are the ones a caller can observe. *)

Inductive exn :=
  | HTTPException (status_code : Z) (detail : string)
  | HTTPBlocked (status_code : Z) (message : string) (blockers : list string)
  | CidrValidationError (msg : string)
  | PortRangeError (msg : string)
  | IllegalTransition (msg : string)
  | NonMonotonicVersion (msg : string)
  | NotFailedError (msg : string)
  | IntegrityError (constraint : string)
  | MultipleResultsFound
  | GlobalDenyLimitError
  | GlobalDenyRevisionMismatch (msg : string)
  | ApplyError (msg : string)
  | StructError
  | NumericOverflow
  | DataError
  | OperationalError (msg : string)
  | NoHandlerError (msg : string)
  | FeedParseError (msg : string)
  | FeedFetchError (msg : string)
  | ValueError (msg : string)
  | KeyError (key : string)
  | AssertionError
  | OverflowError
  | RuntimeError (msg : string)
  | AttributeError (name : string)
  | ValidationError (model field : string).

#[global] Instance exn_eq_dec : EqDecision exn.
Proof. solve_decision. Defined.

(** ** The state and exception monad

    A computation over a state [S] returns a value or raises, and hands back
    the state reached so far in both cases: an exception does not undo the
    assignments made before it.  Undoing them is what [session_scope] does. *)

Definition M (S A : Type) : Type := S → (exn + A) * S.

#[global] Instance M_ret S : MRet (M S) := fun A a s => (inr a, s).
#[global] Instance M_bind S : MBind (M S) := fun A B k m s =>
  match m s with
  | (inl e, s') => (inl e, s')
  | (inr a, s') => k a s'
  end.
#[global] Instance M_fmap S : FMap (M S) := fun A B f m =>
  m ≫= fun a => mret (f a).

Definition raise {S A} (e : exn) : M S A := fun s => (inl e, s).
Definition getS {S} : M S S := fun s => (inr s, s).
Definition putS {S} (s : S) : M S unit := fun _ => (inr tt, s).
Definition gets {S A} (f : S → A) : M S A := fun s => (inr (f s), s).
Definition modS {S} (f : S → S) : M S unit := fun s => (inr tt, f s).

(** [require b e]: the guard [if not b: raise e]. *)
Definition require {S} (b : bool) (e : exn) : M S unit :=
  if b then mret tt else raise e.

(** A computation that raises without touching the state. *)
Definition lift {S A} (r : exn + A) : M S A := fun s => (r, s).

(** [x = f(); if x is None: raise e]. *)
Definition get_or_raise {S A} (o : option A) (e : exn) : M S A :=
  match o with Some a => mret a | None => raise e end.

(** [try: m except E: h]; [h] re-raises what it does not handle. *)
Definition try_except {S A} (m : M S A) (h : exn → M S A) : M S A := fun s =>
  match m s with
  | (inl e, s') => h e s'
  | r => r
  end.

Definition is_okb {A} (r : exn + A) : bool :=
  match r with inr _ => true | inl _ => false end.

(** [for x in xs: f x] over the monad. *)
Fixpoint for_each {S A} (f : A → M S unit) (xs : list A) : M S unit :=
  match xs with
  | [] => mret tt
  | x :: xs => f x ;; for_each f xs
  end.

(** *** Pre- and postconditions

    [triple P m Q E]: from a state satisfying [P], [m] returns [a] in a state
    satisfying [Q a], or raises [e] in a state satisfying [E e]. *)

Definition triple {S A} (P : S → Prop) (m : M S A)
    (Q : A → S → Prop) (E : exn → S → Prop) : Prop :=
  ∀ s, P s →
    match m s with
    | (inr a, s') => Q a s'
    | (inl e, s') => E e s'
    end.

Section triple_rules.
Context {S : Type}.
Implicit Types P : S → Prop.

Lemma triple_ret {A} (a : A) P Q E :
  (∀ s, P s → Q a s) → triple P (mret a) Q E.
Proof. intros H s Hs. by apply H. Qed.

Lemma triple_bind {A B} (m : M S A) (k : A → M S B) P R Q E :
  triple P m R E → (∀ a, triple (R a) (k a) Q E) → triple P (m ≫= k) Q E.
Proof.
  intros Hm Hk s Hs. specialize (Hm s Hs). unfold mbind, M_bind.
  destruct (m s) as [[e|a] s']; [done|]. by apply Hk.
Qed.

Lemma triple_raise {A} e P (Q : A → S → Prop) E :
  (∀ s, P s → E e s) → triple P (raise e) Q E.
Proof. intros H s Hs. by apply H. Qed.

Lemma triple_weaken {A} (m : M S A) P P' (Q Q' : A → S → Prop) E E' :
  triple P m Q E → (∀ s, P' s → P s) → (∀ a s, Q a s → Q' a s) →
  (∀ e s, E e s → E' e s) → triple P' m Q' E'.
Proof.
  intros H HP HQ HE s Hs. specialize (H s (HP s Hs)).
  destruct (m s) as [[e|a] s']; auto.
Qed.
End triple_rules.

(** [preserves I m]: [m] keeps the invariant [I], whether it returns or
    raises. *)
Definition preserves {S A} (I : S → Prop) (m : M S A) : Prop :=
  ∀ s, I s → I (m s).2.

Section preserves_rules.
Context {S : Type} (I : S → Prop).

Lemma preserves_ret {A} (a : A) : preserves I (mret a).
Proof. by intros s. Qed.

Lemma preserves_raise {A} e : preserves I (@raise S A e).
Proof. by intros s. Qed.

Lemma preserves_lift {A} (r : exn + A) : preserves I (lift r).
Proof. by intros s. Qed.

Lemma preserves_gets {A} (f : S → A) : preserves I (gets f).
Proof. by intros s. Qed.

Lemma preserves_require b e : preserves I (require b e).
Proof. by destruct b; intros s. Qed.

Lemma preserves_get_or_raise {A} (o : option A) e :
  preserves I (get_or_raise o e).
Proof. by destruct o; intros s. Qed.

Lemma preserves_bind {A B} (m : M S A) (k : A → M S B) :
  preserves I m → (∀ a, preserves I (k a)) → preserves I (m ≫= k).
Proof.
  intros Hm Hk s Hs. specialize (Hm s Hs). unfold mbind, M_bind.
  destruct (m s) as [[e|a] s']; [done|]. by apply Hk.
Qed.

Lemma preserves_for_each {A} (f : A → M S unit) xs :
  (∀ x, preserves I (f x)) → preserves I (for_each f xs).
Proof.
  intros Hf. induction xs as [|x xs IH]; simpl;
    [apply preserves_ret | by apply preserves_bind].
Qed.
End preserves_rules.

Create HintDb gateway.
#[export] Hint Resolve preserves_ret preserves_raise preserves_lift
  preserves_gets preserves_require preserves_get_or_raise : gateway.

(** *** Running a computation symbolically

    [run] unfolds one bind at a time; [mcase] splits on the next scrutinee. *)

Lemma bind_run {S A B} (m : M S A) (k : A → M S B) s :
  (m ≫= k) s =
  match m s with (inl e, s') => (inl e, s') | (inr a, s') => k a s' end.
Proof. reflexivity. Qed.

Lemma bind_inr {S A B} (m : M S A) (k : A → M S B) s s' b :
  (m ≫= k) s = (inr b, s') →
  ∃ a s1, m s = (inr a, s1) ∧ k a s1 = (inr b, s').
Proof.
  rewrite bind_run. destruct (m s) as [[e|a] s1]; [done|]. eauto.
Qed.

Lemma bind_ok {S A B} (m : M S A) (k : A → M S B) s s1 a :
  m s = (inr a, s1) → (m ≫= k) s = k a s1.
Proof. intros H. by rewrite bind_run, H. Qed.

Lemma bind_err {S A B} (m : M S A) (k : A → M S B) s s1 e :
  m s = (inl e, s1) → (m ≫= k) s = (inl e, s1).
Proof. intros H. by rewrite bind_run, H. Qed.

(** Forward steps, as rewrite rules. *)
Lemma run_assoc {S A B C} (m : M S A) (k : A → M S B) (h : B → M S C) s :
  ((m ≫= k) ≫= h) s = (m ≫= fun a => k a ≫= h) s.
Proof. rewrite !bind_run. by destruct (m s) as [[e|a] s']. Qed.
Lemma run_gets {S A B} (f : S → A) (k : A → M S B) s : (gets f ≫= k) s = k (f s) s.
Proof. done. Qed.
Lemma run_modS {S B} (f : S → S) (k : unit → M S B) s : (modS f ≫= k) s = k tt (f s).
Proof. done. Qed.
Lemma run_ret {S A B} (a : A) (k : A → M S B) s : (mret a ≫= k) s = k a s.
Proof. done. Qed.
Lemma run_raise {S A B} e (k : A → M S B) s : (raise e ≫= k) s = (inl e, s).
Proof. done. Qed.
Lemma run_lift {S A B} (a : A) (k : A → M S B) s : (lift (inr a) ≫= k) s = k a s.
Proof. done. Qed.
Lemma run_lift_err {S A B} e (k : A → M S B) s : (lift (inl e) ≫= k) s = (inl e, s).
Proof. done. Qed.
Lemma run_require {S B} e (k : unit → M S B) s : (require true e ≫= k) s = k tt s.
Proof. done. Qed.
Lemma run_require_err {S B} e (k : unit → M S B) s : (require false e ≫= k) s = (inl e, s).
Proof. done. Qed.
Lemma run_get_some {S A B} (a : A) e (k : A → M S B) s :
  (get_or_raise (Some a) e ≫= k) s = k a s.
Proof. done. Qed.
Lemma run_get_none {S A B} e (k : A → M S B) s :
  (get_or_raise None e ≫= k) s = (inl e, s).
Proof. done. Qed.
Ltac mstep :=
  repeat first
    [ rewrite run_assoc | rewrite run_gets | rewrite run_modS | rewrite run_ret
    | rewrite run_raise | rewrite run_lift | rewrite run_lift_err | rewrite run_require
    | rewrite run_require_err | rewrite run_get_some | rewrite run_get_none ].

Lemma require_inr {S} b e (s s' : S) u :
  require b e s = (inr u, s') → b = true ∧ s' = s.
Proof. by destruct b; intros [= <- <-]. Qed.

Lemma get_or_raise_inr {S A} (o : option A) e (s s' : S) a :
  get_or_raise o e s = (inr a, s') → o = Some a ∧ s' = s.
Proof. by destruct o; intros [= <- <-]. Qed.

Lemma gets_inr {S A} (f : S → A) (s s' : S) a :
  gets f s = (inr a, s') → a = f s ∧ s' = s.
Proof. by intros [= <- <-]. Qed.

Lemma modS_inr {S} (f : S → S) (s s' : S) u :
  modS f s = (inr u, s') → s' = f s.
Proof. by intros [= _ <-]. Qed.

Lemma lift_inr {S A} (r : exn + A) (s s' : S) a :
  lift r s = (inr a, s') → r = inr a ∧ s' = s.
Proof. by intros [= -> <-]. Qed.

Lemma ret_inr {S A} (a b : A) (s s' : S) :
  (mret a : M S A) s = (inr b, s') → b = a ∧ s' = s.
Proof. by intros [= <- <-]. Qed.

Lemma try_except_inr {S A} (m : M S A) h (s s' : S) a :
  try_except m h s = (inr a, s') →
  m s = (inr a, s') ∨ ∃ e s1, m s = (inl e, s1) ∧ h e s1 = (inr a, s').
Proof. unfold try_except. destruct (m s) as [[e|b] s1]; eauto. Qed.

(** [minv]: invert every successful run among the hypotheses. *)
Ltac minv_step :=
  match goal with
  | H : (_ ≫= _) _ = (inr _, _) |- _ =>
      let a := fresh "a" in
      let s := fresh "s" in
      apply bind_inr in H as (a & s & ? & H)
  | H : require _ _ _ = (inr _, _) |- _ => apply require_inr in H as [? ?]
  | H : get_or_raise _ _ _ = (inr _, _) |- _ => apply get_or_raise_inr in H as [? ?]
  | H : gets _ _ = (inr _, _) |- _ => apply gets_inr in H as [? ?]
  | H : modS _ _ = (inr _, _) |- _ => apply modS_inr in H
  | H : lift _ _ = (inr _, _) |- _ => apply lift_inr in H as [? ?]
  | H : mret _ _ = (inr _, _) |- _ => apply ret_inr in H as [? ?]
  | H : raise _ _ = (inr _, _) |- _ => discriminate H
  end.
Ltac minv := repeat (minv_step; simplify_eq/=).

(** The head of an application. *)
Ltac head_of t := lazymatch t with ?f _ => head_of f | _ => t end.

(** [by_compute]: a closed decidable proposition, by evaluation. *)
Ltac by_compute := apply (bool_decide_unpack _); vm_compute; exact I.

(** ** Integers *)

(** Floor division is monotone across denominators. *)
Lemma div_le_cross u v w z :
  0 < v → 0 < z → u * z <= w * v → u / v <= w / z.
Proof.
  intros Hv Hz H. apply Z.div_le_lower_bound; [done|].
  pose proof (Z.mul_div_le u v Hv). nia.
Qed.

(** ** Ordering by an integer key *)

Definition key_le {A} (key : A → Z) : relation A := fun a b => key a <= key b.

#[global] Instance key_le_dec {A} (key : A → Z) : RelDecision (key_le key).
Proof. intros a b. unfold key_le. apply _. Defined.
#[global] Instance key_le_total {A} (key : A → Z) : Total (key_le key).
Proof. intros a b. unfold key_le. lia. Qed.
#[global] Instance key_le_trans {A} (key : A → Z) : Transitive (key_le key).
Proof. intros a b c. unfold key_le. lia. Qed.

(** Descending lexicographic order on lists of integer keys. *)
Fixpoint lex_geb (a b : list Z) : bool :=
  match a, b with
  | x :: a, y :: b => (y <? x) || ((x =? y) && lex_geb a b)
  | _, [] => true
  | [], _ => false
  end.
Definition lex_ge {A} (keys : A → list Z) : relation A :=
  fun a b => Is_true (lex_geb (keys a) (keys b)).
#[global] Instance lex_ge_dec {A} (keys : A → list Z) : RelDecision (lex_ge keys).
Proof. intros a b. unfold lex_ge. apply _. Defined.
#[global] Instance lex_ge_total {A} (keys : A → list Z) : Total (lex_ge keys).
Proof.
  intros a b. unfold lex_ge. rewrite !Is_true_true.
  generalize (keys a) (keys b). clear.
  induction l as [|x l IH]; intros [|y l']; simpl; auto.
  destruct (IH l') as [H|H]; rewrite H, ?andb_true_r.
  all: destruct (Z.lt_trichotomy x y) as [?|[?|?]]; rewrite ?orb_true_iff, ?andb_true_iff; lia.
Qed.
#[global] Instance lex_ge_trans {A} (keys : A → list Z) : Transitive (lex_ge keys).
Proof.
  intros a b c. unfold lex_ge. rewrite !Is_true_true.
  generalize (keys a) (keys b) (keys c). clear.
  induction l as [|x l IH]; intros [|y l'] [|z l'']; simpl; try done.
  rewrite !orb_true_iff, !andb_true_iff, !Z.ltb_lt, !Z.eqb_eq.
  intros [?|[-> H1]] [?|[-> H2]]; [left; lia..|]. right. split; [done|]. by eapply IH.
Qed.

Lemma lex_ge_antisym {A} (keys : A → list Z) a b :
  lex_ge keys a b → lex_ge keys b a → keys a = keys b.
Proof.
  unfold lex_ge. rewrite !Is_true_true. generalize (keys a) (keys b). clear.
  induction l as [|x l IH]; intros [|y l']; simpl; try done.
  rewrite !orb_true_iff, !andb_true_iff, !Z.ltb_lt, !Z.eqb_eq.
  intros [?|[E1 H1]] [?|[E2 H2]]; [lia..|]. f_equal; [done|by apply IH].
Qed.
