(* ===== verification/PyStr.v ===== *)
(** * Python strings

    The part of Python's [str], [bytes] and [int] the modelled code uses.  A
    [str] is the list of its code points; [py] embeds an ASCII literal.
    [split], [join], [find], [strip], [splitlines], [isdigit], [int(s)] and
    [str(n)] follow the language's definitions. *)

From S2P Require Import Prelude.
From stdpp Require Import pretty.
Open Scope Z_scope.

(** A Python [str]: its code points. *)
Abbreviation pystr := (list Z).

Definition ord (a : Ascii.ascii) : Z := Z.of_N (Ascii.N_of_ascii a).

Fixpoint py (s : string) : pystr :=
  match s with
  | EmptyString => []
  | String a s => ord a :: py s
  end.

(** [str(n)] for a non-negative integer. *)
Definition str_of_int (n : Z) : pystr := py (pretty (Z.to_N n)).

(** [s.split(c)]: never empty. *)
Fixpoint split_on (c : Z) (s : pystr) : list pystr :=
  match s with
  | [] => [[]]
  | x :: s =>
      if x =? c then [] :: split_on c s
      else match split_on c s with
           | [] => [[x]]
           | w :: ws => (x :: w) :: ws
           end
  end.

(** [c.join(ws)]. *)
Fixpoint join_with (c : Z) (ws : list pystr) : pystr :=
  match ws with
  | [] => []
  | [w] => w
  | w :: ws => w ++ c :: join_with c ws
  end.

(** [s.find(c)] for a one-character needle; [None] is Python's [-1]. *)
Fixpoint find_char (c : Z) (s : pystr) : option nat :=
  match s with
  | [] => None
  | x :: s => if x =? c then Some 0%nat else S <$> find_char c s
  end.

Definition is_digit (c : Z) : bool := (48 <=? c) && (c <=? 57).
Definition is_hexdigit (c : Z) : bool :=
  is_digit c || ((65 <=? c) && (c <=? 70)) || ((97 <=? c) && (c <=? 102)).

(** [s.isascii() and s.isdigit()]. *)
Definition ascii_digits (s : pystr) : bool :=
  match s with [] => false | _ => forallb is_digit s end.

(** [int(s, 10)] on a string of ASCII digits. *)
Definition int10 (s : pystr) : Z := foldl (fun acc c => acc * 10 + (c - 48)) 0 s.

Definition hexval (c : Z) : Z :=
  if is_digit c then c - 48 else if c <=? 70 then c - 55 else c - 87.
Definition int16 (s : pystr) : Z := foldl (fun acc c => acc * 16 + hexval c) 0 s.

(** CPython refuses [int(s)] on more than 4300 digits. *)
Definition INT_MAX_STR_DIGITS : nat := 4300.

(** [str.isspace] code points: what [strip()] removes. *)
Definition is_space (c : Z) : bool :=
  ((9 <=? c) && (c <=? 13)) || ((28 <=? c) && (c <=? 32)) || (c =? 133) ||
  (c =? 160) || (c =? 5760) || ((8192 <=? c) && (c <=? 8202)) ||
  (c =? 8232) || (c =? 8233) || (c =? 8239) || (c =? 8287) || (c =? 12288).

Fixpoint lstrip (s : pystr) : pystr :=
  match s with
  | [] => []
  | c :: s' => if is_space c then lstrip s' else s
  end.
Definition rstrip (s : pystr) : pystr := reverse (lstrip (reverse s)).
Definition strip (s : pystr) : pystr := rstrip (lstrip s).

(** [str.splitlines] boundaries; CR LF counts as one boundary. *)
Definition is_linebreak (c : Z) : bool :=
  ((10 <=? c) && (c <=? 13)) || ((28 <=? c) && (c <=? 30)) || (c =? 133) ||
  (c =? 8232) || (c =? 8233).

Fixpoint splitlines_aux (cur : pystr) (s : pystr) : list pystr :=
  match s with
  | [] => match cur with [] => [] | _ => [reverse cur] end
  | c :: s' =>
      if is_linebreak c then
        match c, s' with
        | 13, 10 :: s'' => reverse cur :: splitlines_aux [] s''
        | _, _ => reverse cur :: splitlines_aux [] s'
        end
      else splitlines_aux (c :: cur) s'
  end.
Definition splitlines (s : pystr) : list pystr := splitlines_aux [] s.

(** ** Lemmas *)

Lemma split_on_nonempty c s : split_on c s ≠ [].
Proof.
  destruct s as [|x s]; simpl; [done|].
  destruct (x =? c); [done|]. by destruct (split_on c s).
Qed.

Lemma split_on_word c w : c ∉ w → split_on c w = [w].
Proof.
  induction w as [|x w IH]; intros Hn; simpl; [done|].
  apply not_elem_of_cons in Hn as [Hx Hn].
  rewrite (proj2 (Z.eqb_neq x c)) by congruence. by rewrite IH.
Qed.

Lemma split_on_app c w s :
  c ∉ w → split_on c (w ++ c :: s) = w :: split_on c s.
Proof.
  induction w as [|x w IH]; intros Hn; simpl.
  - by rewrite Z.eqb_refl.
  - apply not_elem_of_cons in Hn as [Hx Hn].
    rewrite (proj2 (Z.eqb_neq x c)) by congruence. by rewrite IH.
Qed.

(** Splitting what was joined gives the words back. *)
Lemma split_join c ws :
  ws ≠ [] → Forall (fun w => c ∉ w) ws → split_on c (join_with c ws) = ws.
Proof.
  induction ws as [|w ws IH]; intros Hne Hall; [done|].
  apply Forall_cons in Hall as [Hw Hall].
  destruct ws as [|w' ws]; [by apply split_on_word|].
  change (join_with c (w :: w' :: ws)) with (w ++ c :: join_with c (w' :: ws)).
  rewrite split_on_app by done. by rewrite IH.
Qed.

(** Joining what was split gives the string back. *)
Lemma join_split c s : join_with c (split_on c s) = s.
Proof.
  induction s as [|x s IH]; simpl; [done|].
  pose proof (split_on_nonempty c s) as Hne.
  destruct (Z.eqb_spec x c) as [->|Hx].
  - destruct (split_on c s) as [|w ws]; [done|]. simpl in *. by rewrite IH.
  - destruct (split_on c s) as [|w ws]; [done|].
    destruct ws; simpl in *; by rewrite IH.
Qed.

Lemma int10_snoc s c : int10 (s ++ [c]) = int10 s * 10 + (c - 48).
Proof. unfold int10. by rewrite foldl_snoc. Qed.

Lemma int10_nonneg s : forallb is_digit s = true → 0 <= int10 s.
Proof.
  induction s as [|c s IH] using rev_ind; [done|].
  rewrite forallb_app, int10_snoc. simpl. unfold is_digit.
  intros [Hs Hc]%andb_prop. specialize (IH Hs). lia.
Qed.

Lemma is_digit_range c : is_digit c = true ↔ 48 <= c <= 57.
Proof. unfold is_digit. lia. Qed.

Lemma lstrip_suffix s : ∃ p, s = p ++ lstrip s ∧ forallb is_space p = true.
Proof.
  induction s as [|c s (p & Hs & Hp)]; [by exists []|]. simpl.
  destruct (is_space c) eqn:Hc.
  - exists (c :: p). simpl. rewrite Hc. by rewrite <- Hs.
  - by exists [].
Qed.

Lemma lstrip_head s c s' : lstrip s = c :: s' → is_space c = false.
Proof.
  induction s as [|x s IH]; [done|]. simpl.
  destruct (is_space x) eqn:Hx; [done|]. by intros [= -> ->].
Qed.

Lemma lstrip_id s : (∀ c, head s = Some c → is_space c = false) → lstrip s = s.
Proof. destruct s as [|c s]; [done|]. simpl. intros H. by rewrite (H c). Qed.

(** Stripping is idempotent. *)
Lemma lstrip_lstrip s : lstrip (lstrip s) = lstrip s.
Proof.
  apply lstrip_id. intros c Hc. destruct (lstrip s) eqn:E; [done|].
  injection Hc as ->. by eapply lstrip_head.
Qed.
