(* ===== verification/Ipaddress.v ===== *)
(** * IPv4 networks and CIDR validation

    Python's [ipaddress] module as far as the control plane uses it
    ([ip_network], [IPv4Address], [subnet_of], [str]), the PostgreSQL [cidr]
    operators the queries use, and [core/cidr.py] in module [Cidr].  The main
    results: the boolean tests agree with the sets of addresses they stand
    for, and parsing a printed network gives the network back. *)

From S2P Require Import Prelude PyStr.
Open Scope Z_scope.

(** An [IPv4Network] with its [network_address] and [prefixlen]. *)
Record ipv4net := Net { network_address : Z; prefixlen : Z }.

#[global] Instance ipv4net_eq_dec : EqDecision ipv4net.
Proof. solve_decision. Defined.

#[global] Program Instance ipv4net_countable : Countable ipv4net :=
  inj_countable' (fun n => (network_address n, prefixlen n))
                 (fun p => Net p.1 p.2) _.
Next Obligation. by intros []. Qed.

Definition ALL_ONES : Z := 2 ^ 32 - 1.

(** [_ip_int_from_prefix]. *)
Definition netmask (p : Z) : Z := Z.lxor ALL_ONES (Z.shiftr ALL_ONES p).
Definition hostmask (p : Z) : Z := Z.lxor (netmask p) ALL_ONES.
Definition broadcast_address (n : ipv4net) : Z :=
  Z.lor (network_address n) (hostmask (prefixlen n)).
Definition num_addresses (n : ipv4net) : Z :=
  broadcast_address n - network_address n + 1.

(** [_is_subnet_of(a, b)]. *)
Definition subnet_of (a b : ipv4net) : bool :=
  (network_address b <=? network_address a) &&
  (broadcast_address a <=? broadcast_address b).

(** What every constructed [IPv4Network] satisfies. *)
Definition net_wf (n : ipv4net) : Prop :=
  0 <= prefixlen n <= 32 ∧ 0 <= network_address n < 2 ^ 32 ∧
  Z.land (network_address n) (netmask (prefixlen n)) = network_address n.

#[global] Instance net_wf_dec n : Decision (net_wf n).
Proof. unfold net_wf. apply _. Defined.

(** The addresses of a network. *)
Definition in_net (ip : Z) (n : ipv4net) : Prop :=
  0 <= ip < 2 ^ 32 ∧ Z.land ip (netmask (prefixlen n)) = network_address n.

(** ** PostgreSQL [cidr] operators

    [a >>= b]: the first [bits a] bits agree and [a] is not longer;
    [a && b]: the common prefix bits agree. *)
Definition cidr_contains_eq (a b : ipv4net) : bool :=
  (prefixlen a <=? prefixlen b) &&
  (Z.land (network_address b) (netmask (prefixlen a)) =? network_address a).

Definition cidr_contained_eq (a b : ipv4net) : bool := cidr_contains_eq b a.

Definition cidr_overlap (a b : ipv4net) : bool :=
  let m := netmask (Z.min (prefixlen a) (prefixlen b)) in
  Z.land (network_address a) m =? Z.land (network_address b) m.

(** ** Parsing *)

(** The three ways [IPv4Network(s)] and [IPv6Network(s)] fail.  All are
    [ValueError]s; [ip_network] catches the first two. *)
Inductive net_error := AddressValueError | NetmaskValueError | HostBitsSet.

Definition parse_octet (s : pystr) : option Z :=
  if negb (ascii_digits s) then None
  else if (3 <? length s)%nat then None
  else if negb (bool_decide (s = py "0")) && bool_decide (head s = Some 48) then None
  else if 255 <? int10 s then None
  else Some (int10 s).

(** [int.from_bytes(octets, 'big')]. *)
Definition from_bytes_be (bs : list Z) : Z := foldl (fun acc b => acc * 256 + b) 0 bs.

Definition ip_int_from_string (s : pystr) : option Z :=
  match s with
  | [] => None
  | _ =>
      let octets := split_on 46 s in
      if (length octets =? 4)%nat then
        from_bytes_be <$> mapM parse_octet octets
      else None
  end.

(** [_string_from_ip_int]. *)
Definition to_bytes_be (ip : Z) : list Z :=
  [ip / 2 ^ 24 mod 256; ip / 2 ^ 16 mod 256; ip / 2 ^ 8 mod 256; ip mod 256].
Definition string_from_ip_int (ip : Z) : pystr :=
  join_with 46 (str_of_int <$> to_bytes_be ip).

(** [str(network)]. *)
Definition str_of_net (n : ipv4net) : pystr :=
  string_from_ip_int (network_address n) ++ 47 :: str_of_int (prefixlen n).

(** The same text as a column or message value. *)
Fixpoint string_of_pystr (s : pystr) : string :=
  match s with
  | [] => EmptyString
  | c :: s => String (Ascii.ascii_of_N (Z.to_N c)) (string_of_pystr s)
  end.
Definition cidr_str (n : ipv4net) : string := string_of_pystr (str_of_net n).

Definition bit_length (n : Z) : Z := if n =? 0 then 0 else Z.log2 n + 1.

Definition count_righthand_zero_bits (number bits : Z) : Z :=
  if number =? 0 then bits
  else Z.min bits (bit_length (Z.land (Z.lnot number) (number - 1))).

Definition prefix_from_ip_int (ip : Z) : option Z :=
  let trailing_zeroes := count_righthand_zero_bits ip 32 in
  let plen := 32 - trailing_zeroes in
  if Z.shiftr ip trailing_zeroes =? Z.shiftl 1 plen - 1 then Some plen else None.

Definition prefix_from_prefix_string (max_prefixlen : Z) (s : pystr) : option Z :=
  if negb (ascii_digits s) then None
  else if (INT_MAX_STR_DIGITS <? length s)%nat then None
  else if int10 s <=? max_prefixlen then Some (int10 s) else None.

Definition prefix_from_ip_string (s : pystr) : option Z :=
  match ip_int_from_string s with
  | None => None
  | Some ip =>
      match prefix_from_ip_int ip with
      | Some p => Some p
      | None => prefix_from_ip_int (Z.lxor ip ALL_ONES)
      end
  end.

(** [_make_netmask] on the optional text after the slash. *)
Definition make_netmask (mask : option pystr) : option Z :=
  match mask with
  | None => Some 32
  | Some s =>
      match prefix_from_prefix_string 32 s with
      | Some p => Some p
      | None => prefix_from_ip_string s
      end
  end.

(** [_split_addr_prefix]. *)
Definition split_addr_prefix (s : pystr) : option (pystr * option pystr) :=
  match split_on 47 s with
  | [a] => Some (a, None)
  | [a; m] => Some (a, Some m)
  | _ => None
  end.

(** [IPv4Network(s, strict)]. *)
Definition ipv4_network (s : pystr) (strict : bool) : net_error + ipv4net :=
  match split_addr_prefix s with
  | None => inl AddressValueError
  | Some (addr, mask) =>
      match ip_int_from_string addr with
      | None => inl AddressValueError
      | Some packed =>
          match make_netmask mask with
          | None => inl NetmaskValueError
          | Some p =>
              if Z.land packed (netmask p) =? packed then inr (Net packed p)
              else if strict then inl HostBitsSet
              else inr (Net (Z.land packed (netmask p)) p)
          end
      end
  end.

(** *** IPv6, as far as [ip_network] tries it on what is not IPv4 *)

Definition parse_hextet (s : pystr) : option Z :=
  match s with
  | [] => None
  | _ => if forallb is_hexdigit s && (length s <=? 4)%nat then Some (int16 s) else None
  end.

(** ['%x' % n] for a 16-bit [n], as the hextet text it parses back to; only
    its value matters below, so the expansion of a dotted suffix keeps the
    value. *)
Definition hextet := (pystr + Z)%type.
Definition hextet_empty (h : hextet) : bool :=
  match h with inl [] => true | _ => false end.
Definition hextet_value (h : hextet) : option Z :=
  match h with inl s => parse_hextet s | inr v => Some v end.

Fixpoint find_skips (i : nat) (parts : list hextet) : list nat :=
  match parts with
  | [] | [_] => []
  | p :: ps => (if hextet_empty p then [i] else []) ++ find_skips (S i) ps
  end.

Definition hextets_value (parts : list hextet) : option Z :=
  foldl (fun acc v => Z.lor (Z.shiftl acc 16) v) 0 <$> mapM hextet_value parts.

Definition ipv6_int_from_string (s : pystr) : option Z :=
  match s with
  | [] => None
  | _ =>
      let raw := split_on 58 s in
      if (length raw <? 3)%nat then None else
      let last_part := default [] (last raw) in
      parts ← (if bool_decide (46 ∈ last_part) then
                 v4 ← ip_int_from_string last_part;
                 Some ((inl <$> removelast raw) ++
                       [inr (Z.land (Z.shiftr v4 16) 65535); inr (Z.land v4 65535)])
               else Some (inl <$> raw : list hextet));
      let n := length parts in
      if (9 <? n)%nat then None else
      let first_empty := hextet_empty (default (inr 0) (head parts)) in
      let last_empty := hextet_empty (default (inr 0) (last parts)) in
      match find_skips 1 (drop 1 parts) with
      | [] =>
          if negb (n =? 8)%nat || first_empty || last_empty then None
          else hextets_value parts
      | [i] =>
          let hi := if first_empty then (i - 1)%nat else i in
          let lo0 := (n - i - 1)%nat in
          let lo := if last_empty then (lo0 - 1)%nat else lo0 in
          if (first_empty && negb (hi =? 0)%nat) || (last_empty && negb (lo =? 0)%nat)
             || (8 - (hi + lo) <? 1)%nat
          then None
          else
            h ← hextets_value (take hi parts);
            l ← hextets_value (drop (n - lo) parts);
            Some (Z.lor (Z.shiftl (Z.shiftl h (16 * Z.of_nat (8 - (hi + lo))))
                           (16 * Z.of_nat lo)) l)
      | _ => None
      end
  end.

(** [_split_scope_id]. *)
Definition split_scope_id (s : pystr) : option pystr :=
  match split_on 37 s with
  | [a] => Some a
  | [a; sc] => if bool_decide (sc = []) then None else Some a
  | _ => None
  end.

Definition netmask6 (p : Z) : Z :=
  Z.lxor (2 ^ 128 - 1) (Z.shiftr (2 ^ 128 - 1) p).

Definition ipv6_network (s : pystr) (strict : bool) : net_error + (Z * Z) :=
  match split_addr_prefix s with
  | None => inl AddressValueError
  | Some (addr, mask) =>
      match split_scope_id addr ≫= ipv6_int_from_string with
      | None => inl AddressValueError
      | Some packed =>
          match (match mask with None => Some 128
                 | Some m => prefix_from_prefix_string 128 m end) with
          | None => inl NetmaskValueError
          | Some p =>
              if Z.land packed (netmask6 p) =? packed then inr (packed, p)
              else if strict then inl HostBitsSet
              else inr (Z.land packed (netmask6 p), p)
          end
      end
  end.

Inductive ip_net := V4 (n : ipv4net) | V6 (packed p : Z).

(** [ip_network(s, strict)]: [None] is the [ValueError]. *)
Definition ip_network (s : pystr) (strict : bool) : option ip_net :=
  match ipv4_network s strict with
  | inr n => Some (V4 n)
  | inl HostBitsSet => None
  | inl _ =>
      match ipv6_network s strict with
      | inr (a, p) => Some (V6 a p)
      | inl _ => None
      end
  end.

(** ** [core/cidr.py] *)
Module Cidr.

Definition has_host_bits (value : pystr) : bool :=
  match ip_network value true with
  | Some (V4 _) => false
  | Some (V6 _ _) => true
  | None =>
      match ip_network value false with
      | Some (V4 _) => true
      | _ => false
      end
  end.

(** What [parse_ipv4_cidr] raises: [CidrValidationError] with its message;
    the canonical network is part of the host-bits message. *)
Inductive cidr_error :=
  | HostBits (canonical : ip_net)
  | InvalidCidr
  | Ipv6NotSupported
  | ReservedRange
  | SlashZero
  | CanonicalizationFailed.

Definition parse_ipv4_cidr (value : pystr) : cidr_error + ipv4net :=
  match ip_network value true with
  | None =>
      if has_host_bits value then
        match ip_network value false with
        | Some canonical => inl (HostBits canonical)
        | None => inl CanonicalizationFailed
        end
      else inl InvalidCidr
  | Some (V6 _ _) => inl Ipv6NotSupported
  | Some (V4 n) => inr n
  end.

Definition reject_reserved (net : ipv4net) : cidr_error + unit :=
  if bool_decide (net = Net 0 0) || subnet_of net (Net 0 8)
  then inl ReservedRange else inr tt.

Definition is_subnet (target container : ipv4net) : bool :=
  subnet_of target container.

(** [str(exc)], as the routers and services put it into a 422 response.  The
    canonical network is always an IPv4 network
    ([host_bits_suggestion_accepted]). *)
Definition cidr_error_msg (e : cidr_error) : string :=
  match e with
  | HostBits (V4 n) => "CIDR has host bits set; canonical network is " +:+ cidr_str n
  | HostBits (V6 _ _) => "CIDR has host bits set; canonical network is an IPv6 network"
  | InvalidCidr => "Invalid CIDR"
  | Ipv6NotSupported => "IPv6 CIDRs are not supported"
  | ReservedRange => "Reserved CIDR range is not allowed"
  | SlashZero => "CIDR /0 is not allowed"
  | CanonicalizationFailed => "ValueError"
  end%string.

End Cidr.

(** ** Masks as arithmetic

    With [k = 32 - p] host bits, masking rounds down to a multiple of
    [2 ^ k], and the broadcast address is [2 ^ k - 1] further. *)

Lemma prefix_cases (f : Z → bool) :
  forallb f (seqZ 0 33) = true → ∀ p, 0 <= p <= 32 → f p = true.
Proof.
  intros H p Hp. rewrite forallb_forall in H.
  apply H, list_elem_of_In, elem_of_seqZ. lia.
Qed.

Lemma netmask_ones p : 0 <= p <= 32 → netmask p = Z.shiftl (Z.ones p) (32 - p).
Proof.
  intros Hp. apply Z.eqb_eq.
  apply (prefix_cases (fun p => netmask p =? Z.shiftl (Z.ones p) (32 - p))); [|done].
  vm_compute. reflexivity.
Qed.

Lemma hostmask_pow p : 0 <= p <= 32 → hostmask p = 2 ^ (32 - p) - 1.
Proof.
  intros Hp. apply Z.eqb_eq.
  apply (prefix_cases (fun p => hostmask p =? 2 ^ (32 - p) - 1)); [|done].
  vm_compute. reflexivity.
Qed.

Lemma land_netmask x p :
  0 <= p <= 32 → 0 <= x < 2 ^ 32 →
  Z.land x (netmask p) = x / 2 ^ (32 - p) * 2 ^ (32 - p).
Proof.
  intros Hp Hx. rewrite netmask_ones by done.
  rewrite <- Z.shiftl_mul_pow2, <- Z.shiftr_div_pow2 by lia.
  apply Z.bits_inj'. intros i Hi.
  rewrite Z.land_spec, !Z.shiftl_spec by lia.
  destruct (Z.ltb_spec i (32 - p)) as [Hlt|Hge].
  - rewrite !(Z.testbit_neg_r _ (i - (32 - p))) by lia. by rewrite andb_false_r.
  - rewrite Z.shiftr_spec by lia.
    replace (i - (32 - p) + (32 - p)) with i by lia.
    destruct (Z.ltb_spec i 32) as [Hlt32|Hge32].
    + rewrite Z.ones_spec_low by lia. by rewrite andb_true_r.
    + rewrite Z.bits_above_log2; [done|lia|].
      destruct (Z.eq_dec x 0) as [->|]; [simpl; lia|].
      apply Z.log2_lt_pow2; [lia|].
      eapply Z.lt_le_trans; [apply Hx|]. apply Z.pow_le_mono_r; lia.
Qed.

Section wf_net.
Context (n : ipv4net) (Hwf : net_wf n).
Let k := 32 - prefixlen n.
Let addr := network_address n.

Lemma net_wf_k : 0 <= k <= 32 ∧ 0 < 2 ^ k <= 2 ^ 32.
Proof.
  destruct Hwf as (Hp & _ & _). unfold k. split; [lia|]. split.
  - apply Z.pow_pos_nonneg; lia.
  - apply Z.pow_le_mono_r; lia.
Qed.

(** The network address is a multiple of the block size. *)
Lemma net_wf_aligned : addr = addr / 2 ^ k * 2 ^ k.
Proof.
  destruct Hwf as (Hp & Ha & Hl). unfold addr, k.
  rewrite <- (land_netmask _ _ Hp Ha). congruence.
Qed.

Lemma broadcast_sum : broadcast_address n = addr + (2 ^ k - 1).
Proof.
  unfold broadcast_address. destruct Hwf as (Hp & Ha & Hl).
  rewrite hostmask_pow by done. fold k addr.
  pose proof (Z.add_lor_land addr (2 ^ k - 1)) as Hsum.
  assert (Z.land addr (2 ^ k - 1) = 0) as H0; [|lia].
  replace (2 ^ k - 1) with (Z.ones k) by (rewrite Z.ones_equiv; lia).
  destruct net_wf_k as [Hk Hpow]. rewrite Z.land_ones by lia.
  rewrite net_wf_aligned. apply Z.mod_mul. lia.
Qed.

Lemma num_addresses_pow : num_addresses n = 2 ^ k.
Proof. unfold num_addresses. rewrite broadcast_sum. unfold addr. lia. Qed.

Lemma net_wf_block : 0 <= addr ∧ addr + 2 ^ k <= 2 ^ 32.
Proof.
  destruct Hwf as (Hp & Ha & Hl). fold addr in Ha. split; [lia|].
  pose proof net_wf_aligned as He. destruct net_wf_k as [Hk Hpow].
  assert (2 ^ 32 = 2 ^ (32 - k) * 2 ^ k) as H32.
  { rewrite <- Z.pow_add_r by lia. f_equal. lia. }
  assert (addr / 2 ^ k < 2 ^ (32 - k)) by (apply Z.div_lt_upper_bound; lia).
  nia.
Qed.

(** A network is the interval from its address to its broadcast. *)
Lemma in_net_interval ip :
  in_net ip n ↔ addr <= ip <= broadcast_address n.
Proof.
  rewrite broadcast_sum. destruct net_wf_k as [Hk Hpow].
  pose proof net_wf_block as Hb. pose proof net_wf_aligned as He.
  destruct Hwf as (Hp & _ & _). unfold in_net. fold addr. split.
  - intros [Hip Hl]. rewrite land_netmask in Hl by done. fold k in Hl.
    pose proof (Z.div_mod ip (2 ^ k)). pose proof (Z.mod_pos_bound ip (2 ^ k)). lia.
  - intros Hip. split; [lia|]. rewrite land_netmask by lia. fold k.
    assert (ip / 2 ^ k = addr / 2 ^ k) as ->; [|lia].
    symmetry. apply Z.div_unique with (ip - addr); lia.
Qed.

Lemma in_net_self : in_net addr n.
Proof. apply in_net_interval. rewrite broadcast_sum. destruct net_wf_k. lia. Qed.
End wf_net.

(** [subnet_of] is inclusion of the address sets. *)
Lemma subnet_of_incl a b :
  net_wf a → net_wf b →
  subnet_of a b = true ↔ ∀ ip, in_net ip a → in_net ip b.
Proof.
  intros Ha Hb. unfold subnet_of. rewrite andb_true_iff, !Z.leb_le.
  setoid_rewrite in_net_interval; [|done..]. split; [lia|].
  intros H. rewrite (broadcast_sum a Ha) in *. destruct (net_wf_k a Ha).
  split.
  - apply (H (network_address a)). lia.
  - apply H. lia.
Qed.

(** Two blocks that share an address are nested. *)
Lemma nested_of_common a b ip :
  net_wf a → net_wf b → prefixlen a <= prefixlen b →
  in_net ip a → in_net ip b → ∀ ip', in_net ip' b → in_net ip' a.
Proof.
  intros Ha Hb Hle [Hip Hla] [_ Hlb] ip' [Hip' Hl]. split; [done|].
  destruct Ha as (Hpa & _), Hb as (Hpb & _).
  rewrite land_netmask in * by done. rewrite <- Hla. f_equal.
  set (ka := 32 - prefixlen a) in *. set (kb := 32 - prefixlen b) in *.
  assert (0 < 2 ^ kb) by (apply Z.pow_pos_nonneg; lia).
  assert (2 ^ ka = 2 ^ kb * 2 ^ (ka - kb)) as ->.
  { rewrite <- Z.pow_add_r by lia. f_equal. lia. }
  rewrite <- !Z.div_div by (try apply Z.pow_nonzero; lia).
  f_equal. apply Z.mul_cancel_r with (2 ^ kb); lia.
Qed.

Lemma contains_eq_in a b :
  net_wf a → net_wf b →
  cidr_contains_eq a b = true ↔
  prefixlen a <= prefixlen b ∧ in_net (network_address b) a.
Proof.
  intros Ha Hb. unfold cidr_contains_eq, in_net.
  rewrite andb_true_iff, Z.leb_le, Z.eqb_eq.
  destruct Hb as (? & ? & ?). tauto.
Qed.

(** PostgreSQL's [>>=] is inclusion of the address sets. *)
Lemma contains_eq_incl a b :
  net_wf a → net_wf b →
  cidr_contains_eq a b = true ↔ ∀ ip, in_net ip b → in_net ip a.
Proof.
  intros Ha Hb. rewrite contains_eq_in by done. split.
  - intros [Hle Hin]. apply (nested_of_common a b (network_address b)); try done.
    by apply in_net_self.
  - intros H. split; [|by apply H, in_net_self].
    assert (2 ^ (32 - prefixlen b) <= 2 ^ (32 - prefixlen a)) as Hpow.
    { destruct (net_wf_k b Hb) as [_ Hkb].
      assert (in_net (network_address b) a) as Hfst by (by apply H, in_net_self).
      assert (in_net (broadcast_address b) a) as Hlst.
      { apply H, in_net_interval; [done|]. rewrite (broadcast_sum b Hb). lia. }
      apply in_net_interval in Hfst, Hlst; [|done..].
      rewrite (broadcast_sum a Ha), (broadcast_sum b Hb) in *. lia. }
    destruct Ha as ((? & ?) & _), Hb as ((? & ?) & _).
    apply Z.pow_le_mono_r_iff in Hpow; lia.
Qed.

(** PostgreSQL's [&&] holds exactly when some address is in both. *)
Lemma overlap_common a b :
  net_wf a → net_wf b →
  cidr_overlap a b = true ↔ ∃ ip, in_net ip a ∧ in_net ip b.
Proof.
  intros Ha Hb. unfold cidr_overlap. rewrite Z.eqb_eq.
  assert (∀ c d, net_wf c → net_wf d → prefixlen c <= prefixlen d →
    Z.land (network_address c) (netmask (prefixlen c)) =
    Z.land (network_address d) (netmask (prefixlen c)) ↔
    ∃ ip, in_net ip c ∧ in_net ip d) as Hcase.
  { intros c d Hc Hd Hle. destruct (Hc) as (Hcp & Hca & Hcl), (Hd) as (Hdp & Hda & Hdl).
    rewrite Hcl. split.
    - intros He. exists (network_address d). split; [by split|by apply in_net_self].
    - intros (ip & Hic & Hid).
      destruct (nested_of_common c d ip Hc Hd Hle Hic Hid (network_address d)) as [_ Hl];
        [by apply in_net_self|done]. }
  destruct (Z.le_ge_cases (prefixlen a) (prefixlen b)) as [Hle|Hge].
  - rewrite Z.min_l by done. by apply Hcase.
  - rewrite Z.min_r by done. setoid_rewrite <- (and_comm (in_net _ b)).
    rewrite <- (Hcase b a) by done. split; congruence.
Qed.

Lemma overlap_sym a b : cidr_overlap a b = cidr_overlap b a.
Proof.
  unfold cidr_overlap. rewrite (Z.min_comm (prefixlen b)). apply Z.eqb_sym.
Qed.

Lemma overlap_refl a : cidr_overlap a a = true.
Proof. unfold cidr_overlap. apply Z.eqb_refl. Qed.

(** ** Printing and parsing *)

Definition octet_ok (b : Z) : bool :=
  bool_decide (parse_octet (str_of_int b) = Some b) &&
  forallb is_digit (str_of_int b) && negb (bool_decide (str_of_int b = [])).

Lemma octet_ok_all b : 0 <= b < 256 → octet_ok b = true.
Proof.
  intros Hb. assert (forallb octet_ok (seqZ 0 256) = true) as H by (by vm_compute).
  rewrite forallb_forall in H. apply H, list_elem_of_In, elem_of_seqZ. lia.
Qed.

Lemma octet_str b : 0 <= b < 256 →
  parse_octet (str_of_int b) = Some b ∧ (46 ∉ str_of_int b) ∧ (47 ∉ str_of_int b) ∧
  str_of_int b ≠ [].
Proof.
  intros Hb%octet_ok_all. unfold octet_ok in Hb.
  rewrite !andb_true_iff, negb_true_iff in Hb. destruct Hb as [[H1 H2] H3].
  apply bool_decide_eq_true in H1. apply bool_decide_eq_false in H3.
  rewrite forallb_forall in H2.
  split_and!; [done| | |done]; intros Hin; apply list_elem_of_In in Hin;
    by specialize (H2 _ Hin).
Qed.

Lemma to_bytes_range ip : 0 <= ip < 2 ^ 32 →
  Forall (fun b => 0 <= b < 256) (to_bytes_be ip).
Proof.
  intros H. unfold to_bytes_be. repeat constructor; try apply Z.mod_pos_bound; lia.
Qed.

Lemma from_to_bytes ip : 0 <= ip < 2 ^ 32 → from_bytes_be (to_bytes_be ip) = ip.
Proof.
  intros H. unfold from_bytes_be, to_bytes_be. simpl.
  assert (ip / 2 ^ 16 = ip / 2 ^ 8 / 256) as E1 by (by rewrite Z.div_div by lia).
  assert (ip / 2 ^ 24 = ip / 2 ^ 8 / 256 / 256) as E2 by (by rewrite !Z.div_div by lia).
  change (2 ^ 8) with 256 in *. change (Z.pow_pos 2 16) with (2 ^ 16).
  change (Z.pow_pos 2 24) with (2 ^ 24). change (Z.pow_pos 2 8) with 256.
  rewrite E1, E2.
  pose proof (Z.div_mod ip 256). pose proof (Z.div_mod (ip / 256) 256).
  pose proof (Z.div_mod (ip / 256 / 256) 256).
  assert (ip / 256 / 256 / 256 < 256) by
    (rewrite !Z.div_div by lia; apply Z.div_lt_upper_bound; lia).
  assert (0 <= ip / 256 / 256 / 256) by (repeat apply Z.div_pos; lia).
  rewrite (Z.mod_small (ip / 256 / 256 / 256)) by lia. lia.
Qed.

Lemma mapM_octets bs : Forall (fun b => 0 <= b < 256) bs →
  mapM parse_octet (str_of_int <$> bs) = Some bs.
Proof.
  intros H. apply mapM_Some_2, Forall2_fmap_l, Forall_Forall2_diag.
  eapply Forall_impl; [exact H|]. intros b Hb. apply (octet_str b Hb).
Qed.

Lemma split_ip_string ip : 0 <= ip < 2 ^ 32 →
  split_on 46 (string_from_ip_int ip) = str_of_int <$> to_bytes_be ip.
Proof.
  intros H. apply split_join; [done|]. apply Forall_fmap.
  eapply Forall_impl; [by apply to_bytes_range|].
  intros b Hb. apply (octet_str b Hb).
Qed.

Lemma ip_string_nonempty ip : 0 <= ip < 2 ^ 32 → string_from_ip_int ip ≠ [].
Proof.
  intros H He. pose proof (split_ip_string ip H) as Hs. rewrite He in Hs. done.
Qed.

Lemma ip_string_roundtrip ip : 0 <= ip < 2 ^ 32 →
  ip_int_from_string (string_from_ip_int ip) = Some ip.
Proof.
  intros H. unfold ip_int_from_string.
  destruct (string_from_ip_int ip) eqn:E; [by apply ip_string_nonempty in E|].
  rewrite <- E, split_ip_string by done. rewrite length_fmap. simpl length.
  rewrite mapM_octets by (by apply to_bytes_range). simpl.
  f_equal. by apply from_to_bytes.
Qed.

Lemma ip_string_no_slash ip : 0 <= ip < 2 ^ 32 → 47 ∉ string_from_ip_int ip.
Proof.
  intros H Hin. unfold string_from_ip_int in Hin.
  assert (∀ ws, Forall (fun w => 47 ∉ w) ws → 47 ∉ join_with 46 ws) as Hj.
  { induction ws as [|w ws IH]; [intros _; apply not_elem_of_nil|].
    intros [Hw Hws]%Forall_cons. destruct ws as [|w' ws]; [done|].
    change (join_with 46 (w :: w' :: ws)) with (w ++ 46 :: join_with 46 (w' :: ws)).
    rewrite elem_of_app, elem_of_cons. specialize (IH Hws). intros [?|[?|?]]; done. }
  apply Hj in Hin; [done|]. apply Forall_fmap.
  eapply Forall_impl; [by apply to_bytes_range|].
  intros b Hb. apply (octet_str b Hb).
Qed.

Lemma prefix_string_roundtrip p : 0 <= p <= 32 →
  prefix_from_prefix_string 32 (str_of_int p) = Some p.
Proof.
  intros Hp.
  pose proof (prefix_cases (fun p => bool_decide
    (prefix_from_prefix_string 32 (str_of_int p) = Some p))) as H.
  apply (bool_decide_unpack _), Is_true_true, H; [by vm_compute|done].
Qed.

(** Parsing [str(net)] strictly gives [net] back. *)
Lemma ipv4_network_roundtrip n strict :
  net_wf n → ipv4_network (str_of_net n) strict = inr n.
Proof.
  intros (Hp & Ha & Hl). unfold ipv4_network, split_addr_prefix, str_of_net.
  rewrite split_on_app by (by apply ip_string_no_slash).
  rewrite split_on_word by (apply (octet_str (prefixlen n)); lia). simpl.
  rewrite ip_string_roundtrip by done.
  rewrite prefix_string_roundtrip by done.
  rewrite Hl, Z.eqb_refl. by destruct n.
Qed.

(** *** What the parser returns is a network *)

Lemma parse_octet_range s b : parse_octet s = Some b → 0 <= b < 256.
Proof.
  unfold parse_octet. repeat case_match; intros [= <-].
  assert (ascii_digits s = true) as Hd by (by destruct (ascii_digits s)).
  unfold ascii_digits in Hd. destruct s; [done|].
  apply int10_nonneg in Hd. lia.
Qed.

Lemma from_bytes_range bs :
  Forall (fun b => 0 <= b < 256) bs → 0 <= from_bytes_be bs < 256 ^ Z.of_nat (length bs).
Proof.
  induction bs as [|b bs IH] using rev_ind; [done|].
  rewrite Forall_app, Forall_singleton. intros [H Hb]. specialize (IH H).
  unfold from_bytes_be in *. rewrite foldl_snoc, length_app. simpl length.
  rewrite Nat2Z.inj_add, Z.pow_add_r by lia. change (256 ^ Z.of_nat 1) with 256. lia.
Qed.

Lemma ip_int_range s ip : ip_int_from_string s = Some ip → 0 <= ip < 2 ^ 32.
Proof.
  unfold ip_int_from_string. destruct s; [done|].
  case_match eqn:E; [|done]. intros (bs & Hbs & ->)%fmap_Some.
  apply Nat.eqb_eq in E.
  assert (Forall (fun b => 0 <= b < 256) bs) as Hr.
  { eapply mapM_Some_1 in Hbs. clear E. induction Hbs; constructor; [|done].
    by eapply parse_octet_range. }
  apply from_bytes_range in Hr.
  apply mapM_Some_1, Forall2_length in Hbs. rewrite <- Hbs, E in Hr. done.
Qed.

Lemma bit_length_nonneg n : 0 <= bit_length n.
Proof. unfold bit_length. case_match; [done|]. pose proof (Z.log2_nonneg n). lia. Qed.

Lemma prefix_from_ip_int_range ip p : prefix_from_ip_int ip = Some p → 0 <= p <= 32.
Proof.
  unfold prefix_from_ip_int. case_match; [|done]. intros [= <-].
  unfold count_righthand_zero_bits. case_match; [lia|].
  pose proof (bit_length_nonneg (Z.land (Z.lnot ip) (ip - 1))). lia.
Qed.

Lemma make_netmask_range m p : make_netmask m = Some p → 0 <= p <= 32.
Proof.
  destruct m as [s|]; simpl; [|by intros [= <-]].
  destruct (prefix_from_prefix_string 32 s) as [p'|] eqn:E.
  - intros [= <-]. unfold prefix_from_prefix_string in E. repeat case_match; simplify_eq.
    assert (ascii_digits s = true) as Hd by (by destruct (ascii_digits s)).
    unfold ascii_digits in Hd. destruct s; [done|]. apply int10_nonneg in Hd. lia.
  - unfold prefix_from_ip_string. repeat case_match; intros; simplify_eq;
      eauto using prefix_from_ip_int_range.
Qed.

Lemma land_netmask_idem x p :
  0 <= p <= 32 → 0 <= x < 2 ^ 32 →
  net_wf (Net (Z.land x (netmask p)) p).
Proof.
  intros Hp Hx. assert (0 < 2 ^ (32 - p)) by (apply Z.pow_pos_nonneg; lia).
  assert (0 <= Z.land x (netmask p) < 2 ^ 32) as Hr.
  { rewrite land_netmask by done. pose proof (Z.mul_div_le x (2 ^ (32 - p))).
    assert (0 <= x / 2 ^ (32 - p)) by (apply Z.div_pos; lia). nia. }
  split_and!; simpl; try lia.
  rewrite <- Z.land_assoc. f_equal. apply Z.land_diag.
Qed.

Lemma ipv4_network_wf s strict n : ipv4_network s strict = inr n → net_wf n.
Proof.
  unfold ipv4_network. repeat case_match; intros; simplify_eq.
  - assert (0 <= z < 2 ^ 32) by eauto using ip_int_range.
    assert (0 <= z0 <= 32) by eauto using make_netmask_range.
    split_and!; simpl; lia.
  - apply land_netmask_idem; eauto using ip_int_range, make_netmask_range.
Qed.

Lemma ip_network_v4 s strict n :
  ip_network s strict = Some (V4 n) ↔ ipv4_network s strict = inr n.
Proof.
  unfold ip_network. split.
  - repeat case_match; intros; by simplify_eq.
  - by intros ->.
Qed.

(** Relaxing [strict] only turns the host-bits failure into a success. *)
Lemma ipv4_network_relax s n :
  ipv4_network s true = inr n → ipv4_network s false = inr n.
Proof. unfold ipv4_network. repeat case_match; intros; by simplify_eq. Qed.

Lemma ipv4_network_host_bits s :
  ipv4_network s true = inl HostBitsSet → ∃ n, ipv4_network s false = inr n.
Proof. unfold ipv4_network. repeat case_match; intros; simplify_eq; eauto. Qed.

Lemma ipv4_network_error_relax s e :
  ipv4_network s true = inl e → e ≠ HostBitsSet → ipv4_network s false = inl e.
Proof. unfold ipv4_network. repeat case_match; intros; by simplify_eq. Qed.

(** ** Properties of [core/cidr.py] *)
Module CidrSpec.
Import Cidr.

Lemma parse_printed n : net_wf n → parse_ipv4_cidr (str_of_net n) = inr n.
Proof.
  intros Hwf. unfold parse_ipv4_cidr.
  by rewrite (proj2 (ip_network_v4 _ _ _) (ipv4_network_roundtrip n true Hwf)).
Qed.

Lemma parse_ipv4_cidr_wf s n : parse_ipv4_cidr s = inr n → net_wf n.
Proof.
  unfold parse_ipv4_cidr. repeat case_match; intros; simplify_eq.
  eapply ipv4_network_wf, ip_network_v4. eassumption.
Qed.

(** [parse_ipv4_cidr] accepts the printed form of a network exactly when
    it is a network with a prefix of 0 to 32 bits and no host bits set, and
    then returns that network: parsing inverts printing, and nothing that is
    not canonical is let through. *)
Theorem parse_ipv4_cidr_roundtrip n :
  parse_ipv4_cidr (str_of_net n) = inr n ↔ net_wf n.
Proof. split; [apply parse_ipv4_cidr_wf | apply parse_printed]. Qed.

(** Whenever [parse_ipv4_cidr] rejects a text for its host bits, the
    canonical network named in the error is an IPv4 network, and submitting
    its printed form is accepted. *)
Theorem host_bits_suggestion_accepted s c (H : parse_ipv4_cidr s = inl (HostBits c)) :
  ∃ n, c = V4 n ∧ parse_ipv4_cidr (str_of_net n) = inr n.
Proof.
  unfold parse_ipv4_cidr, has_host_bits in H.
  repeat case_match; simplify_eq.
  eexists. split; [done|]. apply parse_printed.
  eapply ipv4_network_wf, ip_network_v4. eassumption.
Qed.

Lemma host_bits_suggestion_accepted_witness :
  parse_ipv4_cidr (py "10.1.2.3/8") = inl (HostBits (V4 (Net 167772160 8))) ∧
  ∃ n, V4 (Net 167772160 8) = V4 n ∧ parse_ipv4_cidr (str_of_net n) = inr n.
Proof.
  split; [vm_compute; reflexivity|].
  apply (host_bits_suggestion_accepted (py "10.1.2.3/8")). vm_compute. reflexivity.
Defined.

(** The canonicalization inside the error path never fails. *)
Lemma canonicalization_total s : parse_ipv4_cidr s ≠ inl CanonicalizationFailed.
Proof. unfold parse_ipv4_cidr, has_host_bits. repeat case_match; congruence. Qed.

(** The subnet test of the API decides inclusion of address sets, and so
    does PostgreSQL's [>>=] in the allocation queries; PostgreSQL's [&&] in
    the conflict queries holds exactly when the two networks share an
    address. *)
Theorem subnet_tests_are_inclusion a b (Ha : net_wf a) (Hb : net_wf b) :
  (is_subnet a b = true ↔ ∀ ip, in_net ip a → in_net ip b) ∧
  cidr_contains_eq b a = is_subnet a b ∧
  (cidr_overlap a b = true ↔ ∃ ip, in_net ip a ∧ in_net ip b).
Proof.
  unfold is_subnet. split; [by apply subnet_of_incl|]. split.
  - apply eq_bool_prop_intro. rewrite !Is_true_true.
    by rewrite contains_eq_incl, subnet_of_incl.
  - by apply overlap_common.
Qed.

Lemma subnet_tests_are_inclusion_witness :
  is_subnet (Net 167772160 16) (Net 167772160 8) = true ∧
  cidr_contains_eq (Net 167772160 8) (Net 167772160 16) =
  is_subnet (Net 167772160 16) (Net 167772160 8).
Proof.
  split; [vm_compute; reflexivity|].
  refine (proj1 (proj2 (subnet_tests_are_inclusion
    (Net 167772160 16) (Net 167772160 8) _ _))); by_compute.
Defined.

(** [reject_reserved] refuses exactly 0.0.0.0/0 and the networks all of whose
    addresses lie in 0.0.0.0/8. *)
Lemma reject_reserved_spec net :
  net_wf net →
  reject_reserved net = inl ReservedRange ↔
  net = Net 0 0 ∨ ∀ ip, in_net ip net → ip < 2 ^ 24.
Proof.
  intros Hwf. assert (net_wf (Net 0 8)) as H8 by by_compute.
  unfold reject_reserved. destruct (bool_decide_reflect (net = Net 0 0)) as [Hz|Hz]; simpl.
  { tauto. }
  pose proof (subnet_of_incl net (Net 0 8) Hwf H8) as Hs.
  assert ((∀ ip, in_net ip net → in_net ip (Net 0 8)) ↔
          (∀ ip, in_net ip net → ip < 2 ^ 24)) as Hiff.
  { split; intros H ip Hip; specialize (H ip Hip).
    - apply in_net_interval in H; [|done].
      change (broadcast_address (Net 0 8)) with (2 ^ 24 - 1) in H. lia.
    - apply in_net_interval; [done|]. destruct Hip as [Hr _].
      change (broadcast_address (Net 0 8)) with (2 ^ 24 - 1). simpl. lia. }
  destruct (subnet_of net (Net 0 8)); intuition congruence.
Qed.

End CidrSpec.
