(* ===== verification/RuleMatch.v ===== *)
(** * Allow-rule overlap detection ([core/rulematch.py])

    Port ranges are optional pairs of bounds; a rule view is a protocol and two
    port ranges.  [rules_overlap] is compared with the packets that the rule
    tests of the data plane ([data-plane/src/rules.h]) accept. *)

From S2P Require Import Prelude.
Open Scope Z_scope.

Definition PortRange : Type := option Z * option Z.

Record RuleView := mkRuleView {
  rv_id : string;
  rv_protocol : string;
  rv_src_port : PortRange;
  rv_dst_port : PortRange
}.

#[global] Instance RuleView_eq_dec : EqDecision RuleView.
Proof. solve_decision. Defined.

Definition validate_port_range (lo hi : option Z) : exn + unit :=
  match lo, hi with
  | None, None => inr tt
  | Some lo, Some hi =>
      if (lo <? 0) || (65535 <? hi) || (hi <? lo)
      then inl (PortRangeError "Port range must satisfy 0 <= lo <= hi <= 65535")
      else inr tt
  | _, _ => inl (PortRangeError "Port range must include both bounds or neither")
  end.

Definition _protocols_intersect (a b : string) : bool :=
  bool_decide (a = b) || bool_decide (a = "any"%string) || bool_decide (b = "any"%string).

Definition _port_ranges_intersect (a b : PortRange) : exn + bool :=
  match validate_port_range a.1 a.2, validate_port_range b.1 b.2 with
  | inl e, _ => inl e
  | _, inl e => inl e
  | inr _, inr _ =>
      if bool_decide (a = (None, None)) || bool_decide (b = (None, None)) then inr true
      else
        match a, b with
        | (Some a_lo, Some a_hi), (Some b_lo, Some b_hi) =>
            inr ((a_lo <=? b_hi) && (b_lo <=? a_hi))
        | _, _ => inr false
        end
  end.

(** Python's [and] evaluates its operands from the left and stops at the first
    false one; an operand that raises makes the whole expression raise. *)
Definition and_then (x : exn + bool) (y : exn + bool) : exn + bool :=
  match x with inr true => y | r => r end.

Definition rules_overlap (a b : RuleView) : exn + bool :=
  and_then (inr (_protocols_intersect (rv_protocol a) (rv_protocol b)))
    (and_then (_port_ranges_intersect (rv_src_port a) (rv_src_port b))
              (_port_ranges_intersect (rv_dst_port a) (rv_dst_port b))).

Fixpoint find_overlaps (existing : list RuleView) (candidate : RuleView)
    : exn + list RuleView :=
  match existing with
  | [] => inr []
  | rule :: rest =>
      match rules_overlap rule candidate with
      | inl e => inl e
      | inr b =>
          match find_overlaps rest candidate with
          | inl e => inl e
          | inr found => inr (if b then rule :: found else found)
          end
      end
  end.

(** ** The meaning of a rule in the data plane

    A rule reaches the XDP program as a [rule_entry] whose absent ranges have
    become 0..65535 ([applier.py], [serialize_node_snapshot]; [Applier.rule_fields]
    has the bytes).  [rule_proto_matches] and [rule_ports_match] are the tests of
    [data-plane/src/rules.h]: [any] stands for TCP, UDP and ICMP, and the ports
    of a rule count only when its protocol is TCP or UDP. *)

Definition range_ok (r : PortRange) : Prop := validate_port_range r.1 r.2 = inr tt.

Definition IPPROTO_ICMP : Z := 1.
Definition IPPROTO_TCP : Z := 6.
Definition IPPROTO_UDP : Z := 17.
Definition RULE_PROTO_ANY : Z := 0.

Definition protocol_number (proto : string) : Z :=
  if bool_decide (proto = "tcp"%string) then IPPROTO_TCP
  else if bool_decide (proto = "udp"%string) then IPPROTO_UDP
  else if bool_decide (proto = "icmp"%string) then IPPROTO_ICMP
  else RULE_PROTO_ANY.

Record rule_entry := mkRuleEntry {
  re_src_lo : Z;
  re_src_hi : Z;
  re_dst_lo : Z;
  re_dst_hi : Z;
  re_proto : Z
}.

Definition entry_of_view (r : RuleView) : rule_entry :=
  mkRuleEntry (default 0 (rv_src_port r).1) (default 65535 (rv_src_port r).2)
              (default 0 (rv_dst_port r).1) (default 65535 (rv_dst_port r).2)
              (protocol_number (rv_protocol r)).

Record pkt_meta := mkPktMeta { pm_ip_proto : Z; pm_sport : Z; pm_dport : Z }.

(** The protocol is a byte, the ports are 16-bit. *)
Definition meta_ok (m : pkt_meta) : Prop :=
  0 <= pm_ip_proto m < 256 ∧ 0 <= pm_sport m < 65536 ∧ 0 <= pm_dport m < 65536.

Definition rule_proto_matches (rule : rule_entry) (meta : pkt_meta) : bool :=
  if re_proto rule =? RULE_PROTO_ANY
  then (pm_ip_proto meta =? IPPROTO_TCP) || (pm_ip_proto meta =? IPPROTO_UDP) ||
       (pm_ip_proto meta =? IPPROTO_ICMP)
  else pm_ip_proto meta =? re_proto rule.

Definition port_in_range (port lo hi : Z) : bool := (lo <=? port) && (port <=? hi).

Definition rule_ports_match (rule : rule_entry) (meta : pkt_meta) : bool :=
  if negb (re_proto rule =? IPPROTO_TCP) && negb (re_proto rule =? IPPROTO_UDP) then true
  else port_in_range (pm_sport meta) (re_src_lo rule) (re_src_hi rule) &&
       port_in_range (pm_dport meta) (re_dst_lo rule) (re_dst_hi rule).

(** [rule_matches] of [rules.h] for an enabled rule. *)
Definition view_matches (r : RuleView) (m : pkt_meta) : bool :=
  rule_proto_matches (entry_of_view r) m && rule_ports_match (entry_of_view r) m.

Definition view_ok (r : RuleView) : Prop :=
  rv_protocol r ∈ ["tcp"; "udp"; "icmp"; "any"]%string ∧
  range_ok (rv_src_port r) ∧ range_ok (rv_dst_port r).

(** The data plane matches a packet with both rules. *)
Definition share_packet (a b : RuleView) : Prop :=
  ∃ m, meta_ok m ∧ view_matches a m = true ∧ view_matches b m = true.

(** An [icmp] or [any] rule with a port range, which the data plane ignores. *)
Definition idle_ports (r : RuleView) : bool :=
  (bool_decide (rv_protocol r = "icmp"%string) || bool_decide (rv_protocol r = "any"%string)) &&
  negb (bool_decide (rv_src_port r = (None, None)) && bool_decide (rv_dst_port r = (None, None))).

(** ** Lemmas *)

Lemma range_ok_cases r :
  range_ok r ↔
  r = (None, None) ∨ ∃ lo hi, r = (Some lo, Some hi) ∧ 0 <= lo <= hi ∧ hi <= 65535.
Proof.
  unfold range_ok, validate_port_range. destruct r as [[lo|] [hi|]]; simpl.
  - destruct (_ || _) eqn:E; [|naive_solver lia].
    split; [done|]. intros [?|(? & ? & [= <- <-] & ?)]; [done|lia].
  - naive_solver.
  - naive_solver.
  - naive_solver.
Qed.

(** A port within a range as the data plane stores it. *)
Definition in_range (port : Z) (r : PortRange) : Prop :=
  default 0 r.1 <= port <= default 65535 r.2.

Lemma in_range_16 p r : range_ok r → in_range p r → 0 <= p < 65536.
Proof.
  intros Hr. apply range_ok_cases in Hr as [->|(? & ? & -> & ? & ?)];
    unfold in_range; simpl; lia.
Qed.

Lemma port_ranges_intersect_common a b :
  range_ok a → range_ok b →
  ∃ r, _port_ranges_intersect a b = inr r ∧
       (r = true ↔ ∃ p, in_range p a ∧ in_range p b).
Proof.
  intros Ha Hb. unfold _port_ranges_intersect.
  pose proof Ha as Ha'. pose proof Hb as Hb'.
  unfold range_ok in Ha', Hb'. rewrite Ha', Hb'.
  apply range_ok_cases in Ha as [->|(alo & ahi & -> & Ha & Hah)];
  apply range_ok_cases in Hb as [->|(blo & bhi & -> & Hb & Hbh)]; unfold in_range; simpl;
    eexists; (split; [reflexivity|]).
  - split; [|done]. intros _. exists 0. lia.
  - split; [|done]. intros _. exists blo. lia.
  - split; [|done]. intros _. exists alo. lia.
  - split; [|intros (p & ?); lia]. intros H. exists (Z.max alo blo). lia.
Qed.

(** What the overlap test computes on valid rules. *)
Lemma rules_overlap_ranges a b :
  view_ok a → view_ok b →
  ∃ r, rules_overlap a b = inr r ∧
       (r = true ↔ _protocols_intersect (rv_protocol a) (rv_protocol b) = true ∧
                   (∃ p, in_range p (rv_src_port a) ∧ in_range p (rv_src_port b)) ∧
                   (∃ p, in_range p (rv_dst_port a) ∧ in_range p (rv_dst_port b))).
Proof.
  intros (Hpa & Hsa & Hda) (Hpb & Hsb & Hdb).
  destruct (port_ranges_intersect_common _ _ Hsa Hsb) as (rs & Hrs & Hs).
  destruct (port_ranges_intersect_common _ _ Hda Hdb) as (rd & Hrd & Hd).
  unfold rules_overlap. rewrite Hrs, Hrd.
  exists (_protocols_intersect (rv_protocol a) (rv_protocol b) && rs && rd). split.
  { destruct (_protocols_intersect _ _), rs, rd; reflexivity. }
  rewrite !andb_true_iff, Hs, Hd. tauto.
Qed.

(** Overlap does not depend on the order of the two rules. *)
Lemma rules_overlap_sym a b :
  view_ok a → view_ok b → rules_overlap a b = rules_overlap b a.
Proof.
  intros Ha Hb.
  destruct (rules_overlap_ranges a b Ha Hb) as (r & -> & H).
  destruct (rules_overlap_ranges b a Hb Ha) as (r' & -> & H').
  f_equal. apply eq_bool_prop_intro. rewrite !Is_true_true, H, H'.
  unfold _protocols_intersect. rewrite !orb_true_iff, !bool_decide_eq_true.
  naive_solver.
Qed.

Definition ported (proto : string) : bool :=
  bool_decide (proto = "tcp"%string) || bool_decide (proto = "udp"%string).

Definition admits (proto : string) (n : Z) : Prop :=
  if bool_decide (proto = "any"%string)
  then n = IPPROTO_TCP ∨ n = IPPROTO_UDP ∨ n = IPPROTO_ICMP
  else n = protocol_number proto.

Ltac proto_cases H :=
  rewrite !elem_of_cons, elem_of_nil in H; destruct H as [->|[->|[->|[->|[]]]]].

(** Evaluates the decided equations between string literals in the goal. *)
Ltac eval_decided :=
  repeat match goal with
  | |- context [bool_decide ?P] =>
      let v := eval vm_compute in (bool_decide P) in
      change (bool_decide P) with v
  end; cbv iota beta.

Lemma view_matches_spec r m :
  view_ok r →
  view_matches r m = true ↔
  admits (rv_protocol r) (pm_ip_proto m) ∧
  (ported (rv_protocol r) = true →
   in_range (pm_sport m) (rv_src_port r) ∧ in_range (pm_dport m) (rv_dst_port r)).
Proof.
  destruct r as [i pr s d]. intros (Hp & _ & _). simpl in Hp.
  unfold view_matches, rule_proto_matches, rule_ports_match, port_in_range, in_range, admits.
  simpl. proto_cases Hp; simpl; unfold RULE_PROTO_ANY, IPPROTO_TCP, IPPROTO_UDP, IPPROTO_ICMP;
    rewrite ?andb_true_iff, ?orb_true_iff, ?Z.eqb_eq, ?Z.leb_le; naive_solver lia.
Qed.

Lemma protocols_intersect_admits a b :
  a ∈ ["tcp"; "udp"; "icmp"; "any"]%string →
  b ∈ ["tcp"; "udp"; "icmp"; "any"]%string →
  _protocols_intersect a b = true ↔ ∃ n, 0 <= n < 256 ∧ admits a n ∧ admits b n.
Proof.
  intros Ha Hb. unfold _protocols_intersect, admits, protocol_number.
  proto_cases Ha; proto_cases Hb; eval_decided; unfold IPPROTO_TCP, IPPROTO_UDP, IPPROTO_ICMP;
    (split; [intros H; try discriminate H; first [exists 6; lia|exists 17; lia|exists 1; lia]
            |intros (n & ? & ? & ?); first [reflexivity|exfalso; lia]]).
Qed.

(** Reported rules meet in the data plane. *)
Lemma rules_overlap_share a b :
  view_ok a → view_ok b → rules_overlap a b = inr true → share_packet a b.
Proof.
  intros Ha Hb Ho. destruct (rules_overlap_ranges a b Ha Hb) as (r & Hr & Hiff).
  rewrite Hr in Ho. injection Ho as ->.
  destruct (proj1 Hiff eq_refl) as (Hp & (s & Hsa & Hsb) & (d & Hda & Hdb)).
  pose proof Ha as (Hpa & Hra & Hda'). pose proof Hb as (Hpb & _ & _).
  apply (protocols_intersect_admits _ _ Hpa Hpb) in Hp as (n & Hn & Hna & Hnb).
  exists (mkPktMeta n s d). split.
  { split_and!; simpl; [lia|lia|..]; eapply in_range_16 in Hsa, Hda; eauto; lia. }
  split; apply view_matches_spec; simpl; auto.
Qed.

Lemma no_ports_any p : 0 <= p < 65536 → in_range p (None, None).
Proof. unfold in_range. simpl. lia. Qed.

(** A rule without idle ports admits every packet it matches by its ranges. *)
Lemma view_matches_ranges r m :
  view_ok r → meta_ok m → idle_ports r = false → view_matches r m = true →
  in_range (pm_sport m) (rv_src_port r) ∧ in_range (pm_dport m) (rv_dst_port r).
Proof.
  intros Hr (_ & Hs & Hd) Hidle Hm. apply view_matches_spec in Hm as [_ Hports]; [|done].
  destruct (ported (rv_protocol r)) eqn:Hpt; [by apply Hports|].
  destruct r as [i pr s d], Hr as (Hp & _ & _). simpl in *.
  assert (s = (None, None) ∧ d = (None, None)) as [-> ->].
  { unfold idle_ports in Hidle. simpl in Hidle.
    proto_cases Hp; simpl in *; try discriminate Hpt;
      apply negb_false_iff, andb_true_iff in Hidle as [?%bool_decide_eq_true ?%bool_decide_eq_true];
      done. }
  split; by apply no_ports_any.
Qed.

(** Rules that meet are reported, unless one carries ports the data plane ignores. *)
Lemma share_rules_overlap a b :
  view_ok a → view_ok b → idle_ports a = false → idle_ports b = false →
  share_packet a b → rules_overlap a b = inr true.
Proof.
  intros Ha Hb Hia Hib (m & Hm & Hma & Hmb).
  destruct (rules_overlap_ranges a b Ha Hb) as (r & -> & Hiff).
  f_equal. apply Hiff.
  destruct (view_matches_ranges a m Ha Hm Hia Hma), (view_matches_ranges b m Hb Hm Hib Hmb).
  split_and!; [|by eexists|by eexists].
  apply protocols_intersect_admits; [apply Ha|apply Hb|].
  apply view_matches_spec in Hma as [? _], Hmb as [? _]; [|done..].
  exists (pm_ip_proto m). destruct Hm. eauto.
Qed.

Lemma find_overlaps_filter existing c :
  Forall view_ok existing → view_ok c →
  find_overlaps existing c =
  inr (filter (λ r, rules_overlap r c = inr true) existing).
Proof.
  intros Hall Hc. induction Hall as [|r rs Hr Hrs IH]; [done|]. simpl. rewrite IH.
  destruct (rules_overlap_ranges r c Hr Hc) as (b & Hb & _).
  rewrite filter_cons, Hb. destruct b; [by rewrite decide_True|].
  by rewrite decide_False by congruence.
Qed.

(** ** Properties *)
Module RuleMatchSpec.

(** C37: against valid rules, the overlap search of the rule editor never
    raises and returns existing rules in the order given.  Every rule it returns
    shares a packet with the candidate in the data plane (the tests of
    [rules.h]), and every existing rule that shares one is returned, except where
    the rule or the candidate is an [icmp] or [any] rule with a port range: the
    data plane ignores such ranges and the search does not. *)
Theorem find_overlaps_spec existing c
    (Hall : Forall view_ok existing) (Hc : view_ok c) :
  ∃ found, find_overlaps existing c = inr found ∧ found `sublist_of` existing ∧
    (∀ r, r ∈ found → share_packet r c) ∧
    (∀ r, r ∈ existing → share_packet r c →
          r ∈ found ∨ idle_ports r = true ∨ idle_ports c = true).
Proof.
  eexists. split; [by apply find_overlaps_filter|]. split; [apply sublist_filter|].
  rewrite Forall_forall in Hall. split.
  - intros r [Ho Hin]%list_elem_of_filter. by apply rules_overlap_share; [apply Hall| |].
  - intros r Hin Hsh. destruct (idle_ports r) eqn:Hr; [tauto|].
    destruct (idle_ports c) eqn:Hc'; [tauto|]. left. apply list_elem_of_filter.
    split; [|done]. by apply share_rules_overlap; [apply Hall|..].
Qed.

Definition view_web : RuleView :=
  mkRuleView "10" "tcp" (None, None) (Some 80, Some 443).
Definition view_tls : RuleView :=
  mkRuleView "20" "tcp" (Some 1024, Some 65535) (Some 443, Some 8443).
Definition view_dns : RuleView :=
  mkRuleView "30" "udp" (None, None) (Some 53, Some 53).
Definition view_open : RuleView :=
  mkRuleView "40" "any" (None, None) (None, None).
Definition view_any_tls : RuleView :=
  mkRuleView "50" "any" (None, None) (Some 443, Some 8443).

(** Of a web, a DNS and an open rule, the first and the last meet a TLS rule. *)
Lemma find_overlaps_spec_witness :
  find_overlaps [view_web; view_dns; view_open] view_tls = inr [view_web; view_open] ∧
  ∃ found, find_overlaps [view_web; view_dns; view_open] view_tls = inr found ∧
    found `sublist_of` [view_web; view_dns; view_open] ∧
    (∀ r, r ∈ found → share_packet r view_tls) ∧
    (∀ r, r ∈ [view_web; view_dns; view_open] → share_packet r view_tls →
          r ∈ found ∨ idle_ports r = true ∨ idle_ports view_tls = true).
Proof.
  split; [reflexivity|].
  apply (find_overlaps_spec [view_web; view_dns; view_open] view_tls);
    repeat constructor; set_solver.
Defined.

(** The exception is real: an [any] rule for ports 443..8443 and a DNS rule are
    not reported, and the data plane matches a packet to udp/53 with both. *)
Lemma idle_ports_missed :
  view_ok view_any_tls ∧ view_ok view_dns ∧
  find_overlaps [view_dns] view_any_tls = inr [] ∧ share_packet view_dns view_any_tls.
Proof.
  split_and!; [repeat constructor; set_solver..|reflexivity|].
  exists (mkPktMeta IPPROTO_UDP 5353 53). split; [|done].
  unfold meta_ok, IPPROTO_UDP. simpl. lia.
Qed.

End RuleMatchSpec.
