(* ===== verification/Models.v ===== *)
(** * The persisted data model ([db/models.py])

    Enumerations with the source's members, and one record per table with the
    source's columns.  A row identifier is a [uuid]; a timestamp counts
    microseconds; a [cidr] column holds an IPv4 network.  [Decimal] is a
    coefficient with a decimal scale, and [Numeric(10, 2)] columns hold
    hundredths. *)

From S2P Require Import Prelude Ipaddress.
Open Scope Z_scope.

Abbreviation uuid := positive.
Abbreviation timestamp := Z.

(** ** Enumerations *)

Inductive Role := admin | tenant_user.
Inductive UserStatus := user_active | user_disabled.
Inductive TenantStatus := tenant_active | tenant_suspended.
Inductive CIDRStatus := cidr_active | cidr_revoked.

Module ApplyStatus.
Inductive t := pending | queued | applying | active | failed.
#[global] Instance t_eq_dec : EqDecision t.
Proof. solve_decision. Defined.
Definition value (s : t) : string :=
  match s with
  | pending => "pending" | queued => "queued" | applying => "applying"
  | active => "active" | failed => "failed"
  end.
End ApplyStatus.

Module JobStatus.
Inductive t := queued | applying | succeeded | failed | superseded.
#[global] Instance t_eq_dec : EqDecision t.
Proof. solve_decision. Defined.
End JobStatus.

Module JobType.
Inductive t := service_update | feed_sync | global_deny_apply.
#[global] Instance t_eq_dec : EqDecision t.
Proof. solve_decision. Defined.
End JobType.

Module ChangeTrigger.
Inductive t :=
  | service | plan | rule | whitelist | enable | disable
  | feed_manual | feed_schedule | feed_delete | feed_dry_run | global_deny_retry.
#[global] Instance t_eq_dec : EqDecision t.
Proof. solve_decision. Defined.
End ChangeTrigger.

Module FeedSyncStatus.
Inductive t := queued | running | success | partial | failed.
#[global] Instance t_eq_dec : EqDecision t.
Proof. solve_decision. Defined.
End FeedSyncStatus.

Inductive FeedFormat := line_list.
Inductive ServiceMode := allow_rule_only.

Module Protocol.
Inductive t := tcp | udp | icmp | any.
#[global] Instance t_eq_dec : EqDecision t.
Proof. solve_decision. Defined.
Definition value (p : t) : string :=
  match p with tcp => "tcp" | udp => "udp" | icmp => "icmp" | any => "any" end.
End Protocol.

Inductive BlacklistScope := scope_service | scope_global.
Inductive BlacklistSource := source_manual | source_feed.
Inductive OveragePolicy := overage_billed | overage_capped.

#[global] Instance Role_eq_dec : EqDecision Role.
Proof. solve_decision. Defined.
#[global] Instance UserStatus_eq_dec : EqDecision UserStatus.
Proof. solve_decision. Defined.
#[global] Instance TenantStatus_eq_dec : EqDecision TenantStatus.
Proof. solve_decision. Defined.
#[global] Instance CIDRStatus_eq_dec : EqDecision CIDRStatus.
Proof. solve_decision. Defined.
#[global] Instance FeedFormat_eq_dec : EqDecision FeedFormat.
Proof. solve_decision. Defined.
#[global] Instance ServiceMode_eq_dec : EqDecision ServiceMode.
Proof. solve_decision. Defined.
#[global] Instance BlacklistScope_eq_dec : EqDecision BlacklistScope.
Proof. solve_decision. Defined.
#[global] Instance BlacklistSource_eq_dec : EqDecision BlacklistSource.
Proof. solve_decision. Defined.
#[global] Instance OveragePolicy_eq_dec : EqDecision OveragePolicy.
Proof. solve_decision. Defined.

(** ** Decimals *)

(** [coeff * 10 ^ (- scale)]. *)
Record Decimal := mkDecimal { coeff : Z; scale : nat }.

#[global] Instance Decimal_eq_dec : EqDecision Decimal.
Proof. solve_decision. Defined.

Definition pow10 (n : nat) : Z := 10 ^ Z.of_nat n.

(** [a < b] on decimals, by cross multiplication. *)
Definition dec_ltb (a b : Decimal) : bool :=
  coeff a * pow10 (scale b) <? coeff b * pow10 (scale a).
Definition dec_zero : Decimal := mkDecimal 0 0.

(** Storing into [Numeric(10, 2)]: round half away from zero to hundredths;
    ten digits in all, two of them fractional. *)
Definition round_hundredths (d : Decimal) : Z :=
  let p := pow10 (scale d) in
  Z.sgn (coeff d) * ((200 * Z.abs (coeff d) + p) / (2 * p)).

Definition numeric_10_2 (d : Decimal) : exn + Z :=
  let h := round_hundredths d in
  if Z.abs h <? pow10 10 then inr h else inl NumericOverflow.

(** ** Tables *)

Record Tenant := mkTenant {
  tenant_id : uuid;
  tenant_name : string;
  tenant_status : TenantStatus;
  tenant_created_at : timestamp
}.

Record User := mkUser {
  user_id : uuid;
  user_tenant_id : option uuid;
  user_role : Role;
  user_username : string;
  user_password_hash : string;
  user_status : UserStatus;
  user_session_version : Z;
  user_last_login_at : option timestamp;
  user_created_at : timestamp
}.

Record AllocatedCIDR := mkAllocatedCIDR {
  alloc_id : uuid;
  alloc_tenant_id : uuid;
  alloc_cidr : ipv4net;
  alloc_status : CIDRStatus;
  alloc_allocated_by : option uuid;
  alloc_created_at : timestamp;
  alloc_updated_at : timestamp
}.

(** JSON values, as the audit metadata column holds them. *)
Inductive jval :=
  | JNull
  | JBool (b : bool)
  | JInt (n : Z)
  | JStr (s : string)
  | JList (l : list jval)
  | JObj (kvs : list (string * jval)).

Record AuditEvent := mkAuditEvent {
  audit_actor_user_id : option uuid;
  audit_actor_username : string;
  audit_action : string;
  audit_target_type : option string;
  audit_target_id : option string;
  audit_outcome : string;
  audit_ip_address : option string;
  audit_metadata : list (string * jval);
  audit_created_at : timestamp
}.

Record ProtectedService := mkProtectedService {
  svc_id : uuid;
  svc_dp_id : Z;
  svc_tenant_id : uuid;
  svc_name : string;
  svc_cidr_or_ip : ipv4net;
  svc_mode : ServiceMode;
  svc_enabled : bool;
  svc_vip_pps : option Z;
  svc_vip_bps : option Z;
  svc_service_pps : option Z;
  svc_service_bps : option Z;
  svc_apply_status : ApplyStatus.t;
  svc_version : Z;
  svc_active_version : option Z;
  svc_created_by : option uuid;
  svc_created_at : timestamp;
  svc_updated_at : timestamp
}.

(** Rates in hundredths of a Gbit/s. *)
Record ServicePlan := mkServicePlan {
  plan_service_id : uuid;
  plan_committed_clean_gbps : Z;
  plan_ceiling_clean_gbps : Z;
  plan_billing_metric : string;
  plan_overage_policy : OveragePolicy
}.

Record AllowRule := mkAllowRule {
  rule_id : uuid;
  rule_service_id : uuid;
  rule_priority : Z;
  rule_protocol : Protocol.t;
  rule_src_port_lo : option Z;
  rule_src_port_hi : option Z;
  rule_dst_port_lo : option Z;
  rule_dst_port_hi : option Z;
  rule_enabled : bool
}.

Record WhitelistEntry := mkWhitelistEntry {
  wl_id : uuid;
  wl_service_id : uuid;
  wl_source_cidr : ipv4net;
  wl_created_by : option uuid;
  wl_created_at : timestamp
}.

Record BlacklistEntry := mkBlacklistEntry {
  bl_id : uuid;
  bl_scope : BlacklistScope;
  bl_source : BlacklistSource;
  bl_source_cidr : ipv4net;
  bl_created_by : option uuid;
  bl_created_at : timestamp
}.

Record ThreatFeedSource := mkThreatFeedSource {
  feed_id : uuid;
  feed_name : string;
  feed_url : string;
  feed_format : FeedFormat;
  feed_enabled : bool;
  feed_sync_interval_seconds : Z;
  feed_credential_env_var : option string;
  feed_sync_sequence : Z;
  feed_last_status : option FeedSyncStatus.t;
  feed_last_error : option string;
  feed_last_sync_at : option timestamp;
  feed_next_sync_at : option timestamp;
  feed_deleted_at : option timestamp;
  feed_created_at : timestamp;
  feed_updated_at : timestamp
}.

Record FeedSyncRun := mkFeedSyncRun {
  run_id : uuid;
  run_feed_source_id : uuid;
  run_source_name : string;
  run_sequence : Z;
  run_trigger : ChangeTrigger.t;
  run_dry_run : bool;
  run_status : FeedSyncStatus.t;
  run_started_at : option timestamp;
  run_finished_at : option timestamp;
  run_duration_ms : option Z;
  run_error : option string;
  run_fetched_lines : Z;
  run_valid : Z;
  run_duplicates : Z;
  run_added : Z;
  run_removed : Z;
  run_skipped_invalid : Z;
  run_overlap_count : Z;
  run_global_changed : bool;
  run_desired_revision : option Z;
  run_node_map_version : option Z
}.

Record FeedBlacklistAssertion := mkFeedBlacklistAssertion {
  assertion_first_seen_at : timestamp;
  assertion_last_seen_at : timestamp
}.

Record FeedSyncOverlap := mkFeedSyncOverlap {
  overlap_feed_sync_run_id : uuid;
  overlap_feed_source_cidr : ipv4net;
  overlap_whitelist_entry_id : uuid;
  overlap_service_id : uuid
}.

Record GlobalDenyState := mkGlobalDenyState {
  gds_desired_revision : Z;
  gds_active_revision : Z;
  gds_desired_digest : option string;
  gds_active_digest : option string;
  gds_apply_status : ApplyStatus.t;
  gds_last_error : option string;
  gds_last_node_map_version : option Z
}.

Record NodeControl := mkNodeControl {
  nc_bypass_enabled : bool;
  nc_maintenance_enabled : bool;
  nc_bypass_reason : option string;
  nc_bypass_activated_at : option timestamp;
  nc_maintenance_activated_at : option timestamp;
  nc_bypass_actor_user_id : option uuid;
  nc_maintenance_actor_user_id : option uuid
}.

(** The target of a job.  The table's shape constraint allows exactly these
    three combinations of [job_type], [target_type], [target_id] and
    [feed_sync_run_id]. *)
Inductive JobTarget :=
  | TargetService (service_id : uuid)
  | TargetFeedRun (run_id : uuid)
  | TargetGlobalDeny.

#[global] Instance JobTarget_eq_dec : EqDecision JobTarget.
Proof. solve_decision. Defined.

Record AgentJob := mkAgentJob {
  job_id : uuid;
  job_target : JobTarget;
  job_version : Z;
  job_trigger : ChangeTrigger.t;
  job_status : JobStatus.t;
  job_error : option string;
  job_attempts : Z;
  job_dispatched_at : option timestamp;
  job_created_at : timestamp;
  job_started_at : option timestamp;
  job_finished_at : option timestamp
}.

Definition job_type (j : AgentJob) : JobType.t :=
  match job_target j with
  | TargetService _ => JobType.service_update
  | TargetFeedRun _ => JobType.feed_sync
  | TargetGlobalDeny => JobType.global_deny_apply
  end.

Record BlockedUdpPort := mkBlockedUdpPort {
  bp_port : Z;
  bp_note : option string;
  bp_created_by : option uuid;
  bp_created_at : timestamp
}.

(** *** Attribute assignment on rows *)

#[global] Instance Tenant_eta : Eta Tenant := MkEta (fun r =>
  mkTenant (tenant_id r) (tenant_name r) (tenant_status r) (tenant_created_at r)).
#[global] Instance User_eta : Eta User := MkEta (fun r =>
  mkUser (user_id r) (user_tenant_id r) (user_role r) (user_username r)
    (user_password_hash r) (user_status r) (user_session_version r) (user_last_login_at r) (user_created_at r)).
#[global] Instance AllocatedCIDR_eta : Eta AllocatedCIDR := MkEta (fun r =>
  mkAllocatedCIDR (alloc_id r) (alloc_tenant_id r) (alloc_cidr r) (alloc_status r)
    (alloc_allocated_by r) (alloc_created_at r) (alloc_updated_at r)).
#[global] Instance ProtectedService_eta : Eta ProtectedService := MkEta (fun r =>
  mkProtectedService (svc_id r) (svc_dp_id r) (svc_tenant_id r) (svc_name r)
    (svc_cidr_or_ip r) (svc_mode r) (svc_enabled r) (svc_vip_pps r) (svc_vip_bps r)
    (svc_service_pps r) (svc_service_bps r) (svc_apply_status r) (svc_version r)
    (svc_active_version r) (svc_created_by r) (svc_created_at r) (svc_updated_at r)).
#[global] Instance ServicePlan_eta : Eta ServicePlan := MkEta (fun r =>
  mkServicePlan (plan_service_id r) (plan_committed_clean_gbps r)
    (plan_ceiling_clean_gbps r) (plan_billing_metric r) (plan_overage_policy r)).
#[global] Instance AllowRule_eta : Eta AllowRule := MkEta (fun r =>
  mkAllowRule (rule_id r) (rule_service_id r) (rule_priority r) (rule_protocol r)
    (rule_src_port_lo r) (rule_src_port_hi r) (rule_dst_port_lo r) (rule_dst_port_hi r)
    (rule_enabled r)).
#[global] Instance BlacklistEntry_eta : Eta BlacklistEntry := MkEta (fun r =>
  mkBlacklistEntry (bl_id r) (bl_scope r) (bl_source r) (bl_source_cidr r)
    (bl_created_by r) (bl_created_at r)).
#[global] Instance ThreatFeedSource_eta : Eta ThreatFeedSource := MkEta (fun r =>
  mkThreatFeedSource (feed_id r) (feed_name r) (feed_url r) (feed_format r)
    (feed_enabled r) (feed_sync_interval_seconds r) (feed_credential_env_var r)
    (feed_sync_sequence r) (feed_last_status r) (feed_last_error r)
    (feed_last_sync_at r) (feed_next_sync_at r) (feed_deleted_at r) (feed_created_at r)
    (feed_updated_at r)).
#[global] Instance FeedSyncRun_eta : Eta FeedSyncRun := MkEta (fun r =>
  mkFeedSyncRun (run_id r) (run_feed_source_id r) (run_source_name r) (run_sequence r)
    (run_trigger r) (run_dry_run r) (run_status r) (run_started_at r)
    (run_finished_at r) (run_duration_ms r) (run_error r) (run_fetched_lines r)
    (run_valid r) (run_duplicates r) (run_added r) (run_removed r)
    (run_skipped_invalid r) (run_overlap_count r) (run_global_changed r)
    (run_desired_revision r) (run_node_map_version r)).
#[global] Instance GlobalDenyState_eta : Eta GlobalDenyState := MkEta (fun r =>
  mkGlobalDenyState (gds_desired_revision r) (gds_active_revision r)
    (gds_desired_digest r) (gds_active_digest r) (gds_apply_status r)
    (gds_last_error r) (gds_last_node_map_version r)).
#[global] Instance NodeControl_eta : Eta NodeControl := MkEta (fun r =>
  mkNodeControl (nc_bypass_enabled r) (nc_maintenance_enabled r) (nc_bypass_reason r)
    (nc_bypass_activated_at r) (nc_maintenance_activated_at r)
    (nc_bypass_actor_user_id r) (nc_maintenance_actor_user_id r)).
#[global] Instance AgentJob_eta : Eta AgentJob := MkEta (fun r =>
  mkAgentJob (job_id r) (job_target r) (job_version r) (job_trigger r) (job_status r)
    (job_error r) (job_attempts r) (job_dispatched_at r) (job_created_at r)
    (job_started_at r) (job_finished_at r)).

(** ** Decimal comparison and rounding *)

Lemma pow10_pos n : 0 < pow10 n.
Proof. apply Z.pow_pos_nonneg; lia. Qed.

Lemma pow10_add m n : pow10 (m + n) = pow10 m * pow10 n.
Proof. unfold pow10. rewrite Nat2Z.inj_add, Z.pow_add_r; lia. Qed.

Lemma dec_ltb_antisym a b : dec_ltb a b = true → dec_ltb b a = false.
Proof. unfold dec_ltb. lia. Qed.

(** Rounding to hundredths is monotone, so a validated pair of rates stays
    ordered when it is stored. *)
Lemma round_hundredths_mono a b :
  dec_ltb b a = false → round_hundredths a <= round_hundredths b.
Proof.
  unfold dec_ltb, round_hundredths. intros H%Z.ltb_ge.
  pose proof (pow10_pos (scale a)) as Ha. pose proof (pow10_pos (scale b)) as Hb.
  set (pa := pow10 (scale a)) in *. set (pb := pow10 (scale b)) in *.
  assert (∀ c p, 0 < p → 0 <= (200 * Z.abs c + p) / (2 * p)) as Hpos.
  { intros c p Hp. apply Z.div_pos; lia. }
  pose proof (Hpos (coeff a) pa Ha). pose proof (Hpos (coeff b) pb Hb).
  destruct (Z.lt_trichotomy (coeff a) 0) as [Ea|[Ea|Ea]];
  destruct (Z.lt_trichotomy (coeff b) 0) as [Eb|[Eb|Eb]];
    rewrite ?(Z.sgn_neg (coeff a)), ?(Z.sgn_neg (coeff b)),
      ?(Z.sgn_pos (coeff a)), ?(Z.sgn_pos (coeff b)), ?Ea, ?Eb by done;
    simpl Z.sgn; try nia.
  - assert ((200 * Z.abs (coeff b) + pb) / (2 * pb) <=
            (200 * Z.abs (coeff a) + pa) / (2 * pa)); [|lia].
    apply div_le_cross; [lia..|]. rewrite !Z.abs_neq by lia. nia.
  - assert ((200 * Z.abs (coeff a) + pa) / (2 * pa) <=
            (200 * Z.abs (coeff b) + pb) / (2 * pb)); [|lia].
    apply div_le_cross; [lia..|]. rewrite !Z.abs_eq by lia. nia.
Qed.

Lemma round_hundredths_nonneg a : dec_ltb a dec_zero = false → 0 <= round_hundredths a.
Proof. apply (round_hundredths_mono dec_zero). Qed.
