(* ===== verification/Db.v ===== *)
(** * Database sessions, transactions and the audit trail

    The tables of [db/models.py] as finite maps, the unit of work of
    [db/session.py] ([session_scope] commits and then runs the registered
    post-commit callbacks, or rolls back and runs none), and
    [services/audit.py].

    A transaction is one atomic step over the tables.  [uuid4()] draws are
    modelled by a supply that never hands out an identifier twice, and an
    insert still checks the primary key; the supply and the
    [service_dp_id_seq] sequence are not undone by a rollback.  All
    [utc_now()] calls of one transaction read the same instant. *)

From S2P Require Import Prelude PyStr Ipaddress Models.
From stdpp Require Import pretty.
Open Scope Z_scope.

Record Db := mkDb {
  tenants : gmap uuid Tenant;
  users : gmap uuid User;
  allocated_cidr : gmap uuid AllocatedCIDR;
  protected_service : gmap uuid ProtectedService;
  service_plan : gmap uuid ServicePlan;             (* by service, unique *)
  allow_rule : gmap uuid AllowRule;
  whitelist_entry : gmap uuid WhitelistEntry;
  blacklist_entry : gmap uuid BlacklistEntry;
  threat_feed_source : gmap uuid ThreatFeedSource;
  feed_sync_run : gmap uuid FeedSyncRun;
  feed_blacklist_assertion : gmap (uuid * uuid) FeedBlacklistAssertion;
  feed_sync_overlap : list FeedSyncOverlap;
  global_deny_state : option GlobalDenyState;
  node_control : option NodeControl;
  agent_job : gmap uuid AgentJob;
  blocked_udp_port : gmap Z BlockedUdpPort;
  audit_events : list AuditEvent;
  service_dp_id_seq : Z;
  uuid_supply : uuid;
  clock : timestamp
}.

#[global] Instance Db_eta : Eta Db := MkEta (fun r =>
  mkDb (tenants r) (users r) (allocated_cidr r) (protected_service r) (service_plan r)
    (allow_rule r) (whitelist_entry r) (blacklist_entry r) (threat_feed_source r)
    (feed_sync_run r) (feed_blacklist_assertion r) (feed_sync_overlap r)
    (global_deny_state r) (node_control r) (agent_job r) (blocked_udp_port r)
    (audit_events r) (service_dp_id_seq r) (uuid_supply r) (clock r)).

Definition empty_db : Db :=
  mkDb ∅ ∅ ∅ ∅ ∅ ∅ ∅ ∅ ∅ ∅ ∅ [] None None ∅ ∅ [] 1 1 0.

(** ** Sessions *)

(** The closures handed to [add_post_commit_callback]: each dispatches a job.
    The two registries that remove duplicates keep their own set. *)
Inductive callback := DispatchApply (job : uuid) | DispatchFeed (job : uuid)
  | DispatchPlain (job : uuid).

#[global] Instance callback_eq_dec : EqDecision callback.
Proof. solve_decision. Defined.

Definition callback_job (c : callback) : uuid :=
  match c with DispatchApply j | DispatchFeed j | DispatchPlain j => j end.

Record Session := mkSession {
  db : Db;
  post_commit_callbacks : list callback;
  apply_dispatch_job_ids : gset uuid;
  feed_dispatch_job_ids : gset uuid
}.

#[global] Instance Session_eta : Eta Session := MkEta (fun r =>
  mkSession (db r) (post_commit_callbacks r) (apply_dispatch_job_ids r)
    (feed_dispatch_job_ids r)).

Definition new_session (d : Db) : Session := mkSession d [] ∅ ∅.

(** The process's surroundings: the database, the Redis list [apply:jobs], and
    the service and global-deny snapshots the data-plane helper accepted, the
    latest first.  [lpush] adds at the head of the Redis list and [brpop] takes
    from its end. *)
Record World := mkWorld {
  w_db : Db;
  w_queue : list uuid;
  w_redis_up : bool;
  w_applied : list (list Z);
  w_denied : list (list Z)
}.

#[global] Instance World_eta : Eta World := MkEta (fun r =>
  mkWorld (w_db r) (w_queue r) (w_redis_up r) (w_applied r) (w_denied r)).

Definition get_db {A} (f : Db → A) : M Session A := gets (fun s => f (db s)).
Definition mod_db (f : Db → Db) : M Session unit := modS (fun s => s <| db := f (db s) |>).

Definition utc_now : M Session timestamp := get_db clock.

(** [uuid.uuid4()]. *)
Definition uuid4 : M Session uuid :=
  u ← get_db uuid_supply;
  mod_db (fun d => d <| uuid_supply := Pos.succ u |>) ;;
  mret u.

(** [nextval('service_dp_id_seq')]. *)
Definition nextval_dp_id : M Session Z :=
  n ← get_db service_dp_id_seq;
  mod_db (fun d => d <| service_dp_id_seq := n + 1 |>) ;;
  mret n.

Definition add_post_commit_callback (c : callback) : M Session unit :=
  modS (fun s => s <| post_commit_callbacks := post_commit_callbacks s ++ [c] |>).

(** *** Committing *)

(** [ApplyDispatcher._mark_dispatched]. *)
Definition mark_dispatched (d : Db) (job : uuid) : Db :=
  d <| agent_job := alter (fun j => j <| job_dispatched_at := Some (clock d) |>) job
                      (agent_job d) |>.

(** [ApplyDispatcher.dispatch] outside a caller's session: push to Redis, then
    note the dispatch in a transaction of its own; a Redis error is logged and
    ends it. *)
Definition dispatch (w : World) (job : uuid) : World :=
  if w_redis_up w then
    w <| w_queue := job :: w_queue w |> <| w_db := mark_dispatched (w_db w) job |>
  else w.

Definition run_post_commit_callbacks (cbs : list callback) (w : World) : World :=
  foldl (fun w c => dispatch w (callback_job c)) w cbs.

(** What survives a rollback: the sequence values drawn. *)
Definition rollback (before after : Db) : Db :=
  before <| uuid_supply := Pos.max (uuid_supply before) (uuid_supply after) |>
         <| service_dp_id_seq := Z.max (service_dp_id_seq before) (service_dp_id_seq after) |>.

Definition session_scope {A} (m : M Session A) : M World A := fun w =>
  match m (new_session (w_db w)) with
  | (inr a, s) =>
      (inr a, run_post_commit_callbacks (post_commit_callbacks s) (w <| w_db := db s |>))
  | (inl e, s) => (inl e, w <| w_db := rollback (w_db w) (db s) |>)
  end.

(** ** Queries *)

Definition rows {K A} `{Countable K} (t : gmap K A) : list A := (map_to_list t).*2.

(** [select(T).where(p)]. *)
Definition select_where {K A} `{Countable K} (p : A → bool) (t : gmap K A) : list A :=
  filter (fun r => Is_true (p r)) (rows t).

(** [order_by(key)]; rows with equal keys keep an unspecified order. *)
Definition order_by {A} (key : A → Z) (l : list A) : list A :=
  merge_sort (key_le key) l.

(** [.scalars().one_or_none()] and [.scalar_one_or_none()]. *)
Definition one_or_none {S A} (l : list A) : M S (option A) :=
  match l with
  | [] => mret None
  | [x] => mret (Some x)
  | _ => raise MultipleResultsFound
  end.

(** [order_by(desc(k1), desc(k2), ...)]. *)
Definition order_by_desc {A} (keys : A → list Z) (l : list A) : list A :=
  merge_sort (lex_ge keys) l.

(** [order_by(k1, k2, ...)]. *)
Definition order_by_asc {A} (keys : A → list Z) (l : list A) : list A :=
  merge_sort (flip (lex_ge keys)) l.

(** A nullable column under [desc]: PostgreSQL sorts NULL first. *)
Definition desc_nulls_first (o : option Z) : list Z :=
  match o with None => [1; 0] | Some t => [0; t] end.

(** A primary-key check in front of an insert. *)
Definition check_pkey {A} (t : Db → gmap uuid A) (id : uuid) (name : string)
    : M Session unit :=
  m ← get_db t;
  require (bool_decide (m !! id = None)) (IntegrityError name).

Definition uuid_str (u : uuid) : string := pretty (N.pos u).

(** ** [services/audit.py] *)

Definition lower_ascii (a : Ascii.ascii) : Ascii.ascii :=
  let n := Ascii.N_of_ascii a in
  if (65 <=? n)%N && (n <=? 90)%N then Ascii.ascii_of_N (n + 32) else a.
Fixpoint lower (s : string) : string :=
  match s with
  | EmptyString => EmptyString
  | String a s => String (lower_ascii a) (lower s)
  end.

(** [part in s]. *)
Fixpoint str_contains (part s : string) : bool :=
  String.prefix part s ||
  match s with EmptyString => false | String _ s => str_contains part s end.

Definition _SECRET_KEY_PARTS : list string :=
  ["password"; "token"; "secret"; "credential"]%string.

Definition _is_secret_key (key : string) : bool :=
  existsb (fun part => str_contains part (lower key)) _SECRET_KEY_PARTS.

Fixpoint _scrub_value (v : jval) : jval :=
  match v with
  | JObj kvs =>
      JObj ((fix go kvs :=
               match kvs with
               | [] => []
               | (k, v) :: kvs =>
                   if _is_secret_key k then go kvs else (k, _scrub_value v) :: go kvs
               end) kvs)
  | JList l => JList (map _scrub_value l)
  | v => v
  end.

Fixpoint scrub_items (kvs : list (string * jval)) : list (string * jval) :=
  match kvs with
  | [] => []
  | (k, v) :: kvs =>
      if _is_secret_key k then scrub_items kvs else (k, _scrub_value v) :: scrub_items kvs
  end.

Definition scrub_metadata (metadata : option (list (string * jval)))
    : list (string * jval) :=
  match metadata with None => [] | Some kvs => scrub_items kvs end.

Definition record_event (actor : option User) (action : string)
    (target_type target_id : option string) (outcome : string) (ip : option string)
    (metadata : option (list (string * jval))) : M Session unit :=
  mod_db (fun d =>
    d <| audit_events := audit_events d ++
         [mkAuditEvent (user_id <$> actor)
            match actor with Some u => user_username u | None => "system" end
            action target_type target_id outcome ip (scrub_metadata metadata)
            (clock d)] |>).

(** ** Lemmas on queries *)

Lemma elem_of_rows {K A} `{Countable K} (t : gmap K A) r :
  r ∈ rows t ↔ ∃ k, t !! k = Some r.
Proof.
  unfold rows. rewrite list_elem_of_fmap. split.
  - intros ([k r'] & -> & Hin). exists k. by apply elem_of_map_to_list.
  - intros (k & Hk). exists (k, r). split; [done|]. by apply elem_of_map_to_list.
Qed.

Lemma elem_of_select {K A} `{Countable K} (p : A → bool) (t : gmap K A) r :
  r ∈ select_where p t ↔ p r = true ∧ ∃ k, t !! k = Some r.
Proof.
  unfold select_where. by rewrite list_elem_of_filter, elem_of_rows, Is_true_true.
Qed.

Lemma select_where_nil {K A} `{Countable K} (p : A → bool) (t : gmap K A) :
  select_where p t = [] ↔ ∀ k r, t !! k = Some r → p r = false.
Proof.
  split.
  - intros Hnil k r Hk. destruct (p r) eqn:E; [|done].
    assert (r ∈ select_where p t) as Hin by (apply elem_of_select; eauto).
    rewrite Hnil in Hin. by apply not_elem_of_nil in Hin.
  - intros Hall. destruct (select_where p t) as [|r l] eqn:E; [done|].
    assert (r ∈ select_where p t) as Hin by (rewrite E; left).
    apply elem_of_select in Hin as (Hp & k & Hk). by rewrite (Hall k r Hk) in Hp.
Qed.

(** Rows that agree on the selecting property only once form a singleton. *)
Lemma select_where_unique {K A} `{Countable K} (p : A → bool) (t : gmap K A) k r :
  t !! k = Some r → p r = true →
  (∀ k' r', t !! k' = Some r' → p r' = true → k' = k) →
  select_where p t = [r].
Proof.
  intros Hk Hp Huniq. unfold select_where, rows.
  rewrite <- (insert_delete_id t k r Hk).
  assert (delete k t !! k = None) as Hnone by (by rewrite lookup_delete_eq).
  pose proof (map_to_list_insert (delete k t) k r Hnone) as Hperm.
  apply (fmap_Permutation snd) in Hperm. simpl in Hperm.
  assert (Permutation (filter (fun r => Is_true (p r))
    (map_to_list (<[k:=r]> (delete k t))).*2) [r]) as Hp1.
  { rewrite Hperm. rewrite filter_cons_True by (by rewrite Hp).
    constructor. apply Permutation_nil_r, (select_where_nil p (delete k t)).
    intros k' r' [Hne Hk']%lookup_delete_Some.
    destruct (p r') eqn:E; [|done]. by destruct Hne; symmetry; eapply Huniq. }
  by apply Permutation_singleton_r in Hp1.
Qed.

(** The number of selected rows as the size of a filtered table. *)
Lemma select_where_size {K A} `{Countable K} (p : A → bool) (t : gmap K A) :
  length (select_where p t) = size (filter (fun kv => Is_true (p kv.2)) t).
Proof.
  rewrite map_filter_alt, map_size_list_to_map.
  - unfold select_where, rows. generalize (map_to_list t). intros l.
    induction l as [|[k a] l IH]; [done|]. rewrite fmap_cons, !filter_cons. simpl.
    destruct (decide (Is_true (p a))); simpl; by rewrite IH.
  - apply (sublist_NoDup _ (map_to_list t).*1); [apply NoDup_fst_map_to_list|].
    apply fmap_sublist, sublist_filter.
Qed.

Lemma select_where_sub {K A} `{Countable K} (p : A → bool) (t t' : gmap K A) :
  t' ⊆ t → (length (select_where p t') <= length (select_where p t))%nat.
Proof.
  intros Hsub. rewrite !select_where_size. apply map_subseteq_size.
  by apply map_filter_subseteq_mono.
Qed.

Lemma select_where_insert {K A} `{Countable K} (p : A → bool) (t : gmap K A) k r :
  (length (select_where p (<[k := r]> t)) <=
   length (select_where p t) + if p r then 1 else 0)%nat.
Proof.
  rewrite !select_where_size. destruct (p r) eqn:Ep.
  - rewrite map_filter_insert_True by (simpl; by rewrite Ep).
    pose proof (map_size_insert k r (filter (fun kv => Is_true (p kv.2)) t)) as Hs.
    rewrite Hs. case_match; unfold id; lia.
  - rewrite map_filter_insert_False by (simpl; rewrite Ep; intros []).
    assert (size (filter (fun kv : K * A => Is_true (p kv.2)) (delete k t)) <=
            size (filter (fun kv : K * A => Is_true (p kv.2)) t))%nat; [|lia].
    apply map_subseteq_size, map_filter_subseteq_mono, delete_subseteq.
Qed.

(** Selected rows that a value tells apart have distinct values. *)
Lemma select_where_nodup {K A B} `{Countable K} (f : A → B) (p : A → bool) (t : gmap K A) :
  (∀ k r k' r', t !! k = Some r → t !! k' = Some r' → p r = true → p r' = true →
     f r = f r' → k = k') →
  NoDup (f <$> select_where p t).
Proof.
  intros Hinj. assert (f <$> select_where p t =
    (fun kv => f kv.2) <$> filter (fun kv => Is_true (p kv.2)) (map_to_list t)) as ->.
  { unfold select_where, rows. generalize (map_to_list t). intros l.
    induction l as [|[k a] l IH]; [done|]. rewrite fmap_cons, !filter_cons. simpl.
    destruct (decide (Is_true (p a))); [simpl; f_equal|]; exact IH. }
  apply NoDup_fmap_2_strong; [|apply NoDup_filter, NoDup_map_to_list].
  intros [k r] [k' r'] [Hp Hk%elem_of_map_to_list]%list_elem_of_filter
    [Hp' Hk'%elem_of_map_to_list]%list_elem_of_filter E. simpl in *.
  rewrite Is_true_true in Hp, Hp'. assert (k = k') as -> by (by eapply Hinj). congruence.
Qed.

Lemma elem_of_order_by {A} (key : A → Z) (l : list A) x : x ∈ order_by key l ↔ x ∈ l.
Proof. unfold order_by. by rewrite (merge_sort_Permutation (key_le key) l). Qed.

Lemma order_by_sorted {A} (key : A → Z) (l : list A) :
  StronglySorted (key_le key) (order_by key l).
Proof. apply (StronglySorted_merge_sort _). Qed.

Lemma order_by_perm {A} (key : A → Z) (l : list A) : Permutation (order_by key l) l.
Proof. apply merge_sort_Permutation. Qed.

Lemma order_by_nil {A} (key : A → Z) (l : list A) : order_by key l = [] ↔ l = [].
Proof.
  split; [|by intros ->]. intros H. pose proof (order_by_perm key l) as Hp.
  rewrite H in Hp. by apply Permutation_nil_l in Hp.
Qed.

Lemma one_or_none_inr {S A} (l : list A) (s s' : S) o :
  one_or_none l s = (inr o, s') → s' = s ∧ o = head l ∧ (length l <= 1)%nat.
Proof. destruct l as [|x [|y l]]; intros [= <- <-]; simpl; split_and!; auto. Qed.

(** ** Lemmas on sessions *)

(** A session computation that only reads leaves the session alone. *)
Lemma get_db_run {A} (f : Db → A) s : get_db f s = (inr (f (db s)), s).
Proof. reflexivity. Qed.

Lemma mod_db_run f s : mod_db f s = (inr tt, s <| db := f (db s) |>).
Proof. reflexivity. Qed.

Lemma dispatch_agent_job_dom w job :
  dom (agent_job (w_db (dispatch w job))) = dom (agent_job (w_db w)).
Proof.
  unfold dispatch. destruct (w_redis_up w); [|done]. simpl. apply dom_alter_L.
Qed.

(** [rollback] keeps the tables. *)
Lemma rollback_agent_job d d' : agent_job (rollback d d') = agent_job d.
Proof. reflexivity. Qed.

(** ** Invariants of committed states

    [keeps I m]: a transaction body that returns keeps [I]; a body that raises
    owes nothing, because [session_scope] rolls it back. *)

Definition keeps {A} (I : Db → Prop) (m : M Session A) : Prop :=
  ∀ s a s', I (db s) → m s = (inr a, s') → I (db s').

(** What may happen to the tables outside a transaction body: a dispatch mark
    on a job, and sequence values drawn by a transaction that rolled back. *)
Class CommitStable (I : Db → Prop) := {
  stable_dispatched : ∀ d job, I d → I (mark_dispatched d job);
  stable_rollback : ∀ d d', I d → I (rollback d d')
}.

#[global] Instance CommitStable_and I J `{!CommitStable I, !CommitStable J} :
  CommitStable (fun d => I d ∧ J d).
Proof.
  split.
  - intros d j [? ?]. by split; apply stable_dispatched.
  - intros d d' [? ?]. by split; apply stable_rollback.
Qed.

Section keeps_rules.
Context (I : Db → Prop).

Lemma keeps_bind {A B} (m : M Session A) (k : A → M Session B) :
  keeps I m → (∀ a, keeps I (k a)) → keeps I (m ≫= k).
Proof. intros Hm Hk s b s' Hs (a & s1 & H1 & H2)%bind_inr. eapply Hk; [eapply Hm|]; done. Qed.

Lemma keeps_ret {A} (a : A) : keeps I (mret a).
Proof. intros s b s' Hs H. by minv. Qed.

Lemma keeps_raise {A} e : keeps I (@raise Session A e).
Proof. by intros s b s' Hs H. Qed.

Lemma keeps_gets {A} (f : Session → A) : keeps I (gets f).
Proof. intros s b s' Hs H. by minv. Qed.

Lemma keeps_get_db {A} (f : Db → A) : keeps I (get_db f).
Proof. apply keeps_gets. Qed.

Lemma keeps_lift {A} (r : exn + A) : keeps I (lift r).
Proof. intros s b s' Hs H. by minv. Qed.

Lemma keeps_require b e : keeps I (require b e).
Proof. intros s c s' Hs H. by minv. Qed.

Lemma keeps_get_or_raise {A} (o : option A) e : keeps I (get_or_raise o e).
Proof. intros s c s' Hs H. by minv. Qed.

Lemma keeps_one_or_none {A} (l : list A) : keeps I (one_or_none l).
Proof. destruct l as [|x [|y l]]; intros s c s' Hs H; simpl in H; by minv. Qed.

Lemma keeps_mod_db f : (∀ d, I d → I (f d)) → keeps I (mod_db f).
Proof. intros Hf s c s' Hs [= <- <-]. by apply Hf. Qed.

Lemma keeps_for_each {A} (f : A → M Session unit) xs :
  (∀ x, keeps I (f x)) → keeps I (for_each f xs).
Proof.
  intros Hf. induction xs as [|x xs IH]; simpl; [apply keeps_ret|by apply keeps_bind].
Qed.

Lemma keeps_add_callback c : keeps I (add_post_commit_callback c).
Proof. by intros s a s' Hs [= <- <-]. Qed.

Lemma dispatches_keep `{!CommitStable I} cbs w :
  I (w_db w) → I (w_db (run_post_commit_callbacks cbs w)).
Proof.
  revert w. induction cbs as [|c cbs IH]; intros w Hw; [done|]. apply IH.
  unfold dispatch. destruct (w_redis_up w); [|done]. by apply stable_dispatched.
Qed.

(** A transaction keeps a stable invariant of committed states. *)
Lemma session_scope_keeps `{!CommitStable I} {A} (m : M Session A) :
  keeps I m → preserves (fun w => I (w_db w)) (session_scope m).
Proof.
  intros Hm w Hw. unfold session_scope.
  destruct (m (new_session (w_db w))) as [[e|a] s] eqn:E; simpl.
  - by apply stable_rollback.
  - apply dispatches_keep. by eapply (Hm (new_session (w_db w))).
Qed.
End keeps_rules.

#[export] Hint Resolve keeps_ret keeps_raise keeps_gets keeps_get_db keeps_lift
  keeps_require keeps_get_or_raise keeps_one_or_none keeps_add_callback : gateway.

(** [keeps_step]: split a body at its binds and conditionals. *)
Ltac keeps_step :=
  match goal with
  | |- keeps _ (_ ≫= _) => apply keeps_bind; [|intros ?]
  | |- keeps _ (for_each _ _) => apply keeps_for_each; intros ?
  | |- keeps _ (match ?x with _ => _ end) => destruct x eqn:?
  | |- keeps _ _ => solve [eauto with gateway]
  end.
Ltac keeps_auto := repeat keeps_step.

Lemma mark_dispatched_lookup d job i :
  agent_job (mark_dispatched d job) !! i =
  (fun j => if bool_decide (i = job) then j <| job_dispatched_at := Some (clock d) |> else j)
    <$> agent_job d !! i.
Proof.
  simpl. destruct (decide (i = job)) as [->|Hne].
  - rewrite lookup_alter_eq, bool_decide_true by done. done.
  - rewrite lookup_alter_ne, bool_decide_false by done. by destruct (agent_job d !! i).
Qed.

(** The queue after the callbacks of a commit: each registered job once, in
    front, the last registered first. *)
Lemma callbacks_queue cbs w :
  w_queue (run_post_commit_callbacks cbs w) =
  if w_redis_up w then rev (callback_job <$> cbs) ++ w_queue w else w_queue w.
Proof.
  revert w. induction cbs as [|c cbs IH]; intros w; simpl; [by destruct (w_redis_up w)|].
  unfold run_post_commit_callbacks in *. simpl. rewrite IH. unfold dispatch.
  destruct (w_redis_up w) eqn:E; simpl; rewrite ?E; [|done].
  rewrite <- app_assoc. done.
Qed.
