(* ===== verification/Apply.v ===== *)
(** * The apply-status state machine and the durable job ledger

    [core/applystate.py] (legal transitions) and [services/apply.py]: every
    configuration change queues one durable job per service version, and the
    worker moves the job and the service through applying to active or
    failed. *)

From S2P Require Import Prelude Ipaddress Models Db.
Open Scope Z_scope.

(** ** [core/applystate.py] *)

Definition LEGAL_APPLY (s : ApplyStatus.t) : list ApplyStatus.t :=
  match s with
  | ApplyStatus.pending => [ApplyStatus.pending; ApplyStatus.queued]
  | ApplyStatus.queued => [ApplyStatus.pending; ApplyStatus.applying]
  | ApplyStatus.applying => [ApplyStatus.pending; ApplyStatus.active; ApplyStatus.failed]
  | ApplyStatus.active => [ApplyStatus.pending]
  | ApplyStatus.failed => [ApplyStatus.pending; ApplyStatus.queued]
  end.

Definition assert_transition (current target : ApplyStatus.t) : exn + unit :=
  if bool_decide (target ∈ LEGAL_APPLY current) then inr tt
  else inl (IllegalTransition ("Illegal apply transition: " +:+ ApplyStatus.value current
                               +:+ " -> " +:+ ApplyStatus.value target)).

Definition assert_active_version_advances (active_version : option Z) (new : Z)
    : exn + unit :=
  let previous := match active_version with Some v => v | None => -1 end in
  if new <=? previous
  then inl (NonMonotonicVersion "active_version must advance to a greater value")
  else inr tt.

Definition is_terminal (s : JobStatus.t) : bool :=
  match s with
  | JobStatus.succeeded | JobStatus.failed | JobStatus.superseded => true
  | JobStatus.queued | JobStatus.applying => false
  end.

(** ** [services/apply.py] *)

Definition APPLY_ERROR_LIMIT : nat := 2000.

Definition job_not_found : exn := HTTPException 404 "Apply job not found".
Definition service_not_found : exn := HTTPException 404 "Service not found".

Definition put_service (svc : ProtectedService) : M Session unit :=
  mod_db (fun d => d <| protected_service := <[svc_id svc := svc]> (protected_service d) |>).
Definition put_job (job : AgentJob) : M Session unit :=
  mod_db (fun d => d <| agent_job := <[job_id job := job]> (agent_job d) |>).

(** [target_type = 'service' AND target_id = sid AND version = v]; the same
    rows are the ones the partial unique index covers. *)
Definition is_service_job (sid : uuid) (v : Z) (j : AgentJob) : bool :=
  bool_decide (job_target j = TargetService sid) && (job_version j =? v).

Definition _job_for_target_version (service_id : uuid) (version : Z)
    : M Session (option AgentJob) :=
  jobs ← get_db agent_job;
  one_or_none (select_where (is_service_job service_id version) jobs).

Definition _current_version_job_for_update (svc : ProtectedService)
    : M Session (option AgentJob) :=
  jobs ← get_db agent_job;
  one_or_none (select_where (is_service_job (svc_id svc) (svc_version svc)) jobs).

Definition _load_job_for_update (job_id : uuid) : M Session AgentJob :=
  jobs ← get_db agent_job;
  get_or_raise (jobs !! job_id) job_not_found.

Definition _load_service_for_update (service_id : uuid) : M Session ProtectedService :=
  services ← get_db protected_service;
  get_or_raise (services !! service_id) service_not_found.

(** [_load_service_for_update(db, job.target_id)]: a job without a service
    target has a NULL [target_id], which selects nothing. *)
Definition load_target_service (job : AgentJob) : M Session ProtectedService :=
  match job_target job with
  | TargetService sid => _load_service_for_update sid
  | _ => raise service_not_found
  end.

Definition _superseded (svc : ProtectedService) (job : AgentJob) : bool :=
  negb (svc_version svc =? job_version job).

Definition _mark_superseded (job : AgentJob) : M Session unit :=
  now ← utc_now;
  put_job (job <| job_status := JobStatus.superseded |> <| job_finished_at := Some now |>).

Definition _register_dispatch (job : uuid) : M Session unit :=
  ids ← gets apply_dispatch_job_ids;
  if bool_decide (job ∈ ids) then mret tt
  else
    modS (fun s => s <| apply_dispatch_job_ids := {[job]} ∪ apply_dispatch_job_ids s |>) ;;
    add_post_commit_callback (DispatchApply job).

Definition new_job (id : uuid) (target : JobTarget) (version : Z)
    (trigger : ChangeTrigger.t) (now : timestamp) : AgentJob :=
  mkAgentJob id target version trigger JobStatus.queued None 0 None now None None.

(** INSERT ... ON CONFLICT (target_id, version) DO NOTHING RETURNING id, then
    the existing row when nothing was inserted. *)
Definition _insert_or_get_job (svc : ProtectedService) (trigger : ChangeTrigger.t)
    : M Session AgentJob :=
  id ← uuid4;
  now ← utc_now;
  jobs ← get_db agent_job;
  services ← get_db protected_service;
  match select_where (is_service_job (svc_id svc) (svc_version svc)) jobs with
  | [] =>
      check_pkey agent_job id "agent_job_pkey" ;;
      require (bool_decide (is_Some (services !! svc_id svc)))
        (IntegrityError "agent_job_target_id_fkey") ;;
      let job := new_job id (TargetService (svc_id svc)) (svc_version svc) trigger now in
      put_job job ;;
      mret job
  | _ =>
      existing ← _job_for_target_version (svc_id svc) (svc_version svc);
      get_or_raise existing (HTTPException 500 "Apply job not found after conflict")
  end.

Definition enqueue_service_update (svc : ProtectedService) (trigger : ChangeTrigger.t)
    : M Session AgentJob :=
  (if bool_decide (svc_apply_status svc = ApplyStatus.queued) then mret tt
   else lift (assert_transition (svc_apply_status svc) ApplyStatus.queued)) ;;
  job ← _insert_or_get_job svc trigger;
  now ← utc_now;
  put_service (svc <| svc_apply_status := ApplyStatus.queued |>
                   <| svc_updated_at := now |>) ;;
  _register_dispatch (job_id job) ;;
  mret job.

Definition mark_applying (jid : uuid) : M Session unit :=
  job ← _load_job_for_update jid;
  if is_terminal (job_status job) then mret tt else
  svc ← load_target_service job;
  if _superseded svc job then _mark_superseded job else
  lift (assert_transition (svc_apply_status svc) ApplyStatus.applying) ;;
  now ← utc_now;
  put_service (svc <| svc_apply_status := ApplyStatus.applying |>
                   <| svc_updated_at := now |>) ;;
  put_job (job <| job_status := JobStatus.applying |>
               <| job_started_at := Some now |>
               <| job_attempts := job_attempts job + 1 |>).

Definition mark_active (jid : uuid) : M Session unit :=
  job ← _load_job_for_update jid;
  if is_terminal (job_status job) then mret tt else
  svc ← load_target_service job;
  if _superseded svc job then _mark_superseded job else
  lift (assert_transition (svc_apply_status svc) ApplyStatus.active) ;;
  lift (assert_active_version_advances (svc_active_version svc) (job_version job)) ;;
  now ← utc_now;
  put_service (svc <| svc_apply_status := ApplyStatus.active |>
                   <| svc_active_version := Some (job_version job) |>
                   <| svc_updated_at := now |>) ;;
  put_job (job <| job_status := JobStatus.succeeded |>
               <| job_finished_at := Some now |>).

Definition mark_failed (jid : uuid) (error : string) : M Session unit :=
  job ← _load_job_for_update jid;
  if is_terminal (job_status job) then mret tt else
  svc ← load_target_service job;
  if _superseded svc job then _mark_superseded job else
  lift (assert_transition (svc_apply_status svc) ApplyStatus.failed) ;;
  now ← utc_now;
  put_service (svc <| svc_apply_status := ApplyStatus.failed |>
                   <| svc_updated_at := now |>) ;;
  put_job (job <| job_status := JobStatus.failed |>
               <| job_error := Some (String.substring 0 APPLY_ERROR_LIMIT error) |>
               <| job_finished_at := Some now |>).

Definition retry (service_id : uuid) (actor : option User) : M Session AgentJob :=
  locked ← _load_service_for_update service_id;
  require (bool_decide (svc_apply_status locked = ApplyStatus.failed))
    (NotFailedError "Apply status must be failed to retry") ;;
  lift (assert_transition (svc_apply_status locked) ApplyStatus.queued) ;;
  existing ← _current_version_job_for_update locked;
  job ← (match existing with
         | None =>
             id ← uuid4;
             now ← utc_now;
             check_pkey agent_job id "agent_job_pkey" ;;
             mret (new_job id (TargetService (svc_id locked)) (svc_version locked)
                     ChangeTrigger.service now)
         | Some job =>
             mret (job <| job_status := JobStatus.queued |> <| job_error := None |>
                       <| job_started_at := None |> <| job_finished_at := None |>
                       <| job_dispatched_at := None |>)
         end);
  put_job job ;;
  now ← utc_now;
  put_service (locked <| svc_apply_status := ApplyStatus.queued |>
                      <| svc_updated_at := now |>) ;;
  record_event actor "apply.retry" (Some "protected_service"%string)
    (Some (uuid_str (svc_id locked))) "success" None
    (Some [("version"%string, JInt (svc_version locked))]) ;;
  _register_dispatch (job_id job) ;;
  mret job.

(** *** Reading the status *)

Definition is_job_of (sid : uuid) (j : AgentJob) : bool :=
  bool_decide (job_target j = TargetService sid).

Definition _latest_job (d : Db) (service_id : uuid) : option AgentJob :=
  head (order_by_desc (fun j => [job_version j; job_created_at j])
          (select_where (is_job_of service_id) (agent_job d))).

Definition _latest_success (d : Db) (service_id : uuid) : option AgentJob :=
  head (order_by_desc (fun j => job_version j :: desc_nulls_first (job_finished_at j))
          (select_where (fun j => is_job_of service_id j &&
             bool_decide (job_status j = JobStatus.succeeded)) (agent_job d))).

Record ApplyStatusRecord := mkApplyStatusRecord {
  asr_service_id : uuid;
  asr_tenant_id : uuid;
  asr_tenant_name : option string;
  asr_apply_status : ApplyStatus.t;
  asr_version : Z;
  asr_active_version : option Z;
  asr_last_error : option string;
  asr_last_applied_at : option timestamp;
  asr_latest_job : option AgentJob
}.

Definition get_apply_status (d : Db) (svc : ProtectedService) : ApplyStatusRecord :=
  let latest_job := _latest_job d (svc_id svc) in
  let last_success := _latest_success d (svc_id svc) in
  mkApplyStatusRecord (svc_id svc) (svc_tenant_id svc)
    (tenant_name <$> tenants d !! svc_tenant_id svc)
    (svc_apply_status svc) (svc_version svc) (svc_active_version svc)
    (match latest_job with
     | Some j => if bool_decide (job_status j = JobStatus.failed) then job_error j else None
     | None => None
     end)
    (last_success ≫= job_finished_at)
    latest_job.

Definition list_jobs (d : Db) (status : option JobStatus.t) : list AgentJob :=
  order_by_desc (fun j => [job_created_at j; job_version j])
    (select_where (fun j => match status with
                            | Some st => bool_decide (job_status j = st)
                            | None => true
                            end) (agent_job d)).
