(* ===== verification/ApplyInv.v ===== *)
(** * The coupling invariant of services and jobs

    Every committed state couples each service with the job of its current
    version: queued with queued, applying with applying, active with
    succeeded, failed with failed.  This file proves that each operation of
    [services/apply.py] keeps the coupling and what each of them returns and
    raises. *)

From S2P Require Import Prelude Ipaddress Models Db Apply.
Open Scope Z_scope.

Implicit Types (ps : gmap uuid ProtectedService) (aj : gmap uuid AgentJob).

(** The pairs of service status and current-job status a commit may leave. *)
Definition coupled (a : ApplyStatus.t) (j : JobStatus.t) : bool :=
  match a, j with
  | ApplyStatus.queued, JobStatus.queued => true
  | ApplyStatus.applying, JobStatus.applying => true
  | ApplyStatus.active, JobStatus.succeeded => true
  | ApplyStatus.failed, JobStatus.failed => true
  | _, _ => false
  end.

(** The applied version never passes the configured one, and equals it exactly
    in status active. *)
Definition active_ok (s : ProtectedService) : Prop :=
  match svc_active_version s with
  | None => svc_apply_status s ≠ ApplyStatus.active
  | Some v => v <= svc_version s ∧
              (v = svc_version s ↔ svc_apply_status s = ApplyStatus.active)
  end.

Definition service_job (aj : gmap uuid AgentJob) (jid : uuid) (j : AgentJob)
    (sid : uuid) : Prop :=
  aj !! jid = Some j ∧ job_target j = TargetService sid.

Record ledger_inv (ps : gmap uuid ProtectedService) (aj : gmap uuid AgentJob) : Prop := {
  li_svc_id : ∀ i s, ps !! i = Some s → svc_id s = i;
  li_job_id : ∀ i j, aj !! i = Some j → job_id j = i;
  li_unique : ∀ i j i' j' sid, service_job aj i j sid → service_job aj i' j' sid →
      job_version j = job_version j' → i = i';
  li_target : ∀ i j sid, service_job aj i j sid →
      ∃ s, ps !! sid = Some s ∧ job_version j <= svc_version s;
  li_version : ∀ i s, ps !! i = Some s → 1 <= svc_version s
}.

Definition settled (aj : gmap uuid AgentJob) (sid : uuid) (s : ProtectedService) : Prop :=
  active_ok s ∧
  ∃ jid j, service_job aj jid j sid ∧ job_version j = svc_version s ∧
           coupled (svc_apply_status s) (job_status j) = true.

Definition apply_inv ps aj : Prop :=
  ledger_inv ps aj ∧ ∀ sid s, ps !! sid = Some s → settled aj sid s.

(** Inside a transaction, between the version bump of [sid] and the enqueue of
    its job, that one service is unsettled. *)
Definition apply_inv_bumped (sid : uuid) ps aj : Prop :=
  ledger_inv ps aj ∧
  (∀ i s, i ≠ sid → ps !! i = Some s → settled aj i s) ∧
  (∀ s, ps !! sid = Some s →
     svc_apply_status s = ApplyStatus.pending ∧
     (∀ i j, service_job aj i j sid → job_version j < svc_version s) ∧
     (∀ v, svc_active_version s = Some v → v < svc_version s)).

Definition apply_ok (d : Db) : Prop := apply_inv (protected_service d) (agent_job d).
Definition apply_ok_bumped (sid : uuid) (d : Db) : Prop :=
  apply_inv_bumped sid (protected_service d) (agent_job d).

(** ** Updating one service, one job, or both *)

Lemma service_job_insert aj jid j i j' sid :
  service_job (<[jid := j]> aj) i j' sid ↔
  (i = jid ∧ j' = j ∧ job_target j = TargetService sid) ∨
  (i ≠ jid ∧ service_job aj i j' sid).
Proof.
  unfold service_job. rewrite lookup_insert_Some. naive_solver.
Qed.

Lemma ledger_inv_update ps aj sid svc svc' jid job job' :
  ledger_inv ps aj → ps !! sid = Some svc → service_job aj jid job sid →
  svc_id svc' = svc_id svc → svc_version svc' = svc_version svc →
  job_id job' = job_id job → job_target job' = job_target job →
  job_version job' = job_version job →
  ledger_inv (<[sid := svc']> ps) (<[jid := job']> aj).
Proof.
  intros [Hsid Hjid Huniq Htgt Hver] Hs [Hj Ht] Eid Ev Ejid Et Ejv.
  assert (∀ i j s', service_job (<[jid := job']> aj) i j s' →
    ∃ j0, service_job aj i j0 s' ∧ job_version j0 = job_version j) as Hback.
  { intros i j s' [(-> & -> & Hto)|[Hne Hin]]%service_job_insert; [|by eauto].
    exists job. split; [split; [done|congruence]|congruence]. }
  split.
  - intros i s [[<- <-]|[Hne Hin]]%lookup_insert_Some; [|by eauto].
    rewrite Eid. by apply Hsid.
  - intros i j [[<- <-]|[Hne Hin]]%lookup_insert_Some; [|by eauto].
    rewrite Ejid. by apply Hjid.
  - intros i j i' j' s' H1 H2 He.
    destruct (Hback _ _ _ H1) as (? & ? & ?), (Hback _ _ _ H2) as (? & ? & ?).
    eapply Huniq; [done..|congruence].
  - intros i j s' H1. destruct (Hback _ _ _ H1) as (j0 & H0 & Hv0).
    destruct (Htgt _ _ _ H0) as (s & Hss & Hle). rewrite <- Hv0.
    destruct (decide (s' = sid)) as [->|Hne].
    + exists svc'. rewrite lookup_insert_eq. split; [done|]. simplify_eq. lia.
    + exists s. by rewrite lookup_insert_ne.
  - intros i s [[<- <-]|[Hne Hin]]%lookup_insert_Some; [|by eauto].
    rewrite Ev. by eapply Hver.
Qed.

(** Moving a service and its current job together keeps the invariant. *)
Lemma apply_inv_update ps aj sid svc svc' jid job job' :
  apply_inv ps aj → ps !! sid = Some svc → service_job aj jid job sid →
  job_version job = svc_version svc →
  svc_id svc' = svc_id svc → svc_version svc' = svc_version svc →
  job_id job' = job_id job → job_target job' = job_target job →
  job_version job' = job_version job →
  active_ok svc' → coupled (svc_apply_status svc') (job_status job') = true →
  apply_inv (<[sid := svc']> ps) (<[jid := job']> aj).
Proof.
  intros [HL Hset] Hs Hj Hcur Eid Ev Ejid Et Ejv Hact Hc.
  split; [by eapply ledger_inv_update|].
  intros i s [[<- <-]|[Hne Hin]]%lookup_insert_Some.
  - split; [done|]. exists jid, job'. split; [|split; [congruence|done]].
    apply service_job_insert. left. destruct Hj. split_and!; congruence.
  - destruct (Hset i s Hin) as [Ha (k & j & Hk & Hv & Hco)]. split; [done|].
    exists k, j. split; [|done]. apply service_job_insert. right. split; [|done].
    intros ->. destruct Hj as [Hj1 Hj2], Hk as [Hk1 Hk2]. congruence.
Qed.

(** A job of an older version may change status freely. *)
Lemma apply_inv_update_old ps aj sid svc jid job job' :
  apply_inv ps aj → ps !! sid = Some svc → service_job aj jid job sid →
  job_version job ≠ svc_version svc →
  job_id job' = job_id job → job_target job' = job_target job →
  job_version job' = job_version job →
  apply_inv ps (<[jid := job']> aj).
Proof.
  intros [HL Hset] Hs Hj Hold Ejid Et Ejv. split.
  - rewrite <- (insert_id ps sid svc Hs). by eapply ledger_inv_update.
  - intros i s Hin. destruct (Hset i s Hin) as [Ha (k & j & Hk & Hv & Hco)].
    split; [done|]. exists k, j. split; [|done].
    apply service_job_insert. right. split; [|done].
    intros ->. destruct Hj as [Hj1 Hj2], Hk as [Hk1 Hk2]. simplify_eq. congruence.
Qed.

(** Editing a service without touching the fields the ledger looks at. *)
Lemma apply_inv_edit ps aj sid svc svc' :
  apply_inv ps aj → ps !! sid = Some svc →
  svc_id svc' = svc_id svc → svc_version svc' = svc_version svc →
  svc_apply_status svc' = svc_apply_status svc →
  svc_active_version svc' = svc_active_version svc →
  apply_inv (<[sid := svc']> ps) aj.
Proof.
  intros [HL Hset] Hs Eid Ev Est Eav. pose proof HL as [Hsid Hjid Huniq Htgt Hver].
  split.
  - split; [..|done| |].
    + intros i s [[<- <-]|[Hne Hin]]%lookup_insert_Some; [|by eauto].
      rewrite Eid. by apply Hsid.
    + done.
    + intros i j s' H. destruct (Htgt _ _ _ H) as (s & Hss & Hle).
      destruct (decide (s' = sid)) as [->|Hne].
      * exists svc'. rewrite lookup_insert_eq. split; [done|]. simplify_eq. lia.
      * exists s. by rewrite lookup_insert_ne.
    + intros i s [[<- <-]|[Hne Hin]]%lookup_insert_Some; [|by eauto].
      rewrite Ev. by eapply Hver.
  - intros i s [[<- <-]|[Hne Hin]]%lookup_insert_Some; [|by eauto].
    destruct (Hset sid svc Hs) as [Ha (k & j & Hk & Hv & Hco)]. split.
    + unfold active_ok in *. by rewrite Eav, Est, Ev.
    + exists k, j. by rewrite Ev, Est.
Qed.

(** A version bump unsettles exactly the bumped service. *)
Lemma apply_inv_bump ps aj sid svc svc' :
  apply_inv ps aj → ps !! sid = Some svc →
  svc_id svc' = svc_id svc → svc_version svc' = svc_version svc + 1 →
  svc_apply_status svc' = ApplyStatus.pending →
  svc_active_version svc' = svc_active_version svc →
  apply_inv_bumped sid (<[sid := svc']> ps) aj.
Proof.
  intros [HL Hset] Hs Eid Ev Est Eav. pose proof HL as [Hsid Hjid Huniq Htgt Hver].
  assert (∀ i j, service_job aj i j sid → job_version j < svc_version svc') as Hlt.
  { intros i j H. destruct (Htgt _ _ _ H) as (s & Hss & Hle). simplify_eq. lia. }
  split_and!.
  - split; [|done..| |].
    + intros i s [[<- <-]|[Hne Hin]]%lookup_insert_Some; [|by eauto].
      rewrite Eid. by apply Hsid.
    + intros i j s' H. destruct (Htgt _ _ _ H) as (s & Hss & Hle).
      destruct (decide (s' = sid)) as [->|Hne].
      * exists svc'. rewrite lookup_insert_eq. split; [done|]. specialize (Hlt _ _ H). lia.
      * exists s. by rewrite lookup_insert_ne.
    + intros i s [[<- <-]|[Hne Hin]]%lookup_insert_Some; [|by eauto].
      rewrite Ev. specialize (Hver _ _ Hs). lia.
  - intros i s Hne. rewrite lookup_insert_ne by done. apply Hset.
  - intros s. rewrite lookup_insert_eq. intros [= <-]. split_and!; [done..|].
    intros v Hv. rewrite Eav in Hv. destruct (Hset sid svc Hs) as [Ha _].
    unfold active_ok in Ha. rewrite Hv in Ha. lia.
Qed.

(** Queueing a fresh job for the bumped version settles the service again. *)
Lemma apply_inv_enqueue ps aj sid svc svc' jid job :
  apply_inv_bumped sid ps aj → ps !! sid = Some svc → aj !! jid = None →
  svc_id svc' = svc_id svc → svc_version svc' = svc_version svc →
  svc_apply_status svc' = ApplyStatus.queued →
  svc_active_version svc' = svc_active_version svc →
  job_id job = jid → job_target job = TargetService sid →
  job_version job = svc_version svc → job_status job = JobStatus.queued →
  apply_inv (<[sid := svc']> ps) (<[jid := job]> aj).
Proof.
  intros (HL & Hset & Hsid0) Hs Hfresh Eid Ev Est Eav Ejid Et Ejv Ejs.
  pose proof HL as [Hsid Hjid Huniq Htgt Hver].
  destruct (Hsid0 svc Hs) as (_ & Hlt & Hav).
  assert (∀ i j s', service_job aj i j s' → i ≠ jid) as Hni.
  { intros i j s' [H _] ->. congruence. }
  split.
  - split.
    + intros i s [[<- <-]|[Hne Hin]]%lookup_insert_Some; [|by eauto].
      rewrite Eid. by apply Hsid.
    + intros i j [[<- <-]|[Hne Hin]]%lookup_insert_Some; by eauto.
    + intros i j i' j' s' [(-> & -> & E1)|[Hn1 H1]]%service_job_insert
        [(-> & -> & E2)|[Hn2 H2]]%service_job_insert He.
      * done.
      * rewrite Et in E1. injection E1 as <-. specialize (Hlt _ _ H2). lia.
      * rewrite Et in E2. injection E2 as <-. specialize (Hlt _ _ H1). lia.
      * by eapply Huniq.
    + intros i j s' [(-> & -> & E1)|[Hn1 H1]]%service_job_insert.
      * rewrite Et in E1. injection E1 as <-. exists svc'.
        rewrite lookup_insert_eq. split; [done|]. lia.
      * destruct (Htgt _ _ _ H1) as (s & Hss & Hle).
        destruct (decide (s' = sid)) as [->|Hne].
        -- exists svc'. rewrite lookup_insert_eq. split; [done|]. simplify_eq. lia.
        -- exists s. by rewrite lookup_insert_ne.
    + intros i s [[<- <-]|[Hne Hin]]%lookup_insert_Some; [|by eauto].
      rewrite Ev. by eapply Hver.
  - intros i s [[<- <-]|[Hne Hin]]%lookup_insert_Some.
    + split.
      * unfold active_ok. rewrite Eav, Est, Ev. destruct (svc_active_version svc) as [v|]; [|done].
        specialize (Hav v eq_refl). split; [lia|]. split; [lia|done].
      * exists jid, job. split_and!; [|congruence|by rewrite Est, Ejs].
        apply service_job_insert. by left.
    + destruct (Hset i s (not_eq_sym Hne) Hin) as [Ha (k & j & Hk & Hv & Hco)].
      split; [done|]. exists k, j. split; [|done].
      apply service_job_insert. right. split; [by eapply Hni|done].
Qed.

(** ** The operations of [services/apply.py] keep the invariant *)

Lemma assert_transition_inr a b u : assert_transition a b = inr u → b ∈ LEGAL_APPLY a.
Proof. unfold assert_transition. by case_bool_decide. Qed.

Lemma assert_advances_inr o n u :
  assert_active_version_advances o n = inr u → ∀ v, o = Some v → v < n.
Proof.
  unfold assert_active_version_advances. intros H v ->.
  destruct (n <=? v) eqn:E; [done|]. lia.
Qed.

Lemma load_target_inr job s svc s' :
  load_target_service job s = (inr svc, s') →
  s' = s ∧ ∃ sid, job_target job = TargetService sid ∧
                  protected_service (db s) !! sid = Some svc.
Proof.
  unfold load_target_service, _load_service_for_update, get_db.
  destruct (job_target job); intros H; minv. eauto.
Qed.

Lemma load_job_inr jid s job s' :
  _load_job_for_update jid s = (inr job, s') →
  s' = s ∧ agent_job (db s) !! jid = Some job.
Proof. unfold _load_job_for_update, get_db. intros H. by minv. Qed.

(** The shape the three marks share: a terminal job is left alone, a job of
    another version becomes superseded, and otherwise [k] runs on the job and
    its service. *)
Definition guarded_mark (jid : uuid) (k : AgentJob → ProtectedService → M Session unit)
    : M Session unit :=
  job ← _load_job_for_update jid;
  if is_terminal (job_status job) then mret tt else
  svc ← load_target_service job;
  if _superseded svc job then _mark_superseded job else k job svc.

Lemma guarded_mark_inr jid k s u s' :
  guarded_mark jid k s = (inr u, s') →
  ∃ job, agent_job (db s) !! jid = Some job ∧
  ((is_terminal (job_status job) = true ∧ s' = s) ∨
   ∃ sid svc, is_terminal (job_status job) = false ∧
     job_target job = TargetService sid ∧ protected_service (db s) !! sid = Some svc ∧
     ((job_version job ≠ svc_version svc ∧ _mark_superseded job s = (inr tt, s')) ∨
      (job_version job = svc_version svc ∧ k job svc s = (inr u, s')))).
Proof.
  unfold guarded_mark. intros H. minv.
  match goal with H : _load_job_for_update _ _ = _ |- _ =>
    apply load_job_inr in H as [-> Hj] end.
  eexists. split; [done|].
  destruct (is_terminal _) eqn:Et; [left; by minv|right]. minv.
  match goal with H : load_target_service _ _ = _ |- _ =>
    apply load_target_inr in H as (-> & sid & Htgt & Hs) end.
  exists sid, a0. split_and!; [done..|]. unfold _superseded in H.
  destruct (svc_version a0 =? job_version a) eqn:Ev; simpl in H.
  - right. split; [lia|done].
  - left. split; [lia|]. by destruct u.
Qed.

Lemma guarded_mark_keeps jid k :
  (∀ job svc sid s u s', apply_ok (db s) → agent_job (db s) !! jid = Some job →
     job_target job = TargetService sid → protected_service (db s) !! sid = Some svc →
     job_version job = svc_version svc → k job svc s = (inr u, s') → apply_ok (db s')) →
  keeps apply_ok (guarded_mark jid k).
Proof.
  intros Hk s u s' Hok H.
  apply guarded_mark_inr in H as (job & Hj & [[_ ->]|(sid & svc & _ & Ht & Hs & Hc)]); [done|].
  destruct Hc as [[Hv Hsup]|[Hv Hrun]]; [|by eapply Hk].
  unfold _mark_superseded, utc_now, get_db, put_job, mod_db in Hsup. minv.
  unfold apply_ok in *; simpl. rewrite (li_job_id _ _ (proj1 Hok) _ _ Hj).
  eapply apply_inv_update_old; [done|exact Hs|by split|try done..].
  symmetry. exact (li_job_id _ _ (proj1 Hok) _ _ Hj).
Qed.

(** Writing the two rows of one move. *)
Lemma apply_ok_move d jid job job' sid svc svc' :
  apply_ok d → agent_job d !! jid = Some job →
  job_target job = TargetService sid → protected_service d !! sid = Some svc →
  job_version job = svc_version svc →
  svc_id svc' = svc_id svc → svc_version svc' = svc_version svc →
  job_id job' = job_id job → job_target job' = job_target job →
  job_version job' = job_version job →
  active_ok svc' → coupled (svc_apply_status svc') (job_status job') = true →
  apply_inv (<[svc_id svc' := svc']> (protected_service d))
            (<[job_id job' := job']> (agent_job d)).
Proof.
  intros Hok Hj Ht Hs Hv Eid Ev Ejid Et Ejv Ha Hc. unfold apply_ok in Hok.
  rewrite Eid, Ejid, (li_job_id _ _ (proj1 Hok) _ _ Hj), (li_svc_id _ _ (proj1 Hok) _ _ Hs).
  by eapply apply_inv_update; [done|exact Hs|split|..].
Qed.

Lemma settled_active_ok d sid svc :
  apply_ok d → protected_service d !! sid = Some svc → active_ok svc.
Proof. intros [_ H] Hs. by destruct (H _ _ Hs). Qed.

(** Leaving status active is only possible through a version bump, so any
    other move keeps the applied version below the configured one. *)
Lemma active_ok_move svc svc' :
  active_ok svc → svc_apply_status svc ≠ ApplyStatus.active →
  svc_apply_status svc' ≠ ApplyStatus.active →
  svc_version svc' = svc_version svc → svc_active_version svc' = svc_active_version svc →
  active_ok svc'.
Proof.
  unfold active_ok. intros H Hn Hn' -> ->.
  destruct (svc_active_version svc); naive_solver.
Qed.

Ltac move_rows d :=
  match goal with
  | |- apply_inv (<[_ := ?svc']> _) (<[_ := ?job']> _) =>
      eapply (apply_ok_move d _ _ job' _ _ svc'); try done
  end.

Lemma legal_applying a : ApplyStatus.applying ∈ LEGAL_APPLY a → a = ApplyStatus.queued.
Proof. destruct a; simpl; intros H; set_solver. Qed.
Lemma legal_active a : ApplyStatus.active ∈ LEGAL_APPLY a → a = ApplyStatus.applying.
Proof. destruct a; simpl; intros H; set_solver. Qed.
Lemma legal_failed a : ApplyStatus.failed ∈ LEGAL_APPLY a → a = ApplyStatus.applying.
Proof. destruct a; simpl; intros H; set_solver. Qed.

Lemma mark_applying_keeps jid : keeps apply_ok (mark_applying jid).
Proof.
  apply guarded_mark_keeps. intros job svc sid s u s' Hok Hj Ht Hs Hv H.
  unfold utc_now, get_db, put_job, put_service, mod_db in H. minv.
  match goal with H : assert_transition _ _ = _ |- _ =>
    apply assert_transition_inr, legal_applying in H as Hq end.
  unfold apply_ok; simpl. move_rows (db s).
  eapply active_ok_move; [by eapply settled_active_ok|by rewrite Hq|done..].
Qed.

Lemma mark_active_keeps jid : keeps apply_ok (mark_active jid).
Proof.
  apply guarded_mark_keeps. intros job svc sid s u s' Hok Hj Ht Hs Hv H.
  unfold utc_now, get_db, put_job, put_service, mod_db in H. minv.
  unfold apply_ok; simpl. move_rows (db s).
  unfold active_ok; simpl. split; [lia|done].
Qed.

Lemma mark_failed_keeps jid error : keeps apply_ok (mark_failed jid error).
Proof.
  apply guarded_mark_keeps. intros job svc sid s u s' Hok Hj Ht Hs Hv H.
  unfold utc_now, get_db, put_job, put_service, mod_db in H. minv.
  match goal with H : assert_transition _ _ = _ |- _ =>
    apply assert_transition_inr, legal_failed in H as Hq end.
  unfold apply_ok; simpl. move_rows (db s).
  eapply active_ok_move; [by eapply settled_active_ok|by rewrite Hq|done..].
Qed.

(** The job of the current version is the only row its query finds. *)
Lemma current_job_query d sid svc :
  apply_ok d → protected_service d !! sid = Some svc →
  ∃ jid j, service_job (agent_job d) jid j sid ∧
    job_version j = svc_version svc ∧ coupled (svc_apply_status svc) (job_status j) = true ∧
    select_where (is_service_job (svc_id svc) (svc_version svc)) (agent_job d) = [j].
Proof.
  intros [HL Hset] Hs. destruct (Hset _ _ Hs) as [_ (jid & j & Hj & Hv & Hc)].
  exists jid, j. split_and!; [done..|]. rewrite (li_svc_id _ _ HL _ _ Hs).
  pose proof Hj as [Hj1 Hj2].
  apply (select_where_unique _ _ jid); [done| |].
  - unfold is_service_job. rewrite bool_decide_true, Hv by done. simpl. lia.
  - unfold is_service_job. intros k r Hk [Ht%bool_decide_eq_true Hr]%andb_true_iff.
    eapply (li_unique _ _ HL k r jid j sid); [by split|done|]. lia.
Qed.

Lemma register_dispatch_db job s u s' :
  _register_dispatch job s = (inr u, s') → db s' = db s.
Proof.
  unfold _register_dispatch, add_post_commit_callback. intros H. minv.
  case_bool_decide; by minv.
Qed.

Lemma retry_keeps sid actor : keeps apply_ok (retry sid actor).
Proof.
  intros s job s' Hok H. unfold retry, _load_service_for_update, get_db in H. minv.
  match goal with
  | Hs : protected_service (db s) !! sid = Some ?svc |- _ =>
      destruct (current_job_query _ _ _ Hok Hs) as (jid & j & [Hj Ht] & Hv & Hc & Hsel);
      pose proof (settled_active_ok _ _ _ Hok Hs) as Hact
  end.
  match goal with H : _current_version_job_for_update _ _ = _ |- _ =>
    unfold _current_version_job_for_update, get_db in H; minv;
    rewrite Hsel in H; simpl in H; minv end.
  unfold utc_now, get_db, put_job, put_service, record_event, mod_db in *. minv.
  match goal with H : _register_dispatch _ _ = _ |- _ =>
    apply register_dispatch_db in H; rewrite H end.
  match goal with H : bool_decide (_ = _) = true |- _ =>
    apply bool_decide_eq_true in H as Hst end.
  unfold apply_ok; simpl.
  match goal with
  | |- apply_inv (<[_ := ?svc']> _) (<[_ := ?job']> _) =>
      eapply (apply_ok_move (db s) jid j job' sid _ svc'); try done
  end.
  eapply active_ok_move; [exact Hact|by rewrite Hst|done..].
Qed.

Lemma retry_inr_failed sid actor s job s' :
  retry sid actor s = (inr job, s') →
  ∃ svc, protected_service (db s) !! sid = Some svc ∧
         svc_apply_status svc = ApplyStatus.failed.
Proof.
  intros H. unfold retry, _load_service_for_update, get_db in H. minv.
  eexists. split; [done|]. by eapply bool_decide_eq_true.
Qed.

(** ** Queueing a bumped version *)

Lemma no_current_job d svc :
  apply_ok_bumped (svc_id svc) d → protected_service d !! svc_id svc = Some svc →
  select_where (is_service_job (svc_id svc) (svc_version svc)) (agent_job d) = [].
Proof.
  intros (HL & _ & Hb) Hs. destruct (Hb _ Hs) as (_ & Hlt & _).
  apply select_where_nil. intros k r Hk. unfold is_service_job.
  case_bool_decide as Et; [|done]. specialize (Hlt k r (conj Hk Et)). simpl. lia.
Qed.

(** The database an enqueue leaves: one fresh queued job for the service's
    version, and the service in status queued. *)
Definition db_enqueue (svc : ProtectedService) (trigger : ChangeTrigger.t) (d : Db) : Db :=
  let jid := uuid_supply d in
  d <| uuid_supply := Pos.succ jid |>
    <| agent_job := <[jid := new_job jid (TargetService (svc_id svc)) (svc_version svc)
                              trigger (clock d)]> (agent_job d) |>
    <| protected_service :=
         <[svc_id svc := svc <| svc_apply_status := ApplyStatus.queued |>
                             <| svc_updated_at := clock d |>]> (protected_service d) |>.

(** The session's dispatch registry after registering [job] once. *)
Definition registered (job : uuid) (s s' : Session) : Prop :=
  apply_dispatch_job_ids s' = {[job]} ∪ apply_dispatch_job_ids s ∧
  post_commit_callbacks s' =
    post_commit_callbacks s ++
    (if bool_decide (job ∈ apply_dispatch_job_ids s) then [] else [DispatchApply job]) ∧
  feed_dispatch_job_ids s' = feed_dispatch_job_ids s.

Lemma register_dispatch_run job s :
  ∃ s', _register_dispatch job s = (inr tt, s') ∧ db s' = db s ∧ registered job s s'.
Proof.
  unfold _register_dispatch, add_post_commit_callback.
  rewrite bind_run. simpl. case_bool_decide as Hin; eexists; (split; [done|]); simpl.
  - split; [done|]. unfold registered. rewrite bool_decide_true, app_nil_r by done.
    split_and!; [set_solver|done..].
  - split; [done|]. unfold registered. by rewrite bool_decide_false.
Qed.

(** Without a job for the service's version the insert takes place, unless the
    drawn identifier is taken. *)
Lemma enqueue_run svc trigger s :
  apply_ok_bumped (svc_id svc) (db s) →
  protected_service (db s) !! svc_id svc = Some svc →
  if bool_decide (agent_job (db s) !! uuid_supply (db s) = None) then
    ∃ s', enqueue_service_update svc trigger s =
      (inr (new_job (uuid_supply (db s)) (TargetService (svc_id svc)) (svc_version svc)
              trigger (clock (db s))), s') ∧
      db s' = db_enqueue svc trigger (db s) ∧ registered (uuid_supply (db s)) s s'
  else ∃ s', enqueue_service_update svc trigger s = (inl (IntegrityError "agent_job_pkey"), s').
Proof.
  intros Hb Hs. pose proof (no_current_job _ _ Hb Hs) as Hnil.
  destruct Hb as (_ & _ & Hb). destruct (Hb _ Hs) as (Hp & _).
  unfold enqueue_service_update. rewrite Hp. rewrite (bind_ok _ _ _ s tt) by done.
  unfold _insert_or_get_job, uuid4, utc_now, get_db, mod_db. mstep. simpl. rewrite Hnil.
  unfold check_pkey, get_db. mstep. simpl.
  case_bool_decide as Hfresh; mstep; [|by eexists].
  rewrite (bool_decide_true (is_Some _)) by (by eexists).
  unfold put_job, put_service, mod_db. mstep. simpl.
  match goal with |- context [(_register_dispatch ?j ≫= _) ?s0] =>
    destruct (register_dispatch_run j s0) as (s1 & Hr & Hdb & Hreg) end.
  rewrite (bind_ok _ _ _ _ _ Hr). eexists. split; [done|]. by rewrite Hdb.
Qed.

Lemma enqueue_inr svc trigger s job s' :
  apply_ok_bumped (svc_id svc) (db s) →
  protected_service (db s) !! svc_id svc = Some svc →
  enqueue_service_update svc trigger s = (inr job, s') →
  agent_job (db s) !! uuid_supply (db s) = None ∧
  job = new_job (uuid_supply (db s)) (TargetService (svc_id svc)) (svc_version svc)
          trigger (clock (db s)) ∧
  db s' = db_enqueue svc trigger (db s) ∧ registered (uuid_supply (db s)) s s'.
Proof.
  intros Hb Hs H. pose proof (enqueue_run svc trigger s Hb Hs) as Hrun.
  case_bool_decide as Hf; [|destruct Hrun as (s1 & Hr); congruence].
  destruct Hrun as (s1 & Hr & Hrest). rewrite Hr in H. by injection H as <- <-.
Qed.

Lemma enqueue_restores svc trigger s job s' :
  apply_ok_bumped (svc_id svc) (db s) →
  protected_service (db s) !! svc_id svc = Some svc →
  enqueue_service_update svc trigger s = (inr job, s') → apply_ok (db s').
Proof.
  intros Hb Hs H. destruct (enqueue_inr _ _ _ _ _ Hb Hs H) as (Hnew & Hjob & Hdb & _).
  unfold apply_ok. rewrite Hdb. by eapply apply_inv_enqueue.
Qed.

(** A new service at version 1 is in the bumped position. *)
Lemma apply_inv_create ps aj svc :
  apply_inv ps aj → ps !! svc_id svc = None → svc_version svc = 1 →
  svc_apply_status svc = ApplyStatus.pending → svc_active_version svc = None →
  apply_inv_bumped (svc_id svc) (<[svc_id svc := svc]> ps) aj.
Proof.
  intros [HL Hset] Hnone Hv Hp Ha. pose proof HL as [Hsid Hjid Huniq Htgt Hver].
  assert (∀ i j, ¬ service_job aj i j (svc_id svc)) as Hno.
  { intros i j H. destruct (Htgt _ _ _ H) as (s & Hss & _). congruence. }
  split_and!.
  - split; [|done..| |].
    + by intros i s [[<- <-]|[Hne Hin]]%lookup_insert_Some; [|eauto].
    + intros i j sid H. destruct (Htgt _ _ _ H) as (s & Hss & Hle). exists s.
      rewrite lookup_insert_ne; [done|]. intros <-. by eapply Hno.
    + intros i s [[<- <-]|[Hne Hin]]%lookup_insert_Some; [lia|eauto].
  - intros i s Hne. rewrite lookup_insert_ne by done. apply Hset.
  - intros s. rewrite lookup_insert_eq. intros [= <-]. split_and!; [done| |].
    + intros i j H. by destruct (Hno i j).
    + by rewrite Ha.
Qed.

(** Jobs that do not target a service may change freely. *)
Lemma apply_inv_other_job ps aj j :
  apply_inv ps aj → (∀ sid, job_target j ≠ TargetService sid) →
  (∀ j0 sid, aj !! job_id j = Some j0 → job_target j0 ≠ TargetService sid) →
  apply_inv ps (<[job_id j := j]> aj).
Proof.
  intros [[Hsid Hjid Huniq Htgt Hver] Hset] Hj Hold.
  assert (∀ i x sid, service_job (<[job_id j := j]> aj) i x sid ↔ service_job aj i x sid) as Hsj.
  { intros i x sid. rewrite service_job_insert. split.
    - intros [(_ & _ & Ht)|[_ ?]]; [by destruct (Hj sid)|done].
    - intros Hx. right. split; [|done]. intros ->. destruct Hx as [Hx Ht].
      by destruct (Hold x sid Hx). }
  split; [split|].
  - done.
  - by intros i x [[<- <-]|[_ Hx]]%lookup_insert_Some; [|eauto].
  - intros i x i' x' sid H1%Hsj H2%Hsj. eauto.
  - intros i x sid H1%Hsj. eauto.
  - done.
  - intros sid svc Hs. destruct (Hset sid svc Hs) as [Ha (k & x & Hk & Hr)].
    split; [done|]. exists k, x. by rewrite Hsj.
Qed.

#[global] Instance apply_ok_stable : CommitStable apply_ok.
Proof.
  split; [|done]. intros d job [HL Hset]. unfold apply_ok. simpl.
  set (aj' := alter _ job (agent_job d)).
  assert (∀ i j sid, service_job aj' i j sid → ∃ j0, service_job (agent_job d) i j0 sid ∧
    job_version j0 = job_version j) as Hback.
  { intros i j sid [H Ht]. pose proof (mark_dispatched_lookup d job i) as HH. simpl in HH.
    fold aj' in HH. rewrite HH in H. destruct (agent_job d !! i) as [j0|] eqn:E; [|done].
    simpl in H. injection H as <-. exists j0. case_bool_decide; done. }
  destruct HL as [Hsid Hjid Huniq Htgt Hver]. split; [split|].
  - done.
  - intros i j H. pose proof (mark_dispatched_lookup d job i) as HH. simpl in HH.
    fold aj' in HH. rewrite HH in H. destruct (agent_job d !! i) as [j0|] eqn:E; [|done].
    simpl in H. injection H as <-. case_bool_decide; exact (Hjid _ _ E).
  - intros i j i' j' sid (j0 & H1 & E1)%Hback (j0' & H2 & E2)%Hback He.
    eapply Huniq; [done..|congruence].
  - intros i j sid (j0 & H1 & E1)%Hback. rewrite <- E1. eauto.
  - done.
  - intros sid s Hs. destruct (Hset _ _ Hs) as [Ha (jid & j & [Hj Ht] & Hv & Hc)].
    split; [done|].
    exists jid, (if bool_decide (jid = job) then j <| job_dispatched_at := Some (clock d) |> else j).
    pose proof (mark_dispatched_lookup d job jid) as HH. simpl in HH. fold aj' in HH.
    rewrite Hj in HH. case_bool_decide; split_and!; try done; by split.
Qed.

#[export] Hint Resolve mark_applying_keeps mark_active_keeps mark_failed_keeps retry_keeps
  : gateway.
