(* ===== verification/Allocations.v ===== *)
(** * Address allocations ([services/allocations.py])

    Tenants own address space through active allocations, which never overlap.
    The scope check [cidr_in_tenant_allocation] is what ties a protected
    service's destination to its tenant. *)

From S2P Require Import Prelude Ipaddress Models Db.
Open Scope Z_scope.

Definition is_active_alloc (a : AllocatedCIDR) : bool :=
  bool_decide (alloc_status a = cidr_active).

(** The rows [_find_conflict] and [overlap_check] select, oldest first. *)
Definition overlapping_allocations (d : Db) (cidr : ipv4net) : list AllocatedCIDR :=
  order_by alloc_created_at
    (select_where (fun a => is_active_alloc a && cidr_overlap (alloc_cidr a) cidr)
       (allocated_cidr d)).

Definition _find_conflict (cidr : ipv4net) : M Session (option AllocatedCIDR) :=
  get_db (fun d => head (overlapping_allocations d cidr)).

Definition _overlap_error (conflict : AllocatedCIDR) : exn :=
  HTTPException 409 ("CIDR overlaps active allocation " +:+ cidr_str (alloc_cidr conflict)).

(** INSERT into [allocated_cidr]: primary key, tenant reference, and the
    exclusion constraint over the active rows. *)
Definition insert_allocation (a : AllocatedCIDR) : M Session unit :=
  check_pkey allocated_cidr (alloc_id a) "allocated_cidr_pkey" ;;
  ts ← get_db tenants;
  require (bool_decide (is_Some (ts !! alloc_tenant_id a)))
    (IntegrityError "allocated_cidr_tenant_id_fkey") ;;
  d ← get_db id;
  require (negb (is_active_alloc a) ||
           bool_decide (overlapping_allocations d (alloc_cidr a) = []))
    (IntegrityError "allocated_cidr_active_no_overlap") ;;
  mod_db (fun d => d <| allocated_cidr := <[alloc_id a := a]> (allocated_cidr d) |>).

Definition allocate (tenant_id_ : uuid) (cidr : ipv4net) (actor : option User)
    (ip : option string) : M Session AllocatedCIDR :=
  ts ← get_db tenants;
  tenant ← get_or_raise (ts !! tenant_id_) (HTTPException 404 "Tenant not found");
  require (bool_decide (tenant_status tenant = tenant_active))
    (HTTPException 409 "Tenant is not active") ;;
  conflict ← _find_conflict cidr;
  match conflict with
  | Some c => raise (_overlap_error c)
  | None =>
      id ← uuid4;
      now ← utc_now;
      let allocation :=
        mkAllocatedCIDR id (tenant_id tenant) cidr cidr_active (user_id <$> actor) now now in
      try_except (insert_allocation allocation) (fun e =>
        if bool_decide (e = IntegrityError "allocated_cidr_active_no_overlap") then
          again ← _find_conflict cidr;
          match again with
          | Some c => raise (_overlap_error c)
          | None => raise (HTTPException 409 "CIDR overlaps an active allocation")
          end
        else raise e) ;;
      record_event actor "allocation.allocate" (Some "allocated_cidr"%string)
        (Some (uuid_str id)) "success" ip
        (Some [("tenant_id"%string, JStr (uuid_str (tenant_id tenant)));
               ("cidr"%string, JStr (cidr_str cidr))]) ;;
      mret allocation
  end.

(** [services.services_in_cidr]: the services whose destination lies inside. *)
Definition services_in_cidr (d : Db) (cidr : ipv4net) : list ProtectedService :=
  order_by svc_created_at
    (select_where (fun s => cidr_contained_eq (svc_cidr_or_ip s) cidr) (protected_service d)).

Definition count_allocation_dependents (d : Db) (allocation : AllocatedCIDR) : list string :=
  (fun s => "protected_service:" +:+ svc_name s) <$> services_in_cidr d (alloc_cidr allocation).

Definition revoke (allocation_id : uuid) (actor : option User) (ip : option string)
    : M Session AllocatedCIDR :=
  allocs ← get_db allocated_cidr;
  allocation ← get_or_raise (allocs !! allocation_id)
                 (HTTPException 404 "Allocation not found");
  if bool_decide (alloc_status allocation = cidr_revoked) then mret allocation else
  blockers ← get_db (fun d => count_allocation_dependents d allocation);
  match blockers with
  | _ :: _ =>
      record_event actor "allocation.revoke" (Some "allocated_cidr"%string)
        (Some (uuid_str (alloc_id allocation))) "denied" ip
        (Some [("blockers"%string, JList (JStr <$> blockers))]) ;;
      raise (HTTPBlocked 409 "Allocation is still in use" blockers)
  | [] =>
      now ← utc_now;
      let allocation := allocation <| alloc_status := cidr_revoked |>
                                   <| alloc_updated_at := now |> in
      mod_db (fun d => d <| allocated_cidr :=
                           <[alloc_id allocation := allocation]> (allocated_cidr d) |>) ;;
      record_event actor "allocation.revoke" (Some "allocated_cidr"%string)
        (Some (uuid_str (alloc_id allocation))) "success" ip
        (Some [("tenant_id"%string, JStr (uuid_str (alloc_tenant_id allocation)));
               ("cidr"%string, JStr (cidr_str (alloc_cidr allocation)))]) ;;
      mret allocation
  end.

Definition list_for_tenant (d : Db) (tenant_id_ : uuid) : list (AllocatedCIDR * nat) :=
  (fun a => (a, length (count_allocation_dependents d a))) <$>
  order_by alloc_created_at
    (select_where (fun a => bool_decide (alloc_tenant_id a = tenant_id_)) (allocated_cidr d)).

Definition overlap_check (d : Db) (candidate : ipv4net) : bool * list AllocatedCIDR :=
  let conflicts := overlapping_allocations d candidate in
  (negb (bool_decide (conflicts = [])), conflicts).

Definition in_tenant_alloc (tenant_id_ : uuid) (target : ipv4net) (a : AllocatedCIDR) : bool :=
  bool_decide (alloc_tenant_id a = tenant_id_) && is_active_alloc a &&
  cidr_contains_eq (alloc_cidr a) target.

(** [SELECT EXISTS (...)]. *)
Definition cidr_in_tenant_allocation (d : Db) (tenant_id_ : uuid) (target : ipv4net) : bool :=
  negb (bool_decide (select_where (in_tenant_alloc tenant_id_ target) (allocated_cidr d) = [])).
