(* ===== verification/PyNum.v ===== *)
(** * Python's numbers: [float], [int | float] metrics, [Decimal] and [Numeric]

    First the [float] arithmetic of the control plane.  Then mixed numbers: the
    alert rules compare a metric that is an [int] or a [float] with a
    threshold that is an [int] or a [float]; Python compares the exact values.
    A metric is persisted through [Decimal(str(metric))] into a
    [Numeric(18, 4)] column.  [str] of a [float] is the shortest decimal that
    reads back as the same double, which is computed here by trying 1 to 17
    significant digits. *)

From S2P Require Import Prelude.
From Stdlib Require Import SpecFloat.
From stdpp Require Import pretty.
Open Scope Z_scope.

(** ** IEEE 754 binary64 numbers as Python's [float]

    The few places of the control plane that compute with [float] use
    conversion from [int] or [Decimal], [*], [/], [<] and fixed-point
    formatting.  The arithmetic is the Standard Library's executable
    specification [SpecFloat] at precision 53. *)

Definition pyfloat := spec_float.
Definition prec64 : Z := 53.
Definition emax64 : Z := 1024.

(** [float(n)]: the nearest double, ties to even. *)
Definition float_of_Z (n : Z) : pyfloat := binary_normalize prec64 emax64 n 0 false.
Definition fmul : pyfloat → pyfloat → pyfloat := SFmul prec64 emax64.
Definition fdiv : pyfloat → pyfloat → pyfloat := SFdiv prec64 emax64.
Definition fltb : pyfloat → pyfloat → bool := SFltb.

(** [float(h / 100)] for a [Decimal] of [h] hundredths: one correctly rounded
    division, exact operands below 2^53. *)
Definition float_of_hundredths (h : Z) : pyfloat := fdiv (float_of_Z h) (float_of_Z 100).

(** [int(x)]: truncation toward zero. *)
Definition int_of_float (x : pyfloat) : Z :=
  match x with
  | S754_finite s m e =>
      let v := if 0 <=? e then Z.pos m * 2 ^ e else Z.pos m / 2 ^ (- e) in
      if s then - v else v
  | _ => 0
  end.

(** The nearest integer to [num / den], ties to even. *)
Definition round_half_even (num den : Z) : Z :=
  let q := num / den in
  let r := num mod den in
  if 2 * r <? den then q
  else if den <? 2 * r then q + 1
  else if Z.even q then q else q + 1.

(** The exact value of a finite double as a fraction. *)
Definition float_fraction (x : pyfloat) : Z * Z :=
  match x with
  | S754_finite s m e =>
      let v := if s then Z.neg m else Z.pos m in
      if 0 <=? e then (v * 2 ^ e, 1) else (v, 2 ^ (- e))
  | _ => (0, 1)
  end.

Fixpoint zeros (n : nat) : string :=
  match n with O => EmptyString | S n => "0" +:+ zeros n end.

(** [v / 10^digits] printed with exactly [digits] fractional digits. *)
Definition fixed_str (v : Z) (digits : nat) : string :=
  let p := 10 ^ Z.of_nat digits in
  let a := Z.abs v in
  let frac : string := pretty (Z.to_N (a mod p)) in
  ((if (v <? 0)%Z then "-" else "") +:+ pretty (Z.to_N (a / p)%Z) +:+ "." +:+
   zeros (digits - String.length frac)%nat +:+ frac)%string.

(** [f"{x:.Nf}"] for a finite [x]. *)
Definition float_fixed (x : pyfloat) (digits : nat) : string :=
  let '(n, d) := float_fraction x in
  fixed_str (round_half_even (n * 10 ^ Z.of_nat digits) d) digits.

(** ** Exact values and comparison *)

Inductive MetricValue := MInt (n : Z) | MFloat (x : pyfloat).

(** A number on the extended line; the denominator is positive. *)
Inductive xval := XNaN | XInf (neg : bool) | XFrac (n d : Z).

Definition float_value (x : pyfloat) : xval :=
  match x with
  | S754_nan => XNaN
  | S754_infinity s => XInf s
  | S754_zero _ => XFrac 0 1
  | S754_finite _ _ _ => let '(n, d) := float_fraction x in XFrac n d
  end.

Definition metric_val (m : MetricValue) : xval :=
  match m with MInt n => XFrac n 1 | MFloat x => float_value x end.

Definition xcompare (a b : xval) : option comparison :=
  match a, b with
  | XNaN, _ | _, XNaN => None
  | XInf s, XInf s' => Some (if Bool.eqb s s' then Eq else if s then Lt else Gt)
  | XInf s, XFrac _ _ => Some (if s then Lt else Gt)
  | XFrac _ _, XInf s => Some (if s then Gt else Lt)
  | XFrac n d, XFrac n' d' => Some (n * d' ?= n' * d)
  end.

Definition num_compare (a b : MetricValue) : option comparison :=
  xcompare (metric_val a) (metric_val b).

(** [a >= b], [a > b] and [a == b]: a NaN on either side answers no. *)
Definition num_geb (a b : MetricValue) : bool :=
  match num_compare a b with Some Gt | Some Eq => true | _ => false end.
Definition num_gtb (a b : MetricValue) : bool :=
  match num_compare a b with Some Gt => true | _ => false end.
Definition num_eqb (a b : MetricValue) : bool :=
  match num_compare a b with Some Eq => true | _ => false end.

(** ** Division of integers *)

Definition exact_float (z : Z) : pyfloat :=
  match z with
  | 0 => S754_zero false
  | Zpos p => S754_finite false p 0
  | Zneg p => S754_finite true p 0
  end.

(** [n / d] on integers, [d] not zero: the correctly rounded quotient. *)
Definition true_div (n d : Z) : pyfloat := fdiv (exact_float n) (exact_float d).

(** ** [Decimal] *)

(** [c * 10 ^ e], or a special value. *)
Inductive PyDec := DecFin (c e : Z) | DecNaN | DecInf (neg : bool).

#[global] Instance PyDec_eq_dec : EqDecision PyDec.
Proof. solve_decision. Defined.

(** [float(d)]: the nearest double. *)
Definition float_of_dec (d : PyDec) : pyfloat :=
  match d with
  | DecFin c e => if 0 <=? e then true_div (c * 10 ^ e) 1 else true_div c (10 ^ (- e))
  | DecNaN => S754_nan
  | DecInf s => S754_infinity s
  end.

(** The exponent [k] with [10 ^ k <= n / d < 10 ^ (k + 1)]; doubles span fewer
    than 330 decades on either side of one. *)
Fixpoint ilog10_up (fuel : nat) (n d k : Z) : Z :=
  match fuel with
  | O => k
  | S fuel => if 10 * d <=? n then ilog10_up fuel n (10 * d) (k + 1) else k
  end.
Fixpoint ilog10_down (fuel : nat) (n d k : Z) : Z :=
  match fuel with
  | O => k
  | S fuel => if n <? d then ilog10_down fuel (10 * n) d (k - 1) else k
  end.
Definition ilog10 (n d : Z) : Z :=
  if d <=? n then ilog10_up 330 n d 0 else ilog10_down 330 n d 0.

(** The [k]-digit decimal nearest to [n / d]. *)
Definition digits_at (n d : Z) (k : nat) : Z * Z :=
  let e := ilog10 n d - Z.of_nat k + 1 in
  (if 0 <=? e then round_half_even n (d * 10 ^ e) else round_half_even (n * 10 ^ (- e)) d, e).

Fixpoint shortest_digits (fuel k : nat) (n d : Z) (x : pyfloat) : Z * Z :=
  let '(c, e) := digits_at n d k in
  match fuel with
  | O => (c, e)
  | S fuel =>
      if num_eqb (MFloat (float_of_dec (DecFin c e))) (MFloat x) then (c, e)
      else shortest_digits fuel (S k) n d x
  end.

Fixpoint strip_zeros (fuel : nat) (c e : Z) : Z * Z :=
  match fuel with
  | O => (c, e)
  | S fuel => if (c mod 10 =? 0) && negb (c =? 0) then strip_zeros fuel (c / 10) (e + 1) else (c, e)
  end.

(** [Decimal(repr(x))] of a positive double: a whole number below 1e16 is
    written with a trailing [.0]; larger and smaller ones in scientific
    notation, which keeps the digits. *)
Definition dec_of_pos_float (n d : Z) (x : pyfloat) : Z * Z :=
  let '(c, e) := shortest_digits 16 1 n d x in
  let '(c, e) := strip_zeros 20 c e in
  if (0 <=? e) && (c * 10 ^ e <? 10 ^ 16) then (c * 10 ^ (e + 1), -1) else (c, e).

(** [Decimal(str(x))]. *)
Definition dec_of_float (x : pyfloat) : PyDec :=
  match float_value x with
  | XNaN => DecNaN
  | XInf s => DecInf s
  | XFrac n d =>
      if n =? 0 then DecFin 0 (-1)
      else if 0 <? n then let '(c, e) := dec_of_pos_float n d x in DecFin c e
      else let '(c, e) := dec_of_pos_float (- n) d (SFabs x) in DecFin (- c) e
  end.

Definition dec_of_metric (m : MetricValue) : PyDec :=
  match m with MInt n => DecFin n 0 | MFloat x => dec_of_float x end.

(** [str(d)], the to-scientific-string of the decimal specification. *)
Definition dec_str (d : PyDec) : string :=
  match d with
  | DecNaN => "NaN"
  | DecInf s => if s then "-Infinity" else "Infinity"
  | DecFin c e =>
      let digits : string := pretty (Z.to_N (Z.abs c)) in
      let len := Z.of_nat (String.length digits) in
      let left := e + len in
      let dot := if (e <=? 0) && (-6 <? left) then left else 1 in
      let body :=
        if dot <=? 0 then ("0." +:+ zeros (Z.to_nat (- dot)) +:+ digits)%string
        else if len <=? dot then (digits +:+ zeros (Z.to_nat (dot - len)))%string
        else (String.substring 0 (Z.to_nat dot) digits +:+ "." +:+
              String.substring (Z.to_nat dot) (Z.to_nat (len - dot)) digits)%string in
      let x := left - dot in
      let expo : string :=
        if x =? 0 then "" else if 0 <? x then ("E+" +:+ pretty x)%string
        else ("E" +:+ pretty x)%string in
      ((if (c <? 0)%Z then "-" else "") +:+ body +:+ expo)%string
  end.

(** ** [Numeric(18, 4)] columns *)

(** Rounding half away from zero to ten-thousandths, 18 digits in all. *)
Definition round_numeric4 (c e : Z) : Z :=
  if -4 <=? e then c * 10 ^ (e + 4)
  else let p := 10 ^ (- 4 - e) in Z.sgn c * ((2 * Z.abs c + p) / (2 * p)).

Definition fits_numeric_18_4 (d : PyDec) : bool :=
  match d with
  | DecFin c e => Z.abs (round_numeric4 c e) <? 10 ^ 18
  | DecNaN => true
  | DecInf _ => false
  end.

(** What the column hands back. *)
Definition store_numeric_18_4 (d : PyDec) : PyDec :=
  match d with DecFin c e => DecFin (round_numeric4 c e) (-4) | d => d end.

(** ** Lemmas *)

Lemma num_geb_int a b : num_geb (MInt a) (MInt b) = (b <=? a).
Proof.
  unfold num_geb, num_compare. simpl. rewrite !Z.mul_1_r.
  destruct (Z.compare_spec a b); symmetry; (apply Z.leb_le || apply Z.leb_gt); lia.
Qed.

Lemma num_gtb_int a b : num_gtb (MInt a) (MInt b) = (b <? a).
Proof.
  unfold num_gtb, num_compare. simpl. rewrite !Z.mul_1_r.
  destruct (Z.compare_spec a b); symmetry; (apply Z.ltb_lt || apply Z.ltb_ge); lia.
Qed.

Lemma num_eqb_int a b : num_eqb (MInt a) (MInt b) = (a =? b).
Proof.
  unfold num_eqb, num_compare. simpl. rewrite !Z.mul_1_r.
  destruct (Z.compare_spec a b); symmetry; (apply Z.eqb_eq || apply Z.eqb_neq); lia.
Qed.

(** Storing twice is storing once. *)
Lemma store_numeric_idem d : store_numeric_18_4 (store_numeric_18_4 d) = store_numeric_18_4 d.
Proof.
  destruct d as [c e| |]; simpl; [|done..]. unfold round_numeric4 at 1. simpl. by rewrite Z.mul_1_r.
Qed.

Example dec_of_float_demo :
  dec_str (dec_of_float (true_div 95 100)) = "0.95"%string ∧
  dec_str (dec_of_float (true_div 7 3)) = "2.3333333333333335"%string ∧
  dec_str (dec_of_float (true_div 12 1)) = "12.0"%string ∧
  dec_str (dec_of_float (true_div 1 100000)) = "0.00001"%string ∧
  dec_str (dec_of_float (true_div 1 3000000000)) = "3.333333333333333E-10"%string ∧
  dec_str (dec_of_float (true_div (10 ^ 18) 3)) = "3.333333333333333E+17"%string.
Proof. vm_compute. auto 10. Qed.
