(* ===== verification/Services.v ===== *)
(** * Protected services ([services/services.py])

    Creating, updating, enabling, sizing and deleting a protected service.
    Every change bumps the service's version and queues one apply job for it in
    the same transaction. *)

From S2P Require Import Prelude PyNum Ipaddress Models Db Apply.
From S2P Require Import Allocations.
From stdpp Require Import pretty.
Open Scope Z_scope.

Definition DEFAULT_BILLING_METRIC : string := "p95_clean_bps".

(** What the services ask of a request's principal. *)
Record PrincipalLike := mkPrincipalLike { principal_role : Role; principal_tenant_id : option uuid }.

Record ServiceRecord := mkServiceRecord {
  sr_service : ProtectedService;
  sr_plan : ServicePlan;
  sr_tenant : option Tenant;
  sr_creator : option User
}.

Definition forbidden : exn := HTTPException 403 "Forbidden".
Definition plan_bounds_error : exn :=
  HTTPException 422 "committed_clean_gbps must be between 0 and ceiling_clean_gbps".
Definition plan_not_found : exn := HTTPException 404 "Service plan not found".
Definition single_host_error : exn :=
  HTTPException 422 "Service destination must be a single host (e.g., a /32 CIDR)".

(** ** Guards *)

Definition _authorize_actor_for_tenant (actor : option User) (tenant_id_ : uuid)
    : exn + unit :=
  match actor with
  | None => inr tt
  | Some u =>
      if bool_decide (user_role u = admin) then inr tt
      else if bool_decide (user_tenant_id u = Some tenant_id_) then inr tt
      else inl forbidden
  end.

Definition _require_admin_actor (actor : option User) : exn + unit :=
  match actor with
  | None => inl forbidden
  | Some u => if bool_decide (user_role u = admin) then inr tt else inl forbidden
  end.

Definition _principal_can_access (principal : PrincipalLike) (tenant_id_ : uuid) : bool :=
  bool_decide (principal_role principal = admin) ||
  bool_decide (principal_tenant_id principal = Some tenant_id_).

Definition _validate_plan (committed ceiling : Decimal) : exn + unit :=
  if dec_ltb committed dec_zero || dec_ltb ceiling dec_zero || dec_ltb ceiling committed
  then inl plan_bounds_error else inr tt.

(** ** Loading *)

Definition _record_from_loaded (d : Db) (service : ProtectedService)
    : exn + ServiceRecord :=
  match service_plan d !! svc_id service with
  | None => inl plan_not_found
  | Some plan =>
      inr (mkServiceRecord service plan (tenants d !! svc_tenant_id service)
             (svc_created_by service ≫= fun u => users d !! u))
  end.

Definition _load_service (d : Db) (service_id : uuid) : option ProtectedService :=
  protected_service d !! service_id.

Definition _require_service (service_id : uuid) : M Session ProtectedService :=
  o ← get_db (fun d => _load_service d service_id);
  get_or_raise o service_not_found.

Definition _require_plan (service_id : uuid) : M Session ServicePlan :=
  plans ← get_db service_plan;
  get_or_raise (plans !! service_id) plan_not_found.

Definition _record_for_service (service : ProtectedService) : M Session ServiceRecord :=
  loaded ← _require_service (svc_id service);
  d ← get_db id;
  lift (_record_from_loaded d loaded).

Fixpoint collect {A B} (f : A → exn + B) (l : list A) : exn + list B :=
  match l with
  | [] => inr []
  | x :: l =>
      match f x with
      | inl e => inl e
      | inr y => match collect f l with inl e => inl e | inr ys => inr (y :: ys) end
      end
  end.

Definition list_services (d : Db) (principal : PrincipalLike) : exn + list ServiceRecord :=
  if bool_decide (principal_role principal = admin) then
    collect (_record_from_loaded d)
      (order_by svc_created_at (select_where (fun _ => true) (protected_service d)))
  else
    match principal_tenant_id principal with
    | None => inl forbidden
    | Some t =>
        collect (_record_from_loaded d)
          (order_by svc_created_at
             (select_where (fun s => bool_decide (svc_tenant_id s = t)) (protected_service d)))
    end.

Definition get_service (d : Db) (service_id : uuid) (principal : PrincipalLike)
    : exn + ServiceRecord :=
  match _load_service d service_id with
  | Some service =>
      if _principal_can_access principal (svc_tenant_id service)
      then _record_from_loaded d service else inl service_not_found
  | None => inl service_not_found
  end.

Definition list_non_host_services (d : Db) : exn + list ServiceRecord :=
  collect (_record_from_loaded d)
    (filter (fun s => num_addresses (svc_cidr_or_ip s) ≠ 1) (rows (protected_service d))).

(** ** Destinations *)

Definition _require_destination_scope (tenant_id_ : uuid) (cidr_or_ip : ipv4net)
    : M Session unit :=
  ok ← get_db (fun d => cidr_in_tenant_allocation d tenant_id_ cidr_or_ip);
  require ok forbidden.

Definition conflicting_services (d : Db) (cidr_or_ip : ipv4net)
    (exclude_service_id : option uuid) : list ProtectedService :=
  order_by svc_created_at
    (select_where (fun s => cidr_overlap (svc_cidr_or_ip s) cidr_or_ip &&
                            negb (bool_decide (Some (svc_id s) = exclude_service_id)))
       (protected_service d)).

Definition _find_conflicting_service (cidr_or_ip : ipv4net)
    (exclude_service_id : option uuid) : M Session (option ProtectedService) :=
  get_db (fun d => head (conflicting_services d cidr_or_ip exclude_service_id)).

Definition _service_overlap_error (conflict : ProtectedService) : exn :=
  HTTPException 409 ("Service destination overlaps " +:+ svc_name conflict).

(** Column types of [protected_service]: [String(255)] and [BigInteger]. *)
Definition is_int64 (o : option Z) : bool :=
  match o with None => true | Some n => (- 2 ^ 63 <=? n) && (n <? 2 ^ 63) end.
Definition service_columns_ok (s : ProtectedService) : bool :=
  (String.length (svc_name s) <=? 255)%nat && is_int64 (svc_vip_pps s) &&
  is_int64 (svc_vip_bps s) && is_int64 (svc_service_pps s) && is_int64 (svc_service_bps s).

Definition same_name (s s' : ProtectedService) : bool :=
  bool_decide (svc_tenant_id s' = svc_tenant_id s) &&
  bool_decide (lower (svc_name s') = lower (svc_name s)) &&
  negb (bool_decide (svc_id s' = svc_id s)).

(** Writing a row of [protected_service]: the column types, the tenant
    reference, the unique name per tenant, the unique [dp_id] and the exclusion
    constraint on destinations, against the other rows. *)
Definition flush_service (s : ProtectedService) : M Session unit :=
  d ← get_db id;
  require (service_columns_ok s) DataError ;;
  require (bool_decide (is_Some (tenants d !! svc_tenant_id s)))
    (IntegrityError "protected_service_tenant_id_fkey") ;;
  require (bool_decide (select_where (same_name s) (protected_service d) = []))
    (IntegrityError "uq_protected_service_tenant_lower_name") ;;
  require (bool_decide (select_where (fun s' => (svc_dp_id s' =? svc_dp_id s) &&
             negb (bool_decide (svc_id s' = svc_id s))) (protected_service d) = []))
    (IntegrityError "protected_service_dp_id_key") ;;
  require (bool_decide (conflicting_services d (svc_cidr_or_ip s) (Some (svc_id s)) = []))
    (IntegrityError "protected_service_dest_no_overlap") ;;
  put_service s.

Definition plan_ok (p : ServicePlan) : bool :=
  (0 <=? plan_committed_clean_gbps p) &&
  (plan_committed_clean_gbps p <=? plan_ceiling_clean_gbps p).

Definition flush_plan (p : ServicePlan) : M Session unit :=
  require (plan_ok p) (IntegrityError "ck_service_plan_committed_le_ceiling") ;;
  mod_db (fun d => d <| service_plan := <[plan_service_id p := p]> (service_plan d) |>).

Definition _raise_integrity_error {A} (e : exn) : M Session A :=
  match e with
  | IntegrityError detail =>
      if str_contains "protected_service_dest_no_overlap" detail then
        raise (HTTPException 409 "Service destination overlaps another service")
      else if str_contains "ck_service_plan_committed_le_ceiling" detail then
        raise plan_bounds_error
      else raise e
  | _ => raise e
  end.

(** ** Versions *)

Definition bump_version (service_id : uuid) : M Session ProtectedService :=
  services ← get_db protected_service;
  service ← get_or_raise (services !! service_id) service_not_found;
  lift (assert_transition (svc_apply_status service) ApplyStatus.pending) ;;
  now ← utc_now;
  let service := service <| svc_version := svc_version service + 1 |>
                         <| svc_apply_status := ApplyStatus.pending |>
                         <| svc_updated_at := now |> in
  put_service service ;;
  mret service.

(** ** Operations *)

Definition create_service (tenant_id_ : uuid) (name : string) (cidr_or_ip : ipv4net)
    (actor : option User) (mode : ServiceMode)
    (vip_pps vip_bps service_pps service_bps : option Z)
    (committed_clean_gbps ceiling_clean_gbps : option Decimal)
    (billing_metric : string) (ip : option string) : M Session ServiceRecord :=
  lift (_authorize_actor_for_tenant actor tenant_id_) ;;
  require (negb (match actor with
                 | Some u => bool_decide (user_role u = tenant_user)
                 | None => false
                 end &&
                 (bool_decide (is_Some committed_clean_gbps) ||
                  bool_decide (is_Some ceiling_clean_gbps)))) forbidden ;;
  let committed := default dec_zero committed_clean_gbps in
  let ceiling := default dec_zero ceiling_clean_gbps in
  lift (_validate_plan committed ceiling) ;;
  require (num_addresses cidr_or_ip =? 1) single_host_error ;;
  _require_destination_scope tenant_id_ cidr_or_ip ;;
  conflict ← _find_conflicting_service cidr_or_ip None;
  match conflict with
  | Some c => raise (_service_overlap_error c)
  | None =>
      dp_id ← nextval_dp_id;
      id ← uuid4;
      now ← utc_now;
      let service := mkProtectedService id dp_id tenant_id_ name cidr_or_ip mode false
                       vip_pps vip_bps service_pps service_bps ApplyStatus.pending 1 None
                       (user_id <$> actor) now now in
      try_except
        (check_pkey protected_service id "protected_service_pkey" ;;
         flush_service service ;;
         committed_h ← lift (numeric_10_2 committed);
         ceiling_h ← lift (numeric_10_2 ceiling);
         flush_plan (mkServicePlan id committed_h ceiling_h billing_metric overage_billed))
        _raise_integrity_error ;;
      record_event actor "service.create" (Some "protected_service"%string)
        (Some (uuid_str id)) "success" ip
        (Some [("tenant_id"%string, JStr (uuid_str tenant_id_));
               ("cidr_or_ip"%string, JStr (cidr_str cidr_or_ip));
               ("name"%string, JStr name)]) ;;
      enqueue_service_update service ChangeTrigger.service ;;
      _record_for_service service
  end.

Definition update_service (service_id : uuid) (actor : option User)
    (name : option string) (cidr_or_ip : option ipv4net) (mode : option ServiceMode)
    (vip_pps vip_bps service_pps service_bps : option Z) (ip : option string)
    : M Session ServiceRecord :=
  service ← _require_service service_id;
  lift (_authorize_actor_for_tenant actor (svc_tenant_id service)) ;;
  service ← (match cidr_or_ip with
    | Some c =>
        if bool_decide (c = svc_cidr_or_ip service) then mret service else
        require (num_addresses c =? 1) single_host_error ;;
        _require_destination_scope (svc_tenant_id service) c ;;
        conflict ← _find_conflicting_service c (Some (svc_id service));
        match conflict with
        | Some x => raise (_service_overlap_error x)
        | None => mret (service <| svc_cidr_or_ip := c |>)
        end
    | None => mret service
    end);
  let service := service
    <| svc_name := default (svc_name service) name |>
    <| svc_mode := default (svc_mode service) mode |>
    <| svc_vip_pps := union vip_pps (svc_vip_pps service) |>
    <| svc_vip_bps := union vip_bps (svc_vip_bps service) |>
    <| svc_service_pps := union service_pps (svc_service_pps service) |>
    <| svc_service_bps := union service_bps (svc_service_bps service) |> in
  flush_service service ;;
  service ← bump_version (svc_id service);
  enqueue_service_update service ChangeTrigger.service ;;
  record_event actor "service.update" (Some "protected_service"%string)
    (Some (uuid_str (svc_id service))) "success" ip
    (Some [("tenant_id"%string, JStr (uuid_str (svc_tenant_id service)))]) ;;
  _record_for_service service.

(** The row object [set_enabled] returns: after [enqueue_service_update] the
    same object carries status queued. *)
Definition refreshed (service_id : uuid) : M Session ProtectedService :=
  _require_service service_id.

Definition set_enabled (service_id : uuid) (enabled : bool) (actor : option User)
    (ip : option string) : M Session ProtectedService :=
  service ← _require_service service_id;
  lift (_authorize_actor_for_tenant actor (svc_tenant_id service)) ;;
  if Bool.eqb (svc_enabled service) enabled then mret service else
  put_service (service <| svc_enabled := enabled |>) ;;
  let trigger := if enabled then ChangeTrigger.enable else ChangeTrigger.disable in
  service ← bump_version (svc_id service);
  enqueue_service_update service trigger ;;
  record_event actor (if enabled then "service.enable" else "service.disable")
    (Some "protected_service"%string) (Some (uuid_str (svc_id service))) "success" ip
    (Some [("dangerous"%string, JBool (negb enabled))]) ;;
  refreshed (svc_id service).

(** *** Plans *)

(** [str(d)] of a [Decimal] with exponent [- scale]. *)
Definition dec_str (d : Decimal) : string :=
  let digits : string := pretty (Z.to_N (Z.abs (coeff d))) in
  let sign : string := if coeff d <? 0 then "-" else "" in
  let nd := Z.of_nat (String.length digits) in
  let leftdigits := nd - Z.of_nat (scale d) in
  if -6 <? leftdigits then
    if (scale d =? 0)%nat then sign +:+ digits
    else if 0 <? leftdigits then
      sign +:+ String.substring 0 (Z.to_nat leftdigits) digits +:+ "." +:+
      String.substring (Z.to_nat leftdigits) (scale d) digits
    else sign +:+ "0." +:+ zeros (Z.to_nat (- leftdigits)) +:+ digits
  else
    sign +:+ String.substring 0 1 digits +:+
    (if 1 <? nd then "." +:+ String.substring 1 (String.length digits) digits else "") +:+
    "E-" +:+ pretty (Z.to_N (1 - leftdigits)).

Definition enabled_plans (d : Db) : list (ProtectedService * ServicePlan) :=
  omap (fun p =>
    match protected_service d !! plan_service_id p with
    | Some s => if svc_enabled s then Some (s, p) else None
    | None => None
    end) (rows (service_plan d)).

Definition committed_total (d : Db) : Z :=
  foldr (fun sp acc => plan_committed_clean_gbps sp.2 + acc) 0 (enabled_plans d).

Definition frame_len : Z := 1500.

Definition per_core_bps (committed_h : Z) (ncpus : Z) : pyfloat :=
  fdiv (fdiv (fmul (float_of_hundredths committed_h) (float_of_Z (10 ^ 9))) (float_of_Z 8))
    (float_of_Z ncpus).

(** [os.cpu_count() or 1] is the argument [ncpus], the configured node capacity
    the argument [capacity]. *)
Definition _oversubscription_warnings (capacity : Decimal) (ncpus : Z) (d : Db)
    : list string :=
  let total := committed_total d in
  (if dec_ltb capacity (mkDecimal total 2) then
     [("Committed clean bandwidth " +:+ fixed_str total 2 +:+ " exceeds node capacity " +:+
       fixed_str (round_half_even (coeff capacity * 100) (pow10 (scale capacity))) 2)%string]
   else []) ++
  omap (fun sp =>
    let h := plan_committed_clean_gbps sp.2 in
    if 0 <? h then
      let bps := per_core_bps h ncpus in
      if fltb bps (float_of_Z frame_len) then
        Some ("Service '" +:+ svc_name sp.1 +:+ "' committed rate " +:+
              fixed_str (h * 10000) 6 +:+ " Gbps grants " +:+ float_fixed bps 1 +:+
              " B/s per CPU across " +:+ pretty (Z.to_N ncpus) +:+
              " CPUs, below 1 MTU frame (1500 B/s); " +:+
              "committed tier will fall through to burst")%string
      else None
    else None) (enabled_plans d).

Record PlanSizingResult := mkPlanSizingResult {
  psr_service : ProtectedService;
  psr_plan : ServicePlan;
  psr_warnings : list string
}.

Definition size_plan (capacity : Decimal) (ncpus : Z) (service_id : uuid)
    (actor : option User) (committed ceiling : Decimal) (ip : option string)
    : M Session PlanSizingResult :=
  lift (_require_admin_actor actor) ;;
  lift (_validate_plan committed ceiling) ;;
  service ← _require_service service_id;
  plan ← _require_plan (svc_id service);
  committed_h ← lift (numeric_10_2 committed);
  ceiling_h ← lift (numeric_10_2 ceiling);
  let plan := plan <| plan_committed_clean_gbps := committed_h |>
                   <| plan_ceiling_clean_gbps := ceiling_h |> in
  flush_plan plan ;;
  service ← bump_version (svc_id service);
  enqueue_service_update service ChangeTrigger.plan ;;
  record_event actor "service.plan.update" (Some "protected_service"%string)
    (Some (uuid_str (svc_id service))) "success" ip
    (Some [("committed_clean_gbps"%string, JStr (dec_str committed));
           ("ceiling_clean_gbps"%string, JStr (dec_str ceiling))]) ;;
  warnings ← get_db (_oversubscription_warnings capacity ncpus);
  service ← refreshed (svc_id service);
  mret (mkPlanSizingResult service plan warnings).

(** DELETE with the cascades of the foreign keys. *)
Definition cascade_service (sid : uuid) (d : Db) : Db :=
  let gone := filter (fun kv => wl_service_id kv.2 = sid) (whitelist_entry d) in
  d <| protected_service := delete sid (protected_service d) |>
    <| service_plan := delete sid (service_plan d) |>
    <| allow_rule := filter (fun kv => rule_service_id kv.2 ≠ sid) (allow_rule d) |>
    <| whitelist_entry := filter (fun kv => wl_service_id kv.2 ≠ sid) (whitelist_entry d) |>
    <| feed_sync_overlap :=
         filter (fun o => gone !! overlap_whitelist_entry_id o = None) (feed_sync_overlap d) |>
    <| agent_job := filter (fun kv => job_target kv.2 ≠ TargetService sid) (agent_job d) |>.

Definition delete_service (service_id : uuid) (actor : option User) (ip : option string)
    : M Session unit :=
  service ← _require_service service_id;
  lift (_authorize_actor_for_tenant actor (svc_tenant_id service)) ;;
  if svc_enabled service then
    record_event actor "service.delete" (Some "protected_service"%string)
      (Some (uuid_str (svc_id service))) "denied" ip
      (Some [("reason"%string, JStr "disable first"); ("dangerous"%string, JBool true)]) ;;
    raise (HTTPException 409 "Disable service first")
  else
    record_event actor "service.delete" (Some "protected_service"%string)
      (Some (uuid_str (svc_id service))) "success" ip
      (Some [("dangerous"%string, JBool true);
             ("tenant_id"%string, JStr (uuid_str (svc_tenant_id service)))]) ;;
    mod_db (cascade_service (svc_id service)).
