(* ===== verification/Isolation.v ===== *)
(** * Tenant isolation of address space

    The invariant that ties allocations and service destinations together:
    active allocations are disjoint, every service protects one host inside an
    active allocation of its own tenant, and no two services share an address.
    It only looks at the allocations and at the tenant and destination of each
    service, so an operation that changes neither keeps it by [iso_ok_frame]. *)

From S2P Require Import Prelude Ipaddress Models Db Apply ApplyInv.
From S2P Require Import Allocations.
Open Scope Z_scope.

Definition dest (s : ProtectedService) : uuid * ipv4net :=
  (svc_tenant_id s, svc_cidr_or_ip s).

Implicit Types (al : gmap uuid AllocatedCIDR) (ds : gmap uuid (uuid * ipv4net)).

Record isolation (al : gmap uuid AllocatedCIDR) (ds : gmap uuid (uuid * ipv4net)) : Prop := {
  iso_alloc_id : ∀ i a, al !! i = Some a → alloc_id a = i;
  iso_alloc_wf : ∀ i a, al !! i = Some a → net_wf (alloc_cidr a);
  iso_alloc_disjoint : ∀ i a i' a', al !! i = Some a → al !! i' = Some a' → i ≠ i' →
      is_active_alloc a = true → is_active_alloc a' = true →
      cidr_overlap (alloc_cidr a) (alloc_cidr a') = false;
  iso_dest_wf : ∀ i t c, ds !! i = Some (t, c) → net_wf c ∧ num_addresses c = 1;
  iso_dest_scope : ∀ i t c, ds !! i = Some (t, c) →
      ∃ k a, al !! k = Some a ∧ in_tenant_alloc t c a = true;
  iso_dest_disjoint : ∀ i t c i' t' c', ds !! i = Some (t, c) → ds !! i' = Some (t', c') →
      i ≠ i' → cidr_overlap c c' = false
}.

Definition dests (d : Db) : gmap uuid (uuid * ipv4net) := dest <$> protected_service d.

Definition iso_ok (d : Db) : Prop := isolation (allocated_cidr d) (dests d).

Lemma iso_ok_frame d d' :
  allocated_cidr d' = allocated_cidr d → dests d' = dests d → iso_ok d → iso_ok d'.
Proof. unfold iso_ok. by intros -> ->. Qed.

#[global] Instance iso_ok_stable : CommitStable iso_ok.
Proof. by split. Qed.

(** Rewriting a service row without moving it keeps the destinations. *)
Lemma dests_insert_same (ps : gmap uuid ProtectedService) sid svc svc' :
  ps !! sid = Some svc → dest svc' = dest svc →
  dest <$> <[sid := svc']> ps = dest <$> ps.
Proof.
  intros Hs Hd. rewrite fmap_insert, Hd. apply insert_id. by rewrite lookup_fmap, Hs.
Qed.

(** ** Allocations *)

Lemma overlapping_nil d c :
  overlapping_allocations d c = [] ↔
  ∀ i a, allocated_cidr d !! i = Some a → is_active_alloc a = true →
         cidr_overlap (alloc_cidr a) c = false.
Proof.
  unfold overlapping_allocations. rewrite order_by_nil, select_where_nil.
  split; intros H i a Ha; specialize (H i a Ha).
  - intros Hact. by rewrite Hact in H.
  - destruct (is_active_alloc a); [by rewrite H|done].
Qed.

Lemma in_allocation_iff d t c :
  cidr_in_tenant_allocation d t c = true ↔
  ∃ k a, allocated_cidr d !! k = Some a ∧ in_tenant_alloc t c a = true.
Proof.
  unfold cidr_in_tenant_allocation. rewrite negb_true_iff, bool_decide_eq_false.
  split.
  - intros Hne. destruct (select_where _ _) as [|a l] eqn:E; [done|].
    assert (a ∈ select_where (in_tenant_alloc t c) (allocated_cidr d)) as Hin
      by (rewrite E; left).
    apply elem_of_select in Hin as (Hp & k & Hk). eauto.
  - intros (k & a & Hk & Hp) Hnil.
    rewrite (proj1 (select_where_nil _ _) Hnil k a Hk) in Hp. done.
Qed.

Lemma isolation_alloc al ds a :
  isolation al ds → al !! alloc_id a = None → net_wf (alloc_cidr a) →
  (∀ i a', al !! i = Some a' → is_active_alloc a' = true →
           cidr_overlap (alloc_cidr a') (alloc_cidr a) = false) →
  isolation (<[alloc_id a := a]> al) ds.
Proof.
  intros [Hid Hwf Hdis Hdwf Hsc Hdd] Hnew Hnwf Hno. split; [..|done| |done].
  - intros i b [[<- <-]|[Hne Hb]]%lookup_insert_Some; eauto.
  - intros i b [[<- <-]|[Hne Hb]]%lookup_insert_Some; eauto.
  - intros i b i' b' [[<- <-]|[Hn1 H1]]%lookup_insert_Some
      [[<- <-]|[Hn2 H2]]%lookup_insert_Some Hne Ha1 Ha2; [done| | |].
    + rewrite overlap_sym. eauto.
    + eauto.
    + eauto.
  - intros i t c Hd. destruct (Hsc i t c Hd) as (k & b & Hk & Hp).
    exists k, b. split; [|done]. rewrite lookup_insert_ne; [done|congruence].
Qed.

Lemma isolation_revoke al ds a a' :
  isolation al ds → al !! alloc_id a = Some a →
  alloc_id a' = alloc_id a → alloc_cidr a' = alloc_cidr a →
  is_active_alloc a' = false →
  (∀ i t c, ds !! i = Some (t, c) → cidr_contained_eq c (alloc_cidr a) = false) →
  isolation (<[alloc_id a := a']> al) ds.
Proof.
  intros [Hid Hwf Hdis Hdwf Hsc Hdd] Ha Eid Ec Hrev Hno. split; [..|done| |done].
  - intros i b [[<- <-]|[Hne Hb]]%lookup_insert_Some; eauto.
  - intros i b [[<- <-]|[Hne Hb]]%lookup_insert_Some; [|by eauto].
    rewrite Ec. eauto.
  - intros i b i' b' [[<- <-]|[Hn1 H1]]%lookup_insert_Some
      [[<- <-]|[Hn2 H2]]%lookup_insert_Some Hne Ha1 Ha2; [done|congruence|congruence|].
    eauto.
  - intros i t c Hd. destruct (Hsc i t c Hd) as (k & b & Hk & Hp).
    exists k, b. split; [|done]. rewrite lookup_insert_ne; [done|].
    intros <-. rewrite Ha in Hk. injection Hk as <-.
    unfold in_tenant_alloc in Hp. apply andb_true_iff in Hp as [_ Hp].
    specialize (Hno i t c Hd). unfold cidr_contained_eq in Hno. congruence.
Qed.

(** ** Service destinations *)

(** Placing a service: a new one, or an existing one moved. *)
Lemma isolation_place al ds sid t c :
  isolation al ds → net_wf c → num_addresses c = 1 →
  (∃ k a, al !! k = Some a ∧ in_tenant_alloc t c a = true) →
  (∀ i t' c', ds !! i = Some (t', c') → i ≠ sid → cidr_overlap c' c = false) →
  isolation al (<[sid := (t, c)]> ds).
Proof.
  intros [Hid Hwf Hdis Hdwf Hsc Hdd] Hnwf Hhost Hscope Hno. split; [done..| | |].
  - intros i t' c' [[<- [= <- <-]]|[Hne H]]%lookup_insert_Some; eauto.
  - intros i t' c' [[<- [= <- <-]]|[Hne H]]%lookup_insert_Some; eauto.
  - intros i t1 c1 i' t2 c2 [[<- [= <- <-]]|[Hn1 H1]]%lookup_insert_Some
      [[<- [= <- <-]]|[Hn2 H2]]%lookup_insert_Some Hne; [done| | |].
    + rewrite overlap_sym. eauto.
    + eauto.
    + eauto.
Qed.

Lemma isolation_delete al ds sid : isolation al ds → isolation al (delete sid ds).
Proof.
  intros [Hid Hwf Hdis Hdwf Hsc Hdd]. split; [done..| | |].
  - intros i t c [_ H]%lookup_delete_Some. eauto.
  - intros i t c [_ H]%lookup_delete_Some. eauto.
  - intros i t c i' t' c' [_ H]%lookup_delete_Some [_ H']%lookup_delete_Some. eauto.
Qed.

(** What the invariant gives for addresses: an address protected by a service
    belongs to that service only, and every active allocation that covers it is
    the one allocation of the service's tenant. *)
Lemma isolation_address al ds i t c ip :
  isolation al ds → ds !! i = Some (t, c) → in_net ip c →
  (∀ i' t' c', ds !! i' = Some (t', c') → in_net ip c' → i' = i) ∧
  ∃ k a, al !! k = Some a ∧ is_active_alloc a = true ∧ alloc_tenant_id a = t ∧
    in_net ip (alloc_cidr a) ∧
    ∀ k' a', al !! k' = Some a' → is_active_alloc a' = true → in_net ip (alloc_cidr a') →
             k' = k.
Proof.
  intros [Hid Hwf Hdis Hdwf Hsc Hdd] Hi Hip. split.
  - intros i' t' c' Hi' Hip'. destruct (decide (i' = i)) as [|Hne]; [done|].
    assert (cidr_overlap c' c = true) as Ho.
    { apply overlap_common; [by eapply Hdwf..|]. eauto. }
    rewrite (Hdd _ _ _ _ _ _ Hi' Hi Hne) in Ho. done.
  - destruct (Hsc _ _ _ Hi) as (k & a & Hk & Hp). exists k, a.
    unfold in_tenant_alloc in Hp. apply andb_true_iff in Hp as [[Ht Ha]%andb_true_iff Hc].
    apply bool_decide_eq_true in Ht.
    assert (in_net ip (alloc_cidr a)) as Hin.
    { eapply contains_eq_incl; [|by eapply Hdwf|done..]. by eapply Hwf. }
    split_and!; [done..|]. intros k' a' Hk' Ha' Hin'.
    destruct (decide (k' = k)) as [|Hne]; [done|].
    assert (cidr_overlap (alloc_cidr a') (alloc_cidr a) = true) as Ho.
    { apply overlap_common; [by eapply Hwf..|]. eauto. }
    rewrite (Hdis _ _ _ _ Hk' Hk Hne Ha' Ha) in Ho. done.
Qed.

(** ** The operations of [services/allocations.py] *)

Lemma record_event_inr actor action tt_ ti outcome ip md s u s' :
  record_event actor action tt_ ti outcome ip md s = (inr u, s') →
  ∃ evs, s' = s <| db := db s <| audit_events := evs |> |>.
Proof. unfold record_event, mod_db. intros H. minv. by eexists. Qed.

Lemma uuid4_inr s u s' :
  uuid4 s = (inr u, s') →
  u = uuid_supply (db s) ∧ s' = s <| db := db s <| uuid_supply := Pos.succ u |> |>.
Proof. unfold uuid4, get_db, mod_db. intros H. by minv. Qed.

Lemma insert_allocation_inr a s u s' :
  insert_allocation a s = (inr u, s') →
  allocated_cidr (db s) !! alloc_id a = None ∧
  (is_active_alloc a = true → overlapping_allocations (db s) (alloc_cidr a) = []) ∧
  s' = s <| db := db s <| allocated_cidr := <[alloc_id a := a]> (allocated_cidr (db s)) |> |>.
Proof.
  unfold insert_allocation, check_pkey, get_db, mod_db. intros H. minv.
  repeat match goal with
  | H : bool_decide _ = true |- _ => apply bool_decide_eq_true in H
  | H : _ || _ = true |- _ => apply orb_true_iff in H
  end.
  split_and!; [done| |done]. intros Ha.
  match goal with H : _ ∨ _ |- _ => destruct H as [Hn|Hn] end; [by rewrite Ha in Hn|].
  by apply bool_decide_eq_true in Hn.
Qed.

(** What a successful allocation did. *)
Lemma allocate_inr t c actor ip s a s' :
  allocate t c actor ip s = (inr a, s') →
  (∃ tenant, tenants (db s) !! t = Some tenant ∧ tenant_status tenant = tenant_active ∧
             alloc_tenant_id a = tenant_id tenant) ∧
  allocated_cidr (db s) !! alloc_id a = None ∧
  alloc_cidr a = c ∧ is_active_alloc a = true ∧
  overlapping_allocations (db s) c = [] ∧
  ∃ u evs, db s' = db s <| uuid_supply := u |>
    <| allocated_cidr := <[alloc_id a := a]> (allocated_cidr (db s)) |>
    <| audit_events := evs |>.
Proof.
  unfold allocate, _find_conflict, utc_now, get_db. intros H. minv.
  destruct (head _) as [x|]; [done|]. minv.
  match goal with H : uuid4 _ = _ |- _ => apply uuid4_inr in H as [-> ->] end.
  match goal with H : try_except _ _ _ = _ |- _ =>
    apply try_except_inr in H as [H|(e & s1 & _ & H)] end.
  - match goal with H : record_event _ _ _ _ _ _ _ _ = _ |- _ =>
      apply record_event_inr in H as [evs ->] end.
    match goal with H : insert_allocation _ _ = _ |- _ =>
      apply insert_allocation_inr in H as (Hnew & Hno & ->) end.
    split_and!; [eexists; split_and!; [done| |done]|done..| |by do 2 eexists].
    + by eapply bool_decide_eq_true.
    + by apply Hno.
  - case_bool_decide; [|done]. minv. by destruct (head _).
Qed.

(** What a successful revocation did. *)
Lemma revoke_inr k actor ip s a s' :
  revoke k actor ip s = (inr a, s') →
  ∃ a0, allocated_cidr (db s) !! k = Some a0 ∧
  ((alloc_status a0 = cidr_revoked ∧ a = a0 ∧ s' = s) ∨
   (alloc_status a0 = cidr_active ∧ count_allocation_dependents (db s) a0 = [] ∧
    a = a0 <| alloc_status := cidr_revoked |> <| alloc_updated_at := clock (db s) |> ∧
    ∃ evs, db s' = db s <| allocated_cidr := <[alloc_id a0 := a]> (allocated_cidr (db s)) |>
                        <| audit_events := evs |>)).
Proof.
  unfold revoke, utc_now, get_db. intros H. minv. eexists. split; [done|].
  case_bool_decide as Hst; [left; by minv|right]. minv.
  destruct (count_allocation_dependents _ _) as [|x l] eqn:Eb; [|by minv].
  unfold mod_db in H. minv.
  match goal with H : record_event _ _ _ _ _ _ _ _ = _ |- _ =>
    apply record_event_inr in H as [evs ->] end.
  split_and!; [|done|done|by eexists].
  by destruct (alloc_status _).
Qed.

Lemma allocate_keeps_iso t c actor ip : net_wf c → keeps iso_ok (allocate t c actor ip).
Proof.
  intros Hc s a s' Hok H.
  destruct (allocate_inr _ _ _ _ _ _ _ H) as (_ & Hnew & <- & Hact & Hno & u & evs & Hdb).
  unfold iso_ok, dests. rewrite Hdb. simpl. apply isolation_alloc; [done..|].
  by apply overlapping_nil.
Qed.

Lemma dependents_nil d a :
  count_allocation_dependents d a = [] →
  ∀ i t c, dests d !! i = Some (t, c) → cidr_contained_eq c (alloc_cidr a) = false.
Proof.
  unfold count_allocation_dependents, services_in_cidr.
  intros H%fmap_nil_inv%order_by_nil i t c Hd. unfold dests in Hd.
  rewrite lookup_fmap in Hd. destruct (protected_service d !! i) as [s|] eqn:E; [|done].
  simpl in Hd. injection Hd as <- <-.
  exact (proj1 (select_where_nil _ _) H i s E).
Qed.

Lemma revoke_keeps_iso k actor ip : keeps iso_ok (revoke k actor ip).
Proof.
  intros s a s' Hok H.
  destruct (revoke_inr _ _ _ _ _ _ H) as (a0 & Ha0 & [(_ & _ & ->)|(_ & Hdep & -> & evs & Hdb)]);
    [done|].
  unfold iso_ok, dests. rewrite Hdb. cbn -[insert].
  pose proof (iso_alloc_id _ _ Hok _ _ Ha0) as Hid. subst k.
  eapply isolation_revoke; try done. by apply dependents_nil.
Qed.
