(* ===== verification/Rules.v ===== *)
(** * Allow rules ([services/rules.py])

    At most sixteen rules per service, with distinct priorities and valid port
    ranges; every change warns about overlapping rules, bumps the service's
    version and queues its apply job. *)

From S2P Require Import Prelude Ipaddress RuleMatch Models Db Apply.
From S2P Require Import Services.
From stdpp Require Import pretty.
Open Scope Z_scope.

Definition MAX_RULES_PER_SERVICE : nat := 16.

Record RuleMutationResult := mkRuleMutationResult {
  rmr_rule : AllowRule;
  rmr_warnings : list string;
  rmr_service : ProtectedService
}.

(** [str(n)] of an [int]. *)
Definition int_str (n : Z) : string :=
  ((if (n <? 0)%Z then "-" else "") +:+ pretty (Z.to_N (Z.abs n)))%string.

Definition _require_service_locked (service_id : uuid) : M Session ProtectedService :=
  services ← get_db protected_service;
  get_or_raise (services !! service_id) service_not_found.

Definition _authorize_actor (actor : option User) (service : ProtectedService)
    : exn + unit :=
  _authorize_actor_for_tenant actor (svc_tenant_id service).

Definition rules_of (d : Db) (service_id : uuid) : list AllowRule :=
  select_where (fun r => bool_decide (rule_service_id r = service_id)) (allow_rule d).

Definition _require_rule (service_id rule_id_ : uuid) : M Session AllowRule :=
  rules ← get_db allow_rule;
  get_or_raise (match rules !! rule_id_ with
                | Some r => if bool_decide (rule_service_id r = service_id)
                            then Some r else None
                | None => None
                end) (HTTPException 404 "Rule not found").

Definition _rule_count (service_id : uuid) : M Session nat :=
  get_db (fun d => length (rules_of d service_id)).

Definition priority_taken (d : Db) (service_id : uuid) (priority : Z)
    (exclude_rule_id : option uuid) : list AllowRule :=
  select_where (fun r => bool_decide (rule_service_id r = service_id) &&
                         (rule_priority r =? priority) &&
                         negb (bool_decide (Some (rule_id r) = exclude_rule_id)))
    (allow_rule d).

Definition _ensure_priority_available (service_id : uuid) (priority : Z)
    (exclude_rule_id : option uuid) : M Session unit :=
  d ← get_db id;
  taken ← one_or_none (priority_taken d service_id priority exclude_rule_id);
  match taken with
  | Some _ => raise (HTTPException 409 "Rule priority exists")
  | None => mret tt
  end.

Definition _rule_view (rule_id_ : string) (priority : Z) (protocol : Protocol.t)
    (src_port_lo src_port_hi dst_port_lo dst_port_hi : option Z) : exn + RuleView :=
  match validate_port_range src_port_lo src_port_hi,
        validate_port_range dst_port_lo dst_port_hi with
  | inr _, inr _ =>
      inr (mkRuleView rule_id_ (Protocol.value protocol)
             (src_port_lo, src_port_hi) (dst_port_lo, dst_port_hi))
  | inl (PortRangeError msg), _ => inl (HTTPException 422 msg)
  | _, inl (PortRangeError msg) => inl (HTTPException 422 msg)
  | inl e, _ => inl e
  | _, inl e => inl e
  end.

Definition _view_from_rule (rule : AllowRule) : exn + RuleView :=
  _rule_view (int_str (rule_priority rule)) (rule_priority rule) (rule_protocol rule)
    (rule_src_port_lo rule) (rule_src_port_hi rule)
    (rule_dst_port_lo rule) (rule_dst_port_hi rule).

Definition _overlap_warnings (d : Db) (service_id : uuid) (candidate : RuleView)
    (exclude_rule_id : option uuid) : exn + list string :=
  let existing := order_by rule_priority
    (select_where (fun r => bool_decide (rule_service_id r = service_id) &&
                            negb (bool_decide (Some (rule_id r) = exclude_rule_id)))
       (allow_rule d)) in
  match collect _view_from_rule existing with
  | inl e => inl e
  | inr views =>
      match find_overlaps views candidate with
      | inl e => inl e
      | inr overlaps =>
          inr ((fun v => "Overlaps rule priority " +:+ rv_id v) <$> overlaps)
      end
  end.

(** The CHECK on a pair of port columns.  A comparison with NULL is unknown, and
    a CHECK only refuses what is false: half a range passes when its one bound is
    a port. *)
Definition is_port (n : Z) : bool := (0 <=? n) && (n <=? 65535).
Definition ck_port_range (lo hi : option Z) : bool :=
  match lo, hi with
  | None, None => true
  | Some lo, Some hi => is_port lo && is_port hi && (lo <=? hi)
  | Some n, None | None, Some n => is_port n
  end.

(** Writing a row of [allow_rule]: the service reference, the unique priority
    and the two range checks. *)
Definition flush_rule (r : AllowRule) : M Session unit :=
  d ← get_db id;
  require (bool_decide (is_Some (protected_service d !! rule_service_id r)))
    (IntegrityError "allow_rule_service_id_fkey") ;;
  require (ck_port_range (rule_src_port_lo r) (rule_src_port_hi r))
    (IntegrityError "ck_allow_rule_src_port_range") ;;
  require (ck_port_range (rule_dst_port_lo r) (rule_dst_port_hi r))
    (IntegrityError "ck_allow_rule_dst_port_range") ;;
  require (bool_decide (priority_taken d (rule_service_id r) (rule_priority r)
                          (Some (rule_id r)) = []))
    (IntegrityError "uq_allow_rule_service_priority") ;;
  mod_db (fun d => d <| allow_rule := <[rule_id r := r]> (allow_rule d) |>).

Definition _raise_rule_integrity_error {A} (e : exn) : M Session A :=
  match e with
  | IntegrityError detail =>
      if str_contains "uq_allow_rule_service_priority" detail
      then raise (HTTPException 409 "Rule priority exists") else raise e
  | _ => raise e
  end.

Definition rule_event (action : string) (actor : option User) (rule : AllowRule)
    (service_id : uuid) (ip : option string) : M Session unit :=
  record_event actor action (Some "allow_rule"%string) (Some (uuid_str (rule_id rule)))
    "success" ip
    (Some [("service_id"%string, JStr (uuid_str service_id));
           ("priority"%string, JInt (rule_priority rule))]).

Definition create_rule (service_id : uuid) (actor : option User) (priority : Z)
    (protocol : Protocol.t) (src_port_lo src_port_hi dst_port_lo dst_port_hi : option Z)
    (enabled : bool) (ip : option string) : M Session RuleMutationResult :=
  service ← _require_service_locked service_id;
  lift (_authorize_actor actor service) ;;
  count ← _rule_count (svc_id service);
  require (count <? MAX_RULES_PER_SERVICE)%nat (HTTPException 409 "Rule limit reached") ;;
  _ensure_priority_available (svc_id service) priority None ;;
  candidate ← lift (_rule_view "candidate" priority protocol
                      src_port_lo src_port_hi dst_port_lo dst_port_hi);
  d ← get_db id;
  warnings ← lift (_overlap_warnings d (svc_id service) candidate None);
  id ← uuid4;
  let rule := mkAllowRule id (svc_id service) priority protocol
                src_port_lo src_port_hi dst_port_lo dst_port_hi enabled in
  try_except (check_pkey allow_rule id "allow_rule_pkey" ;; flush_rule rule)
    _raise_rule_integrity_error ;;
  service ← bump_version (svc_id service);
  enqueue_service_update service ChangeTrigger.rule ;;
  rule_event "rule.create" actor rule (svc_id service) ip ;;
  service ← refreshed (svc_id service);
  mret (mkRuleMutationResult rule warnings service).

Definition list_rules (service_id : uuid) (actor : option User)
    : M Session (list AllowRule) :=
  service ← _require_service_locked service_id;
  lift (_authorize_actor actor service) ;;
  get_db (fun d => order_by rule_priority (rules_of d (svc_id service))).

Definition get_rule (service_id rule_id_ : uuid) (actor : option User)
    : M Session AllowRule :=
  service ← _require_service_locked service_id;
  lift (_authorize_actor actor service) ;;
  _require_rule (svc_id service) rule_id_.

Definition update_rule (service_id rule_id_ : uuid) (actor : option User)
    (priority : option Z) (protocol : option Protocol.t)
    (src_port_lo src_port_hi dst_port_lo dst_port_hi : option Z)
    (enabled : option bool) (ip : option string) : M Session RuleMutationResult :=
  service ← _require_service_locked service_id;
  lift (_authorize_actor actor service) ;;
  rule ← _require_rule (svc_id service) rule_id_;
  let next_priority := default (rule_priority rule) priority in
  (if next_priority =? rule_priority rule then mret tt
   else _ensure_priority_available (svc_id service) next_priority (Some (rule_id rule))) ;;
  let next := rule
    <| rule_priority := next_priority |>
    <| rule_protocol := default (rule_protocol rule) protocol |>
    <| rule_src_port_lo := union src_port_lo (rule_src_port_lo rule) |>
    <| rule_src_port_hi := union src_port_hi (rule_src_port_hi rule) |>
    <| rule_dst_port_lo := union dst_port_lo (rule_dst_port_lo rule) |>
    <| rule_dst_port_hi := union dst_port_hi (rule_dst_port_hi rule) |>
    <| rule_enabled := default (rule_enabled rule) enabled |> in
  candidate ← lift (_rule_view (uuid_str (rule_id rule)) next_priority (rule_protocol next)
                      (rule_src_port_lo next) (rule_src_port_hi next)
                      (rule_dst_port_lo next) (rule_dst_port_hi next));
  d ← get_db id;
  warnings ← lift (_overlap_warnings d (svc_id service) candidate (Some (rule_id rule)));
  try_except (flush_rule next) _raise_rule_integrity_error ;;
  service ← bump_version (svc_id service);
  enqueue_service_update service ChangeTrigger.rule ;;
  rule_event "rule.update" actor next (svc_id service) ip ;;
  service ← refreshed (svc_id service);
  mret (mkRuleMutationResult next warnings service).

Definition delete_rule (service_id rule_id_ : uuid) (actor : option User)
    (ip : option string) : M Session ProtectedService :=
  service ← _require_service_locked service_id;
  lift (_authorize_actor actor service) ;;
  rule ← _require_rule (svc_id service) rule_id_;
  mod_db (fun d => d <| allow_rule := delete (rule_id rule) (allow_rule d) |>) ;;
  service ← bump_version (svc_id service);
  enqueue_service_update service ChangeTrigger.rule ;;
  rule_event "rule.delete" actor rule (svc_id service) ip ;;
  refreshed (svc_id service).

Definition overlap_dry_run (service_id : uuid) (actor : option User)
    (protocol : Protocol.t) (src_port_lo src_port_hi dst_port_lo dst_port_hi : option Z)
    : M Session (list string) :=
  service ← _require_service_locked service_id;
  lift (_authorize_actor actor service) ;;
  candidate ← lift (_rule_view "candidate" (-1) protocol
                      src_port_lo src_port_hi dst_port_lo dst_port_hi);
  d ← get_db id;
  lift (_overlap_warnings d (svc_id service) candidate None).
