(* ===== verification/ServicesInv.v ===== *)
(** * What the configuration operations keep

    [gw_ok] gathers the invariants of the committed configuration: the
    job ledger ([apply_ok]), the address space ([iso_ok]) and the plans and rules
    ([config_ok]).  Each operation of [services/services.py] and
    [services/rules.py] is characterised by the database it leaves, and keeps
    [gw_ok]. *)

From S2P Require Import Prelude PyStr Ipaddress RuleMatch Models Db.
From S2P Require Import Apply ApplyInv Allocations Services Isolation Rules.
Open Scope Z_scope.

Record config_ok (d : Db) : Prop := {
  cf_plan : ∀ sid, is_Some (service_plan d !! sid) ↔ is_Some (protected_service d !! sid);
  cf_plan_ok : ∀ sid p, service_plan d !! sid = Some p →
      plan_service_id p = sid ∧ plan_ok p = true;
  cf_rule : ∀ i r, allow_rule d !! i = Some r →
      rule_id r = i ∧ is_Some (protected_service d !! rule_service_id r) ∧
      range_ok (rule_src_port_lo r, rule_src_port_hi r) ∧
      range_ok (rule_dst_port_lo r, rule_dst_port_hi r);
  cf_rule_priority : ∀ i r i' r', allow_rule d !! i = Some r → allow_rule d !! i' = Some r' →
      rule_service_id r = rule_service_id r' → rule_priority r = rule_priority r' → i = i';
  cf_rule_count : ∀ sid, (length (rules_of d sid) <= MAX_RULES_PER_SERVICE)%nat;
  cf_whitelist : ∀ i w, whitelist_entry d !! i = Some w →
      wl_id w = i ∧ is_Some (protected_service d !! wl_service_id w) ∧ net_wf (wl_source_cidr w)
}.

Definition gw_ok (d : Db) : Prop := apply_ok d ∧ iso_ok d ∧ config_ok d.

#[global] Instance config_ok_stable : CommitStable config_ok.
Proof. split; intros d ? [?????]; by split. Qed.
#[global] Instance gw_ok_stable : CommitStable gw_ok.
Proof. apply _. Qed.

(** [config_ok] looks at the plans, the rules, the whitelists and which
    services exist. *)
Lemma config_ok_frame d d' :
  config_ok d → service_plan d' = service_plan d → allow_rule d' = allow_rule d →
  whitelist_entry d' = whitelist_entry d →
  (∀ i, is_Some (protected_service d' !! i) ↔ is_Some (protected_service d !! i)) →
  config_ok d'.
Proof.
  intros [H1 H2 H3 H4 H5 H6] Ep Er Ew Hdom.
  split; intros *; unfold rules_of in *; rewrite ?Ep, ?Er, ?Ew, ?Hdom; eauto.
Qed.

(** ** Bumping a version and queueing its job *)

Definition bumped (d : Db) (svc : ProtectedService) : ProtectedService :=
  svc <| svc_version := svc_version svc + 1 |> <| svc_apply_status := ApplyStatus.pending |>
      <| svc_updated_at := clock d |>.

Definition db_requeue (svc : ProtectedService) (trigger : ChangeTrigger.t) (d : Db) : Db :=
  db_enqueue (bumped d svc) trigger
    (d <| protected_service := <[svc_id svc := bumped d svc]> (protected_service d) |>).

Lemma legal_pending a : ApplyStatus.pending ∈ LEGAL_APPLY a.
Proof. destruct a; simpl; set_solver. Qed.

Lemma bump_version_run sid s :
  bump_version sid s =
  match protected_service (db s) !! sid with
  | None => (inl service_not_found, s)
  | Some svc =>
      (inr (bumped (db s) svc),
       s <| db := db s <| protected_service :=
                    <[svc_id svc := bumped (db s) svc]> (protected_service (db s)) |> |>)
  end.
Proof.
  unfold bump_version, get_db. mstep.
  destruct (protected_service (db s) !! sid) as [svc|]; mstep; [|done].
  unfold assert_transition. rewrite bool_decide_true by apply legal_pending. by mstep.
Qed.

Lemma bump_enqueue_inr sid trigger s1 svc s2 job s3 :
  apply_ok (db s1) → bump_version sid s1 = (inr svc, s2) →
  enqueue_service_update svc trigger s2 = (inr job, s3) →
  ∃ svc0, protected_service (db s1) !! sid = Some svc0 ∧ svc_id svc0 = sid ∧
    svc = bumped (db s1) svc0 ∧ agent_job (db s1) !! uuid_supply (db s1) = None ∧
    job_id job = uuid_supply (db s1) ∧
    db s3 = db_requeue svc0 trigger (db s1) ∧ registered (uuid_supply (db s1)) s1 s3.
Proof.
  intros Hok Hb He. rewrite bump_version_run in Hb.
  destruct (protected_service (db s1) !! sid) as [svc0|] eqn:Hs; [|done].
  injection Hb as <- <-. exists svc0.
  pose proof (li_svc_id _ _ (proj1 Hok) _ _ Hs) as Hid.
  apply enqueue_inr in He as (Hf & -> & Hdb & Hreg).
  - split_and!; try done.
  - rewrite <- Hid in Hs. by eapply apply_inv_bump.
  - simpl. by rewrite lookup_insert_eq.
Qed.

Lemma requeue_apply_ok svc trigger d :
  apply_ok d → protected_service d !! svc_id svc = Some svc →
  agent_job d !! uuid_supply d = None → apply_ok (db_requeue svc trigger d).
Proof.
  intros Hok Hs Hf. unfold apply_ok, db_requeue, db_enqueue. cbn -[insert bumped].
  eapply (apply_inv_enqueue _ _ (svc_id svc) (bumped d svc)); try done.
  - by eapply apply_inv_bump.
  - by rewrite lookup_insert_eq.
Qed.

(** The service row a requeue leaves. *)
Definition queued_row (d : Db) (svc : ProtectedService) : ProtectedService :=
  svc <| svc_version := svc_version svc + 1 |> <| svc_apply_status := ApplyStatus.queued |>
      <| svc_updated_at := clock d |>.

Lemma requeue_services svc trigger d :
  protected_service (db_requeue svc trigger d) =
  <[svc_id svc := queued_row d svc]> (protected_service d).
Proof. unfold db_requeue, db_enqueue. simpl. apply insert_insert_eq. Qed.

Lemma requeue_jobs svc trigger d :
  agent_job (db_requeue svc trigger d) =
  <[uuid_supply d := new_job (uuid_supply d) (TargetService (svc_id svc))
                       (svc_version svc + 1) trigger (clock d)]> (agent_job d).
Proof. done. Qed.

(** What a requeue leaves alone. *)
Lemma requeue_frame svc trigger d :
  protected_service d !! svc_id svc = Some svc →
  allocated_cidr (db_requeue svc trigger d) = allocated_cidr d ∧
  dests (db_requeue svc trigger d) = dests d ∧
  service_plan (db_requeue svc trigger d) = service_plan d ∧
  allow_rule (db_requeue svc trigger d) = allow_rule d ∧
  whitelist_entry (db_requeue svc trigger d) = whitelist_entry d ∧
  (∀ i, is_Some (protected_service (db_requeue svc trigger d) !! i) ↔
        is_Some (protected_service d !! i)).
Proof.
  intros Hs. split_and!; try done.
  - unfold dests. rewrite requeue_services. by eapply dests_insert_same.
  - intros i. rewrite requeue_services, lookup_insert_is_Some'. split; [|tauto].
    intros [<-|?]; [by eexists|done].
Qed.

Lemma requeue_gw_ok svc trigger d :
  gw_ok d → protected_service d !! svc_id svc = Some svc →
  agent_job d !! uuid_supply d = None → gw_ok (db_requeue svc trigger d).
Proof.
  intros (Ha & Hi & Hc) Hs Hf.
  destruct (requeue_frame svc trigger d Hs) as (E1 & E2 & E3 & E4 & E5 & E6). split_and!.
  - by apply requeue_apply_ok.
  - by eapply iso_ok_frame.
  - by eapply config_ok_frame.
Qed.

(** The audit trail is not part of the invariant. *)
Lemma gw_ok_audit d evs : gw_ok d → gw_ok (d <| audit_events := evs |>).
Proof. intros (Ha & Hi & [?????]). by split_and!. Qed.

(** ** The shape every configuration change ends in *)

(** [d'] is [d] with [sid] at its next version, one new queued job for that
    version, and audit events. *)
Definition requeued (sid : uuid) (trigger : ChangeTrigger.t) (d d' : Db) : Prop :=
  ∃ svc evs, protected_service d !! sid = Some svc ∧ svc_id svc = sid ∧
    agent_job d !! uuid_supply d = None ∧
    d' = db_requeue svc trigger d <| audit_events := evs |>.

Lemma requeued_row sid trigger d d' svc r :
  requeued sid trigger d d' → protected_service d' !! sid = Some r →
  protected_service d !! sid = Some svc → r = queued_row d svc.
Proof.
  intros (svc0 & evs & Hs & Hid & _ & ->) Hr Hs'. rewrite Hs' in Hs. injection Hs as <-.
  change (protected_service (_ <| audit_events := evs |>)) with
    (protected_service (db_requeue svc trigger d)) in Hr.
  rewrite requeue_services, Hid, lookup_insert_eq in Hr. by injection Hr as <-.
Qed.

Lemma requeued_gw_ok sid trigger d d' : gw_ok d → requeued sid trigger d d' → gw_ok d'.
Proof.
  intros Hok (svc & evs & Hs & <- & Hf & ->). by apply gw_ok_audit, requeue_gw_ok.
Qed.

Lemma require_service_inr sid s svc s' :
  _require_service sid s = (inr svc, s') →
  s' = s ∧ protected_service (db s) !! sid = Some svc.
Proof. unfold _require_service, _load_service, get_db. intros H. by minv. Qed.

Lemma require_service_locked_inr sid s svc s' :
  _require_service_locked sid s = (inr svc, s') →
  s' = s ∧ protected_service (db s) !! sid = Some svc.
Proof. unfold _require_service_locked, get_db. intros H. by minv. Qed.

Lemma record_for_service_inr svc s r s' :
  _record_for_service svc s = (inr r, s') → s' = s.
Proof.
  unfold _record_for_service, get_db. intros H. minv.
  match goal with H : _require_service _ _ = _ |- _ =>
    by apply require_service_inr in H as [-> _] end.
Qed.

(** From the successful runs of [bump_version] and [enqueue_service_update],
    followed by an audit event, derive [requeued]. *)
Lemma tail_requeued d sid trigger s1 svc s2 job s3 :
  bump_version sid s1 = (inr svc, s2) →
  enqueue_service_update svc trigger s2 = (inr job, s3) → db s1 = d → gw_ok d →
  (∀ evs, requeued sid trigger d (db s3 <| audit_events := evs |>)) ∧
  svc_id svc = sid ∧ registered (uuid_supply d) s1 s3.
Proof.
  intros Hb He <- [Hok _].
  destruct (bump_enqueue_inr _ _ _ _ _ _ _ Hok Hb He)
    as (svc0 & Hs & Hid & -> & Hf & _ & Hdb & Hreg).
  split_and!; [|done|done]. intros evs. exists svc0, evs. split_and!; [done..|].
  by rewrite Hdb.
Qed.

(** ** Editing a service row *)

Lemma edit_gw_ok d sid svc svc' :
  gw_ok d → protected_service d !! sid = Some svc →
  svc_id svc' = svc_id svc → svc_version svc' = svc_version svc →
  svc_apply_status svc' = svc_apply_status svc →
  svc_active_version svc' = svc_active_version svc →
  isolation (allocated_cidr d) (dest <$> <[sid := svc']> (protected_service d)) →
  gw_ok (d <| protected_service := <[svc_id svc' := svc']> (protected_service d) |>).
Proof.
  intros (Ha & Hi & Hc) Hs Eid Ev Est Eav Hiso.
  pose proof (li_svc_id _ _ (proj1 Ha) _ _ Hs) as Hid. rewrite Eid, Hid. split_and!.
  - by eapply apply_inv_edit.
  - exact Hiso.
  - eapply config_ok_frame; [done..|]. intros i. simpl. rewrite lookup_insert_is_Some'.
    split; [intros [<-|?]|]; eauto.
Qed.

Lemma flush_service_inr svc s u s' :
  flush_service svc s = (inr u, s') →
  select_where (same_name svc) (protected_service (db s)) = [] ∧
  conflicting_services (db s) (svc_cidr_or_ip svc) (Some (svc_id svc)) = [] ∧
  s' = s <| db := db s <| protected_service :=
              <[svc_id svc := svc]> (protected_service (db s)) |> |>.
Proof.
  unfold flush_service, put_service, get_db, mod_db. intros H. minv.
  split_and!; [by eapply bool_decide_eq_true..|done].
Qed.

Lemma conflicting_nil d c excl :
  conflicting_services d c excl = [] ↔
  ∀ i s, protected_service d !! i = Some s → Some (svc_id s) ≠ excl →
         cidr_overlap (svc_cidr_or_ip s) c = false.
Proof.
  unfold conflicting_services. rewrite order_by_nil, select_where_nil.
  split; intros H i s Hs; specialize (H i s Hs).
  - intros Hne. apply andb_false_iff in H as [H|H]; [done|].
    apply negb_false_iff, bool_decide_eq_true in H. done.
  - case_bool_decide as E; [by rewrite andb_false_r|]. by rewrite H.
Qed.

(** Placing a service row at a free destination in scope. *)
Lemma place_iso d svc :
  gw_ok d → net_wf (svc_cidr_or_ip svc) → num_addresses (svc_cidr_or_ip svc) = 1 →
  cidr_in_tenant_allocation d (svc_tenant_id svc) (svc_cidr_or_ip svc) = true →
  conflicting_services d (svc_cidr_or_ip svc) (Some (svc_id svc)) = [] →
  isolation (allocated_cidr d) (dest <$> <[svc_id svc := svc]> (protected_service d)).
Proof.
  intros (Ha & Hi & _) Hwf Hn Hsc Hno. rewrite fmap_insert.
  apply isolation_place; [done..| |].
  - by apply in_allocation_iff.
  - intros i t c Hd Hne. rewrite lookup_fmap in Hd.
    destruct (protected_service d !! i) as [s|] eqn:Es; [|done].
    simpl in Hd. injection Hd as <- <-.
    eapply conflicting_nil; [done..|].
    rewrite (li_svc_id _ _ (proj1 Ha) _ _ Es). congruence.
Qed.

Ltac tail_inv :=
  repeat match goal with
  | H : refreshed _ _ = (inr _, _) |- _ => apply require_service_inr in H as [-> ?]
  | H : _record_for_service _ _ = (inr _, _) |- _ => apply record_for_service_inr in H as ->
  | H : record_event _ _ _ _ _ _ _ _ = (inr _, _) |- _ =>
      let evs := fresh "evs" in apply record_event_inr in H as [evs ->]
  | H : rule_event _ _ _ _ _ _ = (inr _, _) |- _ =>
      let evs := fresh "evs" in apply record_event_inr in H as [evs ->]
  end.

(** The configuration fields of a row may change; its identity, tenant, version
    and apply status may not. *)
Definition config_edit (svc svc' : ProtectedService) : Prop :=
  svc_id svc' = svc_id svc ∧ svc_tenant_id svc' = svc_tenant_id svc ∧
  svc_dp_id svc' = svc_dp_id svc ∧ svc_version svc' = svc_version svc ∧
  svc_apply_status svc' = svc_apply_status svc ∧
  svc_active_version svc' = svc_active_version svc.

Definition db_edit (svc' : ProtectedService) (d : Db) : Db :=
  d <| protected_service := <[svc_id svc' := svc']> (protected_service d) |>.

(** What a successful update did: an edit of the one row that leaves the
    invariant intact, then the requeue. *)
Lemma update_service_inr sid actor name cidr mode vp vb sp sb ip s r s' :
  gw_ok (db s) → (∀ c, cidr = Some c → net_wf c) →
  update_service sid actor name cidr mode vp vb sp sb ip s = (inr r, s') →
  ∃ svc svc', protected_service (db s) !! sid = Some svc ∧ config_edit svc svc' ∧
    _authorize_actor_for_tenant actor (svc_tenant_id svc) = inr tt ∧
    svc_cidr_or_ip svc' = default (svc_cidr_or_ip svc) cidr ∧
    svc_enabled svc' = svc_enabled svc ∧
    gw_ok (db_edit svc' (db s)) ∧
    requeued sid ChangeTrigger.service (db_edit svc' (db s)) (db s').
Proof.
  intros Hok Hwf H. unfold update_service in H. minv.
  match goal with H : _require_service _ _ = _ |- _ =>
    apply require_service_inr in H as [-> Hs] end.
  match goal with a : ProtectedService, Hs : protected_service (db s) !! sid = Some ?x |- _ =>
    rename x into svc end.
  match goal with H : (match cidr with _ => _ end) _ = (inr ?x, ?t) |- _ =>
    assert (t = s ∧ config_edit svc x ∧ svc_enabled x = svc_enabled svc ∧
            svc_cidr_or_ip x = default (svc_cidr_or_ip svc) cidr ∧
            isolation (allocated_cidr (db s)) (dest <$> <[sid := x]> (protected_service (db s))))
      as (-> & Hedit & Hen & Hcidr & Hiso); [clear -H Hok Hwf Hs; rename H into H|] end.
  { assert (isolation (allocated_cidr (db s)) (dest <$> <[sid := svc]> (protected_service (db s))))
      as Hsame by (rewrite insert_id; [by destruct Hok as (_ & ? & _)|done]).
    destruct cidr as [c|]; [|by minv].
    case_bool_decide as Ec; [subst c; by minv|].
    unfold _require_destination_scope, _find_conflicting_service, get_db in *. minv.
    destruct (head _) as [x|] eqn:Eh; [done|]. minv.
    apply head_None in Eh. split_and!; try done.
    rewrite <- (li_svc_id _ _ (proj1 (proj1 Hok)) _ _ Hs).
    pose proof (place_iso (db s) (svc <| svc_cidr_or_ip := c |>)) as Hp. simpl in Hp.
    apply Hp; auto. lia. }
  pose proof (li_svc_id _ _ (proj1 (proj1 Hok)) _ _ Hs) as Hid.
  destruct Hedit as (E1 & E2 & E3 & E4 & E5 & E6).
  match goal with H : flush_service ?x _ = _ |- _ =>
    set (svc' := x) in *; apply flush_service_inr in H as (_ & _ & ->) end.
  assert (gw_ok (db_edit svc' (db s))) as Hedited.
  { eapply edit_gw_ok; try done; simpl. by rewrite fmap_insert in *. }
  exists svc, svc'. destruct a0. tail_inv.
  match goal with Hb : bump_version _ _ = _ |- _ => rewrite E1, Hid in Hb; rename Hb into Hbump end.
  match goal with He : enqueue_service_update _ _ _ = _ |- _ =>
    pose proof (tail_requeued _ _ _ _ _ _ _ _ Hbump He eq_refl Hedited) as (Hreq & _ & _) end.
  split_and!; try done. exact (Hreq _).
Qed.

(** ** Configuration changes *)

Definition ledger_row (s : ProtectedService) : Z * ApplyStatus.t * option Z :=
  (svc_version s, svc_apply_status s, svc_active_version s).

(** What the data plane is told about a service: the row's configuration
    columns, the plan, the rules and the whitelist. *)
Definition row_config (s : ProtectedService) :=
  (svc_id s, svc_dp_id s, svc_name s, svc_cidr_or_ip s, svc_mode s, svc_enabled s,
   (svc_vip_pps s, svc_vip_bps s), (svc_service_pps s, svc_service_bps s)).
Definition content (d : Db) (i : uuid) :=
  (row_config <$> protected_service d !! i, service_plan d !! i,
   filter (fun kv : uuid * AllowRule => rule_service_id kv.2 = i) (allow_rule d),
   filter (fun kv : uuid * WhitelistEntry => wl_service_id kv.2 = i) (whitelist_entry d)).

(** A change to the configuration of [sid]: an intermediate database that
    satisfies the invariant, in which no job and no ledger field has moved and
    no other service's row or configuration has changed, then the requeue of
    [sid]. *)
Definition config_change (sid : uuid) (trigger : ChangeTrigger.t) (d d' : Db) : Prop :=
  ∃ d1, gw_ok d1 ∧ agent_job d1 = agent_job d ∧
    ledger_row <$> protected_service d1 = ledger_row <$> protected_service d ∧
    (uuid_supply d <= uuid_supply d1)%positive ∧
    (∀ i, i ≠ sid → content d1 i = content d i ∧
                    protected_service d1 !! i = protected_service d !! i) ∧
    requeued sid trigger d1 d'.

(** One row of another service does not show. *)
Lemma filter_insert_other {A} (f : A → uuid) (t : gmap uuid A) k a i :
  f a ≠ i → (∀ b, t !! k = Some b → f b ≠ i) →
  filter (fun kv : uuid * A => f kv.2 = i) (<[k := a]> t) =
  filter (fun kv : uuid * A => f kv.2 = i) t.
Proof.
  intros Ha Hb. apply map_eq. intros j.
  destruct (decide (j = k)) as [->|Hne].
  - rewrite (map_lookup_filter _ (<[k := a]> t)), lookup_insert_eq, (map_lookup_filter _ t).
    simpl. rewrite option_guard_False by done. destruct (t !! k) as [b|] eqn:E; [|done].
    simpl. rewrite option_guard_False by (simpl; eauto). done.
  - by rewrite !map_lookup_filter, lookup_insert_ne.
Qed.

Lemma filter_delete_other {A} (f : A → uuid) (t : gmap uuid A) k i :
  (∀ b, t !! k = Some b → f b ≠ i) →
  filter (fun kv : uuid * A => f kv.2 = i) (delete k t) =
  filter (fun kv : uuid * A => f kv.2 = i) t.
Proof.
  intros Hb. apply map_eq. intros j. rewrite !map_lookup_filter.
  destruct (decide (j = k)) as [->|Hne]; [|by rewrite lookup_delete_ne].
  rewrite lookup_delete_eq. simpl. destruct (t !! k) as [b|] eqn:E; [|done].
  simpl. rewrite option_guard_False by (simpl; eauto). done.
Qed.

Lemma config_change_gw_ok sid trigger d d' : config_change sid trigger d d' → gw_ok d'.
Proof. intros (d1 & Hok & _ & _ & _ & _ & Hr). by eapply requeued_gw_ok. Qed.

Lemma ledger_rows_edit (ps : gmap uuid ProtectedService) sid svc svc' :
  ps !! sid = Some svc → ledger_row svc' = ledger_row svc →
  ledger_row <$> <[sid := svc']> ps = ledger_row <$> ps.
Proof.
  intros Hs He. rewrite fmap_insert, He. apply insert_id. by rewrite lookup_fmap, Hs.
Qed.

(** What a configuration change means for the ledger. *)
Lemma config_change_ledger sid trigger d d' :
  config_change sid trigger d d' →
  ∃ svc svc' jid, protected_service d !! sid = Some svc ∧
    protected_service d' !! sid = Some svc' ∧
    ledger_row svc' = (svc_version svc + 1, ApplyStatus.queued, svc_active_version svc) ∧
    agent_job d !! jid = None ∧
    (∃ now, agent_job d' = <[jid := new_job jid (TargetService sid) (svc_version svc')
                                      trigger now]> (agent_job d)) ∧
    ∀ i, i ≠ sid → ledger_row <$> protected_service d' !! i =
                   ledger_row <$> protected_service d !! i.
Proof.
  intros (d1 & _ & Hj & Hrows & _ & _ & svc1 & evs & Hs & Hid & Hf & ->).
  assert (∀ i, ledger_row <$> protected_service d1 !! i =
               ledger_row <$> protected_service d !! i) as Hrow.
  { intros i. by rewrite <- !lookup_fmap, Hrows. }
  pose proof (Hrow sid) as Hsid. rewrite Hs in Hsid.
  destruct (protected_service d !! sid) as [svc|] eqn:Hs0; [|done].
  simpl in Hsid. injection Hsid as Ev Est Eav.
  exists svc, (queued_row d1 svc1), (uuid_supply d1).
  change (protected_service (_ <| audit_events := evs |>)) with
    (protected_service (db_requeue svc1 trigger d1)).
  change (agent_job (_ <| audit_events := evs |>)) with
    (agent_job (db_requeue svc1 trigger d1)).
  rewrite requeue_services, requeue_jobs, Hid, Hj. split_and!; [done|..].
  - apply lookup_insert_eq.
  - unfold ledger_row. simpl. by rewrite Ev, Eav.
  - by rewrite <- Hj.
  - by exists (clock d1).
  - intros i Hne. by rewrite <- Hrow, lookup_insert_ne.
Qed.

(** The rows of the other services do not move. *)
Lemma config_change_others sid trigger d d' i :
  config_change sid trigger d d' → i ≠ sid →
  protected_service d' !! i = protected_service d !! i.
Proof.
  intros (d1 & _ & _ & _ & _ & Hsame & svc1 & evs & _ & Hid & _ & ->) Hne.
  change (protected_service (_ <| audit_events := evs |>)) with
    (protected_service (db_requeue svc1 trigger d1)).
  rewrite requeue_services, Hid, lookup_insert_ne by done. by apply Hsame.
Qed.

(** Any successful update of a service is such a change. *)
Lemma update_service_change sid actor name cidr mode vp vb sp sb ip s r s' :
  gw_ok (db s) → (∀ c, cidr = Some c → net_wf c) →
  update_service sid actor name cidr mode vp vb sp sb ip s = (inr r, s') →
  config_change sid ChangeTrigger.service (db s) (db s').
Proof.
  intros Hok Hwf H. apply update_service_inr in H; [|done..].
  destruct H as (svc & svc' & Hs & (E1 & _ & _ & E4 & E5 & E6) & _ & _ & _ & Hed & Hreq).
  exists (db_edit svc' (db s)). simpl.
  pose proof (li_svc_id _ _ (proj1 (proj1 Hok)) _ _ Hs) as Hid. split_and!; try done.
  - simpl. rewrite E1, Hid. eapply ledger_rows_edit; [done|]. unfold ledger_row. congruence.
  - intros i Hne. unfold content. simpl. by rewrite E1, Hid, lookup_insert_ne.
Qed.

(** [set_enabled] either finds nothing to do or is such a change. *)
Lemma set_enabled_inr sid en actor ip s r s' :
  gw_ok (db s) → set_enabled sid en actor ip s = (inr r, s') →
  ∃ svc, protected_service (db s) !! sid = Some svc ∧
    _authorize_actor_for_tenant actor (svc_tenant_id svc) = inr tt ∧
    if Bool.eqb (svc_enabled svc) en then r = svc ∧ s' = s
    else config_change sid (if en then ChangeTrigger.enable else ChangeTrigger.disable)
           (db s) (db s') ∧ svc_enabled r = en ∧ protected_service (db s') !! sid = Some r.
Proof.
  intros Hok H. unfold set_enabled in H. minv.
  match goal with H : _require_service _ _ = _ |- _ =>
    apply require_service_inr in H as [-> Hs] end.
  eexists. split; [exact Hs|]. destruct a0. split; [done|].
  destruct (Bool.eqb _ en) eqn:Een; [by minv|]. unfold put_service, mod_db in H. minv.
  pose proof (li_svc_id _ _ (proj1 (proj1 Hok)) _ _ Hs) as Hid.
  assert (gw_ok (db_edit (a <| svc_enabled := en |>) (db s))) as Hed.
  { eapply edit_gw_ok; try done.
    rewrite (dests_insert_same _ _ a); [by destruct Hok as (_ & ? & _)|done..]. }
  subst sid. tail_inv.
  match goal with Hb : bump_version _ _ = _, He : enqueue_service_update _ _ _ = _ |- _ =>
    pose proof (tail_requeued _ _ _ _ _ _ _ _ Hb He eq_refl Hed) as (Hreq & Hsid & _) end.
  rewrite Hsid in *. split_and!; [|..].
  - eexists. split_and!; [exact Hed|done| |done| |exact (Hreq _)]; simpl.
    + by eapply ledger_rows_edit.
    + intros i Hne. unfold content. simpl. by rewrite lookup_insert_ne.
  - match goal with H : protected_service _ !! _ = Some r |- _ => rename H into Hr end.
    by eapply (requeued_row _ _ _ _ _ _ (Hreq _)) in Hr as ->; [|apply lookup_insert_eq].
  - done.
Qed.

(** *** Plans *)

Lemma plan_gw_ok d sid p p' :
  gw_ok d → service_plan d !! sid = Some p → plan_service_id p' = sid → plan_ok p' = true →
  gw_ok (d <| service_plan := <[sid := p']> (service_plan d) |>).
Proof.
  intros (Ha & Hi & [H1 H2 H3 H4 H5 H6]) Hp Eid Hok. split_and!; [done..|]. split; try done.
  - intros i. simpl. rewrite lookup_insert_is_Some', <- H1. split; [|tauto].
    intros [<-|?]; [by eexists|done].
  - simpl. intros i q [[<- <-]|[_ Hq]]%lookup_insert_Some; eauto.
Qed.

Lemma require_plan_inr sid s p s' :
  _require_plan sid s = (inr p, s') → s' = s ∧ service_plan (db s) !! sid = Some p.
Proof. unfold _require_plan, get_db. intros H. by minv. Qed.

Lemma flush_plan_inr p s u s' :
  flush_plan p s = (inr u, s') →
  plan_ok p = true ∧
  s' = s <| db := db s <| service_plan :=
              <[plan_service_id p := p]> (service_plan (db s)) |> |>.
Proof. unfold flush_plan, mod_db. intros H. by minv. Qed.

Lemma size_plan_inr cap n sid actor com ceil ip s r s' :
  gw_ok (db s) → size_plan cap n sid actor com ceil ip s = (inr r, s') →
  _require_admin_actor actor = inr tt ∧
  _validate_plan com ceil = inr tt ∧
  config_change sid ChangeTrigger.plan (db s) (db s') ∧
  service_plan (db s') !! sid = Some (psr_plan r) ∧
  plan_committed_clean_gbps (psr_plan r) = round_hundredths com ∧
  plan_ceiling_clean_gbps (psr_plan r) = round_hundredths ceil ∧
  psr_warnings r = _oversubscription_warnings cap n (db s').
Proof.
  intros Hok H. unfold size_plan in H. minv.
  match goal with H : _require_service _ _ = _ |- _ =>
    apply require_service_inr in H as [-> Hs] end.
  match goal with H : _require_plan _ _ = _ |- _ =>
    apply require_plan_inr in H as [-> Hp] end.
  match goal with H : flush_plan _ _ = _ |- _ =>
    apply flush_plan_inr in H as [Hpok ->] end.
  pose proof (li_svc_id _ _ (proj1 (proj1 Hok)) _ _ Hs) as Hid. rewrite Hid in *.
  unfold get_db in *. minv. tail_inv. destruct a, a0.
  match goal with H : numeric_10_2 com = _ |- _ =>
    unfold numeric_10_2 in H; destruct (_ <? _); [injection H as <-|done] end.
  match goal with H : numeric_10_2 ceil = _ |- _ =>
    unfold numeric_10_2 in H; destruct (_ <? _); [injection H as <-|done] end.
  pose proof (cf_plan_ok _ (proj2 (proj2 Hok)) _ _ Hp) as [Epid _].
  set (p' := mkServicePlan _ _ _ _ _) in *.
  assert (gw_ok (db s <| service_plan := <[plan_service_id p' := p']> (service_plan (db s)) |>))
    as Hed by (simpl; rewrite Epid; by eapply plan_gw_ok).
  match goal with Hb : bump_version _ _ = _, He : enqueue_service_update _ _ _ = _ |- _ =>
    pose proof (tail_requeued _ _ _ _ _ _ _ _ Hb He eq_refl Hed) as (Hreq & _ & _) end.
  split_and!; try done.
  - eexists. split_and!; [exact Hed|done|done|done| |exact (Hreq _)].
    intros i Hne. unfold content. simpl. by rewrite Epid, lookup_insert_ne.
  - destruct (Hreq evs) as (svc0 & evs' & _ & _ & _ & Hd).
    apply (f_equal service_plan) in Hd. simpl in Hd.
    etrans; [exact (f_equal (lookup _) Hd)|]. rewrite Epid. apply lookup_insert_eq.
Qed.

(** *** Creation and deletion *)

Definition db_create (svc : ProtectedService) (plan : ServicePlan) (n : Z) (u : uuid)
    (evs : list AuditEvent) (d : Db) : Db :=
  d <| service_dp_id_seq := n |> <| uuid_supply := u |>
    <| protected_service := <[svc_id svc := svc]> (protected_service d) |>
    <| service_plan := <[svc_id svc := plan]> (service_plan d) |>
    <| audit_events := evs |>.

Lemma create_bumped d svc plan n u evs :
  apply_ok d → protected_service d !! svc_id svc = None →
  ledger_row svc = (1, ApplyStatus.pending, None) →
  apply_ok_bumped (svc_id svc) (db_create svc plan n u evs d).
Proof. intros Ha Hnew [= Ev Est Eav]. unfold apply_ok_bumped. by apply apply_inv_create. Qed.

Lemma create_gw_ok d svc plan n u evs trigger :
  gw_ok d → protected_service d !! svc_id svc = None →
  ledger_row svc = (1, ApplyStatus.pending, None) →
  plan_service_id plan = svc_id svc → plan_ok plan = true →
  isolation (allocated_cidr d) (dest <$> <[svc_id svc := svc]> (protected_service d)) →
  agent_job d !! u = None →
  gw_ok (db_enqueue svc trigger (db_create svc plan n u evs d)).
Proof.
  intros (Ha & Hi & [H1 H2 H3 H4 H5 H6]) Hnew Hrow Epid Hpok Hiso Hf.
  pose proof (create_bumped d svc plan n u evs Ha Hnew Hrow) as Hb. split_and!.
  - unfold apply_ok. eapply (apply_inv_enqueue _ _ _ svc); try done. apply lookup_insert_eq.
  - unfold iso_ok, dests. cbn -[insert fmap].
    rewrite (dests_insert_same _ _ svc); [done|apply lookup_insert_eq|done].
  - split; cbn -[insert lookup].
    + intros i. rewrite !lookup_insert_is_Some', H1. tauto.
    + intros i p [[<- <-]|[_ Hp]]%lookup_insert_Some; eauto.
    + intros i r Hr. destruct (H3 i r Hr) as (? & ? & ? & ?). split_and!; try done.
      rewrite !lookup_insert_is_Some'. tauto.
    + done.
    + done.
    + intros i w Hw. destruct (H6 i w Hw) as (? & ? & ?). split_and!; try done.
      rewrite !lookup_insert_is_Some'. tauto.
Qed.

(** What a successful creation did. *)
Lemma create_service_inr t name c actor mode vp vb sp sb com ceil metric ip s r s' :
  gw_ok (db s) → net_wf c →
  create_service t name c actor mode vp vb sp sb com ceil metric ip s = (inr r, s') →
  ∃ svc plan n u evs,
    protected_service (db s) !! svc_id svc = None ∧ dest svc = (t, c) ∧
    svc_enabled svc = false ∧ ledger_row svc = (1, ApplyStatus.pending, None) ∧
    plan_service_id plan = svc_id svc ∧
    _authorize_actor_for_tenant actor t = inr tt ∧
    cidr_in_tenant_allocation (db s) t c = true ∧ num_addresses c = 1 ∧
    svc_id svc = uuid_supply (db s) ∧ u = Pos.succ (uuid_supply (db s)) ∧
    agent_job (db s) !! u = None ∧
    db s' = db_enqueue svc ChangeTrigger.service (db_create svc plan n u evs (db s)) ∧
    gw_ok (db s').
Proof.
  intros Hok Hwf H. unfold create_service in H. minv.
  unfold _require_destination_scope, _find_conflicting_service, get_db in *. minv.
  destruct (head _) as [x|] eqn:Eh; [done|]. apply head_None in Eh.
  unfold nextval_dp_id, utc_now, get_db, mod_db in H. minv.
  match goal with H : uuid4 _ = _ |- _ => apply uuid4_inr in H as [-> ->] end.
  match goal with H : try_except _ _ _ = _ |- _ =>
    apply try_except_inr in H as [H|(e & s1 & _ & He)] end.
  2: { unfold _raise_integrity_error in He. destruct e; try done.
       repeat case_match; done. }
  minv. unfold check_pkey, get_db in *. minv.
  match goal with H : flush_service ?x _ = _ |- _ =>
    set (svc := x) in *; apply flush_service_inr in H as (_ & _ & ->) end.
  match goal with H : flush_plan ?x _ = _ |- _ =>
    set (plan := x) in *; apply flush_plan_inr in H as [Hpok ->] end.
  match goal with H : bool_decide (_ = None) = true |- _ =>
    apply bool_decide_eq_true in H as Hnew end. simpl in Hnew. tail_inv.
  assert (isolation (allocated_cidr (db s))
            (dest <$> <[svc_id svc := svc]> (protected_service (db s)))) as Hiso.
  { apply place_iso; try done; [simpl; lia|].
    apply conflicting_nil. intros i s0 Hs0 _. eapply conflicting_nil; [exact Eh|done..]. }
  match goal with He : enqueue_service_update _ _ (_ <| db := _ <| audit_events := ?evs |> |>) = _ |- _ =>
    pose proof (create_bumped (db s) svc plan (service_dp_id_seq (db s) + 1)
      (Pos.succ (uuid_supply (db s))) evs (proj1 Hok) Hnew eq_refl) as Hb;
    pose proof (fun A B => enqueue_inr _ _ _ _ _ A B He) as Henq;
    destruct (Henq Hb (lookup_insert_eq _ _ _)) as (Hf & _ & Hdb & _);
    clear Henq He;
    exists svc, plan, (service_dp_id_seq (db s) + 1), (Pos.succ (uuid_supply (db s))), evs end.
  destruct a. split_and!; try done; [lia|].
  rewrite Hdb. by apply (create_gw_ok (db s)).
Qed.

Lemma cascade_apply_ok sid d : apply_ok d → apply_ok (cascade_service sid d).
Proof.
  intros [[Hsid Hjid Huniq Htgt Hver] Hset].
  assert (∀ i j t, service_job (agent_job (cascade_service sid d)) i j t ↔
                   service_job (agent_job d) i j t ∧ t ≠ sid) as Hjob.
  { intros i j t. unfold service_job. simpl. rewrite map_lookup_filter_Some.
    simpl. split; intros [[H1 H2] H3]; split; [done|congruence|split; congruence|done]. }
  split; [split|]; simpl.
  - intros i s [_ H]%lookup_delete_Some. eauto.
  - intros i j [H _]%map_lookup_filter_Some. eauto.
  - intros i j i' j' t [H1 _]%Hjob [H2 _]%Hjob. eauto.
  - intros i j t [H1 Hne]%Hjob. rewrite lookup_delete_ne by done. eauto.
  - intros i s [_ H]%lookup_delete_Some. eauto.
  - intros i s [Hne H]%lookup_delete_Some. destruct (Hset i s H) as [Ha (k & j & Hk & Hr)].
    split; [done|]. exists k, j. split; [|done]. by apply Hjob.
Qed.


Lemma delete_service_inr sid actor ip s u s' :
  gw_ok (db s) → delete_service sid actor ip s = (inr u, s') →
  ∃ svc evs, protected_service (db s) !! sid = Some svc ∧ svc_enabled svc = false ∧
    _authorize_actor_for_tenant actor (svc_tenant_id svc) = inr tt ∧
    db s' = cascade_service sid (db s <| audit_events := evs |>) ∧ gw_ok (db s').
Proof.
  intros Hok H. unfold delete_service in H. minv.
  match goal with H : _require_service _ _ = _ |- _ =>
    apply require_service_inr in H as [-> Hs] end.
  destruct (svc_enabled _) eqn:Een; [by minv|]. unfold mod_db in H. minv. tail_inv.
  rewrite (li_svc_id _ _ (proj1 (proj1 Hok)) _ _ Hs) in *. destruct a0.
  exists a, evs. split_and!; try done.
  destruct (gw_ok_audit _ evs Hok) as (Ha & Hi & Hc). split_and!.
  - by apply (cascade_apply_ok sid (db s <| audit_events := evs |>)).
  - unfold iso_ok, dests. cbn -[delete fmap]. rewrite fmap_delete. by apply isolation_delete.
  - destruct Hc as [C1 C2 C3 C4 C5 C6]. split; cbn -[lookup delete filter].
    + intros i. destruct (decide (i = sid)) as [->|Hne].
      * rewrite !lookup_delete_eq. split; by intros [? ?].
      * rewrite !lookup_delete_ne by done. apply C1.
    + intros i p [_ Hp]%lookup_delete_Some. eauto.
    + intros i r [Hr Hne]%map_lookup_filter_Some. simpl in Hne.
      destruct (C3 i r Hr) as (? & ? & ? & ?). split_and!; try done.
      by rewrite lookup_delete_ne.
    + intros i r i' r' [Hr _]%map_lookup_filter_Some [Hr' _]%map_lookup_filter_Some. eauto.
    + intros i. etrans; [|apply (C5 i)]. unfold rules_of. simpl.
      apply select_where_sub, map_filter_subseteq.
    + intros i w [Hw Hne]%map_lookup_filter_Some. simpl in Hne.
      destruct (C6 i w Hw) as (? & ? & ?). split_and!; try done. by rewrite lookup_delete_ne.
Qed.

(** *** Rules *)

Lemma view_ok_ranges id pr proto a b c e v :
  _rule_view id pr proto a b c e = inr v → range_ok (a, b) ∧ range_ok (c, e).
Proof.
  unfold _rule_view, range_ok. simpl. intros H.
  repeat case_match; simplify_eq; destruct u, u0; done.
Qed.

Lemma flush_rule_inr r s u s' :
  flush_rule r s = (inr u, s') →
  priority_taken (db s) (rule_service_id r) (rule_priority r) (Some (rule_id r)) = [] ∧
  s' = s <| db := db s <| allow_rule := <[rule_id r := r]> (allow_rule (db s)) |> |>.
Proof.
  unfold flush_rule, get_db, mod_db. intros H. minv.
  split; [by eapply bool_decide_eq_true|done].
Qed.

Lemma priority_free d sid pr excl :
  priority_taken d sid pr excl = [] →
  ∀ i r, allow_rule d !! i = Some r → rule_service_id r = sid → rule_priority r = pr →
         Some (rule_id r) = excl.
Proof.
  unfold priority_taken. rewrite select_where_nil. intros H i r Hr E1 E2.
  specialize (H i r Hr). rewrite bool_decide_true, E2, Z.eqb_refl in H by done.
  simpl in H. by apply negb_false_iff, bool_decide_eq_true in H.
Qed.

(** Writing a valid rule at a free priority, within the limit. *)
Lemma rule_gw_ok d r :
  gw_ok d → is_Some (protected_service d !! rule_service_id r) →
  range_ok (rule_src_port_lo r, rule_src_port_hi r) →
  range_ok (rule_dst_port_lo r, rule_dst_port_hi r) →
  priority_taken d (rule_service_id r) (rule_priority r) (Some (rule_id r)) = [] →
  (∀ sid, (length (rules_of (d <| allow_rule := <[rule_id r := r]> (allow_rule d) |>) sid) <=
           MAX_RULES_PER_SERVICE)%nat) →
  gw_ok (d <| allow_rule := <[rule_id r := r]> (allow_rule d) |>).
Proof.
  intros (Ha & Hi & [C1 C2 C3 C4 C5 C6]) Hsvc Hsrc Hdst Hfree Hcount.
  split_and!; [done..|]. split; [done..| | |done|done]; cbn -[lookup insert].
  - intros i x [[<- <-]|[_ Hx]]%lookup_insert_Some; [done|eauto].
  - assert (∀ i x, allow_rule d !! i = Some x → i ≠ rule_id r →
      rule_service_id x = rule_service_id r → rule_priority x ≠ rule_priority r) as Hno.
    { intros i x Hx Hne Es Ep. pose proof (priority_free _ _ _ _ Hfree i x Hx Es Ep) as [= E].
      destruct (C3 i x Hx) as [? _]. congruence. }
    intros i x i' x' [[<- <-]|[Hn Hx]]%lookup_insert_Some
      [[<- <-]|[Hn' Hx']]%lookup_insert_Some Es Ep; [done| | |eauto].
    + by destruct (Hno i' x' Hx' (not_eq_sym Hn') (eq_sym Es)).
    + by destruct (Hno i x Hx (not_eq_sym Hn) Es).
Qed.

Lemma rules_count_insert d r sid :
  config_ok d → allow_rule d !! rule_id r = None →
  (length (rules_of d (rule_service_id r)) < MAX_RULES_PER_SERVICE)%nat →
  (length (rules_of (d <| allow_rule := <[rule_id r := r]> (allow_rule d) |>) sid) <=
   MAX_RULES_PER_SERVICE)%nat.
Proof.
  intros [_ _ _ _ C5 _] Hnew Hlt. unfold rules_of in *. simpl.
  etrans; [apply select_where_insert|]. specialize (C5 sid).
  cbn beta. case_bool_decide as E; [subst sid|]; lia.
Qed.

Lemma rules_count_replace d r r0 sid :
  config_ok d → allow_rule d !! rule_id r = Some r0 →
  rule_service_id r = rule_service_id r0 →
  (length (rules_of (d <| allow_rule := <[rule_id r := r]> (allow_rule d) |>) sid) <=
   MAX_RULES_PER_SERVICE)%nat.
Proof.
  intros [_ _ _ _ C5 _] Hr Es. etrans; [|apply (C5 sid)].
  unfold rules_of. cbn -[insert]. rewrite !select_where_size.
  set (P := fun kv : uuid * AllowRule => Is_true (bool_decide (rule_service_id kv.2 = sid))).
  assert (dom (filter P (<[rule_id r := r]> (allow_rule d))) ⊆ dom (filter P (allow_rule d)))
    as Hsub.
  { intros i. rewrite !elem_of_dom. intros [x [Hx HP]%map_lookup_filter_Some].
    unfold P in HP. simpl in HP. apply bool_decide_unpack in HP.
    apply lookup_insert_Some in Hx as [[<- <-]|[_ Hx]].
    - exists r0. apply map_lookup_filter_Some. split; [done|].
      unfold P. simpl. apply bool_decide_pack. congruence.
    - exists x. apply map_lookup_filter_Some. split; [done|]. by apply bool_decide_pack. }
  apply subseteq_size in Hsub. by rewrite !size_dom in Hsub.
Qed.

(** The tail of a rule operation as a configuration change. *)
Lemma rules_change sid trigger d (t : gmap uuid AllowRule) u d' :
  gw_ok (d <| uuid_supply := u |> <| allow_rule := t |>) →
  (uuid_supply d <= u)%positive →
  (∀ i, i ≠ sid → filter (fun kv : uuid * AllowRule => rule_service_id kv.2 = i) t =
                  filter (fun kv : uuid * AllowRule => rule_service_id kv.2 = i) (allow_rule d)) →
  requeued sid trigger (d <| uuid_supply := u |> <| allow_rule := t |>) d' →
  config_change sid trigger d d'.
Proof.
  intros Hok Hu Ht Hr. eexists. split_and!; [exact Hok|done|done|done| |exact Hr].
  intros i Hne. unfold content. simpl. by rewrite Ht.
Qed.

Lemma gw_ok_supply d u : gw_ok d → gw_ok (d <| uuid_supply := u |>).
Proof. intros (Ha & Hi & [?????]). by split_and!. Qed.

Lemma ensure_priority_inr sid pr excl s u s' :
  _ensure_priority_available sid pr excl s = (inr u, s') → s' = s.
Proof.
  unfold _ensure_priority_available, get_db. intros H. minv.
  match goal with H : one_or_none _ _ = _ |- _ =>
    apply one_or_none_inr in H as (-> & -> & _) end.
  destruct (head _); by minv.
Qed.

Lemma raise_rule_error_inr {A} e s (a : A) s' :
  _raise_rule_integrity_error e s ≠ (inr a, s').
Proof. unfold _raise_rule_integrity_error. destruct e; try done. by case_match. Qed.

Lemma create_rule_inr sid actor pr proto sl sh dl dh en ip s r s' :
  gw_ok (db s) → create_rule sid actor pr proto sl sh dl dh en ip s = (inr r, s') →
  ∃ svc, protected_service (db s) !! sid = Some svc ∧
    _authorize_actor_for_tenant actor (svc_tenant_id svc) = inr tt ∧
    config_change sid ChangeTrigger.rule (db s) (db s') ∧
    (length (rules_of (db s) sid) < MAX_RULES_PER_SERVICE)%nat ∧
    allow_rule (db s) !! rule_id (rmr_rule r) = None ∧
    allow_rule (db s') = <[rule_id (rmr_rule r) := rmr_rule r]> (allow_rule (db s)) ∧
    rmr_rule r = mkAllowRule (rule_id (rmr_rule r)) sid pr proto sl sh dl dh en.
Proof.
  intros Hok H. unfold create_rule in H. minv.
  match goal with H : _require_service_locked _ _ = _ |- _ =>
    apply require_service_locked_inr in H as [-> Hs] end.
  pose proof (li_svc_id _ _ (proj1 (proj1 Hok)) _ _ Hs) as Hid.
  unfold _rule_count, get_db in *. minv.
  match goal with H : _ensure_priority_available _ _ _ _ = _ |- _ =>
    apply ensure_priority_inr in H as -> end.
  match goal with H : uuid4 _ = _ |- _ => apply uuid4_inr in H as [-> ->] end.
  match goal with H : try_except _ _ _ = _ |- _ =>
    apply try_except_inr in H as [H|(e & s1 & _ & He)]; [|by apply raise_rule_error_inr in He] end.
  minv. unfold check_pkey, get_db in *. minv.
  match goal with H : flush_rule ?x _ = _ |- _ =>
    set (rule := x) in *; apply flush_rule_inr in H as (Hfree & ->) end.
  match goal with H : bool_decide (_ = None) = true |- _ =>
    apply bool_decide_eq_true in H as Hnew end.
  match goal with H : _rule_view _ _ _ _ _ _ _ = _ |- _ =>
    apply view_ok_ranges in H as [Hsrc Hdst] end.
  match goal with H : (_ <? _)%nat = true |- _ => apply Nat.ltb_lt in H as Hlt end.
  tail_inv. destruct a0.
  assert (gw_ok (db s <| uuid_supply := Pos.succ (uuid_supply (db s)) |>
                      <| allow_rule := <[rule_id rule := rule]> (allow_rule (db s)) |>)) as Hed.
  { refine (rule_gw_ok (db s <| uuid_supply := Pos.succ (uuid_supply (db s)) |>) rule
              (gw_ok_supply _ _ Hok) _ Hsrc Hdst Hfree _); [by eexists|].
    intros i. exact (rules_count_insert (db s) rule i (proj2 (proj2 Hok)) Hnew Hlt). }
  match goal with Hb : bump_version _ _ = _, He : enqueue_service_update _ _ _ = _ |- _ =>
    pose proof (tail_requeued _ _ _ _ _ _ _ _ Hb He eq_refl Hed) as (Hreq & _ & _) end.
  exists a. split_and!; try done.
  - eapply rules_change; [exact Hed|lia| |exact (Hreq _)].
    intros i Hne. apply filter_insert_other; [simpl; congruence|].
    intros b Hb. exfalso. pose proof (eq_trans (eq_sym Hnew) Hb) as E. discriminate E.
  - destruct (Hreq evs) as (svc0 & evs' & _ & _ & _ & Hd). exact (f_equal allow_rule Hd).
Qed.

Lemma require_rule_inr sid rid s r s' :
  _require_rule sid rid s = (inr r, s') →
  s' = s ∧ allow_rule (db s) !! rid = Some r ∧ rule_service_id r = sid.
Proof.
  unfold _require_rule, get_db. intros H. minv.
  destruct (_ !! rid) as [x|]; [|done]. case_bool_decide; by simplify_eq.
Qed.

Lemma update_rule_inr sid rid actor pr proto sl sh dl dh en ip s r s' :
  gw_ok (db s) → update_rule sid rid actor pr proto sl sh dl dh en ip s = (inr r, s') →
  ∃ svc old, protected_service (db s) !! sid = Some svc ∧
    _authorize_actor_for_tenant actor (svc_tenant_id svc) = inr tt ∧
    config_change sid ChangeTrigger.rule (db s) (db s') ∧
    allow_rule (db s) !! rid = Some old ∧ rule_service_id old = sid ∧
    allow_rule (db s') = <[rid := rmr_rule r]> (allow_rule (db s)).
Proof.
  intros Hok H. unfold update_rule in H. minv.
  match goal with H : _require_service_locked _ _ = _ |- _ =>
    apply require_service_locked_inr in H as [-> Hs] end.
  match goal with H : _require_rule _ _ _ = _ |- _ =>
    apply require_rule_inr in H as (-> & Hr & Hsr) end.
  pose proof (li_svc_id _ _ (proj1 (proj1 Hok)) _ _ Hs) as Hid.
  destruct (cf_rule _ (proj2 (proj2 Hok)) _ _ Hr) as (Hrid & _ & _ & _).
  match goal with H : (if ?b then mret tt else _) ?s0 = (inr _, ?s1) |- _ =>
    assert (s1 = s0) as -> by (destruct b; [by minv|by apply ensure_priority_inr in H]);
    clear H end.
  unfold get_db in *. minv.
  match goal with H : try_except _ _ _ = _ |- _ =>
    apply try_except_inr in H as [H|(e & s1 & _ & He)]; [|by apply raise_rule_error_inr in He] end.
  match goal with H : flush_rule ?x _ = _ |- _ =>
    set (rule := x) in *; apply flush_rule_inr in H as (Hfree & ->) end.
  match goal with H : _rule_view _ _ _ _ _ _ _ = _ |- _ =>
    apply view_ok_ranges in H as [Hsrc Hdst] end.
  tail_inv. destruct a0.
  assert (gw_ok (db s <| allow_rule := <[rule_id rule := rule]> (allow_rule (db s)) |>)) as Hed.
  { apply (rule_gw_ok (db s) rule); try done; [simpl; rewrite Hsr; by eexists|].
    intros i. eapply (rules_count_replace (db s) rule); [apply Hok|done|done]. }
  match goal with Hb : bump_version _ _ = _, He : enqueue_service_update _ _ _ = _ |- _ =>
    pose proof (tail_requeued _ _ _ _ _ _ _ _ Hb He eq_refl Hed) as (Hreq & _ & _) end.
  do 2 eexists. split_and!; try done.
  - eexists. split_and!; [exact Hed|done|done|done| |exact (Hreq _)].
    intros i Hne. unfold content. simpl. rewrite filter_insert_other; [done|simpl; congruence|].
    intros b Hb. congruence.
  - destruct (Hreq evs) as (svc0 & evs' & _ & _ & _ & Hd). exact (f_equal allow_rule Hd).
Qed.

Lemma rule_delete_gw_ok d rid :
  gw_ok d → gw_ok (d <| allow_rule := delete rid (allow_rule d) |>).
Proof.
  intros (Ha & Hi & [C1 C2 C3 C4 C5 C6]). split_and!; [done..|].
  split; [done..| | | |done]; cbn -[lookup delete].
  - intros i r [_ Hr]%lookup_delete_Some. eauto.
  - intros i r i' r' [_ Hr]%lookup_delete_Some [_ Hr']%lookup_delete_Some. eauto.
  - intros i. etrans; [|apply (C5 i)]. apply select_where_sub, delete_subseteq.
Qed.

Lemma delete_rule_inr sid rid actor ip s r s' :
  gw_ok (db s) → delete_rule sid rid actor ip s = (inr r, s') →
  ∃ svc old, protected_service (db s) !! sid = Some svc ∧
    _authorize_actor_for_tenant actor (svc_tenant_id svc) = inr tt ∧
    config_change sid ChangeTrigger.rule (db s) (db s') ∧
    allow_rule (db s) !! rid = Some old ∧ rule_service_id old = sid ∧
    allow_rule (db s') = delete rid (allow_rule (db s)).
Proof.
  intros Hok H. unfold delete_rule in H. minv.
  match goal with H : _require_service_locked _ _ = _ |- _ =>
    apply require_service_locked_inr in H as [-> Hs] end.
  match goal with H : _require_rule _ _ _ = _ |- _ =>
    apply require_rule_inr in H as (-> & Hr & Hsr) end.
  pose proof (li_svc_id _ _ (proj1 (proj1 Hok)) _ _ Hs) as Hid.
  destruct (cf_rule _ (proj2 (proj2 Hok)) _ _ Hr) as (Hrid & _ & _ & _).
  unfold mod_db in *. minv. tail_inv. destruct a0.
  pose proof (rule_delete_gw_ok (db s) (rule_id a1) Hok) as Hed.
  match goal with Hb : bump_version _ _ = _, He : enqueue_service_update _ _ _ = _ |- _ =>
    pose proof (tail_requeued _ _ _ _ _ _ _ _ Hb He eq_refl Hed) as (Hreq & _ & _) end.
  do 2 eexists. split_and!; try done.
  - eexists. split_and!; [exact Hed|done|done|done| |exact (Hreq _)].
    intros i Hne. unfold content. simpl. rewrite filter_delete_other; [done|].
    intros b Hb. congruence.
  - destruct (Hreq evs) as (svc0 & evs' & _ & _ & _ & Hd). exact (f_equal allow_rule Hd).
Qed.
