(* ===== verification/FeedParser.v ===== *)
(** * Threat-feed parsing ([core/feed_parser.py])

    A feed is a byte string: UTF-8 with an optional byte order mark, one network
    or address per line, comments from [#] or [;].  Blank lines are ignored,
    invalid lines counted, duplicates dropped. *)

From S2P Require Import Prelude PyStr Ipaddress.
Import Cidr.
Open Scope Z_scope.

(** ** [bytes.decode("utf-8-sig")]

    Strict UTF-8: no overlong forms, no surrogates, nothing above U+10FFFF. *)

Definition is_cont (b : Z) : bool := (128 <=? b) && (b <=? 191).

Fixpoint utf8_decode (data : list Z) : option pystr :=
  match data with
  | [] => Some []
  | b0 :: rest =>
      if b0 <=? 127 then (b0 ::.) <$> utf8_decode rest
      else if (194 <=? b0) && (b0 <=? 223) then
        match rest with
        | b1 :: rest =>
            if is_cont b1
            then (((b0 - 192) * 64 + (b1 - 128)) ::.) <$> utf8_decode rest else None
        | _ => None
        end
      else if (224 <=? b0) && (b0 <=? 239) then
        match rest with
        | b1 :: b2 :: rest =>
            if ((if b0 =? 224 then 160 else 128) <=? b1) &&
               (b1 <=? (if b0 =? 237 then 159 else 191)) && is_cont b2
            then (((b0 - 224) * 4096 + (b1 - 128) * 64 + (b2 - 128)) ::.)
                   <$> utf8_decode rest
            else None
        | _ => None
        end
      else if (240 <=? b0) && (b0 <=? 244) then
        match rest with
        | b1 :: b2 :: b3 :: rest =>
            if ((if b0 =? 240 then 144 else 128) <=? b1) &&
               (b1 <=? (if b0 =? 244 then 143 else 191)) && is_cont b2 && is_cont b3
            then (((b0 - 240) * 262144 + (b1 - 128) * 4096 + (b2 - 128) * 64 + (b3 - 128))
                    ::.) <$> utf8_decode rest
            else None
        | _ => None
        end
      else None
  end.

(** The [-sig] codec drops one leading byte order mark. *)
Definition utf8_sig_decode (data : list Z) : option pystr :=
  match data with
  | 239 :: 187 :: 191 :: rest => utf8_decode rest
  | _ => utf8_decode data
  end.

(** ** The parser *)

Definition MAX_INVALID_LINE_DIAGNOSTICS : nat := 20.

Inductive ParseOutcome := parse_success | parse_partial | parse_failed.

#[global] Instance ParseOutcome_eq_dec : EqDecision ParseOutcome.
Proof. solve_decision. Defined.

Record ParseResult := mkParseResult {
  physical_line_count : nat;
  cidrs : list ipv4net;
  invalid_count : nat;
  duplicate_count : nat;
  invalid_line_diagnostics : list (option nat * string);
  outcome : ParseOutcome
}.

Definition valid_distinct_count (r : ParseResult) : nat := length (cidrs r).

(** [line[:comment_start]]. *)
Definition _strip_comment (line : pystr) : pystr :=
  let cut (c : Z) (n : nat) :=
    match find_char c line with Some position => Nat.min n position | None => n end in
  take (cut 59 (cut 35 (length line))) line.

Definition _is_ipv4_address (value : pystr) : bool :=
  match ip_int_from_string value with Some _ => true | None => false end.

Definition _normalize_cidr (value : pystr) : cidr_error + ipv4net :=
  let value := if negb (bool_decide (47 ∈ value)) && _is_ipv4_address value
               then value ++ py "/32" else value in
  match parse_ipv4_cidr value with
  | inl e => inl e
  | inr network => if prefixlen network =? 0 then inl SlashZero else inr network
  end.

Definition _outcome (valid invalid : nat) : ParseOutcome :=
  if (valid =? 0)%nat then parse_failed
  else if (0 <? invalid)%nat then parse_partial else parse_success.

(** The loop's local variables. *)
Record parse_state := mkParseState {
  ps_cidrs : list ipv4net;
  ps_diagnostics : list (option nat * string);
  ps_invalid : nat;
  ps_duplicate : nat
}.

(** One iteration.  [seen] holds exactly the elements of [cidrs]. *)
Definition parse_step (st : parse_state) (line : nat * pystr) : parse_state :=
  let '(line_number, raw_line) := line in
  let value := strip (_strip_comment raw_line) in
  match value with
  | [] => st
  | _ =>
      match _normalize_cidr value with
      | inl e =>
          mkParseState (ps_cidrs st)
            (if (length (ps_diagnostics st) <? MAX_INVALID_LINE_DIAGNOSTICS)%nat
             then ps_diagnostics st ++ [(Some line_number, cidr_error_msg e)]
             else ps_diagnostics st)
            (S (ps_invalid st)) (ps_duplicate st)
      | inr canonical =>
          if bool_decide (canonical ∈ ps_cidrs st)
          then mkParseState (ps_cidrs st) (ps_diagnostics st) (ps_invalid st)
                 (S (ps_duplicate st))
          else mkParseState (ps_cidrs st ++ [canonical]) (ps_diagnostics st) (ps_invalid st)
                 (ps_duplicate st)
      end
  end.

Definition parse_lines (lines : list pystr) : parse_state :=
  foldl parse_step (mkParseState [] [] 0 0) (zip (seq 1 (length lines)) lines).

Definition parse_line_list (data : list Z) : ParseResult :=
  match utf8_sig_decode data with
  | None => mkParseResult 0 [] 0 0 [(None, "Feed is not valid UTF-8"%string)] parse_failed
  | Some text =>
      let lines := splitlines text in
      let st := parse_lines lines in
      mkParseResult (length lines) (ps_cidrs st) (ps_invalid st) (ps_duplicate st)
        (ps_diagnostics st) (_outcome (length (ps_cidrs st)) (ps_invalid st))
  end.

(** ** The text of a network on a line *)

(** A printed network consists of digits, dots and the slash. *)
Definition net_char (c : Z) : Prop := 46 <= c <= 57.

Lemma str_of_int_chars b : 0 <= b < 256 → Forall net_char (str_of_int b).
Proof.
  intros Hb. destruct (octet_str b Hb) as [Hp _]. unfold parse_octet in Hp.
  destruct (ascii_digits (str_of_int b)) eqn:Ed; [|done]. clear Hp.
  unfold ascii_digits in Ed. destruct (str_of_int b) as [|c l]; [done|].
  apply Forall_forall. intros x Hx. rewrite forallb_forall in Ed.
  apply list_elem_of_In in Hx. specialize (Ed x Hx). apply is_digit_range in Ed.
  unfold net_char. lia.
Qed.

Lemma join_chars (P : Z → Prop) c ws :
  P c → Forall (Forall P) ws → Forall P (join_with c ws).
Proof.
  intros Hc. induction ws as [|w ws IH]; intros Hall; [done|].
  apply Forall_cons in Hall as [Hw Hws]. destruct ws as [|w' ws]; [done|].
  change (join_with c (w :: w' :: ws)) with (w ++ c :: join_with c (w' :: ws)).
  apply Forall_app. split; [done|]. constructor; auto.
Qed.

Lemma str_of_net_chars n : net_wf n → Forall net_char (str_of_net n).
Proof.
  intros (Hp & Ha & _). unfold str_of_net, string_from_ip_int. apply Forall_app. split.
  - apply join_chars; [unfold net_char; lia|]. apply Forall_fmap.
    eapply Forall_impl; [by apply to_bytes_range|]. apply str_of_int_chars.
  - constructor; [unfold net_char; lia|]. apply str_of_int_chars. lia.
Qed.

Lemma str_of_net_slash n : 47 ∈ str_of_net n.
Proof. unfold str_of_net. rewrite elem_of_app. right. left. Qed.

Lemma utf8_decode_ascii s : Forall (fun c => 0 <= c <= 127) s → utf8_decode s = Some s.
Proof.
  induction s as [|c s IH]; [done|]. intros [Hc Hs]%Forall_cons. simpl.
  rewrite (proj2 (Z.leb_le c 127)) by lia. by rewrite IH.
Qed.

Lemma utf8_sig_decode_ascii s :
  Forall (fun c => 0 <= c <= 127) s → utf8_sig_decode s = Some s.
Proof.
  intros Hs. rewrite <- (utf8_decode_ascii s Hs). unfold utf8_sig_decode.
  destruct s as [|c s]; [done|]. apply Forall_cons in Hs as [Hc _].
  repeat (case_match; try done); lia.
Qed.

(** Line splitting inverts joining with newlines. *)
Lemma splitlines_word cur w s :
  Forall (fun c => is_linebreak c = false) w →
  splitlines_aux cur (w ++ s) = splitlines_aux (reverse w ++ cur) s.
Proof.
  revert cur. induction w as [|c w IH]; intros cur Hw; [done|].
  apply Forall_cons in Hw as [Hc Hw]. simpl. rewrite Hc, IH by done.
  by rewrite reverse_cons, <- app_assoc.
Qed.

Lemma splitlines_join ws :
  Forall (fun w => w ≠ [] ∧ Forall (fun c => is_linebreak c = false) w) ws →
  splitlines (join_with 10 ws) = ws.
Proof.
  unfold splitlines. induction ws as [|w ws IH]; [done|].
  intros [[Hne Hw] Hws]%Forall_cons. destruct ws as [|w' ws].
  - simpl. rewrite <- (app_nil_r w) at 1. rewrite splitlines_word by done. simpl.
    rewrite app_nil_r, reverse_involutive. destruct (reverse w) eqn:E; [|done].
    by apply (f_equal reverse) in E; rewrite reverse_involutive in E.
  - change (join_with 10 (w :: w' :: ws)) with (w ++ 10 :: join_with 10 (w' :: ws)).
    rewrite splitlines_word by done. rewrite app_nil_r.
    change (splitlines_aux (reverse w) (10 :: join_with 10 (w' :: ws))) with
      (reverse (reverse w) :: splitlines_aux [] (join_with 10 (w' :: ws))).
    by rewrite reverse_involutive, IH.
Qed.

Lemma find_char_none c s : Forall (fun x => x ≠ c) s → find_char c s = None.
Proof.
  induction s as [|x s IH]; [done|]. intros [Hx Hs]%Forall_cons. simpl.
  rewrite (proj2 (Z.eqb_neq x c)) by done. by rewrite IH.
Qed.

Lemma net_line n :
  net_wf n → strip (_strip_comment (str_of_net n)) = str_of_net n.
Proof.
  intros Hwf. pose proof (str_of_net_chars n Hwf) as Hc.
  unfold _strip_comment. rewrite !find_char_none, firstn_all.
  2,3: eapply Forall_impl; [exact Hc|]; unfold net_char; simpl; lia.
  assert (∀ s, Forall net_char s → lstrip s = s) as Hl.
  { intros s Hs. apply lstrip_id. intros c Hh. destruct s as [|x s]; [done|].
    injection Hh as ->. apply Forall_cons in Hs as [Hx _]. unfold net_char in Hx.
    unfold is_space. lia. }
  unfold strip, rstrip. rewrite (Hl (str_of_net n)) by done.
  rewrite Hl by (by apply Forall_reverse). apply reverse_involutive.
Qed.

Lemma net_normalize n :
  net_wf n → prefixlen n ≠ 0 → _normalize_cidr (str_of_net n) = inr n.
Proof.
  intros Hwf Hp. unfold _normalize_cidr.
  rewrite (bool_decide_true (47 ∈ str_of_net n)) by apply str_of_net_slash. simpl.
  rewrite (CidrSpec.parse_printed n Hwf). by rewrite (proj2 (Z.eqb_neq _ _)).
Qed.

(** ** The parse loop *)

Definition nonblank (line : pystr) : bool :=
  match strip (_strip_comment line) with [] => false | _ => true end.

(** What a numbered line contributes: a network, or a diagnostic, or nothing. *)
Definition line_network (line : nat * pystr) : option ipv4net :=
  if nonblank line.2 then
    match _normalize_cidr (strip (_strip_comment line.2)) with inr n => Some n | inl _ => None end
  else None.

Definition line_error (line : nat * pystr) : option (option nat * string) :=
  if nonblank line.2 then
    match _normalize_cidr (strip (_strip_comment line.2)) with
    | inl e => Some (Some line.1, cidr_error_msg e)
    | inr _ => None
    end
  else None.

Definition numbered (lines : list pystr) : list (nat * pystr) :=
  zip (seq 1 (length lines)) lines.

(** The elements of a list at their first occurrence, in order. *)
Definition firsts (ns : list ipv4net) : list ipv4net := reverse (remove_dups (reverse ns)).

Lemma firsts_snoc ns n :
  firsts (ns ++ [n]) = if bool_decide (n ∈ firsts ns) then firsts ns else firsts ns ++ [n].
Proof.
  unfold firsts. rewrite reverse_app. simpl.
  destruct (decide_rel elem_of n (reverse ns)) as [H|H];
    [rewrite bool_decide_true|rewrite bool_decide_false, reverse_cons]; try done;
    by rewrite elem_of_reverse, elem_of_remove_dups.
Qed.

Lemma firsts_NoDup ns : NoDup (firsts ns).
Proof. unfold firsts. rewrite reverse_Permutation. apply NoDup_remove_dups. Qed.

Lemma elem_of_firsts n ns : n ∈ firsts ns ↔ n ∈ ns.
Proof. unfold firsts. by rewrite elem_of_reverse, elem_of_remove_dups, elem_of_reverse. Qed.

Lemma length_firsts ns : (length (firsts ns) <= length ns)%nat.
Proof.
  induction ns as [|n ns IH] using rev_ind; [done|].
  rewrite firsts_snoc, length_app. simpl. case_bool_decide; rewrite ?length_app; simpl; lia.
Qed.

(** The state of the loop after lines with networks [ok] and diagnostics [bad]. *)
Definition state_of (ok : list ipv4net) (bad : list (option nat * string)) : parse_state :=
  mkParseState (firsts ok) (take MAX_INVALID_LINE_DIAGNOSTICS bad) (length bad)
    (length ok - length (firsts ok)).

Lemma take_snoc_counted {A} (k : nat) (l : list A) x :
  take k (l ++ [x]) =
  if (length (take k l) <? k)%nat then take k l ++ [x] else take k l.
Proof.
  rewrite length_take. destruct (Nat.ltb_spec (k `min` length l) k).
  - rewrite !take_ge; [done|lia|rewrite length_app; simpl; lia].
  - rewrite take_app_le by lia. done.
Qed.

Lemma parse_step_state ok bad line :
  parse_step (state_of ok bad) line =
  state_of (ok ++ option_list (line_network line)) (bad ++ option_list (line_error line)).
Proof.
  destruct line as [k l]. unfold parse_step, line_network, line_error, nonblank.
  simpl fst. simpl snd.
  destruct (strip (_strip_comment l)) as [|c v]; [by rewrite !app_nil_r|].
  unfold state_of. destruct (_normalize_cidr (c :: v)) as [e|n]; cbn [option_list option_rect];
    rewrite app_nil_r;
    cbn [ps_cidrs ps_diagnostics ps_invalid ps_duplicate].
  - rewrite take_snoc_counted, length_app, Nat.add_1_r. done.
  - rewrite firsts_snoc, length_app. pose proof (length_firsts ok).
    case_bool_decide; f_equal; rewrite ?length_app; cbn [length]; lia.
Qed.

Lemma parse_lines_state lines :
  parse_lines lines =
  state_of (omap line_network (numbered lines)) (omap line_error (numbered lines)).
Proof.
  unfold parse_lines. fold (numbered lines).
  assert (∀ ls ok bad, foldl parse_step (state_of ok bad) ls =
    state_of (ok ++ omap line_network ls) (bad ++ omap line_error ls)) as H.
  { induction ls as [|l ls IH]; intros ok bad; simpl; [by rewrite !app_nil_r|].
    rewrite parse_step_state, IH, <- !app_assoc.
    by destruct (line_network l), (line_error l). }
  apply (H (numbered lines) [] []).
Qed.

Lemma line_network_wf line n :
  line_network line = Some n → net_wf n ∧ prefixlen n ≠ 0.
Proof.
  unfold line_network, _normalize_cidr. intros H. repeat case_match; simplify_eq;
    (split; [by eapply CidrSpec.parse_ipv4_cidr_wf|lia]).
Qed.

(** Printed networks, all new, are appended one by one. *)
Lemma parse_printed_lines ns acc k :
  NoDup (acc ++ ns) → Forall (fun n => net_wf n ∧ prefixlen n ≠ 0) ns →
  foldl parse_step (mkParseState acc [] 0 0) (zip (seq k (length ns)) (str_of_net <$> ns)) =
  mkParseState (acc ++ ns) [] 0 0.
Proof.
  revert acc k. induction ns as [|n ns IH]; intros acc k Hnd Hall; simpl.
  { by rewrite app_nil_r. }
  apply Forall_cons in Hall as [[Hwf Hp] Hall].
  assert (n ∉ acc) as Hnew.
  { apply NoDup_app in Hnd as (_ & Hdis & _). intros Hin. apply (Hdis n Hin). left. }
  rewrite net_line by done. destruct (str_of_net n) as [|c v] eqn:Es.
  { pose proof (str_of_net_slash n) as Hs. rewrite Es in Hs. by apply not_elem_of_nil in Hs. }
  rewrite <- Es, net_normalize by done. simpl.
  rewrite bool_decide_false by done.
  rewrite IH; [by rewrite <- app_assoc| |done].
  by rewrite <- app_assoc.
Qed.

Lemma parse_lines_wf lines :
  Forall (fun n => net_wf n ∧ prefixlen n ≠ 0) (ps_cidrs (parse_lines lines)).
Proof.
  rewrite parse_lines_state. cbn [ps_cidrs state_of].
  apply Forall_forall. intros n Hn. rewrite elem_of_firsts in Hn.
  apply list_elem_of_omap in Hn as (line & _ & Hl). by eapply line_network_wf.
Qed.

Module FeedParserSpec.

(** C38: whatever the bytes of a feed, a body that is not UTF-8 fails with the one
    diagnostic that says so; otherwise the accepted networks are those of the
    valid lines at their first occurrence, in order, canonical and never /0;
    every further occurrence counts as a duplicate, and only as one; the invalid
    lines are counted, and the first 20 of them reported with their numbers;
    blank lines and comments count nowhere; and the outcome is failed exactly
    when nothing was accepted and partial exactly when something was and some
    line was invalid. *)
Theorem parse_line_list_spec data :
  let r := parse_line_list data in
  match utf8_sig_decode data with
  | None =>
      cidrs r = [] ∧ invalid_count r = 0%nat ∧ duplicate_count r = 0%nat ∧
      invalid_line_diagnostics r = [(None, "Feed is not valid UTF-8"%string)] ∧
      outcome r = parse_failed
  | Some text =>
      let ok := omap line_network (numbered (splitlines text)) in
      let bad := omap line_error (numbered (splitlines text)) in
      physical_line_count r = length (splitlines text) ∧
      cidrs r = firsts ok ∧ NoDup (cidrs r) ∧
      Forall (fun n => net_wf n ∧ prefixlen n ≠ 0) (cidrs r) ∧
      (valid_distinct_count r + duplicate_count r = length ok)%nat ∧
      invalid_count r = length bad ∧
      invalid_line_diagnostics r = take 20 bad ∧
      (outcome r = parse_failed ↔ cidrs r = []) ∧
      (outcome r = parse_partial ↔ cidrs r ≠ [] ∧ bad ≠ [])
  end.
Proof.
  unfold parse_line_list. destruct (utf8_sig_decode data) as [text|]; [|done].
  cbv zeta. pose proof (parse_lines_wf (splitlines text)) as Hwf.
  rewrite parse_lines_state in *. revert Hwf.
  set (ok := omap line_network _). set (bad := omap line_error _).
  unfold valid_distinct_count, state_of.
  cbn [physical_line_count cidrs invalid_count duplicate_count invalid_line_diagnostics outcome
       ps_cidrs ps_diagnostics ps_invalid ps_duplicate].
  intros Hwf. split_and!; try done; unfold _outcome.
  - apply firsts_NoDup.
  - pose proof (length_firsts ok). lia.
  - destruct (firsts ok); simpl; [done|]. by case_match.
  - destruct (firsts ok), bad; simpl; naive_solver.
Qed.

(** Two accepted lines, a comment, a duplicate and an invalid line. *)
Definition mixed_feed : list Z :=
  py "10.0.0.1 # ok" ++ [10] ++ py "; nothing" ++ [10] ++ py "10.0.0.1/32" ++ [10] ++
  py "bogus" ++ [10] ++ py "192.168.0.0/16".

Lemma parse_line_list_spec_witness :
  let r := parse_line_list mixed_feed in
  physical_line_count r = 5%nat ∧ cidrs r = [Net 167772161 32; Net 3232235520 16] ∧
  invalid_count r = 1%nat ∧ duplicate_count r = 1%nat ∧
  (invalid_line_diagnostics r).*1 = [Some 4%nat] ∧ outcome r = parse_partial ∧
  outcome (parse_line_list [255; 254]) = parse_failed ∧
  cidrs r = firsts (omap line_network (numbered (splitlines mixed_feed))).
Proof.
  cbv zeta. do 7 (split; [vm_compute; reflexivity|]).
  exact (proj1 (proj2 (parse_line_list_spec mixed_feed))).
Defined.

(** Writing a list of distinct networks one per line and parsing it gives
    the list back with outcome success and no line counted invalid or
    duplicate. *)
Theorem parse_line_list_roundtrip ns
    (Hne : ns ≠ []) (Hnd : NoDup ns)
    (Hall : Forall (fun n => net_wf n ∧ prefixlen n ≠ 0) ns) :
  parse_line_list (join_with 10 (str_of_net <$> ns)) =
  mkParseResult (length ns) ns 0 0 [] parse_success.
Proof.
  assert (Forall (Forall net_char) (str_of_net <$> ns)) as Hchars.
  { apply Forall_fmap. eapply Forall_impl; [exact Hall|]. intros n [Hwf _].
    by apply str_of_net_chars. }
  unfold parse_line_list. rewrite utf8_sig_decode_ascii.
  2: { apply join_chars; [lia|]. eapply Forall_impl; [exact Hchars|]. intros w Hw.
       eapply Forall_impl; [exact Hw|]. unfold net_char. simpl. lia. }
  rewrite splitlines_join.
  2: { apply Forall_fmap, Forall_forall. intros n Hn. split.
       - intros E. pose proof (str_of_net_slash n) as Hs. simpl in E. rewrite E in Hs.
         by apply not_elem_of_nil in Hs.
       - rewrite Forall_fmap, Forall_forall in Hchars. eapply Forall_impl; [by apply Hchars|].
         unfold net_char, is_linebreak. simpl. lia. }
  unfold parse_lines. rewrite length_fmap, (parse_printed_lines ns []) by done. simpl.
  by destruct ns.
Qed.

Lemma parse_line_list_roundtrip_witness :
  parse_line_list (join_with 10 (str_of_net <$> [Net 167772160 8; Net 3232235520 16])) =
  mkParseResult 2 [Net 167772160 8; Net 3232235520 16] 0 0 [] parse_success.
Proof.
  apply (parse_line_list_roundtrip [Net 167772160 8; Net 3232235520 16]);
    [done|by_compute|by_compute].
Defined.

End FeedParserSpec.
