(* ===== verification/FeedReconcile.v ===== *)
(** * Threat-feed reconciliation and the global deny set ([services/feed_reconcile.py])

    The global deny set is the union of manual entries and of the entries some
    feed source asserts.  Reconciling a source replaces its assertions, drops
    feed entries nobody asserts any more, and advances the desired revision when
    the digest of the set changed.

    [hashlib.sha256(...).hexdigest()] is the parameter [sha256].  Text columns
    sort by code point (the "C" collation); [cidr] columns sort by address and
    then by prefix length. *)

From S2P Require Import Prelude PyStr Ipaddress Models Db FeedParser.
Open Scope Z_scope.

Definition MAX_GLOBAL_DENY_ENTRIES : Z := 1048576.
Definition CANDIDATE_BATCH_SIZE : nat := Z.to_nat 1000.
Definition OVERLAP_AUDIT_SAMPLE_LIMIT : nat := 20.
Definition _OVERLAP_AUDIT_ACTION : string := "feed.sync.overlap".

Record ReconcileResult := mkReconcileResult {
  rr_valid : Z;
  rr_added : Z;
  rr_removed : Z;
  rr_overlap_count : Z;
  rr_global_changed : bool;
  rr_desired_revision : option Z;
  rr_noop : bool
}.

Record MaterializeResult := mkMaterializeResult {
  mr_cidrs : list ipv4net;
  mr_digest : string;
  mr_changed : bool;
  mr_desired_revision : Z
}.

Record GlobalDenySnapshot := mkGlobalDenySnapshot {
  gsnap_revision : Z;
  gsnap_digest : string;
  gsnap_cidrs : list ipv4net
}.

(** ** Queries *)

Definition is_global (e : BlacklistEntry) : bool := bool_decide (bl_scope e = scope_global).
Definition is_feed_entry (e : BlacklistEntry) : bool := bool_decide (bl_source e = source_feed).

(** PostgreSQL's order on [cidr] values without host bits. *)
Definition cidr_key (n : ipv4net) : Z := network_address n * 64 + prefixlen n.

Definition global_entries (d : Db) : list BlacklistEntry :=
  select_where is_global (blacklist_entry d).

Definition _global_cidrs (d : Db) : list ipv4net :=
  order_by cidr_key (bl_source_cidr <$> global_entries d).

(** [ORDER BY cidr::text]. *)
Definition text_le (a b : ipv4net) : Prop := lex_ge str_of_net b a.
#[global] Instance text_le_dec : RelDecision text_le.
Proof. intros a b. unfold text_le. apply _. Defined.
Definition order_by_text (l : list ipv4net) : list ipv4net := merge_sort text_le l.

Definition entry_with_cidr (d : Db) (c : ipv4net) : list BlacklistEntry :=
  select_where (fun e => is_global e && bool_decide (bl_source_cidr e = c)) (blacklist_entry d).

(** The rows of [feed_blacklist_assertion] joined with their entry. *)
Definition assertions (d : Db) : list (uuid * BlacklistEntry) :=
  omap (fun kv => (fun e => (kv.1.1, e)) <$> blacklist_entry d !! kv.1.2)
    (map_to_list (feed_blacklist_assertion d)).

Definition asserts (d : Db) (source_id : uuid) (c : ipv4net) : bool :=
  existsb (fun se => bool_decide (se.1 = source_id) && is_global se.2 &&
                     bool_decide (bl_source_cidr se.2 = c)) (assertions d).

Definition _source_delta_counts (d : Db) (source_id : uuid) (candidates : list ipv4net)
    : Z * Z :=
  (Z.of_nat (length (filter (fun c => asserts d source_id c = false) candidates)),
   Z.of_nat (length (filter (fun se => se.1 = source_id ∧ is_global se.2 = true ∧
                                       bl_source_cidr se.2 ∉ candidates) (assertions d)))).

(** [candidate JOIN whitelist_entry ON candidate && whitelist], ordered by
    candidate and whitelist id. *)
Definition overlap_rows (d : Db) (candidates : list ipv4net) : list (ipv4net * WhitelistEntry) :=
  c ← order_by cidr_key candidates;
  (fun w => (c, w)) <$>
    order_by (fun w => Z.pos (wl_id w))
      (select_where (fun w => cidr_overlap c (wl_source_cidr w)) (whitelist_entry d)).

Definition _overlap_count (d : Db) (candidates : list ipv4net) : Z :=
  Z.of_nat (length (overlap_rows d candidates)).

Definition asserted_by (d : Db) (p : uuid → bool) (entry_id : uuid) : bool :=
  existsb (fun kv => p kv.1.1 && bool_decide (kv.1.2 = entry_id))
    (map_to_list (feed_blacklist_assertion d)).

Definition _prospective_global_cidrs (d : Db) (source_id : uuid) (candidates : list ipv4net)
    : list ipv4net :=
  let kept := bl_source_cidr <$>
    filter (fun e =>
      negb (is_feed_entry e &&
            (asserted_by d (fun s => bool_decide (s = source_id)) (bl_id e) &&
             negb (bool_decide (bl_source_cidr e ∈ candidates))) &&
            negb (asserted_by d (fun s => negb (bool_decide (s = source_id))) (bl_id e)))
      = true) (global_entries d) in
  order_by_text (remove_dups (kept ++ candidates)).

(** [range(0, len(l), n)] slices. *)
Fixpoint batches_fuel {A} (fuel : nat) (n : nat) (l : list A) : list (list A) :=
  match fuel, l with
  | _, [] => []
  | O, _ => []
  | S fuel, _ => take n l :: batches_fuel fuel n (drop n l)
  end.
Definition _batches {A} (l : list A) : list (list A) :=
  batches_fuel (length l) CANDIDATE_BATCH_SIZE l.

(** The temporary candidate table: duplicates are dropped on insert. *)
Definition _load_candidates (cidrs : list ipv4net) : list ipv4net :=
  foldl (fun t batch => foldl (fun t c => if bool_decide (c ∈ t) then t else t ++ [c]) t batch)
    [] (_batches cidrs).

(** ** Writes *)

Definition _locked_source (source_id : uuid) : M Session (option ThreatFeedSource) :=
  sources ← get_db threat_feed_source;
  mret (sources !! source_id).

Definition initial_deny_state : GlobalDenyState :=
  mkGlobalDenyState 0 0 None None ApplyStatus.pending None None.

Definition _locked_global_state (create : bool) : M Session (option GlobalDenyState) :=
  st ← get_db global_deny_state;
  match st, create with
  | None, true =>
      mod_db (fun d => d <| global_deny_state := Some initial_deny_state |>) ;;
      mret (Some initial_deny_state)
  | _, _ => mret st
  end.

Definition insert_feed_entry (now : timestamp) (c : ipv4net) : M Session unit :=
  id ← uuid4;
  d ← get_db (fun d => d);
  match entry_with_cidr d c with
  | [] =>
      check_pkey blacklist_entry id "blacklist_entry_pkey" ;;
      mod_db (fun d => d <| blacklist_entry :=
        <[id := mkBlacklistEntry id scope_global source_feed c None now]>
          (blacklist_entry d) |>)
  | _ => mret tt
  end.

Definition _upsert_feed_entries (cidrs : list ipv4net) (now : timestamp) : M Session unit :=
  for_each (fun batch => for_each (insert_feed_entry now) batch) (_batches cidrs).

(** The DELETE of [_replace_source_assertions]. *)
Definition stale_assertion (d : Db) (source_id : uuid) (candidates : list ipv4net)
    (key : uuid * uuid) : bool :=
  bool_decide (key.1 = source_id) &&
  match blacklist_entry d !! key.2 with
  | Some e => is_global e && negb (bool_decide (bl_source_cidr e ∈ candidates))
  | None => false
  end.
Definition drop_assertions (source_id : uuid) (candidates : list ipv4net) (d : Db) : Db :=
  d <| feed_blacklist_assertion :=
    filter (fun kv => stale_assertion d source_id candidates kv.1 = false)
      (feed_blacklist_assertion d) |>.

Definition upsert_assertion (source_id entry_id : uuid) (now : timestamp)
    (t : gmap (uuid * uuid) FeedBlacklistAssertion) : gmap (uuid * uuid) FeedBlacklistAssertion :=
  <[(source_id, entry_id) :=
      match t !! (source_id, entry_id) with
      | Some a => mkFeedBlacklistAssertion (assertion_first_seen_at a) now
      | None => mkFeedBlacklistAssertion now now
      end]> t.

(** The INSERT ... SELECT ... ON CONFLICT DO UPDATE. *)
Definition add_assertions (source_id : uuid) (candidates : list ipv4net) (now : timestamp)
    (d : Db) : Db :=
  d <| feed_blacklist_assertion :=
    foldr (fun e t => upsert_assertion source_id (bl_id e) now t) (feed_blacklist_assertion d)
      (filter (fun e => bl_source_cidr e ∈ candidates) (global_entries d)) |>.

Definition _replace_source_assertions (source_id : uuid) (candidates : list ipv4net)
    (now : timestamp) : M Session unit :=
  mod_db (drop_assertions source_id candidates) ;;
  mod_db (add_assertions source_id candidates now).

Definition _delete_orphaned_feed_entries : M Session unit :=
  mod_db (fun d => d <| blacklist_entry :=
    filter (fun kv => negb (is_global kv.2 && is_feed_entry kv.2 &&
                            negb (asserted_by d (fun _ => true) (bl_id kv.2))) = true)
      (blacklist_entry d) |>).

Definition _enforce_capacity (cidrs : list ipv4net) : exn + unit :=
  if MAX_GLOBAL_DENY_ENTRIES <? Z.of_nat (length cidrs) then inl GlobalDenyLimitError else inr tt.

Definition insert_overlap (run_id : uuid) (row : ipv4net * WhitelistEntry) : M Session unit :=
  uuid4 ;;
  mod_db (fun d =>
    if existsb (fun o => bool_decide (overlap_feed_sync_run_id o = run_id) &&
                         bool_decide (overlap_feed_source_cidr o = row.1) &&
                         bool_decide (overlap_whitelist_entry_id o = wl_id row.2))
         (feed_sync_overlap d)
    then d
    else d <| feed_sync_overlap := feed_sync_overlap d ++
           [mkFeedSyncOverlap run_id row.1 (wl_id row.2) (wl_service_id row.2)] |>).

Definition _persist_overlaps (run_id : uuid) (candidates : list ipv4net) (overlap_count : Z)
    : M Session unit :=
  if overlap_count =? 0 then mret tt else
  rows ← get_db (fun d => overlap_rows d candidates);
  for_each (fun part => for_each (insert_overlap run_id) part) (_batches rows).

Definition _record_overlap_summary (source_id run_id : uuid) (candidates : list ipv4net)
    (overlap_count : Z) : M Session unit :=
  events ← get_db audit_events;
  if existsb (fun e => bool_decide (audit_action e = _OVERLAP_AUDIT_ACTION) &&
                       bool_decide (audit_target_type e = Some "feed_sync_run"%string) &&
                       bool_decide (audit_target_id e = Some (uuid_str run_id))) events
  then mret tt else
  rows ← get_db (fun d => take OVERLAP_AUDIT_SAMPLE_LIMIT (overlap_rows d candidates));
  record_event None _OVERLAP_AUDIT_ACTION (Some "feed_sync_run"%string)
    (Some (uuid_str run_id)) "warning" None
    (Some [("source_id"%string, JStr (uuid_str source_id));
           ("overlap_count"%string, JInt overlap_count);
           ("samples"%string, JList ((fun row : ipv4net * WhitelistEntry =>
              JObj [("feed_cidr"%string, JStr (cidr_str row.1));
                    ("whitelist_entry_id"%string, JStr (uuid_str (wl_id row.2)));
                    ("service_id"%string, JStr (uuid_str (wl_service_id row.2)))]) <$> rows))]).

Definition _store_run_stats (run_id_ : uuid) (parsed : ParseResult)
    (added removed overlap_count : Z) (global_changed : bool) (desired_revision : option Z)
    : M Session unit :=
  mod_db (fun d => d <| feed_sync_run := alter (fun run =>
    run <| run_valid := Z.of_nat (valid_distinct_count parsed) |>
        <| run_duplicates := Z.of_nat (duplicate_count parsed) |>
        <| run_skipped_invalid := Z.of_nat (invalid_count parsed) |>
        <| run_added := added |> <| run_removed := removed |>
        <| run_overlap_count := overlap_count |>
        <| run_global_changed := global_changed |>
        <| run_desired_revision := desired_revision |>) run_id_ (feed_sync_run d) |>).

Section digest.
Context (sha256 : pystr → string).

Definition _digest (cidrs : list ipv4net) : string :=
  sha256 (join_with 10 (str_of_net <$> cidrs)).

Definition _materialize_locked (state : GlobalDenyState) (cidrs : list ipv4net)
    : M Session MaterializeResult :=
  let digest := _digest cidrs in
  if bool_decide (gds_desired_digest state = Some digest) then
    mret (mkMaterializeResult cidrs digest false (gds_desired_revision state))
  else
    let state := state <| gds_desired_digest := Some digest |>
                       <| gds_desired_revision := gds_desired_revision state + 1 |>
                       <| gds_apply_status := ApplyStatus.pending |> in
    mod_db (fun d => d <| global_deny_state := Some state |>) ;;
    mret (mkMaterializeResult cidrs digest true (gds_desired_revision state)).

Definition materialize_global_union : M Session MaterializeResult :=
  st ← _locked_global_state true;
  state ← get_or_raise st (RuntimeError "Global deny state was not initialized");
  cidrs ← get_db _global_cidrs;
  lift (_enforce_capacity cidrs) ;;
  _materialize_locked state cidrs.

Definition load_global_snapshot (expected_revision : Z) : M Session GlobalDenySnapshot :=
  st ← _locked_global_state false;
  match st with
  | Some state =>
      if gds_desired_revision state =? expected_revision then
        cidrs ← get_db _global_cidrs;
        let digest := _digest cidrs in
        if bool_decide (gds_desired_digest state = Some digest)
        then mret (mkGlobalDenySnapshot (gds_desired_revision state) digest cidrs)
        else raise (GlobalDenyRevisionMismatch
               "Global deny rows no longer match the desired revision")
      else raise (GlobalDenyRevisionMismatch
             "Global deny revision no longer matches the requested snapshot")
  | None => raise (GlobalDenyRevisionMismatch
              "Global deny revision no longer matches the requested snapshot")
  end.

Definition noop_result : ReconcileResult := mkReconcileResult 0 0 0 0 false None true.

Definition reconcile (run : FeedSyncRun) (parsed : ParseResult) : M Session ReconcileResult :=
  source ← _locked_source (run_feed_source_id run);
  match source with
  | None => mret noop_result
  | Some source =>
    if bool_decide (is_Some (feed_deleted_at source)) &&
       negb (bool_decide (run_trigger run = ChangeTrigger.feed_delete))
    then mret noop_result else
    state ← _locked_global_state (negb (run_dry_run run));
    let candidates := _load_candidates (cidrs parsed) in
    delta ← get_db (fun d => _source_delta_counts d (feed_id source) candidates);
    let '(added, removed) := delta in
    overlap_count ← get_db (fun d => _overlap_count d candidates);
    before_cidrs ← get_db _global_cidrs;
    if run_dry_run run then
      effective ← get_db (fun d => _prospective_global_cidrs d (feed_id source) candidates);
      lift (_enforce_capacity effective) ;;
      let changed := negb (bool_decide (_digest before_cidrs = _digest effective)) in
      _store_run_stats (run_id run) parsed added removed overlap_count changed None ;;
      mret (mkReconcileResult (Z.of_nat (valid_distinct_count parsed)) added removed
              overlap_count changed None false)
    else
      state ← get_or_raise state (RuntimeError "Global deny state was not initialized");
      now ← utc_now;
      _upsert_feed_entries (cidrs parsed) now ;;
      _replace_source_assertions (feed_id source) candidates now ;;
      _delete_orphaned_feed_entries ;;
      effective ← get_db _global_cidrs;
      lift (_enforce_capacity effective) ;;
      materialized ← _materialize_locked state effective;
      let global_changed :=
        negb (bool_decide (_digest before_cidrs = mr_digest materialized)) in
      _persist_overlaps (run_id run) candidates overlap_count ;;
      (if overlap_count =? 0 then mret tt
       else _record_overlap_summary (feed_id source) (run_id run) candidates overlap_count) ;;
      let desired_revision :=
        if mr_changed materialized then Some (mr_desired_revision materialized) else None in
      _store_run_stats (run_id run) parsed added removed overlap_count global_changed
        desired_revision ;;
      mret (mkReconcileResult (Z.of_nat (valid_distinct_count parsed)) added removed
              overlap_count global_changed desired_revision false)
  end.
End digest.
