(* ===== verification/FeedInv.v ===== *)
(** * What feed reconciliation does to the global deny set

    [bl_ok] is the integrity of the blacklist and its assertions, [deny_ok] adds
    what every commit keeps: feed entries are asserted by some source, and the
    desired digest is the digest of the rows. *)

From S2P Require Import Prelude PyStr Ipaddress Models Db FeedParser.
From S2P Require Import FeedReconcile.
Open Scope Z_scope.

Record bl_ok (d : Db) : Prop := {
  bl_key : ∀ i e, blacklist_entry d !! i = Some e → bl_id e = i;
  bl_unique : ∀ i e i' e', blacklist_entry d !! i = Some e → blacklist_entry d !! i' = Some e' →
      is_global e = true → is_global e' = true → bl_source_cidr e = bl_source_cidr e' → i = i';
  bl_wf : ∀ i e, blacklist_entry d !! i = Some e → net_wf (bl_source_cidr e);
  bl_assertion : ∀ s i a, feed_blacklist_assertion d !! (s, i) = Some a →
      ∃ e, blacklist_entry d !! i = Some e ∧ is_global e = true
}.

(** ** The queries as statements *)

Lemma asserted_by_iff d p i :
  asserted_by d p i = true ↔ ∃ s, p s = true ∧ is_Some (feed_blacklist_assertion d !! (s, i)).
Proof.
  unfold asserted_by. rewrite existsb_exists. split.
  - intros ([[s j] a] & Hin%list_elem_of_In%elem_of_map_to_list & [Hp Hi]%andb_true_iff).
    simpl in *. apply bool_decide_eq_true in Hi as ->. by exists s.
  - intros (s & Hp & [a Ha]). exists ((s, i), a). split.
    + by apply list_elem_of_In, elem_of_map_to_list.
    + simpl. by rewrite Hp, bool_decide_true.
Qed.

Lemma elem_of_assertions d s e :
  (s, e) ∈ assertions d ↔
  ∃ i, is_Some (feed_blacklist_assertion d !! (s, i)) ∧ blacklist_entry d !! i = Some e.
Proof.
  unfold assertions. rewrite list_elem_of_omap. split.
  - intros ([[s' i] a] & Hin%elem_of_map_to_list & He). simpl in He.
    destruct (blacklist_entry d !! i) as [e'|] eqn:Ei; [|done]. simpl in He.
    injection He as -> ->. eauto.
  - intros (i & [a Ha] & Hi). exists ((s, i), a). split; [by apply elem_of_map_to_list|].
    simpl. by rewrite Hi.
Qed.

Lemma asserts_iff d s c :
  asserts d s c = true ↔
  ∃ i e, is_Some (feed_blacklist_assertion d !! (s, i)) ∧ blacklist_entry d !! i = Some e ∧
         is_global e = true ∧ bl_source_cidr e = c.
Proof.
  unfold asserts. rewrite existsb_exists. split.
  - intros ([s' e] & Hin%list_elem_of_In & H). rewrite !andb_true_iff in H.
    destruct H as [[Hs Hg] Hc]. simpl in *.
    apply bool_decide_eq_true in Hs as ->. apply bool_decide_eq_true in Hc.
    apply elem_of_assertions in Hin as (i & ? & ?). eauto 6.
  - intros (i & e & Ha & Hi & Hg & Hc). exists (s, e). split.
    + apply list_elem_of_In, elem_of_assertions. eauto.
    + simpl. rewrite Hg, !bool_decide_true by done. done.
Qed.

Lemma entry_with_cidr_nil d c :
  entry_with_cidr d c = [] ↔
  ∀ i e, blacklist_entry d !! i = Some e → is_global e = true → bl_source_cidr e ≠ c.
Proof.
  unfold entry_with_cidr. rewrite select_where_nil. split; intros H i e He; specialize (H i e He).
  - intros Hg Hc. by rewrite Hg, bool_decide_true in H.
  - destruct (is_global e); [|done]. by rewrite bool_decide_false by auto.
Qed.

Lemma elem_of_global_cidrs d c :
  c ∈ _global_cidrs d ↔
  ∃ i e, blacklist_entry d !! i = Some e ∧ is_global e = true ∧ bl_source_cidr e = c.
Proof.
  unfold _global_cidrs, global_entries. rewrite elem_of_order_by, list_elem_of_fmap.
  setoid_rewrite elem_of_select. naive_solver.
Qed.

Lemma global_cidrs_nodup d : bl_ok d → NoDup (_global_cidrs d).
Proof.
  intros Hbl. unfold _global_cidrs. rewrite order_by_perm. apply select_where_nodup.
  intros k r k' r' Hk Hk' Hg Hg' E. by eapply (bl_unique _ Hbl).
Qed.

Lemma elem_of_load_candidates l c : c ∈ _load_candidates l ↔ c ∈ l.
Proof.
  unfold _load_candidates.
  assert (∀ (b t : list ipv4net) x, x ∈ foldl (fun t c => if bool_decide (c ∈ t) then t else t ++ [c]) t b ↔
                   x ∈ t ∨ x ∈ b) as Hin.
  { induction b as [|y b IH]; intros t x; simpl; [set_solver|]. rewrite IH.
    case_bool_decide; set_solver. }
  assert (∀ fuel (l t : list ipv4net) x, (length l <= fuel)%nat →
    x ∈ foldl (fun t batch => foldl (fun t c => if bool_decide (c ∈ t) then t else t ++ [c]) t batch)
      t (batches_fuel fuel CANDIDATE_BATCH_SIZE l) ↔ x ∈ t ∨ x ∈ l) as H.
  { induction fuel as [|fuel IH]; intros l' t x Hlen.
    - destruct l'; simpl in *; [set_solver|lia].
    - destruct l' as [|y l']; [simpl; set_solver|].
      change (batches_fuel (S fuel) CANDIDATE_BATCH_SIZE (y :: l')) with
        (take CANDIDATE_BATCH_SIZE (y :: l') ::
         batches_fuel fuel CANDIDATE_BATCH_SIZE (drop CANDIDATE_BATCH_SIZE (y :: l'))).
      cbn [foldl]. rewrite IH, Hin.
      + assert (x ∈ y :: l' ↔ x ∈ take CANDIDATE_BATCH_SIZE (y :: l') ∨
                x ∈ drop CANDIDATE_BATCH_SIZE (y :: l')) as ->; [|tauto].
        by rewrite <- elem_of_app, take_drop.
      + rewrite length_drop. assert (1 <= CANDIDATE_BATCH_SIZE)%nat
          by (unfold CANDIDATE_BATCH_SIZE; lia). simpl in *. lia. }
  unfold _batches. rewrite (H _ l [] c) by lia. set_solver.
Qed.

Lemma batches_concat {A} (l : list A) : concat (_batches l) = l.
Proof.
  unfold _batches.
  assert (∀ fuel (l : list A), (length l <= fuel)%nat →
    concat (batches_fuel fuel CANDIDATE_BATCH_SIZE l) = l) as H.
  { induction fuel as [|fuel IH]; intros l' Hlen; [destruct l'; simpl in *; [done|lia]|].
    destruct l' as [|y l']; [done|].
    change (batches_fuel (S fuel) CANDIDATE_BATCH_SIZE (y :: l')) with
      (take CANDIDATE_BATCH_SIZE (y :: l') ::
       batches_fuel fuel CANDIDATE_BATCH_SIZE (drop CANDIDATE_BATCH_SIZE (y :: l'))).
    simpl concat. rewrite IH.
    - change (take CANDIDATE_BATCH_SIZE (y :: l') ++ drop CANDIDATE_BATCH_SIZE (y :: l') = y :: l').
      apply take_drop.
    - rewrite length_drop. assert (1 <= CANDIDATE_BATCH_SIZE)%nat
        by (unfold CANDIDATE_BATCH_SIZE; lia). simpl in *. lia. }
  by apply H.
Qed.

Lemma for_each_batches {A} (f : A → M Session unit) (l : list A) s :
  for_each (fun batch => for_each f batch) (_batches l) s = for_each f l s.
Proof.
  rewrite <- (batches_concat l) at 2. revert s. induction (_batches l) as [|b bs IH]; intros s;
    [done|]. simpl.
  assert (∀ xs ys s, for_each f (xs ++ ys) s = (for_each f xs ;; for_each f ys) s) as Happ.
  { induction xs as [|x xs IHx]; intros ys s'; [done|]. simpl. rewrite run_assoc, !bind_run.
    destruct (f x s') as [[e|a] s1]; [done|]. apply IHx. }
  rewrite Happ, !bind_run. destruct (for_each f b s) as [[e|a] s1]; [done|]. apply IH.
Qed.

(** ** Upserting the feed's entries *)

Record upserted (cs : list ipv4net) (d d' : Db) : Prop := {
  up_ok : bl_ok d';
  up_frame : ∃ u bl, d' = d <| uuid_supply := u |> <| blacklist_entry := bl |>;
  up_kept : ∀ i e, blacklist_entry d !! i = Some e → blacklist_entry d' !! i = Some e;
  up_new : ∀ i e, blacklist_entry d' !! i = Some e → blacklist_entry d !! i = Some e ∨
      (blacklist_entry d !! i = None ∧ is_global e = true ∧ is_feed_entry e = true ∧
       bl_source_cidr e ∈ cs);
  up_present : ∀ c, c ∈ cs → ∃ i e, blacklist_entry d' !! i = Some e ∧ is_global e = true ∧
      bl_source_cidr e = c
}.

Lemma upserted_nil d : bl_ok d → upserted [] d d.
Proof.
  intros Hok. split; [done|by exists (uuid_supply d), (blacklist_entry d); destruct d|done|auto|].
  by intros c ?%not_elem_of_nil.
Qed.

Lemma insert_entry_upserted now c s u s' :
  bl_ok (db s) → net_wf c → insert_feed_entry now c s = (inr u, s') → upserted [c] (db s) (db s').
Proof.
  intros Hok Hwf H. unfold insert_feed_entry, uuid4, get_db, mod_db in H. minv.
  destruct (entry_with_cidr _ _) as [|e0 l] eqn:Ee.
  - unfold check_pkey, get_db, mod_db in H. minv.
    match goal with H : bool_decide _ = true |- _ => apply bool_decide_eq_true in H as Hnew end.
    rewrite entry_with_cidr_nil in Ee. simpl in *. destruct Hok as [Hk Hu Hw Ha].
    set (e := mkBlacklistEntry _ _ _ _ _ _).
    split; cbn -[lookup insert].
    + split; cbn -[lookup insert].
      * intros i x [[<- <-]|[_ Hx]]%lookup_insert_Some; [done|eauto].
      * intros i x i' x' [[<- <-]|[Hn Hx]]%lookup_insert_Some
          [[<- <-]|[Hn' Hx']]%lookup_insert_Some Hg Hg' Hc; [done| | |eauto].
        -- by destruct (Ee i' x' Hx' Hg').
        -- by destruct (Ee i x Hx Hg).
      * intros i x [[<- <-]|[_ Hx]]%lookup_insert_Some; [done|eauto].
      * intros s1 i a1 H1. destruct (Ha s1 i a1 H1) as (x & Hx & Hg). exists x.
        rewrite lookup_insert_ne; [done|congruence].
    + by do 2 eexists.
    + intros i x Hx. rewrite lookup_insert_ne; [done|congruence].
    + intros i x [[<- <-]|[_ Hx]]%lookup_insert_Some; [right|by left].
      split_and!; try done. apply list_elem_of_singleton. done.
    + intros c' ->%list_elem_of_singleton. eexists _, e. rewrite lookup_insert_eq. done.
  - minv. destruct Hok as [Hk Hu Hw Ha]. split; cbn -[lookup]; try done.
    + by exists (Pos.succ (uuid_supply (db s))), (blacklist_entry (db s)).
    + auto.
    + intros c' ->%list_elem_of_singleton.
      assert (entry_with_cidr (db s) c = e0 :: l) as Ee' by exact Ee.
      assert (e0 ∈ entry_with_cidr (db s) c) as Hin by (rewrite Ee'; left).
      apply elem_of_select in Hin as ([Hg Hc]%andb_true_iff & i & Hi).
      apply bool_decide_eq_true in Hc. eauto.
Qed.

Lemma upserted_trans cs1 cs2 d1 d2 d3 :
  upserted cs1 d1 d2 → upserted cs2 d2 d3 → upserted (cs1 ++ cs2) d1 d3.
Proof.
  intros [O1 (u1 & b1 & E1) K1 N1 P1] [O2 (u2 & b2 & E2) K2 N2 P2]. split; [done|..].
  - exists u2, b2. by rewrite E2, E1.
  - eauto.
  - intros i e He. destruct (N2 i e He) as [He2|(Hn & Hg & Hf & Hc)].
    + destruct (N1 i e He2) as [?|(? & ? & ? & ?)]; [by left|right]. set_solver.
    + right. split_and!; [|done..|set_solver].
      destruct (blacklist_entry d1 !! i) as [x|] eqn:Ex; [|done].
      by rewrite (K1 i x Ex) in Hn.
  - intros c [Hc|Hc]%elem_of_app; [|by apply P2].
    destruct (P1 c Hc) as (i & e & He & ? & ?). eauto 6.
Qed.

Lemma upsert_entries_inr cs now s u s' :
  bl_ok (db s) → Forall net_wf cs → _upsert_feed_entries cs now s = (inr u, s') →
  upserted cs (db s) (db s').
Proof.
  unfold _upsert_feed_entries. rewrite for_each_batches. intros Hok Hwf H.
  assert (∀ cs s u s', bl_ok (db s) → Forall net_wf cs →
    for_each (insert_feed_entry now) cs s = (inr u, s') → upserted cs (db s) (db s')) as Hall.
  { clear. induction cs as [|c cs IH]; intros s u s' Hok Hwf H; simpl in H.
    - minv. by apply upserted_nil.
    - minv. apply Forall_cons in Hwf as [Hc Hcs].
      match goal with H : insert_feed_entry _ _ _ = _ |- _ =>
        apply insert_entry_upserted in H as Hup; [|done..] end.
      apply (upserted_trans [c] cs _ (db s0)); [done|]. eapply IH; [apply Hup|done..]. }
  by eapply Hall.
Qed.

(** ** Replacing a source's assertions *)

Definition asserted (d : Db) (s i : uuid) : Prop :=
  is_Some (feed_blacklist_assertion d !! (s, i)).

Lemma add_assertions_asserted src cands now d s i :
  bl_ok d →
  asserted (add_assertions src cands now d) s i ↔
  asserted d s i ∨
  (s = src ∧ ∃ e, blacklist_entry d !! i = Some e ∧ is_global e = true ∧
                  bl_source_cidr e ∈ cands).
Proof.
  intros Hok. unfold asserted, add_assertions. simpl.
  assert (∀ l t, is_Some (foldr (fun e t => upsert_assertion src (bl_id e) now t) t l !! (s, i)) ↔
    is_Some (t !! (s, i)) ∨ (s = src ∧ ∃ e, e ∈ l ∧ bl_id e = i)) as Hfold.
  { induction l as [|e l IH]; intros t; simpl; [set_solver|].
    unfold upsert_assertion. rewrite lookup_insert_is_Some', IH. set_solver. }
  rewrite Hfold. setoid_rewrite list_elem_of_filter.
  unfold global_entries. setoid_rewrite elem_of_select.
  split; (intros [?|[-> H]]; [by left|right; split; [done|]]).
  - destruct H as (e & (Hc & Hg & k & Hk) & <-). exists e.
    rewrite (bl_key _ Hok _ _ Hk). done.
  - destruct H as (e & Hi & Hg & Hc). exists e. rewrite (bl_key _ Hok _ _ Hi). eauto.
Qed.

Lemma drop_assertions_asserted src cands d s i :
  asserted (drop_assertions src cands d) s i ↔
  asserted d s i ∧ stale_assertion d src cands (s, i) = false.
Proof.
  unfold asserted, drop_assertions. simpl. split.
  - intros [a [Ha Hs]%map_lookup_filter_Some]. by split.
  - intros [[a Ha] Hs]. exists a. by apply map_lookup_filter_Some.
Qed.

Lemma replace_asserted src cands now d s i :
  bl_ok d →
  asserted (add_assertions src cands now (drop_assertions src cands d)) s i ↔
  if bool_decide (s = src)
  then ∃ e, blacklist_entry d !! i = Some e ∧ is_global e = true ∧ bl_source_cidr e ∈ cands
  else asserted d s i.
Proof.
  intros Hok. rewrite add_assertions_asserted, drop_assertions_asserted.
  2: { destruct Hok as [Hk Hu Hw Ha]. split; try done. intros s1 i1 a1 H1.
       simpl in H1. apply map_lookup_filter_Some in H1 as [H1 _]. eauto. }
  unfold stale_assertion. simpl. case_bool_decide as Es; simpl; [|naive_solver].
  split; [|by right].
  intros [[Ha Hst]|[_ He]]; [|done]. destruct Ha as [a Ha].
  destruct (bl_assertion _ Hok _ _ _ Ha) as (e & He & Hg). rewrite He, Hg in Hst. simpl in Hst.
  apply negb_false_iff, bool_decide_eq_true in Hst. eauto.
Qed.

Lemma replace_bl_ok src cands now d :
  bl_ok d → bl_ok (add_assertions src cands now (drop_assertions src cands d)).
Proof.
  intros Hok. pose proof Hok as [Hk Hu Hw Ha]. split; try done.
  intros s i a H. assert (asserted (add_assertions src cands now (drop_assertions src cands d)) s i)
    as Has by (by exists a).
  apply replace_asserted in Has; [|done]. simpl. case_bool_decide; [naive_solver|].
  destruct Has as [a' Ha']. eauto.
Qed.

(** ** Dropping orphans *)

Definition db_drop_orphans (d : Db) : Db :=
  d <| blacklist_entry :=
    filter (fun kv => negb (is_global kv.2 && is_feed_entry kv.2 &&
                            negb (asserted_by d (fun _ => true) (bl_id kv.2))) = true)
      (blacklist_entry d) |>.

Lemma drop_orphans_lookup d i e :
  bl_ok d →
  blacklist_entry (db_drop_orphans d) !! i = Some e ↔
  blacklist_entry d !! i = Some e ∧
  (is_global e = true → is_feed_entry e = true → ∃ s, asserted d s i).
Proof.
  intros Hok. unfold db_drop_orphans. simpl. rewrite map_lookup_filter_Some. simpl.
  split; intros [He H]; (split; [done|]); pose proof (bl_key _ Hok _ _ He) as Hid.
  - intros Hg Hf. rewrite Hg, Hf in H. simpl in H. rewrite negb_involutive, Hid in H.
    apply asserted_by_iff in H as (s & _ & Hs). by exists s.
  - destruct (is_global e), (is_feed_entry e); try done. simpl. rewrite negb_involutive, Hid.
    destruct (H eq_refl eq_refl) as [s Hs]. apply asserted_by_iff. eauto.
Qed.

Lemma drop_orphans_bl_ok d : bl_ok d → bl_ok (db_drop_orphans d).
Proof.
  intros Hok. pose proof Hok as [Hk Hu Hw Ha]. split.
  - intros i e [He _]%drop_orphans_lookup; eauto.
  - intros i e i' e' [He _]%drop_orphans_lookup [He' _]%drop_orphans_lookup; eauto.
  - intros i e [He _]%drop_orphans_lookup; eauto.
  - intros s i a H. destruct (Ha s i a H) as (e & He & Hg). exists e. split; [|done].
    apply drop_orphans_lookup; [done|]. split; [done|]. intros _ _. by exists s, a.
Qed.

(** ** The three steps together *)

(** Every feed entry is asserted by some source. *)
Definition feed_backed (d : Db) : Prop :=
  ∀ i e, blacklist_entry d !! i = Some e → is_global e = true → is_feed_entry e = true →
         ∃ s, asserted d s i.

(** [c] is denied for a reason other than source [src]. *)
Definition denied_otherwise (d : Db) (src : uuid) (c : ipv4net) : Prop :=
  ∃ i e, blacklist_entry d !! i = Some e ∧ is_global e = true ∧ bl_source_cidr e = c ∧
    (is_feed_entry e = false ∨ ∃ s, s ≠ src ∧ asserted d s i).

Lemma reconciled_sets cs cands src now d d1 d2 :
  bl_ok d → feed_backed d → (∀ c, c ∈ cands ↔ c ∈ cs) → upserted cs d d1 →
  d2 = db_drop_orphans (add_assertions src cands now (drop_assertions src cands d1)) →
  bl_ok d2 ∧ feed_backed d2 ∧
  (∀ c, asserts d2 src c = true ↔ c ∈ cs) ∧
  (∀ s c, s ≠ src → asserts d2 s c = asserts d s c) ∧
  (∀ c, c ∈ _global_cidrs d2 ↔ c ∈ cs ∨ denied_otherwise d src c).
Proof.
  intros Hok Hfb Hcs Hup ->. set (d2 := add_assertions _ _ _ _).
  pose proof (up_ok _ _ _ Hup) as Hok1.
  assert (bl_ok d2) as Hok2 by (by apply replace_bl_ok).
  assert (feed_blacklist_assertion d1 = feed_blacklist_assertion d) as Eas.
  { destruct (up_frame _ _ _ Hup) as (? & ? & ->). done. }
  assert (∀ s i, asserted d2 s i ↔ if bool_decide (s = src)
    then ∃ e, blacklist_entry d1 !! i = Some e ∧ is_global e = true ∧ bl_source_cidr e ∈ cands
    else asserted d s i) as Has2.
  { intros s i. unfold d2. rewrite replace_asserted by done.
    unfold asserted. by rewrite Eas. }
  assert (∀ i e, blacklist_entry (db_drop_orphans d2) !! i = Some e ↔
    blacklist_entry d1 !! i = Some e ∧
    (is_global e = true → is_feed_entry e = true → ∃ s, asserted d2 s i)) as Hlk.
  { intros i e. exact (drop_orphans_lookup d2 i e Hok2). }
  assert (∀ i e, blacklist_entry d1 !! i = Some e → is_global e = true →
    bl_source_cidr e ∈ cs → asserted d2 src i) as Hsrc.
  { intros i e He Hg Hc. apply Has2. rewrite bool_decide_true by done.
    exists e. by rewrite Hcs. }
  assert (∀ s i, s ≠ src → asserted d2 s i ↔ asserted d s i) as Hother.
  { intros s i Hne. rewrite Has2. by rewrite bool_decide_false. }
  split_and!.
  - by apply drop_orphans_bl_ok.
  - intros i e [He H]%Hlk Hg Hf. by apply H.
  - intros c. rewrite asserts_iff. split.
    + intros (i & e & Ha & [He _]%Hlk & Hg & <-). apply (Has2 src i) in Ha.
      rewrite bool_decide_true in Ha by done. destruct Ha as (e' & He' & _ & Hc).
      simplify_eq. by apply Hcs.
    + intros Hc. destruct (up_present _ _ _ Hup c Hc) as (i & e & He & Hg & <-).
      assert (asserted d2 src i) as Ha by eauto.
      exists i, e. split_and!; try done. apply Hlk. eauto.
  - intros s c Hne. apply eq_bool_prop_intro. rewrite !Is_true_true, !asserts_iff. split.
    + intros (i & e & Ha & [He _]%Hlk & Hg & Hc). apply (Hother s i Hne) in Ha as [a Ha].
      destruct (bl_assertion _ Hok _ _ _ Ha) as (e0 & He0 & _).
      pose proof (up_kept _ _ _ Hup _ _ He0) as He1. simplify_eq. eauto 6.
    + intros (i & e & Ha & He & Hg & Hc). exists i, e.
      assert (asserted d2 s i) as Ha2 by (by apply Hother).
      split_and!; try done. apply Hlk. split; [by apply (up_kept _ _ _ Hup)|eauto].
  - intros c. rewrite elem_of_global_cidrs. split.
    + intros (i & e & [He H]%Hlk & Hg & <-).
      destruct (up_new _ _ _ Hup _ _ He) as [He0|(_ & _ & _ & Hc)]; [|by left].
      destruct (is_feed_entry e) eqn:Ef; [|right; exists i, e; by eauto 6].
      destruct (H Hg eq_refl) as [s Hs]. destruct (decide (s = src)) as [->|Hne].
      * left. apply Has2 in Hs. rewrite bool_decide_true in Hs by done.
        destruct Hs as (e' & He' & _ & Hc). simplify_eq. by apply Hcs.
      * right. exists i, e. split_and!; try done. right. exists s. split; [done|].
        by apply Hother.
    + intros [Hc|(i & e & He & Hg & <- & Hwhy)].
      * destruct (up_present _ _ _ Hup c Hc) as (i & e & He & Hg & <-).
        exists i, e. split_and!; try done. apply Hlk. eauto.
      * exists i, e. split_and!; try done. apply Hlk.
        split; [by apply (up_kept _ _ _ Hup)|]. intros _ Hf.
        destruct Hwhy as [?|(s & Hne & Hs)]; [congruence|]. exists s. by apply Hother.
Qed.

(** ** What reconciliation may touch *)

Definition deny_frame (d d' : Db) : Prop :=
  ∃ u bl fba ovl st runs evs,
    d' = d <| uuid_supply := u |> <| blacklist_entry := bl |>
           <| feed_blacklist_assertion := fba |> <| feed_sync_overlap := ovl |>
           <| global_deny_state := st |> <| feed_sync_run := runs |>
           <| audit_events := evs |>.

Lemma deny_frame_refl d : deny_frame d d.
Proof.
  exists (uuid_supply d), (blacklist_entry d), (feed_blacklist_assertion d),
    (feed_sync_overlap d), (global_deny_state d), (feed_sync_run d), (audit_events d).
  by destruct d.
Qed.

Lemma deny_frame_trans d1 d2 d3 : deny_frame d1 d2 → deny_frame d2 d3 → deny_frame d1 d3.
Proof.
  intros (?&?&?&?&?&?&?&->) (u & bl & fba & ovl & st & runs & evs & ->).
  by exists u, bl, fba, ovl, st, runs, evs.
Qed.


(** A step that keeps the blacklist, the assertions and the deny state. *)
Definition quiet (d d' : Db) : Prop :=
  deny_frame d d' ∧ blacklist_entry d' = blacklist_entry d ∧
  feed_blacklist_assertion d' = feed_blacklist_assertion d ∧
  global_deny_state d' = global_deny_state d.

Lemma quiet_refl d : quiet d d.
Proof. split; [apply deny_frame_refl|done]. Qed.
Lemma quiet_trans d1 d2 d3 : quiet d1 d2 → quiet d2 d3 → quiet d1 d3.
Proof.
  intros (F1 & ? & ? & ?) (F2 & ? & ? & ?). split_and!; [by eapply deny_frame_trans|congruence..].
Qed.

Lemma quiet_for_each {A} (f : A → M Session unit) xs s u s' :
  (∀ x s u s', f x s = (inr u, s') → quiet (db s) (db s')) →
  for_each f xs s = (inr u, s') → quiet (db s) (db s').
Proof.
  intros Hf. revert s. induction xs as [|x xs IH]; intros s H; simpl in H.
  - minv. apply quiet_refl.
  - minv. eapply quiet_trans; [by eapply Hf|by apply IH].
Qed.

Lemma persist_overlaps_quiet run cands n s u s' :
  _persist_overlaps run cands n s = (inr u, s') → quiet (db s) (db s').
Proof.
  unfold _persist_overlaps. destruct (n =? 0); intros H; [minv; apply quiet_refl|].
  unfold get_db in H. minv. rewrite for_each_batches in H.
  eapply quiet_for_each in H; [done|]. clear. intros x s u s' H.
  unfold insert_overlap, uuid4, get_db, mod_db in H. minv.
  case_match; (split_and!; [|done..]); by do 7 eexists.
Qed.

Lemma overlap_summary_quiet src run cands n s u s' :
  _record_overlap_summary src run cands n s = (inr u, s') → quiet (db s) (db s').
Proof.
  unfold _record_overlap_summary, get_db. intros H. minv.
  case_match; minv; [apply quiet_refl|]. unfold record_event, mod_db in H. minv.
  split_and!; [|done..]. by do 7 eexists.
Qed.

Lemma store_stats_quiet run p a r o g rv s u s' :
  _store_run_stats run p a r o g rv s = (inr u, s') → quiet (db s) (db s').
Proof.
  unfold _store_run_stats, mod_db. intros H. minv.
  split_and!; [|done..]. by do 7 eexists.
Qed.

Lemma quiet_global_cidrs d d' : quiet d d' → _global_cidrs d' = _global_cidrs d.
Proof. intros (_ & E & _). unfold _global_cidrs, global_entries. by rewrite E. Qed.
Lemma quiet_asserts d d' s c : quiet d d' → asserts d' s c = asserts d s c.
Proof. intros (_ & E & E' & _). unfold asserts, assertions. by rewrite E, E'. Qed.
Lemma quiet_bl_ok d d' : quiet d d' → bl_ok d → bl_ok d'.
Proof. intros (_ & E & E' & _) [????]. by split; rewrite ?E, ?E'. Qed.
Lemma quiet_feed_backed d d' : quiet d d' → feed_backed d → feed_backed d'.
Proof. intros (_ & E & E' & _). unfold feed_backed, asserted. by rewrite E, E'. Qed.

Section digest.
Context (sha256 : pystr → string).

(** The deny state after materializing [cs]. *)
Definition advance (cs : list ipv4net) (state : GlobalDenyState) : GlobalDenyState :=
  if bool_decide (gds_desired_digest state = Some (_digest sha256 cs)) then state
  else state <| gds_desired_digest := Some (_digest sha256 cs) |>
             <| gds_desired_revision := gds_desired_revision state + 1 |>
             <| gds_apply_status := ApplyStatus.pending |>.

Lemma advance_digest cs state :
  gds_desired_digest (advance cs state) = Some (_digest sha256 cs).
Proof. unfold advance. by case_bool_decide. Qed.

Lemma locked_state_inr create s st s' :
  _locked_global_state create s = (inr st, s') →
  (if create then st = Some (default initial_deny_state (global_deny_state (db s)))
   else st = global_deny_state (db s)) ∧
  s' = s <| db := db s <| global_deny_state := st |> |>.
Proof.
  unfold _locked_global_state, get_db, mod_db. intros H. minv.
  destruct s as [[] ? ? ?]; simpl in *.
  destruct global_deny_state as [x|], create; minv; done.
Qed.

Lemma materialize_locked_inr state cs s r s' :
  global_deny_state (db s) = Some state →
  _materialize_locked sha256 state cs s = (inr r, s') →
  r = mkMaterializeResult cs (_digest sha256 cs)
        (negb (bool_decide (gds_desired_digest state = Some (_digest sha256 cs))))
        (gds_desired_revision (advance cs state)) ∧
  s' = s <| db := db s <| global_deny_state := Some (advance cs state) |> |>.
Proof.
  unfold _materialize_locked, advance. intros Hst H. case_bool_decide.
  - minv. split; [done|]. destruct s as [[] ? ? ?]; simpl in *. by subst.
  - unfold mod_db in H. by minv.
Qed.

(** What every commit keeps about the global deny set. *)
Definition deny_ok (d : Db) : Prop :=
  bl_ok d ∧ feed_backed d ∧
  ∀ st, global_deny_state d = Some st →
        gds_desired_digest st = Some (_digest sha256 (_global_cidrs d)).

#[global] Instance deny_ok_stable : CommitStable deny_ok.
Proof. split; intros d ? ([????] & ? & ?); by split_and!. Qed.

Lemma materialize_inr s r s' :
  materialize_global_union sha256 s = (inr r, s') →
  let st := default initial_deny_state (global_deny_state (db s)) in
  Z.of_nat (length (_global_cidrs (db s))) <= MAX_GLOBAL_DENY_ENTRIES ∧
  s' = s <| db := db s <| global_deny_state := Some (advance (_global_cidrs (db s)) st) |> |> ∧
  r = mkMaterializeResult (_global_cidrs (db s)) (_digest sha256 (_global_cidrs (db s)))
        (negb (bool_decide (gds_desired_digest st = Some (_digest sha256 (_global_cidrs (db s))))))
        (gds_desired_revision (advance (_global_cidrs (db s)) st)).
Proof.
  unfold materialize_global_union, get_db. intros H. minv.
  match goal with H : _locked_global_state _ _ = _ |- _ =>
    apply locked_state_inr in H as [Hst ->] end. simplify_eq.
  match goal with H : _enforce_capacity _ = _ |- _ =>
    unfold _enforce_capacity in H; destruct (_ <? _) eqn:E; [done|] end.
  apply materialize_locked_inr in H as [-> ->]; [|done].
  split_and!; [simpl in E; unfold _global_cidrs, global_entries in *; simpl in E; lia|done..].
Qed.
End digest.

Section reconcile.
Context (sha256 : pystr → string).

(** The source a run reconciles, unless the run is stale. *)
Definition live_source (d : Db) (run : FeedSyncRun) : option ThreatFeedSource :=
  match threat_feed_source d !! run_feed_source_id run with
  | Some source =>
      if bool_decide (is_Some (feed_deleted_at source)) &&
         negb (bool_decide (run_trigger run = ChangeTrigger.feed_delete))
      then None else Some source
  | None => None
  end.

(** A stale run changes nothing. *)
Lemma reconcile_noop run parsed s :
  live_source (db s) run = None → reconcile sha256 run parsed s = (inr noop_result, s).
Proof.
  unfold live_source, reconcile, _locked_source, get_db. intros H. mstep.
  destruct (_ !! _) as [source|]; [|done]. destruct (_ && _); [done|done].
Qed.

(** A dry run writes its own statistics and nothing else. *)
Lemma reconcile_dry_inr run parsed source s r s' :
  live_source (db s) run = Some source → run_dry_run run = true →
  reconcile sha256 run parsed s = (inr r, s') →
  let cands := _load_candidates (cidrs parsed) in
  let prospective := _prospective_global_cidrs (db s) (feed_id source) cands in
  quiet (db s) (db s') ∧
  (∃ runs, db s' = db s <| feed_sync_run := runs |>) ∧
  (rr_added r, rr_removed r) = _source_delta_counts (db s) (feed_id source) cands ∧
  rr_desired_revision r = None ∧
  rr_global_changed r =
    negb (bool_decide (_digest sha256 (_global_cidrs (db s)) = _digest sha256 prospective)).
Proof.
  unfold live_source, reconcile, _locked_source, get_db. intros Hsrc Hdry H. minv.
  destruct (_ !! _) as [source'|]; [|done]. destruct (_ && _); [done|]. simplify_eq.
  minv. rewrite Hdry in *. simpl in *.
  match goal with H : _locked_global_state false _ = _ |- _ =>
    apply locked_state_inr in H as [-> ->] end.
  destruct (_source_delta_counts _ _ _) as [added removed] eqn:Ed. minv.
  match goal with H : _store_run_stats _ _ _ _ _ _ _ _ = _ |- _ =>
    pose proof (store_stats_quiet _ _ _ _ _ _ _ _ _ _ H) as Hq;
    unfold _store_run_stats, mod_db in H end.
  minv. destruct s as [[] ? ? ?]; simpl in *. split_and!; try done. by eexists.
Qed.

Lemma replace_assertions_db src cands now s u s' :
  _replace_source_assertions src cands now s = (inr u, s') →
  db s' = add_assertions src cands now (drop_assertions src cands (db s)).
Proof. unfold _replace_source_assertions, mod_db. intros H. by minv. Qed.

Lemma replace_frame src cands now d :
  ∃ bl fba, db_drop_orphans (add_assertions src cands now (drop_assertions src cands d)) =
            d <| blacklist_entry := bl |> <| feed_blacklist_assertion := fba |>.
Proof. by do 2 eexists. Qed.

Lemma delete_orphans_db s u s' :
  _delete_orphaned_feed_entries s = (inr u, s') → db s' = db_drop_orphans (db s).
Proof. unfold _delete_orphaned_feed_entries, mod_db. intros H. by minv. Qed.

(** A real run. *)
Lemma reconcile_inr run parsed source s r s' :
  deny_ok sha256 (db s) → Forall net_wf (cidrs parsed) →
  live_source (db s) run = Some source → run_dry_run run = false →
  reconcile sha256 run parsed s = (inr r, s') →
  deny_frame (db s) (db s') ∧ deny_ok sha256 (db s') ∧
  (∀ c, asserts (db s') (feed_id source) c = true ↔ c ∈ cidrs parsed) ∧
  (∀ src c, src ≠ feed_id source → asserts (db s') src c = asserts (db s) src c) ∧
  (∀ c, c ∈ _global_cidrs (db s') ↔
        c ∈ cidrs parsed ∨ denied_otherwise (db s) (feed_id source) c) ∧
  Z.of_nat (length (_global_cidrs (db s'))) <= MAX_GLOBAL_DENY_ENTRIES ∧
  global_deny_state (db s') =
    Some (advance sha256 (_global_cidrs (db s'))
            (default initial_deny_state (global_deny_state (db s)))) ∧
  (rr_added r, rr_removed r) =
    _source_delta_counts (db s) (feed_id source) (_load_candidates (cidrs parsed)) ∧
  rr_noop r = false.
Proof.
  intros (Hbl & Hfb & Hdig) Hwf. unfold live_source, reconcile, _locked_source, get_db.
  intros Hsrc Hdry H. minv.
  destruct (_ !! _) as [source'|]; [|done]. destruct (_ && _); [done|]. simplify_eq.
  minv. rewrite Hdry in *. simpl in *.
  match goal with H : _locked_global_state true _ = _ |- _ =>
    apply locked_state_inr in H as [-> ->] end.
  set (st := default initial_deny_state (global_deny_state (db s))) in *.
  set (d0 := db s <| global_deny_state := Some st |>) in *.
  destruct (_source_delta_counts _ _ _) as [added removed] eqn:Ed. minv.
  unfold utc_now, get_db in *. minv.
  assert (bl_ok d0) as Hbl0 by (destruct Hbl; by split).
  match goal with H : _upsert_feed_entries _ _ _ = _ |- _ =>
    pose proof (fun A => upsert_entries_inr _ _ _ _ _ A Hwf H) as Hup; clear H;
    specialize (Hup Hbl0) end.
  match goal with H : _replace_source_assertions _ _ _ _ = _ |- _ =>
    apply replace_assertions_db in H end.
  match goal with H : _delete_orphaned_feed_entries _ = (_, ?s3) |- _ =>
    apply delete_orphans_db in H as E3; clear H; rename s3 into sd end.
  match goal with H : db _ = add_assertions _ _ _ _ |- _ => rewrite H in E3; clear H end.
  match goal with H : _enforce_capacity _ = _ |- _ =>
    unfold _enforce_capacity in H; destruct (_ <? _) eqn:Ecap; [done|]; clear H end.
  assert (global_deny_state (db sd) = Some st) as Hst.
  { rewrite E3. destruct (up_frame _ _ _ Hup) as (? & ? & ->). done. }
  match goal with H : _materialize_locked _ _ _ _ = _ |- _ =>
    apply materialize_locked_inr in H as [-> ->]; [|done] end.
  edestruct (reconciled_sets (cidrs parsed) (_load_candidates (cidrs parsed)) (feed_id source)
    (clock (db s)) d0 _ (db sd) Hbl0 Hfb (elem_of_load_candidates _) Hup E3)
    as (Rok & Rfb & Rsrc & Roth & Rglob).
  match goal with H : _store_run_stats _ _ _ _ _ _ _ _ = (_, ?sf) |- _ => rename sf into s' end.
  set (dm := db sd <| global_deny_state :=
    Some (advance sha256 (_global_cidrs (db sd)) st) |>).
  assert (quiet dm (db s')) as Hq.
  { match goal with H : _persist_overlaps _ _ _ _ = _ |- _ =>
      apply persist_overlaps_quiet in H as Q1 end.
    match goal with H : (if _ then mret tt else _) _ = _ |- _ =>
      assert (quiet _ _) as Q2 by (destruct (_ =? 0) in H;
        [minv; apply quiet_refl|by eapply overlap_summary_quiet in H]) end.
    match goal with H : _store_run_stats _ _ _ _ _ _ _ _ = _ |- _ =>
      apply store_stats_quiet in H as Q3 end.
    eapply quiet_trans; [exact Q1|]. eapply quiet_trans; [exact Q2|exact Q3]. }
  assert (_global_cidrs (db s') = _global_cidrs (db sd)) as Eg
    by (by rewrite (quiet_global_cidrs _ _ Hq)).
  assert (∀ src c, asserts (db s') src c = asserts (db sd) src c) as Ea
    by (intros; by rewrite (quiet_asserts _ _ _ _ Hq)).
  pose proof Hq as (Hfr & _ & _ & Egs). rewrite Eg. setoid_rewrite Ea.
  split_and!; try done; [| |lia].
  - eapply deny_frame_trans; [|exact Hfr]. unfold dm.
    generalize (Some (advance sha256 (_global_cidrs (db sd)) st)). intros gs. rewrite E3.
    destruct (replace_frame (feed_id source) (_load_candidates (cidrs parsed)) (clock (db s))
      (db s2)) as (bl & fba & ->).
    destruct (up_frame _ _ _ Hup) as (u & bl0 & ->).
    by exists u, bl, fba, (feed_sync_overlap (db s)), gs, (feed_sync_run (db s)),
      (audit_events (db s)).
  - split_and!.
    + apply (quiet_bl_ok _ _ Hq). unfold dm. destruct Rok. by split.
    + by apply (quiet_feed_backed _ _ Hq).
    + rewrite Egs, Eg. simpl. intros st' [= <-]. apply advance_digest.
Qed.
End reconcile.
