(* ===== verification/Lists.v ===== *)
(** * Whitelist and global blacklist ([services/lists.py])

    Whitelist entries belong to a service and requeue it.  Blacklist entries are
    global: adding or removing one rematerializes the global deny set and, when
    its digest moved, queues a convergence job
    ([worker/feed_scheduler.py], [_enqueue_global_convergence]). *)

From S2P Require Import Prelude PyStr Ipaddress Models Db Apply.
From S2P Require Import Services Rules FeedParser FeedReconcile.
Open Scope Z_scope.

(** ** [_enqueue_global_convergence] *)

Definition _state_needs_apply (state : GlobalDenyState) : bool :=
  negb (gds_desired_revision state =? gds_active_revision state) ||
  negb (bool_decide (gds_desired_digest state = gds_active_digest state)).

Definition is_global_job (j : AgentJob) : bool :=
  bool_decide (job_target j = TargetGlobalDeny).
Definition in_flight (j : AgentJob) : bool :=
  bool_decide (job_status j = JobStatus.queued) ||
  bool_decide (job_status j = JobStatus.applying).

Definition requeued_job (j : AgentJob) : AgentJob :=
  j <| job_status := JobStatus.queued |> <| job_error := None |>
    <| job_started_at := None |> <| job_finished_at := None |> <| job_dispatched_at := None |>.

Definition _enqueue_global_convergence : M Session bool :=
  st ← get_db global_deny_state;
  match st with
  | None => mret false
  | Some state =>
      if negb (_state_needs_apply state) then mret false else
      jobs ← get_db agent_job;
      match select_where (fun j => is_global_job j && in_flight j) jobs with
      | _ :: _ => mret false
      | [] =>
          existing ← one_or_none (select_where (fun j => is_global_job j &&
                       (job_version j =? gds_desired_revision state)) jobs);
          job ← (match existing with
                 | None =>
                     id ← uuid4;
                     now ← utc_now;
                     check_pkey agent_job id "agent_job_pkey" ;;
                     mret (new_job id TargetGlobalDeny (gds_desired_revision state)
                             ChangeTrigger.global_deny_retry now)
                 | Some j => mret (requeued_job j)
                 end);
          put_job job ;;
          add_post_commit_callback (DispatchPlain (job_id job)) ;;
          mret true
      end
  end.

(** ** Guards and parsing *)

Definition _parse_source (value : pystr) : exn + ipv4net :=
  match Cidr.parse_ipv4_cidr value with
  | inl e => inl (HTTPException 422 (Cidr.cidr_error_msg e))
  | inr source =>
      match Cidr.reject_reserved source with
      | inl e => inl (HTTPException 422 (Cidr.cidr_error_msg e))
      | inr _ => inr source
      end
  end.

Definition list_entry_exists : exn := HTTPException 409 "List entry exists".

Definition _raise_list_integrity_error {A} (e : exn) : M Session A :=
  match e with
  | IntegrityError detail =>
      if str_contains "uq_whitelist_service_source_cidr" detail ||
         str_contains "uq_blacklist_service_source_cidr" detail ||
         str_contains "uq_blacklist_global_source_cidr" detail
      then raise list_entry_exists else raise e
  | _ => raise e
  end.

(** ** Whitelist *)

Definition whitelist_row (service_id : uuid) (source : ipv4net) (w : WhitelistEntry) : bool :=
  bool_decide (wl_service_id w = service_id) && bool_decide (wl_source_cidr w = source).

Definition insert_whitelist (w : WhitelistEntry) : M Session unit :=
  check_pkey whitelist_entry (wl_id w) "whitelist_entry_pkey" ;;
  d ← get_db (fun d => d);
  require (bool_decide (is_Some (protected_service d !! wl_service_id w)))
    (IntegrityError "whitelist_entry_service_id_fkey") ;;
  require (bool_decide (select_where (whitelist_row (wl_service_id w) (wl_source_cidr w))
                          (whitelist_entry d) = []))
    (IntegrityError "uq_whitelist_service_source_cidr") ;;
  mod_db (fun d => d <| whitelist_entry := <[wl_id w := w]> (whitelist_entry d) |>).

Definition whitelist_event (action : string) (actor : option User) (entry_id service_id : uuid)
    (source : ipv4net) (ip : option string) : M Session unit :=
  record_event actor action (Some "whitelist_entry"%string) (Some (uuid_str entry_id))
    "success" ip
    (Some [("service_id"%string, JStr (uuid_str service_id));
           ("source_cidr"%string, JStr (cidr_str source))]).

Definition add_whitelist (service_id : uuid) (source_cidr : pystr) (actor : option User)
    (ip : option string) : M Session WhitelistEntry :=
  service ← _require_service_locked service_id;
  lift (_authorize_actor actor service) ;;
  source ← lift (_parse_source source_cidr);
  id ← uuid4;
  now ← utc_now;
  let entry := mkWhitelistEntry id (svc_id service) source (user_id <$> actor) now in
  try_except (insert_whitelist entry) _raise_list_integrity_error ;;
  service ← bump_version (svc_id service);
  enqueue_service_update service ChangeTrigger.whitelist ;;
  whitelist_event "list.whitelist.add" actor id (svc_id service) source ip ;;
  mret entry.

Definition _require_whitelist_entry (service_id : uuid) (source : ipv4net)
    : M Session WhitelistEntry :=
  entries ← get_db whitelist_entry;
  entry ← one_or_none (select_where (whitelist_row service_id source) entries);
  get_or_raise entry (HTTPException 404 "Whitelist entry not found").

(** Deleting a whitelist entry cascades to the overlaps that name it. *)
Definition delete_whitelist_row (id : uuid) (d : Db) : Db :=
  d <| whitelist_entry := delete id (whitelist_entry d) |>
    <| feed_sync_overlap :=
         filter (fun o => overlap_whitelist_entry_id o ≠ id) (feed_sync_overlap d) |>.

Definition remove_whitelist (service_id : uuid) (source_cidr : pystr) (actor : option User)
    (ip : option string) : M Session ProtectedService :=
  service ← _require_service_locked service_id;
  lift (_authorize_actor actor service) ;;
  source ← lift (_parse_source source_cidr);
  entry ← _require_whitelist_entry (svc_id service) source;
  mod_db (delete_whitelist_row (wl_id entry)) ;;
  service ← bump_version (svc_id service);
  enqueue_service_update service ChangeTrigger.whitelist ;;
  whitelist_event "list.whitelist.remove" actor (wl_id entry) (svc_id service) source ip ;;
  refreshed (svc_id service).

Definition list_whitelist (service_id : uuid) (actor : option User)
    : M Session (list WhitelistEntry) :=
  service ← _require_service_locked service_id;
  lift (_authorize_actor actor service) ;;
  get_db (fun d => order_by wl_created_at
    (select_where (fun w => bool_decide (wl_service_id w = svc_id service))
       (whitelist_entry d))).

(** ** Global blacklist *)

Section blacklist.
Context (sha256 : pystr → string).

Definition _materialize_global_deny_and_enqueue : M Session unit :=
  materialized ← materialize_global_union sha256;
  if mr_changed materialized then _enqueue_global_convergence ;; mret tt else mret tt.

Definition _global_blacklist_entry_for_update (source : ipv4net)
    : M Session (option BlacklistEntry) :=
  d ← get_db (fun d => d);
  one_or_none (entry_with_cidr d source).

Definition _require_blacklist_entry (source : ipv4net) : M Session BlacklistEntry :=
  entry ← _global_blacklist_entry_for_update source;
  get_or_raise entry (HTTPException 404 "Blacklist entry not found").

Definition put_blacklist (e : BlacklistEntry) : M Session unit :=
  mod_db (fun d => d <| blacklist_entry := <[bl_id e := e]> (blacklist_entry d) |>).

Definition insert_blacklist (e : BlacklistEntry) : M Session unit :=
  check_pkey blacklist_entry (bl_id e) "blacklist_entry_pkey" ;;
  d ← get_db (fun d => d);
  require (negb (is_global e) || bool_decide (entry_with_cidr d (bl_source_cidr e) = []))
    (IntegrityError "uq_blacklist_global_source_cidr") ;;
  put_blacklist e.

Definition blacklist_event (action : string) (actor : option User) (entry : BlacklistEntry)
    (source : ipv4net) (ip : option string) : M Session unit :=
  record_event actor action (Some "blacklist_entry"%string) (Some (uuid_str (bl_id entry)))
    "success" ip
    (Some [("scope"%string, JStr "global"); ("service_id"%string, JNull);
           ("source_cidr"%string, JStr (cidr_str source))]).

Definition add_blacklist (source_cidr : pystr) (actor : option User) (ip : option string)
    : M Session BlacklistEntry :=
  lift (_require_admin_actor actor) ;;
  source ← lift (_parse_source source_cidr);
  existing ← _global_blacklist_entry_for_update source;
  entry ← (match existing with
    | None =>
        id ← uuid4;
        now ← utc_now;
        let e := mkBlacklistEntry id scope_global source_manual source (user_id <$> actor) now in
        try_except (insert_blacklist e) _raise_list_integrity_error ;;
        mret e
    | Some e =>
        if is_feed_entry e then
          let e := e <| bl_source := source_manual |> <| bl_created_by := user_id <$> actor |> in
          put_blacklist e ;; mret e
        else raise list_entry_exists
    end);
  _materialize_global_deny_and_enqueue ;;
  blacklist_event "list.blacklist.add" actor entry source ip ;;
  mret entry.

Definition _has_feed_assertions (d : Db) (entry_id : uuid) : bool :=
  asserted_by d (fun _ => true) entry_id.

(** Deleting a blacklist entry cascades to its assertions. *)
Definition delete_blacklist_row (id : uuid) (d : Db) : Db :=
  d <| blacklist_entry := delete id (blacklist_entry d) |>
    <| feed_blacklist_assertion :=
         filter (fun kv => kv.1.2 ≠ id) (feed_blacklist_assertion d) |>.

Definition remove_blacklist (source_cidr : pystr) (actor : option User) (ip : option string)
    : M Session unit :=
  lift (_require_admin_actor actor) ;;
  source ← lift (_parse_source source_cidr);
  entry ← _require_blacklist_entry source;
  require (negb (is_feed_entry entry))
    (HTTPException 409 "Feed-managed blacklist entry cannot be deleted manually") ;;
  asserted ← get_db (fun d => _has_feed_assertions d (bl_id entry));
  (if (asserted : bool) then
     put_blacklist (entry <| bl_source := source_feed |> <| bl_created_by := None |>)
   else mod_db (delete_blacklist_row (bl_id entry))) ;;
  _materialize_global_deny_and_enqueue ;;
  blacklist_event "list.blacklist.remove" actor entry source ip.

Definition list_blacklist (d : Db) (actor : option User) : exn + list BlacklistEntry :=
  match _require_admin_actor actor with
  | inl e => inl e
  | inr _ => inr (order_by bl_created_at (global_entries d))
  end.
End blacklist.
