(* ===== verification/ListsInv.v ===== *)
(** * What the list operations keep

    Whitelist changes are configuration changes of their service.  Blacklist
    changes leave the configuration alone and keep the deny set consistent. *)

From S2P Require Import Prelude PyStr Ipaddress RuleMatch Models Db.
From S2P Require Import Apply ApplyInv Allocations Services Isolation Rules.
From S2P Require Import ServicesInv FeedParser FeedReconcile FeedInv Lists.
Open Scope Z_scope.

(** ** Whitelist *)

Lemma gw_ok_whitelist d u t ovl :
  gw_ok d →
  (∀ i w, t !! i = Some w → wl_id w = i ∧ is_Some (protected_service d !! wl_service_id w) ∧
     net_wf (wl_source_cidr w)) →
  gw_ok (d <| uuid_supply := u |> <| whitelist_entry := t |> <| feed_sync_overlap := ovl |>).
Proof. intros (Ha & Hi & [?????]) Ht. by split_and!. Qed.

Lemma parse_source_inr v n : _parse_source v = inr n →
  Cidr.parse_ipv4_cidr v = inr n ∧ net_wf n ∧ Cidr.reject_reserved n = inr tt.
Proof.
  unfold _parse_source. intros H.
  destruct (Cidr.parse_ipv4_cidr v) as [?|m] eqn:Ep; [done|].
  destruct (Cidr.reject_reserved m) as [?|[]] eqn:Er; [done|]. injection H as ->.
  split_and!; [done| |done]. by eapply CidrSpec.parse_ipv4_cidr_wf.
Qed.

Lemma raise_list_error_inr {A} e s (a : A) s' :
  _raise_list_integrity_error e s ≠ (inr a, s').
Proof. unfold _raise_list_integrity_error. destruct e; try done. by case_match. Qed.

Lemma insert_whitelist_inr w s u s' :
  insert_whitelist w s = (inr u, s') →
  whitelist_entry (db s) !! wl_id w = None ∧
  select_where (whitelist_row (wl_service_id w) (wl_source_cidr w)) (whitelist_entry (db s)) = [] ∧
  s' = s <| db := db s <| whitelist_entry := <[wl_id w := w]> (whitelist_entry (db s)) |> |>.
Proof.
  unfold insert_whitelist, check_pkey, get_db, mod_db. intros H. minv.
  split_and!; [by eapply bool_decide_eq_true..|done].
Qed.

Ltac wl_tail :=
  repeat match goal with
  | H : refreshed _ _ = (inr _, _) |- _ => apply require_service_inr in H as [-> ?]
  | H : whitelist_event _ _ _ _ _ _ _ = (inr _, _) |- _ =>
      let evs := fresh "evs" in apply record_event_inr in H as [evs ->]
  end.

Lemma add_whitelist_inr sid src actor ip s w s' :
  gw_ok (db s) → add_whitelist sid src actor ip s = (inr w, s') →
  ∃ svc, protected_service (db s) !! sid = Some svc ∧
    _authorize_actor_for_tenant actor (svc_tenant_id svc) = inr tt ∧
    config_change sid ChangeTrigger.whitelist (db s) (db s') ∧
    wl_service_id w = sid ∧ _parse_source src = inr (wl_source_cidr w) ∧
    whitelist_entry (db s) !! wl_id w = None ∧
    select_where (whitelist_row sid (wl_source_cidr w)) (whitelist_entry (db s)) = [] ∧
    whitelist_entry (db s') = <[wl_id w := w]> (whitelist_entry (db s)).
Proof.
  intros Hok H. unfold add_whitelist in H. minv.
  match goal with H : _require_service_locked _ _ = _ |- _ =>
    apply require_service_locked_inr in H as [-> Hs] end.
  pose proof (li_svc_id _ _ (proj1 (proj1 Hok)) _ _ Hs) as Hid.
  match goal with H : uuid4 _ = _ |- _ => apply uuid4_inr in H as [-> ->] end.
  unfold utc_now, get_db in *. minv.
  match goal with H : try_except _ _ _ = _ |- _ =>
    apply try_except_inr in H as [H|(e & s1 & _ & He)]; [|by apply raise_list_error_inr in He] end.
  match goal with H : insert_whitelist ?x _ = _ |- _ =>
    set (w := x) in *; apply insert_whitelist_inr in H as (Hnew & Hno & ->) end.
  wl_tail. destruct a0.
  pose proof (gw_ok_whitelist (db s) (Pos.succ (uuid_supply (db s)))
    (<[wl_id w := w]> (whitelist_entry (db s))) (feed_sync_overlap (db s)) Hok) as Hed.
  lapply Hed; clear Hed; [intros Hed|].
  2: { intros i x [[<- <-]|[_ Hx]]%lookup_insert_Some;
         [split_and!; [done|by eexists|]|by apply (cf_whitelist _ (proj2 (proj2 Hok)))].
       match goal with H : _parse_source _ = _ |- _ => by apply parse_source_inr in H as (_ & ? & _) end. }
  match goal with Hb : bump_version _ _ = _, He : enqueue_service_update _ _ _ = _ |- _ =>
    pose proof (tail_requeued _ _ _ _ _ _ _ _ Hb He eq_refl Hed) as (Hreq & _ & _) end.
  exists a. split_and!; try done.
  - eexists. split_and!; [exact Hed|done|done|simpl; lia| |exact (Hreq _)].
    intros i Hne. unfold content. simpl. rewrite filter_insert_other; [done|done|].
    intros b Hb. exfalso. pose proof (eq_trans (eq_sym Hnew) Hb) as E. discriminate E.
  - destruct (Hreq evs) as (svc0 & evs' & _ & _ & _ & Hd). exact (f_equal whitelist_entry Hd).
Qed.

Lemma remove_whitelist_inr sid src actor ip s r s' :
  gw_ok (db s) → remove_whitelist sid src actor ip s = (inr r, s') →
  ∃ svc w, protected_service (db s) !! sid = Some svc ∧
    _authorize_actor_for_tenant actor (svc_tenant_id svc) = inr tt ∧
    config_change sid ChangeTrigger.whitelist (db s) (db s') ∧
    whitelist_row sid (wl_source_cidr w) w = true ∧ _parse_source src = inr (wl_source_cidr w) ∧
    whitelist_entry (db s') = delete (wl_id w) (whitelist_entry (db s)) ∧
    whitelist_entry (db s) !! wl_id w = Some w ∧
    feed_sync_overlap (db s') =
      filter (fun o => overlap_whitelist_entry_id o ≠ wl_id w) (feed_sync_overlap (db s)).
Proof.
  intros Hok H. unfold remove_whitelist in H. minv.
  match goal with H : _require_service_locked _ _ = _ |- _ =>
    apply require_service_locked_inr in H as [-> Hs] end.
  pose proof (li_svc_id _ _ (proj1 (proj1 Hok)) _ _ Hs) as Hid.
  unfold _require_whitelist_entry, get_db, mod_db in *. minv.
  match goal with H : one_or_none ?l _ = (inr (Some ?x), _) |- _ =>
    apply one_or_none_inr in H as (-> & Hhd & _);
    assert (x ∈ l) as Hin by (apply head_Some_elem_of; exact (eq_sym Hhd)) end.
  apply elem_of_select in Hin as (Hrow & k & Hk). wl_tail. destruct a0.
  match goal with w : WhitelistEntry |- _ =>
    pose proof (gw_ok_whitelist (db s) (uuid_supply (db s))
      (delete (wl_id w) (whitelist_entry (db s)))
      (filter (fun o => overlap_whitelist_entry_id o ≠ wl_id w) (feed_sync_overlap (db s))) Hok)
      as Hed; exists a, w end.
  pose proof (cf_whitelist _ (proj2 (proj2 Hok)) _ _ Hk) as (Hwid & _ & _).
  lapply Hed; clear Hed; [intros Hed|].
  2: { intros i x [_ Hx]%lookup_delete_Some. by apply (cf_whitelist _ (proj2 (proj2 Hok))). }
  match goal with Hb : bump_version _ _ = _, He : enqueue_service_update _ _ _ = _ |- _ =>
    pose proof (tail_requeued _ _ _ _ _ _ _ _ Hb He eq_refl Hed) as (Hreq & _ & _) end.
  pose proof Hrow as Hrow'. unfold whitelist_row in Hrow'.
  apply andb_true_iff in Hrow' as [Hsid Hcidr].
  apply bool_decide_eq_true in Hsid, Hcidr. subst. split_and!; try done.
  - eexists. split_and!; [exact Hed|done|done|done| |exact (Hreq _)].
    intros i Hne. unfold content. simpl. rewrite filter_delete_other; [done|].
    intros b Hb. congruence.
  - destruct (Hreq evs) as (svc0 & evs' & _ & _ & _ & Hd). exact (f_equal whitelist_entry Hd).
  - destruct (Hreq evs) as (svc0 & evs' & _ & _ & _ & Hd). exact (f_equal feed_sync_overlap Hd).
Qed.

(** ** Global convergence *)

Definition global_in_flight (d : Db) : list AgentJob :=
  select_where (fun j => is_global_job j && in_flight j) (agent_job d).

Lemma gw_ok_jobs d u aj :
  gw_ok d → apply_inv (protected_service d) aj →
  gw_ok (d <| uuid_supply := u |> <| agent_job := aj |>).
Proof. intros (Ha & Hi & [?????]) Haj. by split_and!. Qed.

(** Either nothing is queued, or one job for the desired revision is: a new one
    or the requeued one of that revision. *)
Lemma convergence_inr s b s' :
  gw_ok (db s) → _enqueue_global_convergence s = (inr b, s') →
  ∃ u aj, db s' = db s <| uuid_supply := u |> <| agent_job := aj |> ∧ gw_ok (db s') ∧
  if b then
    ∃ st j, global_deny_state (db s) = Some st ∧ _state_needs_apply st = true ∧
      global_in_flight (db s) = [] ∧ is_global_job j = true ∧
      job_status j = JobStatus.queued ∧ job_version j = gds_desired_revision st ∧
      aj = <[job_id j := j]> (agent_job (db s)) ∧
      post_commit_callbacks s' = post_commit_callbacks s ++ [DispatchPlain (job_id j)]
  else s' = s.
Proof.
  intros Hok H. unfold _enqueue_global_convergence, get_db in H. minv.
  assert (b = false → s' = s → ∃ u aj, db s' = db s <| uuid_supply := u |> <| agent_job := aj |> ∧
    gw_ok (db s') ∧ s' = s) as Hsame.
  { intros -> ->. exists (uuid_supply (db s)), (agent_job (db s)). by destruct (db s). }
  destruct (global_deny_state (db s)) as [st|] eqn:Est.
  2: { minv. destruct (Hsame eq_refl eq_refl) as (u & aj & ? & ? & ?).
       exists u, aj. rewrite <- Est. by split_and!. }
  destruct (_state_needs_apply st) eqn:En; simpl in H.
  2: { minv. destruct (Hsame eq_refl eq_refl) as (u & aj & ? & ? & ?).
       exists u, aj. rewrite <- Est. by split_and!. }
  minv. destruct (select_where _ _) as [|x l] eqn:Ein.
  2: { minv. destruct (Hsame eq_refl eq_refl) as (u & aj & ? & ? & ?).
       exists u, aj. rewrite <- Est. by split_and!. }
  clear Hsame. minv.
  match goal with H : one_or_none ?l _ = (inr ?o, _) |- _ =>
    apply one_or_none_inr in H as (-> & -> & _) end.
  unfold put_job, add_post_commit_callback, mod_db in *. minv.
  match goal with H : (match ?o with _ => _ end) s = (inr ?j, ?s1) |- _ =>
    rename H into Hjob; rename j into job; rename s1 into sj end.
  assert (∃ u, sj = s <| db := db s <| uuid_supply := u |> |> ∧ is_global_job job = true ∧
    job_status job = JobStatus.queued ∧ job_version job = gds_desired_revision st ∧
    ∀ j0 sid, agent_job (db s) !! job_id job = Some j0 → job_target j0 ≠ TargetService sid) as Hj.
  { destruct (head _) as [x|] eqn:Eh.
    - minv. apply head_Some_elem_of, elem_of_select in Eh as ([Hg Hv]%andb_true_iff & k & Hk).
      exists (uuid_supply (db s)). pose proof (li_job_id _ _ (proj1 (proj1 Hok)) _ _ Hk) as Hid.
      split_and!; [by destruct s as [[] ? ? ?]|done|done|simpl; lia|].
      simpl. rewrite Hid, Hk. intros j0 sid [= <-] Ht.
      unfold is_global_job in Hg. apply bool_decide_eq_true in Hg. congruence.
    - unfold utc_now, check_pkey, get_db in Hjob. minv.
      match goal with H : uuid4 _ = _ |- _ => apply uuid4_inr in H as [-> ->] end.
      exists (Pos.succ (uuid_supply (db s))). split_and!; try done.
      intros j0 sid Hl. match goal with H : bool_decide _ = true |- _ =>
        apply bool_decide_eq_true in H; simpl in * end. congruence. }
  clear Hjob. destruct Hj as (u & -> & Hg & Hq & Hv & Hold).
  exists u, (<[job_id job := job]> (agent_job (db s))). split_and!; [simpl; by rewrite <- Est| |].
  - apply (gw_ok_jobs (db s) u); [done|]. apply apply_inv_other_job; [apply Hok| |done].
    intros sid Ht. unfold is_global_job in Hg. apply bool_decide_eq_true in Hg. congruence.
  - exists st, job. by split_and!.
Qed.

(** ** Global blacklist *)

Lemma gw_ok_deny d d' : gw_ok d → deny_frame d d' → gw_ok d'.
Proof. intros (Ha & Hi & [?????]) (?&?&?&?&?&?&?&->). by split_and!. Qed.

Section blacklist.
Context (sha256 : pystr → string).

(** Everything the deny set is made of. *)
Definition deny_same (d d' : Db) : Prop :=
  blacklist_entry d' = blacklist_entry d ∧
  feed_blacklist_assertion d' = feed_blacklist_assertion d ∧
  global_deny_state d' = global_deny_state d.

Lemma deny_ok_same d d' : deny_same d d' → deny_ok sha256 d → deny_ok sha256 d'.
Proof.
  intros (E1 & E2 & E3) ([????] & Hfb & Hdig). split_and!.
  - by split; rewrite ?E1, ?E2.
  - unfold feed_backed, asserted. by rewrite E1, E2.
  - unfold _global_cidrs, global_entries. by rewrite E1, E3.
Qed.

Lemma materialize_enqueue_inr s u s' :
  gw_ok (db s) → bl_ok (db s) → feed_backed (db s) →
  _materialize_global_deny_and_enqueue sha256 s = (inr u, s') →
  gw_ok (db s') ∧ deny_ok sha256 (db s') ∧
  blacklist_entry (db s') = blacklist_entry (db s) ∧
  feed_blacklist_assertion (db s') = feed_blacklist_assertion (db s) ∧
  global_deny_state (db s') =
    Some (advance sha256 (_global_cidrs (db s))
            (default initial_deny_state (global_deny_state (db s)))).
Proof.
  intros Hgw Hbl Hfb H. unfold _materialize_global_deny_and_enqueue in H. minv.
  match goal with H : materialize_global_union _ _ = _ |- _ =>
    apply materialize_inr in H as (_ & -> & ->) end.
  set (st := advance _ _ _) in *.
  set (d1 := db s <| global_deny_state := Some st |>).
  assert (deny_ok sha256 d1) as Hd1.
  { split_and!; [by destruct Hbl; split|done|]. intros st' [= <-]. apply advance_digest. }
  assert (gw_ok d1) as Hg1 by (apply (gw_ok_deny (db s)); [done|]; do 7 eexists; done).
  cbn [mr_changed] in H. destruct (negb _).
  - minv. match goal with H : _enqueue_global_convergence _ = _ |- _ =>
      apply (fun A => convergence_inr _ _ _ A H) in Hg1 as (u1 & aj & Hdb & Hok & _) end.
    split; [done|]. rewrite Hdb. split_and!; try done.
    by apply (deny_ok_same d1).
  - minv. by split_and!.
Qed.

Lemma put_entry_ok d e e0 :
  bl_ok d → feed_backed d → blacklist_entry d !! bl_id e = Some e0 →
  bl_scope e = bl_scope e0 → bl_source_cidr e = bl_source_cidr e0 →
  (is_feed_entry e = true → ∃ s, asserted d s (bl_id e)) →
  let d' := d <| blacklist_entry := <[bl_id e := e]> (blacklist_entry d) |> in
  bl_ok d' ∧ feed_backed d'.
Proof.
  intros [Hk Hu Hw Ha] Hfb He Es Ec Hf. split.
  - split; cbn -[lookup insert].
    + intros i x [[<- <-]|[_ Hx]]%lookup_insert_Some; eauto.
    + unfold is_global. intros i x i' x' [[<- <-]|[Hn Hx]]%lookup_insert_Some
        [[<- <-]|[Hn' Hx']]%lookup_insert_Some Hg Hg' Hc; [done| | |eauto].
      * rewrite Es in Hg. rewrite Ec in Hc. eapply (Hu (bl_id e) e0 i' x'); eauto.
      * rewrite Es in Hg'. rewrite Ec in Hc. eapply (Hu i x (bl_id e) e0); eauto.
    + intros i x [[<- <-]|[_ Hx]]%lookup_insert_Some; [rewrite Ec|]; eauto.
    + intros s i a Hs. destruct (Ha s i a Hs) as (x & Hx & Hg).
      destruct (decide (i = bl_id e)) as [->|Hne].
      * exists e. rewrite lookup_insert_eq. split; [done|]. unfold is_global in *.
        rewrite Es. rewrite He in Hx. by injection Hx as <-.
      * exists x. by rewrite lookup_insert_ne.
  - intros i x. cbn -[lookup insert]. intros [[<- <-]|[_ Hx]]%lookup_insert_Some Hg Hfe; eauto.
Qed.

Lemma new_entry_ok d e u :
  bl_ok d → feed_backed d → blacklist_entry d !! bl_id e = None → is_feed_entry e = false →
  net_wf (bl_source_cidr e) → entry_with_cidr d (bl_source_cidr e) = [] →
  let d' := d <| uuid_supply := u |> <| blacklist_entry := <[bl_id e := e]> (blacklist_entry d) |> in
  bl_ok d' ∧ feed_backed d'.
Proof.
  intros [Hk Hu Hw Ha] Hfb Hnew Hm Hwf Hno. rewrite entry_with_cidr_nil in Hno. split.
  - split; cbn -[lookup insert].
    + intros i x [[<- <-]|[_ Hx]]%lookup_insert_Some; eauto.
    + intros i x i' x' [[<- <-]|[Hn Hx]]%lookup_insert_Some
        [[<- <-]|[Hn' Hx']]%lookup_insert_Some Hg Hg' Hc; [done| | |eauto].
      * by destruct (Hno i' x' Hx' Hg').
      * by destruct (Hno i x Hx Hg).
    + intros i x [[<- <-]|[_ Hx]]%lookup_insert_Some; eauto.
    + intros s i a Hs. destruct (Ha s i a Hs) as (x & Hx & Hg). exists x.
      rewrite lookup_insert_ne; [done|congruence].
  - intros i x. cbn -[lookup insert]. intros [[<- <-]|[_ Hx]]%lookup_insert_Some Hg Hfe; eauto.
    congruence.
Qed.

Lemma drop_entry_ok d i :
  bl_ok d → feed_backed d → (∀ s, ¬ asserted d s i) →
  bl_ok (delete_blacklist_row i d) ∧ feed_backed (delete_blacklist_row i d).
Proof.
  intros [Hk Hu Hw Ha] Hfb Hno.
  assert (∀ s k a, feed_blacklist_assertion (delete_blacklist_row i d) !! (s, k) = Some a →
    k ≠ i ∧ feed_blacklist_assertion d !! (s, k) = Some a) as Hfba.
  { intros s k a Hs. simpl in Hs. apply map_lookup_filter_Some in Hs as [? ?]. done. }
  split.
  - split; cbn -[lookup delete].
    + intros k x [_ Hx]%lookup_delete_Some; eauto.
    + intros k x k' x' [_ Hx]%lookup_delete_Some [_ Hx']%lookup_delete_Some. eauto.
    + intros k x [_ Hx]%lookup_delete_Some; eauto.
    + intros s k a [Hne Hs]%Hfba. rewrite lookup_delete_ne by done. eauto.
  - intros k x. cbn -[lookup delete]. intros [Hne Hx]%lookup_delete_Some Hg Hf.
    destruct (Hfb k x Hx Hg Hf) as [s [a Hs]]. exists s, a. simpl.
    apply map_lookup_filter_Some. done.
Qed.

(** What a successful addition did. *)
Lemma add_blacklist_inr src actor ip s e s' :
  gw_ok (db s) → deny_ok sha256 (db s) →
  add_blacklist sha256 src actor ip s = (inr e, s') →
  _require_admin_actor actor = inr tt ∧ gw_ok (db s') ∧ deny_ok sha256 (db s') ∧
  _parse_source src = inr (bl_source_cidr e) ∧ is_feed_entry e = false ∧
  blacklist_entry (db s') = <[bl_id e := e]> (blacklist_entry (db s)) ∧
  feed_blacklist_assertion (db s') = feed_blacklist_assertion (db s) ∧
  is_global e = true ∧
  (∀ e0, blacklist_entry (db s) !! bl_id e = Some e0 → bl_source_cidr e0 = bl_source_cidr e).
Proof.
  intros Hgw (Hbl & Hfb & _) H. unfold add_blacklist, _global_blacklist_entry_for_update, get_db in H.
  minv.
  match goal with H : one_or_none _ _ = _ |- _ => apply one_or_none_inr in H as (-> & -> & _) end.
  match goal with H : _parse_source _ = _ |- _ =>
    pose proof (parse_source_inr _ _ H) as (_ & Hwf & _) end.
  match goal with H : (match head ?l with _ => _ end) s = (inr ?x, ?s1) |- _ =>
    rename H into He; rename x into e0; rename s1 into se end.
  assert (∃ u, db se = db s <| uuid_supply := u |>
      <| blacklist_entry := <[bl_id e0 := e0]> (blacklist_entry (db s)) |> ∧
    bl_ok (db se) ∧ feed_backed (db se) ∧ is_feed_entry e0 = false ∧ bl_source_cidr e0 = a0 ∧
    is_global e0 = true ∧
    (∀ x, blacklist_entry (db s) !! bl_id e0 = Some x → bl_source_cidr x = a0))
    as (u & Edb & Hbl1 & Hfb1 & Hm & Hc & Hgl & Hsame).
  { destruct (head _) as [x|] eqn:Eh.
    - apply head_Some_elem_of, elem_of_select in Eh as ([Hg Hx]%andb_true_iff & k & Hk).
      apply bool_decide_eq_true in Hx. destruct (is_feed_entry x) eqn:Ef; [|by minv].
      unfold put_blacklist, mod_db in He. minv.
      pose proof (bl_key _ Hbl _ _ Hk) as <-.
      exists (uuid_supply (db s)). split; [by destruct s as [[] ? ? ?]|].
      destruct (put_entry_ok (db s) (mkBlacklistEntry (bl_id x) (bl_scope x) source_manual
        (bl_source_cidr x) (user_id <$> actor) (bl_created_at x)) x Hbl Hfb Hk eq_refl eq_refl)
        as [? ?]; [done|].
      split_and!; try done. simpl. intros y Hy. by simplify_eq.
    - apply head_None in Eh. unfold utc_now, get_db in He. minv.
      match goal with H : uuid4 _ = _ |- _ => apply uuid4_inr in H as [-> ->] end.
      match goal with H : try_except _ _ _ = _ |- _ =>
        apply try_except_inr in H as [H|(e & s1 & _ & He)];
          [|by apply raise_list_error_inr in He] end.
      unfold insert_blacklist, check_pkey, put_blacklist, get_db, mod_db in *. minv.
      match goal with H : bool_decide (_ !! _ = None) = true |- _ =>
        apply bool_decide_eq_true in H as Hnew end.
      exists (Pos.succ (uuid_supply (db s))). split; [done|].
      destruct (new_entry_ok (db s) (mkBlacklistEntry (uuid_supply (db s)) scope_global
        source_manual a0 (user_id <$> actor) (clock (db s))) (Pos.succ (uuid_supply (db s)))
        Hbl Hfb Hnew eq_refl Hwf Eh) as [? ?]. split_and!; try done.
      simpl. intros y Hy. congruence. }
  assert (gw_ok (db se)) as Hgwe.
  { rewrite Edb. eapply gw_ok_deny; [exact Hgw|].
    by exists u, (<[bl_id e0 := e0]> (blacklist_entry (db s))), (feed_blacklist_assertion (db s)),
      (feed_sync_overlap (db s)), (global_deny_state (db s)), (feed_sync_run (db s)),
      (audit_events (db s)). }
  match goal with H : _materialize_global_deny_and_enqueue _ _ = _ |- _ =>
    apply materialize_enqueue_inr in H as (Hg' & Hd' & Eb & Ea & _); [|done..] end.
  match goal with H : blacklist_event _ _ _ _ _ _ = _ |- _ =>
    apply record_event_inr in H as [evs ->] end.
  destruct a. rewrite Hc. split_and!; try done.
  - by apply (gw_ok_audit _ evs) in Hg'.
  - eapply deny_ok_same; [|exact Hd']; done.
  - simpl. by rewrite Eb, Edb.
  - simpl. by rewrite Ea, Edb.
Qed.

(** What a successful removal did: the manual mark goes, and the entry stays as
    a feed entry exactly when some feed still asserts it. *)
Lemma remove_blacklist_inr src actor ip s u s' :
  gw_ok (db s) → deny_ok sha256 (db s) →
  remove_blacklist sha256 src actor ip s = (inr u, s') →
  ∃ e, _require_admin_actor actor = inr tt ∧ gw_ok (db s') ∧ deny_ok sha256 (db s') ∧
    _parse_source src = inr (bl_source_cidr e) ∧
    blacklist_entry (db s) !! bl_id e = Some e ∧ is_feed_entry e = false ∧
    blacklist_entry (db s') =
      (if _has_feed_assertions (db s) (bl_id e)
       then <[bl_id e := e <| bl_source := source_feed |> <| bl_created_by := None |>]>
              (blacklist_entry (db s))
       else delete (bl_id e) (blacklist_entry (db s))) ∧
    is_global e = true.
Proof.
  intros Hgw (Hbl & Hfb & _) H.
  unfold remove_blacklist, _require_blacklist_entry, _global_blacklist_entry_for_update, get_db in H.
  minv.
  match goal with H : one_or_none ?l _ = (inr (Some ?x), _) |- _ =>
    apply one_or_none_inr in H as (-> & Hhd & _); rename x into e;
    assert (e ∈ l) as Hin by (apply head_Some_elem_of; exact (eq_sym Hhd)) end.
  apply elem_of_select in Hin as ([Hg Hx]%andb_true_iff & k & Hk).
  apply bool_decide_eq_true in Hx. pose proof (bl_key _ Hbl _ _ Hk) as <-.
  match goal with H : negb _ = true |- _ => apply negb_true_iff in H as Hm end.
  match goal with H : (if _ then _ else _) s = (inr _, ?s1) |- _ =>
    rename H into He; rename s1 into se end.
  unfold put_blacklist, mod_db in He.
  assert (bl_ok (db se) ∧ feed_backed (db se) ∧ deny_frame (db s) (db se) ∧
    blacklist_entry (db se) = (if _has_feed_assertions (db s) (bl_id e)
       then <[bl_id e := e <| bl_source := source_feed |> <| bl_created_by := None |>]>
              (blacklist_entry (db s))
       else delete (bl_id e) (blacklist_entry (db s)))) as (Hbl1 & Hfb1 & Hfr & Eb1).
  { unfold _has_feed_assertions in *.
    destruct (asserted_by (db s) (fun _ => true) (bl_id e)) eqn:Eas; minv.
    - apply asserted_by_iff in Eas as (s0 & _ & Hs0).
      destruct (put_entry_ok (db s) (mkBlacklistEntry (bl_id e) (bl_scope e) source_feed
        (bl_source_cidr e) None (bl_created_at e)) e Hbl Hfb Hk eq_refl eq_refl) as [? ?]; [by exists s0|].
      split_and!; try done. by do 7 eexists.
    - destruct (drop_entry_ok (db s) (bl_id e) Hbl Hfb) as [? ?].
      { intros s0 Hs0. assert (asserted_by (db s) (fun _ => true) (bl_id e) = true);
          [|congruence]. apply asserted_by_iff. by exists s0. }
      split_and!; try done. simpl.
      exists (uuid_supply (db s)), (delete (bl_id e) (blacklist_entry (db s))),
        (feed_blacklist_assertion (delete_blacklist_row (bl_id e) (db s))),
        (feed_sync_overlap (delete_blacklist_row (bl_id e) (db s))), (global_deny_state (db s)),
        (feed_sync_run (db s)), (audit_events (db s)). done. }
  match goal with H : _materialize_global_deny_and_enqueue _ _ = _ |- _ =>
    apply materialize_enqueue_inr in H as (Hg' & Hd' & Eb & _ & _);
      [|by eapply gw_ok_deny|done..] end.
  match goal with H : blacklist_event _ _ _ _ _ _ = _ |- _ =>
    apply record_event_inr in H as [evs ->] end.
  exists e. destruct a. split_and!; try done.
  - by apply (gw_ok_audit _ evs) in Hg'.
  - eapply deny_ok_same; [|exact Hd']; done.
  - by rewrite Hx.
  - simpl. rewrite Eb. exact Eb1.
Qed.
End blacklist.
