(* ===== verification/NodeControl.v ===== *)
(** * Node-wide switches ([services/node_control.py])

    The singleton row of [node_control]: the bypass switch and the
    maintenance switch, which holds back the claims of service jobs. *)

From S2P Require Import Prelude Ipaddress Models Db.
Open Scope Z_scope.

Definition initial_node_control : NodeControl :=
  mkNodeControl false false None None None None None.

(** INSERT ... ON CONFLICT (id) DO NOTHING. *)
Definition _ensure_node_control : M Session unit :=
  mod_db (fun d => match node_control d with
                   | None => d <| node_control := Some initial_node_control |>
                   | Some _ => d
                   end).

Definition get_node_control : M Session NodeControl :=
  _ensure_node_control ;;
  nc ← get_db node_control;
  get_or_raise nc (RuntimeError "No row was found when one was required").

Definition _locked_node_control : M Session NodeControl := get_node_control.

Definition put_node_control (nc : NodeControl) : M Session unit :=
  mod_db (fun d => d <| node_control := Some nc |>).

Definition set_bypass (actor : option User) (enabled : bool) (reason ip : option string)
    : M Session NodeControl :=
  control ← _locked_node_control;
  if eqb (nc_bypass_enabled control) enabled then mret control else
  now ← utc_now;
  let control := control <| nc_bypass_enabled := enabled |>
    <| nc_bypass_reason := if enabled then reason else None |>
    <| nc_bypass_activated_at := if enabled then Some now else None |>
    <| nc_bypass_actor_user_id := user_id <$> actor |> in
  put_node_control control ;;
  record_event actor (if enabled then "node.bypass.enabled" else "node.bypass.disabled")
    (Some "node_control"%string) (Some "1"%string) "success" ip
    (Some [("reason"%string, match reason with Some r => JStr r | None => JNull end)]) ;;
  mret control.

Definition set_maintenance (actor : option User) (enabled : bool) (ip : option string)
    : M Session NodeControl :=
  control ← _locked_node_control;
  if eqb (nc_maintenance_enabled control) enabled then mret control else
  now ← utc_now;
  let control := control <| nc_maintenance_enabled := enabled |>
    <| nc_maintenance_activated_at := if enabled then Some now else None |>
    <| nc_maintenance_actor_user_id := user_id <$> actor |> in
  put_node_control control ;;
  record_event actor (if enabled then "node.maintenance.enabled" else "node.maintenance.disabled")
    (Some "node_control"%string) (Some "1"%string) "success" ip None ;;
  mret control.

Definition maintenance_active : M Session bool :=
  nc ← get_node_control;
  mret (nc_maintenance_enabled nc).

(** Reading the switches writes at most the singleton row. *)
Definition node_control_of (d : Db) : NodeControl :=
  match node_control d with Some nc => nc | None => initial_node_control end.

Lemma get_node_control_run s :
  get_node_control s =
  (inr (node_control_of (db s)), s <| db := db s <| node_control := Some (node_control_of (db s)) |> |>).
Proof.
  unfold get_node_control, _ensure_node_control, get_db, mod_db, node_control_of. mstep. simpl.
  destruct s as [[] ? ? ?]. simpl. destruct node_control; done.
Qed.
