(* ===== verification/FeedJobs.v ===== *)
(** * Job lifecycles ([worker/feed_jobs.py])

    What claiming, succeeding, failing and recovering a durable job does, per
    job type: a service update goes through [services/apply.py], a feed
    synchronisation moves its run and its source along, and a global-deny job
    stands alone. *)

From S2P Require Import Prelude Ipaddress Models Db Apply PyNum.
From Stdlib Require Import Ascii.
Open Scope Z_scope.

(** ** Regular expressions as Python's [re] matches them

    Backtracking matching with greedy repetition, leftmost search and
    [Pattern.sub], over ASCII text.  A pattern is split into the group whose
    text the replacement keeps and the rest. *)

Inductive regex :=
  | Eps
  | Chr (p : ascii → bool)
  | Seq (a b : regex)
  | Alt (a b : regex)
  | Star (a : regex)
  | WordBoundary.

Definition code (c : ascii) : N := N_of_ascii c.
Definition between (lo hi : N) (c : ascii) : bool := ((lo <=? code c) && (code c <=? hi))%N.

(** [\w], [\s]. *)
Definition is_word (c : ascii) : bool :=
  between 48 57 c || between 65 90 c || between 97 122 c || (code c =? 95)%N.
Definition is_space (c : ascii) : bool := between 9 13 c || between 28 32 c.

Definition head_word (s : string) : bool :=
  match s with EmptyString => false | String c _ => is_word c end.
Definition prev_word (p : option ascii) : bool :=
  match p with None => false | Some c => is_word c end.

(** [rmatch r prev s k]: match [r] at the front of [s], after the character
    [prev], and hand what follows to [k]; [None] backtracks. *)
Fixpoint rmatch {A} (r : regex) (prev : option ascii) (s : string)
    (k : option ascii → string → option A) : option A :=
  match r with
  | Eps => k prev s
  | Chr p =>
      match s with
      | EmptyString => None
      | String c s' => if p c then k (Some c) s' else None
      end
  | Seq a b => rmatch a prev s (fun prev' s' => rmatch b prev' s' k)
  | Alt a b =>
      match rmatch a prev s k with
      | Some x => Some x
      | None => rmatch b prev s k
      end
  | Star a =>
      (fix go (n : nat) (prev : option ascii) (s : string) : option A :=
         match n with
         | O => k prev s
         | S n =>
             match rmatch a prev s (fun prev' s' =>
                     if (String.length s' <? String.length s)%nat then go n prev' s' else None)
             with
             | Some x => Some x
             | None => k prev s
             end
         end) (String.length s) prev s
  | WordBoundary => if xorb (prev_word prev) (head_word s) then k prev s else None
  end.

(** Notations of the pattern language. *)
Definition plus (r : regex) : regex := Seq r (Star r).
Definition opt (r : regex) : regex := Alt r Eps.
Definition ci (c : ascii) : regex := Chr (fun d => bool_decide (lower_ascii d = lower_ascii c)).
Fixpoint word (s : string) : regex :=
  match s with EmptyString => Eps | String c s => Seq (ci c) (word s) end.
Fixpoint alts (l : list regex) : regex :=
  match l with [] => Chr (fun _ => false) | [r] => r | r :: l => Alt r (alts l) end.
Definition none_of (excluded : string) (space : bool) : regex :=
  Chr (fun c => negb (str_contains (String c EmptyString) excluded) &&
                negb (space && is_space c)).

(** The text [s] in front of its suffix [rest]. *)
Definition upto (s rest : string) : string :=
  String.substring 0 (String.length s - String.length rest) s.

(** [re.sub]: replace each leftmost match of [group][rest] by the text of the
    group and [repl].  The patterns here match no empty text. *)
Fixpoint re_sub_fuel (fuel : nat) (group rest : regex) (repl : string)
    (prev : option ascii) (s : string) : string :=
  match fuel with
  | O => s
  | S fuel =>
      match rmatch group prev s (fun p1 s1 =>
              rmatch rest p1 s1 (fun p2 s2 => Some (s1, p2, s2))) with
      | Some (s1, p2, s2) =>
          upto s s1 +:+ repl +:+ re_sub_fuel fuel group rest repl p2 s2
      | None =>
          match s with
          | EmptyString => EmptyString
          | String c s' => String c (re_sub_fuel fuel group rest repl (Some c) s')
          end
      end
  end.
Definition re_sub (group rest : regex) (repl s : string) : string :=
  re_sub_fuel (String.length s) group rest repl None s.

Definition ORPHAN_ERROR : string := "worker restarted mid-apply".
Definition MAX_RECOVERY_ATTEMPTS : Z := 3.

(** ** Redaction of error texts *)

Definition word_dash : regex := Chr (fun c => is_word c || (code c =? 45)%N).
Definition space : regex := Chr is_space.

Definition _SECRET_KEY : regex :=
  Seq WordBoundary (Seq (Star word_dash)
   (Seq (alts (word <$> ["password"; "token"; "secret"; "credential"; "authorization"]%string))
   (Seq (Star word_dash) (Seq WordBoundary (Seq (Star space)
   (Seq (alts [word "="; word ":"]) (Star space))))))).
Definition value_chars : regex := plus (none_of ",;" true).
Definition _BEARER_VALUE : regex :=
  Seq WordBoundary (Seq (word "bearer") (Seq (plus space) value_chars)).
Definition _URL_SCHEME : regex := Seq (word "http") (Seq (opt (word "s")) (word "://")).
Definition _URL_USERINFO : regex :=
  Seq (plus (none_of "/:@" true)) (Seq (word ":") (Seq (plus (none_of "@/" true)) (word "@"))).

Definition _scrub_error (error : string) : string :=
  let scrubbed := re_sub _URL_SCHEME _URL_USERINFO "[redacted]@" error in
  let scrubbed := re_sub Eps _BEARER_VALUE "Bearer [redacted]" scrubbed in
  let scrubbed := re_sub _SECRET_KEY value_chars "[redacted]" scrubbed in
  String.substring 0 APPLY_ERROR_LIMIT scrubbed.

(** [int((finished - started).total_seconds() * 1000)], never negative. *)
Definition _duration_ms (started_at : option timestamp) (finished_at : timestamp) : option Z :=
  (fun started => Z.max 0 (int_of_float
     (fmul (fdiv (float_of_Z (finished_at - started)) (float_of_Z 1000000)) (float_of_Z 1000))))
  <$> started_at.

(** ** Row access *)

Definition _locked_job (id : uuid) : M Session (option AgentJob) :=
  jobs ← get_db agent_job;
  mret (jobs !! id).

Definition feed_sync_run_id (job : AgentJob) : option uuid :=
  match job_target job with TargetFeedRun r => Some r | _ => None end.

Definition _locked_run (run : option uuid) : M Session (option FeedSyncRun) :=
  runs ← get_db feed_sync_run;
  mret (run ≫= (fun r => runs !! r)).

Definition _locked_feed_source (id : uuid) : M Session (option ThreatFeedSource) :=
  sources ← get_db threat_feed_source;
  mret (sources !! id).

Definition put_run (run : FeedSyncRun) : M Session unit :=
  mod_db (fun d => d <| feed_sync_run := <[run_id run := run]> (feed_sync_run d) |>).
Definition put_source (src : ThreatFeedSource) : M Session unit :=
  mod_db (fun d => d <| threat_feed_source := <[feed_id src := src]> (threat_feed_source d) |>).

Definition _finish_noop (job : AgentJob) (run : option FeedSyncRun) : M Session unit :=
  finished_at ← utc_now;
  put_job (job <| job_status := JobStatus.succeeded |> <| job_error := None |>
               <| job_finished_at := Some finished_at |>) ;;
  match run with
  | None => mret tt
  | Some run =>
      put_run (run <| run_status := FeedSyncStatus.success |> <| run_error := None |>
                   <| run_finished_at := Some finished_at |>
                   <| run_duration_ms := _duration_ms (run_started_at run) finished_at |>)
  end.

(** ** The lifecycle protocol *)

Record JobLifecycle := mkJobLifecycle {
  lc_claim : AgentJob → M Session bool;
  lc_succeed : AgentJob → option FeedSyncStatus.t → M Session unit;
  lc_fail : AgentJob → string → M Session unit;
  lc_recover : AgentJob → M Session unit
}.

Definition has_status (st : JobStatus.t) (job : AgentJob) : bool :=
  bool_decide (job_status job = st).
Definition run_is (st : FeedSyncStatus.t) (run : FeedSyncRun) : bool :=
  bool_decide (run_status run = st).
Definition is_deleted (src : ThreatFeedSource) : bool :=
  bool_decide (is_Some (feed_deleted_at src)).

(** A job put back in the queue, a run put back in the queue. *)
Definition requeue_job (job : AgentJob) : AgentJob :=
  job <| job_status := JobStatus.queued |> <| job_error := None |>
      <| job_started_at := None |> <| job_finished_at := None |>
      <| job_dispatched_at := None |>.
Definition requeue_run (run : FeedSyncRun) : FeedSyncRun :=
  run <| run_status := FeedSyncStatus.queued |> <| run_error := None |>
      <| run_started_at := None |> <| run_finished_at := None |>
      <| run_duration_ms := None |>.

Module ServiceJobLifecycle.
Definition claim (job : AgentJob) : M Session bool :=
  mark_applying (job_id job) ;;
  claimed ← _locked_job (job_id job);
  mret (match claimed with Some j => has_status JobStatus.applying j | None => false end).

Definition succeed (job : AgentJob) (outcome : option FeedSyncStatus.t) : M Session unit :=
  mark_active (job_id job).

Definition fail (job : AgentJob) (error : string) : M Session unit :=
  mark_failed (job_id job) error.

Definition recover (job : AgentJob) : M Session unit :=
  mark_failed (job_id job) ORPHAN_ERROR ;;
  services ← get_db protected_service;
  match job_target job with
  | TargetService sid =>
      match services !! sid with
      | None => mret tt
      | Some svc => retry (svc_id svc) None ;; mret tt
      end
  | _ => mret tt
  end.
End ServiceJobLifecycle.

Module FeedSyncJobLifecycle.
Definition claim (job : AgentJob) : M Session bool :=
  locked ← _locked_job (job_id job);
  match locked with
  | None => mret false
  | Some locked_job =>
    if is_terminal (job_status locked_job) then mret false else
    if negb (has_status JobStatus.queued locked_job) then mret false else
    run ← _locked_run (feed_sync_run_id locked_job);
    match run with
    | None => _finish_noop locked_job None ;; mret false
    | Some run =>
      source ← _locked_feed_source (run_feed_source_id run);
      match source with
      | None => _finish_noop locked_job (Some run) ;; mret false
      | Some source =>
        if is_deleted source then _finish_noop locked_job (Some run) ;; mret false else
        if negb (run_is FeedSyncStatus.queued run) then mret false else
        now ← utc_now;
        put_job (locked_job <| job_status := JobStatus.applying |> <| job_error := None |>
                            <| job_started_at := Some now |>
                            <| job_attempts := job_attempts locked_job + 1 |>) ;;
        put_run (run <| run_status := FeedSyncStatus.running |> <| run_error := None |>
                     <| run_started_at := Some now |> <| run_finished_at := None |>
                     <| run_duration_ms := None |>) ;;
        mret true
      end
    end
  end.

(** The guards [succeed] and [fail] share: an applying job whose run is
    running and whose source is live; otherwise the job ends without effect
    or is closed as a no-op. *)
Definition with_running (job : AgentJob)
    (k : AgentJob → FeedSyncRun → ThreatFeedSource → M Session unit) : M Session unit :=
  locked ← _locked_job (job_id job);
  match locked with
  | None => mret tt
  | Some locked_job =>
    if is_terminal (job_status locked_job) then mret tt else
    if negb (has_status JobStatus.applying locked_job) then mret tt else
    run ← _locked_run (feed_sync_run_id locked_job);
    match run with
    | None => _finish_noop locked_job None
    | Some run =>
      source ← _locked_feed_source (run_feed_source_id run);
      match source with
      | None => _finish_noop locked_job (Some run)
      | Some source =>
        if is_deleted source then _finish_noop locked_job (Some run) else
        if negb (run_is FeedSyncStatus.running run) then mret tt else
        k locked_job run source
      end
    end
  end.

Definition finish_source (source : ThreatFeedSource) (st : FeedSyncStatus.t)
    (error : option string) (now : timestamp) : ThreatFeedSource :=
  source <| feed_last_status := Some st |> <| feed_last_error := error |>
         <| feed_last_sync_at := Some now |>
         <| feed_next_sync_at := Some (now + feed_sync_interval_seconds source * 1000000) |>
         <| feed_updated_at := now |>.

Definition succeed (job : AgentJob) (outcome : option FeedSyncStatus.t) : M Session unit :=
  with_running job (fun locked_job run source =>
    let final_status := default FeedSyncStatus.success outcome in
    require (bool_decide (final_status ∈ [FeedSyncStatus.success; FeedSyncStatus.partial]))
      (ValueError "Feed success outcome must be success or partial") ;;
    finished_at ← utc_now;
    put_job (locked_job <| job_status := JobStatus.succeeded |> <| job_error := None |>
                        <| job_finished_at := Some finished_at |>) ;;
    put_run (run <| run_status := final_status |> <| run_error := None |>
                 <| run_finished_at := Some finished_at |>
                 <| run_duration_ms := _duration_ms (run_started_at run) finished_at |>) ;;
    put_source (finish_source source final_status None finished_at)).

Definition fail (job : AgentJob) (error : string) : M Session unit :=
  with_running job (fun locked_job run source =>
    finished_at ← utc_now;
    let safe_error := _scrub_error error in
    put_job (locked_job <| job_status := JobStatus.failed |> <| job_error := Some safe_error |>
                        <| job_finished_at := Some finished_at |>) ;;
    put_run (run <| run_status := FeedSyncStatus.failed |> <| run_error := Some safe_error |>
                 <| run_finished_at := Some finished_at |>
                 <| run_duration_ms := _duration_ms (run_started_at run) finished_at |>) ;;
    put_source (finish_source source FeedSyncStatus.failed (Some safe_error) finished_at)).

Definition recover (job : AgentJob) : M Session unit :=
  fail job ORPHAN_ERROR ;;
  locked ← _locked_job (job_id job);
  match locked with
  | None => mret tt
  | Some locked_job =>
    if negb (has_status JobStatus.failed locked_job) ||
       (MAX_RECOVERY_ATTEMPTS <=? job_attempts locked_job) then mret tt else
    run ← _locked_run (feed_sync_run_id locked_job);
    match run with
    | None => mret tt
    | Some run =>
      source ← _locked_feed_source (run_feed_source_id run);
      match source with
      | None => mret tt
      | Some source =>
        if is_deleted source then mret tt else
        put_job (requeue_job locked_job) ;;
        put_run (requeue_run run)
      end
    end
  end.
End FeedSyncJobLifecycle.

Module GlobalDenyJobLifecycle.
Definition claim (job : AgentJob) : M Session bool :=
  locked ← _locked_job (job_id job);
  match locked with
  | None => mret false
  | Some locked_job =>
    if is_terminal (job_status locked_job) ||
       negb (has_status JobStatus.queued locked_job) then mret false else
    now ← utc_now;
    put_job (locked_job <| job_status := JobStatus.applying |> <| job_error := None |>
                        <| job_started_at := Some now |>
                        <| job_attempts := job_attempts locked_job + 1 |>) ;;
    mret true
  end.

Definition succeed (job : AgentJob) (outcome : option FeedSyncStatus.t) : M Session unit :=
  locked ← _locked_job (job_id job);
  match locked with
  | None => mret tt
  | Some locked_job =>
    if is_terminal (job_status locked_job) then mret tt else
    if negb (has_status JobStatus.applying locked_job) then mret tt else
    now ← utc_now;
    put_job (locked_job <| job_status := JobStatus.succeeded |> <| job_error := None |>
                        <| job_finished_at := Some now |>)
  end.

Definition fail (job : AgentJob) (error : string) : M Session unit :=
  locked ← _locked_job (job_id job);
  match locked with
  | None => mret tt
  | Some locked_job =>
    if is_terminal (job_status locked_job) then mret tt else
    if negb (has_status JobStatus.applying locked_job) then mret tt else
    now ← utc_now;
    put_job (locked_job <| job_status := JobStatus.failed |>
                        <| job_error := Some (_scrub_error error) |>
                        <| job_finished_at := Some now |>)
  end.

Definition recover (job : AgentJob) : M Session unit :=
  fail job ORPHAN_ERROR ;;
  locked ← _locked_job (job_id job);
  match locked with
  | None => mret tt
  | Some locked_job =>
    if negb (has_status JobStatus.failed locked_job) ||
       (MAX_RECOVERY_ATTEMPTS <=? job_attempts locked_job) then mret tt else
    put_job (requeue_job locked_job)
  end.
End GlobalDenyJobLifecycle.

Definition JOB_LIFECYCLES (t : JobType.t) : JobLifecycle :=
  match t with
  | JobType.service_update =>
      mkJobLifecycle ServiceJobLifecycle.claim ServiceJobLifecycle.succeed
        ServiceJobLifecycle.fail ServiceJobLifecycle.recover
  | JobType.feed_sync =>
      mkJobLifecycle FeedSyncJobLifecycle.claim FeedSyncJobLifecycle.succeed
        FeedSyncJobLifecycle.fail FeedSyncJobLifecycle.recover
  | JobType.global_deny_apply =>
      mkJobLifecycle GlobalDenyJobLifecycle.claim GlobalDenyJobLifecycle.succeed
        GlobalDenyJobLifecycle.fail GlobalDenyJobLifecycle.recover
  end.
