(* ===== verification/Feeds.v ===== *)
(** * Feed sources and their schedule ([services/feeds.py],
    [worker/feed_scheduler.py])

    Administrators create, change and delete feed sources; a synchronization is
    a run and a job, at most one of them in flight per source.  Deleting a
    source keeps its row, withdraws what it asserts and leaves a last run.

    A payload maps the fields that were given to their values; texts are
    ASCII. *)

From S2P Require Import Prelude PyStr Ipaddress Models Db Apply Rules FeedParser.
From S2P Require Import FeedReconcile Lists FeedJobs.
Open Scope Z_scope.

(** ** URLs as Python's [urllib.parse.urlsplit] reads them

    The components [scheme], [netloc], [path], [query] and [fragment] of a text,
    and the properties [hostname], [port], [username] and [password] of the
    result, over ASCII text: the normalization check of [_checknetloc] only
    looks at other text. *)

(** [s.partition(c)] without the separator; the flag says whether it was there. *)
Fixpoint partition (c : Z) (s : pystr) : pystr * bool * pystr :=
  match s with
  | [] => ([], false, [])
  | x :: s' =>
      if x =? c then ([], true, s')
      else let '(a, found, b) := partition c s' in (x :: a, found, b)
  end.

(** [s.rpartition(c)]; without the separator the text is the last part. *)
Definition rpartition (c : Z) (s : pystr) : pystr * bool * pystr :=
  let '(a, found, b) := partition c (reverse s) in
  if found then (reverse b, true, reverse a) else ([], false, s).

Definition contains_char (c : Z) (s : pystr) : bool := existsb (Z.eqb c) s.

Record SplitResult := mkSplitResult {
  scheme : pystr;
  netloc : pystr;
  path : pystr;
  query : option pystr;
  fragment : option pystr
}.

Definition is_alpha (c : Z) : bool := ((65 <=? c) && (c <=? 90)) || ((97 <=? c) && (c <=? 122)).
Definition lower_char (c : Z) : Z := if (65 <=? c) && (c <=? 90) then c + 32 else c.

(** [scheme_chars]: letters, digits, [+], [-] and [.]. *)
Definition is_scheme_char (c : Z) : bool :=
  is_alpha c || is_digit c || (c =? 43) || (c =? 45) || (c =? 46).

(** Leading control characters and spaces go, and tabs and line ends anywhere. *)
Fixpoint lstrip_controls (s : pystr) : pystr :=
  match s with
  | [] => []
  | c :: s' => if c <=? 32 then lstrip_controls s' else s
  end.
Definition remove_unsafe (s : pystr) : pystr :=
  filter (fun c => negb ((c =? 9) || (c =? 10) || (c =? 13)) = true) s.

Definition split_scheme (url : pystr) : pystr * pystr :=
  match find_char 58 url, url with
  | Some i, c :: _ =>
      if (0 <? i)%nat && is_alpha c && forallb is_scheme_char (take i url)
      then (lower_char <$> take i url, drop (S i) url) else ([], url)
  | _, _ => ([], url)
  end.

(** [_splitnetloc], after the two slashes. *)
Fixpoint splitnetloc (url : pystr) : pystr * pystr :=
  match url with
  | [] => ([], [])
  | c :: url' =>
      if (c =? 47) || (c =? 63) || (c =? 35) then ([], url)
      else let '(n, rest) := splitnetloc url' in (c :: n, rest)
  end.

(** [_check_bracketed_host]: an IPvFuture address or an IPv6 address. *)
Definition check_bracketed_host (hostname : pystr) : bool :=
  match hostname with
  | 118 :: rest =>
      let '(digits, dot, tail) := partition 46 rest in
      dot && negb (bool_decide (digits = [])) && forallb is_hexdigit digits &&
      negb (bool_decide (tail = [])) && forallb (fun c => negb (c =? 10)) tail
  | _ =>
      negb (contains_char 47 hostname) &&
      bool_decide (ip_int_from_string hostname = None) &&
      bool_decide (is_Some (split_scope_id hostname ≫= ipv6_int_from_string))
  end.

Definition check_bracketed_netloc (netloc : pystr) : bool :=
  let '(_, _, hostname_and_port) := rpartition 64 netloc in
  let '(before_bracket, have_open_br, bracketed) := partition 91 hostname_and_port in
  if have_open_br then
    let '(hostname, _, port) := partition 93 bracketed in
    bool_decide (before_bracket = []) &&
    match port with [] => true | c :: _ => c =? 58 end &&
    check_bracketed_host hostname
  else
    let '(hostname, _, _) := partition 58 hostname_and_port in
    check_bracketed_host hostname.

Definition brackets_ok (netloc : pystr) : bool :=
  match contains_char 91 netloc, contains_char 93 netloc with
  | true, true => check_bracketed_netloc netloc
  | false, false => true
  | _, _ => false
  end.

(** [None] is a [ValueError]. *)
Definition urlsplit (url : pystr) : option SplitResult :=
  let url := remove_unsafe (lstrip_controls url) in
  let '(scheme, url) := split_scheme url in
  let '(netloc, url) := match url with
                        | 47 :: 47 :: rest => splitnetloc rest
                        | _ => ([], url)
                        end in
  if brackets_ok netloc then
    let '(url, has_fragment, fragment) := partition 35 url in
    let '(path, has_query, query) := partition 63 url in
    Some (mkSplitResult scheme netloc path (if has_query then Some query else None)
            (if has_fragment then Some fragment else None))
  else None.

Definition hostinfo (r : SplitResult) : pystr * option pystr :=
  let '(_, _, info) := rpartition 64 (netloc r) in
  let '(_, have_open_br, bracketed) := partition 91 info in
  let '(hostname, port) :=
    if have_open_br then
      let '(hostname, _, port) := partition 93 bracketed in
      let '(_, _, port) := partition 58 port in (hostname, port)
    else let '(hostname, _, port) := partition 58 info in (hostname, port) in
  (hostname, match port with [] => None | _ => Some port end).

(** [hostname], as far as being there goes. *)
Definition has_hostname (r : SplitResult) : bool := negb (bool_decide ((hostinfo r).1 = [])).

(** [port]; [None] is a [ValueError]. *)
Definition port (r : SplitResult) : option (option Z) :=
  match (hostinfo r).2 with
  | None => Some None
  | Some p =>
      if ascii_digits p && (length p <=? INT_MAX_STR_DIGITS)%nat then
        let n := int10 p in
        if (0 <=? n) && (n <=? 65535) then Some (Some n) else None
      else None
  end.

(** [username is not None]; [password] then may be there too. *)
Definition has_username (r : SplitResult) : bool :=
  let '(_, have_info, _) := rpartition 64 (netloc r) in have_info.
Definition has_password (r : SplitResult) : bool :=
  let '(userinfo, have_info, _) := rpartition 64 (netloc r) in
  let '(_, have_password, _) := partition 58 userinfo in have_info && have_password.

(** ** Payload values *)

Inductive pyval := PyNone | PyBool (b : bool) | PyInt (n : Z) | PyStr (s : string).
Definition payload_map : Type := gmap string pyval.

Definition MIN_SYNC_INTERVAL_SECONDS : Z := 300.
Definition MAX_SYNC_INTERVAL_SECONDS : Z := 604800.

Definition _unprocessable (detail : string) : exn := HTTPException 422 detail.
Definition _conflict (detail : string) : exn := HTTPException 409 detail.
Definition feed_not_found : exn := HTTPException 404 "Feed source not found".
Definition name_taken : exn := _conflict "Feed source name already exists".

Definition _has (payload : payload_map) (field : string) : bool :=
  bool_decide (is_Some (payload !! field)).
Definition _value (payload : payload_map) (field : string) (dflt : pyval) : pyval :=
  default dflt (payload !! field).
Definition _required (payload : payload_map) (field : string) : exn + pyval :=
  match payload !! field with
  | Some v => inr v
  | None => inl (_unprocessable (field +:+ " is required"))
  end.

(** ** Validation *)

Definition _validate_name (value : pyval) : exn + string :=
  match value with
  | PyStr s =>
      let name := strip (py s) in
      if bool_decide (name = []) || (255 <? Z.of_nat (length name))
      then inl (_unprocessable "Feed source name must be between 1 and 255 characters")
      else inr (string_of_pystr name)
  | _ => inl (_unprocessable "Feed source name must be a string")
  end.

Definition _validate_url (value : pyval) : exn + string :=
  match value with
  | PyStr s =>
      let invalid := inl (_unprocessable "Feed source URL must be a valid HTTPS URL") in
      match urlsplit (py s) with
      | None => invalid
      | Some parsed =>
          match port parsed with
          | None => invalid
          | Some _ =>
              if negb (bool_decide (scheme parsed = py "https")) ||
                 bool_decide (netloc parsed = []) || negb (has_hostname parsed) ||
                 has_username parsed || has_password parsed ||
                 match fragment parsed with None | Some [] => false | _ => true end ||
                 contains_char 35 (py s)
              then inl (_unprocessable "Feed source URL must be HTTPS without userinfo or fragments")
              else inr s
          end
      end
  | _ => inl (_unprocessable "Feed source URL must be a string")
  end.

Definition _validate_interval (value : pyval) : exn + Z :=
  match value with
  | PyInt n =>
      if (MIN_SYNC_INTERVAL_SECONDS <=? n) && (n <=? MAX_SYNC_INTERVAL_SECONDS) then inr n
      else inl (_unprocessable "sync_interval_seconds must be between 300 and 604800")
  | _ => inl (_unprocessable "sync_interval_seconds must be an integer")
  end.

(** [FeedFormat(value)] accepts the member's value. *)
Definition _validate_format (value : pyval) : exn + FeedFormat :=
  match value with
  | PyStr s => if bool_decide (s = "line_list") then inr line_list
               else inl (_unprocessable "Unsupported feed format")
  | _ => inl (_unprocessable "Unsupported feed format")
  end.

(** An upper-case letter, then up to 127 upper-case letters, digits and
    underscores. *)
Definition is_upper (c : Z) : bool := (65 <=? c) && (c <=? 90).
Definition _CREDENTIAL_ENV_VAR (s : pystr) : bool :=
  match s with
  | [] => false
  | c :: rest => is_upper c && (length rest <=? 127)%nat &&
                 forallb (fun c => is_upper c || is_digit c || (c =? 95)) rest
  end.
Definition _validate_credential_env_var (value : pyval) : exn + option string :=
  let invalid := inl (_unprocessable
    "credential_env_var must be an uppercase environment variable name") in
  match value with
  | PyNone => inr None
  | PyStr s => if _CREDENTIAL_ENV_VAR (py s) then inr (Some s) else invalid
  | _ => invalid
  end.

Definition _validate_enabled (value : pyval) : exn + bool :=
  match value with
  | PyBool b => inr b
  | _ => inl (_unprocessable "enabled must be a boolean")
  end.

(** ** Rows *)

(** The constraints of [threat_feed_source]: [uq_threat_feed_source_name] covers
    deleted rows too. *)
Definition same_feed_name (name : string) (s : ThreatFeedSource) : bool :=
  bool_decide (lower (feed_name s) = lower name).
Definition flush_source (s : ThreatFeedSource) : M Session unit :=
  sources ← get_db threat_feed_source;
  require (bool_decide (select_where (fun x => same_feed_name (feed_name s) x &&
             negb (bool_decide (feed_id x = feed_id s))) sources = []))
    (IntegrityError "uq_threat_feed_source_name") ;;
  require ((MIN_SYNC_INTERVAL_SECONDS <=? feed_sync_interval_seconds s) &&
           (feed_sync_interval_seconds s <=? MAX_SYNC_INTERVAL_SECONDS))
    (IntegrityError "ck_threat_feed_source_sync_interval") ;;
  put_source s.

Definition _is_name_conflict (e : exn) : bool :=
  match e with
  | IntegrityError detail => str_contains "uq_threat_feed_source_name" detail
  | _ => false
  end.
Definition on_name_conflict {A} (e : exn) : M Session A :=
  if _is_name_conflict e then raise name_taken else raise e.

Definition _ensure_name_available (name : string) (exclude_source_id : option uuid)
    : M Session unit :=
  sources ← get_db threat_feed_source;
  existing ← one_or_none (select_where (fun s => same_feed_name name s && negb (is_deleted s) &&
               negb (bool_decide (Some (feed_id s) = exclude_source_id))) sources);
  require (bool_decide (existing = None)) name_taken.

Definition _source_for_update (id : uuid) : M Session (option ThreatFeedSource) :=
  sources ← get_db threat_feed_source;
  mret (sources !! id).

Definition _active_source_for_update (id : uuid) : M Session ThreatFeedSource :=
  source ← _source_for_update id;
  source ← get_or_raise source feed_not_found;
  require (negb (is_deleted source)) feed_not_found ;;
  mret source.

(** The runs of a source with a job in flight, oldest job first. *)
Definition inflight_feed_jobs (d : Db) : list (AgentJob * FeedSyncRun) :=
  omap (fun j => (fun r => (j, r)) <$> (feed_sync_run_id j ≫= (fun r => feed_sync_run d !! r)))
    (order_by_asc (fun j => [job_created_at j; Z.pos (job_id j)])
       (select_where in_flight (agent_job d))).
Definition _inflight_run (d : Db) (source_id : uuid) : option FeedSyncRun :=
  head (filter (fun r => run_feed_source_id r = source_id) (snd <$> inflight_feed_jobs d)).

Definition _job_for_run_for_update (rid : uuid) : M Session (option AgentJob) :=
  jobs ← get_db agent_job;
  one_or_none (select_where (fun j => bool_decide (feed_sync_run_id j = Some rid)) jobs).

Definition _register_feed_dispatch (job : uuid) : M Session unit :=
  ids ← gets feed_dispatch_job_ids;
  if bool_decide (job ∈ ids) then mret tt
  else
    modS (fun s => s <| feed_dispatch_job_ids := {[job]} ∪ feed_dispatch_job_ids s |>) ;;
    add_post_commit_callback (DispatchFeed job).

Definition feed_event (actor : option User) (action : string) (source : ThreatFeedSource)
    (metadata : list (string * jval)) : M Session unit :=
  record_event actor action (Some "threat_feed_source"%string) (Some (uuid_str (feed_id source)))
    "success" None (Some metadata).

(** ** Operations *)

Definition create_source (payload : payload_map) (actor : option User)
    : M Session ThreatFeedSource :=
  v ← lift (_required payload "name");
  name ← lift (_validate_name v);
  v ← lift (_required payload "url");
  url ← lift (_validate_url v);
  v ← lift (_required payload "sync_interval_seconds");
  interval ← lift (_validate_interval v);
  format ← lift (_validate_format (_value payload "format" (PyStr "line_list")));
  credential ← lift (_validate_credential_env_var (_value payload "credential_env_var" PyNone));
  enabled ← lift (_validate_enabled (_value payload "enabled" (PyBool true)));
  _ensure_name_available name None ;;
  now ← utc_now;
  id ← uuid4;
  let source := mkThreatFeedSource id name url format enabled interval credential 0 None None None
                  (if enabled : bool then Some now else None) None now now in
  try_except (check_pkey threat_feed_source id "threat_feed_source_pkey" ;; flush_source source)
    on_name_conflict ;;
  feed_event actor "feed.create" source
    [("name"%string, JStr (feed_name source)); ("enabled"%string, JBool (feed_enabled source))] ;;
  mret source.

(** An optional field of the payload, validated when it was given. *)
Definition given {A} (payload : payload_map) (field : string) (validate : pyval → exn + A)
    : M Session (option A) :=
  match payload !! field with
  | Some v => a ← lift (validate v); mret (Some a)
  | None => mret None
  end.

Definition update_source (source_id : uuid) (payload : payload_map) (actor : option User)
    : M Session ThreatFeedSource :=
  locked ← _active_source_for_update source_id;
  let previous := locked in
  name ← given payload "name" _validate_name;
  locked ← (match name with
            | Some n =>
                if bool_decide (lower n = lower (feed_name locked)) then mret locked
                else _ensure_name_available n (Some (feed_id locked)) ;;
                     mret (locked <| feed_name := n |>)
            | None => mret locked
            end);
  url ← given payload "url" _validate_url;
  let locked := locked <| feed_url := default (feed_url locked) url |> in
  format ← given payload "format" _validate_format;
  let locked := locked <| feed_format := default (feed_format locked) format |> in
  credential ← given payload "credential_env_var" _validate_credential_env_var;
  let locked := locked <| feed_credential_env_var :=
                  default (feed_credential_env_var locked) credential |> in
  interval ← given payload "sync_interval_seconds" _validate_interval;
  let locked := locked <| feed_sync_interval_seconds :=
                  default (feed_sync_interval_seconds locked) interval |> in
  enabled ← given payload "enabled" _validate_enabled;
  let locked := locked <| feed_enabled := default (feed_enabled locked) enabled |> in
  let url_changed := negb (bool_decide (feed_url locked = feed_url previous)) in
  let credential_changed :=
    negb (bool_decide (feed_credential_env_var locked = feed_credential_env_var previous)) in
  let interval_changed :=
    negb (feed_sync_interval_seconds locked =? feed_sync_interval_seconds previous) in
  now ← utc_now;
  let locked :=
    if negb (feed_enabled locked) then locked <| feed_next_sync_at := None |>
    else if negb (feed_enabled previous) || url_changed || credential_changed
    then locked <| feed_next_sync_at := Some now |>
    else if interval_changed
    then locked <| feed_next_sync_at := Some (now + feed_sync_interval_seconds locked * 1000000) |>
    else locked in
  let locked := locked <| feed_updated_at := now |> in
  try_except (flush_source locked) on_name_conflict ;;
  feed_event actor "feed.update" locked
    [("name"%string, JStr (feed_name locked)); ("enabled"%string, JBool (feed_enabled locked))] ;;
  mret locked.

(** The new run and its job; [uq_feed_sync_run_source_sequence] and
    [uq_agent_job_feed_sync_run] are the tables' constraints. *)
Definition insert_run (run : FeedSyncRun) : M Session unit :=
  check_pkey feed_sync_run (run_id run) "feed_sync_run_pkey" ;;
  runs ← get_db feed_sync_run;
  require (bool_decide (select_where (fun r =>
             bool_decide (run_feed_source_id r = run_feed_source_id run) &&
             (run_sequence r =? run_sequence run)) runs = []))
    (IntegrityError "uq_feed_sync_run_source_sequence") ;;
  put_run run.
Definition insert_feed_job (job : AgentJob) : M Session unit :=
  check_pkey agent_job (job_id job) "agent_job_pkey" ;;
  jobs ← get_db agent_job;
  require (bool_decide (select_where (fun j =>
             bool_decide (feed_sync_run_id j = feed_sync_run_id job)) jobs = []))
    (IntegrityError "uq_agent_job_feed_sync_run") ;;
  put_job job.

Definition new_run (id : uuid) (source : ThreatFeedSource) (trigger : ChangeTrigger.t)
    (dry_run : bool) : FeedSyncRun :=
  mkFeedSyncRun id (feed_id source) (feed_name source) (feed_sync_sequence source) trigger dry_run
    FeedSyncStatus.queued None None None None 0 0 0 0 0 0 0 false None None.

Definition _enqueue_locked (source : ThreatFeedSource) (trigger : ChangeTrigger.t) (dry_run : bool)
    : M Session FeedSyncRun :=
  existing ← get_db (fun d => _inflight_run d (feed_id source));
  match existing with
  | Some run => mret run
  | None =>
      now ← utc_now;
      let source := source <| feed_sync_sequence := feed_sync_sequence source + 1 |>
                           <| feed_updated_at := now |> in
      put_source source ;;
      id ← uuid4;
      let run := new_run id source trigger dry_run in
      insert_run run ;;
      jid ← uuid4;
      let job := new_job jid (TargetFeedRun (run_id run)) (run_sequence run) trigger now in
      insert_feed_job job ;;
      _register_feed_dispatch (job_id job) ;;
      mret run
  end.

Definition enqueue_sync (source_id : uuid) (trigger : ChangeTrigger.t) (dry_run : bool)
    : M Session FeedSyncRun :=
  locked ← _source_for_update source_id;
  locked ← get_or_raise locked feed_not_found;
  require (negb (is_deleted locked) || bool_decide (trigger = ChangeTrigger.feed_delete))
    feed_not_found ;;
  _enqueue_locked locked trigger dry_run.

Section delete.
Context (sha256 : pystr → string).

Definition delete_source (source_id : uuid) (actor : option User) : M Session FeedSyncRun :=
  locked ← _active_source_for_update source_id;
  now ← utc_now;
  let locked := locked <| feed_enabled := false |> <| feed_next_sync_at := None |>
                       <| feed_deleted_at := Some now |> <| feed_updated_at := now |> in
  put_source locked ;;
  run ← _enqueue_locked locked ChangeTrigger.feed_delete false;
  run ← (if bool_decide (run_trigger run = ChangeTrigger.feed_delete) then mret run else
         let run := run <| run_trigger := ChangeTrigger.feed_delete |> <| run_dry_run := false |> in
         put_run run ;;
         job ← _job_for_run_for_update (run_id run);
         match job with
         | Some job => put_job (job <| job_trigger := ChangeTrigger.feed_delete |>)
         | None => mret tt
         end ;;
         mret run);
  reconcile sha256 run (parse_line_list []) ;;
  feed_event actor "feed.delete" locked
    [("dangerous"%string, JBool true); ("name"%string, JStr (feed_name locked))] ;;
  mret run.
End delete.

Definition list_due_sources (d : Db) (now : timestamp) (limit : Z) : list ThreatFeedSource :=
  if limit <=? 0 then [] else
  let inflight_source_ids := run_feed_source_id ∘ snd <$> inflight_feed_jobs d in
  take (Z.to_nat limit)
    (order_by_asc (fun s => [default 0 (feed_next_sync_at s); feed_created_at s; Z.pos (feed_id s)])
       (select_where (fun s =>
          feed_enabled s && negb (is_deleted s) &&
          match feed_next_sync_at s with Some t => t <=? now | None => false end &&
          negb (bool_decide (feed_id s ∈ inflight_source_ids))) (threat_feed_source d))).

Record FeedSourceRecord := mkFeedSourceRecord {
  fsr_id : uuid;
  fsr_name : string;
  fsr_url : string;
  fsr_format : FeedFormat;
  fsr_enabled : bool;
  fsr_sync_interval_seconds : Z;
  fsr_has_credential : bool;
  fsr_last_status : option FeedSyncStatus.t;
  fsr_last_error : option string;
  fsr_last_sync_at : option timestamp;
  fsr_next_sync_at : option timestamp;
  fsr_created_at : timestamp;
  fsr_updated_at : timestamp
}.
Definition source_record (s : ThreatFeedSource) : FeedSourceRecord :=
  mkFeedSourceRecord (feed_id s) (feed_name s) (feed_url s) (feed_format s) (feed_enabled s)
    (feed_sync_interval_seconds s) (bool_decide (is_Some (feed_credential_env_var s)))
    (feed_last_status s) (feed_last_error s) (feed_last_sync_at s) (feed_next_sync_at s)
    (feed_created_at s) (feed_updated_at s).

(** ** [worker/feed_scheduler.py] *)

Definition DEFAULT_DUE_SOURCE_LIMIT : Z := 100.

Fixpoint enqueue_all (sources : list ThreatFeedSource) : M Session unit :=
  match sources with
  | [] => mret tt
  | source :: sources =>
      enqueue_sync (feed_id source) ChangeTrigger.feed_schedule false ;;
      enqueue_all sources
  end.

Definition enqueue_due_feed_syncs (now : timestamp) (limit : Z) : M World Z :=
  session_scope (
    sources ← get_db (fun d => list_due_sources d now limit);
    enqueue_all sources ;;
    global_enqueued ← _enqueue_global_convergence;
    mret (Z.of_nat (length sources) + if global_enqueued : bool then 1 else 0)).
