(* ===== verification/Applier.v ===== *)
(** * Data-plane snapshots ([worker/applier.py], [tools/xdpgw-apply.c])

    The worker serializes the enabled services, or the global deny set, into
    the wire format of [apply_snapshot.h] and runs the helper [xdpgw-apply] on
    it.  The serializers raise [struct.error] for a value that does not fit its
    field.  The helper's decoder [parse_snapshot] is translated from C; the
    outcome of running the helper is a parameter. *)

From S2P Require Import Prelude PyStr Ipaddress RuleMatch Models Db.
From S2P Require Import Services Rules FeedReconcile.
From stdpp Require Import pretty.
Open Scope Z_scope.

Definition APPLY_SNAPSHOT_MAGIC : list Z := [88; 68; 80; 71; 87; 65; 80; 49].
Definition APPLY_SNAPSHOT_SCHEMA_VERSION : Z := 4.
Definition APPLY_SNAPSHOT_KIND_SERVICE_FULL : Z := 1.
Definition APPLY_SNAPSHOT_KIND_GLOBAL_DENY : Z := 2.
Definition _GBPS : Z := 1000000000.
Definition _BLOOM_PREFIX : Z := 24.

Definition _PROTOCOL_NUMBERS (p : Protocol.t) : Z :=
  match p with Protocol.any => 0 | Protocol.icmp => 1 | Protocol.tcp => 6 | Protocol.udp => 17 end.

(** ** Configurations *)

Record ServiceConfig := mkServiceConfig {
  cfg_service_id : uuid;
  cfg_dp_id : Z;
  cfg_version : Z;
  cfg_name : string;
  cfg_cidr_or_ip : pystr;
  cfg_mode : ServiceMode;
  cfg_enabled : bool;
  cfg_vip_pps : option Z;
  cfg_vip_bps : option Z;
  cfg_service_pps : option Z;
  cfg_service_bps : option Z;
  cfg_plan : option ServicePlan;
  cfg_rules : list AllowRule;
  cfg_whitelist : list pystr
}.

(** [sorted] on strings: by code points. *)
Definition str_le (a b : pystr) : Prop := lex_ge (fun s : pystr => s) b a.
#[global] Instance str_le_dec : RelDecision str_le.
Proof. intros a b. unfold str_le. apply _. Defined.

Definition whitelist_of (d : Db) (service_id : uuid) : list WhitelistEntry :=
  select_where (fun w => bool_decide (wl_service_id w = service_id)) (whitelist_entry d).

Definition _service_config (d : Db) (s : ProtectedService) : ServiceConfig :=
  mkServiceConfig (svc_id s) (svc_dp_id s) (svc_version s) (svc_name s)
    (str_of_net (svc_cidr_or_ip s)) (svc_mode s) (svc_enabled s)
    (svc_vip_pps s) (svc_vip_bps s) (svc_service_pps s) (svc_service_bps s)
    (service_plan d !! svc_id s)
    (order_by rule_priority (rules_of d (svc_id s)))
    (merge_sort str_le ((fun w => str_of_net (wl_source_cidr w)) <$> whitelist_of d (svc_id s))).

Definition load_service_config (d : Db) (service_id : uuid) : option ServiceConfig :=
  _service_config d <$> protected_service d !! service_id.

Definition load_node_config (d : Db) : list ServiceConfig :=
  _service_config d <$> order_by svc_dp_id (select_where svc_enabled (protected_service d)).

(** ** [struct.pack] with [<] formats *)

Fixpoint le_bytes (n : nat) (v : Z) : list Z :=
  match n with O => [] | S n => v mod 256 :: le_bytes n (v / 256) end.

Inductive field := U (width : nat) (v : Z) | Bytes (bs : list Z).

Definition pack_field (f : field) : exn + list Z :=
  match f with
  | U n v => if (0 <=? v) && (v <? 256 ^ Z.of_nat n) then inr (le_bytes n v) else inl StructError
  | Bytes bs => inr bs
  end.

(** [payload.extend(struct.pack(...))]: a value out of range raises before
    anything is added. *)
Fixpoint struct_pack (fs : list field) : exn + list Z :=
  match fs with
  | [] => inr []
  | f :: fs =>
      match pack_field f, struct_pack fs with
      | inl e, _ => inl e
      | _, inl e => inl e
      | inr a, inr b => inr (a ++ b)
      end
  end.
Definition extend (fs : list field) : M (list Z) unit :=
  bs ← lift (struct_pack fs);
  modS (fun payload => payload ++ bs).

(** ** Serialization *)

Definition network_error : exn := ValueError "not an IPv4 or IPv6 network".
Definition _cidr_parts (cidr : pystr) : exn + (Z * list Z) :=
  match ip_network cidr false with
  | Some (V4 n) => inr (prefixlen n, to_bytes_be (network_address n))
  | Some (V6 _ _) =>
      inl (ValueError ("apply snapshots require IPv4 CIDRs: " +:+ string_of_pystr cidr))
  | None => inl network_error
  end.
Definition _strict_ipv4_cidr_parts (cidr : pystr) : exn + (Z * list Z) :=
  match ip_network cidr true with
  | Some (V4 n) => inr (prefixlen n, to_bytes_be (network_address n))
  | Some (V6 _ _) =>
      inl (ValueError ("global deny snapshots require IPv4 CIDRs: " +:+ string_of_pystr cidr))
  | None => inl network_error
  end.

(** [tuple(f(x) for x in l)]: the first error is raised. *)
Fixpoint map_parts (f : pystr → exn + (Z * list Z)) (l : list pystr) : exn + list (Z * list Z) :=
  match l with
  | [] => inr []
  | x :: l =>
      match f x with
      | inl e => inl e
      | inr a => match map_parts f l with inl e => inl e | inr r => inr (a :: r) end
      end
  end.

Definition flag (b : bool) (n : Z) : Z := if b then Z.shiftl 1 n else 0.
Definition is_set {A} (o : option A) : bool := match o with Some _ => true | None => false end.

Definition _vip_flags (c : ServiceConfig) : Z :=
  Z.lor (flag (is_set (cfg_vip_pps c)) 0) (flag (is_set (cfg_vip_bps c)) 1).
Definition _svc_rl_flags (c : ServiceConfig) : Z :=
  Z.lor (flag (is_set (cfg_service_pps c)) 0) (flag (is_set (cfg_service_bps c)) 1).
Definition _rule_flags (r : AllowRule) : Z := flag (rule_enabled r) 0.
Definition _list_flags (entries : list (Z * list Z)) (active : bool) : Z :=
  if active then
    Z.lor (flag true 0) (flag (existsb (fun e => e.1 <? _BLOOM_PREFIX) entries) 1)
  else 0.

(** [int(plan.committed_clean_gbps * _GBPS)] on hundredths. *)
Definition _plan_rates (plan : option ServicePlan) : Z * Z :=
  match plan with
  | None => (0, 0)
  | Some p => (plan_committed_clean_gbps p * _GBPS / 100, plan_ceiling_clean_gbps p * _GBPS / 100)
  end.

Definition rule_fields (r : AllowRule) : list field :=
  [U 2 (default 0 (rule_src_port_lo r)); U 2 (default 65535 (rule_src_port_hi r));
   U 2 (default 0 (rule_dst_port_lo r)); U 2 (default 65535 (rule_dst_port_hi r));
   U 1 (_PROTOCOL_NUMBERS (rule_protocol r)); U 1 (_rule_flags r)].

Definition entry_fields (e : Z * list Z) : list field := [U 4 e.1; Bytes e.2].

Definition _append_source_list (entries : list (Z * list Z)) : M (list Z) unit :=
  extend [U 4 (Z.of_nat (length entries))] ;;
  for_each (fun e => extend (entry_fields e)) entries.

Definition service_fields (c : ServiceConfig) (dst : Z * list Z) (whitelist : list (Z * list Z))
    : list field :=
  [U 4 dst.1; Bytes dst.2; U 4 (cfg_dp_id c);
   U 1 (if cfg_enabled c then 1 else 0);
   U 1 (_list_flags whitelist (negb (bool_decide (whitelist = [])))); U 1 0;
   U 8 (_plan_rates (cfg_plan c)).1; U 8 (_plan_rates (cfg_plan c)).2;
   U 8 (default 0 (cfg_vip_pps c)); U 8 (default 0 (cfg_vip_bps c)); U 1 (_vip_flags c);
   U 8 (default 0 (cfg_service_pps c)); U 8 (default 0 (cfg_service_bps c));
   U 1 (_svc_rl_flags c); U 2 (Z.of_nat (length (cfg_rules c)))].

Definition append_service (c : ServiceConfig) : M (list Z) unit :=
  dst ← lift (_cidr_parts (cfg_cidr_or_ip c));
  whitelist ← lift (map_parts _cidr_parts (cfg_whitelist c));
  extend (service_fields c dst whitelist) ;;
  for_each (fun r => extend (rule_fields r)) (cfg_rules c) ;;
  _append_source_list whitelist.

Definition serialize_node_snapshot (node : list ServiceConfig) : exn + list Z :=
  match
    (extend [Bytes APPLY_SNAPSHOT_MAGIC] ;;
     extend [U 4 APPLY_SNAPSHOT_SCHEMA_VERSION; U 4 APPLY_SNAPSHOT_KIND_SERVICE_FULL;
             U 4 (Z.of_nat (length node))] ;;
     for_each append_service node) [] with
  | (inl e, _) => inl e
  | (inr _, payload) => inr payload
  end.

(** [sorted] on pairs of a prefix length and an address. *)
Definition parts_le (a b : Z * list Z) : Prop := lex_ge (fun e : Z * list Z => e.1 :: e.2) b a.
#[global] Instance parts_le_dec : RelDecision parts_le.
Proof. intros a b. unfold parts_le. apply _. Defined.

Definition serialize_global_snapshot (snapshot : GlobalDenySnapshot) : exn + list Z :=
  if MAX_GLOBAL_DENY_ENTRIES <? Z.of_nat (length (gsnap_cidrs snapshot))
  then inl (ValueError "Global deny entry limit is 1048576")
  else
    match
      (parts ← lift (map_parts _strict_ipv4_cidr_parts (str_of_net <$> gsnap_cidrs snapshot));
       let entries := merge_sort parts_le parts in
       extend [Bytes APPLY_SNAPSHOT_MAGIC] ;;
       extend [U 4 APPLY_SNAPSHOT_SCHEMA_VERSION; U 4 APPLY_SNAPSHOT_KIND_GLOBAL_DENY;
               U 8 (gsnap_revision snapshot); U 4 (Z.of_nat (length entries))] ;;
       for_each (fun e => extend (entry_fields e)) entries) [] with
    | (inl e, _) => inl e
    | (inr _, payload) => inr payload
    end.

(** ** Running the helper *)

(** What [create_subprocess_exec] and [communicate] can end in; the standard
    output as JSON when it decodes, the error output decoded and stripped. *)
Inductive HelperOutcome :=
  | StartFailed (msg : string)
  | TimedOut (stderr : string)
  | Exited (returncode : Z) (stdout : option jval) (stderr : string).

Definition apply_error {A} (outcome : HelperOutcome) : M World A :=
  raise (ApplyError (match outcome with
    | StartFailed msg => "unable to start xdpgw-apply: " +:+ msg
    | TimedOut detail =>
        if bool_decide (detail = ""%string) then "xdpgw-apply timed out"
        else "xdpgw-apply timed out: " +:+ detail
    | Exited code _ detail =>
        if bool_decide (detail = ""%string)
        then "exit status " +:+ pretty code else detail
    end)).

Record GlobalDenyApplyResult := mkGlobalDenyApplyResult {
  gar_active_slot : Z;
  gar_node_map_version : Z
}.

(** A decoded JSON object as a Python [dict]: the last value of a key wins. *)
Definition dict_get (kvs : list (string * jval)) (key : string) : option jval :=
  snd <$> last (filter (fun kv => kv.1 = key) kvs).

Definition malformed_result : exn :=
  ApplyError "xdpgw-apply returned malformed global apply result".

Definition _parse_global_apply_result (stdout : option jval) : exn + GlobalDenyApplyResult :=
  match stdout with
  | Some (JObj kvs) =>
      if forallb (fun kv => bool_decide (kv.1 ∈ ["active_slot"; "node_map_version"]%string)) kvs
      then
        match dict_get kvs "active_slot", dict_get kvs "node_map_version" with
        | Some (JInt slot), Some (JInt version) =>
            if ((slot =? 0) || (slot =? 1)) && (0 <=? version)
            then inr (mkGlobalDenyApplyResult slot version) else inl malformed_result
        | _, _ => inl malformed_result
        end
      else inl malformed_result
  | _ => inl malformed_result
  end.

Section helper.
Context (xdpgw_apply : World → list Z → HelperOutcome).

(** The helper process: [payload] on its standard input, then its outcome. *)
Definition run_helper (payload : list Z) : M World unit :=
  outcome ← gets (fun w => xdpgw_apply w payload);
  match outcome with
  | Exited 0 _ _ => modS (fun w => w <| w_applied := payload :: w_applied w |>)
  | _ => apply_error outcome
  end.

(** [DoubleBufferApplier.apply]: the snapshot is loaded and serialized when
    the apply runs, whatever service asked for it. *)
Definition double_buffer_apply (config : ServiceConfig) : M World unit :=
  node ← gets (fun w => load_node_config (w_db w));
  payload ← lift (serialize_node_snapshot node);
  run_helper payload.

Definition apply_global (snapshot : GlobalDenySnapshot) : M World GlobalDenyApplyResult :=
  payload ← lift (serialize_global_snapshot snapshot);
  outcome ← gets (fun w => xdpgw_apply w payload);
  match outcome with
  | Exited 0 stdout _ =>
      modS (fun w => w <| w_denied := payload :: w_denied w |>) ;;
      lift (_parse_global_apply_result stdout)
  | _ => apply_error outcome
  end.
End helper.

(** ** The helper's decoder, [tools/xdpgw-apply.c] *)
Module XdpgwApply.

Definition APPLY_MAX_BYTES : Z := 64 * 1024 * 1024.
Definition APPLY_MAX_SERVICES : Z := 65536.
Definition APPLY_MAX_LIST_ENTRIES : Z := Z.shiftl 1 20.
Definition APPLY_SNAPSHOT_HEADER_SIZE : Z := 16.
Definition APPLY_SNAPSHOT_GLOBAL_ENTRY_SIZE : Z := 8.
Definition APPLY_SNAPSHOT_GLOBAL_DENY_MAX_ENTRIES : Z := 1048576.
Definition RULE_MAX : Z := 16.

Record cfg_rule := mkCfgRule {
  src_lo : Z; src_hi : Z; dst_lo : Z; dst_hi : Z; proto : Z; rule_flags : Z
}.
(** [addr] holds the four wire bytes, a [__be32]. *)
Record cfg_source := mkCfgSource { source_prefixlen : Z; addr : list Z }.
Record cfg_service := mkCfgService {
  dst_prefixlen : Z; dst_addr : list Z; dp_id : Z; enabled : Z; wl_flags : Z;
  committed_bps : Z; ceiling_bps : Z; vip_pps : Z; vip_bps : Z; vip_flags : Z;
  service_pps : Z; service_bps : Z; svc_rl_flags : Z;
  rules : list cfg_rule; wl : list cfg_source
}.
Inductive node_cfg :=
  | SERVICE_FULL (services : list cfg_service)
  | GLOBAL_DENY (global_revision : Z) (global_entries : list cfg_source).

(** The cursor [rdcur] is the rest of the buffer; [return -1] raises. *)
Definition fail {A} : M (list Z) A := raise (ApplyError "invalid snapshot").

Definition rd_bytes (n : nat) : M (list Z) (list Z) :=
  buf ← getS;
  if (length buf <? n)%nat then fail else
  putS (drop n buf) ;;
  mret (take n buf).
Definition from_bytes_le (bs : list Z) : Z := foldr (fun b acc => b + 256 * acc) 0 bs.
Definition rd_u (n : nat) : M (list Z) Z :=
  bs ← rd_bytes n;
  mret (from_bytes_le bs).
Definition rd_u8 : M (list Z) Z := rd_u 1.
Definition rd_u16le : M (list Z) Z := rd_u 2.
Definition rd_u32le : M (list Z) Z := rd_u 4.
Definition rd_u64le : M (list Z) Z := rd_u 8.
Definition rd_be32 : M (list Z) (list Z) := rd_bytes 4.

(** [for (i = 0; i < n; i++)] filling an array. *)
Fixpoint repeat_rd {A} (n : nat) (m : M (list Z) A) : M (list Z) (list A) :=
  match n with
  | O => mret []
  | S n => x ← m; xs ← repeat_rd n m; mret (x :: xs)
  end.

Definition parse_source : M (list Z) cfg_source :=
  p ← rd_u32le;
  a ← rd_be32;
  mret (mkCfgSource p a).

Definition parse_source_list : M (list Z) (list cfg_source) :=
  count ← rd_u32le;
  if APPLY_MAX_LIST_ENTRIES <? count then fail else
  repeat_rd (Z.to_nat count) parse_source.

Definition parse_rule : M (list Z) cfg_rule :=
  a ← rd_u16le; b ← rd_u16le; c ← rd_u16le; d ← rd_u16le; p ← rd_u8; f ← rd_u8;
  mret (mkCfgRule a b c d p f).

Definition parse_service : M (list Z) cfg_service :=
  dst_prefixlen ← rd_u32le;
  dst_addr ← rd_be32;
  dp_id ← rd_u32le;
  enabled ← rd_u8;
  wl_flags ← rd_u8;
  reserved0 ← rd_u8;
  committed_bps ← rd_u64le;
  ceiling_bps ← rd_u64le;
  vip_pps ← rd_u64le;
  vip_bps ← rd_u64le;
  vip_flags ← rd_u8;
  service_pps ← rd_u64le;
  service_bps ← rd_u64le;
  svc_rl_flags ← rd_u8;
  rule_count ← rd_u16le;
  if negb (reserved0 =? 0) then fail else
  if RULE_MAX <? rule_count then fail else
  rules ← repeat_rd (Z.to_nat rule_count) parse_rule;
  wl ← parse_source_list;
  mret (mkCfgService dst_prefixlen dst_addr dp_id enabled wl_flags committed_bps ceiling_bps
          vip_pps vip_bps vip_flags service_pps service_bps svc_rl_flags rules wl).

(** [UINT32_MAX << (32 - prefixlen)] in 32 bits. *)
Definition entry_mask (p : Z) : Z :=
  if p =? 0 then 0 else Z.land (Z.shiftl (2 ^ 32 - 1) (32 - p)) (2 ^ 32 - 1).
Definition global_entry_valid (e : cfg_source) : bool :=
  (source_prefixlen e <=? 32) &&
  (Z.land (from_bytes_be (addr e)) (Z.lxor (entry_mask (source_prefixlen e)) (2 ^ 32 - 1)) =? 0).

(** [memcmp(a, b, 4) < 0]. *)
Fixpoint memcmp_lt (a b : list Z) : bool :=
  match a, b with
  | x :: a, y :: b => (x <? y) || ((x =? y) && memcmp_lt a b)
  | _, _ => false
  end.
Definition global_entries_sorted (previous current : cfg_source) : bool :=
  if negb (source_prefixlen previous =? source_prefixlen current)
  then source_prefixlen previous <? source_prefixlen current
  else memcmp_lt (addr previous) (addr current).

(** The loop that reads and checks each entry against the one before it. *)
Fixpoint parse_global_entries (n : nat) (previous : option cfg_source)
    : M (list Z) (list cfg_source) :=
  match n with
  | O => mret []
  | S n =>
      e ← parse_source;
      if negb (global_entry_valid e) ||
         match previous with Some p => negb (global_entries_sorted p e) | None => false end
      then fail else
      es ← parse_global_entries n (Some e);
      mret (e :: es)
  end.

Definition parse_global_deny : M (list Z) node_cfg :=
  revision ← rd_u64le;
  count ← rd_u32le;
  rest ← getS;
  if (APPLY_SNAPSHOT_GLOBAL_DENY_MAX_ENTRIES <? count) ||
     (Z.of_nat (length rest) / APPLY_SNAPSHOT_GLOBAL_ENTRY_SIZE <? count) then fail else
  entries ← parse_global_entries (Z.to_nat count) None;
  mret (GLOBAL_DENY revision entries).

(** The header and the [switch] on the snapshot kind. *)
Definition parse_node : M (list Z) node_cfg :=
  magic ← rd_bytes 8;
  if negb (bool_decide (magic = APPLY_SNAPSHOT_MAGIC)) then fail else
  schema ← rd_u32le;
  if negb (schema =? APPLY_SNAPSHOT_SCHEMA_VERSION) then fail else
  kind ← rd_u32le;
  if kind =? APPLY_SNAPSHOT_KIND_SERVICE_FULL then
    count ← rd_u32le;
    if APPLY_MAX_SERVICES <? count then fail else
    services ← repeat_rd (Z.to_nat count) parse_service;
    mret (SERVICE_FULL services)
  else if kind =? APPLY_SNAPSHOT_KIND_GLOBAL_DENY then parse_global_deny
  else fail.

(** Trailing bytes are refused. *)
Definition parse_body : M (list Z) node_cfg :=
  node ← parse_node;
  rest ← getS;
  if bool_decide (rest = []) then mret node else fail.

Definition parse_snapshot (buf : list Z) : option node_cfg :=
  let size := Z.of_nat (length buf) in
  if (size <? APPLY_SNAPSHOT_HEADER_SIZE) || (APPLY_MAX_BYTES <? size) then None else
  match parse_body buf with
  | (inr node, _) => Some node
  | (inl _, _) => None
  end.
End XdpgwApply.
