(* ===== verification/ApplierInv.v ===== *)
(** * Snapshots survive the trip to the data plane

    What the worker serializes is what the helper decodes: [parse_snapshot]
    inverts [serialize_node_snapshot] and [serialize_global_snapshot]; then what
    it means that the data plane enforces a configuration. *)

From S2P Require Import Prelude PyStr Ipaddress RuleMatch Models Db Apply ApplyInv.
From S2P Require Import Allocations Services Isolation Rules ServicesInv FeedReconcile.
From S2P Require Import Applier.

Import XdpgwApply.
Open Scope Z_scope.

(** ** Writers and readers *)

(** [r] consumes exactly [bs] and returns [a], whatever follows. *)
Definition reads {A} (r : M (list Z) A) (bs : list Z) (a : A) : Prop :=
  ∀ rest, r (bs ++ rest) = (inr a, rest).

Lemma reads_bind {A B} (r : M (list Z) A) (k : A → M (list Z) B) b1 b2 a b :
  reads r b1 a → reads (k a) b2 b → reads (r ≫= k) (b1 ++ b2) b.
Proof. intros H1 H2 rest. rewrite <- app_assoc. unfold mbind, M_bind. by rewrite H1, H2. Qed.

Lemma reads_ret {A} (a : A) : reads (mret a) [] a.
Proof. by intros rest. Qed.

(** The two directions of the round trip share their proofs: in the total one
    the reader succeeds, in the partial one it may refuse, and what it returns
    is right when it does not. *)
Section writers.
Context (total : bool).

Definition agrees {A} (r : M (list Z) A) (bs : list Z) (a : A) : Prop :=
  if total then reads r bs a
  else ∀ rest x rest', r (bs ++ rest) = (inr x, rest') → x = a ∧ rest' = rest.

Lemma reads_agrees {A} (r : M (list Z) A) bs a : reads r bs a → agrees r bs a.
Proof.
  unfold agrees. destruct total; [done|]. intros H rest x rest' Hx.
  rewrite (H rest) in Hx. by injection Hx as <- <-.
Qed.

Lemma agrees_bind {A B} (r : M (list Z) A) (k : A → M (list Z) B) b1 b2 a b :
  agrees r b1 a → agrees (k a) b2 b → agrees (r ≫= k) (b1 ++ b2) b.
Proof.
  unfold agrees. destruct total; [apply reads_bind|]. intros H1 H2 rest x rest' H.
  rewrite <- app_assoc in H. apply bind_inr in H as (y & s1 & [-> ->]%H1 & H). by apply H2.
Qed.

(** Whenever [m] succeeds, what it appends is read back by [r] as [a]. *)
Definition writes {A} (m : M (list Z) unit) (r : M (list Z) A) (a : A) : Prop :=
  ∀ p u p', m p = (inr u, p') → ∃ bs, p' = p ++ bs ∧ agrees r bs a.

(** A check of the reader that passes, or that only matters when it passes. *)
Lemma writes_check {A} m (c : bool) (r : M (list Z) A) a :
  (total = true → c = false) → writes m r a → writes m (if c then fail else r) a.
Proof.
  intros Hc Hw p u p' (bs & -> & Hr)%Hw. exists bs. split; [done|].
  unfold agrees in *. destruct total; [by rewrite Hc|]. by destruct c.
Qed.

Lemma writes_seq {A B} m1 m2 (r : M (list Z) A) (k : A → M (list Z) B) a b :
  writes m1 r a → writes m2 (k a) b → writes (m1 ;; m2) (r ≫= k) b.
Proof.
  intros H1 H2 p u p' H. minv.
  match goal with H : m1 _ = _ |- _ => apply H1 in H as (b1 & -> & Hr1) end.
  apply H2 in H as (b2 & -> & Hr2). exists (b1 ++ b2). split; [by rewrite app_assoc|].
  by eapply agrees_bind.
Qed.

Lemma writes_done {A} (a : A) : writes (mret tt) (mret a) a.
Proof. intros p u p' H. minv. exists []. split; [by rewrite app_nil_r|apply reads_agrees, reads_ret]. Qed.

Lemma writes_last {A} m (r : M (list Z) A) a : writes (m ;; mret tt) r a → writes m r a.
Proof.
  intros H p [] p' Hm. apply (H p tt p'). unfold mbind, M_bind. by rewrite Hm.
Qed.

Lemma struct_pack_cons f fs bs :
  struct_pack (f :: fs) = inr bs →
  ∃ b1 b2, pack_field f = inr b1 ∧ struct_pack fs = inr b2 ∧ bs = b1 ++ b2.
Proof. simpl. repeat case_match; intros; simplify_eq; eauto. Qed.

Lemma extend_inr fs p u p' :
  extend fs p = (inr u, p') → ∃ bs, struct_pack fs = inr bs ∧ p' = p ++ bs.
Proof. unfold extend. intros H. minv. eauto. Qed.

Lemma rd_bytes_app bs n rest : length bs = n → rd_bytes n (bs ++ rest) = (inr bs, rest).
Proof.
  intros Hn. unfold rd_bytes, getS, putS, mbind, M_bind, mret, M_ret.
  rewrite (proj2 (Nat.ltb_ge _ _)) by (rewrite length_app; lia).
  by rewrite drop_app_length', take_app_length'.
Qed.

Lemma extend_cons {A} fs f m n (k : list Z → M (list Z) A) a :
  (∀ b, pack_field f = inr b → length b = n ∧ writes (extend fs ;; m) (k b) a) →
  writes (extend (f :: fs) ;; m) (rd_bytes n ≫= k) a.
Proof.
  intros H p u p' Hrun. minv.
  match goal with H : extend _ _ = _ |- _ => apply extend_inr in H as (bs & Hp & ->) end.
  apply struct_pack_cons in Hp as (b1 & b2 & H1 & H2 & ->).
  destruct (H b1 H1) as [Hlen Hw].
  assert ((extend fs ;; m) (p ++ b1) = (inr u, p')) as Hrun'.
  { unfold extend. mstep. rewrite H2. unfold lift, mbind, M_bind. simpl.
    by rewrite app_assoc in Hrun. }
  apply Hw in Hrun' as (b & -> & Hr). exists (b1 ++ b). split; [by rewrite app_assoc|].
  apply (agrees_bind _ _ _ _ b1); [|done]. apply reads_agrees.
  intros rest. by apply rd_bytes_app.
Qed.

Lemma le_bytes_length n v : length (le_bytes n v) = n.
Proof. revert v. induction n; intros v; simpl; auto. Qed.

Lemma from_le_bytes n v : 0 <= v < 256 ^ Z.of_nat n → from_bytes_le (le_bytes n v) = v.
Proof.
  revert v. induction n as [|n IH]; intros v Hv; cbn [le_bytes from_bytes_le foldr].
  - simpl in Hv. lia.
  - change (foldr _ 0 (le_bytes n (v / 256))) with (from_bytes_le (le_bytes n (v / 256))).
    rewrite IH; [pose proof (Z_div_mod_eq_full v 256); lia|].
    rewrite Nat2Z.inj_succ, Z.pow_succ_r in Hv by lia.
    split; [apply Z.div_pos; lia|apply Z.div_lt_upper_bound; lia].
Qed.

Lemma extend_uint {A} fs n v m (k : Z → M (list Z) A) a :
  writes (extend fs ;; m) (k v) a → writes (extend (U n v :: fs) ;; m) (rd_u n ≫= k) a.
Proof.
  intros H. intros p u p' Hrun.
  assert (writes (extend (U n v :: fs) ;; m)
    (rd_bytes n ≫= fun b => k (from_bytes_le b)) a) as Hw.
  { apply extend_cons. intros b Hb. simpl in Hb.
    destruct (_ && _) eqn:E; [|done]. injection Hb as <-.
    split; [apply le_bytes_length|]. rewrite from_le_bytes; [done|lia]. }
  apply Hw in Hrun as (bs & -> & Hr). exists bs. split; [done|]. unfold agrees, reads in *.
  assert (∀ q, (rd_u n ≫= k) q = (rd_bytes n ≫= fun b => k (from_bytes_le b)) q) as E.
  { intros q. unfold rd_u. by rewrite run_assoc. }
  destruct total; intros rest; [rewrite E; apply Hr|]. intros x rest'. rewrite E. apply Hr.
Qed.

Lemma extend_bytes {A} fs bs m n (k : list Z → M (list Z) A) a :
  length bs = n → writes (extend fs ;; m) (k bs) a →
  writes (extend (Bytes bs :: fs) ;; m) (rd_bytes n ≫= k) a.
Proof. intros Hn H. apply extend_cons. intros b [= <-]. done. Qed.

Lemma extend_end {A} m (r : M (list Z) A) a : writes m r a → writes (extend [] ;; m) r a.
Proof.
  intros H p u p' Hrun. unfold extend in Hrun. minv. rewrite ?app_nil_r in Hrun. exact (H _ _ _ Hrun).
Qed.

(** A loop that writes and a loop that reads. *)
Lemma writes_loop {A B} (f : A → M (list Z) unit) (r : M (list Z) B) (dec : A → B) xs :
  (∀ x, x ∈ xs → writes (f x) r (dec x)) →
  writes (for_each f xs) (repeat_rd (length xs) r) (dec <$> xs).
Proof.
  induction xs as [|x xs IH]; intros H; simpl; [apply writes_done|].
  eapply writes_seq; [apply H; left|].
  intros p u p' Hrun. destruct (IH (fun y Hy => H y (list_elem_of_further _ _ _ Hy)) p u p' Hrun)
    as (bs & -> & Hr). exists bs. split; [done|]. rewrite <- (app_nil_r bs).
  eapply agrees_bind; [exact Hr|apply reads_agrees, reads_ret].
Qed.

Ltac wr :=
  repeat first
    [ apply extend_uint | apply extend_bytes; [done|] | apply extend_end | apply writes_done ].

(** ** Service snapshots *)

(** The decoder's view of a configuration. *)
Definition parts_or_nil (r : exn + (Z * list Z)) : Z * list Z :=
  match r with inr e => e | inl _ => (0, []) end.
Definition decode_source (e : Z * list Z) : cfg_source := mkCfgSource e.1 e.2.
Definition decode_rule (r : AllowRule) : cfg_rule :=
  mkCfgRule (default 0 (rule_src_port_lo r)) (default 65535 (rule_src_port_hi r))
    (default 0 (rule_dst_port_lo r)) (default 65535 (rule_dst_port_hi r))
    (_PROTOCOL_NUMBERS (rule_protocol r)) (_rule_flags r).
Definition decode_service (c : ServiceConfig) : cfg_service :=
  let dst := parts_or_nil (_cidr_parts (cfg_cidr_or_ip c)) in
  let whitelist := (fun s => parts_or_nil (_cidr_parts s)) <$> cfg_whitelist c in
  mkCfgService dst.1 dst.2 (cfg_dp_id c) (if cfg_enabled c then 1 else 0)
    (_list_flags whitelist (negb (bool_decide (whitelist = []))))
    (_plan_rates (cfg_plan c)).1 (_plan_rates (cfg_plan c)).2
    (default 0 (cfg_vip_pps c)) (default 0 (cfg_vip_bps c)) (_vip_flags c)
    (default 0 (cfg_service_pps c)) (default 0 (cfg_service_bps c)) (_svc_rl_flags c)
    (decode_rule <$> cfg_rules c) (decode_source <$> whitelist).

Lemma cidr_parts_length s e : _cidr_parts s = inr e → length e.2 = 4%nat.
Proof. unfold _cidr_parts. repeat case_match; intros; by simplify_eq. Qed.

Lemma map_parts_inr l es :
  map_parts _cidr_parts l = inr es →
  es = (fun s => parts_or_nil (_cidr_parts s)) <$> l ∧ Forall (fun e => length e.2 = 4%nat) es.
Proof.
  revert es. induction l as [|s l IH]; intros es H; simpl in H; [by injection H as <-|].
  destruct (_cidr_parts s) as [?|e] eqn:E; [done|].
  destruct (map_parts _cidr_parts l) as [?|es'] eqn:E'; [done|]. injection H as <-.
  destruct (IH es' eq_refl) as [-> HF]. split; [by rewrite fmap_cons, E|].
  constructor; [by eapply cidr_parts_length|done].
Qed.

Lemma writes_entry e :
  length e.2 = 4%nat → writes (extend (entry_fields e)) parse_source (decode_source e).
Proof.
  intros Hl. apply writes_last. unfold entry_fields, parse_source, rd_u32le, rd_be32. by wr.
Qed.

Lemma writes_rule r : writes (extend (rule_fields r)) parse_rule (decode_rule r).
Proof. apply writes_last. unfold rule_fields, parse_rule, rd_u16le, rd_u8. wr. Qed.

Lemma writes_source_list es :
  Forall (fun e => length e.2 = 4%nat) es →
  (total = true → Z.of_nat (length es) <= APPLY_MAX_LIST_ENTRIES) →
  writes (_append_source_list es) parse_source_list (decode_source <$> es).
Proof.
  intros HF Hn. unfold _append_source_list, parse_source_list, rd_u32le. wr.
  apply writes_check; [intros Ht; by apply Z.ltb_ge, Hn|]. rewrite Nat2Z.id. apply writes_loop.
  intros e He. apply writes_entry. by rewrite Forall_forall in HF; apply HF.
Qed.

Lemma writes_service c :
  (total = true → (length (cfg_rules c) <= 16)%nat ∧
     Z.of_nat (length (cfg_whitelist c)) <= APPLY_MAX_LIST_ENTRIES) →
  writes (append_service c) parse_service (decode_service c).
Proof.
  intros Hb p u p' H. unfold append_service in H.
  apply bind_inr in H as (dst & s1 & [Hdst ->]%lift_inr & H).
  apply bind_inr in H as (whitelist & s1 & [[Ewl Hlen]%map_parts_inr ->]%lift_inr & H).
  pose proof (cidr_parts_length _ _ Hdst) as Hl4.
  revert p u p' H. change (writes (extend (service_fields c dst whitelist) ;;
    for_each (fun r => extend (rule_fields r)) (cfg_rules c) ;; _append_source_list whitelist)
    parse_service (decode_service c)).
  unfold service_fields, parse_service, rd_u32le, rd_be32, rd_u8, rd_u64le, rd_u16le.
  wr. cbn [Z.eqb negb]. apply writes_check.
  { intros Ht. destruct (Hb Ht). apply Z.ltb_ge. unfold RULE_MAX. lia. }
  rewrite Nat2Z.id. eapply writes_seq; [apply (writes_loop _ parse_rule decode_rule)|].
  { intros r _. apply writes_rule. }
  apply writes_last. eapply writes_seq; [apply writes_source_list; [done|]|].
  { intros Ht. destruct (Hb Ht). by rewrite Ewl, length_fmap. }
  unfold decode_service. rewrite Hdst, <- Ewl. apply writes_done.
Qed.

Definition node_bounds (node : list ServiceConfig) : Prop :=
  (∀ c, c ∈ node → (length (cfg_rules c) <= 16)%nat ∧
     Z.of_nat (length (cfg_whitelist c)) <= APPLY_MAX_LIST_ENTRIES) ∧
  Z.of_nat (length node) <= APPLY_MAX_SERVICES.

Lemma writes_node node :
  (total = true → node_bounds node) →
  writes (extend [Bytes APPLY_SNAPSHOT_MAGIC] ;;
     extend [U 4 APPLY_SNAPSHOT_SCHEMA_VERSION; U 4 APPLY_SNAPSHOT_KIND_SERVICE_FULL;
             U 4 (Z.of_nat (length node))] ;;
     for_each append_service node)
    parse_node
    (SERVICE_FULL (decode_service <$> node)).
Proof.
  intros Hb. unfold parse_node, rd_u32le. wr.
  apply writes_check; [intros Ht; by apply Z.ltb_ge, Hb|]. rewrite Nat2Z.id. apply writes_last.
  eapply writes_seq; [apply (writes_loop _ parse_service decode_service)|apply writes_done].
  intros c Hin. apply writes_service. intros Ht. by apply (proj1 (Hb Ht)).
Qed.
End writers.

(** Reading the whole buffer. *)
Lemma parse_written m bs node :
  m [] = (inr tt, bs) → writes true m parse_node node →
  APPLY_SNAPSHOT_HEADER_SIZE <= Z.of_nat (length bs) <= APPLY_MAX_BYTES →
  parse_snapshot bs = Some node.
Proof.
  intros Hm Hw Hlen. apply Hw in Hm as (b & -> & Hr). simpl in *. unfold parse_snapshot.
  rewrite (proj2 (Z.ltb_ge _ _)), (proj2 (Z.ltb_ge (APPLY_MAX_BYTES) _)) by lia. simpl.
  unfold parse_body, mbind, M_bind. pose proof (Hr []) as Hrun.
  rewrite app_nil_r in Hrun. by rewrite Hrun.
Qed.

Lemma struct_pack_length fs bs :
  struct_pack fs = inr bs →
  length bs = sum_list ((fun f => match f with U n _ => n | Bytes b => length b end) <$> fs).
Proof.
  revert bs. induction fs as [|f fs IH]; intros bs H; [by injection H as <-|].
  apply struct_pack_cons in H as (b1 & b2 & H1 & H2 & ->).
  rewrite length_app, (IH _ H2), fmap_cons. simpl. f_equal.
  destruct f; simpl in H1; [destruct (_ && _); [|done]|]; injection H1 as <-;
    [apply le_bytes_length|done].
Qed.

Lemma writes_grow {A} b m (r : M (list Z) A) a p u p' :
  writes b m r a → m p = (inr u, p') → (length p <= length p')%nat.
Proof. intros Hw (bs & -> & _)%Hw. rewrite length_app. lia. Qed.

Lemma node_snapshot_inverts node bs :
  serialize_node_snapshot node = inr bs → node_bounds node →
  Z.of_nat (length bs) <= APPLY_MAX_BYTES →
  parse_snapshot bs = Some (SERVICE_FULL (decode_service <$> node)).
Proof.
  intros H Hb Hlen. unfold serialize_node_snapshot in H.
  match type of H with context [match ?m [] with _ => _ end] =>
    destruct (m []) as [[e|[]] bs'] eqn:E; [done|]; injection H as -> end.
  eapply parse_written; [exact E|by apply writes_node|]. split; [|done].
  minv. repeat match goal with H : extend _ _ = _ |- _ =>
    apply extend_inr in H as (? & H%struct_pack_length & ->) end.
  apply (writes_grow false _ _ _ _ _ _ (writes_loop false _ parse_service decode_service _
    (fun c _ => writes_service false c (fun E => ltac:(discriminate E))))) in E.
  rewrite !length_app in E. unfold APPLY_SNAPSHOT_HEADER_SIZE. simpl in *. lia.
Qed.

(** Without any bound: what the decoder accepts, it decodes correctly. *)
Lemma accepted_snapshot node bs cfg :
  serialize_node_snapshot node = inr bs → parse_snapshot bs = Some cfg →
  cfg = SERVICE_FULL (decode_service <$> node).
Proof.
  intros H Hp. unfold serialize_node_snapshot in H.
  match type of H with context [match ?m [] with _ => _ end] =>
    destruct (m []) as [[e|[]] bs'] eqn:E; [done|]; injection H as -> end.
  apply (writes_node false node) in E as (b & -> & Hr); [|done]. simpl in Hp, Hr.
  unfold parse_snapshot in Hp. destruct (_ || _); [done|].
  destruct (parse_body b) as [[e|n] rest] eqn:Eb; [done|]. injection Hp as ->.
  unfold parse_body in Eb. apply bind_inr in Eb as (x & s1 & Hx & Eb).
  rewrite <- (app_nil_r b) in Hx. apply Hr in Hx as [-> ->].
  unfold getS in Eb. minv. done.
Qed.

(** ** When serialization succeeds *)

Definition field_fits (f : field) : bool :=
  match f with U n v => (0 <=? v) && (v <? 256 ^ Z.of_nat n) | Bytes _ => true end.

Lemma struct_pack_fits fs :
  (∃ bs, struct_pack fs = inr bs) ↔ forallb field_fits fs = true.
Proof.
  induction fs as [|f fs IH]; simpl; [by split; eauto|].
  rewrite andb_true_iff, <- IH. unfold pack_field, field_fits. split.
  - intros [bs H]. destruct f; [destruct (_ && _)|]; repeat case_match; simplify_eq; eauto.
  - intros [Hf [bs ->]]. destruct f; [rewrite Hf|]; eauto.
Qed.

Lemma extend_fits fs p :
  forallb field_fits fs = true → ∃ bs, extend fs p = (inr tt, p ++ bs).
Proof.
  intros [bs H]%struct_pack_fits. exists bs. unfold extend, mbind, M_bind, lift. by rewrite H.
Qed.

Lemma for_each_fits {A} (f : A → M (list Z) unit) xs p :
  (∀ x q, x ∈ xs → ∃ q', f x q = (inr tt, q')) → ∃ p', for_each f xs p = (inr tt, p').
Proof.
  revert p. induction xs as [|x xs IH]; intros p H; simpl; [by eexists|].
  destruct (H x p) as [q Hq]; [left|]. unfold mbind, M_bind. rewrite Hq.
  apply IH. intros y q' Hy. apply H. by right.
Qed.

(** Every value of a configuration fits its field. *)
Definition config_fits (c : ServiceConfig) : Prop :=
  ∃ dst whitelist, _cidr_parts (cfg_cidr_or_ip c) = inr dst ∧
    map_parts _cidr_parts (cfg_whitelist c) = inr whitelist ∧
    forallb field_fits (service_fields c dst whitelist) = true ∧
    forallb (fun r => forallb field_fits (rule_fields r)) (cfg_rules c) = true ∧
    forallb (fun e => forallb field_fits (entry_fields e)) whitelist = true ∧
    Z.of_nat (length whitelist) < 256 ^ 4.

Lemma append_service_fits c p :
  config_fits c → ∃ p', append_service c p = (inr tt, p').
Proof.
  intros (dst & wl & Hd & Hw & Hs & Hr & He & Hn). unfold append_service.
  rewrite Hd, Hw. unfold lift, mbind, M_bind.
  destruct (extend_fits _ p Hs) as [b1 ->].
  destruct (for_each_fits (fun r => extend (rule_fields r)) (cfg_rules c) (p ++ b1)) as [p2 ->].
  { intros r q Hin. rewrite forallb_forall in Hr.
    destruct (extend_fits (rule_fields r) q) as [b Hb]; [|by eexists].
    apply Hr. by apply list_elem_of_In. }
  unfold _append_source_list, mbind, M_bind.
  destruct (extend_fits [U 4 (Z.of_nat (length wl))] p2) as [b2 ->].
  { cbn [forallb field_fits]. rewrite andb_true_r, andb_true_iff.
    split; [apply Z.leb_le|apply Z.ltb_lt; change (Z.of_nat 4) with 4]; lia. }
  apply for_each_fits. intros e q Hin. rewrite forallb_forall in He.
  destruct (extend_fits (entry_fields e) q) as [b Hb]; [|by eexists].
  apply He. by apply list_elem_of_In.
Qed.

Lemma serialize_node_fits node :
  (∀ c, c ∈ node → config_fits c) → Z.of_nat (length node) < 256 ^ 4 →
  ∃ bs, serialize_node_snapshot node = inr bs.
Proof.
  intros Hc Hn. unfold serialize_node_snapshot, mbind, M_bind.
  destruct (extend_fits [Bytes APPLY_SNAPSHOT_MAGIC] []) as [b1 ->]; [done|].
  match goal with |- context [extend ?fs ?p] => destruct (extend_fits fs p) as [b2 ->] end.
  { cbn [forallb field_fits]. rewrite !andb_true_r. rewrite !andb_true_iff.
    split_and!; try done; apply Z.leb_le || apply Z.ltb_lt; change (Z.of_nat 4) with 4; lia. }
  match goal with |- context [for_each append_service node ?p] =>
    destruct (for_each_fits append_service node p) as [p' ->]; [|by eexists] end.
  intros c q Hin. by apply append_service_fits, Hc.
Qed.

(** A value that does not fit stops the whole snapshot. *)
Lemma for_each_blocked {A} (f : A → M (list Z) unit) xs x p u p' :
  x ∈ xs → (∀ q v q', f x q ≠ (inr v, q')) → for_each f xs p ≠ (inr u, p').
Proof.
  intros Hin Hx. revert p. induction Hin as [x xs|x y xs Hin IH]; intros p H; simpl in H; minv.
  - by eapply Hx.
  - by eapply IH.
Qed.

Lemma serialize_node_blocked node c bs :
  c ∈ node →
  (∀ dst wl, forallb field_fits (service_fields c dst wl) = false) →
  serialize_node_snapshot node ≠ inr bs.
Proof.
  intros Hin Hc H. unfold serialize_node_snapshot in H.
  match type of H with context [match ?m [] with _ => _ end] =>
    destruct (m []) as [[e|[]] bs'] eqn:E; [done|]; injection H as -> end.
  minv. eapply (for_each_blocked append_service); [exact Hin| |exact E].
  intros q v q' Hrun. unfold append_service in Hrun. minv.
  match goal with H : extend (service_fields _ ?d ?w) _ = _ |- _ =>
    apply extend_inr in H as (b & Hb & _);
    assert (forallb field_fits (service_fields c d w) = true) as Ht
      by (apply struct_pack_fits; eauto);
    discriminate (eq_trans (eq_sym Ht) (Hc d w)) end.
Qed.

(** ** Snapshots of a database *)

(** The columns of an enabled service that the wire format bounds. *)
Definition limit_fits (o : option Z) : bool := (0 <=? default 0 o) && (default 0 o <? 2 ^ 64).
Definition row_fits (d : Db) (s : ProtectedService) : bool :=
  (0 <=? svc_dp_id s) && (svc_dp_id s <? 2 ^ 32) &&
  limit_fits (svc_vip_pps s) && limit_fits (svc_vip_bps s) &&
  limit_fits (svc_service_pps s) && limit_fits (svc_service_bps s) &&
  match service_plan d !! svc_id s with
  | Some p => plan_ceiling_clean_gbps p <? 10 ^ 10
  | None => true
  end.

Lemma net_parts n : net_wf n →
  _cidr_parts (str_of_net n) = inr (prefixlen n, to_bytes_be (network_address n)).
Proof.
  intros Hwf. unfold _cidr_parts.
  by rewrite (proj2 (ip_network_v4 _ _ _) (ipv4_network_roundtrip n false Hwf)).
Qed.

Lemma map_net_parts l :
  Forall (fun s => ∃ n, net_wf n ∧ s = str_of_net n) l →
  ∃ es, map_parts _cidr_parts l = inr es ∧ length es = length l ∧
    Forall (fun e => 0 <= e.1 <= 32) es.
Proof.
  induction 1 as [|s l (n & Hwf & ->) _ (es & IH & Hl & HF)]; simpl; [by exists []|].
  rewrite net_parts, IH by done. eexists. split; [done|]. split; [simpl; lia|].
  constructor; [|done]. by destruct Hwf.
Qed.

Lemma flag_range b c : 0 <= Z.lor (flag b 0) (flag c 1) < 4.
Proof. by destruct b, c. Qed.
Lemma list_flags_range es b : 0 <= _list_flags es b < 4.
Proof. unfold _list_flags. destruct b; [apply flag_range|lia]. Qed.

Lemma rule_fields_fit r :
  range_ok (rule_src_port_lo r, rule_src_port_hi r) →
  range_ok (rule_dst_port_lo r, rule_dst_port_hi r) →
  forallb field_fits (rule_fields r) = true.
Proof.
  intros Hs%range_ok_cases Hd%range_ok_cases.
  assert (∀ n v, 0 <= v < 256 ^ Z.of_nat n → field_fits (U n v) = true) as Hf.
  { intros n v Hv. simpl. apply andb_true_iff. lia. }
  unfold rule_fields. cbn [forallb]. rewrite !Hf; [done|..];
    change (256 ^ Z.of_nat 2) with 65536; change (256 ^ Z.of_nat 1) with 256;
    try (by destruct (rule_protocol r)); try (by unfold _rule_flags; destruct (rule_enabled r));
    destruct Hs as [[= E1 E2]|(? & ? & [= E1 E2] & ? & ?)],
      Hd as [[= E3 E4]|(? & ? & [= E3 E4] & ? & ?)]; rewrite ?E1, ?E2, ?E3, ?E4; simpl; lia.
Qed.

(** Every enabled service of a well-formed database whose limits fit. *)
Lemma service_config_fits d s :
  gw_ok d → protected_service d !! svc_id s = Some s → row_fits d s = true →
  Z.of_nat (length (whitelist_of d (svc_id s))) < 256 ^ 4 →
  config_fits (_service_config d s).
Proof.
  intros (Ha & Hi & Hc) Hs Hfit Hwl.
  assert (net_wf (svc_cidr_or_ip s)) as Hwf.
  { eapply (iso_dest_wf _ _ Hi (svc_id s) (svc_tenant_id s)).
    unfold dests. by rewrite lookup_fmap, Hs. }
  destruct (map_net_parts (cfg_whitelist (_service_config d s))) as (es & Hes & Hlen & HF).
  { simpl. eapply Permutation_Forall; [symmetry; apply merge_sort_Permutation|].
    apply Forall_forall. intros t (w & -> & Hw)%list_elem_of_fmap. exists (wl_source_cidr w).
    split; [|done]. apply elem_of_select in Hw as (_ & k & Hk).
    by destruct (cf_whitelist _ Hc _ _ Hk) as (_ & _ & ?). }
  simpl in Hlen. rewrite (Permutation_length (merge_sort_Permutation _ _)), length_fmap in Hlen.
  exists (prefixlen (svc_cidr_or_ip s), to_bytes_be (network_address (svc_cidr_or_ip s))), es.
  assert (∀ n v, 0 <= v < 256 ^ Z.of_nat n → field_fits (U n v) = true) as Hf.
  { intros n v Hv. simpl. apply andb_true_iff. lia. }
  unfold row_fits, limit_fits in Hfit. rewrite !andb_true_iff in Hfit.
  destruct Hfit as [[[[[[? ?] [? ?]] [? ?]] [? ?]] [? ?]] Hplan].
  split_and!; [by apply net_parts|done|..].
  - assert (0 <= (_plan_rates (service_plan d !! svc_id s)).1 < 256 ^ 8 ∧
            0 <= (_plan_rates (service_plan d !! svc_id s)).2 < 256 ^ 8) as [? ?].
    { destruct (service_plan d !! svc_id s) as [p|] eqn:Ep; [|done].
      destruct (cf_plan_ok _ Hc _ _ Ep) as [_ [? ?]%andb_true_iff]. unfold _plan_rates, _GBPS. simpl.
      split; split; (apply Z.div_pos; lia) || (apply Z.div_lt_upper_bound; lia). }
    pose proof (list_flags_range es (negb (bool_decide (es = [])))).
    pose proof (flag_range (is_set (svc_vip_pps s)) (is_set (svc_vip_bps s))).
    pose proof (flag_range (is_set (svc_service_pps s)) (is_set (svc_service_bps s))).
    pose proof (cf_rule_count _ Hc (svc_id s)) as Hcount. destruct Hwf as (Hp & _ & _).
    unfold service_fields. cbn [forallb]. rewrite !Hf; [done|..];
      cbn [fst snd _service_config cfg_dp_id cfg_enabled cfg_plan cfg_vip_pps cfg_vip_bps
           cfg_service_pps cfg_service_bps cfg_rules];
      change (256 ^ Z.of_nat 8) with (256 ^ 8);
      change (256 ^ Z.of_nat 4) with (256 ^ 4); change (256 ^ Z.of_nat 2) with 65536;
      change (256 ^ Z.of_nat 1) with 256; try lia; try (by destruct (svc_enabled s)).
    2, 3: unfold _svc_rl_flags, _vip_flags; simpl; lia.
    unfold MAX_RULES_PER_SERVICE in Hcount. rewrite (Permutation_length (order_by_perm _ _)). lia.
  - apply forallb_forall. intros r Hr%list_elem_of_In. simpl in Hr.
    apply elem_of_order_by, elem_of_select in Hr as (_ & k & Hk).
    destruct (cf_rule _ Hc _ _ Hk) as (_ & _ & ? & ?). by apply rule_fields_fit.
  - apply forallb_forall. intros e He%list_elem_of_In. rewrite Forall_forall in HF.
    specialize (HF e He). unfold entry_fields. cbn [forallb]. rewrite Hf; [done|].
    change (256 ^ Z.of_nat 4) with (256 ^ 4). lia.
  - lia.
Qed.

Lemma elem_of_node_config d c :
  c ∈ load_node_config d ↔
  ∃ i s, protected_service d !! i = Some s ∧ svc_enabled s = true ∧ c = _service_config d s.
Proof.
  unfold load_node_config. rewrite list_elem_of_fmap. split.
  - intros (s & -> & Hs). apply elem_of_order_by, elem_of_select in Hs as (He & i & Hi). eauto.
  - intros (i & s & Hi & He & ->). exists s. split; [done|].
    apply elem_of_order_by, elem_of_select. eauto.
Qed.

Lemma node_config_fits d :
  gw_ok d →
  (∀ i s, protected_service d !! i = Some s → svc_enabled s = true → row_fits d s = true) →
  (∀ i, Z.of_nat (length (whitelist_of d i)) < 256 ^ 4) →
  Z.of_nat (size (protected_service d)) < 256 ^ 4 →
  ∃ bs, serialize_node_snapshot (load_node_config d) = inr bs.
Proof.
  intros Hok Hrows Hwl Hn. apply serialize_node_fits.
  - intros c (i & s & Hs & He & ->)%elem_of_node_config.
    pose proof (li_svc_id _ _ (proj1 (proj1 Hok)) _ _ Hs) as Hid. rewrite <- Hid in Hs.
    apply service_config_fits; [done|done|by eapply Hrows|done].
  - unfold load_node_config. rewrite length_fmap, (Permutation_length (order_by_perm _ _)).
    rewrite select_where_size. eapply Z.le_lt_trans; [|exact Hn]. apply Nat2Z.inj_le.
    apply map_subseteq_size, map_filter_subseteq.
Qed.

(** ** Global deny snapshots *)

Definition net_entry (n : ipv4net) : Z * list Z := (prefixlen n, to_bytes_be (network_address n)).
Definition entry_bytes (e : Z * list Z) : list Z := le_bytes 4 e.1 ++ e.2.

Lemma strict_net_parts l : Forall net_wf l →
  map_parts _strict_ipv4_cidr_parts (str_of_net <$> l) = inr (net_entry <$> l).
Proof.
  induction 1 as [|n l Hwf _ IH]; [done|]. rewrite !fmap_cons. cbn [map_parts].
  unfold _strict_ipv4_cidr_parts at 1.
  by rewrite (proj2 (ip_network_v4 _ _ _) (ipv4_network_roundtrip n true Hwf)), IH.
Qed.

Lemma extend_run fs bs p : struct_pack fs = inr bs → extend fs p = (inr tt, p ++ bs).
Proof. intros H. unfold extend, mbind, M_bind, lift. by rewrite H. Qed.

Lemma extend_entries es p :
  Forall (fun e => 0 <= e.1 <= 32) es →
  for_each (fun e => extend (entry_fields e)) es p = (inr tt, p ++ concat (entry_bytes <$> es)).
Proof.
  intros HF. revert p. induction HF as [|e es He _ IH]; intros p; simpl; [by rewrite app_nil_r|].
  unfold mbind, M_bind. rewrite (extend_run _ (entry_bytes e)).
  - rewrite IH. by rewrite <- app_assoc.
  - unfold entry_fields, entry_bytes. cbn [struct_pack pack_field].
    rewrite (proj2 (Z.leb_le _ _)), (proj2 (Z.ltb_lt e.1 _))
      by (change (Z.of_nat 4) with 4; lia). simpl. by rewrite app_nil_r.
Qed.

Lemma memcmp_of_lex a b :
  length a = length b → lex_geb b a = true → a ≠ b → memcmp_lt a b = true.
Proof.
  revert b. induction a as [|x a IH]; intros [|y b] Hl Hge Hne; try done. simpl in *.
  apply orb_true_iff in Hge as [Hlt|[Heq Hge]%andb_true_iff]; apply orb_true_iff; [by left|].
  right. apply andb_true_iff. split; [lia|]. apply IH; [lia|done|].
  intros ->. apply Hne. f_equal. lia.
Qed.

Lemma sorted_entries a b :
  length a.2 = length b.2 → parts_le a b → a ≠ b →
  global_entries_sorted (decode_source a) (decode_source b) = true.
Proof.
  intros Hl Hle Hne. unfold parts_le, lex_ge in Hle. apply Is_true_true in Hle. simpl in Hle.
  unfold global_entries_sorted. simpl.
  destruct (a.1 =? b.1) eqn:E; simpl.
  - apply memcmp_of_lex; [done| |].
    + apply orb_true_iff in Hle as [?|[_ ?]%andb_true_iff]; [lia|done].
    + intros E2. apply Hne. destruct a, b. simpl in *. f_equal; [lia|done].
  - apply orb_true_iff in Hle as [?|[? _]%andb_true_iff]; lia.
Qed.

Lemma net_entry_valid n : net_wf n → global_entry_valid (decode_source (net_entry n)) = true.
Proof.
  intros (Hp & Ha & Hl). unfold global_entry_valid. simpl. rewrite from_to_bytes by done.
  apply andb_true_iff. split; [lia|]. apply Z.eqb_eq.
  rewrite <- Hl, <- Z.land_assoc.
  assert (Z.land (netmask (prefixlen n)) (Z.lxor (entry_mask (prefixlen n)) (2 ^ 32 - 1)) = 0)
    as ->; [|by rewrite Z.land_0_r].
  revert Hp. generalize (prefixlen n). intros p Hp.
  apply Z.eqb_eq. revert p Hp.
  apply (prefix_cases (fun p => Z.land (netmask p) (Z.lxor (entry_mask p) (2 ^ 32 - 1)) =? 0)).
  by vm_compute.
Qed.

(** Reading back strictly increasing valid entries. *)
Lemma reads_entries es prev :
  Forall (fun e => length e.2 = 4%nat ∧ 0 <= e.1 <= 32 ∧
                   global_entry_valid (decode_source e) = true) es →
  StronglySorted (fun a b => global_entries_sorted (decode_source a) (decode_source b) = true) es →
  (∀ p, prev = Some p → Forall (fun e => global_entries_sorted p (decode_source e) = true) es) →
  reads (parse_global_entries (length es) prev) (concat (entry_bytes <$> es)) (decode_source <$> es).
Proof.
  revert prev. induction es as [|e es IH]; intros prev HF HS Hp rest; [done|].
  apply Forall_cons in HF as [(Hl & Hr & Hv) HF]. apply StronglySorted_inv in HS as [HS Hhd].
  assert (reads parse_source (entry_bytes e) (decode_source e)) as Hread.
  { unfold parse_source, entry_bytes. eapply reads_bind; [|].
    - intros t. unfold rd_u32le, rd_u, mbind, M_bind. rewrite rd_bytes_app by done.
      rewrite from_le_bytes; [done|]. change (Z.of_nat 4) with 4. lia.
    - rewrite <- (app_nil_r e.2). eapply reads_bind; [|apply reads_ret].
      intros t. by apply rd_bytes_app. }
  rewrite fmap_cons, concat_cons, <- app_assoc. cbn [length parse_global_entries].
  unfold mbind at 1, M_bind at 1. rewrite Hread, Hv. simpl.
  assert (match prev with Some p => negb (global_entries_sorted p (decode_source e)) | None => false end
          = false) as ->.
  { destruct prev as [p|]; [|done]. specialize (Hp p eq_refl).
    apply Forall_cons in Hp as [-> _]. done. }
  unfold mbind, M_bind. rewrite (IH (Some (decode_source e))); [done|done|done|].
  intros p [= <-]. done.
Qed.

#[global] Instance parts_le_total : Total parts_le.
Proof. intros a b. unfold parts_le. destruct (lex_ge_total (fun e : Z * list Z => e.1 :: e.2) a b); auto. Qed.
#[global] Instance parts_le_trans : Transitive parts_le.
Proof. intros a b c Hab Hbc. unfold parts_le in *. by etrans. Qed.

Lemma net_entry_inj m n : net_wf m → net_wf n → net_entry m = net_entry n → m = n.
Proof.
  intros (_ & Hm & _) (_ & Hn & _) [= Ep Ea1 Ea2 Ea3 Ea4]. destruct m as [a p], n as [b q].
  simpl in *. f_equal; [|done]. rewrite <- (from_to_bytes a Hm), <- (from_to_bytes b Hn).
  unfold to_bytes_be. by rewrite Ea1, Ea2, Ea3, Ea4.
Qed.

Lemma sorted_strict (es : list (Z * list Z)) :
  NoDup es → Forall (fun e => length e.2 = 4%nat) es → StronglySorted parts_le es →
  StronglySorted (fun a b => global_entries_sorted (decode_source a) (decode_source b) = true) es.
Proof.
  induction es as [|e es IH]; intros Hnd HF HS; [constructor|].
  apply NoDup_cons in Hnd as [Hni Hnd]. apply Forall_cons in HF as [He HF].
  apply StronglySorted_inv in HS as [HS Hhd]. constructor; [by apply IH|].
  rewrite Forall_forall in *. intros x Hx. apply sorted_entries; [|by apply Hhd|].
  - by rewrite He, (HF x Hx).
  - intros ->. done.
Qed.

Lemma entries_bytes_length es :
  Forall (fun e => length e.2 = 4%nat) es →
  length (concat (entry_bytes <$> es)) = (8 * length es)%nat.
Proof.
  induction 1 as [|e es He _ IH]; [done|].
  rewrite fmap_cons, concat_cons, length_app, IH. unfold entry_bytes.
  rewrite length_app, le_bytes_length, He. simpl. lia.
Qed.

Lemma reads_global rev es :
  0 <= rev < 256 ^ 8 → Z.of_nat (length es) <= 1048576 →
  Forall (fun e => length e.2 = 4%nat ∧ 0 <= e.1 <= 32 ∧
                   global_entry_valid (decode_source e) = true) es →
  StronglySorted (fun a b => global_entries_sorted (decode_source a) (decode_source b) = true) es →
  reads parse_node (APPLY_SNAPSHOT_MAGIC ++ le_bytes 4 4 ++ le_bytes 4 2 ++ le_bytes 8 rev ++
                    le_bytes 4 (Z.of_nat (length es)) ++ concat (entry_bytes <$> es))
    (GLOBAL_DENY rev (decode_source <$> es)).
Proof.
  intros Hrev Hn HF HS.
  assert (∀ n v t, 0 <= v < 256 ^ Z.of_nat n → rd_u n (le_bytes n v ++ t) = (inr v, t)) as Hu.
  { intros n v t Hv. unfold rd_u, mbind, M_bind. rewrite rd_bytes_app by apply le_bytes_length.
    by rewrite from_le_bytes. }
  intros rest. rewrite <- !app_assoc. unfold parse_node, rd_u32le, mbind, M_bind.
  rewrite rd_bytes_app by done. rewrite bool_decide_true by done. cbn [negb].
  rewrite Hu by done. change (4 =? APPLY_SNAPSHOT_SCHEMA_VERSION) with true. cbn [negb].
  rewrite Hu by done. change (2 =? APPLY_SNAPSHOT_KIND_SERVICE_FULL) with false.
  change (2 =? APPLY_SNAPSHOT_KIND_GLOBAL_DENY) with true. cbv iota.
  unfold parse_global_deny, rd_u64le, rd_u32le, mbind, M_bind.
  rewrite Hu by done. rewrite Hu by (change (Z.of_nat 4) with 4; lia). unfold getS.
  rewrite (proj2 (Z.ltb_ge _ _)) by done. rewrite (proj2 (Z.ltb_ge _ (Z.of_nat (length es)))).
  - cbn [orb]. rewrite Nat2Z.id, (reads_entries es None HF HS); [done|]. done.
  - rewrite length_app, entries_bytes_length by (eapply Forall_impl; [exact HF|naive_solver]).
    unfold APPLY_SNAPSHOT_GLOBAL_ENTRY_SIZE. apply Z.div_le_lower_bound; lia.
Qed.

Lemma global_snapshot_inverts snap :
  Forall net_wf (gsnap_cidrs snap) → NoDup (gsnap_cidrs snap) →
  Z.of_nat (length (gsnap_cidrs snap)) <= MAX_GLOBAL_DENY_ENTRIES →
  0 <= gsnap_revision snap < 2 ^ 64 →
  ∃ bs entries, serialize_global_snapshot snap = inr bs ∧
    parse_snapshot bs = Some (GLOBAL_DENY (gsnap_revision snap) (decode_source <$> entries)) ∧
    Permutation entries (net_entry <$> gsnap_cidrs snap).
Proof.
  intros Hwf Hnd Hn Hrev. set (es := merge_sort parts_le (net_entry <$> gsnap_cidrs snap)).
  assert (Permutation es (net_entry <$> gsnap_cidrs snap)) as Hperm
    by apply merge_sort_Permutation.
  assert (length es = length (gsnap_cidrs snap)) as Hlen
    by (by rewrite (Permutation_length Hperm), length_fmap).
  assert (Forall (fun e => length e.2 = 4%nat ∧ 0 <= e.1 <= 32 ∧
                   global_entry_valid (decode_source e) = true) es) as HF.
  { eapply Permutation_Forall; [symmetry; exact Hperm|]. apply Forall_fmap.
    eapply Forall_impl; [exact Hwf|]. intros n Hw. simpl. pose proof Hw as (? & _ & _).
    split_and!; try done; try lia. by apply net_entry_valid. }
  assert (StronglySorted (fun a b =>
    global_entries_sorted (decode_source a) (decode_source b) = true) es) as HS.
  { apply sorted_strict.
    - rewrite Hperm. rewrite Forall_forall in Hwf.
      apply NoDup_fmap_2_strong; [|done]. intros x y Hx Hy. apply net_entry_inj; by apply Hwf.
    - eapply Forall_impl; [exact HF|naive_solver].
    - apply (StronglySorted_merge_sort parts_le). }
  set (bs := APPLY_SNAPSHOT_MAGIC ++ le_bytes 4 4 ++ le_bytes 4 2 ++
    le_bytes 8 (gsnap_revision snap) ++ le_bytes 4 (Z.of_nat (length es)) ++
    concat (entry_bytes <$> es)).
  exists bs, es. unfold MAX_GLOBAL_DENY_ENTRIES in Hn. split_and!; [| |done].
  - unfold serialize_global_snapshot. rewrite (proj2 (Z.ltb_ge _ _)) by done.
    rewrite strict_net_parts by done. unfold lift, mbind, M_bind. cbv beta zeta.
    fold es. rewrite (extend_run _ APPLY_SNAPSHOT_MAGIC) by done.
    rewrite (extend_run _ (le_bytes 4 4 ++ le_bytes 4 2 ++ le_bytes 8 (gsnap_revision snap) ++
      le_bytes 4 (Z.of_nat (length es)))).
    + rewrite extend_entries by (eapply Forall_impl; [exact HF|naive_solver]).
      unfold bs. by rewrite <- !app_assoc.
    + cbn [struct_pack pack_field]. rewrite !(proj2 (Z.leb_le _ _)), !(proj2 (Z.ltb_lt _ _));
        try done; try lia; try (change (Z.of_nat 4) with 4; lia).
  - assert (Z.of_nat (length bs) = 28 + 8 * Z.of_nat (length es)) as Hbs.
    { unfold bs. rewrite !length_app, !le_bytes_length, entries_bytes_length
        by (eapply Forall_impl; [exact HF|naive_solver]). simpl length. lia. }
    unfold parse_snapshot, APPLY_SNAPSHOT_HEADER_SIZE, APPLY_MAX_BYTES.
    rewrite (proj2 (Z.ltb_ge _ _)), (proj2 (Z.ltb_ge (64 * 1024 * 1024) _)) by lia. cbn [orb].
    cbv iota. unfold parse_body, mbind, M_bind.
    pose proof (reads_global (gsnap_revision snap) es Hrev ltac:(lia) HF HS []) as Hr.
    rewrite app_nil_r in Hr. fold bs in Hr. by rewrite Hr.
Qed.

(** ** What the data plane enforces

    [enforced w sid]: the last snapshot the helper acknowledged was taken from
    a database in which the service [sid] had the configuration it has now.
    Two databases that agree on a service's content give the decoder the same
    service entry. *)

Import XdpgwApply.
Open Scope Z_scope.

(** A selection depends on the selected rows only, up to their order. *)
Lemma select_where_rows {K A} `{Countable K} (f : A → uuid) (t : gmap K A) i :
  Permutation (select_where (fun r => bool_decide (f r = i)) t)
    (rows (filter (fun kv : K * A => f kv.2 = i) t)).
Proof.
  unfold select_where, rows. rewrite map_filter_alt, map_to_list_to_map.
  2: { apply (sublist_NoDup _ (map_to_list t).*1); [apply NoDup_fst_map_to_list|].
       apply fmap_sublist, sublist_filter. }
  generalize (map_to_list t). intros l.
  induction l as [|[k a] l IH]; [done|]. rewrite fmap_cons, !filter_cons. simpl.
  repeat case_decide; simpl; rewrite ?IH; try done.
  all: match goal with H : context [bool_decide _] |- _ => rewrite bool_decide_spec in H end; done.
Qed.

Lemma str_le_antisym (a b : pystr) : str_le a b → str_le b a → a = b.
Proof. intros H1 H2. exact (lex_ge_antisym (fun s : pystr => s) a b H2 H1). Qed.

#[global] Instance str_le_trans : Transitive str_le.
Proof. intros a b c H1 H2. exact (lex_ge_trans (fun s : pystr => s) c b a H2 H1). Qed.
#[global] Instance str_le_total : Total str_le.
Proof. intros a b. exact (lex_ge_total (fun s : pystr => s) b a). Qed.

Section content.
Context (d d0 : Db) (i : uuid) (s s0 : ProtectedService).
Hypothesis (Hok : gw_ok d).
Hypothesis (Hs : protected_service d !! i = Some s) (Hs0 : protected_service d0 !! i = Some s0).
Hypothesis (Hok0 : gw_ok d0) (Hc : content d0 i = content d i).

Lemma content_rules :
  order_by rule_priority (rules_of d0 i) = order_by rule_priority (rules_of d i).
Proof.
  assert (Permutation (rules_of d0 i) (rules_of d i)) as Hp.
  { etrans; [apply select_where_rows|]. etrans; [|symmetry; apply select_where_rows].
    apply reflexive_eq. exact (f_equal (fun x => rows x.1.2) Hc). }
  eapply StronglySorted_unique_strong; [|apply order_by_sorted..|].
  - intros r r' Hr Hr' Hle Hge.
    apply elem_of_order_by in Hr, Hr'. rewrite Hp in Hr.
    apply elem_of_select in Hr as (E & k & Hk), Hr' as (E' & k' & Hk').
    apply bool_decide_eq_true in E, E'. unfold key_le in *.
    assert (k = k') as ->; [|congruence].
    destruct Hok as (_ & _ & Hcf). eapply cf_rule_priority; [done|exact Hk|exact Hk'|congruence|lia].
  - by rewrite !order_by_perm.
Qed.

Lemma content_whitelist :
  merge_sort str_le ((fun w => str_of_net (wl_source_cidr w)) <$> whitelist_of d0 i) =
  merge_sort str_le ((fun w => str_of_net (wl_source_cidr w)) <$> whitelist_of d i).
Proof.
  eapply StronglySorted_unique_strong; [|apply (StronglySorted_merge_sort str_le)..|].
  - intros a b _ _. apply str_le_antisym.
  - rewrite !(merge_sort_Permutation str_le). apply fmap_Permutation.
    etrans; [apply select_where_rows|]. etrans; [|symmetry; apply select_where_rows].
    apply reflexive_eq. exact (f_equal (fun x => rows x.2) Hc).
Qed.

Lemma content_row : row_config s0 = row_config s ∧ service_plan d0 !! i = service_plan d !! i.
Proof.
  pose proof (f_equal (fun x => x.1.1.1) Hc) as Er. simpl in Er. rewrite Hs, Hs0 in Er.
  split; [by apply (inj Some)|]. exact (f_equal (fun x => x.1.1.2) Hc).
Qed.

Lemma row_config_fields :
  row_config s0 = row_config s →
  svc_dp_id s0 = svc_dp_id s ∧ svc_cidr_or_ip s0 = svc_cidr_or_ip s ∧
  svc_enabled s0 = svc_enabled s ∧ svc_vip_pps s0 = svc_vip_pps s ∧
  svc_vip_bps s0 = svc_vip_bps s ∧ svc_service_pps s0 = svc_service_pps s ∧
  svc_service_bps s0 = svc_service_bps s.
Proof. unfold row_config. intros Er. split_and!; congruence. Qed.

Lemma content_decode :
  decode_service (_service_config d s) = decode_service (_service_config d0 s0).
Proof.
  destruct content_row as [Er Ep]. pose proof content_rules as Erules.
  pose proof content_whitelist as Ewl.
  pose proof (li_svc_id _ _ (proj1 (proj1 Hok)) _ _ Hs) as Hid.
  pose proof (li_svc_id _ _ (proj1 (proj1 Hok0)) _ _ Hs0) as Hid0.
  apply row_config_fields in Er as (E1 & E2 & E3 & E4 & E5 & E6 & E7).
  unfold decode_service, _service_config, _vip_flags, _svc_rl_flags.
  cbn [cfg_cidr_or_ip cfg_whitelist cfg_dp_id cfg_enabled cfg_plan cfg_vip_pps cfg_vip_bps
       cfg_service_pps cfg_service_bps cfg_rules].
  rewrite Hid, Hid0, E1, E2, E3, E4, E5, E6, E7, Ep, Erules, Ewl. done.
Qed.
End content.

Definition enforced (w : World) (sid : uuid) : Prop :=
  ∃ d0 bytes older, w_applied w = bytes :: older ∧ gw_ok d0 ∧
    serialize_node_snapshot (load_node_config d0) = inr bytes ∧
    content d0 sid = content (w_db w) sid.

(** The entry the decoder finds for an address range. *)
Definition dst_of (c : cfg_service) : Z * list Z := (dst_prefixlen c, dst_addr c).

Lemma config_dst d s :
  net_wf (svc_cidr_or_ip s) →
  dst_of (decode_service (_service_config d s)) = net_entry (svc_cidr_or_ip s).
Proof.
  intros Hwf. unfold dst_of, decode_service, _service_config. cbn [cfg_cidr_or_ip dst_prefixlen dst_addr].
  by rewrite net_parts.
Qed.

Lemma service_dest_wf d i s :
  gw_ok d → protected_service d !! i = Some s → net_wf (svc_cidr_or_ip s).
Proof.
  intros (_ & Hi & _) Hs. eapply (iso_dest_wf _ _ Hi i (svc_tenant_id s)).
  unfold dests. by rewrite lookup_fmap, Hs.
Qed.

(** Destinations tell services apart. *)
Lemma service_dest_inj d i j s s' :
  gw_ok d → protected_service d !! i = Some s → protected_service d !! j = Some s' →
  svc_cidr_or_ip s = svc_cidr_or_ip s' → i = j.
Proof.
  intros (_ & Hi & _) Hs Hs' E. destruct (decide (i = j)) as [|Hne]; [done|].
  assert (cidr_overlap (svc_cidr_or_ip s) (svc_cidr_or_ip s') = false) as Ho.
  { eapply (iso_dest_disjoint _ _ Hi i (svc_tenant_id s) _ j (svc_tenant_id s'));
      [unfold dests; by rewrite lookup_fmap, ?Hs, ?Hs'..|done]. }
  by rewrite E, overlap_refl in Ho.
Qed.

Lemma enforced_decoded w sid svc bytes older cfg :
  gw_ok (w_db w) → protected_service (w_db w) !! sid = Some svc → enforced w sid →
  w_applied w = bytes :: older → parse_snapshot bytes = Some cfg →
  ∃ services, cfg = SERVICE_FULL services ∧
    if svc_enabled svc
    then decode_service (_service_config (w_db w) svc) ∈ services
    else ∀ c, c ∈ services → dst_of c ≠ net_entry (svc_cidr_or_ip svc).
Proof.
  intros Hok Hs (d0 & b & o & Ew & Hok0 & Hser & Hc) Ew' Hp.
  rewrite Ew in Ew'. injection Ew' as -> ->.
  exists (decode_service <$> load_node_config d0). split; [by eapply accepted_snapshot|].
  assert (∃ s0, protected_service d0 !! sid = Some s0) as [s0 Hs0].
  { pose proof (f_equal (fun x => x.1.1.1) Hc) as E. simpl in E. rewrite Hs in E.
    destruct (protected_service d0 !! sid); [by eexists|done]. }
  destruct (content_row (w_db w) d0 sid svc s0 Hs Hs0 Hc) as [Er _].
  apply row_config_fields in Er as (_ & Ecidr & Een & _).
  destruct (svc_enabled svc) eqn:He.
  - apply list_elem_of_fmap. exists (_service_config d0 s0).
    split; [by apply (content_decode (w_db w) d0 sid)|].
    apply elem_of_node_config. exists sid, s0. split_and!; [done|congruence|done].
  - intros c (x & -> & (j & s' & Hj & He' & ->)%elem_of_node_config)%list_elem_of_fmap Heq.
    pose proof (service_dest_wf _ _ _ Hok0 Hj) as Hwf'.
    pose proof (service_dest_wf _ _ _ Hok Hs) as Hwf.
    rewrite config_dst in Heq by done. apply net_entry_inj in Heq; [|done..].
    assert (j = sid) as ->; [|congruence].
    eapply (service_dest_inj d0); [done..|]. congruence.
Qed.
