(* ===== verification/Evolution.v ===== *)
(** * How a transaction may move the tables

    [evolves d d']: identifiers are only drawn, jobs keep their target and
    version, a service whose version is unchanged keeps its configuration, and
    no service becomes active.  Every operation but the worker's success mark
    moves the tables this way; it is what makes an acknowledged snapshot stay
    valid for the services it was acknowledged for. *)

From S2P Require Import Prelude PyStr Ipaddress RuleMatch Models Db.
From S2P Require Import Apply ApplyInv Allocations Services Isolation Rules.
From S2P Require Import ServicesInv FeedParser FeedReconcile FeedInv Lists ListsInv.
From S2P Require Import NodeControl FeedJobs.
Open Scope Z_scope.

(** Identifiers in use were drawn from the supply. *)
Definition fresh_ok (d : Db) : Prop :=
  (∀ i, is_Some (agent_job d !! i) → (i < uuid_supply d)%positive) ∧
  (∀ i, is_Some (protected_service d !! i) → (i < uuid_supply d)%positive).

#[global] Instance fresh_ok_stable : CommitStable fresh_ok.
Proof.
  split.
  - intros d job [Hj Hs]. split; [|done]. intros i Hi. apply Hj.
    rewrite mark_dispatched_lookup in Hi. by apply fmap_is_Some in Hi.
  - intros d d' [Hj Hs]. split; simpl; intros i Hi;
      [specialize (Hj i Hi)|specialize (Hs i Hi)]; lia.
Qed.

Record evolves (d d' : Db) : Prop := {
  ev_supply : (uuid_supply d <= uuid_supply d')%positive;
  ev_fresh : fresh_ok d';
  ev_job : ∀ i j', agent_job d' !! i = Some j' → (i < uuid_supply d)%positive →
    ∃ j, agent_job d !! i = Some j ∧ job_target j = job_target j' ∧ job_version j = job_version j';
  ev_service : ∀ i s s', protected_service d !! i = Some s → protected_service d' !! i = Some s' →
    svc_version s <= svc_version s' ∧
    (svc_version s = svc_version s' → content d' i = content d i) ∧
    (svc_apply_status s' = ApplyStatus.active →
     svc_apply_status s = ApplyStatus.active ∧ svc_version s = svc_version s');
  ev_new : ∀ i s', protected_service d' !! i = Some s' → protected_service d !! i = None →
    svc_apply_status s' ≠ ApplyStatus.active ∧ (uuid_supply d <= i)%positive
}.

Lemma evolves_refl d : fresh_ok d → evolves d d.
Proof.
  intros Hf. split; [lia|done|eauto| |].
  - intros i s s' Hs Hs'. simplify_eq. split; [lia|done].
  - intros i s' Hs Hs'. congruence.
Qed.

Lemma evolves_trans d1 d2 d3 :
  fresh_ok d1 → evolves d1 d2 → evolves d2 d3 → evolves d1 d3.
Proof.
  intros F [S1 F1 J1 V1 N1] [S2 F2 J2 V2 N2]. split.
  - lia.
  - done.
  - intros i j3 H3 Hi. destruct (J2 i j3 H3) as (j2 & H2 & ? & ?); [lia|].
    destruct (J1 i j2 H2 Hi) as (j1 & H1 & ? & ?). exists j1. split_and!; congruence.
  - intros i s1 s3 H1 H3. destruct (protected_service d2 !! i) as [s2|] eqn:H2.
    + destruct (V1 i s1 s2 H1 H2) as (L1 & C1 & A1), (V2 i s2 s3 H2 H3) as (L2 & C2 & A2).
      split_and!; [lia| |].
      * intros E. rewrite C2 by lia. apply C1. lia.
      * intros Ha. destruct (A2 Ha) as [Ha2 E2], (A1 Ha2) as [Ha1 E1]. split; [done|lia].
    + destruct (N2 i s3 H3 H2) as [_ Hge].
      pose proof (proj2 F i ltac:(by eexists)). lia.
  - intros i s3 H3 H1. destruct (protected_service d2 !! i) as [s2|] eqn:H2.
    + destruct (N1 i s2 H2 H1) as [Hn Hge]. split; [|done].
      intros Ha. by destruct (V2 i s2 s3 H2 H3) as (_ & _ & A2), (A2 Ha).
    + destruct (N2 i s3 H3 H2) as [Hn Hge]. split; [done|]. lia.
Qed.

(** *** Changes beside the services *)

Definition job_key (j : AgentJob) : JobTarget * Z := (job_target j, job_version j).

Record side (d d' : Db) : Prop := {
  sd_service : protected_service d' = protected_service d;
  sd_plan : service_plan d' = service_plan d;
  sd_rule : allow_rule d' = allow_rule d;
  sd_whitelist : whitelist_entry d' = whitelist_entry d;
  sd_supply : (uuid_supply d <= uuid_supply d')%positive;
  sd_job : ∀ i, (i < uuid_supply d)%positive →
    job_key <$> agent_job d' !! i = job_key <$> agent_job d !! i;
  sd_fresh : fresh_ok d → fresh_ok d'
}.

#[global] Instance side_preorder : PreOrder side.
Proof.
  split.
  - intros d. by split.
  - intros d1 d2 d3 [] []. split; try congruence; [lia| |by auto].
    intros i Hi. etrans; [apply sd_job1; lia|by apply sd_job0].
Qed.

Lemma side_evolves d d' : fresh_ok d → side d d' → evolves d d'.
Proof.
  intros Hf [E1 E2 E3 E4 S J F]. split; [done|by apply F| | |].
  - intros i j' Hj Hi. specialize (J i Hi). rewrite Hj in J. simpl in J.
    destruct (agent_job d !! i) as [j|]; [|done]. injection J as E5 E6.
    exists j. split_and!; congruence.
  - intros i s s' Hs Hs'. rewrite E1 in Hs'. simplify_eq. split; [lia|]. split; [|done].
    intros _. unfold content. by rewrite E1, E2, E3, E4.
  - intros i s' Hs' Hs. rewrite E1 in Hs'. congruence.
Qed.

(** A job rewritten in place keeps its target and version. *)
Lemma side_put_job d job j0 :
  agent_job d !! job_id job = Some j0 → job_key job = job_key j0 →
  side d (d <| agent_job := <[job_id job := job]> (agent_job d) |>).
Proof.
  intros Hj Hk. split; try done; cbn -[lookup insert].
  - intros i _. destruct (decide (i = job_id job)) as [->|Hne].
    + rewrite lookup_insert_eq, Hj. simpl. by f_equal.
    + by rewrite lookup_insert_ne.
  - intros [Fj Fs]. split; [|done]. intros i Hi. simpl in *.
    apply lookup_insert_is_Some in Hi as [<-|[_ ?]]; apply Fj; [by eexists|done].
Qed.

Lemma side_new_job d job :
  job_id job = uuid_supply d →
  side d (d <| uuid_supply := Pos.succ (uuid_supply d) |>
            <| agent_job := <[job_id job := job]> (agent_job d) |>).
Proof.
  intros Hj. split; try done; cbn -[lookup insert].
  - lia.
  - intros i Hi. rewrite lookup_insert_ne by lia. done.
  - intros [Fj Fs]. split.
    + intros i Hi. simpl in *. apply lookup_insert_is_Some in Hi as [<-|[_ Hi]]; [lia|].
      specialize (Fj i Hi). lia.
    + intros i Hi. specialize (Fs i Hi). simpl. lia.
Qed.

(** ** Transactions that respect a preorder *)

Definition respects {A} (R : Db → Db → Prop) (m : M Session A) : Prop :=
  ∀ s a s', m s = (inr a, s') → R (db s) (db s').

Section respects_rules.
Context (R : Db → Db → Prop) `{!PreOrder R}.

Lemma respects_bind {A B} (m : M Session A) (k : A → M Session B) :
  respects R m → (∀ a, respects R (k a)) → respects R (m ≫= k).
Proof. intros Hm Hk s b s' (a & s1 & H1 & H2)%bind_inr. etrans; [by eapply Hm|by eapply Hk]. Qed.

Lemma respects_ret {A} (a : A) : respects R (mret a).
Proof. intros s b s' H. by minv. Qed.

Lemma respects_raise {A} e : respects R (@raise Session A e).
Proof. by intros s b s' H. Qed.

Lemma respects_gets {A} (f : Session → A) : respects R (gets f).
Proof. intros s b s' H. by minv. Qed.

Lemma respects_get_db {A} (f : Db → A) : respects R (get_db f).
Proof. apply respects_gets. Qed.

Lemma respects_lift {A} (r : exn + A) : respects R (lift r).
Proof. intros s b s' H. by minv. Qed.

Lemma respects_require b e : respects R (require b e).
Proof. intros s c s' H. by minv. Qed.

Lemma respects_get_or_raise {A} (o : option A) e : respects R (get_or_raise o e).
Proof. intros s c s' H. by minv. Qed.

Lemma respects_one_or_none {A} (l : list A) : respects R (one_or_none l).
Proof. intros s c s' (-> & _ & _)%one_or_none_inr. done. Qed.

Lemma respects_mod_db f : (∀ d, R d (f d)) → respects R (mod_db f).
Proof. intros Hf s c s' [= <- <-]. apply Hf. Qed.

Lemma respects_modS f : (∀ s, R (db s) (db (f s))) → respects R (modS f).
Proof. intros Hf s c s' [= <- <-]. apply Hf. Qed.

Lemma respects_for_each {A} (f : A → M Session unit) xs :
  (∀ x, respects R (f x)) → respects R (for_each f xs).
Proof. intros Hf. induction xs; simpl; [apply respects_ret|by apply respects_bind]. Qed.

Lemma respects_add_callback c : respects R (add_post_commit_callback c).
Proof. intros s a s' [= <- <-]. done. Qed.
End respects_rules.

#[export] Hint Resolve respects_ret respects_raise respects_gets respects_get_db respects_lift
  respects_require respects_get_or_raise respects_one_or_none respects_add_callback : gateway.

Ltac respects_step :=
  match goal with
  | |- respects _ (_ ≫= _) => apply respects_bind; [apply _|..|intros ?]
  | |- respects _ (for_each _ _) => apply respects_for_each; [apply _|intros ?]
  | |- respects _ (match ?x with _ => _ end) => destruct x eqn:?
  | |- respects _ (let _ := _ in _) => cbv zeta
  | |- respects _ (mod_db _) => apply respects_mod_db; intros ?; try by split
  | |- respects _ (modS _) => apply respects_modS; intros ?; try by split
  | |- respects _ _ => solve [eauto with gateway typeclass_instances]
  end.
Ltac respects_auto := repeat respects_step.

(** ** Configuration changes *)

Lemma config_change_evolves sid trigger d d' :
  fresh_ok d → config_change sid trigger d d' → evolves d d'.
Proof.
  intros [Fj Fs] (d1 & _ & Ej & Erow & Hsup & Hsame & svc1 & evs & Hs1 & Hid & Hf & ->).
  assert (∀ i, i ≠ sid → content d1 i = content d i) as Hcont by (intros; by apply Hsame).
  assert (∀ i, ledger_row <$> protected_service d1 !! i =
               ledger_row <$> protected_service d !! i) as Hrow.
  { intros i. by rewrite <- !lookup_fmap, Erow. }
  assert (∀ i, is_Some (protected_service d1 !! i) → (i < uuid_supply d)%positive) as Fs1.
  { intros i Hi. apply Fs. specialize (Hrow i). destruct Hi as [x Hx]. rewrite Hx in Hrow.
    destruct (protected_service d !! i); [by eexists|done]. }
  split; cbn -[insert lookup db_requeue content].
  - simpl. lia.
  - split; cbn -[insert lookup]; intros i Hi.
    + apply lookup_insert_is_Some in Hi as [<-|[_ Hi]]; [lia|].
      rewrite Ej in Hi. specialize (Fj i Hi). lia.
    + rewrite !lookup_insert_is_Some' in Hi. simpl in Hi.
      assert (is_Some (protected_service d1 !! i)) as Hi1.
      { destruct Hi as [?|[?|?]]; [subst i; rewrite Hid; by exists svc1..|done]. }
      specialize (Fs1 i Hi1). lia.
  - intros i j' Hj Hi. rewrite requeue_jobs, lookup_insert_ne in Hj by lia.
    rewrite Ej in Hj. eauto.
  - intros i s s' Hs Hs'. rewrite requeue_services, Hid in Hs'. specialize (Hrow i).
    rewrite Hs in Hrow. destruct (decide (i = sid)) as [->|Hne].
    + rewrite Hs1 in Hrow. injection Hrow as Ev Est Eav.
      rewrite lookup_insert_eq in Hs'. injection Hs' as <-. simpl. split_and!; [lia|lia|done].
    + rewrite lookup_insert_ne in Hs' by done. rewrite Hs' in Hrow.
      injection Hrow as Ev Est Eav. split_and!; [lia| |by rewrite Est, Ev].
      intros _. rewrite <- Hcont by done. unfold content.
      cbn -[insert lookup filter]. by rewrite !lookup_insert_ne by (simpl; congruence).
  - intros i s' Hs' Hs. rewrite requeue_services, Hid in Hs'. specialize (Hrow i).
    rewrite Hs in Hrow. destruct (decide (i = sid)) as [->|Hne].
    + by rewrite Hs1 in Hrow.
    + rewrite lookup_insert_ne in Hs' by done. by rewrite Hs' in Hrow.
Qed.

Lemma create_evolves d svc plan evs trigger n :
  fresh_ok d → gw_ok d → svc_id svc = uuid_supply d →
  ledger_row svc = (1, ApplyStatus.pending, None) →
  evolves d (db_enqueue svc trigger (db_create svc plan n (Pos.succ (uuid_supply d)) evs d)).
Proof.
  intros [Fj Fs] Hok Hid Hrow.
  assert (∀ i, i ≠ svc_id svc →
    protected_service (db_enqueue svc trigger (db_create svc plan n (Pos.succ (uuid_supply d)) evs d))
      !! i = protected_service d !! i) as Hother.
  { intros i Hne. simpl. by rewrite !lookup_insert_ne by (simpl; congruence). }
  split.
  - simpl. lia.
  - split; cbn -[insert lookup]; intros i Hi.
    + apply lookup_insert_is_Some in Hi as [<-|[_ Hi]]; [lia|]. specialize (Fj i Hi). lia.
    + rewrite !lookup_insert_is_Some' in Hi. simpl in Hi.
      destruct Hi as [?|[?|Hi]]; [lia..|]. specialize (Fs i Hi). lia.
  - intros i j' Hj Hi. cbn -[insert lookup] in Hj. rewrite lookup_insert_ne in Hj by lia. eauto.
  - intros i s s' Hs Hs'. assert (i ≠ svc_id svc) as Hne.
    { intros ->. specialize (Fs (svc_id svc) ltac:(by eexists)). lia. }
    rewrite Hother in Hs' by done. simplify_eq. split; [lia|]. split; [|done].
    intros _. unfold content. rewrite Hother by done. simpl.
    by rewrite lookup_insert_ne by done.
  - intros i s' Hs' Hs. destruct (decide (i = svc_id svc)) as [->|Hne].
    + cbn -[insert lookup] in Hs'. rewrite lookup_insert_eq in Hs'. injection Hs' as <-.
      split; [done|lia].
    + rewrite Hother in Hs' by done. congruence.
Qed.

Lemma filter_filter_ne {A} (f : A → uuid) (t : gmap uuid A) sid i :
  i ≠ sid →
  filter (fun kv : uuid * A => f kv.2 = i) (filter (fun kv : uuid * A => f kv.2 ≠ sid) t) =
  filter (fun kv : uuid * A => f kv.2 = i) t.
Proof.
  intros Hne. apply map_eq. intros j. apply option_eq. intros a.
  rewrite !map_lookup_filter_Some. simpl. split; [by intros [[??]?]|].
  intros [? E]. split_and!; try done. congruence.
Qed.

Lemma delete_evolves d sid evs :
  fresh_ok d → evolves d (cascade_service sid (d <| audit_events := evs |>)).
Proof.
  intros [Fj Fs]. split; cbn -[delete lookup filter content].
  - lia.
  - split; cbn -[delete lookup filter]; intros i [x Hx].
    + apply map_lookup_filter_Some in Hx as [Hx _]. apply Fj. by eexists.
    + apply lookup_delete_Some in Hx as [_ Hx]. apply Fs. by eexists.
  - intros i j' [Hj _]%map_lookup_filter_Some _. eauto.
  - intros i s s' Hs [Hne Hs']%lookup_delete_Some. simplify_eq. split; [lia|]. split; [|done].
    intros _. unfold content. cbn -[delete lookup filter].
    by rewrite !lookup_delete_ne, !filter_filter_ne by done.
  - intros i s' [Hne Hs']%lookup_delete_Some Hs. congruence.
Qed.

(** ** Operations that leave the deny set alone *)

#[global] Instance deny_same_preorder : PreOrder deny_same.
Proof. split; [by intros d|]. unfold deny_same. intros d1 d2 d3 ? ?. naive_solver congruence. Qed.

(** [try ... except: raise ...]: the handler never returns. *)
Lemma respects_try {A} (R : Db → Db → Prop) (m : M Session A) h :
  respects R m → (∀ e s a s', h e s ≠ (inr a, s')) → respects R (try_except m h).
Proof.
  intros Hm Hh s a s' [H|(e & s1 & _ & H)]%try_except_inr; [by eapply Hm|by apply Hh in H].
Qed.

Lemma raise_service_error_inr {A} e s (a : A) s' : _raise_integrity_error e s ≠ (inr a, s').
Proof. unfold _raise_integrity_error. destruct e; try done. by repeat case_match. Qed.

Ltac same_auto :=
  repeat first
    [ respects_step
    | apply respects_try; [|first [ apply raise_service_error_inr | apply raise_rule_error_inr
                                  | apply raise_list_error_inr ]] ].

Ltac same_unfold :=
  unfold create_service, update_service, set_enabled, size_plan, delete_service, create_rule,
    update_rule, delete_rule, add_whitelist, remove_whitelist, retry, refreshed,
    enqueue_service_update, _insert_or_get_job, _job_for_target_version,
    _current_version_job_for_update, _load_service_for_update, bump_version, _require_service,
    _require_plan, _record_for_service, _require_destination_scope, _find_conflicting_service,
    _require_service_locked, _require_rule, _rule_count, _ensure_priority_available,
    _require_whitelist_entry, whitelist_event, rule_event, flush_service, flush_plan, flush_rule,
    insert_whitelist, put_service, put_job, _register_dispatch, check_pkey, uuid4,
    nextval_dp_id, utc_now, record_event, get_db.

Ltac same := repeat same_unfold; same_auto.

Section same.
Implicit Types (actor : option User) (ip : option string).

Lemma create_service_same t name c actor mode vp vb sp sb com ceil metric ip :
  respects deny_same (create_service t name c actor mode vp vb sp sb com ceil metric ip).
Proof. same. Qed.
Lemma update_service_same sid actor name cidr mode vp vb sp sb ip :
  respects deny_same (update_service sid actor name cidr mode vp vb sp sb ip).
Proof. same. Qed.
Lemma set_enabled_same sid en actor ip : respects deny_same (set_enabled sid en actor ip).
Proof. same. Qed.
Lemma size_plan_same cap n sid actor com ceil ip :
  respects deny_same (size_plan cap n sid actor com ceil ip).
Proof. same. Qed.
Lemma delete_service_same sid actor ip : respects deny_same (delete_service sid actor ip).
Proof. same. Qed.
Lemma create_rule_same sid actor pr proto sl sh dl dh en ip :
  respects deny_same (create_rule sid actor pr proto sl sh dl dh en ip).
Proof. same. Qed.
Lemma update_rule_same sid rid actor pr proto sl sh dl dh en ip :
  respects deny_same (update_rule sid rid actor pr proto sl sh dl dh en ip).
Proof. same. Qed.
Lemma delete_rule_same sid rid actor ip : respects deny_same (delete_rule sid rid actor ip).
Proof. same. Qed.
Lemma add_whitelist_same sid src actor ip : respects deny_same (add_whitelist sid src actor ip).
Proof. same. Qed.
Lemma remove_whitelist_same sid src actor ip :
  respects deny_same (remove_whitelist sid src actor ip).
Proof. same. Qed.
Lemma retry_same sid actor : respects deny_same (retry sid actor).
Proof. same. Qed.
End same.

(** ** Every operation as a move *)

Section moves.
Context (sha256 : pystr → string).

Definition sys_ok (d : Db) : Prop := gw_ok d ∧ deny_ok sha256 d.

#[global] Instance sys_ok_stable : CommitStable sys_ok.
Proof. unfold sys_ok. apply _. Qed.

(** From a well-formed database: a well-formed one it evolves to. *)
Definition moves (d d' : Db) : Prop :=
  sys_ok d → fresh_ok d → sys_ok d' ∧ evolves d d'.

#[global] Instance moves_preorder : PreOrder moves.
Proof.
  split.
  - intros d Hok Hf. split; [done|]. by apply evolves_refl.
  - intros d1 d2 d3 H12 H23 Hok Hf. destruct (H12 Hok Hf) as [Hok2 E12].
    destruct (H23 Hok2 (ev_fresh _ _ E12)) as [Hok3 E23]. split; [done|].
    by eapply evolves_trans.
Qed.

(** A move that keeps the deny tables. *)
Lemma moves_same {A} (m : M Session A) :
  respects deny_same m →
  (∀ s a s', gw_ok (db s) → fresh_ok (db s) → m s = (inr a, s') →
     gw_ok (db s') ∧ evolves (db s) (db s')) →
  respects moves m.
Proof.
  intros Hs Hm s a s' H [Hgw Hd] Hf. destruct (Hm s a s' Hgw Hf H) as [Hgw' He].
  split; [split; [done|]|done]. eapply deny_ok_same; [by eapply Hs|done].
Qed.

Lemma moves_change {A} (m : M Session A) sid trigger :
  respects deny_same m →
  (∀ s a s', gw_ok (db s) → m s = (inr a, s') → config_change sid trigger (db s) (db s')) →
  respects moves m.
Proof.
  intros Hs Hm. apply moves_same; [done|]. intros s a s' Hgw Hf H. specialize (Hm s a s' Hgw H).
  split; [by eapply config_change_gw_ok|by eapply config_change_evolves].
Qed.

Lemma side_moves d d' : (gw_ok d → gw_ok d') → deny_same d d' → side d d' → moves d d'.
Proof.
  intros Hg Hd Hs [Hgw Hdeny] Hf. split; [split|by apply side_evolves].
  - by apply Hg.
  - by eapply deny_ok_same.
Qed.

(** *** Services, plans, rules and whitelists *)

Lemma create_service_moves t name c actor mode vp vb sp sb com ceil metric ip :
  net_wf c → respects moves (create_service t name c actor mode vp vb sp sb com ceil metric ip).
Proof.
  intros Hwf. apply moves_same; [apply create_service_same|]. intros s r s' Hgw Hf H.
  apply create_service_inr in H as (svc & plan & n & u & evs & Hnew & _ & _ & Hrow & _ & _ & _ & _ &
    Hid & -> & _ & -> & Hok'); [|done..].
  split; [done|]. by apply create_evolves.
Qed.

Lemma update_service_moves sid actor name cidr mode vp vb sp sb ip :
  (∀ c, cidr = Some c → net_wf c) →
  respects moves (update_service sid actor name cidr mode vp vb sp sb ip).
Proof.
  intros Hwf. eapply moves_change; [apply update_service_same|]. intros s a s' Hgw H.
  by eapply update_service_change.
Qed.

Lemma set_enabled_moves sid en actor ip : respects moves (set_enabled sid en actor ip).
Proof.
  apply moves_same; [apply set_enabled_same|]. intros s a s' Hgw Hf H.
  apply set_enabled_inr in H as (svc & _ & _ & H); [|done]. destruct (Bool.eqb _ en).
  - destruct H as [_ ->]. split; [done|by apply evolves_refl].
  - destruct H as [H _]. split; [by eapply config_change_gw_ok|by eapply config_change_evolves].
Qed.

Lemma size_plan_moves cap n sid actor com ceil ip :
  respects moves (size_plan cap n sid actor com ceil ip).
Proof.
  eapply moves_change; [apply size_plan_same|]. intros s a s' Hgw H.
  by apply size_plan_inr in H as (_ & _ & ? & _).
Qed.

Lemma delete_service_moves sid actor ip : respects moves (delete_service sid actor ip).
Proof.
  apply moves_same; [apply delete_service_same|]. intros s a s' Hgw Hf H.
  apply delete_service_inr in H as (svc & evs & _ & _ & _ & -> & Hok); [|done].
  split; [done|by apply delete_evolves].
Qed.

Lemma create_rule_moves sid actor pr proto sl sh dl dh en ip :
  respects moves (create_rule sid actor pr proto sl sh dl dh en ip).
Proof.
  eapply moves_change; [apply create_rule_same|]. intros s a s' Hgw H.
  by apply create_rule_inr in H as (? & _ & _ & ? & _).
Qed.

Lemma update_rule_moves sid rid actor pr proto sl sh dl dh en ip :
  respects moves (update_rule sid rid actor pr proto sl sh dl dh en ip).
Proof.
  eapply moves_change; [apply update_rule_same|]. intros s a s' Hgw H.
  by apply update_rule_inr in H as (? & ? & _ & _ & ? & _).
Qed.

Lemma delete_rule_moves sid rid actor ip : respects moves (delete_rule sid rid actor ip).
Proof.
  eapply moves_change; [apply delete_rule_same|]. intros s a s' Hgw H.
  by apply delete_rule_inr in H as (? & ? & _ & _ & ? & _).
Qed.

Lemma add_whitelist_moves sid src actor ip : respects moves (add_whitelist sid src actor ip).
Proof.
  eapply moves_change; [apply add_whitelist_same|]. intros s a s' Hgw H.
  by apply add_whitelist_inr in H as (? & _ & _ & ? & _).
Qed.

Lemma remove_whitelist_moves sid src actor ip : respects moves (remove_whitelist sid src actor ip).
Proof.
  eapply moves_change; [apply remove_whitelist_same|]. intros s a s' Hgw H.
  by apply remove_whitelist_inr in H as (? & ? & _ & _ & ? & _).
Qed.
End moves.
