(* ===== verification/WorkerInv.v ===== *)
(** * The worker's marks, and allocations, deny lists, feeds and job lifecycles as moves *)

From S2P Require Import Prelude PyStr Ipaddress RuleMatch Models Db Apply ApplyInv.
From S2P Require Import Allocations Services Isolation Rules ServicesInv FeedParser.
From S2P Require Import FeedReconcile FeedInv Lists ListsInv NodeControl FeedJobs.
From S2P Require Import Evolution.
Open Scope Z_scope.

(** ** What the worker's marks write

    [marked jid st js d d']: the job [jid] was terminal and nothing moved, or
    its version is no longer the configured one and it became superseded, or
    the job took status [js] and its service status [st]. *)

(** The columns a mark may not touch. *)
Definition static (s : ProtectedService) := (row_config s, svc_tenant_id s, svc_version s).

Definition marked (jid : uuid) (st : ApplyStatus.t) (js : JobStatus.t) (d d' : Db) : Prop :=
  ∃ job, agent_job d !! jid = Some job ∧
  ((is_terminal (job_status job) = true ∧ d' = d) ∨
   ∃ sid svc job', is_terminal (job_status job) = false ∧
     job_target job = TargetService sid ∧ protected_service d !! sid = Some svc ∧
     job_key job' = job_key job ∧ job_id job' = jid ∧
     ((job_version job ≠ svc_version svc ∧ job_status job' = JobStatus.superseded ∧
       d' = d <| agent_job := <[jid := job']> (agent_job d) |>) ∨
      (job_version job = svc_version svc ∧ job_status job' = js ∧
       st ∈ LEGAL_APPLY (svc_apply_status svc) ∧
       ∃ svc', static svc' = static svc ∧ svc_apply_status svc' = st ∧
         d' = d <| protected_service := <[sid := svc']> (protected_service d) |>
                <| agent_job := <[jid := job']> (agent_job d) |>))).

Lemma guarded_mark_marked jid k st js s u s' :
  apply_ok (db s) → guarded_mark jid k s = (inr u, s') →
  (∀ job svc, k job svc s = (inr u, s') →
     st ∈ LEGAL_APPLY (svc_apply_status svc) ∧
     ∃ job' svc', job_key job' = job_key job ∧ job_id job' = job_id job ∧ job_status job' = js ∧
       static svc' = static svc ∧ svc_apply_status svc' = st ∧
       db s' = db s <| protected_service := <[svc_id svc' := svc']> (protected_service (db s)) |>
                    <| agent_job := <[job_id job' := job']> (agent_job (db s)) |>) →
  marked jid st js (db s) (db s').
Proof.
  intros Hok H Hk.
  apply guarded_mark_inr in H as (job & Hj & [[Ht ->]|(sid & svc & Ht & Htgt & Hs & Hc)]).
  - exists job. split; [done|]. by left.
  - exists job. split; [done|]. right. destruct Hc as [[Hv Hsup]|[Hv Hrun]].
    + unfold _mark_superseded, utc_now, get_db, put_job, mod_db in Hsup. minv.
      pose proof (li_job_id _ _ (proj1 Hok) _ _ Hj) as Hjid.
      exists sid, svc, (job <| job_status := JobStatus.superseded |>
                            <| job_finished_at := Some (clock (db s)) |>).
      split_and!; try done. left. split_and!; try done. simpl. by rewrite Hjid.
    + destruct (Hk job svc Hrun) as (Hl & job' & svc' & K & I & J & S & A & E).
      pose proof (li_job_id _ _ (proj1 Hok) _ _ Hj) as Hjid.
      pose proof (li_svc_id _ _ (proj1 Hok) _ _ Hs) as Hsid.
      exists sid, svc, job'. split_and!; try done; [congruence|]. right. split_and!; try done.
      exists svc'. split_and!; try done. rewrite E, I, Hjid. do 3 f_equal.
      assert (svc_id svc' = svc_id svc) as -> by (unfold static, row_config in S; congruence).
      by rewrite Hsid.
Qed.

Ltac mark_tac :=
  let Hrun := fresh "Hrun" in
  intros job svc Hrun; unfold utc_now, get_db, put_job, put_service, mod_db in Hrun; minv;
  match goal with H : assert_transition _ _ = _ |- _ =>
    apply assert_transition_inr in H as Hl end;
  split; [done|].

Lemma mark_applying_marked jid s u s' :
  apply_ok (db s) → mark_applying jid s = (inr u, s') →
  marked jid ApplyStatus.applying JobStatus.applying (db s) (db s').
Proof.
  intros Hok H. eapply guarded_mark_marked; [done|exact H|]. clear H. mark_tac.
  exists (job <| job_status := JobStatus.applying |> <| job_started_at := Some (clock (db s)) |>
              <| job_attempts := job_attempts job + 1 |>),
    (svc <| svc_apply_status := ApplyStatus.applying |> <| svc_updated_at := clock (db s) |>).
  by split_and!.
Qed.

Lemma mark_active_marked jid s u s' :
  apply_ok (db s) → mark_active jid s = (inr u, s') →
  marked jid ApplyStatus.active JobStatus.succeeded (db s) (db s').
Proof.
  intros Hok H. eapply guarded_mark_marked; [done|exact H|]. clear H. mark_tac.
  exists (job <| job_status := JobStatus.succeeded |> <| job_finished_at := Some (clock (db s)) |>),
    (svc <| svc_apply_status := ApplyStatus.active |>
         <| svc_active_version := Some (job_version job) |> <| svc_updated_at := clock (db s) |>).
  by split_and!.
Qed.

Lemma mark_failed_marked jid err s u s' :
  apply_ok (db s) → mark_failed jid err s = (inr u, s') →
  marked jid ApplyStatus.failed JobStatus.failed (db s) (db s').
Proof.
  intros Hok H. eapply guarded_mark_marked; [done|exact H|]. clear H. mark_tac.
  exists (job <| job_status := JobStatus.failed |>
              <| job_error := Some (String.substring 0 APPLY_ERROR_LIMIT err) |>
              <| job_finished_at := Some (clock (db s)) |>),
    (svc <| svc_apply_status := ApplyStatus.failed |> <| svc_updated_at := clock (db s) |>).
  by split_and!.
Qed.

(** ** Marks as moves *)

Lemma content_static d d' i :
  static <$> protected_service d' !! i = static <$> protected_service d !! i →
  service_plan d' = service_plan d → allow_rule d' = allow_rule d →
  whitelist_entry d' = whitelist_entry d → content d' i = content d i.
Proof.
  intros E E1 E2 E3. unfold content. rewrite E1, E2, E3. do 3 f_equal.
  destruct (protected_service d' !! i), (protected_service d !! i); try done.
  simpl in *. unfold static in E. congruence.
Qed.

(** The static view of the rows and the keys of the jobs stay put; [P] says
    which services may have become active. *)
Definition ledger_step (P : uuid → Prop) (d d' : Db) : Prop :=
  ∃ ps aj, d' = d <| protected_service := ps |> <| agent_job := aj |> ∧
    (∀ i, static <$> ps !! i = static <$> protected_service d !! i) ∧
    (∀ i, job_key <$> aj !! i = job_key <$> agent_job d !! i) ∧
    (∀ i s s', protected_service d !! i = Some s → ps !! i = Some s' →
       svc_apply_status s' = ApplyStatus.active → svc_apply_status s = ApplyStatus.active ∨ P i).

Lemma marked_step jid st js d d' :
  marked jid st js d d' →
  ledger_step (fun i => st = ApplyStatus.active ∧ ∃ job svc, agent_job d !! jid = Some job ∧
    job_target job = TargetService i ∧ protected_service d !! i = Some svc ∧
    job_version job = svc_version svc) d d'.
Proof.
  intros (job & Hj & [[_ ->]|(sid & svc & job' & Ht & Htgt & Hs & Hk & Hid & Hc)]).
  - exists (protected_service d), (agent_job d). split_and!; try done; [by destruct d|].
    intros i s s' ? ? ?. simplify_eq. by left.
  - assert (∀ i, job_key <$> <[jid := job']> (agent_job d) !! i = job_key <$> agent_job d !! i)
      as Hkeys.
    { intros i. destruct (decide (i = jid)) as [->|Hne]; [|by rewrite lookup_insert_ne].
      rewrite lookup_insert_eq, Hj. simpl. by f_equal. }
    destruct Hc as [(Hv & _ & ->)|(Hv & _ & _ & svc' & Hst & Ha & ->)].
    + exists (protected_service d), (<[jid := job']> (agent_job d)). split_and!; try done.
      intros i s s' ? ? ?. simplify_eq. by left.
    + exists (<[sid := svc']> (protected_service d)), (<[jid := job']> (agent_job d)).
      split_and!; try done.
      * intros i. destruct (decide (i = sid)) as [->|Hne]; [|by rewrite lookup_insert_ne].
        rewrite lookup_insert_eq, Hs. simpl. by f_equal.
      * intros i s s' Hi [[<- <-]|[Hne Hi']]%lookup_insert_Some Hact.
        -- right. split; [congruence|]. by exists job, svc.
        -- simplify_eq. by left.
Qed.

Lemma ledger_step_weaken (P Q : uuid → Prop) d d' :
  (∀ i, P i → Q i) → ledger_step P d d' → ledger_step Q d d'.
Proof.
  intros HPQ (ps & aj & E & H1 & H2 & H3). exists ps, aj. split_and!; try done.
  intros i s s' Hi Hi' Ha. destruct (H3 i s s' Hi Hi' Ha); auto.
Qed.

Lemma ledger_step_gw P d d' : gw_ok d → apply_ok d' → ledger_step P d d' → gw_ok d'.
Proof.
  intros (_ & Hi & Hc) Ha (ps & aj & -> & Hs & _ & _). split_and!; [done| |].
  - eapply (iso_ok_frame d); [done| |exact Hi]. apply map_eq. intros i. unfold dests. simpl.
    rewrite !lookup_fmap. specialize (Hs i).
    destruct (ps !! i), (protected_service d !! i); try done. simpl in *.
    unfold static, row_config in Hs. unfold dest. congruence.
  - eapply config_ok_frame; [exact Hc|done..|]. intros i. simpl. specialize (Hs i).
    destruct (ps !! i), (protected_service d !! i); done.
Qed.

Lemma ledger_step_evolves d d' :
  fresh_ok d → ledger_step (fun _ => False) d d' → evolves d d'.
Proof.
  intros [Fj Fs] (ps & aj & -> & Hs & Hj & Ha).
  split; cbn -[content].
  - lia.
  - split; simpl; intros i Hi.
    + apply Fj. specialize (Hj i). destruct Hi as [x Hx]. rewrite Hx in Hj.
      destruct (agent_job d !! i); [by eexists|done].
    + apply Fs. specialize (Hs i). destruct Hi as [x Hx]. rewrite Hx in Hs.
      destruct (protected_service d !! i); [by eexists|done].
  - intros i j' Hi _. specialize (Hj i). rewrite Hi in Hj.
    destruct (agent_job d !! i) as [j|]; [|done]. injection Hj as E1 E2.
    exists j. split_and!; congruence.
  - intros i s s' Hi Hi'. pose proof (Hs i) as Hsi. rewrite Hi, Hi' in Hsi. injection Hsi as E.
    assert (svc_version s' = svc_version s) as Ev by congruence. split_and!; [lia| |].
    + intros _. apply content_static; [simpl; by rewrite (Hs i)|done..].
    + intros Hact. destruct (Ha i s s' Hi Hi' Hact) as [?|[]]. split; [done|congruence].
  - intros i s' Hi' Hi. specialize (Hs i). rewrite Hi, Hi' in Hs. done.
Qed.

Lemma ledger_step_same P d d' : ledger_step P d d' → deny_same d d'.
Proof. by intros (ps & aj & -> & _). Qed.

Section marks.
Context (sha256 : pystr → string).

Lemma marked_moves jid st js d d' :
  st ≠ ApplyStatus.active → (apply_ok d → apply_ok d') → marked jid st js d d' →
  moves sha256 d d'.
Proof.
  intros Hst Ha Hm%marked_step Hok Hf. pose proof (proj1 Hok) as Hgw.
  eapply ledger_step_weaken in Hm; [|by intros i [? _]]. split; [split|].
  - eapply ledger_step_gw; [done|apply Ha, Hgw|exact Hm].
  - eapply deny_ok_same; [by eapply ledger_step_same|apply Hok].
  - by apply ledger_step_evolves.
Qed.

Lemma mark_applying_moves jid : respects (moves sha256) (mark_applying jid).
Proof.
  intros s u s' H Hok. eapply (marked_moves jid ApplyStatus.applying);
    [done| |eapply mark_applying_marked; [apply Hok|done]|done].
  intros Ha. by eapply (mark_applying_keeps jid s).
Qed.

Lemma mark_failed_moves jid err : respects (moves sha256) (mark_failed jid err).
Proof.
  intros s u s' H Hok. eapply (marked_moves jid ApplyStatus.failed);
    [done| |eapply mark_failed_marked; [apply Hok|done]|done].
  intros Ha. by eapply (mark_failed_keeps jid err s).
Qed.

(** Retrying puts the failed service and the job of its version back in the
    queue. *)
Lemma retry_step sid actor s job s' :
  apply_ok (db s) → retry sid actor s = (inr job, s') →
  ∃ d0 evs, ledger_step (fun _ => False) (db s) d0 ∧ db s' = d0 <| audit_events := evs |> ∧
    ∃ svc, protected_service (db s) !! sid = Some svc ∧
      svc_apply_status svc = ApplyStatus.failed ∧
      job_status job = JobStatus.queued ∧ job_key job = (TargetService sid, svc_version svc) ∧
      agent_job (db s') !! job_id job = Some job ∧
      svc_apply_status <$> protected_service (db s') !! sid = Some ApplyStatus.queued.
Proof.
  intros Hok H. unfold retry, _load_service_for_update, get_db in H. minv.
  match goal with Hs : protected_service (db s) !! sid = Some ?svc |- _ =>
    destruct (current_job_query _ _ _ Hok Hs) as (jid & j & [Hj Ht] & Hv & Hc & Hsel);
    rename svc into svc0; rename Hs into Hsvc end.
  match goal with H : _current_version_job_for_update _ _ = _ |- _ =>
    unfold _current_version_job_for_update, get_db in H; minv;
    rewrite Hsel in H; simpl in H; minv end.
  unfold utc_now, get_db, put_job, put_service, record_event, mod_db in *. minv.
  match goal with H : _register_dispatch _ _ = _ |- _ =>
    apply register_dispatch_db in H as Edb end.
  match goal with H : bool_decide (_ = _) = true |- _ =>
    apply bool_decide_eq_true in H as Hst end.
  pose proof (li_job_id _ _ (proj1 Hok) _ _ Hj) as Hjid.
  pose proof (li_svc_id _ _ (proj1 Hok) _ _ Hsvc) as Hsid.
  set (job' := mkAgentJob _ _ _ _ _ _ _ _ _ _ _) in *.
  set (svc' := mkProtectedService _ _ _ _ _ _ _ _ _ _ _ _ _ _ _ _ _) in *.
  exists (db s <| protected_service := <[svc_id svc' := svc']> (protected_service (db s)) |>
               <| agent_job := <[job_id job' := job']> (agent_job (db s)) |>).
  eexists. split; [|split; [exact Edb|]].
  - eexists _, _. split; [reflexivity|]. split_and!.
    + intros i. destruct (decide (i = sid)) as [->|Hne].
      * simpl. rewrite Hsid, lookup_insert_eq, Hsvc. done.
      * simpl. rewrite Hsid, lookup_insert_ne by done. done.
    + intros i. simpl. rewrite Hjid. destruct (decide (i = jid)) as [->|Hne].
      * rewrite lookup_insert_eq, Hj. done.
      * rewrite lookup_insert_ne by done. done.
    + intros i x y Hx Hy Ha. simpl in Hy. rewrite Hsid in Hy.
      apply lookup_insert_Some in Hy as [[<- <-]|[_ Hy]]; [done|]. simplify_eq. by left.
  - exists svc0. split_and!; try done.
    + unfold job_key. simpl. by rewrite Ht, Hv.
    + rewrite Edb. simpl. apply lookup_insert_eq.
    + rewrite Edb. simpl. by rewrite Hsid, lookup_insert_eq.
Qed.

Lemma retry_moves sid actor : respects (moves sha256) (retry sid actor).
Proof.
  apply moves_same; [apply retry_same|]. intros s job s' Hgw Hf H.
  pose proof (retry_keeps sid actor s job s' (proj1 Hgw) H) as Ha.
  apply retry_step in H as (d0 & evs & Hst & E & _); [|apply Hgw].
  assert (gw_ok d0) as Hgw0.
  { eapply ledger_step_gw; [done| |exact Hst]. by rewrite E in Ha. }
  rewrite E. split; [by apply gw_ok_audit|].
  eapply evolves_trans; [done|by apply ledger_step_evolves|].
  apply side_evolves; [|by split]. by apply (ev_fresh (db s)), ledger_step_evolves.
Qed.
End marks.

(** ** Steps beside the services *)

Lemma uuid4_side : respects side uuid4.
Proof.
  intros s u s' [-> ->]%uuid4_inr. split; try done; simpl; [lia|].
  intros [Fj Fs]. split; simpl; intros i Hi; [specialize (Fj i Hi)|specialize (Fs i Hi)]; lia.
Qed.

Lemma record_event_side actor a t i o ip m : respects side (record_event actor a t i o ip m).
Proof. intros s u s' [evs ->]%record_event_inr. by split. Qed.

#[export] Hint Resolve uuid4_side record_event_side : gateway.

Ltac side_auto :=
  repeat first
    [ respects_step
    | apply respects_try; [|first [ apply raise_list_error_inr ]] ].

Lemma allocate_side t c actor ip : respects side (allocate t c actor ip).
Proof.
  unfold allocate, _find_conflict, insert_allocation, check_pkey, utc_now. side_auto.
  apply respects_try; [side_auto|]. intros e s x s' H.
  case_bool_decide; [|done]. minv. by case_match.
Qed.

Lemma revoke_side k actor ip : respects side (revoke k actor ip).
Proof. unfold revoke, utc_now. side_auto. Qed.

(** ** Reconciliation *)

Lemma reconcile_side sha256 run parsed : respects side (reconcile sha256 run parsed).
Proof.
  unfold reconcile, _locked_source, _locked_global_state, _upsert_feed_entries, insert_feed_entry,
    _replace_source_assertions, _delete_orphaned_feed_entries, _materialize_locked,
    _persist_overlaps, insert_overlap, _record_overlap_summary, _store_run_stats, check_pkey,
    utc_now. side_auto. by destruct (existsb _ _); split.
Qed.

(** ** Steps that keep the service invariant *)

Definition gside (d d' : Db) : Prop := gw_ok d → gw_ok d' ∧ side d d'.

#[global] Instance gside_preorder : PreOrder gside.
Proof.
  split; [by intros d|]. intros d1 d2 d3 H12 H23 Hgw. destruct (H12 Hgw) as [Hgw2 S12].
  destruct (H23 Hgw2) as [? S23]. split; [done|by etrans].
Qed.

Lemma uuid4_gside : respects gside uuid4.
Proof.
  intros s u s' H Hgw. pose proof (uuid4_side s u s' H) as Hs.
  apply uuid4_inr in H as [-> ->]. split; [by apply gw_ok_supply|done].
Qed.
Lemma record_event_gside actor a t i o ip m : respects gside (record_event actor a t i o ip m).
Proof.
  intros s u s' H Hgw. pose proof (record_event_side actor a t i o ip m s u s' H) as Hs.
  apply record_event_inr in H as [evs ->]. split; [by apply gw_ok_audit|done].
Qed.
#[export] Hint Resolve uuid4_gside record_event_gside : gateway.

(** Rewriting a job that belongs to no service, and adding one. *)
Lemma put_job_gside d job j0 :
  agent_job d !! job_id job = Some j0 → job_key job = job_key j0 →
  (∀ sid, job_target job ≠ TargetService sid) →
  gside d (d <| agent_job := <[job_id job := job]> (agent_job d) |>).
Proof.
  intros Hj Hk Ht (Ha & Hi & Hc). split; [|by eapply side_put_job]. split_and!; try done.
  - apply apply_inv_other_job; [done|done|]. intros j1 sid Hj1 E.
    rewrite Hj in Hj1. injection Hj1 as <-. unfold job_key in Hk. apply (Ht sid). congruence.
  - by eapply config_ok_frame.
Qed.

Lemma new_job_gside d job :
  job_id job = uuid_supply d → agent_job d !! uuid_supply d = None →
  (∀ sid, job_target job ≠ TargetService sid) →
  gside d (d <| uuid_supply := Pos.succ (uuid_supply d) |>
             <| agent_job := <[job_id job := job]> (agent_job d) |>).
Proof.
  intros Hid Hn Ht (Ha & Hi & Hc). split; [|by apply side_new_job]. split_and!; try done.
  - apply apply_inv_other_job; [done|done|]. intros j1 sid Hj1. rewrite Hid in Hj1. congruence.
  - by eapply config_ok_frame.
Qed.

Lemma convergence_gside : respects gside _enqueue_global_convergence.
Proof.
  intros s b s' H. unfold _enqueue_global_convergence, get_db in H. minv.
  destruct (global_deny_state (db s)) as [st|]; [|by minv].
  destruct (negb _); [by minv|]. minv. destruct (select_where _ _) as [|x l]; [|by minv]. minv.
  match goal with H : one_or_none _ _ = _ |- _ =>
    apply one_or_none_inr in H as (-> & -> & _) end.
  unfold put_job, add_post_commit_callback, mod_db in *. minv.
  destruct (head _) as [j|] eqn:Eh.
  - minv. apply head_Some_elem_of, elem_of_select in Eh as ([Hg Hv]%andb_true_iff & k & Hk).
    intros Hgw. pose proof (li_job_id _ _ (proj1 (proj1 Hgw)) _ _ Hk) as Hid.
    revert Hgw. change (gside (db s) (db s <| agent_job :=
      <[job_id (requeued_job j) := requeued_job j]> (agent_job (db s)) |>)).
    eapply put_job_gside; [simpl; by rewrite Hid|done|]. simpl. intros sid Ht.
    unfold is_global_job in Hg. apply bool_decide_eq_true in Hg. congruence.
  - unfold utc_now, check_pkey, get_db in *. minv.
    match goal with H : uuid4 _ = _ |- _ => apply uuid4_inr in H as [-> ->] end.
    match goal with H : bool_decide _ = true |- _ => apply bool_decide_eq_true in H as Hn end.
    by apply (new_job_gside (db s)
      (new_job (uuid_supply (db s)) TargetGlobalDeny _ ChangeTrigger.global_deny_retry _)).
Qed.

Lemma deny_frame_state d st : deny_frame d (d <| global_deny_state := st |>).
Proof.
  by exists (uuid_supply d), (blacklist_entry d), (feed_blacklist_assertion d),
    (feed_sync_overlap d), st, (feed_sync_run d), (audit_events d).
Qed.
Lemma deny_frame_entries d bl : deny_frame d (d <| blacklist_entry := bl |>).
Proof.
  by exists (uuid_supply d), bl, (feed_blacklist_assertion d),
    (feed_sync_overlap d), (global_deny_state d), (feed_sync_run d), (audit_events d).
Qed.
Lemma deny_frame_rows d id : deny_frame d (delete_blacklist_row id d).
Proof.
  by exists (uuid_supply d), (blacklist_entry (delete_blacklist_row id d)),
    (feed_blacklist_assertion (delete_blacklist_row id d)), (feed_sync_overlap d),
    (global_deny_state d), (feed_sync_run d), (audit_events d).
Qed.

Section moves.
Context (sha256 : pystr → string).
Abbreviation moves := (moves sha256).

(** Writes the invariants do not look at. *)
Lemma moves_unseen d d' :
  side d d' → deny_same d d' → allocated_cidr d' = allocated_cidr d →
  agent_job d' = agent_job d → moves d d'.
Proof.
  intros Hs Hd Ea Ej. apply side_moves; [|done..].
  destruct Hs as [E1 E2 E3 E4 _ _ _]. intros (Ha & Hi & Hc). split_and!.
  - unfold apply_ok. by rewrite E1, Ej.
  - eapply iso_ok_frame; [exact Ea| |exact Hi]. unfold dests. by rewrite E1.
  - eapply config_ok_frame; [exact Hc|done..|]. by rewrite E1.
Qed.

Lemma allocate_moves t c actor ip : net_wf c → respects moves (allocate t c actor ip).
Proof.
  intros Hwf s a s' H. apply side_moves; [|by apply allocate_inr in H as (_&_&_&_&_&u&evs&->)|
    by eapply allocate_side].
  intros (Ha & Hi & Hc). pose proof (allocate_keeps_iso t c actor ip Hwf s a s' Hi H) as Hi'.
  apply allocate_inr in H as (_ & _ & _ & _ & _ & u & evs & E). rewrite E in *. split_and!; try done.
  by eapply config_ok_frame.
Qed.

Lemma revoke_moves k actor ip : respects moves (revoke k actor ip).
Proof.
  intros s a s' H. pose proof (revoke_side k actor ip s a s' H) as Hside.
  apply side_moves; [|by apply revoke_inr in H as (a0&_&[(_&_&->)|(_&_&_&evs&->)])|done].
  intros (Ha & Hi & Hc). pose proof (revoke_keeps_iso k actor ip s a s' Hi H) as Hi'.
  apply revoke_inr in H as (a0 & _ & [(_ & _ & ->)|(_ & _ & _ & evs & E)]); [by split_and!|].
  rewrite E in *. split_and!; try done. by eapply config_ok_frame.
Qed.

Lemma reconcile_moves run parsed :
  Forall net_wf (cidrs parsed) → respects moves (reconcile sha256 run parsed).
Proof.
  intros Hwf s r s' H. pose proof (reconcile_side sha256 run parsed s r s' H) as Hside.
  destruct (live_source (db s) run) as [source|] eqn:El.
  - destruct (run_dry_run run) eqn:Ed.
    + apply (reconcile_dry_inr sha256 run parsed source) in H as (Hq & (runs & E) & _); [|done..].
      rewrite E in *. by apply moves_unseen.
    + intros [Hgw Hd] Hf. apply (reconcile_inr sha256 run parsed source) in H as (Hfr & Hd' & _);
        [|done..]. split; [split; [by eapply gw_ok_deny|done]|by apply side_evolves].
  - rewrite (reconcile_noop sha256 run parsed s El) in H. by injection H as <- <-.
Qed.

Lemma parse_wf data : Forall net_wf (cidrs (parse_line_list data)).
Proof.
  unfold parse_line_list. destruct (utf8_sig_decode data) as [text|]; [|constructor].
  eapply Forall_impl; [apply parse_lines_wf|naive_solver].
Qed.

(** ** Node control *)

Lemma get_node_control_moves : respects moves get_node_control.
Proof.
  intros s a s' H. rewrite get_node_control_run in H. injection H as <- <-.
  by apply moves_unseen.
Qed.
Hint Resolve get_node_control_moves : gateway.

Lemma record_event_moves actor a t i o ip m : respects moves (record_event actor a t i o ip m).
Proof. intros s u s' [evs ->]%record_event_inr. by apply moves_unseen. Qed.
Hint Resolve record_event_moves : gateway.

Lemma put_node_control_moves nc : respects moves (put_node_control nc).
Proof. apply respects_mod_db. intros d. by apply moves_unseen. Qed.
Hint Resolve put_node_control_moves : gateway.

Lemma set_bypass_moves actor en reason ip : respects moves (set_bypass actor en reason ip).
Proof. unfold set_bypass, _locked_node_control, utc_now. respects_auto. Qed.
Lemma set_maintenance_moves actor en ip : respects moves (set_maintenance actor en ip).
Proof. unfold set_maintenance, _locked_node_control, utc_now. respects_auto. Qed.
Lemma maintenance_active_moves : respects moves maintenance_active.
Proof. unfold maintenance_active. respects_auto. Qed.

(** ** Blacklists *)

Lemma gside_moves d d' : gside d d' → deny_same d d' → moves d d'.
Proof.
  intros H Hd [Hgw Hdeny] Hf. destruct (H Hgw) as [Hgw' Hs].
  split; [split; [done|by eapply deny_ok_same]|by apply side_evolves].
Qed.

Lemma convergence_same : respects deny_same _enqueue_global_convergence.
Proof. unfold _enqueue_global_convergence, put_job, uuid4, utc_now, check_pkey. respects_auto. Qed.

Lemma convergence_moves : respects moves _enqueue_global_convergence.
Proof.
  intros s b s' H. apply gside_moves; [by eapply convergence_gside|by eapply convergence_same].
Qed.

Lemma materialize_enqueue_gside : respects gside (_materialize_global_deny_and_enqueue sha256).
Proof.
  unfold _materialize_global_deny_and_enqueue, materialize_global_union, _locked_global_state,
    _materialize_locked. respects_auto.
  all: try apply convergence_gside.
  all: intros Hgw; split; [|by split]; eapply gw_ok_deny; [exact Hgw|]; eapply deny_frame_state.
Qed.

Lemma add_blacklist_moves src actor ip : respects moves (add_blacklist sha256 src actor ip).
Proof.
  intros s e s' H Hok Hf. assert (gside (db s) (db s')) as Hg.
  { revert H. generalize s e s'. change (respects gside (add_blacklist sha256 src actor ip)).
    unfold add_blacklist, _global_blacklist_entry_for_update, insert_blacklist, put_blacklist,
      blacklist_event, check_pkey, utc_now.
    repeat first [ respects_step | apply respects_try; [|apply raise_list_error_inr]
                 | apply materialize_enqueue_gside ].
    all: intros Hgw; split; [|by split]; eapply gw_ok_deny; [exact Hgw|]; eapply deny_frame_entries. }
  destruct (Hg (proj1 Hok)) as [_ Hside].
  apply add_blacklist_inr in H as (_ & Hgw & Hd & _); [|apply Hok..].
  split; [by split|by apply side_evolves].
Qed.

Lemma remove_blacklist_moves src actor ip : respects moves (remove_blacklist sha256 src actor ip).
Proof.
  intros s e s' H Hok Hf. assert (gside (db s) (db s')) as Hg.
  { revert H. generalize s e s'. change (respects gside (remove_blacklist sha256 src actor ip)).
    unfold remove_blacklist, _require_blacklist_entry, _global_blacklist_entry_for_update,
      put_blacklist, blacklist_event.
    repeat first [ respects_step | apply materialize_enqueue_gside ].
    all: intros Hgw; split; [|by split]; eapply gw_ok_deny; [exact Hgw|].
    - eapply deny_frame_entries.
    - eapply deny_frame_rows. }
  destruct (Hg (proj1 Hok)) as [_ Hside].
  apply remove_blacklist_inr in H as (x & _ & Hgw & Hd & _); [|apply Hok..].
  split; [by split|by apply side_evolves].
Qed.
(** ** Lifecycles *)

(** Rewriting the row a lifecycle has locked. *)
Lemma put_locked_moves d id locked job :
  agent_job d !! id = Some locked → job_id job = job_id locked → job_key job = job_key locked →
  (∀ sid, job_target locked ≠ TargetService sid) →
  moves d (d <| agent_job := <[job_id job := job]> (agent_job d) |>).
Proof.
  intros Hj Hid Hk Ht Hok. pose proof (li_job_id _ _ (proj1 (proj1 (proj1 Hok))) _ _ Hj) as E.
  revert Hok. apply gside_moves; [|done]. eapply put_job_gside; [by rewrite Hid, E| done|].
  unfold job_key in Hk. intros sid. specialize (Ht sid). congruence.
Qed.

Lemma put_run_moves run : respects moves (put_run run).
Proof. apply respects_mod_db. intros d. by apply moves_unseen. Qed.
Lemma put_source_moves src : respects moves (put_source src).
Proof. apply respects_mod_db. intros d. by apply moves_unseen. Qed.
Hint Resolve put_run_moves put_source_moves : gateway.

(** The write of a locked row followed by steps that are moves. *)
Lemma put_locked_then {A} id locked job (k : unit → M Session A) s a s' :
  agent_job (db s) !! id = Some locked → job_id job = job_id locked →
  job_key job = job_key locked → (∀ sid, job_target locked ≠ TargetService sid) →
  (∀ u, respects moves (k u)) →
  (put_job job ≫= k) s = (inr a, s') → moves (db s) (db s').
Proof.
  intros Hj Hid Hk Ht Hrest H. unfold put_job, mod_db in H. rewrite run_modS in H.
  etrans; [exact (put_locked_moves (db s) id locked job Hj Hid Hk Ht)|].
  exact (Hrest tt _ _ _ H).
Qed.

(** Jobs that belong to no service. *)
Definition not_service (d : Db) (id : uuid) : Prop :=
  ∀ j sid, agent_job d !! id = Some j → job_target j ≠ TargetService sid.

Lemma finish_noop_moves id locked run s u s' :
  agent_job (db s) !! id = Some locked → not_service (db s) id →
  _finish_noop locked run s = (inr u, s') → moves (db s) (db s').
Proof.
  intros Hj Hns H. unfold _finish_noop, utc_now, get_db in H. rewrite run_gets in H.
  eapply put_locked_then in H; [done|exact Hj|done|done|by eauto|].
  intros _. destruct run; respects_auto.
Qed.

Ltac lifecycle :=
  repeat first
    [ match goal with
      | H : (gets _ ≫= _) _ = (inr _, _) |- _ => rewrite run_gets in H
      | H : ((_ ≫= _) ≫= _) _ = (inr _, _) |- _ => rewrite run_assoc in H
      | H : (mret _ ≫= _) _ = (inr _, _) |- _ => rewrite run_ret in H
      | H : (require true _ ≫= _) _ = (inr _, _) |- _ => rewrite run_require in H
      | H : mret _ _ = (inr _, _) |- _ => apply ret_inr in H as [? ?]; subst; reflexivity
      | H : (put_job _ ≫= _) _ = (inr _, _) |- _ =>
          eapply put_locked_then in H; [exact H|eassumption|done|done|by eauto|intros ?; respects_auto]
      | H : (match ?x with _ => _ end) _ = (inr _, _) |- _ => destruct x eqn:?
      | H : ((match ?x with _ => _ end) ≫= _) _ = (inr _, _) |- _ => destruct x eqn:?
      end ].

Lemma finish_noop_then id locked run (b a : bool) s s' :
  agent_job (db s) !! id = Some locked → not_service (db s) id →
  (_finish_noop locked run ≫= fun _ => mret b) s = (inr a, s') → moves (db s) (db s').
Proof. intros Hj Hns H. minv. by eapply finish_noop_moves. Qed.

Ltac noop := first [ eapply finish_noop_moves; eassumption | eapply finish_noop_then; eassumption ].

Lemma feed_claim_moves job s a s' :
  not_service (db s) (job_id job) → FeedSyncJobLifecycle.claim job s = (inr a, s') →
  moves (db s) (db s').
Proof.
  intros Hns H. unfold FeedSyncJobLifecycle.claim, _locked_job, _locked_run, _locked_feed_source,
    utc_now, get_db in H. lifecycle; noop.
Qed.

Lemma with_running_moves job k s u s' :
  not_service (db s) (job_id job) →
  (∀ locked run source, agent_job (db s) !! job_id job = Some locked →
     k locked run source s = (inr u, s') → moves (db s) (db s')) →
  FeedSyncJobLifecycle.with_running job k s = (inr u, s') → moves (db s) (db s').
Proof.
  intros Hns Hk H. unfold FeedSyncJobLifecycle.with_running, _locked_job, _locked_run,
    _locked_feed_source, get_db in H. lifecycle; first [noop|by eapply Hk].
Qed.

Lemma feed_succeed_moves job o s u s' :
  not_service (db s) (job_id job) → FeedSyncJobLifecycle.succeed job o s = (inr u, s') →
  moves (db s) (db s').
Proof.
  intros Hns H. eapply with_running_moves; [done| |exact H]. clear H.
  intros locked run source Hj H. cbv zeta in H.
  apply bind_inr in H as (v & s1 & [_ ->]%require_inr & H).
  unfold utc_now, get_db in H. lifecycle.
Qed.

Lemma feed_fail_moves job e s u s' :
  not_service (db s) (job_id job) → FeedSyncJobLifecycle.fail job e s = (inr u, s') →
  moves (db s) (db s').
Proof.
  intros Hns H. eapply with_running_moves; [done| |exact H]. clear H.
  intros locked run source Hj H. unfold utc_now, get_db in H. cbv zeta in H. lifecycle.
Qed.

(** A move keeps which jobs belong to no service. *)
Lemma moves_not_service d d' id :
  sys_ok sha256 d → fresh_ok d → moves d d' → is_Some (agent_job d !! id) →
  not_service d id → not_service d' id.
Proof.
  intros Hok Hf Hm Hin Hns j' sid Hj' Ht. destruct (Hm Hok Hf) as [_ He].
  destruct (ev_job _ _ He id j' Hj') as (j & Hj & E & _); [by apply (proj1 Hf)|].
  eapply Hns; [exact Hj|]. by rewrite E.
Qed.

Lemma feed_recover_moves job s u s' :
  not_service (db s) (job_id job) → is_Some (agent_job (db s) !! job_id job) →
  FeedSyncJobLifecycle.recover job s = (inr u, s') → moves (db s) (db s').
Proof.
  intros Hns Hin H Hok Hf. revert Hok Hf. unfold FeedSyncJobLifecycle.recover in H.
  apply bind_inr in H as (v & s1 & H1%feed_fail_moves & H); [|done].
  intros Hok Hf. pose proof (moves_not_service _ _ _ Hok Hf H1 Hin Hns) as Hns1.
  revert Hok Hf. change (moves (db s) (db s')). etrans; [exact H1|]. clear H1.
  unfold _locked_job, _locked_run, _locked_feed_source, get_db in H. lifecycle.
Qed.

Lemma global_claim_moves job s a s' :
  not_service (db s) (job_id job) → GlobalDenyJobLifecycle.claim job s = (inr a, s') →
  moves (db s) (db s').
Proof.
  intros Hns H. unfold GlobalDenyJobLifecycle.claim, _locked_job, utc_now, get_db in H. lifecycle.
Qed.

Lemma put_last id locked job s u s' :
  agent_job (db s) !! id = Some locked → job_id job = job_id locked →
  job_key job = job_key locked → not_service (db s) id →
  put_job job s = (inr u, s') → moves (db s) (db s').
Proof.
  intros Hj Hid Hk Ht H. unfold put_job, mod_db in H. apply modS_inr in H as ->.
  exact (put_locked_moves (db s) id locked job Hj Hid Hk (fun sid => Ht locked sid Hj)).
Qed.

Ltac put_end :=
  match goal with H : put_job _ _ = (inr _, _) |- _ =>
    eapply put_last in H; [exact H|eassumption|done|done|eassumption] end.

Lemma global_succeed_moves job o s u s' :
  not_service (db s) (job_id job) → GlobalDenyJobLifecycle.succeed job o s = (inr u, s') →
  moves (db s) (db s').
Proof.
  intros Hns H. unfold GlobalDenyJobLifecycle.succeed, _locked_job, utc_now, get_db in H.
  lifecycle. put_end.
Qed.

Lemma global_fail_moves job e s u s' :
  not_service (db s) (job_id job) → GlobalDenyJobLifecycle.fail job e s = (inr u, s') →
  moves (db s) (db s').
Proof.
  intros Hns H. unfold GlobalDenyJobLifecycle.fail, _locked_job, utc_now, get_db in H.
  lifecycle. put_end.
Qed.

Lemma global_recover_moves job s u s' :
  not_service (db s) (job_id job) → is_Some (agent_job (db s) !! job_id job) →
  GlobalDenyJobLifecycle.recover job s = (inr u, s') → moves (db s) (db s').
Proof.
  intros Hns Hin H Hok Hf. revert Hok Hf. unfold GlobalDenyJobLifecycle.recover in H.
  apply bind_inr in H as (v & s1 & H1%global_fail_moves & H); [|done].
  intros Hok Hf. pose proof (moves_not_service _ _ _ Hok Hf H1 Hin Hns) as Hns1.
  revert Hok Hf. change (moves (db s) (db s')). etrans; [exact H1|]. clear H1.
  unfold _locked_job, get_db in H. lifecycle. put_end.
Qed.

Lemma service_claim_moves job : respects moves (ServiceJobLifecycle.claim job).
Proof.
  unfold ServiceJobLifecycle.claim, _locked_job. pose proof (mark_applying_moves sha256 (job_id job)).
  respects_auto.
Qed.
Lemma service_fail_moves job e : respects moves (ServiceJobLifecycle.fail job e).
Proof. apply mark_failed_moves. Qed.
Lemma service_recover_moves job : respects moves (ServiceJobLifecycle.recover job).
Proof.
  unfold ServiceJobLifecycle.recover. pose proof (mark_failed_moves sha256 (job_id job) ORPHAN_ERROR).
  pose proof (fun i => retry_moves sha256 i None). respects_auto.
Qed.

(** ** The lifecycle a job's type selects *)

Lemma type_not_service d id j :
  agent_job d !! id = Some j → job_type j ≠ JobType.service_update → not_service d id.
Proof.
  intros Hj Ht j' sid Hj' E. simplify_eq. unfold job_type in Ht. by rewrite E in Ht.
Qed.

Lemma lc_claim_moves job s a s' :
  agent_job (db s) !! job_id job = Some job →
  lc_claim (JOB_LIFECYCLES (job_type job)) job s = (inr a, s') → moves (db s) (db s').
Proof.
  intros Hj H. pose proof (type_not_service _ _ _ Hj) as Hns.
  destruct (job_type job); simpl in H.
  - by eapply service_claim_moves.
  - eapply feed_claim_moves; [by apply Hns|done].
  - eapply global_claim_moves; [by apply Hns|done].
Qed.

Lemma lc_fail_moves job e s u s' :
  agent_job (db s) !! job_id job = Some job →
  lc_fail (JOB_LIFECYCLES (job_type job)) job e s = (inr u, s') → moves (db s) (db s').
Proof.
  intros Hj H. pose proof (type_not_service _ _ _ Hj) as Hns.
  destruct (job_type job); simpl in H.
  - by eapply service_fail_moves.
  - eapply feed_fail_moves; [by apply Hns|done].
  - eapply global_fail_moves; [by apply Hns|done].
Qed.

Lemma lc_recover_moves job s u s' :
  agent_job (db s) !! job_id job = Some job →
  lc_recover (JOB_LIFECYCLES (job_type job)) job s = (inr u, s') → moves (db s) (db s').
Proof.
  intros Hj H. pose proof (type_not_service _ _ _ Hj) as Hns.
  destruct (job_type job); simpl in H.
  - by eapply service_recover_moves.
  - eapply feed_recover_moves; [by apply Hns|by eexists|done].
  - eapply global_recover_moves; [by apply Hns|by eexists|done].
Qed.

(** Success is a move for every job but a service's. *)
Lemma lc_succeed_moves job o s u s' :
  agent_job (db s) !! job_id job = Some job → job_type job ≠ JobType.service_update →
  lc_succeed (JOB_LIFECYCLES (job_type job)) job o s = (inr u, s') → moves (db s) (db s').
Proof.
  intros Hj Ht H. pose proof (type_not_service _ _ _ Hj Ht) as Hns.
  destruct (job_type job); simpl in H; [done|..].
  - by eapply feed_succeed_moves.
  - by eapply global_succeed_moves.
Qed.
End moves.
