(* ===== verification/FeedFetch.v ===== *)
(** * Downloading a feed ([services/feed_fetch.py])

    The request goes through [httpx], whose URL parser, stream and exceptions
    are inputs: [url_scheme] is the scheme [httpx.URL] reads ([None] for an
    invalid URL), [environ] the process environment, and a [Stream] what the
    client delivers for a request, chunk by chunk, up to the point where it
    ends or raises.  [FeedRunner] takes such a download as its parameter
    [fetch_source]. *)

From S2P Require Import Prelude PyStr Ipaddress Models Db.
Open Scope Z_scope.

(** ** [int(value)] of a header *)

(** Decimal digits with single underscores (95) between them. *)
Fixpoint digit_groups (s : pystr) : option pystr :=
  match s with
  | [] => None
  | [c] => if is_digit c then Some [c] else None
  | c :: (u :: s) as rest =>
      if negb (is_digit c) then None
      else (cons c) <$> digit_groups (if u =? 95 then s else rest)
  end.

Definition py_int (value : pystr) : option Z :=
  let s := strip value in
  let '(sign, s) := match s with
                    | c :: t => if c =? 45 then (-1, t)
                                else if c =? 43 then (1, t) else (1, s)
                    | [] => (1, [])
                    end in
  ds ← digit_groups s;
  if (INT_MAX_STR_DIGITS <? length ds)%nat then None else Some (sign * int10 ds).

(** ** What the client delivers *)

(** What cuts a stream short: the wall clock of [asyncio.timeout], a timeout or
    another error of the client, or any other exception. *)
Inductive stream_error :=
  | WallTimeout
  | ClientTimeout
  | ClientError
  | Raised (e : exn).

Record Response := mkResponse {
  rsp_is_success : bool;
  rsp_content_length : option pystr;
  rsp_chunks : list (list Z);
  rsp_cut : option stream_error
}.

Inductive Stream := NoResponse (cut : stream_error) | Responds (r : Response).

(** ** The download *)

Definition too_large : exn := FeedFetchError "Feed response exceeds the configured size limit".
Definition timed_out : exn := FeedFetchError "Feed request timed out".
Definition request_failed : exn := FeedFetchError "Feed request failed".

(** The [except] clauses of [fetch_line_list]. *)
Definition translated (cut : stream_error) : exn :=
  match cut with
  | WallTimeout | ClientTimeout => timed_out
  | ClientError | Raised (ValueError _) => request_failed
  | Raised e => e
  end.

Section fetch.
Context (url_scheme : string → option string) (environ : string → option string).
Context (stream : string → list (string * string) → Stream).
Context (feed_fetch_max_decoded_body_bytes : Z).

Definition _is_https_url (url : string) : bool := bool_decide (url_scheme url = Some "https"%string).

Definition _credential_headers (credential_env_var : option string) : exn + list (string * string) :=
  match credential_env_var with
  | None => inr []
  | Some name =>
      match environ name with
      | None => inl (FeedFetchError "Feed credential is unavailable")
      | Some credential => inr [("Authorization"%string, ("Bearer " ++ credential)%string)]
      end
  end.

Definition _content_length (r : Response) : option Z := rsp_content_length r ≫= py_int.

(** [async for chunk in response.aiter_bytes()], with the body read so far. *)
Fixpoint read_chunks (body : list Z) (chunks : list (list Z)) : exn + list Z :=
  match chunks with
  | [] => inr body
  | chunk :: chunks =>
      if feed_fetch_max_decoded_body_bytes <? Z.of_nat (length body) + Z.of_nat (length chunk)
      then inl too_large
      else read_chunks (body ++ chunk) chunks
  end.

Definition read_response (r : Response) : exn + list Z :=
  if negb (rsp_is_success r) then inl (FeedFetchError "Feed response was not successful") else
  if default false ((fun n => feed_fetch_max_decoded_body_bytes <? n) <$> _content_length r)
  then inl too_large else
  match read_chunks [] (rsp_chunks r), rsp_cut r with
  | inl e, _ => inl e
  | inr _, Some cut => inl (translated cut)
  | inr body, None => inr body
  end.

Definition fetch_line_list (source : ThreatFeedSource) : exn + list Z :=
  if negb (_is_https_url (feed_url source)) then inl (FeedFetchError "Feed source must use HTTPS") else
  match _credential_headers (feed_credential_env_var source) with
  | inl e => inl e
  | inr headers =>
      match stream (feed_url source) headers with
      | NoResponse cut => inl (translated cut)
      | Responds r => read_response r
      end
  end.

(** [FeedRunner.fetch_source]. *)
Definition fetch_source (w : World) (source : ThreatFeedSource) : exn + list Z :=
  fetch_line_list source.

(** ** What a download may deliver *)

Lemma read_chunks_inr chunks : ∀ body b,
  read_chunks body chunks = inr b ↔
  b = body ++ concat chunks ∧
  (chunks = [] ∨ Z.of_nat (length b) <= feed_fetch_max_decoded_body_bytes).
Proof.
  induction chunks as [|c chunks IH]; intros body b; simpl.
  - rewrite app_nil_r. split; [intros [= <-]; auto|by intros [-> _]].
  - case_match eqn:E.
    + apply Z.ltb_lt in E. split; [done|]. intros [-> [?|Hb]]; [done|].
      rewrite !length_app in Hb. lia.
    + apply Z.ltb_ge in E. rewrite IH, app_assoc. split.
      * intros [-> [-> | ?]]; split; auto. right. simpl. rewrite app_nil_r, length_app. lia.
      * intros [-> [?|?]]; [done|]. auto.
Qed.

Lemma read_chunks_inl chunks : ∀ body e, read_chunks body chunks = inl e → e = too_large.
Proof.
  induction chunks as [|c chunks IH]; intros body e; simpl; [done|].
  case_match; [by intros [= <-]|apply IH].
Qed.

(** A download is complete and bounded.  A body is handed on exactly when the
    source is an HTTPS URL whose credential is set, the server answered with
    success and announced no more than the limit, and the stream came to its
    end; the body is then every byte that arrived, and never longer than the
    limit.  Nothing shortened, nothing over the limit is ever parsed. *)
Theorem feed_download_complete source body :
  0 <= feed_fetch_max_decoded_body_bytes →
  fetch_line_list source = inr body ↔
  ∃ headers r, url_scheme (feed_url source) = Some "https"%string ∧
    _credential_headers (feed_credential_env_var source) = inr headers ∧
    stream (feed_url source) headers = Responds r ∧ rsp_is_success r = true ∧
    (∀ n, _content_length r = Some n → n <= feed_fetch_max_decoded_body_bytes) ∧
    rsp_cut r = None ∧ body = concat (rsp_chunks r) ∧
    Z.of_nat (length body) <= feed_fetch_max_decoded_body_bytes.
Proof.
  intros Hl. unfold fetch_line_list, _is_https_url. case_bool_decide as Hs; simpl.
  2: { split; [done|]. by intros (? & ? & ? & _). }
  destruct (_credential_headers _) as [e|headers]; [split; [done|]; by intros (? & ? & _ & ? & _)|].
  destruct (stream _ headers) as [cut|r] eqn:Es.
  { split; [done|]. intros (h & r & _ & [= <-] & Hr & _). congruence. }
  unfold read_response. split.
  - intros H. exists headers, r. destruct (rsp_is_success r) eqn:Ok; [|done]. simpl in H.
    destruct (default _ _) eqn:Ec; [done|].
    destruct (read_chunks [] (rsp_chunks r)) as [?|b] eqn:Er; [done|].
    destruct (rsp_cut r) eqn:Est; [done|]. injection H as <-.
    apply read_chunks_inr in Er as [-> Hb]. split_and!; try done.
    + intros n Hn. rewrite Hn in Ec. simpl in Ec. by apply Z.ltb_ge.
    + destruct Hb as [-> | ?]; [simpl; lia|done].
  - intros (h & r' & _ & [= <-] & Hr & Ok & Hn & Est & -> & Hb). assert (r' = r) as -> by congruence.
    rewrite Ok. simpl. replace (default _ _) with false.
    2: { destruct (_content_length r) as [n|]; [|done]. symmetry. apply Z.ltb_ge. by apply Hn. }
    rewrite (proj2 (read_chunks_inr (rsp_chunks r) [] (concat (rsp_chunks r)))) by auto.
    by rewrite Est.
Qed.

(** The failures of the module itself carry one of six fixed texts. *)
Definition fixed_errors : list exn :=
  [FeedFetchError "Feed source must use HTTPS"; FeedFetchError "Feed credential is unavailable";
   FeedFetchError "Feed response was not successful"; too_large; timed_out; request_failed].

Definition client_raises (s : Stream) (e : exn) : Prop :=
  match s with
  | NoResponse cut => cut = Raised e
  | Responds r => rsp_cut r = Some (Raised e)
  end.

(** A failed download does not leak the credential: unless the client raised an
    exception of a kind the code does not expect, the error is one of six fixed
    texts, whatever the environment holds and the server answered. *)
Theorem feed_download_errors_fixed source e :
  fetch_line_list source = inl e →
  e ∈ fixed_errors ∨
  ∃ headers, client_raises (stream (feed_url source) headers) e.
Proof.
  unfold fixed_errors. rewrite !elem_of_cons, elem_of_nil. intros H. unfold fetch_line_list in H.
  destruct (negb _); [injection H as <-; auto|].
  destruct (_credential_headers _) as [e'|headers] eqn:Ec.
  { injection H as ->. unfold _credential_headers in Ec. repeat case_match; simplify_eq. auto. }
  assert (∀ cut, translated cut ∈ fixed_errors ∨ cut = Raised (translated cut)) as Hcut.
  { unfold fixed_errors. intros [| | |[]]; simpl; auto; left; set_solver. }
  unfold fixed_errors in Hcut. setoid_rewrite elem_of_cons in Hcut.
  destruct (stream _ headers) as [cut|r] eqn:Es; [injection H as <-|].
  - destruct (Hcut cut) as [?|Hc]; [left; set_solver|]. right. exists headers. by rewrite Es.
  - unfold read_response in H. destruct (negb _); [injection H as <-; auto|].
    destruct (default _ _); [injection H as <-; auto 10|].
    destruct (read_chunks _ _) as [e'|b] eqn:Er; [apply read_chunks_inl in Er; injection H as ->; auto 10|].
    destruct (rsp_cut r) as [cut|] eqn:Est; [|done]. injection H as <-.
    destruct (Hcut cut) as [?|Hc]; [left; set_solver|]. right. exists headers. rewrite Es. simpl. by rewrite Est, <- Hc.
Qed.
End fetch.

(** ** A concrete download *)

Definition fetch_demo_source : ThreatFeedSource :=
  mkThreatFeedSource 7 "feed" "https://feeds.example/list" line_list true 3600 (Some "FEED_TOKEN"%string)
    0 None None None None None 0 0.

Definition fetch_demo_scheme (url : string) : option string := Some "https"%string.
Definition fetch_demo_environ (name : string) : option string :=
  if bool_decide (name = "FEED_TOKEN"%string) then Some "s3cret"%string else None.
Definition fetch_demo_response : Response :=
  mkResponse true (Some (py "3")) [[49; 48]; [46]; []] None.

Lemma feed_download_complete_witness :
  fetch_line_list fetch_demo_scheme fetch_demo_environ (fun _ _ => Responds fetch_demo_response) 3 fetch_demo_source = inr [49; 48; 46].
Proof.
  apply feed_download_complete; [lia|]. eexists _, fetch_demo_response.
  split; [reflexivity|]. split; [reflexivity|]. split; [reflexivity|]. split; [reflexivity|].
  split; [|by split_and!]. intros n Hn. vm_compute in Hn. injection Hn as <-. lia.
Defined.

Example download_over_limit :
  fetch_line_list fetch_demo_scheme fetch_demo_environ (fun _ _ => Responds fetch_demo_response) 2 fetch_demo_source = inl too_large ∧
  fetch_line_list fetch_demo_scheme (fun _ => None) (fun _ _ => Responds fetch_demo_response) 3 fetch_demo_source =
    inl (FeedFetchError "Feed credential is unavailable").
Proof. vm_compute. auto. Qed.

Example content_length_forms :
  py_int (py " 1_000 ") = Some 1000 ∧ py_int (py "-5") = Some (-5) ∧ py_int (py "1__0") = None ∧
  py_int (py "") = None ∧ py_int (py "12a") = None ∧ py_int (py "+7") = Some 7.
Proof. vm_compute. auto 10. Qed.
