(* ===== verification/FeedRunner.v ===== *)
(** * Feed synchronisation runs ([worker/feed_runner.py])

    Fetching happens outside any transaction; the fetched body is parsed,
    reconciled in one transaction, applied to the data plane when the desired
    revision is ahead of the active one, and the job is closed.  The network
    fetch and the helper are parameters. *)

From S2P Require Import Prelude PyStr Ipaddress Models Db Apply.
From S2P Require Import FeedParser FeedReconcile Lists FeedJobs Applier.
Open Scope Z_scope.

(** [f"{type(exc).__name__}: {exc}"]. *)
Definition exn_text (e : exn) : string :=
  match e with
  | HTTPException code detail => "HTTPException: " +:+ uuid_str (Z.to_pos code) +:+ ": " +:+ detail
  | HTTPBlocked code msg _ => "HTTPException: " +:+ uuid_str (Z.to_pos code) +:+ ": " +:+ msg
  | CidrValidationError m => "CidrValidationError: " +:+ m
  | PortRangeError m => "PortRangeError: " +:+ m
  | IllegalTransition m => "IllegalTransition: " +:+ m
  | NonMonotonicVersion m => "NonMonotonicVersion: " +:+ m
  | NotFailedError m => "NotFailedError: " +:+ m
  | IntegrityError c => "IntegrityError: " +:+ c
  | MultipleResultsFound => "MultipleResultsFound: Multiple rows were found when one or none was required"
  | GlobalDenyLimitError => "GlobalDenyLimitError: Global deny entry limit is 1048576"
  | GlobalDenyRevisionMismatch m => "GlobalDenyRevisionMismatch: " +:+ m
  | ApplyError m => "ApplyError: " +:+ m
  | StructError => "error: argument out of range"
  | NumericOverflow => "DataError: numeric field overflow"
  | DataError => "DataError: value out of range"
  | OperationalError m => "OperationalError: " +:+ m
  | NoHandlerError m => "NoHandlerError: " +:+ m
  | FeedParseError m => "FeedParseError: " +:+ m
  | FeedFetchError m => "FeedFetchError: " +:+ m
  | ValueError m => "ValueError: " +:+ m
  | KeyError k => "KeyError: '" +:+ k +:+ "'"
  | AssertionError => "AssertionError: "
  | OverflowError => "OverflowError: date value out of range"
  | RuntimeError m => "RuntimeError: " +:+ m
  | AttributeError name => "AttributeError: 'NoneType' object has no attribute '" +:+ name +:+ "'"
  | ValidationError model field =>
      "ValidationError: 1 validation error for " +:+ model +:+ ": " +:+ field
  end.

Definition _locked_deny_state : M Session (option GlobalDenyState) := get_db global_deny_state.

Definition needs_apply (state : GlobalDenyState) : bool :=
  negb (gds_desired_revision state =? gds_active_revision state) ||
  negb (bool_decide (gds_desired_digest state = gds_active_digest state)).

Definition put_deny_state (state : GlobalDenyState) : M Session unit :=
  mod_db (fun d => d <| global_deny_state := Some state |>).

(** The row still asks for exactly this snapshot. *)
Definition asks_for (snapshot : GlobalDenySnapshot) (state : GlobalDenyState) : bool :=
  (gds_desired_revision state =? gsnap_revision snapshot) &&
  bool_decide (gds_desired_digest state = Some (gsnap_digest snapshot)).

Definition _load_run_and_source (run : option uuid)
    : M World (option (FeedSyncRun * ThreatFeedSource)) :=
  match run with
  | None => mret None
  | Some rid =>
      session_scope (
        runs ← get_db feed_sync_run;
        sources ← get_db threat_feed_source;
        mret (match runs !! rid with
              | None => None
              | Some run =>
                  match sources !! run_feed_source_id run with
                  | None => None
                  | Some source => if is_deleted source then None else Some (run, source)
                  end
              end))
  end.

Definition load_source_for_fetch (job : AgentJob) : M World (option ThreatFeedSource) :=
  loaded ← _load_run_and_source (feed_sync_run_id job);
  mret (snd <$> loaded).

Definition _mark_global_apply_failed (snapshot : GlobalDenySnapshot) (error : exn) : M World unit :=
  session_scope (
    st ← _locked_deny_state;
    match st with
    | None => mret tt
    | Some state =>
        if asks_for snapshot state then
          put_deny_state (state <| gds_apply_status := ApplyStatus.failed |>
            <| gds_last_error := Some (String.substring 0 2000 (exn_text error)) |>)
        else mret tt
    end).

Definition _finish_feed (id : uuid) (outcome : FeedSyncStatus.t) (node_map_version : option Z)
    : M World unit :=
  session_scope (
    jobs ← get_db agent_job;
    match jobs !! id with
    | None => mret tt
    | Some job =>
        (match node_map_version, feed_sync_run_id job with
         | Some v, Some rid =>
             mod_db (fun d => d <| feed_sync_run :=
               alter (fun run => run <| run_node_map_version := Some v |>) rid
                 (feed_sync_run d) |>)
         | _, _ => mret tt
         end) ;;
        lc_succeed (JOB_LIFECYCLES JobType.feed_sync) job (Some outcome)
    end).

Definition _fail_feed (id : uuid) (error : exn) : M World unit :=
  session_scope (
    jobs ← get_db agent_job;
    match jobs !! id with
    | None => mret tt
    | Some job => lc_fail (JOB_LIFECYCLES JobType.feed_sync) job (exn_text error)
    end).

Definition _store_failed_parse_stats (rid : uuid) (parsed : ParseResult) : M World unit :=
  session_scope (
    mod_db (fun d => d <| feed_sync_run := alter (fun run =>
      run <| run_fetched_lines := Z.of_nat (physical_line_count parsed) |>
          <| run_valid := Z.of_nat (valid_distinct_count parsed) |>
          <| run_duplicates := Z.of_nat (duplicate_count parsed) |>
          <| run_skipped_invalid := Z.of_nat (invalid_count parsed) |>) rid (feed_sync_run d) |>)).

Definition _parse_failure_message (parsed : ParseResult) : string :=
  match invalid_line_diagnostics parsed with
  | (None, _) :: _ => "Feed response is not valid UTF-8"
  | _ => "Feed response did not contain a valid IPv4 CIDR"
  end.

Section runner.
Context (sha256 : pystr → string).
Context (xdpgw_apply : World → list Z → HelperOutcome).
Context (fetch_source : World → ThreatFeedSource → exn + list Z).

Definition _reconcile (rid : uuid) (parsed : ParseResult)
    : M World (ReconcileResult * option Z) :=
  session_scope (
    runs ← get_db feed_sync_run;
    run ← get_or_raise (runs !! rid) (RuntimeError "Feed sync run is missing");
    let run := run <| run_fetched_lines := Z.of_nat (physical_line_count parsed) |> in
    put_run run ;;
    result ← reconcile sha256 run parsed;
    if run_dry_run run || rr_noop result then mret (result, None) else
    st ← get_db global_deny_state;
    mret (result, match st with
                  | Some state =>
                      if needs_apply state then Some (gds_desired_revision state) else None
                  | None => None
                  end)).

(** The first transaction of [_converge_desired_revision]: the snapshot to apply,
    when the row still asks for the expected revision. *)
Definition load_desired_snapshot (expected : Z) : M Session (option GlobalDenySnapshot) :=
  st ← _locked_deny_state;
  match st with
  | None => mret None
  | Some state =>
      if negb (gds_desired_revision state =? expected) || negb (needs_apply state)
      then mret None
      else snapshot ← load_global_snapshot sha256 expected; mret (Some snapshot)
  end.

(** Its last transaction: the acknowledged snapshot becomes the active one, when
    the row still asks for it. *)
Definition record_acknowledged (snapshot : GlobalDenySnapshot) (result : GlobalDenyApplyResult)
    : M Session unit :=
  st ← _locked_deny_state;
  match st with
  | None => mret tt
  | Some state =>
      if asks_for snapshot state then
        put_deny_state (state
          <| gds_active_revision := gsnap_revision snapshot |>
          <| gds_active_digest := Some (gsnap_digest snapshot) |>
          <| gds_apply_status := ApplyStatus.active |>
          <| gds_last_error := None |>
          <| gds_last_node_map_version := Some (gar_node_map_version result) |>)
      else mret tt
  end.

Definition _converge_desired_revision (expected_revision : option Z)
    : M World (option GlobalDenyApplyResult) :=
  match expected_revision with
  | None => mret None
  | Some expected =>
      loaded ← session_scope (load_desired_snapshot expected);
      match loaded with
      | None => mret None
      | Some snapshot =>
          result ← try_except (apply_global xdpgw_apply snapshot)
                     (fun e => _mark_global_apply_failed snapshot e ;; raise e);
          session_scope (record_acknowledged snapshot result) ;;
          mret (Some result)
      end
  end.

(** [FeedFetchCompletion] carries the body or the error of the fetch. *)
Definition complete_feed_fetch (job : AgentJob) (fetched : exn + list Z) : M World unit :=
  try_except (
    body ← lift fetched;
    let parsed := parse_line_list body in
    if bool_decide (outcome parsed = parse_failed) then
      (match feed_sync_run_id job with
       | Some rid => _store_failed_parse_stats rid parsed
       | None => mret tt
       end) ;;
      raise (FeedParseError (_parse_failure_message parsed))
    else
      rid ← get_or_raise (feed_sync_run_id job) (RuntimeError "Feed sync job is missing its run");
      reconciled ← _reconcile rid parsed;
      apply_result ← _converge_desired_revision reconciled.2;
      _finish_feed (job_id job)
        (if bool_decide (outcome parsed = parse_partial) then FeedSyncStatus.partial
         else FeedSyncStatus.success)
        (gar_node_map_version <$> apply_result))
    (fun e => _fail_feed (job_id job) e).

Definition finish_missing_feed (job : AgentJob) : M World unit :=
  _finish_feed (job_id job) FeedSyncStatus.success None.

Definition handle_feed_sync (job : AgentJob) : M World unit :=
  try_except (
    source ← load_source_for_fetch job;
    match source with
    | None => _finish_feed (job_id job) FeedSyncStatus.success None
    | Some source =>
        fetched ← gets (fun w => fetch_source w source);
        complete_feed_fetch job fetched
    end)
    (fun e => _fail_feed (job_id job) e).

Definition handle_global_deny_apply (job : AgentJob) : M World unit :=
  _converge_desired_revision (Some (job_version job)) ;;
  mret tt.
End runner.
