(* ===== verification/Processor.v ===== *)
(** * Claiming, running and closing durable jobs ([worker/processor.py],
    [worker/handlers.py])

    A job is claimed in one transaction, its handler runs outside any
    transaction, and its outcome is recorded in another; startup recovery puts
    orphaned jobs back in the queue.  The applier is an interface; [down]
    says in which attempts of the final mark the database is unreachable. *)

From S2P Require Import Prelude PyStr Ipaddress Models Db Apply.
From S2P Require Import NodeControl FeedJobs Applier FeedRunner.
Open Scope Z_scope.

Definition TERMINAL_MARK_ATTEMPTS : nat := 3.

(** ** [claim_job] *)

Definition claim_job (id : uuid) : M World (option AgentJob) :=
  session_scope (
    jobs ← get_db agent_job;
    match jobs !! id with
    | None => mret None
    | Some job =>
        held ← (if bool_decide (job_type job = JobType.service_update)
                then maintenance_active else mret false);
        if held : bool then mret None else
        proceed ← lc_claim (JOB_LIFECYCLES (job_type job)) job;
        jobs ← get_db agent_job;
        mret (if proceed : bool then jobs !! id else None)
    end).

(** ** [_mark_terminal] *)

Definition mark_once (id : uuid) (error : option string) : M World unit :=
  session_scope (
    jobs ← get_db agent_job;
    match jobs !! id with
    | None => mret tt
    | Some job =>
        let lifecycle := JOB_LIFECYCLES (job_type job) in
        match error with
        | None => lc_succeed lifecycle job None
        | Some error => lc_fail lifecycle job error
        end
    end).

(** The [for attempt in range(TERMINAL_MARK_ATTEMPTS)] loop from [attempt] on,
    with [todo] attempts to go. *)
Fixpoint mark_attempts (down : nat → bool) (todo attempt : nat) (id : uuid)
    (error : option string) : M World unit :=
  match todo with
  | O => mret tt
  | S todo =>
      try_except
        (if down attempt then raise (OperationalError "connection lost") else mark_once id error)
        (fun e =>
           match e with
           | OperationalError _ =>
               if (attempt + 1 =? TERMINAL_MARK_ATTEMPTS)%nat then raise e
               else mark_attempts down todo (attempt + 1) id error
           | _ => raise e
           end)
  end.
Definition _mark_terminal (down : nat → bool) (id : uuid) (error : option string)
    : M World unit :=
  mark_attempts down TERMINAL_MARK_ATTEMPTS 0 id error.

(** ** Handlers *)

(** The protocol [Applier]: applying a configuration acts on the data plane
    and leaves the database and the queue alone. *)
Record Applier := mkApplier {
  applier_apply : ServiceConfig → M World unit;
  applier_db : ∀ c w, w_db (applier_apply c w).2 = w_db w
}.

Definition PlaceholderApplier : Applier :=
  mkApplier (fun _ => mret tt) (fun _ _ => eq_refl).

Lemma double_buffer_db xdpgw_apply c w :
  w_db (double_buffer_apply xdpgw_apply c w).2 = w_db w.
Proof.
  unfold double_buffer_apply, run_helper. mstep. unfold mbind, M_bind, lift.
  destruct (serialize_node_snapshot _) as [e|bs]; [done|]. unfold gets.
  destruct (xdpgw_apply w bs) as [| |[] ? ?]; done.
Qed.

Definition DoubleBufferApplier (xdpgw_apply : World → list Z → HelperOutcome) : Applier :=
  mkApplier (double_buffer_apply xdpgw_apply) (double_buffer_db xdpgw_apply).

(** [SQLAlchemyError]: re-raised by [process_job], not recorded. *)
Definition is_sqlalchemy_error (e : exn) : bool :=
  match e with
  | IntegrityError _ | MultipleResultsFound | NumericOverflow | DataError
  | OperationalError _ => true
  | _ => false
  end.

Section worker.
Context (sha256 : pystr → string).
Context (xdpgw_apply : World → list Z → HelperOutcome).
Context (fetch_source : World → ThreatFeedSource → exn + list Z).
Context (applier : Applier).

(** The configured next-hop lane is told afterwards; it keeps no state here. *)
Definition handle_service_update (job : AgentJob) : M World unit :=
  config ← session_scope (get_db (fun d =>
    match job_target job with
    | TargetService sid => load_service_config d sid
    | _ => None
    end));
  config ← get_or_raise config (RuntimeError "service missing");
  applier_apply applier config.

Definition HANDLERS (t : JobType.t) : option (AgentJob → M World unit) :=
  Some (match t with
        | JobType.service_update => handle_service_update
        | JobType.feed_sync => handle_feed_sync sha256 xdpgw_apply fetch_source
        | JobType.global_deny_apply => handle_global_deny_apply sha256 xdpgw_apply
        end).

(** The [try] block of [process_job]: [false] when the job has vanished. *)
Definition run_handler (id : uuid) : M World bool :=
  found ← session_scope (
    jobs ← get_db agent_job;
    match jobs !! id with
    | None => mret None
    | Some job =>
        handler ← get_or_raise (HANDLERS (job_type job))
                    (NoHandlerError "No handler for job type");
        mret (Some (job, handler))
    end);
  match found with
  | None => mret false
  | Some (job, handler) => handler job ;; mret true
  end.

Definition process_job (down : nat → bool) (id : uuid) : M World unit :=
  claimed ← claim_job id;
  match claimed with
  | None => mret tt
  | Some _ =>
      result ← try_except
        (present ← run_handler id; mret (if present : bool then Some None else None))
        (fun e => if is_sqlalchemy_error e then raise e else mret (Some (Some (exn_text e))));
      match result with
      | None => mret tt
      | Some error => _mark_terminal down id error
      end
  end.

(** ** [reconcile_once] *)

Definition job_le (a b : AgentJob) : Prop :=
  lex_ge (fun j => [job_created_at j; Z.pos (job_id j)]) b a.
#[global] Instance job_le_dec : RelDecision job_le.
Proof. intros a b. unfold job_le. apply _. Defined.

Definition jobs_with (p : AgentJob → bool) (d : Db) : list uuid :=
  job_id <$> merge_sort job_le (select_where p (agent_job d)).

Definition recover_orphan (job : AgentJob) : M Session unit :=
  lc_recover (JOB_LIFECYCLES (job_type job)) job.

(** [false] is the [continue]. *)
Definition recover_once (id : uuid) : M World bool :=
  session_scope (
    jobs ← get_db agent_job;
    match jobs !! id with
    | Some job =>
        if has_status JobStatus.applying job then recover_orphan job ;; mret true else mret false
    | None => mret false
    end).

Fixpoint recover_all (ids : list uuid) (processed : Z) : M World Z :=
  match ids with
  | [] => mret processed
  | id :: ids =>
      counted ← recover_once id;
      recover_all ids (if counted : bool then processed + 1 else processed)
  end.

Definition reconcile_once (down : nat → bool) (include_orphans exclude_feed_sync : bool)
    : M World Z :=
  queued_ids ← gets (fun w => jobs_with (fun j => has_status JobStatus.queued j &&
    negb (exclude_feed_sync && bool_decide (job_type j = JobType.feed_sync))) (w_db w));
  for_each (process_job down) queued_ids ;;
  let processed := Z.of_nat (length queued_ids) in
  if negb include_orphans then mret processed else
  applying_ids ← gets (fun w => jobs_with (has_status JobStatus.applying) (w_db w));
  recover_all applying_ids processed.
End worker.
