(* ===== verification/WorldInv.v ===== *)
(** * Worker computations over the world

    [wkeeps m]: whatever [m] returns or raises, the tables evolved from a
    well-formed state to a well-formed state and the acknowledged service
    snapshots are the same.  Every stage of a job but the two that apply and
    acknowledge a service snapshot has this property. *)

From S2P Require Import Prelude PyStr Ipaddress RuleMatch Models Db.
From S2P Require Import Apply ApplyInv Allocations Services Isolation Rules.
From S2P Require Import ServicesInv FeedParser FeedReconcile FeedInv Lists ListsInv.
From S2P Require Import NodeControl FeedJobs Evolution WorkerInv.
From S2P Require Import Applier FeedRunner Processor.
Open Scope Z_scope.

Section world.
Context (sha256 : pystr → string).

Definition wstep (w w' : World) : Prop :=
  moves sha256 (w_db w) (w_db w') ∧ w_applied w' = w_applied w.

#[global] Instance wstep_preorder : PreOrder wstep.
Proof.
  split; [by intros w|]. intros w1 w2 w3 [M1 E1] [M2 E2]. split; [by etrans|congruence].
Qed.

Definition wkeeps {A} (m : M World A) : Prop := ∀ w r w', m w = (r, w') → wstep w w'.

Lemma wkeeps_bind {A B} (m : M World A) (k : A → M World B) :
  wkeeps m → (∀ a, wkeeps (k a)) → wkeeps (m ≫= k).
Proof.
  intros Hm Hk w r w' H. unfold mbind, M_bind in H.
  destruct (m w) as [[e|a] w1] eqn:E.
  - injection H as <- <-. by eapply Hm.
  - etrans; [by eapply Hm|by eapply Hk].
Qed.

Lemma wkeeps_ret {A} (a : A) : wkeeps (mret a).
Proof. by intros w r w' [= <- <-]. Qed.
Lemma wkeeps_raise {A} e : wkeeps (@raise World A e).
Proof. by intros w r w' [= <- <-]. Qed.
Lemma wkeeps_gets {A} (f : World → A) : wkeeps (gets f).
Proof. by intros w r w' [= <- <-]. Qed.
Lemma wkeeps_lift {A} (x : exn + A) : wkeeps (lift x).
Proof. by intros w r w' [= <- <-]. Qed.
Lemma wkeeps_get_or_raise {A} (o : option A) e : wkeeps (get_or_raise o e).
Proof. by destruct o; intros w r w' [= <- <-]. Qed.

Lemma wkeeps_try {A} (m : M World A) h :
  wkeeps m → (∀ e, wkeeps (h e)) → wkeeps (try_except m h).
Proof.
  intros Hm Hh w r w' H. unfold try_except in H.
  destruct (m w) as [[e|a] w1] eqn:E.
  - etrans; [by eapply Hm|by eapply Hh].
  - injection H as <- <-. by eapply Hm.
Qed.

(** What commit and rollback add to a transaction body. *)
Lemma dispatched_moves d job : moves sha256 d (mark_dispatched d job).
Proof.
  intros Hok Hf. split; [by apply stable_dispatched|]. apply side_evolves; [done|].
  split; try done; [|by apply stable_dispatched].
  intros i _. rewrite mark_dispatched_lookup. destruct (agent_job d !! i); [|done].
  simpl. by case_bool_decide.
Qed.

Lemma rollback_moves d d' : moves sha256 d (rollback d d').
Proof.
  intros Hok Hf. split; [by apply stable_rollback|]. apply side_evolves; [done|].
  split; try done; [simpl; lia|by apply stable_rollback].
Qed.

Lemma callbacks_wstep cbs w : wstep w (run_post_commit_callbacks cbs w).
Proof.
  revert w. induction cbs as [|c cbs IH]; intros w; [done|].
  change (run_post_commit_callbacks (c :: cbs) w) with
    (run_post_commit_callbacks cbs (dispatch w (callback_job c))).
  etrans; [|apply IH]. unfold dispatch. destruct (w_redis_up w); [|done].
  split; [apply dispatched_moves|done].
Qed.

Lemma scope_wkeeps {A} (m : M Session A) :
  respects (moves sha256) m → wkeeps (session_scope m).
Proof.
  intros Hm w r w' H. unfold session_scope in H.
  destruct (m (new_session (w_db w))) as [[e|a] s] eqn:E; injection H as <- <-.
  - split; [apply rollback_moves|done].
  - etrans; [|apply callbacks_wstep]. split; [|done]. by apply Hm in E.
Qed.

(** Reading the session first: the rest may depend on what was read. *)
Lemma respects_read {A B} (f : Db → B) (k : B → M Session A) :
  (∀ s a s', sys_ok sha256 (db s) → k (f (db s)) s = (inr a, s') → moves sha256 (db s) (db s')) →
  respects (moves sha256) (get_db f ≫= k).
Proof.
  intros Hk s a s' H Hok. unfold get_db in H. rewrite run_gets in H. by eapply Hk.
Qed.

Lemma sys_job_id d i j : sys_ok sha256 d → agent_job d !! i = Some j → job_id j = i.
Proof. intros Hok Hj. exact (li_job_id _ _ (proj1 (proj1 (proj1 Hok))) _ _ Hj). Qed.

Lemma claim_job_wkeeps id : wkeeps (claim_job id).
Proof.
  apply scope_wkeeps, respects_read. intros s a s' Hok H.
  destruct (agent_job (db s) !! id) as [job|] eqn:Hj; [|by minv].
  pose proof (sys_job_id _ _ _ Hok Hj) as Hid.
  apply bind_inr in H as (held & s1 & H1 & H).
  assert (moves sha256 (db s) (db s1) ∧ agent_job (db s1) = agent_job (db s)) as [Hm Ej].
  { case_bool_decide; [|by minv]. split; [by eapply maintenance_active_moves|].
    unfold maintenance_active in H1. minv.
    match goal with H : get_node_control _ = _ |- _ => rewrite get_node_control_run in H end.
    by simplify_eq. }
  etrans; [exact Hm|]. destruct held; [by minv|].
  apply bind_inr in H as (p & s2 & H2 & H). apply lc_claim_moves with (sha256 := sha256) in H2.
  - etrans; [exact H2|]. unfold get_db in H. by minv.
  - by rewrite Ej, Hid.
Qed.

Lemma recover_once_wkeeps id : wkeeps (recover_once id).
Proof.
  apply scope_wkeeps, respects_read. intros s a s' Hok H.
  destruct (agent_job (db s) !! id) as [job|] eqn:Hj; [|by minv].
  pose proof (sys_job_id _ _ _ Hok Hj) as Hid. destruct (has_status _ _); [|by minv]. minv.
  by eapply lc_recover_moves.
Qed.

Lemma mark_fail_wkeeps id error : wkeeps (mark_once id (Some error)).
Proof.
  apply scope_wkeeps, respects_read. intros s a s' Hok H.
  destruct (agent_job (db s) !! id) as [job|] eqn:Hj; [|by minv].
  pose proof (sys_job_id _ _ _ Hok Hj) as Hid.
  eapply lc_fail_moves; [by rewrite Hid|exact H].
Qed.

(** ** Feed runs and the global deny set *)

Lemma unseen_runs d runs : moves sha256 d (d <| feed_sync_run := runs |>).
Proof. by apply moves_unseen. Qed.

Lemma put_run_fetched run s u s' :
  put_run run s = (inr u, s') → moves sha256 (db s) (db s').
Proof. intros H. by eapply put_run_moves. Qed.

(** Recording the outcome of an apply leaves what is desired alone. *)
Lemma put_state_moves d state st :
  global_deny_state d = Some st → gds_desired_digest state = gds_desired_digest st →
  moves sha256 d (d <| global_deny_state := Some state |>).
Proof.
  intros Hst Hd [Hgw (Hbl & Hfb & Hdig)] Hf. split; [split|by apply side_evolves].
  - eapply gw_ok_deny; [exact Hgw|apply deny_frame_state].
  - split_and!; [by destruct Hbl; split|done|].
    intros st' [= <-]. simpl. rewrite Hd. by apply Hdig.
Qed.

Lemma mark_global_failed_wkeeps snap e : wkeeps (_mark_global_apply_failed snap e).
Proof.
  apply scope_wkeeps. unfold _locked_deny_state. apply respects_read. intros s a s' Hok H.
  destruct (global_deny_state (db s)) as [st|] eqn:Est; [|by minv].
  destruct (asks_for snap st); [|by minv]. unfold put_deny_state, mod_db in H. minv.
  by eapply put_state_moves.
Qed.

Lemma load_run_wkeeps run : wkeeps (_load_run_and_source run).
Proof.
  destruct run; [|apply wkeeps_ret]. apply scope_wkeeps. respects_auto.
Qed.

Lemma store_stats_wkeeps rid parsed : wkeeps (_store_failed_parse_stats rid parsed).
Proof. apply scope_wkeeps, respects_mod_db. intros d. apply unseen_runs. Qed.

Lemma reconcile_wkeeps rid data : wkeeps (_reconcile sha256 rid (parse_line_list data)).
Proof.
  apply scope_wkeeps. pose proof put_run_moves sha256 as Hput.
  pose proof (fun run => reconcile_moves sha256 run _ (parse_wf data)) as Hrec.
  respects_auto.
Qed.

Lemma apply_global_wkeeps helper snap : wkeeps (apply_global helper snap).
Proof.
  unfold apply_global, apply_error. apply wkeeps_bind; [apply wkeeps_lift|]. intros bs.
  apply wkeeps_bind; [apply wkeeps_gets|]. intros o.
  destruct o as [| |[] ? ?]; try apply wkeeps_raise.
  apply wkeeps_bind; [by intros w r w' [= <- <-]|]. intros _. apply wkeeps_lift.
Qed.

Lemma load_snapshot_moves expected : respects (moves sha256) (load_global_snapshot sha256 expected).
Proof. unfold load_global_snapshot, _locked_global_state. respects_auto. Qed.

Lemma converge_wkeeps helper expected : wkeeps (_converge_desired_revision sha256 helper expected).
Proof.
  destruct expected as [expected|]; [|apply wkeeps_ret]. unfold _converge_desired_revision.
  apply wkeeps_bind.
  { apply scope_wkeeps. unfold load_desired_snapshot, _locked_deny_state.
    pose proof load_snapshot_moves. respects_auto. }
  intros [snap|]; [|apply wkeeps_ret]. apply wkeeps_bind.
  { apply wkeeps_try; [apply apply_global_wkeeps|]. intros e.
    apply wkeeps_bind; [apply mark_global_failed_wkeeps|intros _; apply wkeeps_raise]. }
  intros result. apply wkeeps_bind; [|intros _; apply wkeeps_ret].
  apply scope_wkeeps. unfold _locked_deny_state. apply respects_read. intros s a s' Hok H.
  destruct (global_deny_state (db s)) as [st|] eqn:Est; [|by minv].
  destruct (asks_for snap st); [|by minv]. unfold put_deny_state, mod_db in H. minv.
  by eapply put_state_moves.
Qed.

(** *** Computations on behalf of one job that belongs to no service *)

Definition feed_job (d : Db) (id : uuid) : Prop := (id < uuid_supply d)%positive ∧ not_service d id.

Lemma moves_feed_job d d' id :
  sys_ok sha256 d → fresh_ok d → moves sha256 d d' → feed_job d id → feed_job d' id.
Proof.
  intros Hok Hf Hm [Hlt Hns]. destruct (Hm Hok Hf) as [_ He]. split.
  - pose proof (ev_supply _ _ He). lia.
  - intros j' sid Hj' Ht. destruct (ev_job _ _ He id j' Hj' Hlt) as (j & Hj & E & _).
    eapply Hns; [exact Hj|]. by rewrite E.
Qed.

Definition jkeeps {A} (id : uuid) (m : M World A) : Prop :=
  ∀ w r w', m w = (r, w') → sys_ok sha256 (w_db w) → fresh_ok (w_db w) →
            feed_job (w_db w) id → wstep w w'.

Lemma wkeeps_jkeeps {A} id (m : M World A) : wkeeps m → jkeeps id m.
Proof. intros Hm w r w' H _ _ _. by eapply Hm. Qed.

Lemma jstep_next w w1 id :
  sys_ok sha256 (w_db w) → fresh_ok (w_db w) → feed_job (w_db w) id → wstep w w1 →
  sys_ok sha256 (w_db w1) ∧ fresh_ok (w_db w1) ∧ feed_job (w_db w1) id.
Proof.
  intros Hok Hf Hj [Hm _]. destruct (Hm Hok Hf) as [Hok1 He].
  split_and!; [done|by eapply ev_fresh|exact (moves_feed_job _ _ _ Hok Hf Hm Hj)].
Qed.

Lemma jkeeps_bind {A B} id (m : M World A) (k : A → M World B) :
  jkeeps id m → (∀ a, jkeeps id (k a)) → jkeeps id (m ≫= k).
Proof.
  intros Hm Hk w r w' H Hok Hf Hj. unfold mbind, M_bind in H.
  destruct (m w) as [[e|a] w1] eqn:E.
  - injection H as <- <-. by eapply Hm.
  - pose proof (Hm _ _ _ E Hok Hf Hj) as H1. etrans; [exact H1|].
    destruct (jstep_next _ _ _ Hok Hf Hj H1) as (? & ? & ?). by eapply Hk.
Qed.

Lemma jkeeps_try {A} id (m : M World A) h :
  jkeeps id m → (∀ e, jkeeps id (h e)) → jkeeps id (try_except m h).
Proof.
  intros Hm Hh w r w' H Hok Hf Hj. unfold try_except in H.
  destruct (m w) as [[e|a] w1] eqn:E.
  - pose proof (Hm _ _ _ E Hok Hf Hj) as H1. etrans; [exact H1|].
    destruct (jstep_next _ _ _ Hok Hf Hj H1) as (? & ? & ?). by eapply Hh.
  - injection H as <- <-. by eapply Hm.
Qed.

Lemma scope_jkeeps {A} id (m : M Session A) :
  (∀ s a s', sys_ok sha256 (db s) → feed_job (db s) id → m s = (inr a, s') →
     moves sha256 (db s) (db s')) → jkeeps id (session_scope m).
Proof.
  intros Hm w r w' H Hok _ Hj. unfold session_scope in H.
  destruct (m (new_session (w_db w))) as [[e|a] s] eqn:E; injection H as <- <-.
  - split; [apply rollback_moves|done].
  - etrans; [|apply callbacks_wstep]. split; [exact (Hm (new_session (w_db w)) a s Hok Hj E)|done].
Qed.

Lemma finish_feed_jkeeps id o v : jkeeps id (_finish_feed id o v).
Proof.
  apply scope_jkeeps. intros s a s' Hok [_ Hns] H. unfold get_db in H. rewrite run_gets in H.
  destruct (agent_job (db s) !! id) as [job|] eqn:Hj; [|by minv].
  pose proof (sys_job_id _ _ _ Hok Hj) as Hid.
  apply bind_inr in H as (u & s1 & H1 & H).
  assert (moves sha256 (db s) (db s1) ∧ agent_job (db s1) = agent_job (db s)) as [Hm Ej].
  { destruct v, (feed_sync_run_id job); unfold mod_db in H1; minv; try done.
    split; [apply unseen_runs|done]. }
  etrans; [exact Hm|]. eapply feed_succeed_moves; [|exact H].
  unfold not_service in *. by rewrite Ej, Hid.
Qed.

Lemma fail_feed_jkeeps id e : jkeeps id (_fail_feed id e).
Proof.
  apply scope_jkeeps. intros s a s' Hok [_ Hns] H. unfold get_db in H. rewrite run_gets in H.
  destruct (agent_job (db s) !! id) as [job|] eqn:Hj; [|by minv].
  pose proof (sys_job_id _ _ _ Hok Hj) as Hid.
  eapply feed_fail_moves; [|exact H]. by rewrite Hid.
Qed.

Lemma complete_fetch_jkeeps helper job fetched :
  jkeeps (job_id job) (complete_feed_fetch sha256 helper job fetched).
Proof.
  apply jkeeps_try; [|intros e; apply fail_feed_jkeeps].
  apply jkeeps_bind; [apply wkeeps_jkeeps, wkeeps_lift|]. intros body. cbv zeta.
  case_bool_decide.
  - apply wkeeps_jkeeps, wkeeps_bind; [|intros _; apply wkeeps_raise].
    destruct (feed_sync_run_id job); [apply store_stats_wkeeps|apply wkeeps_ret].
  - apply jkeeps_bind; [apply wkeeps_jkeeps, wkeeps_get_or_raise|]. intros rid.
    apply jkeeps_bind; [apply wkeeps_jkeeps, reconcile_wkeeps|]. intros rec.
    apply jkeeps_bind; [apply wkeeps_jkeeps, converge_wkeeps|]. intros res.
    apply finish_feed_jkeeps.
Qed.

Lemma handle_feed_jkeeps helper fetch job :
  jkeeps (job_id job) (handle_feed_sync sha256 helper fetch job).
Proof.
  apply jkeeps_try; [|intros e; apply fail_feed_jkeeps]. apply jkeeps_bind.
  { apply wkeeps_jkeeps. unfold load_source_for_fetch.
    apply wkeeps_bind; [apply load_run_wkeeps|intros x; apply wkeeps_ret]. }
  intros [source|]; [|apply finish_feed_jkeeps].
  apply jkeeps_bind; [apply wkeeps_jkeeps, wkeeps_gets|]. intros f. apply complete_fetch_jkeeps.
Qed.

Lemma handle_global_wkeeps helper job : wkeeps (handle_global_deny_apply sha256 helper job).
Proof. apply wkeeps_bind; [apply converge_wkeeps|intros _; apply wkeeps_ret]. Qed.
End world.
