(* ===== verification/Api.v ===== *)
(** * The HTTP surface ([core/deps.py], [api/routers])

    A request runs in one session: the caller is resolved from the session
    cookie, the route's guards and payload checks run, and the service
    function is called; the session commits or rolls back as a whole.  The
    routes that change the protected services, their rules and lists, the
    allocations, the global blacklist, the feed sources and the node switches
    are modelled. *)

From S2P Require Import Prelude PyStr Ipaddress RuleMatch Models Db.
From S2P Require Import Apply Allocations PyNum Services Rules Lists.
From S2P Require Import FeedReconcile NodeControl FeedJobs Feeds.
Open Scope Z_scope.

(** ** [core/sessions.py]: what the session store hands out *)

Record SessionData := mkSessionData {
  sess_sid : string;
  sess_user_id : uuid;
  sess_session_version : Z;
  sess_created_at : timestamp;
  sess_absolute_expiry : timestamp;
  sess_last_seen : timestamp;
  sess_ip : option string
}.

(** ** [core/deps.py] *)
Module Deps.

Record Principal := mkPrincipal {
  p_user_id : uuid;
  p_username : string;
  p_role : Role;
  p_tenant_id : option uuid;
  p_session_id : string
}.

Definition like (p : Principal) : PrincipalLike := mkPrincipalLike (p_role p) (p_tenant_id p).

Definition raise_unauthenticated : exn := HTTPException 401 "Not authenticated".

Definition tenant_is_active (d : Db) (t : option uuid) : bool :=
  match t ≫= fun t => tenants d !! t with
  | Some tenant => bool_decide (tenant_status tenant = tenant_active)
  | None => false
  end.

(** [session] is what [sessions.get(sid)] returned. *)
Definition resolve_current_user (session : option SessionData) : M Session Principal :=
  session ← get_or_raise session raise_unauthenticated;
  users ← get_db users;
  user ← get_or_raise (users !! sess_user_id session) raise_unauthenticated;
  require (bool_decide (user_status user = user_active)) raise_unauthenticated ;;
  require (user_session_version user =? sess_session_version session) raise_unauthenticated ;;
  d ← get_db id;
  require (negb (bool_decide (user_role user = tenant_user)) ||
           tenant_is_active d (user_tenant_id user)) raise_unauthenticated ;;
  mret (mkPrincipal (user_id user) (user_username user) (user_role user) (user_tenant_id user)
          (sess_sid session)).

Definition require_admin (principal : Principal) : exn + Principal :=
  if bool_decide (p_role principal = admin) then inr principal else inl forbidden.

Definition authorize_tenant_resource (principal : Principal) (resource_tenant_id : option uuid)
    : exn + unit :=
  if bool_decide (p_role principal = admin) then inr tt else
  match p_tenant_id principal, resource_tenant_id with
  | Some t, Some r => if bool_decide (t = r) then inr tt else inl forbidden
  | _, _ => inl forbidden
  end.

(** A caller without access is told that the service does not exist. *)
Definition load_service_for_principal (service_id : uuid) (principal : Principal)
    : M Session ProtectedService :=
  services ← get_db protected_service;
  service ← get_or_raise (services !! service_id) service_not_found;
  match authorize_tenant_resource principal (Some (svc_tenant_id service)) with
  | inl (HTTPException code detail) =>
      if code =? 403 then raise service_not_found else raise (HTTPException code detail)
  | inl e => raise e
  | inr _ => mret service
  end.

(** [db.get(User, principal.user_id)], the routers' [_load_actor]. *)
Definition _load_actor (principal : Principal) : M Session (option User) :=
  get_db (fun d => users d !! p_user_id principal).

End Deps.
Import Deps.

Definition get_admin_principal (principal : Principal) : M Session Principal :=
  lift (require_admin principal).

(** [_validate_cidr] of the services and the allocations router. *)
Definition _validate_cidr (value : pystr) : exn + ipv4net :=
  match Cidr.parse_ipv4_cidr value with
  | inl e => inl (HTTPException 422 (Cidr.cidr_error_msg e))
  | inr cidr =>
      match Cidr.reject_reserved cidr with
      | inl e => inl (HTTPException 422 (Cidr.cidr_error_msg e))
      | inr _ => inr cidr
      end
  end.

Record ApplyMutationResponse := mkApplyMutationResponse {
  amr_apply_status : ApplyStatus.t;
  amr_version : Z;
  amr_active_version : option Z
}.

Definition _apply_mutation_response (service : ProtectedService) : ApplyMutationResponse :=
  mkApplyMutationResponse (svc_apply_status service) (svc_version service)
    (svc_active_version service).

(** [Field(default=None, ge=0)]; a payload that fails its schema is a 422. *)
Definition ge0 (o : option Z) : bool := match o with Some n => 0 <=? n | None => true end.
Definition invalid_payload : exn := HTTPException 422 "Input should be greater than or equal to 0".

(** ** [api/schemas] *)

Record ServicePlanCreateRequest := mkServicePlanCreateRequest {
  spc_committed_clean_gbps : Decimal;
  spc_ceiling_clean_gbps : Decimal
}.

Record ServiceCreateRequest := mkServiceCreateRequest {
  scr_tenant_id : option uuid;
  scr_name : string;
  scr_cidr_or_ip : pystr;
  scr_mode : ServiceMode;
  scr_vip_pps : option Z;
  scr_vip_bps : option Z;
  scr_service_pps : option Z;
  scr_service_bps : option Z;
  scr_plan : option ServicePlanCreateRequest
}.

Record ServicePatchRequest := mkServicePatchRequest {
  sp_name : option string;
  sp_cidr_or_ip : option pystr;
  sp_mode : option ServiceMode;
  sp_vip_pps : option Z;
  sp_vip_bps : option Z;
  sp_service_pps : option Z;
  sp_service_bps : option Z
}.

Record RuleCreateRequest := mkRuleCreateRequest {
  rc_priority : Z;
  rc_protocol : Protocol.t;
  rc_src_port_lo : option Z;
  rc_src_port_hi : option Z;
  rc_dst_port_lo : option Z;
  rc_dst_port_hi : option Z;
  rc_enabled : bool
}.

Record RulePatchRequest := mkRulePatchRequest {
  rp_priority : option Z;
  rp_protocol : option Protocol.t;
  rp_src_port_lo : option Z;
  rp_src_port_hi : option Z;
  rp_dst_port_lo : option Z;
  rp_dst_port_hi : option Z;
  rp_enabled : option bool
}.

(** ** [api/routers/services.py] *)
Module ServicesRouter.

Definition _tenant_for_create (tenant_id_ : option uuid) (principal : Principal) : exn + uuid :=
  if bool_decide (p_role principal = admin) then
    match tenant_id_ with
    | None => inl (HTTPException 422 "tenant_id is required")
    | Some t => inr t
    end
  else
    match p_tenant_id principal with
    | None => inl forbidden
    | Some own =>
        match tenant_id_ with
        | Some t => if bool_decide (t = own) then inr own else inl forbidden
        | None => inr own
        end
    end.

Definition create_service (payload : ServiceCreateRequest) (principal : Principal)
    : M Session ApplyMutationResponse :=
  require (ge0 (scr_service_pps payload) && ge0 (scr_service_bps payload)) invalid_payload ;;
  actor ← _load_actor principal;
  tenant ← lift (_tenant_for_create (scr_tenant_id payload) principal);
  cidr ← lift (_validate_cidr (scr_cidr_or_ip payload));
  record ← create_service tenant (scr_name payload) cidr actor (scr_mode payload)
    (scr_vip_pps payload) (scr_vip_bps payload) (scr_service_pps payload)
    (scr_service_bps payload) (spc_committed_clean_gbps <$> scr_plan payload)
    (spc_ceiling_clean_gbps <$> scr_plan payload) DEFAULT_BILLING_METRIC None;
  mret (_apply_mutation_response (sr_service record)).

Definition update_service (service_id : uuid) (payload : ServicePatchRequest)
    (principal : Principal) : M Session ApplyMutationResponse :=
  require (ge0 (sp_service_pps payload) && ge0 (sp_service_bps payload)) invalid_payload ;;
  service ← load_service_for_principal service_id principal;
  actor ← _load_actor principal;
  cidr ← (match sp_cidr_or_ip payload with
          | Some text => cidr ← lift (_validate_cidr text); mret (Some cidr)
          | None => mret None
          end);
  record ← update_service (svc_id service) actor (sp_name payload) cidr (sp_mode payload)
    (sp_vip_pps payload) (sp_vip_bps payload) (sp_service_pps payload)
    (sp_service_bps payload) None;
  mret (_apply_mutation_response (sr_service record)).

Definition delete_service (service_id : uuid) (principal : Principal) : M Session unit :=
  service ← load_service_for_principal service_id principal;
  actor ← _load_actor principal;
  delete_service (svc_id service) actor None.

Definition enable_service (service_id : uuid) (principal : Principal)
    : M Session ApplyMutationResponse :=
  service ← load_service_for_principal service_id principal;
  actor ← _load_actor principal;
  updated ← set_enabled (svc_id service) true actor None;
  mret (_apply_mutation_response updated).

Definition disable_service (service_id : uuid) (confirm : bool) (principal : Principal)
    : M Session ApplyMutationResponse :=
  require confirm (HTTPException 422 "Confirmation required") ;;
  service ← load_service_for_principal service_id principal;
  actor ← _load_actor principal;
  updated ← set_enabled (svc_id service) false actor None;
  mret (_apply_mutation_response updated).

(** [capacity] and [ncpus] are the configured node capacity and the CPU count
    that only enter the warnings. *)
Definition update_service_plan (capacity : Decimal) (ncpus : Z) (service_id : uuid)
    (committed_clean_gbps ceiling_clean_gbps : Decimal) (principal : Principal)
    : M Session ApplyMutationResponse :=
  principal ← get_admin_principal principal;
  actor ← _load_actor principal;
  result ← size_plan capacity ncpus service_id actor committed_clean_gbps ceiling_clean_gbps None;
  mret (_apply_mutation_response (psr_service result)).

End ServicesRouter.

(** ** [api/routers/rules.py] *)
Module RulesRouter.

Definition create_rule (service_id : uuid) (payload : RuleCreateRequest) (principal : Principal)
    : M Session ApplyMutationResponse :=
  service ← load_service_for_principal service_id principal;
  actor ← _load_actor principal;
  result ← create_rule (svc_id service) actor (rc_priority payload) (rc_protocol payload)
    (rc_src_port_lo payload) (rc_src_port_hi payload) (rc_dst_port_lo payload)
    (rc_dst_port_hi payload) (rc_enabled payload) None;
  mret (_apply_mutation_response (rmr_service result)).

Definition update_rule (service_id rule_id_ : uuid) (payload : RulePatchRequest)
    (principal : Principal) : M Session ApplyMutationResponse :=
  service ← load_service_for_principal service_id principal;
  actor ← _load_actor principal;
  result ← update_rule (svc_id service) rule_id_ actor (rp_priority payload)
    (rp_protocol payload) (rp_src_port_lo payload) (rp_src_port_hi payload)
    (rp_dst_port_lo payload) (rp_dst_port_hi payload) (rp_enabled payload) None;
  mret (_apply_mutation_response (rmr_service result)).

Definition delete_rule (service_id rule_id_ : uuid) (principal : Principal)
    : M Session ApplyMutationResponse :=
  service ← load_service_for_principal service_id principal;
  actor ← _load_actor principal;
  updated ← delete_rule (svc_id service) rule_id_ actor None;
  mret (_apply_mutation_response updated).

Definition overlap_check (service_id : uuid) (protocol : Protocol.t)
    (src_port_lo src_port_hi dst_port_lo dst_port_hi : option Z) (principal : Principal)
    : M Session (list string) :=
  service ← load_service_for_principal service_id principal;
  actor ← _load_actor principal;
  overlap_dry_run (svc_id service) actor protocol src_port_lo src_port_hi dst_port_lo dst_port_hi.

End RulesRouter.

(** ** [api/routers/lists.py] *)
Module ListsRouter.

(** The loaded [service] object is the one the call updates. *)
Definition add_whitelist (service_id : uuid) (source_cidr : pystr) (principal : Principal)
    : M Session ApplyMutationResponse :=
  service ← load_service_for_principal service_id principal;
  actor ← _load_actor principal;
  add_whitelist (svc_id service) source_cidr actor None ;;
  service ← refreshed (svc_id service);
  mret (_apply_mutation_response service).

Definition remove_whitelist (service_id : uuid) (source_cidr : pystr) (principal : Principal)
    : M Session ApplyMutationResponse :=
  service ← load_service_for_principal service_id principal;
  actor ← _load_actor principal;
  updated ← remove_whitelist (svc_id service) source_cidr actor None;
  mret (_apply_mutation_response updated).

End ListsRouter.

(** ** [api/routers/allocations.py] *)
Module AllocationsRouter.

Definition create_allocation (tenant_id_ : uuid) (cidr : pystr) (principal : Principal)
    : M Session AllocatedCIDR :=
  principal ← get_admin_principal principal;
  actor ← _load_actor principal;
  cidr ← lift (_validate_cidr cidr);
  allocate tenant_id_ cidr actor None.

Definition revoke_allocation (allocation_id : uuid) (principal : Principal)
    : M Session AllocatedCIDR :=
  principal ← get_admin_principal principal;
  actor ← _load_actor principal;
  revoke allocation_id actor None.

Definition _require_tenant_scope (principal : Principal) : exn + uuid :=
  match p_tenant_id principal with Some t => inr t | None => inl forbidden end.

Definition list_my_allocations (principal : Principal) : M Session (list AllocatedCIDR) :=
  tenant_id_ ← lift (_require_tenant_scope principal);
  rows ← get_db (fun d => list_for_tenant d tenant_id_);
  mret (filter (fun a => alloc_status a = cidr_active) (fst <$> rows)).

Definition get_my_allocation (allocation_id : uuid) (principal : Principal)
    : M Session AllocatedCIDR :=
  tenant_id_ ← lift (_require_tenant_scope principal);
  allocs ← get_db allocated_cidr;
  let missing := HTTPException 404 "Allocation not found" in
  allocation ← get_or_raise (allocs !! allocation_id) missing;
  require (bool_decide (alloc_tenant_id allocation = tenant_id_) &&
           bool_decide (alloc_status allocation = cidr_active)) missing ;;
  mret allocation.

End AllocationsRouter.

(** ** [api/routers/apply_status.py] *)
Module ApplyStatusRouter.

Definition get_apply_status (service_id : uuid) (principal : Principal)
    : M Session ApplyStatusRecord :=
  service ← load_service_for_principal service_id principal;
  get_db (fun d => get_apply_status d service).

(** The row [retry] locks is the object the route has loaded. *)
Definition retry_apply_status (service_id : uuid) (principal : Principal)
    : M Session ApplyMutationResponse :=
  service ← load_service_for_principal service_id principal;
  actor ← _load_actor principal;
  try_except (retry (svc_id service) actor) (fun e =>
    match e with
    | NotFailedError _ => raise (HTTPException 409 "Apply status is not failed")
    | e => raise e
    end) ;;
  service ← refreshed (svc_id service);
  mret (_apply_mutation_response service).

Definition list_jobs (status_filter : option JobStatus.t) (principal : Principal)
    : M Session (list AgentJob) :=
  lift (require_admin principal) ;;
  get_db (fun d => list_jobs d status_filter).

End ApplyStatusRouter.

(** ** [api/routers/feeds.py], [api/schemas/feeds.py] *)

Record FeedSourceCreateRequest := mkFeedSourceCreateRequest {
  fc_name : string;
  fc_url : string;
  fc_sync_interval_seconds : Z;
  fc_format : FeedFormat;
  fc_enabled : bool;
  fc_credential_env_var : option string
}.

(** [None] is a field that was not given, [Some None] one given as null. *)
Record FeedSourceUpdateRequest := mkFeedSourceUpdateRequest {
  fu_name : option (option string);
  fu_url : option (option string);
  fu_sync_interval_seconds : option (option Z);
  fu_format : option (option FeedFormat);
  fu_enabled : option (option bool);
  fu_credential_env_var : option (option string)
}.

Module FeedsRouter.

Definition str_val (o : option string) : pyval :=
  match o with Some s => PyStr s | None => PyNone end.
Definition format_val (f : FeedFormat) : pyval := match f with line_list => PyStr "line_list" end.

(** The attributes of the request object. *)
Definition create_fields (r : FeedSourceCreateRequest) : payload_map :=
  {["name"%string := PyStr (fc_name r); "url"%string := PyStr (fc_url r);
    "sync_interval_seconds"%string := PyInt (fc_sync_interval_seconds r);
    "format"%string := format_val (fc_format r); "enabled"%string := PyBool (fc_enabled r);
    "credential_env_var"%string := str_val (fc_credential_env_var r)]}.

(** The fields of [model_fields_set]. *)
Definition set_field {A} (name : string) (val : A → pyval) (o : option (option A))
    (m : payload_map) : payload_map :=
  match o with
  | None => m
  | Some None => <[name := PyNone]> m
  | Some (Some a) => <[name := val a]> m
  end.
Definition update_fields (r : FeedSourceUpdateRequest) : payload_map :=
  set_field "name" PyStr (fu_name r) (
  set_field "url" PyStr (fu_url r) (
  set_field "sync_interval_seconds" PyInt (fu_sync_interval_seconds r) (
  set_field "format" format_val (fu_format r) (
  set_field "enabled" PyBool (fu_enabled r) (
  set_field "credential_env_var" PyStr (fu_credential_env_var r) ∅))))).

Definition _active_source (source_id : uuid) : M Session ThreatFeedSource :=
  sources ← get_db threat_feed_source;
  source ← get_or_raise (sources !! source_id) feed_not_found;
  require (negb (is_deleted source)) feed_not_found ;;
  mret source.

Definition _job_for_run (rid : uuid) : M Session AgentJob :=
  jobs ← get_db agent_job;
  job ← one_or_none (select_where (fun j => bool_decide (feed_sync_run_id j = Some rid)) jobs);
  get_or_raise job (HTTPException 500 "Feed sync job is missing").

Definition create_feed (payload : FeedSourceCreateRequest) (principal : Principal)
    : M Session FeedSourceRecord :=
  principal ← get_admin_principal principal;
  actor ← _load_actor principal;
  source ← create_source (create_fields payload) actor;
  mret (source_record source).

Definition list_feeds (principal : Principal) : M Session (list FeedSourceRecord) :=
  get_admin_principal principal ;;
  sources ← get_db (fun d => order_by_asc (fun s => [feed_created_at s; Z.pos (feed_id s)])
    (select_where (fun s => negb (is_deleted s)) (threat_feed_source d)));
  mret (source_record <$> sources).

Definition get_feed (source_id : uuid) (principal : Principal) : M Session FeedSourceRecord :=
  get_admin_principal principal ;;
  source ← _active_source source_id;
  mret (source_record source).

Definition update_feed (source_id : uuid) (payload : FeedSourceUpdateRequest)
    (principal : Principal) : M Session FeedSourceRecord :=
  principal ← get_admin_principal principal;
  source ← _active_source source_id;
  actor ← _load_actor principal;
  updated ← update_source (feed_id source) (update_fields payload) actor;
  mret (source_record updated).

Definition delete_feed (sha256 : pystr → string) (source_id : uuid) (principal : Principal)
    : M Session unit :=
  principal ← get_admin_principal principal;
  source ← _active_source source_id;
  actor ← _load_actor principal;
  delete_source sha256 (feed_id source) actor ;;
  mret tt.

Definition enqueue_sync (source_id : uuid) (dry_run : bool) (principal : Principal)
    : M Session (FeedSyncRun * AgentJob) :=
  principal ← get_admin_principal principal;
  source ← _active_source source_id;
  _load_actor principal ;;
  run ← enqueue_sync (feed_id source)
    (if dry_run then ChangeTrigger.feed_dry_run else ChangeTrigger.feed_manual) dry_run;
  job ← _job_for_run (run_id run);
  mret (run, job).

Definition list_syncs (source_id : uuid) (principal : Principal) : M Session (list FeedSyncRun) :=
  get_admin_principal principal ;;
  _active_source source_id ;;
  get_db (fun d => order_by_desc (fun r => [run_sequence r; Z.pos (run_id r)])
    (select_where (fun r => bool_decide (run_feed_source_id r = source_id)) (feed_sync_run d))).

End FeedsRouter.

(** ** Requests *)

Inductive request :=
  | CreateService (payload : ServiceCreateRequest)
  | UpdateService (service_id : uuid) (payload : ServicePatchRequest)
  | DeleteService (service_id : uuid)
  | EnableService (service_id : uuid)
  | DisableService (service_id : uuid) (confirm : bool)
  | UpdateServicePlan (service_id : uuid) (committed ceiling : Decimal)
  | CreateRule (service_id : uuid) (payload : RuleCreateRequest)
  | UpdateRule (service_id rule_id_ : uuid) (payload : RulePatchRequest)
  | DeleteRule (service_id rule_id_ : uuid)
  | AddWhitelist (service_id : uuid) (source_cidr : pystr)
  | RemoveWhitelist (service_id : uuid) (source_cidr : pystr)
  | AddGlobalBlacklist (source_cidr : pystr)
  | RemoveGlobalBlacklist (source_cidr : pystr)
  | CreateAllocation (tenant_id_ : uuid) (cidr : pystr)
  | RevokeAllocation (allocation_id : uuid)
  | RetryApplyStatus (service_id : uuid)
  | SetNodeBypass (enabled : bool) (reason ip : option string)
  | SetNodeMaintenance (enabled : bool) (ip : option string)
  | CreateFeed (payload : FeedSourceCreateRequest)
  | UpdateFeed (source_id : uuid) (payload : FeedSourceUpdateRequest)
  | DeleteFeed (source_id : uuid)
  | SyncFeed (source_id : uuid) (dry_run : bool).

Section routes.
Context (sha256 : pystr → string) (capacity : Decimal) (ncpus : Z).

(** [api/routers/global_blacklist.py]. *)
Definition add_global_blacklist (source_cidr : pystr) (principal : Principal)
    : M Session BlacklistEntry :=
  principal ← get_admin_principal principal;
  actor ← _load_actor principal;
  add_blacklist sha256 source_cidr actor None.

Definition remove_global_blacklist (source_cidr : pystr) (principal : Principal)
    : M Session unit :=
  principal ← get_admin_principal principal;
  actor ← _load_actor principal;
  remove_blacklist sha256 source_cidr actor None.

(** [api/routers/telemetry.py]: the two switches. *)
Definition set_node_bypass (enabled : bool) (reason ip : option string) (principal : Principal)
    : M Session NodeControl :=
  lift (require_admin principal) ;;
  actor ← _load_actor principal;
  set_bypass actor enabled reason ip.

Definition set_node_maintenance (enabled : bool) (ip : option string) (principal : Principal)
    : M Session NodeControl :=
  lift (require_admin principal) ;;
  actor ← _load_actor principal;
  set_maintenance actor enabled ip.

Definition route (r : request) (p : Principal) : M Session unit :=
  match r with
  | CreateService payload => ServicesRouter.create_service payload p ;; mret tt
  | UpdateService sid payload => ServicesRouter.update_service sid payload p ;; mret tt
  | DeleteService sid => ServicesRouter.delete_service sid p
  | EnableService sid => ServicesRouter.enable_service sid p ;; mret tt
  | DisableService sid confirm => ServicesRouter.disable_service sid confirm p ;; mret tt
  | UpdateServicePlan sid com ceil =>
      ServicesRouter.update_service_plan capacity ncpus sid com ceil p ;; mret tt
  | CreateRule sid payload => RulesRouter.create_rule sid payload p ;; mret tt
  | UpdateRule sid rid payload => RulesRouter.update_rule sid rid payload p ;; mret tt
  | DeleteRule sid rid => RulesRouter.delete_rule sid rid p ;; mret tt
  | AddWhitelist sid src => ListsRouter.add_whitelist sid src p ;; mret tt
  | RemoveWhitelist sid src => ListsRouter.remove_whitelist sid src p ;; mret tt
  | AddGlobalBlacklist src => add_global_blacklist src p ;; mret tt
  | RemoveGlobalBlacklist src => remove_global_blacklist src p
  | CreateAllocation t c => AllocationsRouter.create_allocation t c p ;; mret tt
  | RevokeAllocation id => AllocationsRouter.revoke_allocation id p ;; mret tt
  | RetryApplyStatus sid => ApplyStatusRouter.retry_apply_status sid p ;; mret tt
  | SetNodeBypass en reason ip => set_node_bypass en reason ip p ;; mret tt
  | SetNodeMaintenance en ip => set_node_maintenance en ip p ;; mret tt
  | CreateFeed payload => FeedsRouter.create_feed payload p ;; mret tt
  | UpdateFeed id payload => FeedsRouter.update_feed id payload p ;; mret tt
  | DeleteFeed id => FeedsRouter.delete_feed sha256 id p
  | SyncFeed id dry_run => FeedsRouter.enqueue_sync id dry_run p ;; mret tt
  end.

(** The dependency [get_db] opens the session that the whole request uses. *)
Definition serve (session : option SessionData) (r : request) : M World unit :=
  session_scope (p ← resolve_current_user session; route r p).
End routes.
