(* ===== verification/ApiInv.v ===== *)
(** * Feed administration and requests as moves

    Requests move the tables the way the operations they call do. *)

From S2P Require Import Prelude PyStr Ipaddress RuleMatch Models Db Apply ApplyInv.
From S2P Require Import Allocations Services Isolation Rules ServicesInv FeedParser.
From S2P Require Import FeedReconcile FeedInv Lists ListsInv NodeControl FeedJobs Feeds.
From S2P Require Import Applier Evolution WorkerInv FeedRunner Processor WorldInv Api.
Import Deps.
Open Scope Z_scope.

(** ** Feed administration as moves

    The operations of [services/feeds.py] and the scheduler keep the gateway's
    invariants and touch no service. *)

Section moves.
Context (sha256 : pystr → string).
Abbreviation moves := (moves sha256).

#[local] Hint Resolve put_run_moves put_source_moves record_event_moves : gateway.

Lemma uuid4_moves : respects moves uuid4.
Proof. intros s u s' H. apply gside_moves; [by eapply uuid4_gside|by apply uuid4_inr in H as [_ ->]]. Qed.
#[local] Hint Resolve uuid4_moves : gateway.

Lemma register_feed_moves id : respects moves (_register_feed_dispatch id).
Proof. unfold _register_feed_dispatch. respects_auto. reflexivity. Qed.
#[local] Hint Resolve register_feed_moves : gateway.

(** A job under a drawn identifier, and what follows. *)
Lemma new_feed_job_moves {A} (job : uuid → AgentJob) (k : uuid → M Session A) :
  (∀ id, job_id (job id) = id) → (∀ id sid, job_target (job id) ≠ TargetService sid) →
  (∀ id, respects moves (k id)) →
  respects moves (id ← uuid4; insert_feed_job (job id) ;; k id).
Proof.
  intros Hid Ht Hk s a s' H. unfold insert_feed_job, check_pkey, put_job, get_db in H. minv.
  match goal with H : uuid4 _ = _ |- _ => apply uuid4_inr in H as [-> ->] end.
  match goal with H : bool_decide (_ !! _ = None) = true |- _ => apply bool_decide_eq_true in H as Hn end.
  unfold mod_db in *. minv. etrans; [|by eapply Hk].
  rewrite Hid in Hn. apply gside_moves; [by apply new_job_gside; [apply Hid|..]|done].
Qed.

Lemma enqueue_locked_moves source trigger dry : respects moves (_enqueue_locked source trigger dry).
Proof.
  unfold _enqueue_locked, utc_now, insert_run, check_pkey.
  repeat first [ apply (new_feed_job_moves (fun id => new_job id _ _ _ _)); [done..|intros id]
               | respects_step ].
Qed.
#[local] Hint Resolve enqueue_locked_moves : gateway.

Lemma enqueue_sync_moves id trigger dry : respects moves (enqueue_sync id trigger dry).
Proof. unfold enqueue_sync, _source_for_update. respects_auto. Qed.

Lemma name_conflict_raises {A} e s (a : A) s' : on_name_conflict e s ≠ (inr a, s').
Proof. unfold on_name_conflict. by destruct (_is_name_conflict e). Qed.

Lemma flush_source_moves source : respects moves (flush_source source).
Proof. unfold flush_source. respects_auto. Qed.
#[local] Hint Resolve flush_source_moves : gateway.

Lemma create_source_moves payload actor : respects moves (create_source payload actor).
Proof.
  unfold create_source, _ensure_name_available, utc_now, feed_event, check_pkey. respects_auto.
  apply respects_try; [respects_auto|intros; apply name_conflict_raises].
Qed.

Lemma given_moves {A} payload field (validate : pyval → exn + A) :
  respects moves (given payload field validate).
Proof. unfold given. respects_auto. Qed.
#[local] Hint Resolve given_moves : gateway.

Lemma update_source_moves id payload actor : respects moves (update_source id payload actor).
Proof.
  unfold update_source, _active_source_for_update, _source_for_update, _ensure_name_available,
    utc_now, feed_event. respects_auto.
  all: apply respects_try; [respects_auto|intros; apply name_conflict_raises].
Qed.

(** The job of a run changes its trigger. *)
Lemma retrigger_moves {A} rid trigger (k : M Session A) :
  respects moves k →
  respects moves (job ← _job_for_run_for_update rid;
    match job with
    | Some job => put_job (job <| job_trigger := trigger |>)
    | None => mret tt
    end ;; k).
Proof.
  intros Hk s a s' H. unfold _job_for_run_for_update, get_db in H. minv.
  match goal with H : one_or_none _ _ = _ |- _ => apply one_or_none_inr in H as (-> & -> & _) end.
  etrans; [|by eapply Hk]. destruct (head _) as [j|] eqn:Eh; minv; [|done].
  apply head_Some_elem_of, elem_of_select in Eh as [Hr%bool_decide_eq_true [i Hi]].
  assert (∀ sid, job_target j ≠ TargetService sid) as Ht.
  { intros sid E. unfold feed_sync_run_id in Hr. by rewrite E in Hr. }
  unfold put_job, mod_db in *. minv.
  exact (put_locked_moves sha256 (db s) i j (j <| job_trigger := trigger |>) Hi eq_refl eq_refl Ht).
Qed.

Lemma delete_source_moves id actor : respects moves (delete_source sha256 id actor).
Proof.
  unfold delete_source, _active_source_for_update, _source_for_update, utc_now, feed_event.
  repeat first [ apply retrigger_moves | respects_step ].
  apply reconcile_moves. apply parse_wf.
Qed.

Lemma enqueue_all_moves sources : respects moves (enqueue_all sources).
Proof.
  induction sources; cbn [enqueue_all]; respects_auto. apply enqueue_sync_moves.
Qed.
End moves.

Lemma validate_cidr_wf text c : _validate_cidr text = inr c → net_wf c.
Proof.
  unfold _validate_cidr. intros H. destruct (Cidr.parse_ipv4_cidr text) as [e|n] eqn:E; [done|].
  apply CidrSpec.parse_ipv4_cidr_wf in E. destruct (Cidr.reject_reserved n); [done|].
  by injection H as <-.
Qed.

Section routes.
Context (sha256 : pystr → string) (capacity : Decimal) (ncpus : Z).
Abbreviation moves := (moves sha256).

(** A value computed without effects, whose success says something. *)
Lemma respects_lift_then {A B} (R : Db → Db → Prop) (x : exn + A) (k : A → M Session B) :
  (∀ a, x = inr a → respects R (k a)) → respects R (lift x ≫= k).
Proof.
  intros Hk s b s' H. destruct x as [e|a]; [by unfold lift in H|]. exact (Hk a eq_refl s b s' H).
Qed.

Lemma load_service_moves sid p : respects moves (load_service_for_principal sid p).
Proof. unfold load_service_for_principal. respects_auto. Qed.
Lemma load_actor_moves p : respects moves (_load_actor p).
Proof. unfold _load_actor. respects_auto. Qed.
Lemma admin_moves p : respects moves (get_admin_principal p).
Proof. unfold get_admin_principal. respects_auto. Qed.
Lemma refreshed_moves sid : respects moves (refreshed sid).
Proof. unfold refreshed, _require_service. respects_auto. Qed.
Hint Resolve load_service_moves load_actor_moves admin_moves refreshed_moves : gateway.

Hint Resolve set_enabled_moves size_plan_moves delete_service_moves create_rule_moves
  update_rule_moves delete_rule_moves add_whitelist_moves remove_whitelist_moves
  revoke_moves add_blacklist_moves remove_blacklist_moves retry_moves
  set_bypass_moves set_maintenance_moves create_source_moves update_source_moves
  delete_source_moves enqueue_sync_moves : gateway.

Lemma create_route_moves payload p : respects moves (ServicesRouter.create_service payload p).
Proof.
  unfold ServicesRouter.create_service. do 3 (respects_step; [respects_auto|]).
  apply respects_lift_then. intros c Hc%validate_cidr_wf.
  apply respects_bind; [apply _|by apply create_service_moves|intros r; respects_auto].
Qed.

Lemma update_route_moves sid payload p :
  respects moves (ServicesRouter.update_service sid payload p).
Proof.
  unfold ServicesRouter.update_service. respects_step; [respects_auto|].
  respects_step; [respects_auto|]. respects_step; [respects_auto|].
  intros s r s' H. apply bind_inr in H as (cidr & s1 & Hc & H).
  assert (s1 = s ∧ ∀ c, cidr = Some c → net_wf c) as [-> Hwf].
  { destruct (sp_cidr_or_ip payload) as [text|]; minv; [|done]. split; [done|].
    intros c [= <-]. by eapply validate_cidr_wf. }
  apply bind_inr in H as (rec & s2 & H2 & H). minv.
  by eapply update_service_moves.
Qed.

Lemma allocate_route_moves t c p : respects moves (AllocationsRouter.create_allocation t c p).
Proof.
  unfold AllocationsRouter.create_allocation. respects_step; [respects_auto|].
  respects_step; [respects_auto|]. apply respects_lift_then. intros n Hn%validate_cidr_wf.
  by apply allocate_moves.
Qed.

Lemma retry_route_moves sid p : respects moves (ApplyStatusRouter.retry_apply_status sid p).
Proof.
  unfold ApplyStatusRouter.retry_apply_status. respects_auto.
  apply respects_try; [apply retry_moves|]. intros e s r s' H. by destruct e.
Qed.
Hint Resolve create_route_moves update_route_moves allocate_route_moves retry_route_moves : gateway.

Ltac route_auto :=
  respects_auto;
  first [ unfold ServicesRouter.delete_service, ServicesRouter.enable_service,
            ServicesRouter.disable_service, ServicesRouter.update_service_plan,
            RulesRouter.create_rule, RulesRouter.update_rule, RulesRouter.delete_rule,
            ListsRouter.add_whitelist, ListsRouter.remove_whitelist,
            AllocationsRouter.revoke_allocation, add_global_blacklist, remove_global_blacklist,
            set_node_bypass, set_node_maintenance, FeedsRouter.create_feed, FeedsRouter.update_feed,
            FeedsRouter.delete_feed, FeedsRouter.enqueue_sync, FeedsRouter._active_source,
            FeedsRouter._job_for_run ];
  respects_auto.

Lemma route_moves r p : respects moves (route sha256 capacity ncpus r p).
Proof. destruct r; cbn [route]; route_auto. Qed.

(** Who may act: an active user of the current session version, and of an
    active tenant when not an administrator. *)
Lemma resolve_inr session s p s' :
  resolve_current_user session s = (inr p, s') →
  s' = s ∧ ∃ sd u, session = Some sd ∧ users (db s) !! sess_user_id sd = Some u ∧
    user_status u = user_active ∧ user_session_version u = sess_session_version sd ∧
    p = mkPrincipal (user_id u) (user_username u) (user_role u) (user_tenant_id u) (sess_sid sd) ∧
    (user_role u = tenant_user → tenant_is_active (db s) (user_tenant_id u) = true).
Proof.
  intros H. unfold resolve_current_user, get_db in H. minv. split; [done|].
  eexists _, _. split_and!; try done.
  - by eapply bool_decide_eq_true.
  - by apply Z.eqb_eq.
  - intros Hr. match goal with H : _ || _ = true |- _ => rewrite Hr in H; exact H end.
Qed.

Lemma resolve_moves session : respects moves (resolve_current_user session).
Proof. unfold resolve_current_user. respects_auto. Qed.

Lemma serve_wkeeps session r : wkeeps sha256 (serve sha256 capacity ncpus session r).
Proof.
  apply scope_wkeeps. apply respects_bind; [apply _|apply resolve_moves|].
  intros p. apply route_moves.
Qed.
End routes.
