(* ===== verification/FeedLedger.v ===== *)
(** * The ledger of synchronization runs

    Every run has its source, its number and exactly one job, whose status
    goes with the run's; a source has at most one job in flight.  The invariant
    is kept by every operation of the gateway, whatever its outcome. *)

From S2P Require Import Prelude PyStr Ipaddress RuleMatch Models Db.
From S2P Require Import Apply ApplyInv Allocations PyNum Services Isolation Rules.
From S2P Require Import ServicesInv FeedParser FeedReconcile FeedInv Lists ListsInv.
From S2P Require Import NodeControl FeedJobs Feeds.
Open Scope Z_scope.

(** ** The invariant *)

Definition coupled (js : JobStatus.t) (rs : FeedSyncStatus.t) : bool :=
  match js, rs with
  | JobStatus.queued, FeedSyncStatus.queued
  | JobStatus.applying, FeedSyncStatus.running
  | JobStatus.succeeded, FeedSyncStatus.success
  | JobStatus.succeeded, FeedSyncStatus.partial
  | JobStatus.failed, FeedSyncStatus.failed => true
  | _, _ => false
  end.

Record feed_ok (d : Db) : Prop := {
  fo_job_id : ∀ i j, agent_job d !! i = Some j → job_id j = i;
  fo_source_id : ∀ i s, threat_feed_source d !! i = Some s → feed_id s = i;
  fo_run_id : ∀ i r, feed_sync_run d !! i = Some r → run_id r = i;
  fo_run : ∀ i r, feed_sync_run d !! i = Some r →
    ∃ s, threat_feed_source d !! run_feed_source_id r = Some s ∧
      run_sequence r <= feed_sync_sequence s ∧
      (run_trigger r = ChangeTrigger.feed_delete → is_deleted s = true ∧ run_dry_run r = false);
  fo_sequence : ∀ i r i' r', feed_sync_run d !! i = Some r → feed_sync_run d !! i' = Some r' →
    run_feed_source_id r = run_feed_source_id r' → run_sequence r = run_sequence r' → i = i';
  fo_job : ∀ i j rid, agent_job d !! i = Some j → feed_sync_run_id j = Some rid →
    ∃ r, feed_sync_run d !! rid = Some r ∧ job_version j = run_sequence r ∧
      coupled (job_status j) (run_status r) = true;
  fo_has_job : ∀ rid r, feed_sync_run d !! rid = Some r →
    ∃ i j, agent_job d !! i = Some j ∧ feed_sync_run_id j = Some rid;
  fo_one_job : ∀ i j i' j' rid, agent_job d !! i = Some j → agent_job d !! i' = Some j' →
    feed_sync_run_id j = Some rid → feed_sync_run_id j' = Some rid → i = i';
  fo_inflight : ∀ i j r rid i' j' r' rid', agent_job d !! i = Some j → agent_job d !! i' = Some j' →
    in_flight j = true → in_flight j' = true →
    feed_sync_run_id j = Some rid → feed_sync_run_id j' = Some rid' →
    feed_sync_run d !! rid = Some r → feed_sync_run d !! rid' = Some r' →
    run_feed_source_id r = run_feed_source_id r' → i = i'
}.

(** What the invariant looks at. *)
Definition job_view (j : AgentJob) : uuid * option uuid * Z * JobStatus.t :=
  (job_id j, feed_sync_run_id j, job_version j, job_status j).
Definition run_view (r : FeedSyncRun) : uuid * uuid * Z * FeedSyncStatus.t :=
  (run_id r, run_feed_source_id r, run_sequence r, run_status r).

Definition feed_moves (d d' : Db) : Prop := feed_ok d → feed_ok d'.

#[global] Instance feed_moves_preorder : PreOrder feed_moves.
Proof. split; [by intros d H|]. intros d1 d2 d3 H1 H2 H. auto. Qed.

(** A source may gain runs and be deleted, and keeps its identifier. *)
Definition source_grows (S S' : gmap uuid ThreatFeedSource) : Prop :=
  ∀ i s, S !! i = Some s → ∃ s', S' !! i = Some s' ∧ feed_id s' = feed_id s ∧
    feed_sync_sequence s <= feed_sync_sequence s' ∧ (is_deleted s = true → is_deleted s' = true).

(** Jobs that are not of feeds come and go; the others and the runs look the same. *)
Lemma feed_moves_view d d' :
  (∀ i j, agent_job d' !! i = Some j → job_id j = i) →
  (∀ i s, threat_feed_source d' !! i = Some s → feed_id s = i) →
  source_grows (threat_feed_source d) (threat_feed_source d') →
  (∀ i j', agent_job d' !! i = Some j' → is_Some (feed_sync_run_id j') →
     ∃ j, agent_job d !! i = Some j ∧ job_view j = job_view j') →
  (∀ i j, agent_job d !! i = Some j → is_Some (feed_sync_run_id j) →
     ∃ j', agent_job d' !! i = Some j' ∧ job_view j = job_view j') →
  (∀ i, run_view <$> feed_sync_run d' !! i = run_view <$> feed_sync_run d !! i) →
  (feed_ok d → ∀ i r' s, feed_sync_run d' !! i = Some r' → run_trigger r' = ChangeTrigger.feed_delete →
     threat_feed_source d' !! run_feed_source_id r' = Some s → is_deleted s = true ∧ run_dry_run r' = false) →
  feed_moves d d'.
Proof.
  intros Hid Hsid Hsrc Hj Hj' Hr Htr H.
  assert (∀ i r', feed_sync_run d' !! i = Some r' →
    ∃ r, feed_sync_run d !! i = Some r ∧ run_view r = run_view r') as Hback.
  { intros i r' Hr'. specialize (Hr i). rewrite Hr' in Hr. simpl in Hr. symmetry in Hr.
    apply fmap_Some in Hr as (r & ? & ?). eauto. }
  assert (∀ i r, feed_sync_run d !! i = Some r →
    ∃ r', feed_sync_run d' !! i = Some r' ∧ run_view r = run_view r') as Hfwd.
  { intros i r Hr'. specialize (Hr i). rewrite Hr' in Hr. simpl in Hr. 
    apply fmap_Some in Hr as (r' & ? & ?). eauto. }
  unfold job_view, run_view in *. split; [done|done|..].
  - intros i r' (r & Hx & [= E1 _ _ _])%Hback. rewrite <- E1. by eapply fo_run_id.
  - intros i r' Hx'. destruct (Hback _ _ Hx') as (r & Hx & [= E1 E2 E3 E4]).
    destruct (fo_run _ H _ _ Hx) as (s & Hs & Hseq & _). destruct (Hsrc _ _ Hs) as (s' & Hs' & _ & Hle & _).
    rewrite E2 in Hs'. exists s'. split_and!; [done|lia|]. intros Ht. by eapply (Htr H).
  - intros i r i' r' (x & Hx & [= _ E2 E3 _])%Hback (x' & Hx' & [= _ E2' E3' _])%Hback Es Eq.
    eapply (fo_sequence _ H); [exact Hx|exact Hx'|congruence..].
  - intros i j' rid Hj1 Ht. destruct (Hj _ _ Hj1) as (j & Hj0 & [= E1 E2 E3 E4]); [by eexists|].
    destruct (fo_job _ H i j rid Hj0) as (r & Hx & Hv & Hc); [congruence|].
    destruct (Hfwd _ _ Hx) as (r' & Hx' & [= _ _ E5 E6]). exists r'. split_and!; [done|congruence|congruence].
  - intros rid r' (r & Hx & _)%Hback. destruct (fo_has_job _ H _ _ Hx) as (i & j & Hj0 & Ht).
    destruct (Hj' _ _ Hj0) as (j' & Hj1 & [= _ E2 _ _]); [by eexists|]. exists i, j'. split; [done|congruence].
  - intros i j i' j' rid Hx Hx' Ht Ht'. destruct (Hj _ _ Hx) as (y & Hy & [= _ E _ _]); [by eexists|].
    destruct (Hj _ _ Hx') as (y' & Hy' & [= _ E' _ _]); [by eexists|].
    apply (fo_one_job _ H i y i' y' rid); [exact Hy|exact Hy'|congruence..].
  - intros i j r rid i' j' r' rid' Hx Hx' Hf Hf' Ht Ht' Hr1 Hr2 Es.
    destruct (Hj _ _ Hx) as (y & Hy & [= _ E _ Est]); [by eexists|].
    destruct (Hj _ _ Hx') as (y' & Hy' & [= _ E' _ Est']); [by eexists|].
    destruct (Hback _ _ Hr1) as (x & Hrx & [= _ E2 _ _]), (Hback _ _ Hr2) as (x' & Hrx' & [= _ E2' _ _]).
    unfold in_flight in *. rewrite <- Est in Hf. rewrite <- Est' in Hf'.
    eapply (fo_inflight _ H i y x rid i' y' x' rid'); try done; congruence.
Qed.

(** ** The two steps of the ledger *)

(** A job and its run change their status together. *)
Lemma feed_moves_status d d' i j j' rid r r' :
  agent_job d !! i = Some j → feed_sync_run_id j = Some rid → feed_sync_run d !! rid = Some r →
  agent_job d' = <[i := j']> (agent_job d) → feed_sync_run d' = <[rid := r']> (feed_sync_run d) →
  source_grows (threat_feed_source d) (threat_feed_source d') →
  (∀ k s, threat_feed_source d' !! k = Some s → feed_id s = k) →
  job_id j' = job_id j → feed_sync_run_id j' = Some rid → job_version j' = job_version j →
  run_id r' = run_id r → run_feed_source_id r' = run_feed_source_id r →
  run_sequence r' = run_sequence r → run_trigger r' = run_trigger r → run_dry_run r' = run_dry_run r →
  coupled (job_status j') (run_status r') = true →
  (in_flight j' = true → in_flight j = true) → feed_moves d d'.
Proof.
  intros Hj Ht Hr Ej Er Hsrc Hsid J1 J2 J3 R1 R2 R3 R4 R5 Hc Hfl H.
  assert (∀ k x, feed_sync_run d' !! k = Some x → ∃ y, feed_sync_run d !! k = Some y ∧
    run_id x = run_id y ∧ run_feed_source_id x = run_feed_source_id y ∧
    run_sequence x = run_sequence y ∧ run_trigger x = run_trigger y ∧ run_dry_run x = run_dry_run y ∧
    (k ≠ rid → x = y)) as Hrun.
  { rewrite Er. intros k x [[<- <-]|[Hne Hx]]%lookup_insert_Some; [exists r|exists x]; by split_and!. }
  assert (∀ k x, agent_job d' !! k = Some x → ∃ y, agent_job d !! k = Some y ∧
    job_id x = job_id y ∧ feed_sync_run_id x = feed_sync_run_id y ∧ job_version x = job_version y ∧
    (in_flight x = true → in_flight y = true) ∧ (k ≠ i → x = y)) as Hjob.
  { rewrite Ej. intros k x [[<- <-]|[Hne Hx]]%lookup_insert_Some; [exists j|exists x]; split_and!; try done.
    congruence. }
  split; [|done|..].
  - intros k x (y & Hy & -> & _)%Hjob. by eapply fo_job_id.
  - intros k x (y & Hy & -> & _)%Hrun. by eapply fo_run_id.
  - intros k x (y & Hy & _ & -> & -> & -> & -> & _)%Hrun.
    destruct (fo_run _ H _ _ Hy) as (s & Hs & Hseq & Hd).
    destruct (Hsrc _ _ Hs) as (s' & Hs' & _ & Hle & Hdel). exists s'. split_and!; [done|lia|].
    intros E. destruct (Hd E). auto.
  - intros k x k' x' (y & Hy & _ & -> & -> & _)%Hrun (y' & Hy' & _ & -> & -> & _)%Hrun.
    by apply (fo_sequence _ H).
  - intros k x q Hx Hq. rewrite Ej in Hx. apply lookup_insert_Some in Hx as [[<- <-]|[Hne Hx]].
    + rewrite J2 in Hq. injection Hq as <-. exists r'. rewrite Er, lookup_insert_eq, J3, R3.
      destruct (fo_job _ H i j rid Hj Ht) as (r0 & Hr0 & Hv & _). split_and!; [done|congruence|done].
    + destruct (fo_job _ H k x q Hx Hq) as (y & Hy & Hv & Hcy).
      assert (q ≠ rid) as Hqr by (intros ->; apply Hne; by eapply (fo_one_job _ H)).
      exists y. by rewrite Er, lookup_insert_ne.
  - intros q x (y & Hy & _)%Hrun. destruct (fo_has_job _ H _ _ Hy) as (k & z & Hz & Hq).
    destruct (decide (k = i)) as [->|Hne].
    + exists i, j'. rewrite Ej, lookup_insert_eq. split; [done|]. congruence.
    + exists k, z. by rewrite Ej, lookup_insert_ne.
  - intros k x k' x' q (y & Hy & _ & -> & _)%Hjob (y' & Hy' & _ & -> & _)%Hjob. by apply (fo_one_job _ H).
  - intros k x rx q k' x' rx' q' (y & Hy & _ & -> & _ & Hf & _)%Hjob (y' & Hy' & _ & -> & _ & Hf' & _)%Hjob
      Hfx Hfx' Hq Hq' (z & Hz & _ & -> & _)%Hrun (z' & Hz' & _ & -> & _)%Hrun Es.
    eapply (fo_inflight _ H k y z q k' y' z' q'); auto.
Qed.

(** A source without a run in flight. *)
Definition at_rest (d : Db) (sid : uuid) : Prop :=
  ∀ i j rid r, agent_job d !! i = Some j → in_flight j = true → feed_sync_run_id j = Some rid →
    feed_sync_run d !! rid = Some r → run_feed_source_id r ≠ sid.

Lemma elem_of_inflight d j r :
  (j, r) ∈ inflight_feed_jobs d ↔ ∃ i rid, agent_job d !! i = Some j ∧ in_flight j = true ∧
    feed_sync_run_id j = Some rid ∧ feed_sync_run d !! rid = Some r.
Proof.
  unfold inflight_feed_jobs, order_by_asc. rewrite list_elem_of_omap. split.
  - intros (x & Hx & E). rewrite merge_sort_Permutation, elem_of_select in Hx. destruct Hx as [Hf [i Hi]].
    apply fmap_Some in E as (y & Hy & [= -> ->]). apply bind_Some in Hy as (rid & Ht & Hr). eauto 10.
  - intros (i & rid & Hi & Hf & Ht & Hr). exists j. split.
    + rewrite merge_sort_Permutation, elem_of_select. eauto.
    + rewrite Ht. simpl. by rewrite Hr.
Qed.

Lemma inflight_none d sid : _inflight_run d sid = None → at_rest d sid.
Proof.
  unfold _inflight_run. intros H i j rid r Hj Hf Ht Hr E.
  assert (r ∈ filter (fun r => run_feed_source_id r = sid) (snd <$> inflight_feed_jobs d)) as Hin.
  { apply list_elem_of_filter. split; [done|]. apply list_elem_of_fmap. exists (j, r). split; [done|].
    apply elem_of_inflight. eauto 10. }
  apply head_None in H. rewrite H in Hin. by apply not_elem_of_nil in Hin.
Qed.

Lemma inflight_some d sid r :
  _inflight_run d sid = Some r → run_feed_source_id r = sid ∧ ∃ i j rid, agent_job d !! i = Some j ∧
    in_flight j = true ∧ feed_sync_run_id j = Some rid ∧ feed_sync_run d !! rid = Some r.
Proof.
  intros Hin%head_Some_elem_of. apply list_elem_of_filter in Hin as [Hs Hin].
  apply list_elem_of_fmap in Hin as ([j r'] & -> & (i & rid & ?)%elem_of_inflight). eauto 10.
Qed.

(** A new run with its job, for a source at rest. *)
Lemma feed_moves_new d d' sid source source' rid run jid job :
  threat_feed_source d !! sid = Some source → at_rest d sid →
  threat_feed_source d' = <[sid := source']> (threat_feed_source d) →
  feed_id source' = sid → is_deleted source' = is_deleted source →
  feed_sync_sequence source' = feed_sync_sequence source + 1 →
  feed_sync_run d' = <[rid := run]> (feed_sync_run d) → feed_sync_run d !! rid = None →
  run_id run = rid → run_feed_source_id run = sid → run_sequence run = feed_sync_sequence source' →
  run_status run = FeedSyncStatus.queued →
  (run_trigger run = ChangeTrigger.feed_delete → is_deleted source = true ∧ run_dry_run run = false) →
  agent_job d' = <[jid := job]> (agent_job d) → agent_job d !! jid = None →
  job_id job = jid → feed_sync_run_id job = Some rid → job_version job = run_sequence run →
  job_status job = JobStatus.queued → feed_moves d d'.
Proof.
  intros Hs Hrest Es S1 S2 S3 Er Hrn R1 R2 R3 R4 R5 Ej Hjn J1 J2 J3 J4 H.
  assert (∀ k j q, agent_job d !! k = Some j → feed_sync_run_id j = Some q → q ≠ rid) as Hold.
  { intros k j q Hk Hq ->. destruct (fo_job _ H _ _ _ Hk Hq) as (r & Hr & _). congruence. }
  assert (∀ k r, feed_sync_run d !! k = Some r → run_feed_source_id r = sid →
    run_sequence r < run_sequence run) as Hseq.
  { intros k r Hr E. destruct (fo_run _ H _ _ Hr) as (x & Hx & Hle & _). rewrite E in Hx. simplify_eq. lia. }
  split; rewrite ?Es, ?Er, ?Ej.
  - intros i j [[<- <-]|[_ Hx]]%lookup_insert_Some; [done|by eapply fo_job_id].
  - intros i x [[<- <-]|[_ Hx]]%lookup_insert_Some; [done|by eapply fo_source_id].
  - intros i r [[<- <-]|[_ Hx]]%lookup_insert_Some; [done|by eapply fo_run_id].
  - intros i r [[<- <-]|[_ Hx]]%lookup_insert_Some.
    + exists source'. rewrite R2, lookup_insert_eq. split_and!; [done|lia|]. rewrite S2. done.
    + destruct (fo_run _ H _ _ Hx) as (x & Hxs & Hle & Hd). destruct (decide (run_feed_source_id r = sid)) as [E|E].
      * exists source'. rewrite E, lookup_insert_eq in *. rewrite Hs in Hxs. injection Hxs as <-.
        split_and!; [done|lia|]. by rewrite S2.
      * exists x. by rewrite lookup_insert_ne.
  - intros i r i' r' [[<- <-]|[Hn Hx]]%lookup_insert_Some [[<- <-]|[Hn' Hx']]%lookup_insert_Some E1 E2; try done.
    + pose proof (Hseq _ _ Hx' ltac:(congruence)). lia.
    + pose proof (Hseq _ _ Hx ltac:(congruence)). lia.
    + by eapply (fo_sequence _ H).
  - intros i j q [[<- <-]|[_ Hx]]%lookup_insert_Some Hq.
    + simplify_eq. exists run. rewrite lookup_insert_eq, J4, R4. by split_and!.
    + rewrite lookup_insert_ne by (symmetry; by eapply Hold). by eapply (fo_job _ H).
  - intros q r [[<- <-]|[_ Hx]]%lookup_insert_Some.
    + exists jid, job. by rewrite lookup_insert_eq.
    + destruct (fo_has_job _ H _ _ Hx) as (i & j & Hi & Hq). exists i, j.
      rewrite lookup_insert_ne; [done|]. intros ->. congruence.
  - intros i j i' j' q [[<- <-]|[_ Hx]]%lookup_insert_Some [[<- <-]|[_ Hx']]%lookup_insert_Some Hq Hq'; try done.
    + simplify_eq. by destruct (Hold _ _ _ Hx' Hq').
    + simplify_eq. by destruct (Hold _ _ _ Hx Hq).
    + by eapply (fo_one_job _ H).
  - intros i j r q i' j' r' q' [[<- <-]|[_ Hx]]%lookup_insert_Some [[<- <-]|[_ Hx']]%lookup_insert_Some
      Hf Hf' Hq Hq' Hr Hr' E; try done.
    + rewrite J2 in Hq. injection Hq as <-. rewrite lookup_insert_eq in Hr. rewrite lookup_insert_ne in Hr' by (symmetry; by eapply Hold).
      injection Hr as <-. exfalso. apply (Hrest _ _ _ _ Hx' Hf' Hq' Hr'). congruence.
    + rewrite J2 in Hq'. injection Hq' as <-. rewrite lookup_insert_eq in Hr'. rewrite lookup_insert_ne in Hr by (symmetry; by eapply Hold).
      injection Hr' as <-. exfalso. apply (Hrest _ _ _ _ Hx Hf Hq Hr). congruence.
    + rewrite lookup_insert_ne in Hr by (symmetry; exact (Hold _ _ _ Hx Hq)).
      rewrite lookup_insert_ne in Hr' by (symmetry; exact (Hold _ _ _ Hx' Hq')).
      by eapply (fo_inflight _ H i j r q i' j' r' q').
Qed.

(** ** Changes beside the ledger *)

Definition run_key (r : FeedSyncRun) :=
  (run_view r, run_trigger r, run_dry_run r).

(** Feed jobs and runs keep what the ledger sees of them. *)
Lemma feed_moves_quiet d d' :
  (∀ i j, agent_job d' !! i = Some j → job_id j = i) →
  (∀ i s, threat_feed_source d' !! i = Some s → feed_id s = i) →
  source_grows (threat_feed_source d) (threat_feed_source d') →
  (∀ i j, is_Some (feed_sync_run_id j) → agent_job d !! i = Some j ↔ agent_job d' !! i = Some j) →
  (∀ i, run_key <$> feed_sync_run d' !! i = run_key <$> feed_sync_run d !! i) →
  feed_moves d d'.
Proof.
  intros Hid Hsid Hsrc Hj Hr.
  assert (∀ i r', feed_sync_run d' !! i = Some r' →
    ∃ r, feed_sync_run d !! i = Some r ∧ run_key r = run_key r') as Hback.
  { intros i r' Hr'. specialize (Hr i). rewrite Hr' in Hr. symmetry in Hr.
    apply fmap_Some in Hr as (r & ? & ?). eauto. }
  apply feed_moves_view; [done|done|done|..].
  - intros i j Hi Hf. exists j. split; [|done]. by apply Hj.
  - intros i j Hi Hf. exists j. split; [|done]. by apply (Hj i j).
  - intros i. specialize (Hr i). destruct (feed_sync_run d' !! i), (feed_sync_run d !! i); try done.
    simpl in *. unfold run_key in Hr. congruence.
  - intros H i r' s Hr' Ht Hs. destruct (Hback _ _ Hr') as (r & Hr0 & E). unfold run_key, run_view in E.
    destruct (fo_run _ H _ _ Hr0) as (s0 & Hs0 & _ & Hd).
    destruct (Hsrc _ _ Hs0) as (s1 & Hs1 & _ & _ & Hdel). destruct Hd as [Hd1 Hd2]; [congruence|].
    assert (s1 = s) as -> by congruence. split; [auto|congruence].
Qed.

Lemma feed_moves_same d d' :
  agent_job d' = agent_job d → feed_sync_run d' = feed_sync_run d →
  threat_feed_source d' = threat_feed_source d → feed_moves d d'.
Proof. intros Ej Er Es []. by split; rewrite ?Ej, ?Er, ?Es. Qed.

Lemma source_grows_refl S : source_grows S S.
Proof. intros i s Hs. exists s. split_and!; [done..|lia|done]. Qed.
#[export] Hint Resolve source_grows_refl : core.

(** Sources may be edited in place, and added. *)
Lemma feed_moves_source d d' source :
  agent_job d' = agent_job d → feed_sync_run d' = feed_sync_run d →
  threat_feed_source d' = <[feed_id source := source]> (threat_feed_source d) →
  (feed_ok d → ∀ s, threat_feed_source d !! feed_id source = Some s →
     feed_sync_sequence s <= feed_sync_sequence source ∧ (is_deleted s = true → is_deleted source = true)) →
  feed_moves d d'.
Proof.
  intros Ej Er Es Hold H. pose proof (Hold H) as Hs. pose proof H as H0. revert H.
  apply feed_moves_quiet; rewrite ?Ej, ?Er, ?Es; try done.
  - apply H0.
  - intros i s [[<- <-]|[_ Hx]]%lookup_insert_Some; [done|by eapply fo_source_id].
  - intros i s Hi. destruct (decide (i = feed_id source)) as [->|Hne].
    + exists source. rewrite lookup_insert_eq. destruct (Hs _ Hi). split_and!; try done.
      by rewrite (fo_source_id _ H0 _ _ Hi).
    + exists s. rewrite lookup_insert_ne by done. split_and!; [done..|lia|done].
Qed.

(** Statistics of a run. *)
Lemma feed_moves_stats d d' f rid :
  agent_job d' = agent_job d → threat_feed_source d' = threat_feed_source d →
  feed_sync_run d' = alter f rid (feed_sync_run d) → (∀ r, run_key (f r) = run_key r) → feed_moves d d'.
Proof.
  intros Ej Es Er Hf H. pose proof H as H0. revert H. apply feed_moves_quiet; rewrite ?Ej, ?Es; try done.
  - apply H0.
  - apply H0.
  - intros i. rewrite Er. destruct (decide (rid = i)) as [->|Hne].
    + rewrite lookup_alter_eq. destruct (feed_sync_run d !! i); [|done]. simpl. by rewrite Hf.
    + by rewrite lookup_alter_ne.
Qed.

(** A job that is not of a feed is written where no feed job is. *)
Lemma feed_moves_job d d' job :
  agent_job d' = <[job_id job := job]> (agent_job d) → feed_sync_run d' = feed_sync_run d →
  threat_feed_source d' = threat_feed_source d → feed_sync_run_id job = None →
  (feed_ok d → ∀ j, agent_job d !! job_id job = Some j → feed_sync_run_id j = None) →
  feed_moves d d'.
Proof.
  intros Ej Er Es Ht Hold H. pose proof (Hold H) as Hj. pose proof H as H0. revert H.
  apply feed_moves_quiet; rewrite ?Ej, ?Er, ?Es; try done.
  - intros i j [[<- <-]|[_ Hx]]%lookup_insert_Some; [done|by eapply fo_job_id].
  - apply H0.
  - intros i j [rid Hr]. rewrite lookup_insert_Some. split.
    + intros Hi. right. split; [|done]. intros <-. specialize (Hj _ Hi). congruence.
    + intros [[<- <-]|[_ ?]]; [congruence|done].
Qed.

(** The job replaced is another state of the same one. *)
Lemma feed_moves_rewrite d d' i j job :
  agent_job d !! i = Some j → job_id job = job_id j → job_target job = job_target j →
  feed_sync_run_id j = None →
  agent_job d' = <[job_id job := job]> (agent_job d) → feed_sync_run d' = feed_sync_run d →
  threat_feed_source d' = threat_feed_source d → feed_moves d d'.
Proof.
  intros Hj Hid Ht Hn Ej Er Es. eapply feed_moves_job; [done..| |].
  - unfold feed_sync_run_id in *. by rewrite Ht.
  - intros H j'. rewrite Hid, (fo_job_id _ H _ _ Hj). intros Hj'. congruence.
Qed.

Lemma service_not_feed j sid : job_target j = TargetService sid → feed_sync_run_id j = None.
Proof. unfold feed_sync_run_id. by intros ->. Qed.

Lemma cascade_feed sid d : feed_moves d (cascade_service sid d).
Proof.
  intros H. pose proof H as H0. revert H. apply feed_moves_quiet; try done; simpl.
  - intros i j [Hx _]%map_lookup_filter_Some. by eapply fo_job_id.
  - apply H0.
  - intros i j [rid Hr]. rewrite map_lookup_filter_Some. simpl. split; [|by intros [? _]].
    intros Hi. split; [done|]. intros E%service_not_feed. congruence.
Qed.
