(* ===== verification/LedgerOps.v ===== *)
(** * Operations and the ledger of runs

    Every operation of the gateway, by its last write, keeps the ledger of
    synchronization runs ([FeedLedger.feed_ok]). *)

From S2P Require Import Prelude PyStr Ipaddress RuleMatch Models Db.
From S2P Require Import Apply ApplyInv Allocations PyNum Services Isolation Rules.
From S2P Require Import ServicesInv FeedParser FeedReconcile FeedInv Lists ListsInv.
From S2P Require Import NodeControl FeedJobs Feeds Evolution WorkerInv ApiInv.
From S2P Require Import Applier FeedRunner Processor WorldInv Api.
From S2P Require Import FeedLedger.
Import Deps.
Open Scope Z_scope.

(** ** Operations that hold no feed *)

Create HintDb ledger.

Ltac ledger_same :=
  first [ by apply feed_moves_same | by eapply feed_moves_stats | case_match; by apply feed_moves_same ].

(** Walks an operation to its writes; [unfold] of the head where no rule applies. *)
Ltac ledger_step :=
  match goal with
  | |- respects _ _ => solve [eauto 2 with ledger]
  | |- respects _ (_ ≫= _) => apply respects_bind; [apply _|..|intros ?]
  | |- respects _ (_ <$> _) => unfold fmap, M_fmap
  | |- respects _ (mret _) => apply respects_ret, _
  | |- respects _ (raise _) => apply respects_raise
  | |- respects _ (gets _) => apply respects_gets, _
  | |- respects _ (lift _) => apply respects_lift, _
  | |- respects _ (mod_db _) => apply respects_mod_db; intros ?; try ledger_same
  | |- respects _ (modS _) => apply respects_modS; intros ?; try ledger_same
  | |- respects _ (try_except _ _) => apply respects_try;
      [|first [ apply raise_service_error_inr | apply raise_rule_error_inr
              | apply raise_list_error_inr | intros; apply name_conflict_raises ]]
  | |- respects _ (for_each _ _) => apply respects_for_each; [apply _|intros ?]
  | |- respects _ (match ?x with _ => _ end) => destruct x eqn:?
  | |- respects _ (let _ := _ in _) => cbv zeta
  | |- respects _ ?m => let h := head_of m in unfold h
  end.
Ltac ledger_auto := repeat ledger_step.

(** A job of a service or of the deny list, drawn or found, is written. *)
Lemma insert_or_get_feed svc trigger : respects feed_moves (_insert_or_get_job svc trigger).
Proof.
  intros s a s' H. unfold _insert_or_get_job, utc_now, get_db in H. minv.
  match goal with H : uuid4 _ = _ |- _ => apply uuid4_inr in H as [-> ->] end.
  destruct (select_where _ _) as [|x l].
  - unfold check_pkey, put_job, get_db, mod_db in H. minv. 
    match goal with H : bool_decide (_ !! _ = None) = true |- _ => apply bool_decide_eq_true in H as Hn end.
    apply (feed_moves_job _ _ (new_job (uuid_supply (db s)) (TargetService (svc_id svc)) (svc_version svc)
      trigger (clock (db s)))); [done..|]. intros _ j Hj. simpl in *. congruence.
  - unfold _job_for_target_version, get_db in H. minv.
    match goal with H : one_or_none _ _ = _ |- _ => apply one_or_none_inr in H as (-> & _) end.
    by apply feed_moves_same.
Qed.
#[export] Hint Resolve insert_or_get_feed : ledger.

Lemma enqueue_feed svc trigger : respects feed_moves (enqueue_service_update svc trigger).
Proof. ledger_auto. Qed.
#[export] Hint Resolve enqueue_feed : ledger.

Lemma guarded_mark_feed jid k :
  (∀ job svc s u s', k job svc s = (inr u, s') → ∃ job', job_id job' = job_id job ∧
     job_target job' = job_target job ∧ agent_job (db s') = <[job_id job' := job']> (agent_job (db s)) ∧
     feed_sync_run (db s') = feed_sync_run (db s) ∧ threat_feed_source (db s') = threat_feed_source (db s)) →
  respects feed_moves (guarded_mark jid k).
Proof.
  intros Hk s u s' H.
  apply guarded_mark_inr in H as (job & Hj & [[_ ->]|(sid & svc & _ & Ht & _ & [[_ H]|[_ H]])]); [done|..].
  - unfold _mark_superseded, utc_now, get_db, put_job, mod_db in H. minv.
    apply (feed_moves_rewrite _ _ jid job (job <| job_status := JobStatus.superseded |>
      <| job_finished_at := Some (clock (db s)) |>)); [done..|by eapply service_not_feed|done|done|done].
  - apply Hk in H as (job' & E1 & E2 & E3 & E4 & E5).
    apply (feed_moves_rewrite _ _ jid job job'); [done..|by eapply service_not_feed|done|done|done].
Qed.

Ltac mark_feed := apply guarded_mark_feed; intros job svc s u s' H;
  unfold utc_now, get_db, put_job, put_service, mod_db in H; minv.
Lemma mark_applying_feed jid : respects feed_moves (mark_applying jid).
Proof.
  mark_feed. by exists (job <| job_status := JobStatus.applying |>
    <| job_started_at := Some (clock (db s)) |> <| job_attempts := job_attempts job + 1 |>).
Qed.
Lemma mark_active_feed jid : respects feed_moves (mark_active jid).
Proof.
  mark_feed. by exists (job <| job_status := JobStatus.succeeded |>
    <| job_finished_at := Some (clock (db s)) |>).
Qed.
Lemma mark_failed_feed jid err : respects feed_moves (mark_failed jid err).
Proof.
  mark_feed. by exists (job <| job_status := JobStatus.failed |>
    <| job_error := Some (String.substring 0 APPLY_ERROR_LIMIT err) |>
    <| job_finished_at := Some (clock (db s)) |>).
Qed.
#[export] Hint Resolve mark_applying_feed mark_active_feed mark_failed_feed : ledger.

(** A row found by a query, put back in the queue, or a drawn one. *)
Lemma feed_moves_found d d' (p : AgentJob → bool) job :
  (∀ j, p j = true → feed_sync_run_id j = None) →
  ((∃ j, head (select_where p (agent_job d)) = Some j ∧ job_id job = job_id j ∧
      job_target job = job_target j) ∨
   (agent_job d !! job_id job = None ∧ feed_sync_run_id job = None)) →
  agent_job d' = <[job_id job := job]> (agent_job d) → feed_sync_run d' = feed_sync_run d →
  threat_feed_source d' = threat_feed_source d → feed_moves d d'.
Proof.
  intros Hp [(j & Hj & Hid & Ht)|[Hn Ht]] Ej Er Es.
  - apply head_Some_elem_of, elem_of_select in Hj as [Hpj [i Hi]].
    apply (feed_moves_rewrite d d' i j job); auto.
  - eapply feed_moves_job; [done..|]. intros _ j. congruence.
Qed.

Lemma requeue_feed {A} (p : AgentJob → bool) (f : AgentJob → AgentJob)
    (mk : uuid → timestamp → AgentJob) (k : AgentJob → M Session A) s a s' :
  (∀ j, p j = true → feed_sync_run_id j = None) →
  (∀ j, job_id (f j) = job_id j ∧ job_target (f j) = job_target j) →
  (∀ id now, job_id (mk id now) = id ∧ feed_sync_run_id (mk id now) = None) →
  (∀ job, respects feed_moves (k job)) →
  (existing ← one_or_none (select_where p (agent_job (db s)));
   job ← (match existing with
          | None =>
              id ← uuid4;
              now ← utc_now;
              check_pkey agent_job id "agent_job_pkey" ;;
              mret (mk id now)
          | Some j => mret (f j)
          end);
   put_job job ;; k job) s = (inr a, s') → feed_moves (db s) (db s').
Proof.
  intros Hp Hf Hmk Hk H. apply bind_inr in H as (o & s0 & (-> & -> & _)%one_or_none_inr & H).
  apply bind_inr in H as (job & s1 & H1 & H). apply bind_inr in H as (u & s2 & H2 & H%Hk).
  etrans; [|exact H]. clear H Hk. unfold put_job, mod_db in H2. minv.
  destruct (head _) as [j|] eqn:Eh.
  - minv. apply (feed_moves_found _ _ p (f j)); try done. left. exists j. by destruct (Hf j).
  - unfold check_pkey, utc_now, get_db in H1. minv.
    match goal with H : uuid4 _ = _ |- _ => apply uuid4_inr in H as [-> ->] end.
    match goal with H : bool_decide (_ !! _ = None) = true |- _ => apply bool_decide_eq_true in H as Hn end.
    destruct (Hmk (uuid_supply (db s)) (clock (db s))) as [E1 E2].
    apply (feed_moves_found _ _ p (mk (uuid_supply (db s)) (clock (db s)))); try done. right.
    by rewrite E1.
Qed.

Lemma retry_feed sid actor : respects feed_moves (retry sid actor).
Proof.
  intros s job s' H. unfold retry, _load_service_for_update, _current_version_job_for_update, get_db in H.
  rewrite run_assoc, run_gets in H.
  apply bind_inr in H as (svc & s1 & [_ ->]%get_or_raise_inr & H).
  apply bind_inr in H as (? & s1 & [_ ->]%require_inr & H).
  apply bind_inr in H as (? & s1 & [_ ->]%lift_inr & H). rewrite run_assoc, run_gets in H.
  eapply (requeue_feed (is_service_job (svc_id svc) (svc_version svc))) in H; [exact H|..].
  - intros j [Hb _]%andb_true_iff. apply bool_decide_eq_true in Hb. by eapply service_not_feed.
  - done.
  - done.
  - intros j. ledger_auto.
Qed.

Lemma convergence_feed : respects feed_moves _enqueue_global_convergence.
Proof.
  intros s b s' H. unfold _enqueue_global_convergence, get_db in H. rewrite run_gets in H.
  destruct (global_deny_state (db s)) as [st|]; [|by minv].
  destruct (negb _); [by minv|]. rewrite run_gets in H.
  destruct (select_where _ _) as [|x l]; [|by minv].
  eapply (requeue_feed (fun j => is_global_job j && (job_version j =? gds_desired_revision st))) in H;
    [exact H|..].
  - intros j [Hb _]%andb_true_iff. unfold is_global_job in Hb. apply bool_decide_eq_true in Hb.
    unfold feed_sync_run_id. by rewrite Hb.
  - done.
  - done.
  - intros j. ledger_auto.
Qed.
#[export] Hint Resolve retry_feed convergence_feed : ledger.

(** ** Requests on services, lists and the node *)

Section operations.
Context (sha256 : pystr → string).

Lemma cascade_respects sid : respects feed_moves (mod_db (cascade_service sid)).
Proof. apply respects_mod_db. apply cascade_feed. Qed.
#[local] Hint Resolve cascade_respects : ledger.

Lemma allocate_feed t c actor ip : respects feed_moves (allocate t c actor ip).
Proof.
  unfold allocate. ledger_auto. apply respects_try; [ledger_auto|]. intros e s x s' H.
  case_bool_decide; [|done]. minv. by case_match.
Qed.

Lemma retry_route_feed sid p : respects feed_moves (ApplyStatusRouter.retry_apply_status sid p).
Proof.
  unfold ApplyStatusRouter.retry_apply_status. ledger_auto.
  apply respects_try; [apply retry_feed|]. intros e s r s' H. by destruct e.
Qed.

Lemma reconcile_feed run parsed : respects feed_moves (reconcile sha256 run parsed).
Proof. ledger_auto. Qed.

(** ** Sources *)

Lemma flush_source_feed source s u s' :
  (feed_ok (db s) → ∀ x, threat_feed_source (db s) !! feed_id source = Some x →
     feed_sync_sequence x <= feed_sync_sequence source ∧ (is_deleted x = true → is_deleted source = true)) →
  flush_source source s = (inr u, s') → feed_moves (db s) (db s').
Proof.
  intros Hold H. unfold flush_source, put_source, get_db, mod_db in H. minv.
  by apply (feed_moves_source _ _ source).
Qed.

Lemma add_source_feed id source :
  feed_id source = id →
  respects feed_moves
    (try_except (check_pkey threat_feed_source id "threat_feed_source_pkey" ;; flush_source source)
       on_name_conflict).
Proof.
  intros Hid. apply respects_try; [|intros; apply name_conflict_raises].
  intros s u s' H. unfold check_pkey, get_db in H. minv.
  match goal with H : bool_decide (_ !! _ = None) = true |- _ => apply bool_decide_eq_true in H as Hn end.
  eapply flush_source_feed; [|done]. intros _ x Hx. simpl in *. congruence.
Qed.
#[local] Hint Resolve add_source_feed : ledger.

Lemma create_source_feed payload actor : respects feed_moves (create_source payload actor).
Proof. unfold create_source. ledger_auto. Qed.

Lemma given_inr {A} payload field (validate : pyval → exn + A) s o s' :
  given payload field validate s = (inr o, s') → s' = s.
Proof. unfold given. destruct (payload !! field); intros H; by minv. Qed.

(** What the ledger sees of a source. *)
Definition source_key (s : ThreatFeedSource) : uuid * Z * option timestamp :=
  (feed_id s, feed_sync_sequence s, feed_deleted_at s).

Lemma flush_edited_feed id locked source s u s' :
  threat_feed_source (db s) !! id = Some locked → source_key source = source_key locked →
  try_except (flush_source source) on_name_conflict s = (inr u, s') → feed_moves (db s) (db s').
Proof.
  intros Hl E [H|(e & s1 & _ & H)]%try_except_inr; [|by apply name_conflict_raises in H].
  unfold source_key in E. injection E as E1 E2 E3.
  eapply flush_source_feed; [|exact H]. intros Hok x Hx.
  rewrite E1, (fo_source_id _ Hok _ _ Hl) in Hx. simplify_eq. unfold is_deleted. rewrite E3.
  split; [lia|done].
Qed.

Lemma rename_inr name locked s locked' s' :
  (match name with
   | Some n =>
       if bool_decide (lower n = lower (feed_name locked)) then mret locked
       else _ensure_name_available n (Some (feed_id locked)) ;; mret (locked <| feed_name := n |>)
   | None => mret locked
   end) s = (inr locked', s') → s' = s ∧ source_key locked' = source_key locked.
Proof.
  destruct name as [n|]; [|intros H; by minv]. case_bool_decide as Hb; intros H; [by minv|].
  unfold _ensure_name_available, get_db in H. minv.
  match goal with H : one_or_none _ _ = _ |- _ => by apply one_or_none_inr in H as (-> & _) end.
Qed.

Lemma update_source_feed id payload actor : respects feed_moves (update_source id payload actor).
Proof.
  intros s a s' H. unfold update_source in H.
  apply bind_inr in H as (locked & s1 & H1 & H).
  assert (s1 = s ∧ threat_feed_source (db s) !! id = Some locked) as [-> Hl].
  { unfold _active_source_for_update, _source_for_update, get_db in H1. by minv. }
  cbv zeta in H. apply bind_inr in H as (name & s1 & ->%given_inr & H).
  apply bind_inr in H as (locked1 & s1 & [-> E]%rename_inr & H).
  do 5 apply bind_inr in H as (? & s1 & ->%given_inr & H).
  unfold utc_now, get_db in H. rewrite run_gets in H.
  apply bind_inr in H as (u & s1 & H2 & H).
  etrans; [eapply (flush_edited_feed id locked); [done| |exact H2]|].
  - rewrite <- E. by repeat case_match.
  - revert H. apply respects_bind; [apply _|unfold feed_event; ledger_auto|intros; ledger_auto].
Qed.

(** ** Runs *)

Lemma register_feed_db job s u s' : _register_feed_dispatch job s = (inr u, s') → db s' = db s.
Proof.
  unfold _register_feed_dispatch, add_post_commit_callback. intros H. minv. case_bool_decide; by minv.
Qed.

(** A source with a run in flight keeps it; another gets a new run and its job. *)
Lemma enqueue_locked_inr source trigger dry s run s' :
  _enqueue_locked source trigger dry s = (inr run, s') →
  (_inflight_run (db s) (feed_id source) = Some run ∧ s' = s) ∨
  (_inflight_run (db s) (feed_id source) = None ∧
   ∃ source' rid jid u, source' = source <| feed_sync_sequence := feed_sync_sequence source + 1 |>
                         <| feed_updated_at := clock (db s) |> ∧
     run = new_run rid source' trigger dry ∧
     feed_sync_run (db s) !! rid = None ∧ agent_job (db s) !! jid = None ∧
     db s' = db s
       <| threat_feed_source := <[feed_id source := source']> (threat_feed_source (db s)) |>
       <| feed_sync_run := <[rid := run]> (feed_sync_run (db s)) |>
       <| agent_job := <[jid := new_job jid (TargetFeedRun rid) (run_sequence run) trigger (clock (db s))]>
                         (agent_job (db s)) |>
       <| uuid_supply := u |>).
Proof.
  intros H. unfold _enqueue_locked, get_db in H. rewrite run_gets in H.
  destruct (_inflight_run _ _) as [r|] eqn:E; [left; by minv|right]. split; [done|].
  unfold utc_now, put_source, insert_run, insert_feed_job, check_pkey, put_run, put_job, get_db, mod_db in H.
  minv.
  repeat match goal with H : uuid4 _ = _ |- _ => apply uuid4_inr in H as [-> ->] end.
  match goal with H : _register_feed_dispatch _ _ = _ |- _ => apply register_feed_db in H as Edb end.
  simpl in *.
  repeat match goal with H : bool_decide (_ !! _ = None) = true |- _ => apply bool_decide_eq_true in H end.
  eexists _, (uuid_supply (db s)), (Pos.succ (uuid_supply (db s))), _. split_and!; [done..|].
  by rewrite Edb.
Qed.

Lemma enqueue_locked_feed sid source trigger dry s run s' :
  threat_feed_source (db s) !! sid = Some source →
  (trigger = ChangeTrigger.feed_delete → is_deleted source = true ∧ dry = false) →
  _enqueue_locked source trigger dry s = (inr run, s') → feed_moves (db s) (db s').
Proof.
  intros Hs Hd [[_ ->]|(Hrest%inflight_none & source' & rid & jid & u & Es & Er & Hr & Hj & Edb)]%enqueue_locked_inr;
    [done|].
  intros Hok. pose proof (fo_source_id _ Hok _ _ Hs) as Hid. subst sid. revert Hok.
  apply (feed_moves_new _ _ (feed_id source) source source' rid run jid
    (new_job jid (TargetFeedRun rid) (run_sequence run) trigger (clock (db s)))); rewrite ?Edb; subst; try done.
Qed.

Lemma enqueue_sync_feed id trigger dry :
  trigger ≠ ChangeTrigger.feed_delete → respects feed_moves (enqueue_sync id trigger dry).
Proof.
  intros Ht s run s' H. unfold enqueue_sync, _source_for_update, get_db in H. minv.
  eapply (enqueue_locked_feed id _ trigger dry); [symmetry; eassumption|by intros ?|eassumption].
Qed.

(** A run and its job turned into those of a deletion. *)
Definition retriggered (run : FeedSyncRun) : FeedSyncRun :=
  run <| run_trigger := ChangeTrigger.feed_delete |> <| run_dry_run := false |>.

Lemma retrigger_feed d d' run source :
  feed_sync_run d !! run_id run = Some run →
  threat_feed_source d !! run_feed_source_id run = Some source → is_deleted source = true →
  feed_sync_run d' = <[run_id run := retriggered run]> (feed_sync_run d) →
  threat_feed_source d' = threat_feed_source d →
  (∀ i, job_view <$> agent_job d' !! i = job_view <$> agent_job d !! i) → feed_moves d d'.
Proof.
  intros Hr Hs Hdel Er Es Ej H. pose proof H as H0. revert H. apply feed_moves_view; rewrite ?Er, ?Es.
  - intros i j Hj. specialize (Ej i). rewrite Hj in Ej. simpl in Ej. symmetry in Ej.
    apply fmap_Some in Ej as (j0 & Hj0 & [= E _ _ _]). rewrite E. by eapply fo_job_id.
  - apply H0.
  - done.
  - intros i j Hj _. specialize (Ej i). rewrite Hj in Ej. simpl in Ej. symmetry in Ej.
    apply fmap_Some in Ej as (j0 & Hj0 & E). eauto.
  - intros i j Hj _. specialize (Ej i). rewrite Hj in Ej. simpl in Ej.
    apply fmap_Some in Ej as (j0 & Hj0 & E). eauto.
  - intros i. destruct (decide (i = run_id run)) as [->|Hne]; [|by rewrite lookup_insert_ne].
    by rewrite lookup_insert_eq, Hr.
  - intros _ i r x [[<- <-]|[Hne Hx]]%lookup_insert_Some Ht Hsx; simpl in *; [by simplify_eq|].
    destruct (fo_run _ H0 _ _ Hx) as (y & Hy & _ & Hd). simplify_eq. auto.
Qed.

(** The transaction of a deletion, step by step. *)
Lemma delete_source_inr id actor s run s' :
  delete_source sha256 id actor s = (inr run, s') →
  ∃ locked source s1 run0 s2 s3 res s4 evs,
    threat_feed_source (db s) !! id = Some locked ∧ is_deleted locked = false ∧
    source = locked <| feed_enabled := false |> <| feed_next_sync_at := None |>
               <| feed_deleted_at := Some (clock (db s)) |> <| feed_updated_at := clock (db s) |> ∧
    db s1 = db s <| threat_feed_source := <[feed_id locked := source]> (threat_feed_source (db s)) |> ∧
    _enqueue_locked source ChangeTrigger.feed_delete false s1 = (inr run0, s2) ∧
    ((run_trigger run0 = ChangeTrigger.feed_delete ∧ run = run0 ∧ s3 = s2) ∨
     (run_trigger run0 ≠ ChangeTrigger.feed_delete ∧ run = retriggered run0 ∧
      ∃ aj, db s3 = db s2 <| feed_sync_run := <[run_id run0 := run]> (feed_sync_run (db s2)) |>
                          <| agent_job := aj |> ∧
        (feed_ok (db s2) → ∀ i, job_view <$> aj !! i = job_view <$> agent_job (db s2) !! i))) ∧
    reconcile sha256 run (parse_line_list []) s3 = (inr res, s4) ∧
    db s' = db s4 <| audit_events := evs |>.
Proof.
  intros H. unfold delete_source in H. apply bind_inr in H as (locked & s1 & H1 & H).
  assert (s1 = s ∧ threat_feed_source (db s) !! id = Some locked ∧ is_deleted locked = false) as (-> & Hl & Hdel).
  { unfold _active_source_for_update, _source_for_update, get_db in H1. minv. split_and!; [done..|].
    by apply negb_true_iff. }
  unfold utc_now, get_db in H. rewrite run_gets in H. cbv zeta in H.
  apply bind_inr in H as (? & s1 & Hput & H). unfold put_source, mod_db in Hput. apply modS_inr in Hput as ->.
  apply bind_inr in H as (run0 & s2 & Henq & H). apply bind_inr in H as (run1 & s3 & Hre & H).
  apply bind_inr in H as (res & s4 & Hrec & H). apply bind_inr in H as (? & s5 & Hev & H).
  apply ret_inr in H as [-> ->]. apply record_event_inr in Hev as [evs ->].
  match type of Henq with _enqueue_locked ?x _ _ ?y = _ => exists locked, x, y, run0, s2, s3, res, s4, evs end.
  split_and!; [done|done|reflexivity|reflexivity|exact Henq| |done|done].
  clear Henq Hrec Hdel Hl. destruct (bool_decide_reflect (run_trigger run0 = ChangeTrigger.feed_delete)) as [Et|Et].
  { left. by apply ret_inr in Hre as [-> ->]. }
  right. split; [done|]. apply bind_inr in Hre as (? & s4' & Hput & Hre). unfold put_run, mod_db in Hput.
  apply modS_inr in Hput as ->. unfold _job_for_run_for_update, get_db in Hre. rewrite run_assoc, run_gets in Hre.
  apply bind_inr in Hre as (o & s5 & (-> & -> & _)%one_or_none_inr & Hre).
  apply bind_inr in Hre as (? & s5 & Hj & [-> ->]%ret_inr). split; [done|].
  destruct (head _) as [job|] eqn:Eh.
  - unfold put_job, mod_db in Hj. apply modS_inr in Hj as ->. eexists. split; [reflexivity|].
    apply head_Some_elem_of, elem_of_select in Eh as [_ [i Hi]]. simpl in *. intros Hok j.
    pose proof (fo_job_id _ Hok _ _ Hi) as Hid. simpl. rewrite Hid. destruct (decide (j = i)) as [->|Hne].
    + rewrite lookup_insert_eq, Hi, <- Hid. reflexivity.
    + by rewrite lookup_insert_ne.
  - apply ret_inr in Hj as [_ ->]. by exists (agent_job (db s2)).
Qed.

Lemma delete_source_feed id actor : respects feed_moves (delete_source sha256 id actor).
Proof.
  intros s run s' (locked & source & s1 & run0 & s2 & s3 & res & s4 & evs & Hl & Hdel & Es & E1 & Henq &
    Hre & Hrec & E')%delete_source_inr.
  assert (feed_moves (db s) (db s1)) as M1.
  { rewrite E1. intros Hok. pose proof (fo_source_id _ Hok _ _ Hl) as Hid. revert Hok.
    apply (feed_moves_source _ _ source); [done..|by subst source|]. intros _ x. subst source. simpl.
    rewrite Hid. intros Hx. simplify_eq. split; [lia|]. intros _. by apply bool_decide_true. }
  assert (threat_feed_source (db s1) !! feed_id locked = Some source) as Hs1 by (rewrite E1; apply lookup_insert_eq).
  assert (is_deleted source = true) as Hdel' by (subst source; by apply bool_decide_true).
  assert (feed_moves (db s1) (db s2)) as M2
    by exact (enqueue_locked_feed _ _ _ _ _ _ _ Hs1 (fun _ => conj Hdel' eq_refl) Henq).
  etrans; [exact M1|]. etrans; [exact M2|].
  assert (feed_moves (db s4) (db s')) as M5 by (rewrite E'; by apply feed_moves_same).
  etrans; [|exact M5]. etrans; [|by eapply reconcile_feed]. clear M5 Hrec E' res s4 evs.
  destruct Hre as [(_ & _ & ->)|(Ht & -> & aj & E3 & Hv)]; [done|].
  apply enqueue_locked_inr in Henq as [[Hin%inflight_some ->]|(_ & source' & rid & jid & u & _ & -> & _)]; [|done].
  destruct Hin as (Hsrc & i & j & rid & _ & _ & _ & Hr). intros Hok. pose proof (Hv Hok) as Hv'.
  pose proof (fo_run_id _ Hok _ _ Hr) as Hid. subst rid. revert Hok.
  assert (feed_id source = feed_id locked) as Hfid by (by subst source).
  eapply (retrigger_feed _ _ run0 source); rewrite ?E3, ?Hsrc, ?Hfid; done.
Qed.

(** ** Requests and the schedule *)

#[local] Hint Resolve allocate_feed retry_route_feed reconcile_feed create_source_feed
  update_source_feed delete_source_feed enqueue_sync_feed : ledger.
#[local] Hint Extern 1 (_ ≠ _) => by repeat case_match : ledger.

Lemma route_feed capacity ncpus r p : respects feed_moves (route sha256 capacity ncpus r p).
Proof. destruct r; cbn [route]; ledger_auto. Qed.

Lemma resolve_feed session : respects feed_moves (resolve_current_user session).
Proof. ledger_auto. Qed.

Lemma enqueue_all_feed sources : respects feed_moves (enqueue_all sources).
Proof. induction sources; cbn [enqueue_all]; ledger_auto. Qed.
End operations.

(** ** Lifecycles *)

(** The claim, the end and the requeueing of a feed job move its run along. *)
Lemma put_both_feed {A} jid j j' r r' (k : unit → M Session A) s a s' :
  agent_job (db s) !! jid = Some j → feed_sync_run_id j = Some (run_id r) →
  feed_sync_run (db s) !! run_id r = Some r →
  job_id j' = job_id j → job_target j' = job_target j → job_version j' = job_version j →
  run_key r' = (run_id r, run_feed_source_id r, run_sequence r, run_status r', run_trigger r, run_dry_run r) →
  coupled (job_status j') (run_status r') = true → (in_flight j' = true → in_flight j = true) →
  (∀ s1, threat_feed_source (db s1) = threat_feed_source (db s) → k tt s1 = (inr a, s') →
     feed_moves (db s1) (db s')) →
  (put_job j' ≫= fun _ => put_run r' ≫= k) s = (inr a, s') → feed_moves (db s) (db s').
Proof.
  intros Hj Ht Hr J1 J2 J3 [= R1 R2 R3 R4 R5] Hc Hfl Hk H.
  apply bind_inr in H as ([] & s1 & H1 & H). apply bind_inr in H as ([] & s2 & H2 & H).
  unfold put_job, put_run, mod_db in H1, H2. apply modS_inr in H1 as ->. apply modS_inr in H2 as ->.
  apply Hk in H; [|done]. etrans; [|exact H]. clear H Hk. intros Hok.
  pose proof (fo_job_id _ Hok _ _ Hj) as Hji. pose proof (fo_source_id _ Hok) as Hsid. revert Hok.
  apply (feed_moves_status _ _ jid j j' (run_id r) r r'); try done; simpl.
  - by rewrite J1, Hji.
  - by rewrite R1.
  - unfold feed_sync_run_id in *. by rewrite J2.
Qed.

Lemma put_both_last jid j j' r r' s u s' :
  agent_job (db s) !! jid = Some j → feed_sync_run_id j = Some (run_id r) →
  feed_sync_run (db s) !! run_id r = Some r →
  job_id j' = job_id j → job_target j' = job_target j → job_version j' = job_version j →
  run_key r' = (run_id r, run_feed_source_id r, run_sequence r, run_status r', run_trigger r, run_dry_run r) →
  coupled (job_status j') (run_status r') = true → (in_flight j' = true → in_flight j = true) →
  (put_job j' ≫= fun _ => put_run r') s = (inr u, s') → feed_moves (db s) (db s').
Proof.
  intros Hj Ht Hr J1 J2 J3 R1 Hc Hfl H.
  apply (put_both_feed jid j j' r r' mret s u s'); [done..| |].
  - intros s1 _ E. by apply ret_inr in E as [_ ->].
  - rewrite bind_run in H |- *. destruct (put_job j' s) as [[e|[]] s1]; [done|]. rewrite bind_run. by rewrite H.
Qed.

Lemma put_end_feed jid j j' s u s' :
  agent_job (db s) !! jid = Some j → feed_sync_run_id j = None → job_id j' = job_id j →
  job_target j' = job_target j → put_job j' s = (inr u, s') → feed_moves (db s) (db s').
Proof.
  intros Hj Hn Hid Ht H. unfold put_job, mod_db in H. apply modS_inr in H as ->.
  by apply (feed_moves_rewrite _ _ jid j j').
Qed.

(** The run of a locked job. *)
Lemma locked_run d jid j r :
  feed_ok d → agent_job d !! jid = Some j → feed_sync_run_id j ≫= (fun i => feed_sync_run d !! i) = r →
  match r with
  | None => feed_sync_run_id j = None
  | Some r => feed_sync_run_id j = Some (run_id r) ∧ feed_sync_run d !! run_id r = Some r ∧
      coupled (job_status j) (run_status r) = true ∧
      ∃ s, threat_feed_source d !! run_feed_source_id r = Some s
  end.
Proof.
  intros Hok Hj <-. destruct (feed_sync_run_id j) as [rid|] eqn:Ht; [|done]. simpl.
  destruct (fo_job _ Hok _ _ _ Hj Ht) as (r & Hr & _ & Hc). rewrite Hr.
  rewrite (fo_run_id _ Hok _ _ Hr). destruct (fo_run _ Hok _ _ Hr) as (x & Hx & _). eauto.
Qed.

Lemma finish_noop_feed {A} jid locked (k : unit → M Session A) s a s' :
  agent_job (db s) !! jid = Some locked → (∀ u, respects feed_moves (k u)) →
  (_finish_noop locked (feed_sync_run_id locked ≫= (fun r => feed_sync_run (db s) !! r)) ≫= k) s =
    (inr a, s') → feed_moves (db s) (db s').
Proof.
  intros Hj Hk H. apply bind_inr in H as (u & s1 & H & Hrest%Hk). etrans; [|exact Hrest]. clear Hrest Hk.
  intros Hok. unfold _finish_noop, utc_now, get_db in H. rewrite run_gets in H.
  pose proof (locked_run _ _ _ _ Hok Hj eq_refl) as Hr.
  destruct (feed_sync_run_id locked ≫= _) as [r|]; [destruct Hr as (Ht & Hr & _)|]; revert Hok.
  - eapply (put_both_last jid locked _ r) in H; [exact H|done..].
  - apply bind_inr in H as (? & s2 & H & [_ ->]%ret_inr).
    eapply (put_end_feed jid locked) in H; [exact H|done..].
Qed.

Lemma noop_last jid locked s u s' :
  agent_job (db s) !! jid = Some locked →
  _finish_noop locked (feed_sync_run_id locked ≫= (fun r => feed_sync_run (db s) !! r)) s = (inr u, s') →
  feed_moves (db s) (db s').
Proof.
  intros Hj H. eapply (finish_noop_feed jid locked mret); [done|intros ?; apply respects_ret, _|].
  rewrite bind_run, H. by destruct u.
Qed.

Ltac noop_feed H :=
  first [ eapply finish_noop_feed; [eassumption|intros ?; apply respects_ret, _|exact H]
        | eapply noop_last; [eassumption|exact H] ].

Lemma feed_claim_feed job : respects feed_moves (FeedSyncJobLifecycle.claim job).
Proof.
  intros s a s' H. unfold FeedSyncJobLifecycle.claim, _locked_job, _locked_run, _locked_feed_source,
    utc_now, get_db in H. rewrite run_assoc, run_gets, run_ret in H.
  destruct (agent_job (db s) !! job_id job) as [locked|] eqn:Hj; [|by minv].
  destruct (is_terminal _); [by minv|].
  destruct (negb _) eqn:Eq; [by minv|]. apply negb_false_iff, bool_decide_eq_true in Eq.
  rewrite run_assoc, run_gets, run_ret in H.
  destruct (feed_sync_run_id locked ≫= _) as [run|] eqn:Er.
  2: { rewrite <- Er in H. noop_feed H. }
  rewrite run_assoc, run_gets, run_ret in H.
  destruct (threat_feed_source (db s) !! run_feed_source_id run) as [source|] eqn:Es.
  2: { rewrite <- Er in H. noop_feed H. }
  destruct (is_deleted source); [rewrite <- Er in H; noop_feed H|].
  destruct (negb _); [by minv|]. rewrite run_gets in H. intros Hok.
  destruct (locked_run _ _ _ _ Hok Hj Er) as (Ht & Hr & _). revert Hok.
  eapply (put_both_feed (job_id job) locked _ run) in H; [exact H|done..| |].
  - intros _. unfold in_flight. by rewrite Eq.
  - intros s1 _ E. by apply ret_inr in E as [_ ->].
Qed.

Lemma noop_succeeded locked run s u s' :
  _finish_noop locked run s = (inr u, s') →
  job_status <$> agent_job (db s') !! job_id locked = Some JobStatus.succeeded.
Proof.
  unfold _finish_noop, utc_now, get_db, put_job, put_run, mod_db. intros H. minv.
  destruct run; minv; simpl; by rewrite lookup_insert_eq.
Qed.

(** What the end of a feed job finds. *)
Lemma with_running_inr job k locked s u s' :
  feed_ok (db s) → agent_job (db s) !! job_id job = Some locked →
  FeedSyncJobLifecycle.with_running job k s = (inr u, s') →
  (s' = s ∧ job_status locked ≠ JobStatus.applying) ∨
  (feed_moves (db s) (db s') ∧
   job_status <$> agent_job (db s') !! job_id job = Some JobStatus.succeeded) ∨
  ∃ run source, job_status locked = JobStatus.applying ∧ feed_sync_run_id locked = Some (run_id run) ∧
    feed_sync_run (db s) !! run_id run = Some run ∧
    threat_feed_source (db s) !! run_feed_source_id run = Some source ∧ is_deleted source = false ∧
    k locked run source s = (inr u, s').
Proof.
  intros Hok Hj H. unfold FeedSyncJobLifecycle.with_running, _locked_job, _locked_run,
    _locked_feed_source, get_db in H. rewrite run_assoc, run_gets, run_ret, Hj in H.
  pose proof (fo_job_id _ Hok _ _ Hj) as Hid.
  destruct (is_terminal _) eqn:Et.
  { left. apply ret_inr in H as [_ ->]. split; [done|]. intros E. by rewrite E in Et. }
  destruct (negb _) eqn:Eq.
  { left. apply ret_inr in H as [_ ->]. split; [done|]. by apply negb_true_iff, bool_decide_eq_false in Eq. }
  apply negb_false_iff, bool_decide_eq_true in Eq. right. clear Et.
  rewrite run_assoc, run_gets, run_ret in H.
  destruct (feed_sync_run_id locked ≫= _) as [run|] eqn:Er.
  2: { left. rewrite <- Hid. split; [|by eapply noop_succeeded]. rewrite <- Er in H. noop_feed H. }
  rewrite run_assoc, run_gets, run_ret in H.
  destruct (locked_run _ _ _ _ Hok Hj Er) as (Ht & Hr & Hc & source & Hs). rewrite Hs in H.
  destruct (is_deleted source) eqn:Ed.
  { left. rewrite <- Hid. split; [|by eapply noop_succeeded]. rewrite <- Er in H. noop_feed H. }
  destruct (negb _) eqn:En; [|right; by exists run, source].
  apply negb_true_iff, bool_decide_eq_false in En. rewrite Eq in Hc.
  by destruct (run_status run).
Qed.

(** The writes of a success or a failure. *)
Lemma feed_end_feed locked run source j' r' source' jid s u s' :
  agent_job (db s) !! jid = Some locked → feed_sync_run_id locked = Some (run_id run) →
  feed_sync_run (db s) !! run_id run = Some run →
  threat_feed_source (db s) !! run_feed_source_id run = Some source →
  job_id j' = job_id locked → job_target j' = job_target locked → job_version j' = job_version locked →
  run_key r' = (run_id run, run_feed_source_id run, run_sequence run, run_status r', run_trigger run, run_dry_run run) →
  coupled (job_status j') (run_status r') = true → in_flight j' = false →
  source_key source' = source_key source →
  (put_job j' ≫= fun _ => put_run r' ≫= fun _ => put_source source') s = (inr u, s') →
  feed_moves (db s) (db s').
Proof.
  intros Hj Ht Hr Hs J1 J2 J3 R1 Hc Hfl [= S1 S2 S3] H.
  eapply (put_both_feed jid locked j' run r') in H; [exact H|done..| |].
  - by rewrite Hfl.
  - intros s1 E1 E. unfold put_source, mod_db in E. apply modS_inr in E as ->.
    apply (feed_moves_source _ _ source'); [done..|]. intros Hok x. rewrite S1, E1.
    rewrite <- E1 in Hs. rewrite (fo_source_id _ Hok _ _ Hs), <- E1. intros Hx. simplify_eq.
    unfold is_deleted. rewrite S3. split; [lia|done].
Qed.

Lemma feed_succeed_feed job o : respects feed_moves (FeedSyncJobLifecycle.succeed job o).
Proof.
  intros s u s' H. destruct (agent_job (db s) !! job_id job) as [locked|] eqn:Hj.
  2: { unfold FeedSyncJobLifecycle.succeed, FeedSyncJobLifecycle.with_running, _locked_job, get_db in H.
       rewrite run_assoc, run_gets, run_ret, Hj in H. by apply ret_inr in H as [_ ->]. }
  intros Hok. destruct (with_running_inr _ _ _ _ _ _ Hok Hj H)
    as [[-> _]|[[Hm _]|(run & source & _ & Ht & Hr & Hs & _ & Hk)]]; [done|by apply Hm|].
  cbv zeta in Hk. apply bind_inr in Hk as (? & s1 & [Ho ->]%require_inr & Hk).
  apply bool_decide_eq_true in Ho. unfold utc_now, get_db in Hk. rewrite run_gets in Hk.
  eapply (feed_end_feed locked run source) in Hk; [by apply Hk|done..| |done|done].
  simpl. apply elem_of_cons in Ho as [->|[->|[]%not_elem_of_nil]%elem_of_cons]; done.
Qed.

(** A failed feed job and its run. *)
Lemma feed_fail_inr job e locked s u s' :
  feed_ok (db s) → agent_job (db s) !! job_id job = Some locked →
  FeedSyncJobLifecycle.fail job e s = (inr u, s') →
  (s' = s ∧ job_status locked ≠ JobStatus.applying) ∨
  (feed_moves (db s) (db s') ∧
   job_status <$> agent_job (db s') !! job_id job = Some JobStatus.succeeded) ∨
  ∃ run source j' r' source', job_status locked = JobStatus.applying ∧
    feed_sync_run_id locked = Some (run_id run) ∧ feed_sync_run (db s) !! run_id run = Some run ∧
    threat_feed_source (db s) !! run_feed_source_id run = Some source ∧
    (job_id j', job_target j', job_version j', job_status j') =
      (job_id locked, job_target locked, job_version locked, JobStatus.failed) ∧
    run_key r' = (run_id run, run_feed_source_id run, run_sequence run, FeedSyncStatus.failed,
                  run_trigger run, run_dry_run run) ∧
    source_key source' = source_key source ∧
    (put_job j' ≫= fun _ => put_run r' ≫= fun _ => put_source source') s = (inr u, s').
Proof.
  intros Hok Hj H. destruct (with_running_inr _ _ _ _ _ _ Hok Hj H)
    as [?|[?|(run & source & Ha & Ht & Hr & Hs & _ & Hk)]]; [by left|by right; left|right; right].
  unfold utc_now, get_db in Hk. rewrite run_gets in Hk. cbv zeta in Hk.
  match type of Hk with (put_job ?j ≫= fun _ => put_run ?r ≫= fun _ => put_source ?x) _ = _ =>
    exists run, source, j, r, x end. by split_and!.
Qed.

Lemma feed_fail_feed job e : respects feed_moves (FeedSyncJobLifecycle.fail job e).
Proof.
  intros s u s' H. destruct (agent_job (db s) !! job_id job) as [locked|] eqn:Hj.
  2: { unfold FeedSyncJobLifecycle.fail, FeedSyncJobLifecycle.with_running, _locked_job, get_db in H.
       rewrite run_assoc, run_gets, run_ret, Hj in H. by apply ret_inr in H as [_ ->]. }
  intros Hok. destruct (feed_fail_inr _ _ _ _ _ _ Hok Hj H)
    as [[-> _]|[[Hm _]|(run & source & j' & r' & source' & _ & Ht & Hr & Hs & [= J1 J2 J3 J4] & R & S & Hk)]];
    [done|by apply Hm|]. pose proof R as [= R1 R2 R3 R4 R5 R6].
  eapply (feed_end_feed locked run source) in Hk; [by apply Hk|done..| | | |done].
  - by rewrite R, R4.
  - by rewrite J4, R4.
  - unfold in_flight. by rewrite J4.
Qed.

Lemma source_grows_edit d k s s' :
  feed_ok d → threat_feed_source d !! k = Some s → source_key s' = source_key s →
  source_grows (threat_feed_source d) (<[feed_id s := s']> (threat_feed_source d)).
Proof.
  intros Hok Hs [= S1 S2 S3] i x Hx. pose proof (fo_source_id _ Hok _ _ Hs) as <-.
  destruct (decide (i = feed_id s)) as [->|Hne].
  - exists s'. rewrite lookup_insert_eq. simplify_eq. unfold is_deleted. rewrite S3. split_and!; [done|done|lia|done].
  - exists x. rewrite lookup_insert_ne by done. split_and!; [done..|lia|done].
Qed.

(** Recovery of a job in progress: failed and at once put back in the queue. *)
Lemma feed_recover_feed job s u s' :
  agent_job (db s) !! job_id job = Some job → job_status job = JobStatus.applying →
  FeedSyncJobLifecycle.recover job s = (inr u, s') → feed_moves (db s) (db s').
Proof.
  intros Hj Ha H Hok. unfold FeedSyncJobLifecycle.recover in H.
  apply bind_inr in H as (v & s1 & H1 & H).
  unfold _locked_job, _locked_run, _locked_feed_source, get_db in H. rewrite run_assoc, run_gets, run_ret in H.
  destruct (feed_fail_inr _ _ _ _ _ _ Hok Hj H1)
    as [[_ ?]|[[Hm Hst]|(run & source & j' & r' & source' & _ & Ht & Hr & Hs & [= J1 J2 J3 J4] & R & S & Hk)]]; [done|..].
  { apply Hm in Hok. destruct (agent_job (db s1) !! job_id job) as [locked|]; [|done].
    injection Hst as Hst. unfold has_status in H. rewrite Hst in H. by apply ret_inr in H as [_ ->]. }
  pose proof (feed_fail_feed _ _ _ _ _ H1 Hok) as Hok1. pose proof R as [= R1 R2 R3 R4 R5 R6].
  pose proof S as [= S1 S2 S3].
  apply bind_inr in Hk as (? & s2 & E2 & Hk). apply bind_inr in Hk as (? & s3 & E3 & E4).
  unfold put_job, put_run, put_source, mod_db in E2, E3, E4.
  apply modS_inr in E2 as ->. apply modS_inr in E3 as ->. apply modS_inr in E4 as E1. clear E4 H1.
  assert (agent_job (db s1) = <[job_id job := j']> (agent_job (db s)) ∧
    feed_sync_run (db s1) = <[run_id run := r']> (feed_sync_run (db s)) ∧
    threat_feed_source (db s1) = <[feed_id source := source']> (threat_feed_source (db s))) as (Ej & Er & Es).
  { rewrite E1, <- J1, <- R1, <- S1. done. }
  clear E1. assert (agent_job (db s1) !! job_id job = Some j') as Hj1 by (rewrite Ej; apply lookup_insert_eq).
  rewrite Hj1 in H. destruct (_ || _); [by apply ret_inr in H as [_ ->]|].
  rewrite run_assoc, run_gets, run_ret in H.
  assert (feed_sync_run_id j' = Some (run_id run)) as Ht' by (unfold feed_sync_run_id in *; by rewrite J2).
  assert (feed_sync_run (db s1) !! run_id run = Some r') as Hr1 by (rewrite Er; apply lookup_insert_eq).
  rewrite Ht' in H. simpl in H. rewrite Hr1 in H. rewrite run_assoc, run_gets, run_ret in H.
  destruct (threat_feed_source (db s1) !! _) as [src|]; [|by apply ret_inr in H as [_ ->]].
  destruct (is_deleted src); [by apply ret_inr in H as [_ ->]|].
  apply bind_inr in H as (? & s4 & E4 & E5). unfold put_job, put_run, mod_db in E4, E5.
  apply modS_inr in E4 as ->. apply modS_inr in E5 as ->. pose proof (fo_source_id _ Hok1) as Hsid.
  pose proof (source_grows_edit _ _ _ _ Hok Hs S) as Hg. revert Hok.
  apply (feed_moves_status _ _ (job_id job) job (requeue_job j') (run_id run) run (requeue_run r'));
    simpl; rewrite ?Ej, ?Er, ?J1, ?R1, ?insert_insert_eq; try done.
  - by rewrite Es.
  - intros _. unfold in_flight. by rewrite Ha.
Qed.

Lemma global_not_feed j : job_type j = JobType.global_deny_apply → feed_sync_run_id j = None.
Proof. unfold job_type, feed_sync_run_id. by destruct (job_target j). Qed.

(** The deny list's jobs hold no feed. *)
Lemma global_claim_feed job s b s' :
  agent_job (db s) !! job_id job = Some job → feed_sync_run_id job = None →
  GlobalDenyJobLifecycle.claim job s = (inr b, s') → feed_moves (db s) (db s').
Proof.
  intros Hj Hn H. unfold GlobalDenyJobLifecycle.claim, _locked_job, get_db in H.
  rewrite run_assoc, run_gets, run_ret, Hj in H. destruct (_ || _); [by apply ret_inr in H as [_ ->]|].
  unfold utc_now, get_db in H. rewrite run_gets in H. apply bind_inr in H as (? & s1 & H & [_ ->]%ret_inr).
  eapply (put_end_feed (job_id job) job) in H; [exact H|done..].
Qed.

Lemma global_succeed_feed job o s u s' :
  agent_job (db s) !! job_id job = Some job → feed_sync_run_id job = None →
  GlobalDenyJobLifecycle.succeed job o s = (inr u, s') → feed_moves (db s) (db s').
Proof.
  intros Hj Hn H. unfold GlobalDenyJobLifecycle.succeed, _locked_job, get_db in H.
  rewrite run_assoc, run_gets, run_ret, Hj in H. 
  destruct (is_terminal _); [by apply ret_inr in H as [_ ->]|].
  destruct (negb _); [by apply ret_inr in H as [_ ->]|].
  unfold utc_now, get_db in H. rewrite run_gets in H.
  eapply (put_end_feed (job_id job) job) in H; [exact H|done..].
Qed.

Lemma global_fail_inr job e s u s' :
  agent_job (db s) !! job_id job = Some job → feed_sync_run_id job = None →
  GlobalDenyJobLifecycle.fail job e s = (inr u, s') →
  feed_moves (db s) (db s') ∧ ∃ job', agent_job (db s') !! job_id job = Some job' ∧
    job_target job' = job_target job ∧ job_id job' = job_id job.
Proof.
  intros Hj Hn H. unfold GlobalDenyJobLifecycle.fail, _locked_job, get_db in H.
  rewrite run_assoc, run_gets, run_ret, Hj in H.
  destruct (is_terminal _); [apply ret_inr in H as [_ ->]; split; [done|by eauto]|].
  destruct (negb _); [apply ret_inr in H as [_ ->]; split; [done|by eauto]|].
  unfold utc_now, get_db in H. rewrite run_gets in H. split.
  - eapply (put_end_feed (job_id job) job) in H; [exact H|done..].
  - unfold put_job, mod_db in H. apply modS_inr in H as ->. simpl. rewrite lookup_insert_eq. eauto.
Qed.

Lemma global_recover_feed job s u s' :
  agent_job (db s) !! job_id job = Some job → feed_sync_run_id job = None →
  GlobalDenyJobLifecycle.recover job s = (inr u, s') → feed_moves (db s) (db s').
Proof.
  intros Hj Hn H. unfold GlobalDenyJobLifecycle.recover in H. apply bind_inr in H as (v & s1 & H1 & H).
  destruct (global_fail_inr _ _ _ _ _ Hj Hn H1) as (Hm & job' & Hj' & Ht & Hid). etrans; [exact Hm|].
  unfold _locked_job, get_db in H. rewrite run_assoc, run_gets, run_ret, Hj' in H.
  destruct (_ || _); [by apply ret_inr in H as [_ ->]|].
  eapply (put_end_feed (job_id job) job') in H; [exact H|done| |done..].
  unfold feed_sync_run_id in *. by rewrite Ht.
Qed.

Lemma service_recover_feed job : respects feed_moves (ServiceJobLifecycle.recover job).
Proof. ledger_auto. Qed.

(** ** The lifecycle a job's type selects *)

Lemma lc_claim_feed job s b s' :
  agent_job (db s) !! job_id job = Some job →
  lc_claim (JOB_LIFECYCLES (job_type job)) job s = (inr b, s') → feed_moves (db s) (db s').
Proof.
  intros Hj H. destruct (job_type job) eqn:Et; simpl in H.
  - revert H. assert (respects feed_moves (ServiceJobLifecycle.claim job)) as Hc by ledger_auto. apply Hc.
  - by eapply feed_claim_feed.
  - by eapply global_claim_feed; [| apply global_not_feed|].
Qed.

Lemma lc_succeed_feed job o s u s' :
  agent_job (db s) !! job_id job = Some job →
  lc_succeed (JOB_LIFECYCLES (job_type job)) job o s = (inr u, s') → feed_moves (db s) (db s').
Proof.
  intros Hj H. destruct (job_type job) eqn:Et; simpl in H.
  - by eapply mark_active_feed.
  - by eapply feed_succeed_feed.
  - by eapply global_succeed_feed; [| apply global_not_feed|].
Qed.

Lemma lc_fail_feed job e s u s' :
  agent_job (db s) !! job_id job = Some job →
  lc_fail (JOB_LIFECYCLES (job_type job)) job e s = (inr u, s') → feed_moves (db s) (db s').
Proof.
  intros Hj H. destruct (job_type job) eqn:Et; simpl in H.
  - by eapply mark_failed_feed.
  - by eapply feed_fail_feed.
  - by eapply global_fail_inr in H as [Hm _]; [|done|apply global_not_feed].
Qed.

Lemma lc_recover_feed job s u s' :
  agent_job (db s) !! job_id job = Some job → job_status job = JobStatus.applying →
  lc_recover (JOB_LIFECYCLES (job_type job)) job s = (inr u, s') → feed_moves (db s) (db s').
Proof.
  intros Hj Ha H. destruct (job_type job) eqn:Et; simpl in H.
  - by eapply service_recover_feed.
  - by eapply feed_recover_feed.
  - by eapply global_recover_feed; [| apply global_not_feed|].
Qed.
