(* ===== verification/System.v ===== *)
(** * The gateway as a transition system

    Requests, the apply worker, feed completions, the feed schedule and the
    surroundings act on one world in any order.  The worker handles one job at a time; its
    [phase] is what it holds in memory between two transactions, so a request
    may commit between the claim of a job, the moment its snapshot is read,
    the helper's exit and the final mark, and a crash may come at any of these
    points. *)

From S2P Require Import Prelude PyStr Ipaddress RuleMatch Models Db.
From S2P Require Import Apply ApplyInv Allocations Services Isolation Rules.
From S2P Require Import ServicesInv FeedParser FeedReconcile FeedInv Lists ListsInv.
From S2P Require Import NodeControl FeedJobs Feeds Evolution WorkerInv ApiInv.
From S2P Require Import Applier ApplierInv FeedRunner Processor WorldInv.
From S2P Require Import Api.
Open Scope Z_scope.

Inductive phase :=
  | Idle
  | Claimed (id : uuid)
  | Sending (id : uuid) (payload : list Z)
  | Applied (id : uuid) (error : option string).

Section system.
Context (sha256 : pystr → string) (capacity : Decimal) (ncpus : Z).
Context (xdpgw_apply : World → list Z → HelperOutcome).
Context (fetch_source : World → ThreatFeedSource → exn + list Z).

Abbreviation handler := (run_handler sha256 xdpgw_apply fetch_source
                           (DoubleBufferApplier xdpgw_apply)).

(** The snapshot the handler of job [id] sends, when it gets that far. *)
Definition prepare (id : uuid) (d : Db) : option (list Z) :=
  match agent_job d !! id with
  | Some job =>
      match job_target job with
      | TargetService sid =>
          match load_service_config d sid, serialize_node_snapshot (load_node_config d) with
          | Some _, inr payload => Some payload
          | _, _ => None
          end
      | _ => None
      end
  | None => None
  end.

(** Where [process_job] goes after the [try] block. *)
Definition after (id : uuid) (r : exn + bool) : phase :=
  match r with
  | inr true => Applied id None
  | inr false => Idle
  | inl e => if is_sqlalchemy_error e then Idle else Applied id (Some (exn_text e))
  end.

Inductive step : World * phase → World * phase → Prop :=
  | step_request session r w ph res w' :
      serve sha256 capacity ncpus session r w = (res, w') → step (w, ph) (w', ph)
  | step_claim id w job w' :
      claim_job id w = (inr (Some job), w') → step (w, Idle) (w', Claimed id)
  | step_skip id w r w' :
      claim_job id w = (r, w') → (∀ job, r ≠ inr (Some job)) → step (w, Idle) (w', Idle)
  | step_load id w payload :
      prepare id (w_db w) = Some payload → step (w, Claimed id) (w, Sending id payload)
  | step_send id payload w r w' :
      (run_helper xdpgw_apply payload ;; mret true) w = (r, w') →
      step (w, Sending id payload) (w', after id r)
  | step_handle id w r w' :
      prepare id (w_db w) = None → handler id w = (r, w') → step (w, Claimed id) (w', after id r)
  | step_mark down id error w r w' :
      _mark_terminal down id error w = (r, w') → step (w, Applied id error) (w', Idle)
  | step_crash w ph : step (w, ph) (w, Idle)
  | step_recover id w r w' : recover_once id w = (r, w') → step (w, Idle) (w', Idle)
  | step_feed_completed job fetched w ph r w' :
      feed_job (w_db w) (job_id job) →
      complete_feed_fetch sha256 xdpgw_apply job fetched w = (r, w') → step (w, ph) (w', ph)
  | step_schedule now limit w ph r w' :
      enqueue_due_feed_syncs now limit w = (r, w') → step (w, ph) (w', ph)
  | step_accounts ts us w ph :
      step (w, ph) (w <| w_db := w_db w <| tenants := ts |> <| users := us |> |>, ph)
  | step_tick t w ph : clock (w_db w) <= t → step (w, ph) (w <| w_db := w_db w <| clock := t |> |>, ph)
  | step_redis up queue w ph :
      step (w, ph) (w <| w_redis_up := up |> <| w_queue := queue |>, ph).

Definition initial (x : World * phase) : Prop :=
  w_db x.1 = empty_db ∧ w_applied x.1 = [] ∧ x.2 = Idle.
Definition reachable (x : World * phase) : Prop := ∃ x0, initial x0 ∧ rtc step x0 x.

(** ** The invariant *)

(** [accepted] is what is known of the snapshots the helper acknowledges. *)
Context (accepted : list Z → Prop).
Hypothesis helper_accepts : ∀ w bytes out err,
  xdpgw_apply w bytes = Exited 0 out err → accepted bytes.

Definition owed (w : World) (ph : phase) : Prop :=
  match ph with
  | Idle | Claimed _ | Applied _ (Some _) => True
  | Sending id payload =>
      ∃ d0, serialize_node_snapshot (load_node_config d0) = inr payload ∧
        sys_ok sha256 d0 ∧ fresh_ok d0 ∧ is_Some (agent_job d0 !! id) ∧ evolves d0 (w_db w)
  | Applied id None =>
      (id < uuid_supply (w_db w))%positive ∧
      ∀ j sid svc, agent_job (w_db w) !! id = Some j → job_target j = TargetService sid →
        protected_service (w_db w) !! sid = Some svc → job_version j = svc_version svc →
        enforced w sid
  end.

Record inv (x : World * phase) : Prop := {
  inv_sys : sys_ok sha256 (w_db x.1);
  inv_fresh : fresh_ok (w_db x.1);
  inv_active : ∀ sid svc, protected_service (w_db x.1) !! sid = Some svc →
    svc_apply_status svc = ApplyStatus.active → enforced x.1 sid;
  inv_owed : owed x.1 x.2;
  inv_accepted : Forall accepted (w_applied x.1)
}.

Lemma enforced_move w w' sid :
  w_applied w' = w_applied w → content (w_db w') sid = content (w_db w) sid →
  enforced w sid → enforced w' sid.
Proof.
  intros Ea Ec (d0 & b & o & H1 & H2 & H3 & H4). exists d0, b, o. by rewrite Ea, Ec.
Qed.

(** A job's service is there, at least as far as the job. *)
Lemma job_service d id j sid :
  sys_ok sha256 d → agent_job d !! id = Some j → job_target j = TargetService sid →
  ∃ s, protected_service d !! sid = Some s ∧ job_version j <= svc_version s.
Proof. intros [[[Hl _] _] _] Hj Ht. exact (li_target _ _ Hl id j sid (conj Hj Ht)). Qed.

(** Across an evolution, a job at its service's version saw the content of now. *)
Lemma evolved_job d d' id j' sid svc' :
  sys_ok sha256 d → evolves d d' → (id < uuid_supply d)%positive →
  agent_job d' !! id = Some j' → job_target j' = TargetService sid →
  protected_service d' !! sid = Some svc' → job_version j' = svc_version svc' →
  ∃ j svc, agent_job d !! id = Some j ∧ job_target j = TargetService sid ∧
    protected_service d !! sid = Some svc ∧ job_version j = svc_version svc ∧
    content d' sid = content d sid.
Proof.
  intros Hok He Hlt Hj' Ht Hs' Hv. destruct (ev_job _ _ He id j' Hj' Hlt) as (j & Hj & Et & Ev).
  destruct (job_service d id j sid Hok Hj) as (svc & Hs & Hle); [congruence|].
  destruct (ev_service _ _ He sid svc svc' Hs Hs') as (Hmono & Hcont & _).
  exists j, svc. split_and!; [done|congruence|done|lia|]. apply Hcont. lia.
Qed.

(** An active service was active with the same content. *)
Lemma evolved_active d d' sid svc' :
  evolves d d' → protected_service d' !! sid = Some svc' →
  svc_apply_status svc' = ApplyStatus.active →
  ∃ svc, protected_service d !! sid = Some svc ∧ svc_apply_status svc = ApplyStatus.active ∧
    content d' sid = content d sid.
Proof.
  intros He Hs' Ha. destruct (protected_service d !! sid) as [svc|] eqn:Hs.
  - destruct (ev_service _ _ He sid svc svc' Hs Hs') as (_ & Hc & Hact).
    destruct (Hact Ha) as [? ?]. eauto.
  - by destruct (ev_new _ _ He sid svc' Hs' Hs).
Qed.

(** Whatever evolves the tables and leaves the acknowledged snapshots alone
    keeps the invariant, in any phase. *)
Lemma inv_wstep w w' ph : inv (w, ph) → wstep sha256 w w' → inv (w', ph).
Proof.
  intros [Hsys Hf Hact Howed Hacc] [Hm Ea]. destruct (Hm Hsys Hf) as [Hsys' He]. simpl in *.
  split; simpl; [done|by eapply ev_fresh| | |by rewrite Ea].
  - intros sid svc' Hs' Ha. destruct (evolved_active _ _ _ _ He Hs' Ha) as (svc & Hs & Ha0 & Hc).
    eapply enforced_move; [done|done|by eapply Hact].
  - destruct ph as [| |id payload|id [e|]]; try done.
    + destruct Howed as (d0 & H1 & H2 & H3 & H4 & H5). exists d0. split_and!; try done.
      by eapply evolves_trans.
    + destruct Howed as [Hlt Hen]. split; [pose proof (ev_supply _ _ He); lia|].
      intros j' sid svc' Hj' Ht Hs' Hv.
      destruct (evolved_job _ _ _ _ _ _ Hsys He Hlt Hj' Ht Hs' Hv)
        as (j & svc & Hj & Ht0 & Hs & Hv0 & Hc).
      eapply enforced_move; [done|done|by eapply Hen].
Qed.

Lemma inv_idle w ph : inv (w, ph) → inv (w, Idle).
Proof. intros [? ? ? ? ?]. by split. Qed.

(** ** The worker's steps *)

Lemma run_helper_cases payload w r w' :
  (run_helper xdpgw_apply payload ;; mret true) w = (r, w') →
  (r = inr true ∧ accepted payload ∧ w' = w <| w_applied := payload :: w_applied w |>) ∨
  (∃ e, r = inl (ApplyError e) ∧ w' = w).
Proof.
  unfold run_helper, gets, mbind, M_bind, apply_error, raise, mret, M_ret, modS.
  pose proof (helper_accepts w payload) as Hacc.
  destruct (xdpgw_apply w payload) as [| |[] ? ?]; simpl; intros [= <- <-]; eauto 6.
Qed.

Lemma inv_sent id payload w :
  accepted payload → inv (w, Sending id payload) →
  inv (w <| w_applied := payload :: w_applied w |>, Applied id None).
Proof.
  intros Hp [Hsys Hf Hact (d0 & Hser & Hok0 & Hf0 & Hj0 & He) Hacc]. simpl in *.
  assert (∀ sid, content (w_db w) sid = content d0 sid →
    enforced (w <| w_applied := payload :: w_applied w |>) sid) as Hen.
  { intros sid Hc. exists d0, payload, (w_applied w). split_and!; try done. apply Hok0. }
  split; simpl; [done..| | |by constructor].
  - intros sid svc Hs Ha. destruct (evolved_active _ _ _ _ He Hs Ha) as (? & _ & _ & Hc). auto.
  - pose proof (proj1 Hf0 id Hj0) as Hlt. split; [pose proof (ev_supply _ _ He); lia|].
    intros j sid svc Hj Ht Hs Hv.
    destruct (evolved_job _ _ _ _ _ _ Hok0 He Hlt Hj Ht Hs Hv) as (? & ? & _ & _ & _ & _ & Hc).
    auto.
Qed.

Lemma inv_send id payload w r w' :
  (run_helper xdpgw_apply payload ;; mret true) w = (r, w') →
  inv (w, Sending id payload) → inv (w', after id r).
Proof.
  intros H Hinv. apply run_helper_cases in H as [(-> & Hp & ->)|(e & -> & ->)]; [by apply inv_sent|].
  simpl. destruct Hinv. by split.
Qed.

Lemma inv_load id w payload :
  prepare id (w_db w) = Some payload → inv (w, Claimed id) → inv (w, Sending id payload).
Proof.
  intros Hp [Hsys Hf Hact _ Hacc]. split; try done. simpl in *. exists (w_db w).
  unfold prepare in Hp. destruct (agent_job (w_db w) !! id) as [job|]; [|done].
  destruct (job_target job); try done. destruct (load_service_config _ _); [|done].
  destruct (serialize_node_snapshot _) as [e|bs] eqn:Es; [done|]. injection Hp as <-.
  split_and!; [done..|by eexists|by apply evolves_refl].
Qed.

(** A transaction that only reads. *)
Lemma scope_read {A} (m : M Session A) w r :
  m (new_session (w_db w)) = (r, new_session (w_db w)) → session_scope m w = (r, w).
Proof.
  intros H. unfold session_scope. rewrite H. destruct r as [e|a].
  - unfold rollback, new_session. simpl. rewrite Pos.max_id, Z.max_id. by destruct w as [[] ? ? ? ?].
  - by destruct w.
Qed.

(** A transaction that commits without callbacks. *)
Lemma scope_commit {A} (m : M Session A) w a d :
  m (new_session (w_db w)) = (inr a, new_session d) →
  session_scope m w = (inr a, w <| w_db := d |>).
Proof. intros H. unfold session_scope. by rewrite H. Qed.

(** What [run_handler] finds under an identifier. *)
Lemma run_handler_found id w :
  handler id w =
  match agent_job (w_db w) !! id with
  | None => (inr false, w)
  | Some job =>
      ((match job_type job with
        | JobType.service_update => handle_service_update (DoubleBufferApplier xdpgw_apply)
        | JobType.feed_sync => handle_feed_sync sha256 xdpgw_apply fetch_source
        | JobType.global_deny_apply => handle_global_deny_apply sha256 xdpgw_apply
        end) job ;; mret true) w
  end.
Proof.
  unfold run_handler. unfold mbind at 1, M_bind at 1.
  destruct (agent_job (w_db w) !! id) as [job|] eqn:Hj.
  - rewrite (scope_read _ w (inr (Some (job, match job_type job with
      | JobType.service_update => handle_service_update (DoubleBufferApplier xdpgw_apply)
      | JobType.feed_sync => handle_feed_sync sha256 xdpgw_apply fetch_source
      | JobType.global_deny_apply => handle_global_deny_apply sha256 xdpgw_apply
      end)))); [done|].
    unfold get_db. mstep. simpl. rewrite Hj. done.
  - rewrite (scope_read _ w (inr None)); [done|]. unfold get_db. mstep. simpl. by rewrite Hj.
Qed.

(** The handler of a service job: what [prepare] and [run_helper] say. *)
Lemma handle_service_split id job sid w :
  agent_job (w_db w) !! id = Some job → job_target job = TargetService sid →
  match prepare id (w_db w) with
  | Some payload =>
      handle_service_update (DoubleBufferApplier xdpgw_apply) job w = run_helper xdpgw_apply payload w
  | None => ∃ e, handle_service_update (DoubleBufferApplier xdpgw_apply) job w = (inl e, w)
  end.
Proof.
  intros Hj Ht.
  assert (handle_service_update (DoubleBufferApplier xdpgw_apply) job w =
    match load_service_config (w_db w) sid with
    | None => (inl (RuntimeError "service missing"), w)
    | Some cfg => double_buffer_apply xdpgw_apply cfg w
    end) as ->.
  { unfold handle_service_update. rewrite Ht. unfold mbind at 1, M_bind at 1.
    rewrite (scope_read _ w (inr (load_service_config (w_db w) sid))) by done.
    by destruct (load_service_config (w_db w) sid). }
  unfold prepare. rewrite Hj, Ht. destruct (load_service_config (w_db w) sid) as [cfg|]; [|eauto].
  unfold double_buffer_apply. mstep. unfold mbind, M_bind, lift.
  destruct (serialize_node_snapshot _) as [e|bs]; eauto.
Qed.

Lemma inv_handle id w r w' :
  prepare id (w_db w) = None → handler id w = (r, w') → inv (w, Claimed id) →
  inv (w', after id r).
Proof.
  intros Hp H Hinv. rewrite run_handler_found in H.
  destruct (agent_job (w_db w) !! id) as [job|] eqn:Hj.
  2: { injection H as <- <-. by eapply inv_idle. }
  pose proof (sys_job_id _ _ _ _ (inv_sys _ Hinv) Hj) as Hid. subst id.
  destruct (job_target job) as [sid| |] eqn:Ht.
  { assert (job_type job = JobType.service_update) as Etype by (unfold job_type; by rewrite Ht).
    pose proof (handle_service_split _ job sid w Hj Ht) as Hs. rewrite Hp in Hs.
    destruct Hs as [e Hs]. rewrite Etype in H. unfold mbind, M_bind in H. rewrite Hs in H.
    injection H as <- <-. simpl. destruct (is_sqlalchemy_error e); [by eapply inv_idle|].
    destruct Hinv. by split. }
  all: assert (feed_job (w_db w) (job_id job)) as Hfj
    by (split; [apply (proj1 (inv_fresh _ Hinv)); by eexists|];
        intros j sid Hj'; simplify_eq; congruence).
  all: assert (wstep sha256 w w') as Hst
    by (unfold job_type in H; rewrite Ht in H; unfold mbind, M_bind in H; destruct Hinv;
        match type of H with context [match ?m with _ => _ end] =>
          destruct m as [[?|?] ?] eqn:E end; injection H as <- <-;
        [first [by eapply (handle_feed_jkeeps sha256) | by eapply (handle_global_wkeeps sha256)]..]).
  all: pose proof (inv_wstep _ _ _ Hinv Hst) as Hinv';
    destruct (jstep_next _ _ _ _ (inv_sys _ Hinv) (inv_fresh _ Hinv) Hfj Hst) as (_ & _ & [Hlt Hns]);
    destruct Hinv' as [H1 H2 H3 _ H5]; destruct r as [e|[]]; simpl;
    [destruct (is_sqlalchemy_error e); by split| |by split].
  all: split; try done; split; [done|]; intros j sid svc Hj' Ht'; by destruct (Hns j sid Hj').
Qed.

(** ** The final mark *)

Lemma inv_scope {A} (m : M Session A) w ph r w' :
  inv (w, ph) →
  (∀ a s', m (new_session (w_db w)) = (inr a, s') → inv (w <| w_db := db s' |>, ph)) →
  session_scope m w = (r, w') → inv (w', ph).
Proof.
  intros Hinv Hm H. unfold session_scope in H.
  destruct (m (new_session (w_db w))) as [[e|a] s'] eqn:E; injection H as <- <-.
  - eapply inv_wstep; [exact Hinv|]. split; [apply rollback_moves|done].
  - eapply inv_wstep; [by eapply Hm|apply callbacks_wstep].
Qed.

(** Marking the service of an acknowledged job active. *)
Lemma inv_mark_active id w s' u :
  inv (w, Applied id None) → mark_active id (new_session (w_db w)) = (inr u, s') →
  inv (w <| w_db := db s' |>, Applied id None).
Proof.
  intros [Hsys Hf Hact [Hlt Hen] Hacc] H. simpl in *. pose proof (proj1 Hsys) as Hgw.
  pose proof (mark_active_keeps id (new_session (w_db w)) u s' (proj1 Hgw) H) as Hap.
  apply mark_active_marked in H as Hst; [|apply Hgw]. apply marked_step in Hst.
  pose proof (ledger_step_gw _ (w_db w) (db s') Hgw Hap Hst) as Hgw'.
  pose proof (ledger_step_same _ _ _ Hst) as Hds.
  destruct Hst as (ps & aj & E & Hs & Hj & Ha). cbn [db new_session] in E, Hs, Hj, Ha.
  assert (∀ i, content (db s') i = content (w_db w) i) as Hc.
  { intros i. rewrite E. apply content_static; [by simpl|done..]. }
  assert (∀ sid, enforced w sid → enforced (w <| w_db := db s' |>) sid) as Hmv.
  { intros sid. by apply enforced_move. }
  split; simpl; [| | | |done].
  - split; [done|]. eapply deny_ok_same; [exact Hds|apply Hsys].
  - rewrite E. destruct Hf as [Fj Fs]. split; simpl; intros i Hi.
    + apply Fj. specialize (Hj i). destruct Hi as [x Hx]. rewrite Hx in Hj.
      destruct (agent_job (w_db w) !! i); [by eexists|done].
    + apply Fs. specialize (Hs i). destruct Hi as [x Hx]. rewrite Hx in Hs.
      destruct (protected_service (w_db w) !! i); [by eexists|done].
  - intros sid svc' Hs' Hact'. rewrite E in Hs'. simpl in Hs'. apply (Hmv sid).
    pose proof (Hs sid) as Hsid.
    rewrite Hs' in Hsid. destruct (protected_service (w_db w) !! sid) as [svc|] eqn:Hsvc; [|done].
    destruct (Ha sid svc svc' Hsvc Hs' Hact') as [?|(_ & j & svc0 & Hj0 & Ht & Hs0 & Hv)];
      [by eapply Hact|by eapply Hen].
  - split; [by rewrite E|]. intros j' sid svc' Hj' Ht Hs' Hv. rewrite E in Hs', Hj'.
    simpl in Hs', Hj'. apply (Hmv sid).
    pose proof (Hs sid) as Hsid. rewrite Hs' in Hsid. specialize (Hj id). rewrite Hj' in Hj.
    destruct (protected_service (w_db w) !! sid) as [svc|] eqn:Hsvc; [|done].
    destruct (agent_job (w_db w) !! id) as [j|] eqn:Hjob; [|done].
    injection Hj as Et Ev. injection Hsid as Hsid. unfold static in Hsid.
    eapply Hen; [done|congruence|done|congruence].
Qed.

Lemma inv_mark_once id error w r w' :
  inv (w, Applied id error) → mark_once id error w = (r, w') → inv (w', Applied id error).
Proof.
  intros Hinv H. destruct error as [e|].
  { eapply inv_wstep; [exact Hinv|]. by eapply mark_fail_wkeeps. }
  eapply inv_scope; [exact Hinv| |exact H]. clear H. intros a s' H.
  unfold get_db in H. rewrite run_gets in H. cbn [db new_session] in H.
  destruct (agent_job (w_db w) !! id) as [job|] eqn:Hj.
  2: { minv. by destruct w. }
  pose proof (sys_job_id _ _ _ _ (inv_sys _ Hinv) Hj) as Hid. subst id.
  destruct (decide (job_type job = JobType.service_update)) as [Ht|Ht].
  - rewrite Ht in H. simpl in H. by eapply inv_mark_active.
  - eapply inv_wstep; [exact Hinv|]. split; [|done].
    eapply lc_succeed_moves in H; [exact H|exact Hj|done].
Qed.

Lemma inv_mark_attempts down id error todo attempt w r w' :
  inv (w, Applied id error) → mark_attempts down todo attempt id error w = (r, w') →
  inv (w', Applied id error).
Proof.
  revert attempt w. induction todo as [|todo IH]; intros attempt w Hinv H.
  - by injection H as <- <-.
  - cbn [mark_attempts] in H. unfold try_except in H.
    match type of H with (let (_, _) := ?m in _) = _ => destruct m as [[e|a] w1] eqn:E end.
    + assert (inv (w1, Applied id error)) as Hinv1.
      { destruct (down attempt); [by injection E as <- <-|by eapply inv_mark_once]. }
      destruct e; try (by injection H as <- <-).
      destruct (_ =? _)%nat; [by injection H as <- <-|by eapply IH].
    + injection H as <- <-. destruct (down attempt); [done|by eapply inv_mark_once].
Qed.

(** ** All steps *)

Lemma schedule_wkeeps now limit : wkeeps sha256 (enqueue_due_feed_syncs now limit).
Proof.
  apply scope_wkeeps. respects_auto; [apply enqueue_all_moves|apply convergence_moves].
Qed.

Lemma inv_db w d' ph : inv (w, ph) → moves sha256 (w_db w) d' → inv (w <| w_db := d' |>, ph).
Proof. intros Hinv Hm. by eapply inv_wstep. Qed.

Lemma step_inv x y : step x y → inv x → inv y.
Proof.
  intros Hstep Hinv. destruct Hstep.
  - eapply inv_wstep; [done|]. by eapply serve_wkeeps.
  - apply (inv_wstep _ w') in Hinv; [|by eapply claim_job_wkeeps]. destruct Hinv. by split.
  - eapply inv_wstep; [done|]. by eapply claim_job_wkeeps.
  - by apply inv_load.
  - by eapply inv_send.
  - by eapply inv_handle.
  - eapply inv_idle. by eapply inv_mark_attempts.
  - by eapply inv_idle.
  - eapply inv_wstep; [done|]. by eapply recover_once_wkeeps.
  - eapply inv_wstep; [done|]. destruct Hinv. by eapply (complete_fetch_jkeeps sha256).
  - eapply inv_wstep; [done|]. by eapply schedule_wkeeps.
  - apply inv_db; [done|]. by apply moves_unseen.
  - apply inv_db; [done|]. by apply moves_unseen.
  - destruct Hinv as [H1 H2 H3 H4 H5]. by split.
Qed.

Ltac no_rows :=
  simpl in *; intros; simpl in *; destruct_and?;
  match goal with H : ∅ !! _ = Some _ |- _ => by rewrite lookup_empty in H end.

Lemma empty_db_ok : sys_ok sha256 empty_db ∧ fresh_ok empty_db.
Proof.
  assert (apply_ok empty_db) by (split; [split|]; unfold service_job; no_rows).
  assert (iso_ok empty_db).
  { unfold iso_ok. replace (dests empty_db) with (∅ : gmap uuid (uuid * ipv4net)) by done.
    split; no_rows. }
  assert (config_ok empty_db).
  { split; try no_rows; [intros sid; split; intros [? ?]; no_rows|].
    intros sid. unfold rules_of, MAX_RULES_PER_SERVICE, select_where, rows. simpl.
    rewrite map_to_list_empty. simpl. lia. }
  assert (bl_ok empty_db) by (split; no_rows).
  split; [split; [by split_and!|split_and!; [done|intros i e; no_rows|done]]|].
  split; simpl; intros i [? ?]; no_rows.
Qed.

Lemma reachable_inv x : reachable x → inv x.
Proof.
  intros (x0 & (Hdb & Ha & Hph) & Hsteps). assert (inv x0) as H0.
  { destruct x0 as [w ph]. simpl in *. subst ph. destruct empty_db_ok as [H1 H2].
    split; simpl; rewrite ?Hdb, ?Ha; done. }
  clear Hdb Ha Hph. induction Hsteps as [|x y z Hs _ IH]; [done|]. apply IH. by eapply step_inv.
Qed.

(** ** The worker's functions as sequences of steps *)

Abbreviation process := (process_job sha256 xdpgw_apply fetch_source
                           (DoubleBufferApplier xdpgw_apply)).

Lemma handler_steps id w r w' :
  handler id w = (r, w') → rtc step (w, Claimed id) (w', after id r).
Proof.
  intros H. destruct (prepare id (w_db w)) as [payload|] eqn:Hp.
  - eapply rtc_l; [by apply step_load|]. apply rtc_once, step_send. rewrite <- H, run_handler_found.
    destruct (agent_job (w_db w) !! id) as [job|] eqn:Hj; [|by unfold prepare in Hp; rewrite Hj in Hp].
    destruct (job_target job) as [sid| |] eqn:Ht;
      [|by unfold prepare in Hp; rewrite Hj, Ht in Hp..].
    assert (job_type job = JobType.service_update) as -> by (unfold job_type; by rewrite Ht).
    pose proof (handle_service_split id job sid w Hj Ht) as Hs. rewrite Hp in Hs.
    unfold mbind, M_bind. by rewrite Hs.
  - apply rtc_once. by apply step_handle.
Qed.

Lemma process_steps down id w r w' :
  process down id w = (r, w') → rtc step (w, Idle) (w', Idle).
Proof.
  intros H. unfold process_job in H. unfold mbind at 1, M_bind at 1 in H.
  destruct (claim_job id w) as [[e|[job|]] w1] eqn:Hc.
  - injection H as <- <-. apply rtc_once. by eapply step_skip.
  - eapply rtc_l; [by eapply step_claim|]. unfold mbind at 1, M_bind at 1 in H.
    unfold try_except in H. unfold mbind at 1, M_bind at 1 in H.
    destruct (handler id w1) as [rh w2] eqn:Hh. apply handler_steps in Hh.
    etrans; [exact Hh|]. unfold raise, mret, M_ret in H. destruct rh as [e|present]; simpl.
    + destruct (is_sqlalchemy_error e); [by injection H as <- <-|].
      apply rtc_once. by eapply step_mark.
    + destruct present; [apply rtc_once; by eapply step_mark|by injection H as <- <-].
  - injection H as <- <-. apply rtc_once. by eapply step_skip.
Qed.

Lemma process_each_steps down ids w r w' :
  for_each (process down) ids w = (r, w') → rtc step (w, Idle) (w', Idle).
Proof.
  revert w. induction ids as [|id ids IH]; intros w H; simpl in H; [by injection H as <- <-|].
  unfold mbind, M_bind in H. destruct (process down id w) as [[e|u] w1] eqn:E.
  - injection H as <- <-. by eapply process_steps.
  - etrans; [by eapply process_steps|by apply IH].
Qed.

Lemma recover_all_steps ids n w r w' :
  recover_all ids n w = (r, w') → rtc step (w, Idle) (w', Idle).
Proof.
  revert n w. induction ids as [|id ids IH]; intros n w H; simpl in H; [by injection H as <- <-|].
  unfold mbind, M_bind in H. destruct (recover_once id w) as [[e|b] w1] eqn:E.
  - injection H as <- <-. apply rtc_once. by eapply step_recover.
  - eapply rtc_l; [by eapply step_recover|by eapply IH].
Qed.

Lemma reconcile_once_steps down orphans exclude w r w' :
  reconcile_once sha256 xdpgw_apply fetch_source (DoubleBufferApplier xdpgw_apply)
    down orphans exclude w = (r, w') → rtc step (w, Idle) (w', Idle).
Proof.
  intros H. unfold reconcile_once in H. rewrite run_gets in H. unfold mbind at 1, M_bind at 1 in H.
  match type of H with (let (_, _) := ?m in _) = _ => destruct m as [[e|u] w1] eqn:E end.
  - injection H as <- <-. by eapply process_each_steps.
  - etrans; [by eapply process_each_steps|]. destruct (negb orphans).
    + by injection H as <- <-.
    + rewrite run_gets in H. by eapply recover_all_steps.
Qed.
End system.
