(* ===== verification/LedgerInv.v ===== *)
(** * The ledger of runs in every reachable state

    The worker, the feed runner and the schedule keep [FeedLedger.feed_ok]
    through every transaction they commit or roll back. *)

From S2P Require Import Prelude PyStr Ipaddress RuleMatch Models Db.
From S2P Require Import Apply ApplyInv Allocations Services Isolation Rules.
From S2P Require Import ServicesInv FeedParser FeedReconcile FeedInv Lists ListsInv.
From S2P Require Import NodeControl FeedJobs Feeds Evolution WorkerInv ApiInv.
From S2P Require Import Applier FeedRunner Processor WorldInv Api.
From S2P Require Import System FeedLedger LedgerOps.
Open Scope Z_scope.

Definition keeps_feed {A} (m : M World A) : Prop :=
  ∀ w r w', m w = (r, w') → feed_moves (w_db w) (w_db w').

Lemma kfeed_bind {A B} (m : M World A) (k : A → M World B) :
  keeps_feed m → (∀ a, keeps_feed (k a)) → keeps_feed (m ≫= k).
Proof.
  intros Hm Hk w r w' H. rewrite bind_run in H. destruct (m w) as [[e|a] w1] eqn:E.
  - injection H as <- <-. by eapply Hm.
  - etrans; [by eapply Hm|by eapply Hk].
Qed.

Lemma kfeed_try {A} (m : M World A) h :
  keeps_feed m → (∀ e, keeps_feed (h e)) → keeps_feed (try_except m h).
Proof.
  intros Hm Hk w r w' H. unfold try_except in H. destruct (m w) as [[e|a] w1] eqn:E.
  - etrans; [by eapply Hm|by eapply Hk].
  - injection H as <- <-. by eapply Hm.
Qed.

(** A computation that leaves the tables alone. *)
Lemma kfeed_db {A} (m : M World A) : (∀ w, w_db (m w).2 = w_db w) → keeps_feed m.
Proof. intros Hm w r w' H. specialize (Hm w). rewrite H in Hm. simpl in Hm. by rewrite Hm. Qed.

Lemma dispatched_feed d job : feed_moves d (mark_dispatched d job).
Proof.
  intros H. pose proof H as H0. revert H. apply feed_moves_view.
  - intros i j Hj. rewrite mark_dispatched_lookup in Hj. apply fmap_Some in Hj as (j0 & Hj0 & ->).
    rewrite <- (fo_job_id _ H0 _ _ Hj0). by case_match.
  - apply H0.
  - done.
  - intros i j Hj _. rewrite mark_dispatched_lookup in Hj. apply fmap_Some in Hj as (j0 & Hj0 & ->).
    exists j0. split; [done|]. by case_match.
  - intros i j Hj _. rewrite mark_dispatched_lookup, Hj. eexists. split; [reflexivity|]. by case_match.
  - done.
  - intros _ i r s Hr Ht Hs. destruct (fo_run _ H0 _ _ Hr) as (x & Hx & _ & Hd). simpl in Hs. simplify_eq. auto.
Qed.

Lemma callbacks_feed cbs w : feed_moves (w_db w) (w_db (run_post_commit_callbacks cbs w)).
Proof.
  revert w. induction cbs as [|c cbs IH]; intros w; [done|].
  change (run_post_commit_callbacks (c :: cbs) w) with
    (run_post_commit_callbacks cbs (dispatch w (callback_job c))).
  etrans; [|apply IH]. unfold dispatch. destruct (w_redis_up w); [|done]. apply dispatched_feed.
Qed.

Lemma kfeed_scope {A} (m : M Session A) : respects feed_moves m → keeps_feed (session_scope m).
Proof.
  intros Hm w r w' H. unfold session_scope in H.
  destruct (m (new_session (w_db w))) as [[e|a] s] eqn:E; injection H as <- <-.
  - by apply feed_moves_same.
  - apply Hm in E. etrans; [exact E|]. exact (callbacks_feed (post_commit_callbacks s) (w <| w_db := db s |>)).
Qed.

#[local] Hint Resolve retry_feed convergence_feed reconcile_feed feed_succeed_feed feed_fail_feed : ledger.

Ltac kfeed_step :=
  match goal with
  | |- keeps_feed _ => solve [eauto 1 with ledger]
  | H : keeps_feed _ |- keeps_feed _ => exact H
  | H : ∀ _, keeps_feed _ |- keeps_feed _ => apply H
  | |- keeps_feed (session_scope _) => apply kfeed_scope; solve [ledger_auto]
  | |- keeps_feed (_ ≫= _) => apply kfeed_bind; [|intros ?]
  | |- keeps_feed (mret _) => by apply kfeed_db
  | |- keeps_feed (raise _) => by apply kfeed_db
  | |- keeps_feed (gets _) => by apply kfeed_db
  | |- keeps_feed (lift _) => by apply kfeed_db
  | |- keeps_feed (modS _) => by apply kfeed_db
  | |- keeps_feed (try_except _ _) => apply kfeed_try; [|intros ?]
  | |- keeps_feed (match ?x with _ => _ end) => destruct x
  | |- keeps_feed (let _ := _ in _) => cbv zeta
  | |- keeps_feed ?m => let h := head_of m in unfold h
  end.
Ltac kfeed_auto := repeat kfeed_step.

(** ** The worker *)

(** A transaction that looks up its job first. *)
Lemma kfeed_job {A} id (none : A) (k : AgentJob → M Session A) :
  (∀ s job a s', agent_job (db s) !! job_id job = Some job → k job s = (inr a, s') →
     feed_moves (db s) (db s')) →
  keeps_feed (session_scope (jobs ← get_db agent_job;
                             match jobs !! id with None => mret none | Some job => k job end)).
Proof.
  intros Hk. apply kfeed_scope. intros s a s' H Hok. revert H. unfold get_db. rewrite run_gets. intros H.
  destruct (agent_job (db s) !! id) as [job|] eqn:Hj; [|by apply ret_inr in H as [_ ->]].
  eapply Hk; [|exact H|done]. by rewrite (fo_job_id _ Hok _ _ Hj).
Qed.

Lemma mark_once_feed id error : keeps_feed (mark_once id error).
Proof.
  apply kfeed_job. intros s job a s' Hj H. cbv zeta in H. destruct error.
  - by eapply lc_fail_feed.
  - by eapply lc_succeed_feed.
Qed.

Lemma mark_terminal_feed down id error : keeps_feed (_mark_terminal down id error).
Proof.
  pose proof (mark_once_feed id error) as Hm. unfold _mark_terminal. generalize 0%nat as k.
  induction TERMINAL_MARK_ATTEMPTS as [|n IH]; intros k; cbn [mark_attempts]; kfeed_auto.
Qed.

Lemma claim_job_feed id : keeps_feed (claim_job id).
Proof.
  apply kfeed_job. intros s job a s' Hj H. apply bind_inr in H as (held & s1 & H1 & H).
  assert (feed_moves (db s) (db s1) ∧ agent_job (db s1) = agent_job (db s)) as [Hm Ej].
  { case_bool_decide; [|by minv]. unfold maintenance_active in H1. minv.
    match goal with H : get_node_control _ = _ |- _ => rewrite get_node_control_run in H end.
    simplify_eq. split; [by apply feed_moves_same|done]. }
  etrans; [exact Hm|]. destruct held; [by minv|]. apply bind_inr in H as (p & s2 & H2 & H).
  apply lc_claim_feed in H2; [|by rewrite Ej]. etrans; [exact H2|]. unfold get_db in H. by minv.
Qed.

Lemma recover_once_feed id : keeps_feed (recover_once id).
Proof.
  apply kfeed_job. intros s job a s' Hj H.
  destruct (has_status _ _) eqn:Ha; [|by apply ret_inr in H as [_ ->]].
  apply bool_decide_eq_true in Ha. apply bind_inr in H as (? & s1 & H & [_ ->]%ret_inr).
  by eapply lc_recover_feed.
Qed.

(** ** The feed runner *)

Section runner.
Context (sha256 : pystr → string) (capacity : Decimal) (ncpus : Z).
Context (xdpgw_apply : World → list Z → HelperOutcome).
Context (fetch_source : World → ThreatFeedSource → exn + list Z).

Lemma reconcile_kfeed rid parsed : keeps_feed (_reconcile sha256 rid parsed).
Proof.
  apply kfeed_scope. intros s a s' H Hok. unfold get_db in H. rewrite run_gets in H.
  apply bind_inr in H as (run & s1 & [Hr ->]%get_or_raise_inr & H). cbv zeta in H.
  apply bind_inr in H as (? & s1 & H1 & H). unfold put_run, mod_db in H1. apply modS_inr in H1 as ->.
  pose proof (fo_run_id _ Hok _ _ Hr) as Hid.
  assert (feed_ok (db (s <| db := db s <| feed_sync_run := alter (fun r =>
    r <| run_fetched_lines := Z.of_nat (physical_line_count parsed) |>) rid (feed_sync_run (db s)) |> |>))) as Hok1.
  { eapply feed_moves_stats; [..|exact Hok]; [done|done|reflexivity|done]. }
  assert (alter (fun r => r <| run_fetched_lines := Z.of_nat (physical_line_count parsed) |>) rid
    (feed_sync_run (db s)) = <[run_id run := run <| run_fetched_lines := Z.of_nat (physical_line_count parsed) |>]>
    (feed_sync_run (db s))) as Ea.
  { apply map_eq. intros i. rewrite Hid. destruct (decide (rid = i)) as [->|Hne].
    - by rewrite lookup_alter_eq, lookup_insert_eq, Hr.
    - by rewrite lookup_alter_ne, lookup_insert_ne. }
  rewrite Ea in Hok1. revert Hok1. revert H. 
  match goal with |- ?m ?s0 = _ → _ => assert (respects feed_moves m) as Hm by ledger_auto end. apply Hm.
Qed.

Lemma converge_kfeed expected : keeps_feed (_converge_desired_revision sha256 xdpgw_apply expected).
Proof. kfeed_auto. Qed.

Lemma finish_feed_kfeed id o v : keeps_feed (_finish_feed id o v).
Proof. apply kfeed_scope. cbn [lc_succeed JOB_LIFECYCLES]. ledger_auto. Qed.
Lemma fail_feed_kfeed id e : keeps_feed (_fail_feed id e).
Proof. apply kfeed_scope. cbn [lc_fail JOB_LIFECYCLES]. ledger_auto. Qed.
#[local] Hint Resolve reconcile_kfeed converge_kfeed finish_feed_kfeed fail_feed_kfeed : ledger.

Lemma complete_fetch_kfeed job fetched : keeps_feed (complete_feed_fetch sha256 xdpgw_apply job fetched).
Proof. kfeed_auto. Qed.
#[local] Hint Resolve complete_fetch_kfeed : ledger.

Lemma handler_kfeed id :
  keeps_feed (run_handler sha256 xdpgw_apply fetch_source (DoubleBufferApplier xdpgw_apply) id).
Proof.
  intros w r w' H. rewrite run_handler_found in H.
  destruct (agent_job (w_db w) !! id) as [job|]; [|by injection H as <- <-]. revert H.
  match goal with |- ?m w = _ → _ => assert (keeps_feed m) as Hm end; [|apply Hm].
  apply kfeed_bind; [|intros ?; by apply kfeed_db]. destruct (job_type job); [|kfeed_auto..].
  unfold handle_service_update. kfeed_auto. apply kfeed_db. apply double_buffer_db.
Qed.

Lemma serve_kfeed session r : keeps_feed (serve sha256 capacity ncpus session r).
Proof.
  apply kfeed_scope. apply respects_bind; [apply _|apply resolve_feed|]. intros p. apply route_feed.
Qed.

Lemma schedule_kfeed now limit : keeps_feed (enqueue_due_feed_syncs now limit).
Proof.
  apply kfeed_scope. pose proof enqueue_all_feed. ledger_auto.
Qed.

(** ** All steps *)

Lemma step_feed x y :
  step sha256 capacity ncpus xdpgw_apply fetch_source x y → feed_moves (w_db x.1) (w_db y.1).
Proof.
  intros Hs. destruct Hs; simpl; try done.
  - by eapply serve_kfeed.
  - by eapply claim_job_feed.
  - by eapply claim_job_feed.
  - eapply (kfeed_db (run_helper xdpgw_apply payload ;; mret true)); [|done]. intros w0.
    unfold run_helper, gets, mbind, M_bind. by destruct (xdpgw_apply w0 payload) as [| |[] ? ?].
  - by eapply handler_kfeed.
  - by eapply mark_terminal_feed.
  - by eapply recover_once_feed.
  - by eapply complete_fetch_kfeed.
  - by eapply schedule_kfeed.
  - by apply feed_moves_same.
  - by apply feed_moves_same.
Qed.

Lemma empty_feed : feed_ok empty_db.
Proof.
  split; simpl; intros;
    repeat match goal with H : ∅ !! _ = Some _ |- _ => by rewrite lookup_empty in H end.
Qed.

Lemma reachable_feed x :
  reachable sha256 capacity ncpus xdpgw_apply fetch_source x → feed_ok (w_db x.1).
Proof.
  intros (x0 & (Hdb & _ & _) & Hsteps). assert (feed_ok (w_db x0.1)) as H0 by (rewrite Hdb; apply empty_feed).
  clear Hdb. induction Hsteps as [|x y z Hs _ IH]; [done|]. apply IH. by eapply step_feed.
Qed.
End runner.
