(* ===== verification/DenyInv.v ===== *)
(** * The acknowledged deny list

    A frame for the row of the global deny state through every operation, and
    the invariant that a list shown as active is the one the helper last
    acknowledged. *)

From S2P Require Import Prelude PyStr Ipaddress RuleMatch Models Db.
From S2P Require Import Apply Allocations Services Rules FeedParser FeedReconcile.
From S2P Require Import FeedInv Lists NodeControl FeedJobs Feeds Applier FeedRunner.
From S2P Require Import Processor Evolution WorldInv Api System.
Open Scope Z_scope.

(** ** Frames: relations kept by every outcome, exceptions included *)

Definition frames {A} (R : Db → Db → Prop) (m : M Session A) : Prop :=
  ∀ s r s', m s = (r, s') → R (db s) (db s').

Section frames_rules.
Context (R : Db → Db → Prop) `{!PreOrder R}.

Lemma frames_bind {A B} (m : M Session A) (k : A → M Session B) :
  frames R m → (∀ a, frames R (k a)) → frames R (m ≫= k).
Proof.
  intros Hm Hk s r s' H. rewrite bind_run in H. destruct (m s) as [[e|a] s1] eqn:E.
  - injection H as <- <-. by eapply Hm.
  - etrans; [by eapply Hm|by eapply Hk].
Qed.

Lemma frames_try {A} (m : M Session A) h :
  frames R m → (∀ e, frames R (h e)) → frames R (try_except m h).
Proof.
  intros Hm Hk s r s' H. unfold try_except in H. destruct (m s) as [[e|a] s1] eqn:E.
  - etrans; [by eapply Hm|by eapply Hk].
  - injection H as <- <-. by eapply Hm.
Qed.

Lemma frames_lift {A} (x : exn + A) : frames R (lift x).
Proof. by intros s r s' [= <- <-]. Qed.
Lemma frames_ret {A} (a : A) : frames R (mret a).
Proof. by intros s r s' [= <- <-]. Qed.
Lemma frames_raise {A} e : frames R (@raise Session A e).
Proof. by intros s r s' [= <- <-]. Qed.
Lemma frames_gets {A} (f : Session → A) : frames R (gets f).
Proof. by intros s r s' [= <- <-]. Qed.
Lemma frames_modS f : (∀ s, R (db s) (db (f s))) → frames R (modS f).
Proof. intros Hf s r s' [= <- <-]. apply Hf. Qed.
Lemma frames_mod_db f : (∀ d, R d (f d)) → frames R (mod_db f).
Proof. intros Hf. by apply frames_modS. Qed.
Lemma frames_for_each {A} (f : A → M Session unit) xs :
  (∀ x, frames R (f x)) → frames R (for_each f xs).
Proof. intros Hf. induction xs; simpl; [apply frames_ret|by apply frames_bind]. Qed.
End frames_rules.


(** Walks a computation to its assignments; [unfold] of the head where no rule
    applies. *)
Ltac frames_step :=
  match goal with
  | |- frames _ (_ ≫= _) => apply frames_bind; [apply _|..|intros ?]
  | |- frames _ (_ <$> _) => unfold fmap, M_fmap
  | |- frames _ (mret _) => apply frames_ret, _
  | |- frames _ (raise _) => apply frames_raise, _
  | |- frames _ (gets _) => apply frames_gets, _
  | |- frames _ (lift _) => apply frames_lift, _
  | |- frames _ (mod_db _) => apply frames_mod_db; intros ?
  | |- frames _ (modS _) => apply frames_modS; intros ?
  | |- frames _ (try_except _ _) => apply frames_try; [apply _|..|intros ?]
  | |- frames _ (for_each _ _) => apply frames_for_each; [apply _|intros ?]
  | |- frames _ (match ?x with _ => _ end) => destruct x
  | |- frames _ (let _ := _ in _) => cbv zeta
  | |- context [JOB_LIFECYCLES ?t] =>
      destruct t; cbn [lc_claim lc_succeed lc_fail lc_recover JOB_LIFECYCLES]
  | H : frames _ _ |- frames _ _ => exact H
  | H : ∀ _, frames _ _ |- frames _ _ => apply H
  | |- frames _ ?m => let h := head_of m in unfold h
  end.

(** ** The row of the deny state *)

(** A list shown as active was shown as active, by the same row. *)
Definition active_kept (d d' : Db) : Prop :=
  ∀ st, global_deny_state d' = Some st → gds_apply_status st = ApplyStatus.active →
        global_deny_state d = Some st.

#[global] Instance active_kept_preorder : PreOrder active_kept.
Proof. split; [by intros d st|]. intros d1 d2 d3 H1 H2 st E Ha. by apply H1, Ha; apply H2. Qed.

Ltac frames_auto := repeat frames_step;
  try (by intros ? ?); try (intros ? [= <-]; done); try (case_match; by intros ?).

(** ** Worlds *)

Section worlds.
Context (sha256 : pystr → string).

(** A deny list shown as active is the desired one, and the last deny snapshot
    the helper acknowledged is that of a list with the desired digest. *)
Definition deny_enforced (w : World) : Prop :=
  ∀ st, global_deny_state (w_db w) = Some st → gds_apply_status st = ApplyStatus.active →
    gds_active_revision st = gds_desired_revision st ∧
    gds_active_digest st = gds_desired_digest st ∧
    ∃ cs payload older, w_denied w = payload :: older ∧
      gds_desired_digest st = Some (_digest sha256 cs) ∧
      serialize_global_snapshot
        (mkGlobalDenySnapshot (gds_desired_revision st) (_digest sha256 cs) cs) = inr payload.

Definition keeps_deny {A} (m : M World A) : Prop :=
  ∀ w r w', m w = (r, w') → deny_enforced w → deny_enforced w'.

Lemma deny_enforced_move w w' :
  active_kept (w_db w) (w_db w') → w_denied w' = w_denied w → deny_enforced w → deny_enforced w'.
Proof. intros Hk Ed H st Hst Ha. rewrite Ed. apply H; [by apply Hk|done]. Qed.

Lemma deny_bind {A B} (m : M World A) (k : A → M World B) :
  keeps_deny m → (∀ a, keeps_deny (k a)) → keeps_deny (m ≫= k).
Proof.
  intros Hm Hk w r w' H Hw. rewrite bind_run in H. destruct (m w) as [[e|a] w1] eqn:E.
  - injection H as <- <-. by eapply Hm.
  - eapply Hk; [exact H|by eapply Hm].
Qed.

Lemma deny_try {A} (m : M World A) h :
  keeps_deny m → (∀ e, keeps_deny (h e)) → keeps_deny (try_except m h).
Proof.
  intros Hm Hk w r w' H Hw. unfold try_except in H. destruct (m w) as [[e|a] w1] eqn:E.
  - eapply Hk; [exact H|by eapply Hm].
  - injection H as <- <-. by eapply Hm.
Qed.

Lemma callbacks_deny cbs w : deny_enforced w → deny_enforced (run_post_commit_callbacks cbs w).
Proof.
  revert w. induction cbs as [|c cbs IH]; intros w Hw; [done|].
  change (run_post_commit_callbacks (c :: cbs) w) with
    (run_post_commit_callbacks cbs (dispatch w (callback_job c))).
  apply IH. unfold dispatch. destruct (w_redis_up w); [|done].
  by apply (deny_enforced_move w); [intros st|..].
Qed.

Lemma deny_scope {A} (m : M Session A) : frames active_kept m → keeps_deny (session_scope m).
Proof.
  intros Hm w r w' H. unfold session_scope in H.
  destruct (m (new_session (w_db w))) as [[e|a] s] eqn:E; injection H as <- <-.
  - apply deny_enforced_move; [by intros st|done].
  - apply Hm in E. intros Hw. by apply callbacks_deny, (deny_enforced_move w).
Qed.

Lemma deny_ret {A} (a : A) : keeps_deny (mret a).
Proof. by intros w r w' [= <- <-]. Qed.
Lemma deny_raise {A} e : keeps_deny (@raise World A e).
Proof. by intros w r w' [= <- <-]. Qed.
Lemma deny_gets {A} (f : World → A) : keeps_deny (gets f).
Proof. by intros w r w' [= <- <-]. Qed.
Lemma deny_lift {A} (x : exn + A) : keeps_deny (lift x).
Proof. by intros w r w' [= <- <-]. Qed.
Lemma deny_applied payload : keeps_deny (modS (fun w => w <| w_applied := payload :: w_applied w |>)).
Proof. intros w r w' [= <- <-]. by apply deny_enforced_move. Qed.
End worlds.

Ltac deny_step :=
  match goal with
  | |- keeps_deny _ (session_scope _) => apply deny_scope; solve [frames_auto]
  | |- keeps_deny _ (_ ≫= _) => apply deny_bind; [|intros ?]
  | |- keeps_deny _ (mret _) => apply deny_ret
  | |- keeps_deny _ (raise _) => apply deny_raise
  | |- keeps_deny _ (gets _) => apply deny_gets
  | |- keeps_deny _ (lift _) => apply deny_lift
  | |- keeps_deny _ (modS _) => apply deny_applied
  | |- keeps_deny _ (try_except _ _) => apply deny_try; [|intros ?]
  | |- keeps_deny _ (match ?x with _ => _ end) => destruct x
  | |- keeps_deny _ (let _ := _ in _) => cbv zeta
  | |- keeps_deny _ (applier_apply (DoubleBufferApplier _) _) => cbn [applier_apply DoubleBufferApplier]
  | H : keeps_deny _ _ |- keeps_deny _ _ => exact H
  | H : ∀ _, keeps_deny _ _ |- keeps_deny _ _ => apply H
  | |- keeps_deny _ ?m => let h := head_of m in unfold h
  end.
Ltac deny_auto := repeat deny_step.

Section operations.
Context (sha256 : pystr → string) (capacity : Decimal) (ncpus : Z).
Context (xdpgw_apply : World → list Z → HelperOutcome).
Context (fetch_source : World → ThreatFeedSource → exn + list Z).

Lemma route_active r p : frames active_kept (route sha256 capacity ncpus r p).
Proof. destruct r; cbn [route]; frames_auto. Qed.

Lemma serve_deny session r : keeps_deny sha256 (serve sha256 capacity ncpus session r).
Proof.
  apply deny_scope, frames_bind; [apply _| |intros p; apply route_active].
  frames_auto.
Qed.

Lemma schedule_deny now limit : keeps_deny sha256 (enqueue_due_feed_syncs now limit).
Proof.
  assert (∀ sources, frames active_kept (enqueue_all sources)) as Hall.
  { induction sources; cbn [enqueue_all]; frames_auto. }
  apply deny_scope. frames_auto.
Qed.

Lemma claim_deny id : keeps_deny sha256 (claim_job id).
Proof. apply deny_scope. frames_auto. Qed.

Lemma recover_deny id : keeps_deny sha256 (recover_once id).
Proof. apply deny_scope. frames_auto. Qed.

Lemma mark_once_deny id error : keeps_deny sha256 (mark_once id error).
Proof. apply deny_scope. frames_auto. Qed.

Lemma mark_terminal_deny down id error : keeps_deny sha256 (_mark_terminal down id error).
Proof.
  pose proof (mark_once_deny id error) as Hm. unfold _mark_terminal. generalize 0%nat as k.
  induction TERMINAL_MARK_ATTEMPTS as [|n IH]; intros k; cbn [mark_attempts]; deny_auto.
Qed.

Lemma handle_service_deny job :
  keeps_deny sha256 (handle_service_update (DoubleBufferApplier xdpgw_apply) job).
Proof. deny_auto. Qed.

(** The first transaction reads the desired list of a row that is not active. *)
Lemma load_desired_cases expected d :
  ∃ x, load_desired_snapshot sha256 expected (new_session d) = (x, new_session d) ∧
  ∀ snapshot, x = inr (Some snapshot) → ∃ st, global_deny_state d = Some st ∧
    needs_apply st = true ∧ gds_desired_digest st = Some (_digest sha256 (_global_cidrs d)) ∧
    snapshot = mkGlobalDenySnapshot (gds_desired_revision st)
                 (_digest sha256 (_global_cidrs d)) (_global_cidrs d).
Proof.
  unfold load_desired_snapshot, load_global_snapshot, _locked_deny_state, _locked_global_state, get_db.
  mstep. cbn [db new_session]. destruct (global_deny_state d) as [st|] eqn:Est; [|by eexists].
  destruct (negb _ || negb _) eqn:Eg; [by eexists|]. apply orb_false_iff in Eg as [E1 E2].
  apply negb_false_iff in E1, E2. mstep. cbn [db new_session]. rewrite Est. mstep. rewrite E1. mstep.
  cbn [db new_session]. case_bool_decide as Ed; [|by eexists].
  eexists. split; [reflexivity|]. intros snapshot [= <-]. by exists st.
Qed.

Lemma needs_not_active w st :
  deny_enforced sha256 w → global_deny_state (w_db w) = Some st → needs_apply st = true →
  gds_apply_status st ≠ ApplyStatus.active.
Proof.
  intros Hw Hst Hn Ha. destruct (Hw st Hst Ha) as (E1 & E2 & _). unfold needs_apply in Hn.
  rewrite E1, E2, Z.eqb_refl, bool_decide_true in Hn; done.
Qed.

Lemma not_active_enforced w st :
  global_deny_state (w_db w) = Some st → gds_apply_status st ≠ ApplyStatus.active →
  deny_enforced sha256 w.
Proof. intros Hst Hn st' Hst' Ha. congruence. Qed.

Lemma record_enforced w st result r w' :
  let cs := _global_cidrs (w_db w) in
  let snapshot := mkGlobalDenySnapshot (gds_desired_revision st) (_digest sha256 cs) cs in
  global_deny_state (w_db w) = Some st → gds_desired_digest st = Some (_digest sha256 cs) →
  (∃ payload older, w_denied w = payload :: older ∧
     serialize_global_snapshot snapshot = inr payload) →
  session_scope (record_acknowledged snapshot result) w = (r, w') → deny_enforced sha256 w'.
Proof.
  intros cs snapshot Hst Hdig (payload & older & Hd & Hser) H.
  rewrite (scope_commit _ w tt (w_db w <| global_deny_state := Some (st
          <| gds_active_revision := gds_desired_revision st |>
          <| gds_active_digest := Some (_digest sha256 cs) |>
          <| gds_apply_status := ApplyStatus.active |>
          <| gds_last_error := None |>
          <| gds_last_node_map_version := Some (gar_node_map_version result) |>) |>)) in H.
  - injection H as <- <-. intros st' [= <-] _. cbn. split_and!; [done..|]. by exists cs, payload, older.
  - unfold record_acknowledged, _locked_deny_state, get_db. mstep. cbn [db new_session]. rewrite Hst.
    unfold asks_for. cbn [gsnap_revision gsnap_digest snapshot].
    by rewrite Z.eqb_refl, bool_decide_true.
Qed.

Lemma converge_deny expected :
  keeps_deny sha256 (_converge_desired_revision sha256 xdpgw_apply expected).
Proof.
  destruct expected as [expected|]; [|apply deny_ret]. intros w r w' H Hw.
  unfold _converge_desired_revision in H. rewrite bind_run in H.
  destruct (load_desired_cases expected (w_db w)) as (x & Ex & Hx).
  rewrite (scope_read _ w x Ex) in H. destruct x as [e|[snapshot|]]; [by injection H as <- <-| |by injection H as <- <-].
  destruct (Hx snapshot eq_refl) as (st & Hst & Hn & Hdig & ->). clear Hx Ex.
  pose proof (needs_not_active _ _ Hw Hst Hn) as Hna. rewrite bind_run in H.
  set (snapshot := mkGlobalDenySnapshot _ _ _) in *.
  destruct (apply_global xdpgw_apply snapshot w) as [y w1] eqn:Ea.
  assert (w_db w1 = w_db w ∧ (∀ result, y = inr result → ∃ payload older,
    w_denied w1 = payload :: older ∧ serialize_global_snapshot snapshot = inr payload)) as [Edb Hy].
  { unfold apply_global in Ea. rewrite bind_run in Ea. unfold lift at 1 in Ea.
    destruct (serialize_global_snapshot snapshot) as [e|payload] eqn:Es; [by injection Ea as <- <-|].
    rewrite bind_run in Ea. cbn in Ea. unfold apply_error, raise in Ea.
    destruct (xdpgw_apply w payload) as [| |[] ? ?]; try (by injection Ea as <- <-).
    rewrite bind_run in Ea. cbn in Ea. injection Ea as <- <-. split; [done|]. eauto. }
  assert (deny_enforced sha256 w1) as Hw1 by (apply (not_active_enforced w1 st); congruence).
  unfold try_except in H. rewrite Ea in H. destruct y as [e|result].
  - rewrite bind_run in H. destruct (_mark_global_apply_failed snapshot e w1) as [z w2] eqn:Em.
    assert (keeps_deny sha256 (_mark_global_apply_failed snapshot e)) as Hk by deny_auto.
    specialize (Hk _ _ _ Em Hw1). destruct z; by injection H as <- <-.
  - rewrite bind_run in H. destruct (Hy result eq_refl) as (payload & older & Hd & Hser).
    destruct (session_scope _ w1) as [z w2] eqn:Em.
    assert (deny_enforced sha256 w2) as Hw2.
    { eapply (record_enforced w1 st result); rewrite ?Edb; [done|done| |exact Em].
      by exists payload, older. }
    destruct z; by injection H as <- <-.
Qed.

Lemma handle_feed_deny job :
  keeps_deny sha256 (handle_feed_sync sha256 xdpgw_apply fetch_source job).
Proof. pose proof converge_deny as Hc. deny_auto. Qed.

Lemma complete_fetch_deny job fetched :
  keeps_deny sha256 (complete_feed_fetch sha256 xdpgw_apply job fetched).
Proof. pose proof converge_deny as Hc. deny_auto. Qed.

Lemma run_helper_deny payload : keeps_deny sha256 (run_helper xdpgw_apply payload ;; mret true).
Proof. deny_auto. Qed.

Lemma handler_deny id :
  keeps_deny sha256
    (run_handler sha256 xdpgw_apply fetch_source (DoubleBufferApplier xdpgw_apply) id).
Proof.
  pose proof converge_deny as Hc. pose proof handle_feed_deny as Hf.
  pose proof handle_service_deny as Hs. intros w r w' H Hw. rewrite run_handler_found in H.
  destruct (agent_job (w_db w) !! id) as [job|]; [|by injection H as <- <-].
  revert w r w' H Hw. change (keeps_deny sha256 ((match job_type job with
        | JobType.service_update => handle_service_update (DoubleBufferApplier xdpgw_apply)
        | JobType.feed_sync => handle_feed_sync sha256 xdpgw_apply fetch_source
        | JobType.global_deny_apply => handle_global_deny_apply sha256 xdpgw_apply
        end) job ;; mret true)). destruct (job_type job); deny_auto.
Qed.

(** ** The whole system *)

Lemma step_deny x y :
  step sha256 capacity ncpus xdpgw_apply fetch_source x y →
  deny_enforced sha256 x.1 → deny_enforced sha256 y.1.
Proof.
  destruct 1; cbn [fst].
  - by eapply serve_deny.
  - by eapply claim_deny.
  - by eapply claim_deny.
  - done.
  - by eapply run_helper_deny.
  - by eapply handler_deny.
  - by eapply mark_terminal_deny.
  - done.
  - by eapply recover_deny.
  - by eapply complete_fetch_deny.
  - by eapply schedule_deny.
  - by apply deny_enforced_move; [intros st|].
  - by apply deny_enforced_move; [intros st|].
  - by apply deny_enforced_move; [intros st|].
Qed.

Lemma reachable_deny x :
  reachable sha256 capacity ncpus xdpgw_apply fetch_source x → deny_enforced sha256 x.1.
Proof.
  intros (x0 & (Hdb & _) & Hs). assert (deny_enforced sha256 x0.1) as H0.
  { intros st Hst. by rewrite Hdb in Hst. }
  clear Hdb. induction Hs as [|x y z Hxy _ IH]; [done|]. by apply IH; eapply step_deny.
Qed.
End operations.
