(* ===== verification/Requests.v ===== *)
(** * Requests as transactions

    Which request changes which service, which jobs it leaves to be dispatched
    after its commit, and its outcomes at the level of the world. *)

From S2P Require Import Prelude PyStr Ipaddress RuleMatch Models Db Apply ApplyInv.
From S2P Require Import Allocations PyNum Services Isolation Rules ServicesInv.
From S2P Require Import FeedReconcile FeedInv Lists ListsInv NodeControl FeedJobs Feeds.
From S2P Require Import Evolution WorkerInv Api ApiInv.
Import Deps.
Open Scope Z_scope.

(** ** What a tenant's requests can reach

    [foreign_same t d d']: the services of other tenants keep their rows and
    their configuration, the jobs and the recorded overlaps of others stay, and
    the node-wide tables do not move. *)

(** The tables only an administrator may change: accounts and allocations, the
    global deny list with its feeds, their runs and assertions, the node
    switches and the blocked ports. *)
Definition node_tables (d : Db) :=
  (tenants d, users d, allocated_cidr d, (blacklist_entry d, global_deny_state d),
   (threat_feed_source d, feed_sync_run d, feed_blacklist_assertion d),
   (node_control d, blocked_udp_port d)).

(** A job without the time of its last dispatch, which Redis decides. *)
Definition undispatched (j : AgentJob) : AgentJob := j <| job_dispatched_at := None |>.

(** A service of tenant [t], before or after. *)
Definition owned (t : uuid) (d d' : Db) (sid : uuid) : Prop :=
  ∃ svc, (protected_service d !! sid = Some svc ∨ protected_service d' !! sid = Some svc) ∧
         svc_tenant_id svc = t.

(** A job row that appears, goes or changes belongs, before and after, to a
    service that satisfies [P]. *)
Definition jobs_only (P : uuid → Prop) (d d' : Db) : Prop :=
  ∀ i j, agent_job d !! i = Some j ∨ agent_job d' !! i = Some j →
    undispatched <$> agent_job d' !! i = undispatched <$> agent_job d !! i ∨
    ∃ sid, job_target j = TargetService sid ∧ P sid.

(** No overlap of a feed with a whitelist appears, and one goes only with a
    whitelist entry of a service that satisfies [P]. *)
Definition overlaps_only (P : uuid → Prop) (d d' : Db) : Prop :=
  feed_sync_overlap d' `sublist_of` feed_sync_overlap d ∧
  ∀ o, o ∈ feed_sync_overlap d → o ∈ feed_sync_overlap d' ∨
    ∃ w, whitelist_entry d !! overlap_whitelist_entry_id o = Some w ∧ P (wl_service_id w).

Definition foreign_same (t : uuid) (d d' : Db) : Prop :=
  node_tables d' = node_tables d ∧
  (∀ i svc, protected_service d !! i = Some svc → svc_tenant_id svc ≠ t →
     protected_service d' !! i = Some svc ∧ content d' i = content d i) ∧
  (∀ i svc, protected_service d !! i = None → protected_service d' !! i = Some svc →
     svc_tenant_id svc = t) ∧
  jobs_only (owned t d d') d d' ∧ overlaps_only (owned t d d') d d'.

Lemma foreign_same_refl t d : foreign_same t d d.
Proof.
  split_and!; [done|done|congruence|by left|]. split; [done|]. by left.
Qed.

(** All services but one keep their rows and configuration. *)
Definition only (sid : uuid) (d d' : Db) : Prop :=
  (∀ i, i ≠ sid → protected_service d' !! i = protected_service d !! i) ∧
  (∀ i svc, i ≠ sid → protected_service d !! i = Some svc → content d' i = content d i) ∧
  jobs_only (eq sid) d d' ∧ overlaps_only (eq sid) d d'.

Lemma evolves_only sid d d' :
  evolves d d' →
  (∀ i, i ≠ sid → protected_service d' !! i = protected_service d !! i) →
  jobs_only (eq sid) d d' → overlaps_only (eq sid) d d' → only sid d d'.
Proof.
  intros He Hl Hj Ho. split_and!; [done| |done|done]. intros i svc Hne Hs.
  apply (ev_service _ _ He i svc svc); [done|by rewrite Hl|done].
Qed.

Lemma jobs_only_insert sid d d' jid job :
  job_target job = TargetService sid →
  (∀ j, agent_job d !! jid = Some j → job_target j = TargetService sid) →
  agent_job d' = <[jid := job]> (agent_job d) → jobs_only (eq sid) d d'.
Proof.
  intros Ht Hold E i j Hj. rewrite E. destruct (decide (i = jid)) as [->|Hne].
  - right. exists sid. split; [|done]. rewrite E, lookup_insert_eq in Hj.
    destruct Hj as [Hj|[= <-]]; [by apply Hold|done].
  - left. by rewrite lookup_insert_ne.
Qed.

Lemma overlaps_same P d d' : feed_sync_overlap d' = feed_sync_overlap d → overlaps_only P d d'.
Proof. intros E. unfold overlaps_only. rewrite E. split; [done|]. by left. Qed.

Lemma config_change_only sid trigger d d' :
  fresh_ok d → config_change sid trigger d d' → overlaps_only (eq sid) d d' → only sid d d'.
Proof.
  intros Hf H Ho. apply evolves_only; [by eapply config_change_evolves| | |done].
  - intros i. by eapply config_change_others.
  - apply config_change_ledger in H as (svc & svc' & jid & _ & _ & _ & Hn & (now & E) & _).
    eapply jobs_only_insert; [..|exact E]; [done|]. intros j Hj. congruence.
Qed.

Definition keeps_node {A} (m : M Session A) : Prop :=
  respects (fun d d' => node_tables d' = node_tables d) m.

Section node.
#[local] Instance same_node_preorder : PreOrder (fun d d' => node_tables d' = node_tables d).
Proof. split; [by intros d|]. intros d1 d2 d3. congruence. Qed.

Definition keeps_overlaps {A} (m : M Session A) : Prop :=
  respects (fun d d' => feed_sync_overlap d' = feed_sync_overlap d) m.
#[local] Instance same_overlaps_preorder :
  PreOrder (fun d d' => feed_sync_overlap d' = feed_sync_overlap d).
Proof. split; [by intros d|]. intros d1 d2 d3. congruence. Qed.

Ltac node_auto :=
  unfold keeps_node, keeps_overlaps; repeat same_unfold;
  repeat first
    [ respects_step
    | apply respects_try; [|first [ apply raise_service_error_inr | apply raise_rule_error_inr
                                  | apply raise_list_error_inr ]] ].

Lemma create_service_node t name c actor mode vp vb sp sb com ceil metric ip :
  keeps_node (create_service t name c actor mode vp vb sp sb com ceil metric ip).
Proof. node_auto. Qed.
Lemma update_service_node sid actor name cidr mode vp vb sp sb ip :
  keeps_node (update_service sid actor name cidr mode vp vb sp sb ip).
Proof. node_auto. Qed.
Lemma set_enabled_node sid en actor ip : keeps_node (set_enabled sid en actor ip).
Proof. node_auto. Qed.
Lemma delete_service_node sid actor ip : keeps_node (delete_service sid actor ip).
Proof. node_auto. Qed.
Lemma create_rule_node sid actor pr proto sl sh dl dh en ip :
  keeps_node (create_rule sid actor pr proto sl sh dl dh en ip).
Proof. node_auto. Qed.
Lemma update_rule_node sid rid actor pr proto sl sh dl dh en ip :
  keeps_node (update_rule sid rid actor pr proto sl sh dl dh en ip).
Proof. node_auto. Qed.
Lemma delete_rule_node sid rid actor ip : keeps_node (delete_rule sid rid actor ip).
Proof. node_auto. Qed.
Lemma add_whitelist_node sid src actor ip : keeps_node (add_whitelist sid src actor ip).
Proof. node_auto. Qed.
Lemma remove_whitelist_node sid src actor ip : keeps_node (remove_whitelist sid src actor ip).
Proof. node_auto. Qed.
Lemma retry_node sid actor : keeps_node (retry sid actor).
Proof. node_auto. Qed.

Lemma create_service_overlaps t name c actor mode vp vb sp sb com ceil metric ip :
  keeps_overlaps (create_service t name c actor mode vp vb sp sb com ceil metric ip).
Proof. node_auto. Qed.
Lemma update_service_overlaps sid actor name cidr mode vp vb sp sb ip :
  keeps_overlaps (update_service sid actor name cidr mode vp vb sp sb ip).
Proof. node_auto. Qed.
Lemma set_enabled_overlaps sid en actor ip : keeps_overlaps (set_enabled sid en actor ip).
Proof. node_auto. Qed.
Lemma create_rule_overlaps sid actor pr proto sl sh dl dh en ip :
  keeps_overlaps (create_rule sid actor pr proto sl sh dl dh en ip).
Proof. node_auto. Qed.
Lemma update_rule_overlaps sid rid actor pr proto sl sh dl dh en ip :
  keeps_overlaps (update_rule sid rid actor pr proto sl sh dl dh en ip).
Proof. node_auto. Qed.
Lemma delete_rule_overlaps sid rid actor ip : keeps_overlaps (delete_rule sid rid actor ip).
Proof. node_auto. Qed.
Lemma add_whitelist_overlaps sid src actor ip : keeps_overlaps (add_whitelist sid src actor ip).
Proof. node_auto. Qed.
Lemma retry_overlaps sid actor : keeps_overlaps (retry sid actor).
Proof. node_auto. Qed.
End node.

Lemma retry_jobs sid actor s job s' :
  gw_ok (db s) → retry sid actor s = (inr job, s') → jobs_only (eq sid) (db s) (db s').
Proof.
  intros Hgw H. unfold retry, _load_service_for_update, _current_version_job_for_update,
    record_event, utc_now, get_db, put_service, put_job, mod_db in H. minv.
  match goal with H : one_or_none _ _ = _ |- _ => apply one_or_none_inr in H as (-> & -> & _) end.
  match goal with H : _register_dispatch _ _ = _ |- _ => apply register_dispatch_db in H as Edb end.
  match goal with H : protected_service (db s) !! sid = Some ?x |- _ =>
    pose proof (li_svc_id _ _ (proj1 (proj1 Hgw)) _ _ H) as Hid end.
  destruct (head _) as [j0|] eqn:Eh; minv.
  - apply head_Some_elem_of, elem_of_select in Eh as [Hsel (k & Hk)].
    pose proof (li_job_id _ _ (proj1 (proj1 Hgw)) _ _ Hk) as Hjid.
    unfold is_service_job in Hsel. apply andb_true_iff in Hsel as [Ht _].
    apply bool_decide_eq_true in Ht.
    eapply jobs_only_insert; [..|rewrite Edb; reflexivity]; [done|].
    simpl. intros j Hj. congruence.
  - unfold check_pkey, utc_now, get_db in *. minv.
    match goal with H : uuid4 _ = _ |- _ => apply uuid4_inr in H as [-> ->] end.
    match goal with H : bool_decide (_ = None) = true |- _ => apply bool_decide_eq_true in H as Hn end.
    eapply jobs_only_insert; [..|rewrite Edb; reflexivity]; simpl in *; [congruence|].
    intros j Hj. congruence.
Qed.

Lemma retry_only sid actor s job s' :
  gw_ok (db s) → fresh_ok (db s) → retry sid actor s = (inr job, s') → only sid (db s) (db s').
Proof.
  intros Hgw Hf H. pose proof (retry_overlaps _ _ _ _ _ H) as Hov. apply evolves_only.
  - pose proof H as H'. apply retry_step in H' as (d0 & evs & Hst & E & _); [|apply Hgw].
    rewrite E. eapply evolves_trans; [done|by apply ledger_step_evolves|].
    apply side_evolves; [|by split]. by apply (ev_fresh (db s)), ledger_step_evolves.
  - intros i Hne. unfold retry, _load_service_for_update, _current_version_job_for_update,
      record_event, utc_now, get_db, put_service, put_job, mod_db in H. minv.
    match goal with H : one_or_none _ _ = _ |- _ => apply one_or_none_inr in H as (-> & -> & _) end.
    match goal with H : _register_dispatch _ _ = _ |- _ => apply register_dispatch_db in H as Edb end.
    match goal with H : protected_service (db s) !! sid = Some ?x |- _ =>
      pose proof (li_svc_id _ _ (proj1 (proj1 Hgw)) _ _ H) as Hid end.
    match goal with H : (match head _ with _ => _ end) _ = (inr ?job, ?s1) |- _ =>
      assert (protected_service (db s1) = protected_service (db s)) as E1 end.
    { destruct (head _); [by minv|]. unfold check_pkey, utc_now, get_db in *. minv.
      by match goal with H : uuid4 _ = _ |- _ => apply uuid4_inr in H as [-> ->] end. }
    rewrite Edb. simpl. rewrite lookup_insert_ne by congruence. by rewrite E1.
  - by eapply retry_jobs.
  - by apply overlaps_same.
Qed.

(** Removing a whitelist entry takes the overlaps with it along. *)
Lemma remove_whitelist_overlaps sid src actor ip s r s' :
  gw_ok (db s) → remove_whitelist sid src actor ip s = (inr r, s') →
  overlaps_only (eq sid) (db s) (db s').
Proof.
  intros Hgw H. apply remove_whitelist_inr in H as (svc & w & _ & _ & _ & Hrow & _ & _ & Hw & E); [|done].
  unfold overlaps_only. rewrite E. split; [apply sublist_filter|]. intros o Ho.
  destruct (decide (overlap_whitelist_entry_id o = wl_id w)) as [Eo|Hne].
  - right. exists w. rewrite Eo. split; [done|]. unfold whitelist_row in Hrow.
    apply andb_true_iff in Hrow as [Hs%bool_decide_eq_true _]. done.
  - left. by apply list_elem_of_filter.
Qed.

(** ** Guards *)

Lemma load_service_inr sid p s svc s' :
  load_service_for_principal sid p s = (inr svc, s') →
  s' = s ∧ protected_service (db s) !! sid = Some svc ∧
  (p_role p = tenant_user → p_tenant_id p = Some (svc_tenant_id svc)).
Proof.
  intros H. unfold load_service_for_principal, get_db in H. minv.
  unfold authorize_tenant_resource in H. destruct (p_role p) eqn:Er.
  - simpl in H. by minv.
  - simpl in H. destruct (p_tenant_id p) as [t|]; [|done]. case_bool_decide; [|done]. minv.
    by subst.
Qed.

Lemma admin_refused p s a s' :
  p_role p = tenant_user → get_admin_principal p s ≠ (inr a, s').
Proof.
  intros Hp H. unfold get_admin_principal, require_admin in H.
  rewrite bool_decide_false in H by congruence. by minv.
Qed.

Lemma load_actor_inr p s a s' : _load_actor p s = (inr a, s') → s' = s.
Proof. intros H. unfold _load_actor, get_db in H. by minv. Qed.

Section confined.
Context (sha256 : pystr → string) (capacity : Decimal) (ncpus : Z).
Context (p : Principal) (t : uuid).
Hypothesis (Hrole : p_role p = tenant_user) (Htenant : p_tenant_id p = Some t).

Definition confined (s s' : Session) : Prop :=
  sys_ok sha256 (db s) → fresh_ok (db s) → foreign_same t (db s) (db s').

(** An operation on one of the caller's services. *)
Lemma own_confined sid svc s s' :
  protected_service (db s) !! sid = Some svc → svc_tenant_id svc = t →
  node_tables (db s') = node_tables (db s) →
  (sys_ok sha256 (db s) → fresh_ok (db s) → only sid (db s) (db s')) → confined s s'.
Proof.
  intros Hs Ht Hn Ho Hok Hf. destruct (Ho Hok Hf) as (Hrow & Hcont & Hj & Hov1 & Hov2).
  assert (owned t (db s) (db s') sid) as Hown by (exists svc; auto). split_and!; [done|..].
  - intros i x Hi Hx. assert (i ≠ sid) by (intros ->; congruence).
    rewrite Hrow by done. split; [done|by eapply Hcont].
  - intros i x Hi Hx. rewrite Hrow in Hx by (intros ->; congruence). congruence.
  - intros i j Hj'. destruct (Hj i j Hj') as [?|(sid' & ? & <-)]; [by left|right; eauto].
  - split; [done|]. intros o Ho'. destruct (Hov2 o Ho') as [?|(w & ? & E)]; [by left|right].
    exists w. split; [done|]. by rewrite <- E.
Qed.

Lemma same_confined s : confined s s.
Proof. intros _ _. apply foreign_same_refl. Qed.

Lemma own_route {A} sid (k : ProtectedService → option User → M Session A) s a s' :
  (service ← load_service_for_principal sid p; actor ← _load_actor p; k service actor) s
    = (inr a, s') →
  ∃ svc actor, protected_service (db s) !! sid = Some svc ∧ svc_tenant_id svc = t ∧
    k svc actor s = (inr a, s').
Proof.
  intros H. apply bind_inr in H as (svc & s1 & (-> & Hs & Ht)%load_service_inr & H).
  apply bind_inr in H as (actor & s1 & ->%load_actor_inr & H).
  specialize (Ht Hrole). rewrite Htenant in Ht. exists svc, actor.
  split_and!; [done|congruence|done].
Qed.

(** The service id in the loaded row is the one asked for. *)
Lemma own_id sid svc s :
  sys_ok sha256 (db s) → protected_service (db s) !! sid = Some svc → svc_id svc = sid.
Proof. intros Hok Hs. exact (li_svc_id _ _ (proj1 (proj1 (proj1 Hok))) _ _ Hs). Qed.

Lemma change_confined sid svc trigger s s' :
  protected_service (db s) !! sid = Some svc → svc_tenant_id svc = t →
  node_tables (db s') = node_tables (db s) →
  (sys_ok sha256 (db s) → config_change (svc_id svc) trigger (db s) (db s') ∧
     overlaps_only (eq (svc_id svc)) (db s) (db s')) → confined s s'.
Proof.
  intros Hs Ht Hn Hc Hok Hf. pose proof (own_id _ _ _ Hok Hs) as Hid.
  revert Hok Hf. change (confined s s'). eapply own_confined; [done..|].
  intros Hok Hf. destruct (Hc Hok) as [H1 H2]. rewrite Hid in H1, H2. by eapply config_change_only.
Qed.

Lemma create_confined payload s a s' :
  ServicesRouter.create_service payload p s = (inr a, s') → confined s s'.
Proof.
  intros H Hok Hf. unfold ServicesRouter.create_service in H.
  apply bind_inr in H as (u & s1 & [_ ->]%require_inr & H).
  apply bind_inr in H as (actor & s1 & ->%load_actor_inr & H).
  apply bind_inr in H as (tenant & s1 & [Htf ->]%lift_inr & H).
  apply bind_inr in H as (c & s1 & [Hc%validate_cidr_wf ->]%lift_inr & H).
  apply bind_inr in H as (rec & s1 & H & [_ <-]%ret_inr).
  pose proof (create_service_node _ _ _ _ _ _ _ _ _ _ _ _ _ _ _ _ H) as Hn.
  pose proof (create_service_overlaps _ _ _ _ _ _ _ _ _ _ _ _ _ _ _ _ H) as Hov.
  apply create_service_inr in H as (new & plan & n & u' & evs & Hnew & Hdest & _ & Hrow & _ & _ & _ & _ &
    Hid & -> & Hfree & E & _); [|apply Hok|done].
  assert (tenant = t ∧ svc_tenant_id new = t) as [-> Hten].
  { injection Hdest as E1 _. assert (tenant = t); [|by subst].
    revert Htf. unfold ServicesRouter._tenant_for_create. rewrite bool_decide_false by congruence.
    rewrite Htenant. repeat case_match; congruence. }
  assert (protected_service (db s') !! svc_id new = Some (new <| svc_apply_status := ApplyStatus.queued |>
    <| svc_updated_at := clock (db s) |>)) as Hat by (rewrite E; apply lookup_insert_eq).
  assert (∀ i, i ≠ svc_id new → protected_service (db s') !! i = protected_service (db s) !! i) as Hoth.
  { intros i Hne. rewrite E. simpl. by rewrite !lookup_insert_ne by (simpl; congruence). }
  assert (owned t (db s) (db s') (svc_id new)) as Hown by (eexists; split; [by right|done]).
  assert (only (svc_id new) (db s) (db s')) as (_ & Hcont & Hj & _).
  { apply evolves_only; [rewrite E; by apply create_evolves; [done|apply Hok|..]|done| |by apply overlaps_same].
    eapply (jobs_only_insert _ _ _ (Pos.succ (uuid_supply (db s)))); [| |rewrite E; reflexivity]; [done|].
    intros j Hj. congruence. }
  split_and!; [done|..|by apply overlaps_same].
  - intros i svc Hs _. assert (i ≠ svc_id new) by (intros ->; congruence).
    rewrite Hoth by done. split; [done|by eapply Hcont].
  - intros i svc Hi Hs. destruct (decide (i = svc_id new)) as [->|Hne].
    + rewrite Hat in Hs. injection Hs as <-. exact Hten.
    + rewrite Hoth in Hs by done. congruence.
  - intros i j Hj'. destruct (Hj i j Hj') as [?|(sid' & ? & <-)]; [by left|right; eauto].
Qed.

Lemma set_enabled_confined sid en s a s' :
  (service ← load_service_for_principal sid p; actor ← _load_actor p;
   updated ← set_enabled (svc_id service) en actor None; mret (_apply_mutation_response updated)) s
    = (inr a, s') → confined s s'.
Proof.
  intros H. apply own_route in H as (svc & actor & Hs & Ht & H).
  apply bind_inr in H as (r & s1 & H & [_ <-]%ret_inr). pose proof (set_enabled_node _ _ _ _ _ _ _ H) as Hn.
  pose proof (set_enabled_overlaps _ _ _ _ _ _ _ H) as Hov.
  intros Hok Hf. pose proof (own_id _ _ _ Hok Hs) as Hid. rewrite Hid in H.
  apply set_enabled_inr in H as (svc' & Hs' & _ & H); [|apply Hok].
  destruct (Bool.eqb _ _); [destruct H as [_ ->]; by apply same_confined|].
  destruct H as [H _]. revert Hok Hf. change (confined s s').
  eapply (change_confined sid svc); [done..|]. intros _. rewrite Hid. split; [done|by apply overlaps_same].
Qed.

(** A route that calls one operation on the loaded service. *)
Lemma own_change_route {A B} sid (op : uuid → option User → M Session A) (f : A → B) trigger s b s' :
  (∀ i actor, keeps_node (op i actor)) →
  (∀ i actor s a s', gw_ok (db s) → op i actor s = (inr a, s') →
     config_change i trigger (db s) (db s') ∧ overlaps_only (eq i) (db s) (db s')) →
  (service ← load_service_for_principal sid p; actor ← _load_actor p;
   result ← op (svc_id service) actor; mret (f result)) s = (inr b, s') → confined s s'.
Proof.
  intros Hn Hc H. apply own_route in H as (svc & actor & Hs & Ht & H).
  apply bind_inr in H as (x & s1 & H & [_ <-]%ret_inr).
  eapply (change_confined sid svc); [done..|by eapply Hn|]. intros Hok. eapply Hc; [apply Hok|done].
Qed.

Lemma update_confined sid payload s a s' :
  ServicesRouter.update_service sid payload p s = (inr a, s') → confined s s'.
Proof.
  intros H. unfold ServicesRouter.update_service in H.
  apply bind_inr in H as (u & s1 & [_ ->]%require_inr & H).
  apply own_route in H as (svc & actor & Hs & Ht & H).
  apply bind_inr in H as (cidr & s1 & Hc & H).
  assert (s1 = s ∧ ∀ c, cidr = Some c → net_wf c) as [-> Hwf].
  { destruct (sp_cidr_or_ip payload) as [text|]; minv; [|done]. split; [done|].
    intros c [= <-]. by eapply validate_cidr_wf. }
  apply bind_inr in H as (rec & s1 & H & [_ <-]%ret_inr).
  eapply (change_confined sid svc); [done..|by eapply update_service_node|].
  intros Hok. split; [eapply update_service_change; [apply Hok|done..]|].
  by eapply overlaps_same, update_service_overlaps.
Qed.

Lemma delete_confined sid s a s' :
  ServicesRouter.delete_service sid p s = (inr a, s') → confined s s'.
Proof.
  intros H. apply own_route in H as (svc & actor & Hs & Ht & H).
  eapply (own_confined sid svc); [done..|by eapply delete_service_node|].
  intros Hok Hf. rewrite (own_id _ _ _ Hok Hs) in H.
  apply delete_service_inr in H as (x & evs & _ & _ & _ & -> & _); [|apply Hok].
  apply evolves_only; [by apply delete_evolves|..].
  - intros i Hne. simpl. by rewrite lookup_delete_ne.
  - intros i j Hj. simpl in *. destruct (decide (job_target j = TargetService sid)); [right; eauto|left].
    f_equal. rewrite map_lookup_filter in *. destruct (agent_job (db s) !! i) as [j0|]; simpl in *.
    + destruct Hj as [[= ->]|Hj]; [by rewrite option_guard_True|].
      apply bind_Some in Hj as (? & _ & [= ->]). by rewrite option_guard_True.
    + by destruct Hj.
  - split; [apply sublist_filter|]. intros o Ho. simpl.
    destruct (whitelist_entry (db s) !! overlap_whitelist_entry_id o) as [w|] eqn:Ew.
    + destruct (decide (wl_service_id w = sid)) as [Hw|Hw]; [right; eauto|left].
      apply list_elem_of_filter. split; [|done]. rewrite map_lookup_filter, Ew. simpl.
      by rewrite option_guard_False.
    + left. apply list_elem_of_filter. split; [|done]. by rewrite map_lookup_filter, Ew.
Qed.

Lemma add_whitelist_confined sid src s a s' :
  ListsRouter.add_whitelist sid src p s = (inr a, s') → confined s s'.
Proof.
  intros H. apply own_route in H as (svc & actor & Hs & Ht & H).
  apply bind_inr in H as (w & s1 & H & H1). unfold refreshed, _require_service, get_db in H1. minv.
  pose proof (add_whitelist_overlaps _ _ _ _ _ _ _ H) as Hov.
  eapply (change_confined sid svc); [done..|by eapply add_whitelist_node|].
  intros Hok. split; [|by apply overlaps_same].
  by apply add_whitelist_inr in H as (? & _ & _ & ? & _); [|apply Hok].
Qed.

Lemma retry_confined sid s a s' :
  ApplyStatusRouter.retry_apply_status sid p s = (inr a, s') → confined s s'.
Proof.
  intros H. apply own_route in H as (svc & actor & Hs & Ht & H).
  apply bind_inr in H as (job & s1 & H & H1). unfold refreshed, _require_service, get_db in H1. minv.
  apply try_except_inr in H as [H|(e & s2 & _ & H)]; [|by destruct e].
  eapply (own_confined sid svc); [done..|by eapply retry_node|].
  intros Hok Hf. rewrite (own_id _ _ _ Hok Hs) in H. eapply retry_only; [apply Hok|done..].
Qed.

Lemma require_admin_refused q (s s' : Session) : lift (require_admin p) s ≠ (inr q, s').
Proof.
  intros H. unfold require_admin in H. rewrite bool_decide_false in H by congruence. by minv.
Qed.

Ltac admin_only :=
  unfold ServicesRouter.update_service_plan, AllocationsRouter.create_allocation,
    AllocationsRouter.revoke_allocation, add_global_blacklist, remove_global_blacklist,
    set_node_bypass, set_node_maintenance, FeedsRouter.create_feed, FeedsRouter.update_feed,
    FeedsRouter.delete_feed, FeedsRouter.enqueue_sync in *;
  repeat match goal with H : (_ ≫= _) _ = (inr _, _) |- _ =>
    apply bind_inr in H as (? & ? & H & _) end;
  match goal with H : _ = (inr _, _) |- _ =>
    first [by apply require_admin_refused in H | by apply (admin_refused p) in H] end.

Lemma route_confined r s a s' :
  route sha256 capacity ncpus r p s = (inr a, s') → confined s s'.
Proof.
  destruct r; cbn [route]; intros H; try (exfalso; admin_only).
  all: try (apply bind_inr in H as (x & s1 & H & H1); apply ret_inr in H1 as [_ <-]).
  - by eapply create_confined.
  - by eapply update_confined.
  - by eapply delete_confined.
  - by eapply set_enabled_confined.
  - apply bind_inr in H as (u & s2 & [_ ->]%require_inr & H). by eapply set_enabled_confined.
  - eapply (own_change_route service_id (fun i actor => create_rule i actor _ _ _ _ _ _ _ None)) in H;
      [exact H|intros; apply create_rule_node|].
    intros i actor s0 y s2 Hgw Hr. split; [|by eapply overlaps_same, create_rule_overlaps].
    by apply create_rule_inr in Hr as (? & _ & _ & ? & _).
  - eapply (own_change_route service_id (fun i actor => update_rule i rule_id_ actor _ _ _ _ _ _ _ None)) in H;
      [exact H|intros; apply update_rule_node|].
    intros i actor s0 y s2 Hgw Hr. split; [|by eapply overlaps_same, update_rule_overlaps].
    by apply update_rule_inr in Hr as (? & ? & _ & _ & ? & _).
  - eapply (own_change_route service_id (fun i actor => delete_rule i rule_id_ actor None)) in H;
      [exact H|intros; apply delete_rule_node|].
    intros i actor s0 y s2 Hgw Hr. split; [|by eapply overlaps_same, delete_rule_overlaps].
    by apply delete_rule_inr in Hr as (? & ? & _ & _ & ? & _).
  - by eapply add_whitelist_confined.
  - eapply (own_change_route service_id (fun i actor => remove_whitelist i source_cidr actor None)) in H;
      [exact H|intros; apply remove_whitelist_node|].
    intros i actor s0 y s2 Hgw Hr. split; [|by eapply remove_whitelist_overlaps].
    by apply remove_whitelist_inr in Hr as (? & ? & _ & _ & ? & _).
  - by eapply retry_confined.
Qed.
End confined.

(** ** Requests that change a service's configuration *)

(** The service whose configuration a request is about to change. *)
Definition config_target (r : request) : option uuid :=
  match r with
  | UpdateService sid _ | EnableService sid | DisableService sid _ | UpdateServicePlan sid _ _
  | CreateRule sid _ | UpdateRule sid _ _ | DeleteRule sid _ | AddWhitelist sid _
  | RemoveWhitelist sid _ => Some sid
  | _ => None
  end.

(** Asking for the switch position the service already has. *)
Definition noop (r : request) (svc : ProtectedService) : bool :=
  match r with
  | EnableService _ => svc_enabled svc
  | DisableService _ _ => negb (svc_enabled svc)
  | _ => false
  end.

Section changes.
Context (sha256 : pystr → string) (capacity : Decimal) (ncpus : Z) (p : Principal).

Definition changed (r : request) (sid : uuid) (s s' : Session) : Prop :=
  gw_ok (db s) → ∃ svc, protected_service (db s) !! sid = Some svc ∧
    ((noop r svc = true ∧ s' = s) ∨
     (noop r svc = false ∧ ∃ trigger, config_change sid trigger (db s) (db s'))).

Lemma service_route {A} sid (k : ProtectedService → option User → M Session A) s a s' :
  (service ← load_service_for_principal sid p; actor ← _load_actor p; k service actor) s
    = (inr a, s') →
  ∃ svc actor, protected_service (db s) !! sid = Some svc ∧ k svc actor s = (inr a, s').
Proof.
  intros H. apply bind_inr in H as (svc & s1 & (-> & Hs & _)%load_service_inr & H).
  apply bind_inr in H as (actor & s1 & ->%load_actor_inr & H). eauto.
Qed.

Lemma gw_svc_id d sid svc : gw_ok d → protected_service d !! sid = Some svc → svc_id svc = sid.
Proof. intros Hok Hs. exact (li_svc_id _ _ (proj1 (proj1 Hok)) _ _ Hs). Qed.

Lemma op_changed r sid {A} (op : uuid → option User → M Session A) trigger s svc actor a s' :
  (∀ svc, noop r svc = false) → protected_service (db s) !! sid = Some svc →
  (∀ i actor s a s', gw_ok (db s) → op i actor s = (inr a, s') →
     config_change i trigger (db s) (db s')) →
  op (svc_id svc) actor s = (inr a, s') → changed r sid s s'.
Proof.
  intros Hn Hs Hc H Hok. rewrite (gw_svc_id _ _ _ Hok Hs) in H. exists svc. split; [done|]. right.
  split; [done|]. exists trigger. by eapply Hc.
Qed.

Lemma switch_changed r sid en s svc actor x s' :
  (∀ svc, noop r svc = Bool.eqb (svc_enabled svc) en) → protected_service (db s) !! sid = Some svc →
  set_enabled (svc_id svc) en actor None s = (inr x, s') → changed r sid s s'.
Proof.
  intros Hn Hs H Hok. rewrite (gw_svc_id _ _ _ Hok Hs) in H.
  apply set_enabled_inr in H as (svc' & Hs' & _ & H); [|done]. exists svc'. split; [done|].
  rewrite Hn. destruct (Bool.eqb (svc_enabled svc') en); [left; by destruct H|right; naive_solver].
Qed.

Lemma update_changed sid payload s a s' :
  ServicesRouter.update_service sid payload p s = (inr a, s') →
  changed (UpdateService sid payload) sid s s'.
Proof.
  intros H. unfold ServicesRouter.update_service in H.
  apply bind_inr in H as (u & s1 & [_ ->]%require_inr & H).
  apply service_route in H as (svc & actor & Hs & H).
  apply bind_inr in H as (cidr & s1 & Hc & H).
  assert (s1 = s ∧ ∀ c, cidr = Some c → net_wf c) as [-> Hwf].
  { destruct (sp_cidr_or_ip payload) as [text|]; minv; [|done]. split; [done|].
    intros c [= <-]. by eapply validate_cidr_wf. }
  apply bind_inr in H as (rec & s1 & H & [_ <-]%ret_inr).
  eapply (op_changed _ _ (fun i actor => update_service i actor _ cidr _ _ _ _ _ None)) in H;
    [exact H|done|done|].
  intros i actor' s0 y s2 Hgw. by apply update_service_change.
Qed.

Lemma route_changed r sid s s' :
  config_target r = Some sid → route sha256 capacity ncpus r p s = (inr tt, s') →
  changed r sid s s'.
Proof.
  intros Ht H. destruct r; try discriminate Ht; injection Ht as <-; cbn [route] in H;
    apply bind_inr in H as (x & s1 & H & H1); apply ret_inr in H1 as [_ <-].
  - by eapply update_changed.
  - apply service_route in H as (svc & actor & Hs & H).
    apply bind_inr in H as (y & s1 & H & [_ <-]%ret_inr). eapply switch_changed; [|done|done].
    intros z. simpl. by destruct (svc_enabled z).
  - apply bind_inr in H as (u & s2 & [_ ->]%require_inr & H).
    apply service_route in H as (svc & actor & Hs & H).
    apply bind_inr in H as (y & s1 & H & [_ <-]%ret_inr). eapply switch_changed; [|done|done].
    intros z. simpl. by destruct (svc_enabled z).
  - unfold ServicesRouter.update_service_plan in H.
    apply bind_inr in H as (q & s1 & [_ ->]%lift_inr & H).
    apply bind_inr in H as (actor & s1 & ->%load_actor_inr & H).
    apply bind_inr in H as (y & s1 & H & [_ <-]%ret_inr). intros Hok.
    apply size_plan_inr in H as (_ & _ & Hc & _); [|done].
    pose proof (config_change_ledger _ _ _ _ Hc) as (svc & _ & _ & Hs & _). exists svc. eauto 6.
  - apply service_route in H as (svc & actor & Hs & H).
    apply bind_inr in H as (y & s1 & H & [_ <-]%ret_inr).
    eapply (op_changed _ _ (fun i actor => create_rule i actor _ _ _ _ _ _ _ None)) in H;
      [exact H|done|done|].
    by intros i actor' s0 z s2 Hgw (? & _ & _ & ? & _)%create_rule_inr.
  - apply service_route in H as (svc & actor & Hs & H).
    apply bind_inr in H as (y & s1 & H & [_ <-]%ret_inr).
    eapply (op_changed _ _ (fun i actor => update_rule i rule_id_ actor _ _ _ _ _ _ _ None)) in H;
      [exact H|done|done|].
    by intros i actor' s0 z s2 Hgw (? & ? & _ & _ & ? & _)%update_rule_inr.
  - apply service_route in H as (svc & actor & Hs & H).
    apply bind_inr in H as (y & s1 & H & [_ <-]%ret_inr).
    eapply (op_changed _ _ (fun i actor => delete_rule i rule_id_ actor None)) in H;
      [exact H|done|done|].
    by intros i actor' s0 z s2 Hgw (? & ? & _ & _ & ? & _)%delete_rule_inr.
  - apply service_route in H as (svc & actor & Hs & H).
    apply bind_inr in H as (y & s1 & H & H1). unfold refreshed, _require_service, get_db in H1.
    assert (s' = s1) as -> by (by minv).
    eapply (op_changed _ _ (fun i actor => add_whitelist i source_cidr actor None)) in H;
      [exact H|done|done|].
    by intros i actor' s0 z s2 Hgw (? & _ & _ & ? & _)%add_whitelist_inr.
  - apply service_route in H as (svc & actor & Hs & H).
    apply bind_inr in H as (y & s1 & H & [_ <-]%ret_inr).
    eapply (op_changed _ _ (fun i actor => remove_whitelist i source_cidr actor None)) in H;
      [exact H|done|done|].
    by intros i actor' s0 z s2 Hgw (? & ? & _ & _ & ? & _)%remove_whitelist_inr.
Qed.
End changes.

(** ** The job table as an outbox

    A transaction that puts a job in the queue of the table also registers its
    dispatch, so that a commit pushes it to Redis.  [announced s s']: between
    two states of one session, every job that became queued has a registered
    callback. *)

Definition callback_jobs (s : Session) : list uuid := callback_job <$> post_commit_callbacks s.

(** The registries that remove duplicates know registered jobs only, and a job
    is stored under its identifier. *)
Record registry_ok (s : Session) : Prop := {
  ro_ids : ∀ i, i ∈ apply_dispatch_job_ids s ∨ i ∈ feed_dispatch_job_ids s → i ∈ callback_jobs s;
  ro_key : ∀ i j, agent_job (db s) !! i = Some j → job_id j = i
}.

(** A job up to what triggered it. *)
Definition untriggered (j : AgentJob) : AgentJob := j <| job_trigger := ChangeTrigger.service |>.

Definition announced (s s' : Session) : Prop :=
  registry_ok s → registry_ok s' ∧ (∀ i, i ∈ callback_jobs s → i ∈ callback_jobs s') ∧
  ∀ i j, agent_job (db s') !! i = Some j → job_status j = JobStatus.queued →
    (∃ j0, agent_job (db s) !! i = Some j0 ∧ untriggered j0 = untriggered j) ∨ i ∈ callback_jobs s'.

Lemma untriggered_status j j' : untriggered j = untriggered j' → job_status j = job_status j'.
Proof. destruct j, j'. by intros [= ]. Qed.

#[global] Instance announced_preorder : PreOrder announced.
Proof.
  split; [intros s Hr; split_and!; by eauto|]. intros s1 s2 s3 H12 H23 Hr.
  destruct (H12 Hr) as (Hr2 & Hc2 & Hj2), (H23 Hr2) as (Hr3 & Hc3 & Hj3).
  split_and!; [done|by eauto|]. intros i j Hj Hq.
  destruct (Hj3 i j Hj Hq) as [(j2 & Hj' & E)|?]; [|by right].
  destruct (Hj2 i j2 Hj') as [(j1 & ? & ?)|?]; [by rewrite (untriggered_status _ _ E)| |by right; eauto].
  left. exists j1. split; [done|congruence].
Qed.

Definition announces {A} (m : M Session A) : Prop :=
  ∀ s a s', m s = (inr a, s') → announced s s'.

Section rules.
Lemma announces_bind {A B} (m : M Session A) (k : A → M Session B) :
  announces m → (∀ a, announces (k a)) → announces (m ≫= k).
Proof. intros Hm Hk s b s' (a & s1 & H1 & H2)%bind_inr. etrans; [by eapply Hm|by eapply Hk]. Qed.
Lemma announces_ret {A} (a : A) : announces (mret a).
Proof. intros s b s' H. by minv. Qed.
Lemma announces_raise {A} e : announces (@raise Session A e).
Proof. by intros s b s' H. Qed.
Lemma announces_gets {A} (f : Session → A) : announces (gets f).
Proof. intros s b s' H. by minv. Qed.
Lemma announces_lift {A} (r : exn + A) : announces (lift r).
Proof. intros s b s' H. by minv. Qed.
Lemma announces_require b e : announces (require b e).
Proof. intros s c s' H. by minv. Qed.
Lemma announces_get_or_raise {A} (o : option A) e : announces (get_or_raise o e).
Proof. intros s c s' H. by minv. Qed.
Lemma announces_one_or_none {A} (l : list A) : announces (one_or_none l).
Proof. intros s c s' (-> & _ & _)%one_or_none_inr. done. Qed.

(** A write that puts no job in the queue. *)
Lemma announces_mod_db f :
  (∀ d i j, agent_job (f d) !! i = Some j → agent_job d !! i = Some j) → announces (mod_db f).
Proof.
  intros Hf s c s' [= <- <-] [Hr Hk]. split_and!; [by split; [|eauto]|done|]. intros i j Hj _. left. apply Hf in Hj. eauto.
Qed.
Lemma announces_try {A} (m : M Session A) h :
  announces m → (∀ e s a s', h e s ≠ (inr a, s')) → announces (try_except m h).
Proof.
  intros Hm Hh s a s' [H|(e & s1 & _ & H)]%try_except_inr; [by eapply Hm|by apply Hh in H].
Qed.
Lemma announces_for_each {A} (f : A → M Session unit) xs :
  (∀ x, announces (f x)) → announces (for_each f xs).
Proof. intros Hf. induction xs; simpl; [apply announces_ret|by apply announces_bind]. Qed.
End rules.

#[export] Hint Resolve announces_ret announces_raise announces_gets announces_lift
  announces_require announces_get_or_raise announces_one_or_none : gateway.

(** The write of one job together with the registration of its dispatch. *)
Lemma put_register_announces job s s' :
  registered (job_id job) (s <| db := db s' |>) s' →
  (∀ i, i ≠ job_id job → agent_job (db s') !! i = agent_job (db s) !! i) →
  (∀ j, agent_job (db s') !! job_id job = Some j →
     job_id j = job_id job ∨ agent_job (db s) !! job_id job = Some j) → announced s s'.
Proof.
  intros (Hids & Hcb & Hfeed) Hj Hself' [Hr Hkey]. simpl in *.
  assert (∀ i, i ∈ callback_jobs s → i ∈ callback_jobs s') as Hmono.
  { intros i Hi. unfold callback_jobs. rewrite Hcb, fmap_app, elem_of_app. by left. }
  assert (job_id job ∈ callback_jobs s') as Hself.
  { case_bool_decide as Hin; [by apply Hmono, Hr; left|].
    unfold callback_jobs. rewrite Hcb, fmap_app, elem_of_app. right. set_solver. }
  split_and!; [|done|].
  - split; intros i.
    + rewrite Hids, Hfeed. intros [[->%elem_of_singleton|Hi]%elem_of_union|Hi]; auto.
    + intros j Hi. destruct (decide (i = job_id job)) as [->|Hne]; [|rewrite Hj in Hi; auto].
      destruct (Hself' j Hi); auto.
  - intros i j Hi Hq. destruct (decide (i = job_id job)) as [->|Hne]; [by right|].
    left. exists j. split; [by rewrite <- Hj|done].
Qed.

Lemma register_inr job s u s' :
  _register_dispatch job s = (inr u, s') → db s' = db s ∧ registered job s s'.
Proof.
  intros H. destruct (register_dispatch_run job s) as (s2 & E & Hdb & Hreg).
  rewrite E in H. by injection H as <- <-.
Qed.

Lemma enqueue_announces svc trigger : announces (enqueue_service_update svc trigger).
Proof.
  intros s job s' H. unfold enqueue_service_update, utc_now, get_db in H.
  apply bind_inr in H as (u & s0 & H0 & H).
  assert (s0 = s) as -> by (case_bool_decide; by minv).
  apply bind_inr in H as (job0 & s1 & H1 & H). rewrite run_gets in H.
  unfold put_service, mod_db in H. rewrite run_modS in H.
  apply bind_inr in H as (u1 & s2 & [Hdb Hreg]%register_inr & H). minv.
  assert (∃ u aj, s1 = s <| db := db s <| uuid_supply := u |> <| agent_job := aj |> |> ∧
    (∀ i, i ≠ job_id job0 → aj !! i = agent_job (db s) !! i) ∧
    (∀ j, aj !! job_id job0 = Some j →
       job_id j = job_id job0 ∨ agent_job (db s) !! job_id job0 = Some j)) as (n & aj & -> & Haj & Hself).
  { unfold _insert_or_get_job, _job_for_target_version, check_pkey, utc_now, get_db, put_job,
      mod_db in H1. minv.
    match goal with H : uuid4 _ = _ |- _ => apply uuid4_inr in H as [-> ->] end.
    destruct (select_where _ _) eqn:E; minv.
    - eexists _, _. split; [reflexivity|]. split; [intros i Hne; simpl in *; by rewrite lookup_insert_ne|].
      intros j. simpl. rewrite lookup_insert_eq. intros [= <-]. by left.
    - match goal with H : one_or_none _ _ = _ |- _ => apply one_or_none_inr in H as (-> & _ & _) end.
      exists (Pos.succ (uuid_supply (db s))), (agent_job (db s)). split; [by destruct s as [[] ? ? ?]|]. auto. }
  eapply (put_register_announces job0).
  - destruct Hreg as (R1 & R2 & R3). split_and!; [exact R1|exact R2|exact R3].
  - intros i Hne. rewrite Hdb. simpl. by apply Haj.
  - rewrite Hdb. exact Hself.
Qed.

Lemma retry_announces sid actor : announces (retry sid actor).
Proof.
  intros s job s' H. unfold retry, _load_service_for_update, _current_version_job_for_update,
    record_event, utc_now, get_db, put_service, put_job, mod_db in H. minv.
  match goal with H : one_or_none _ _ = _ |- _ => apply one_or_none_inr in H as (-> & -> & _) end.
  match goal with H : _register_dispatch _ _ = _ |- _ => apply register_inr in H as [Hdb Hreg] end.
  match goal with H : (match head _ with _ => _ end) _ = (inr ?job, ?s1) |- _ =>
    assert (∃ u, s1 = s <| db := db s <| uuid_supply := u |> |>) as [u ->] end.
  { destruct (head _).
    - minv. exists (uuid_supply (db s)). by destruct s as [[] ? ? ?].
    - unfold check_pkey, utc_now, get_db in *. minv.
      match goal with H : uuid4 _ = _ |- _ => apply uuid4_inr in H as [-> ->] end. by eexists. }
  eapply put_register_announces.
  - destruct Hreg as (R1 & R2 & R3). split_and!; [exact R1|exact R2|exact R3].
  - intros i Hne. rewrite Hdb. simpl. by rewrite lookup_insert_ne.
  - intros j. rewrite Hdb. simpl. rewrite lookup_insert_eq. intros [= <-]. by left.
Qed.

Lemma convergence_announces : announces _enqueue_global_convergence.
Proof.
  intros s b s' H. pose proof H as H0.
  unfold _enqueue_global_convergence, get_db, put_job, mod_db, add_post_commit_callback in H. minv.
  destruct (global_deny_state (db s)) as [st|]; [|by minv].
  destruct (negb _); [by minv|]. minv. destruct (select_where _ _); [|by minv]. minv.
  match goal with H : one_or_none _ _ = _ |- _ => apply one_or_none_inr in H as (-> & -> & _) end.
  match goal with H : (match head _ with _ => _ end) _ = (inr ?job, ?s1) |- _ =>
    assert (∃ u, s1 = s <| db := db s <| uuid_supply := u |> |>) as [u ->] end.
  { destruct (head _).
    - minv. exists (uuid_supply (db s)). by destruct s as [[] ? ? ?].
    - unfold check_pkey, utc_now, get_db in *. minv.
      match goal with H : uuid4 _ = _ |- _ => apply uuid4_inr in H as [-> ->] end. by eexists. }
  intros [Hr Hk]. unfold callback_jobs in *. simpl. setoid_rewrite fmap_app.
  setoid_rewrite elem_of_app. split_and!; [split; simpl|by eauto|].
  { intros i Hi. unfold callback_jobs. simpl. rewrite fmap_app, elem_of_app. left. by apply Hr. }
  { intros i j [[<- <-]|[_ Hj]]%lookup_insert_Some; eauto. }
  intros i j Hj _.
  match type of Hj with <[job_id ?x := _]> _ !! _ = _ =>
    destruct (decide (i = job_id x)) as [->|Hne] end; [right; right; simpl; set_solver|].
  rewrite lookup_insert_ne in Hj by done. left. eauto.
Qed.

(** The same with the registry of [services/feeds.py]. *)
Lemma feed_register_inr job s u s' :
  _register_feed_dispatch job s = (inr u, s') →
  db s' = db s ∧ (registry_ok s → registry_ok s' ∧
    (∀ i, i ∈ callback_jobs s → i ∈ callback_jobs s') ∧ job ∈ callback_jobs s').
Proof.
  intros H. unfold _register_feed_dispatch, add_post_commit_callback in H. rewrite run_gets in H.
  destruct (bool_decide_reflect (job ∈ feed_dispatch_job_ids s)) as [Hin|Hin]; minv; (split; [done|]);
    intros [Hr Hk]; [split_and!; [by split|done|by apply Hr; right]|].
  unfold callback_jobs in *. simpl. setoid_rewrite fmap_app. setoid_rewrite elem_of_app.
  split_and!; [split; simpl|by eauto|right; simpl; set_solver]; [|done].
  intros i Hi. unfold callback_jobs. simpl in *. rewrite fmap_app, elem_of_app. simpl. set_solver.
Qed.

Lemma new_feed_job_announces {A} (job : AgentJob) (k : M Session A) :
  announces k → announces (insert_feed_job job ;; _register_feed_dispatch (job_id job) ;; k).
Proof.
  intros Hk s a s' H. unfold insert_feed_job, check_pkey, put_job, get_db, mod_db in H. minv.
  match goal with H : _register_feed_dispatch _ _ = _ |- _ => apply feed_register_inr in H as [Hdb Hreg] end.
  etrans; [|by eapply Hk]. clear H. intros [Hr Hkey].
  destruct Hreg as (R1 & R2 & R3); [split; simpl; [done|]|].
  { intros i j [[<- <-]|[_ Hj]]%lookup_insert_Some; eauto. }
  split_and!; [done..|]. intros i j Hj _. rewrite Hdb in Hj. simpl in Hj.
  destruct (decide (i = job_id job)) as [->|Hne]; [by right|].
  rewrite lookup_insert_ne in Hj by done. left. eauto.
Qed.

Lemma retrigger_announces {A} rid trigger (k : M Session A) :
  announces k →
  announces (job ← _job_for_run_for_update rid;
    match job with
    | Some job => put_job (job <| job_trigger := trigger |>)
    | None => mret tt
    end ;; k).
Proof.
  intros Hk s a s' H. unfold _job_for_run_for_update, get_db in H. minv.
  match goal with H : one_or_none _ _ = _ |- _ => apply one_or_none_inr in H as (-> & -> & _) end.
  etrans; [|by eapply Hk]. destruct (head _) as [j|] eqn:Eh; minv; [|done].
  apply head_Some_elem_of, elem_of_select in Eh as [_ [i Hi]].
  unfold put_job, mod_db in *. minv. intros [Hr Hkey]. pose proof (Hkey _ _ Hi) as Ei.
  split_and!; [split; [done|simpl]|done|simpl].
  - intros i' j' [[<- <-]|[_ Hj']]%lookup_insert_Some; eauto.
  - intros i' j' [[<- <-]|[_ Hj']]%lookup_insert_Some _; left; [|eauto]. exists j. split; [by rewrite Ei|done].
Qed.

#[export] Hint Resolve enqueue_announces retry_announces convergence_announces : gateway.

Ltac announces_step :=
  match goal with
  | |- announces (_ ≫= _) => apply announces_bind; [|intros ?]
  | |- announces (for_each _ _) => apply announces_for_each; intros ?
  | |- announces (match ?x with _ => _ end) => destruct x eqn:?
  | |- announces (let _ := _ in _) => cbv zeta
  | |- announces (mod_db _) => apply announces_mod_db; intros ? ? ?; simpl; try done
  | |- announces (try_except _ _) => apply announces_try;
      [|first [ apply raise_service_error_inr | apply raise_rule_error_inr
              | apply raise_list_error_inr ]]
  | |- announces _ => solve [eauto with gateway]
  end.
Ltac announces_unfold :=
  unfold create_service, update_service, set_enabled, size_plan, delete_service, create_rule,
    update_rule, delete_rule, add_whitelist, remove_whitelist, refreshed, bump_version,
    _require_service, _require_plan, _record_for_service, _require_destination_scope,
    _find_conflicting_service, _require_service_locked, _require_rule, _rule_count,
    _ensure_priority_available, _require_whitelist_entry, whitelist_event, rule_event,
    flush_service, flush_plan, flush_rule, insert_whitelist, put_service, check_pkey, uuid4,
    nextval_dp_id, utc_now, record_event, get_db, revoke, insert_allocation,
    _find_conflict, add_blacklist, remove_blacklist, _materialize_global_deny_and_enqueue,
    materialize_global_union, _locked_global_state, _materialize_locked,
    _global_blacklist_entry_for_update, _require_blacklist_entry, insert_blacklist,
    put_blacklist, blacklist_event, set_bypass, set_maintenance, _locked_node_control,
    get_node_control, _ensure_node_control, put_node_control, load_service_for_principal,
    _load_actor, get_admin_principal, resolve_current_user.
Ltac announces_auto := repeat announces_unfold; repeat announces_step.

Section routes.
Context (sha256 : pystr → string) (capacity : Decimal) (ncpus : Z).

Lemma allocate_announces t c actor ip : announces (allocate t c actor ip).
Proof.
  unfold allocate. announces_auto. apply announces_try; [announces_auto|]. intros e s x s' H.
  case_bool_decide; [|done]. minv. by case_match.
Qed.

Lemma retry_route_announces sid p : announces (ApplyStatusRouter.retry_apply_status sid p).
Proof.
  unfold ApplyStatusRouter.retry_apply_status. announces_auto.
  apply announces_try; [by eauto with gateway|]. intros e s r s' H. by destruct e.
Qed.

Lemma enqueue_locked_announces source trigger dry : announces (_enqueue_locked source trigger dry).
Proof.
  unfold _enqueue_locked, insert_run, put_run, put_source.
  repeat announces_unfold. repeat first [ apply new_feed_job_announces | announces_step ].
Qed.
#[local] Hint Resolve enqueue_locked_announces : gateway.

Lemma reconcile_announces run parsed : announces (reconcile sha256 run parsed).
Proof.
  unfold reconcile, _locked_source, _upsert_feed_entries, insert_feed_entry,
    _replace_source_assertions, _delete_orphaned_feed_entries,
    _persist_overlaps, insert_overlap, _record_overlap_summary, _store_run_stats. announces_auto.
  by destruct (existsb _ _).
Qed.
#[local] Hint Resolve reconcile_announces : gateway.

Lemma delete_source_announces id actor : announces (delete_source sha256 id actor).
Proof.
  unfold delete_source, _active_source_for_update, _source_for_update, feed_event, put_source, put_run.
  repeat announces_unfold. repeat first [ apply retrigger_announces | announces_step ].
Qed.

Lemma enqueue_sync_announces id trigger dry : announces (enqueue_sync id trigger dry).
Proof. unfold enqueue_sync, _source_for_update. announces_auto. Qed.

Lemma create_source_announces payload actor : announces (create_source payload actor).
Proof.
  unfold create_source, _ensure_name_available, flush_source, put_source, feed_event. announces_auto.
  apply announces_try; [announces_auto|intros; apply name_conflict_raises].
Qed.

Lemma update_source_announces id payload actor : announces (update_source id payload actor).
Proof.
  unfold update_source, _active_source_for_update, _source_for_update, _ensure_name_available,
    flush_source, put_source, feed_event, given. announces_auto.
  all: apply announces_try; [announces_auto|intros; apply name_conflict_raises].
Qed.

Lemma route_announces r p : announces (route sha256 capacity ncpus r p).
Proof.
  destruct r; cbn [route].
  all: unfold ServicesRouter.create_service, ServicesRouter.update_service,
    ServicesRouter.delete_service, ServicesRouter.enable_service, ServicesRouter.disable_service,
    ServicesRouter.update_service_plan, RulesRouter.create_rule, RulesRouter.update_rule,
    RulesRouter.delete_rule, ListsRouter.add_whitelist, ListsRouter.remove_whitelist,
    AllocationsRouter.create_allocation, AllocationsRouter.revoke_allocation,
    add_global_blacklist, remove_global_blacklist, set_node_bypass, set_node_maintenance,
    FeedsRouter.create_feed, FeedsRouter.update_feed, FeedsRouter.delete_feed,
    FeedsRouter.enqueue_sync, FeedsRouter._active_source, FeedsRouter._job_for_run.
  all: pose proof allocate_announces; pose proof retry_route_announces; pose proof create_source_announces;
    pose proof update_source_announces; pose proof delete_source_announces; pose proof enqueue_sync_announces.
  all: announces_auto.
  - by intros [? _]%map_lookup_filter_Some.
  - by destruct (node_control d).
  - by destruct (node_control d).
Qed.
End routes.

Definition only_dispatched (d d' : Db) : Prop :=
  ∃ aj, d' = d <| agent_job := aj |> ∧
    ∀ i, undispatched <$> aj !! i = undispatched <$> agent_job d !! i.

#[global] Instance only_dispatched_preorder : PreOrder only_dispatched.
Proof.
  split.
  - intros d. exists (agent_job d). split; [by destruct d|done].
  - intros d1 d2 d3 (aj & -> & H1) (aj' & -> & H2). exists aj'. split; [done|].
    intros i. rewrite H2. apply H1.
Qed.

(** Marking jobs as dispatched changes nothing that [foreign_same] speaks of. *)
Lemma foreign_same_dispatched t d d1 d2 :
  foreign_same t d d1 → only_dispatched d1 d2 → foreign_same t d d2.
Proof.
  intros (Hn & Hsvc & Hnew & Hj & Ho) (aj & -> & Haj).
  split; [exact Hn|]. split; [exact Hsvc|]. split; [exact Hnew|]. split; [|exact Ho].
  intros i j Hij. simpl in *. rewrite Haj.
  destruct Hij as [Hij|Hij]; [by apply Hj; left|].
  specialize (Haj i). rewrite Hij in Haj. simpl in Haj.
  destruct (agent_job d1 !! i) as [j1|] eqn:E1; [|done]. apply (inj Some) in Haj.
  destruct (Hj i j1 (or_intror E1)) as [Hsame|(sid & Ht & Hown)].
  - left. rewrite <- Hsame. by rewrite E1.
  - right. exists sid. split; [|done]. rewrite <- Ht.
    change (job_target (undispatched j) = job_target (undispatched j1)). by rewrite Haj.
Qed.

Lemma callbacks_tables cbs w :
  only_dispatched (w_db w) (w_db (run_post_commit_callbacks cbs w)) ∧
  w_applied (run_post_commit_callbacks cbs w) = w_applied w.
Proof.
  revert w. induction cbs as [|c cbs IH]; intros w; [done|].
  change (run_post_commit_callbacks (c :: cbs) w) with
    (run_post_commit_callbacks cbs (dispatch w (callback_job c))).
  destruct (IH (dispatch w (callback_job c))) as [H1 H2]. rewrite H2. split.
  - etrans; [|exact H1]. unfold dispatch. destruct (w_redis_up w); [|done]. simpl.
    exists (agent_job (mark_dispatched (w_db w) (callback_job c))). split; [done|].
    intros i. rewrite mark_dispatched_lookup. destruct (agent_job (w_db w) !! i); [|done].
    simpl. by case_bool_decide.
  - unfold dispatch. by destruct (w_redis_up w).
Qed.

Lemma only_dispatched_job d d' i :
  only_dispatched d d' →
  (∀ j, agent_job d !! i = Some j → ∃ j', agent_job d' !! i = Some j' ∧ undispatched j' = undispatched j).
Proof.
  intros (aj & -> & H) j Hj. specialize (H i). rewrite Hj in H. simpl in *.
  destruct (aj !! i) as [j'|]; [|done]. exists j'. split; [done|]. by apply (inj Some).
Qed.

Lemma only_dispatched_dom d d' :
  only_dispatched d d' → dom (agent_job d') = dom (agent_job d).
Proof.
  intros (aj & -> & H). apply set_eq. intros i. rewrite !elem_of_dom. specialize (H i). simpl in *.
  destruct (aj !! i), (agent_job d !! i); try done; split; intros [? ?]; done.
Qed.

Section requests.
Context (sha256 : pystr → string) (capacity : Decimal) (ncpus : Z).

Lemma serve_inr session r w u w' :
  serve sha256 capacity ncpus session r w = (inr u, w') →
  ∃ p s', resolve_current_user session (new_session (w_db w)) = (inr p, new_session (w_db w)) ∧
    route sha256 capacity ncpus r p (new_session (w_db w)) = (inr tt, s') ∧
    w' = run_post_commit_callbacks (post_commit_callbacks s') (w <| w_db := db s' |>).
Proof.
  intros H. unfold serve, session_scope in H.
  match type of H with (match ?m with _ => _ end) = _ => destruct m as [[e|[]] s'] eqn:E end;
    [done|]. injection H as <- <-. apply bind_inr in E as (p & s1 & Hp & E).
  pose proof (resolve_inr _ _ _ _ Hp) as [-> _]. eauto.
Qed.

Lemma serve_inl session r w e w' :
  serve sha256 capacity ncpus session r w = (inl e, w') →
  ∃ d, w' = w <| w_db := rollback (w_db w) d |>.
Proof.
  intros H. unfold serve, session_scope in H.
  match type of H with (match ?m with _ => _ end) = _ => destruct m as [[e'|[]] s'] eqn:E end;
    [|done]. injection H as <- <-. eauto.
Qed.
End requests.

(** A session that changed nothing leaves the world as it was. *)
Lemma rollback_same d : rollback d d = d.
Proof. destruct d. unfold rollback. simpl. by rewrite Pos.max_id, Z.max_id. Qed.

Lemma session_scope_read {A} (m : M Session A) w r :
  m (new_session (w_db w)) = (r, new_session (w_db w)) → session_scope m w = (r, w).
Proof.
  intros H. unfold session_scope. rewrite H. destruct w, r; simpl; [|done]. by rewrite rollback_same.
Qed.
