(* ===== verification/Demo.v ===== *)
(** * A concrete run of the gateway

    Two tenants, an administrator and a tenant user, a helper that accepts
    exactly what its decoder accepts.  The run allocates address space,
    creates, enables and fills a service, and applies it; the theorems are
    instantiated on it. *)

From S2P Require Import Prelude PyStr Ipaddress RuleMatch Models Db.
From S2P Require Import Apply Allocations PyNum Services Rules Lists.
From S2P Require Import Applier FeedRunner Processor Api System.
From stdpp Require Import pretty.
Import XdpgwApply.
Open Scope Z_scope.

Definition demo_sha (s : pystr) : string := pretty (N.pos (encode s)).

Definition demo_helper (_ : World) (bytes : list Z) : HelperOutcome :=
  match parse_snapshot bytes with
  | Some (SERVICE_FULL _) => Exited 0 None ""
  | Some (GLOBAL_DENY _ _) =>
      Exited 0 (Some (JObj [("active_slot"%string, JInt 0); ("node_map_version"%string, JInt 1)])) ""
  | None => Exited 1 None "invalid snapshot"
  end.

Definition demo_fetch (_ : World) (_ : ThreatFeedSource) : exn + list Z :=
  inl (FeedFetchError "offline").

Definition demo_capacity : Decimal := mkDecimal 100 0.

Definition tenant_a : uuid := 2000.
Definition tenant_b : uuid := 2001.
Definition demo_tenants : gmap uuid Tenant :=
  {[tenant_a := mkTenant tenant_a "a" tenant_active 0;
    tenant_b := mkTenant tenant_b "b" tenant_active 0]}.
Definition demo_users : gmap uuid User :=
  {[1000%positive := mkUser 1000 None admin "root" "" user_active 0 None 0;
    1001%positive := mkUser 1001 (Some tenant_a) tenant_user "alice" "" user_active 0 None 0]}.

Definition root_session : option SessionData :=
  Some (mkSessionData "r" 1000 0 0 1000 0 None).
Definition alice_session : option SessionData :=
  Some (mkSessionData "a" 1001 0 0 1000 0 None).

Abbreviation demo_serve := (serve demo_sha demo_capacity 4).
Abbreviation demo_step := (step demo_sha demo_capacity 4 demo_helper demo_fetch).
Abbreviation demo_process := (process_job demo_sha demo_helper demo_fetch
                                (DoubleBufferApplier demo_helper)).

Definition world0 : World := mkWorld empty_db [] true [] [].
Definition world1 : World :=
  world0 <| w_db := w_db world0 <| tenants := demo_tenants |> <| users := demo_users |> |>.

Definition demo_service : ServiceCreateRequest :=
  mkServiceCreateRequest None "web" (py "10.0.0.5/32") allow_rule_only None None None None None.
Definition demo_rule : RuleCreateRequest :=
  mkRuleCreateRequest 1 Protocol.tcp None None (Some 443) (Some 443) true.

(** The requests of the set-up, all answered. *)
Definition demo_requests : list (option SessionData * request) :=
  [(root_session, CreateAllocation tenant_a (py "10.0.0.0/24"));
   (root_session, CreateAllocation tenant_b (py "10.0.1.0/24"));
   (alice_session, CreateService demo_service);
   (alice_session, CreateRule 3 demo_rule);
   (alice_session, EnableService 3);
   (alice_session, AddWhitelist 3 (py "192.0.2.0/24"))].

Fixpoint serve_all (rs : list (option SessionData * request)) (w : World) : option World :=
  match rs with
  | [] => Some w
  | (session, r) :: rs =>
      match demo_serve session r w with
      | (inr _, w) => serve_all rs w
      | (inl _, _) => None
      end
  end.

Definition world2 : World := Eval vm_compute in default world1 (serve_all demo_requests world1).
Definition world3 : World := Eval vm_compute in (demo_process (fun _ => false) 9 world2).2.

Lemma serve_all_steps rs w w' :
  serve_all rs w = Some w' → rtc demo_step (w, Idle) (w', Idle).
Proof.
  revert w. induction rs as [|[session r] rs IH]; intros w H; simpl in H; [by injection H as <-|].
  destruct (demo_serve session r w) as [[e|u] w1] eqn:E; [done|].
  eapply rtc_l; [by eapply step_request|by apply IH].
Qed.

Lemma world2_reachable :
  reachable demo_sha demo_capacity 4 demo_helper demo_fetch (world2, Idle).
Proof.
  exists (world0, Idle). split; [done|]. eapply rtc_l; [apply (step_accounts _ _ _ _ _ demo_tenants demo_users)|].
  apply (serve_all_steps demo_requests world1). vm_compute. reflexivity.
Qed.

Lemma world3_reachable :
  reachable demo_sha demo_capacity 4 demo_helper demo_fetch (world3, Idle).
Proof.
  destruct world2_reachable as (x0 & Hi & Hs). exists x0. split; [done|]. etrans; [exact Hs|].
  apply (process_steps _ _ _ _ _ (fun _ => false) 9%positive _ (inr tt)).
  vm_compute. reflexivity.
Qed.

Lemma demo_helper_parses w bytes out err :
  demo_helper w bytes = Exited 0 out err → is_Some (parse_snapshot bytes).
Proof. unfold demo_helper. destruct (parse_snapshot bytes); [by eexists|done]. Qed.

(** The service of the run, and the principal behind the tenant's session. *)
Definition service3 : ProtectedService :=
  Eval vm_compute in default (mkProtectedService 1 1 1 "" (Net 0 0) allow_rule_only false None None
    None None ApplyStatus.pending 1 None None 0 0) (protected_service (w_db world3) !! 3%positive).
Definition alice : Deps.Principal :=
  Deps.mkPrincipal 1001 "alice" tenant_user (Some tenant_a) "a".
