(* ===== verification/SessionStore.v ===== *)
(** * Login sessions in Redis ([core/sessions.py], [core/security.py])

    The store maps session ids to the session they were given and to the
    time at which Redis drops the key, and users to the set of their session
    ids.  A request changes the store at once, whatever becomes of its
    database transaction: [Ctx] carries both. *)

From S2P Require Import Prelude PyStr Ipaddress RuleMatch Models Db Api.
Open Scope Z_scope.

#[global] Instance SessionData_eta : Eta SessionData := MkEta (fun r =>
  mkSessionData (sess_sid r) (sess_user_id r) (sess_session_version r) (sess_created_at r)
    (sess_absolute_expiry r) (sess_last_seen r) (sess_ip r)).

(** A key with its value and its expiry ([SET key value EX seconds]). *)
Record StoredSession := mkStoredSession {
  ss_session : SessionData;
  ss_expires_at : timestamp
}.

(** [draws] counts the random draws, of session ids and of salts. *)
Record Store := mkStore {
  session_keys : gmap string StoredSession;
  user_sessions : gmap uuid (gset string);
  draws : nat
}.

#[global] Instance Store_eta : Eta Store := MkEta (fun r =>
  mkStore (session_keys r) (user_sessions r) (draws r)).

Record Ctx := mkCtx { cx_tx : Session; cx_store : Store }.

#[global] Instance Ctx_eta : Eta Ctx := MkEta (fun r => mkCtx (cx_tx r) (cx_store r)).

(** A computation on the database session, and one on the store. *)
Definition in_tx {A} (m : M Session A) : M Ctx A := fun c =>
  match m (cx_tx c) with (r, s) => (r, c <| cx_tx := s |>) end.
Definition redis (f : Store → Store) : M Ctx unit := modS (fun c => c <| cx_store := f (cx_store c) |>).
Definition get_store {A} (f : Store → A) : M Ctx A := gets (fun c => f (cx_store c)).
Definition now_ : M Ctx timestamp := in_tx utc_now.

Definition draw : M Ctx nat :=
  n ← get_store draws;
  redis (fun st => st <| draws := S n |>) ;;
  mret n.

(** [sorted] on ASCII session ids. *)
Definition sid_le (a b : string) : Prop := String.leb a b = true.
#[global] Instance sid_le_dec : RelDecision sid_le.
Proof. intros a b. unfold sid_le. apply _. Defined.

Section store.
(** [secrets.token_urlsafe(32)] at its [n]-th call, and the two settings. *)
Context (token_urlsafe : nat → string) (idle_seconds absolute_seconds : Z).

Definition seconds (n : Z) : Z := n * 1000000.

Definition new_session_id : M Ctx string :=
  n ← draw;
  mret (token_urlsafe n).

(** The key is gone once its time is up. *)
Definition live (now : timestamp) (e : StoredSession) : bool := now <? ss_expires_at e.

Definition _read (now : timestamp) (sid : string) (st : Store) : option SessionData :=
  match session_keys st !! sid with
  | Some e => if live now e then Some (ss_session e <| sess_sid := sid |>) else None
  | None => None
  end.

Definition _is_absolute_expired (now : timestamp) (session : SessionData) : bool :=
  sess_absolute_expiry session <=? now.

(** [SET session:<sid> ... EX idle_seconds]. *)
Definition set_key (now : timestamp) (sid : string) (session : SessionData) (st : Store) : Store :=
  st <| session_keys :=
    <[sid := mkStoredSession session (now + seconds idle_seconds)]> (session_keys st) |>.

Definition delete_key (sid : string) (st : Store) : Store :=
  st <| session_keys := delete sid (session_keys st) |>.

(** [SADD] and [SREM]. *)
Definition smembers (uid : uuid) (st : Store) : gset string :=
  default ∅ (user_sessions st !! uid).
Definition sadd (uid : uuid) (sid : string) (st : Store) : Store :=
  st <| user_sessions := <[uid := {[sid]} ∪ smembers uid st]> (user_sessions st) |>.
Definition srem (uid : uuid) (sid : string) (st : Store) : Store :=
  st <| user_sessions := <[uid := smembers uid st ∖ {[sid]}]> (user_sessions st) |>.

Definition create (user_id_ : uuid) (session_version : Z) (ip : option string) : M Ctx string :=
  sid ← new_session_id;
  now ← now_;
  let session := mkSessionData sid user_id_ session_version now
                   (now + seconds absolute_seconds) now ip in
  redis (set_key now sid session) ;;
  redis (sadd user_id_ sid) ;;
  mret sid.

Definition revoke_in (now : timestamp) (sid : string) (st : Store) : Store :=
  match _read now sid st with
  | Some session => srem (sess_user_id session) sid (delete_key sid st)
  | None => delete_key sid st
  end.
Definition revoke (sid : string) : M Ctx unit :=
  now ← now_;
  redis (revoke_in now sid).

(** [get]: the read, and what it writes back. *)
Definition refreshed (now : timestamp) (session : SessionData) : SessionData :=
  session <| sess_last_seen := now |>.
Definition get (sid : string) : M Ctx (option SessionData) :=
  now ← now_;
  read ← get_store (_read now sid);
  match read with
  | None => mret None
  | Some session =>
      if _is_absolute_expired now session then revoke sid ;; mret None else
      let refreshed := refreshed now session in
      redis (set_key now sid refreshed) ;;
      mret (Some refreshed)
  end.

Definition revoke_all_in (uid : uuid) (st : Store) : Store :=
  st <| session_keys := filter (fun kv => kv.1 ∉ smembers uid st) (session_keys st) |>
     <| user_sessions := delete uid (user_sessions st) |>.
Definition revoke_all (uid : uuid) : M Ctx unit := redis (revoke_all_in uid).

(** The loop of [list_for_user] over the sorted ids. *)
Fixpoint list_sids (now : timestamp) (sids : list string) (st : Store) : list SessionData * Store :=
  match sids with
  | [] => ([], st)
  | sid :: sids =>
      match _read now sid st with
      | Some session =>
          if _is_absolute_expired now session then list_sids now sids (revoke_in now sid st)
          else let '(rest, st') := list_sids now sids st in (session :: rest, st')
      | None => list_sids now sids (revoke_in now sid st)
      end
  end.
Definition list_for_user (uid : uuid) : M Ctx (list SessionData) :=
  now ← now_;
  st ← get_store id;
  let '(sessions, st') := list_sids now (merge_sort sid_le (elements (smembers uid st))) st in
  redis (fun _ => st') ;;
  mret sessions.

Definition set_session_version (sid : string) (session_version : Z) : M Ctx bool :=
  now ← now_;
  read ← get_store (_read now sid);
  match read with
  | Some session =>
      if _is_absolute_expired now session then revoke sid ;; mret false else
      redis (set_key now sid (session <| sess_session_version := session_version |>
                                  <| sess_last_seen := now |>)) ;;
      mret true
  | None => revoke sid ;; mret false
  end.
End store.
