(* ===== verification/Accounts.v ===== *)
(** * Tenants, users and logins ([services/auth.py], [services/users.py],
    [services/tenants.py])

    The operations run on the database session and on the session store of
    [SessionStore].  Password hashing is a parameter: [pwd_hash salt plain] is
    what [PasswordHash.hash] returns at a draw of its salt, [pwd_verify plain
    hashed] what [PasswordHash.verify] returns, [None] for [UnknownHashError].
    Names are ASCII; the [CITEXT] columns compare them without case. *)

From S2P Require Import Prelude PyStr Ipaddress RuleMatch Models Db.
From S2P Require Import Services Api SessionStore.
From stdpp Require Import pretty.
Import Deps.
Open Scope Z_scope.

(** ** Rows *)

(** Equality of [CITEXT] values. *)
Definition citext_eq (a b : string) : bool := bool_decide (lower a = lower b).

Definition put_user (u : User) : M Session unit :=
  mod_db (fun d => d <| users := <[user_id u := u]> (users d) |>).
Definition put_tenant (t : Tenant) : M Session unit :=
  mod_db (fun d => d <| tenants := <[tenant_id t := t]> (tenants d) |>).

(** The constraints of [users]: the primary key (for a new row), the unique
    [username], [ck_users_role_tenant] and the reference to [tenants]. *)
Definition other_username (d : Db) (u : User) : list User :=
  select_where (fun x => citext_eq (user_username x) (user_username u) &&
                         negb (bool_decide (user_id x = user_id u))) (users d).
Definition role_tenant_ok (u : User) : bool :=
  match user_role u, user_tenant_id u with
  | admin, None => true
  | tenant_user, Some _ => true
  | _, _ => false
  end.
Definition tenant_exists (d : Db) (t : option uuid) : bool :=
  match t with None => true | Some t => bool_decide (is_Some (tenants d !! t)) end.
Definition flush_user (u : User) : M Session unit :=
  d ← get_db id;
  require (bool_decide (other_username d u = [])) (IntegrityError "users_username_key") ;;
  require (role_tenant_ok u) (IntegrityError "ck_users_role_tenant") ;;
  require (tenant_exists d (user_tenant_id u)) (IntegrityError "users_tenant_id_fkey") ;;
  put_user u.

Definition same_tenant_name (d : Db) (t : Tenant) : list Tenant :=
  select_where (fun x => citext_eq (tenant_name x) (tenant_name t) &&
                         negb (bool_decide (tenant_id x = tenant_id t))) (tenants d).
Definition flush_tenant (t : Tenant) : M Session unit :=
  d ← get_db id;
  require (bool_decide (same_tenant_name d t = [])) (IntegrityError "uq_tenants_name") ;;
  put_tenant t.

(** [DELETE FROM users]: every reference to the row is set to null. *)
Definition null_if (uid : uuid) (o : option uuid) : option uuid :=
  if bool_decide (o = Some uid) then None else o.
Definition delete_user_row (uid : uuid) (d : Db) : Db :=
  d <| users := delete uid (users d) |>
    <| allocated_cidr := (fun a =>
         a <| alloc_allocated_by := null_if uid (alloc_allocated_by a) |>) <$> allocated_cidr d |>
    <| protected_service := (fun s =>
         s <| svc_created_by := null_if uid (svc_created_by s) |>) <$> protected_service d |>
    <| whitelist_entry := (fun w => mkWhitelistEntry (wl_id w) (wl_service_id w)
         (wl_source_cidr w) (null_if uid (wl_created_by w)) (wl_created_at w)) <$> whitelist_entry d |>
    <| blacklist_entry := (fun e =>
         e <| bl_created_by := null_if uid (bl_created_by e) |>) <$> blacklist_entry d |>
    <| blocked_udp_port := (fun b => mkBlockedUdpPort (bp_port b) (bp_note b)
         (null_if uid (bp_created_by b)) (bp_created_at b)) <$> blocked_udp_port d |>
    <| node_control := (fun c =>
         c <| nc_bypass_actor_user_id := null_if uid (nc_bypass_actor_user_id c) |>
           <| nc_maintenance_actor_user_id := null_if uid (nc_maintenance_actor_user_id c) |>)
         <$> node_control d |>
    <| audit_events := (fun e => mkAuditEvent (null_if uid (audit_actor_user_id e))
         (audit_actor_username e) (audit_action e) (audit_target_type e) (audit_target_id e)
         (audit_outcome e) (audit_ip_address e) (audit_metadata e) (audit_created_at e))
         <$> audit_events d |>.

(** [DELETE FROM tenants]: users, allocations and services restrict it. *)
Definition tenant_referenced (d : Db) (t : uuid) : bool :=
  negb (bool_decide (select_where (fun u => bool_decide (user_tenant_id u = Some t)) (users d) = [])) ||
  negb (bool_decide (select_where (fun a => bool_decide (alloc_tenant_id a = t)) (allocated_cidr d) = [])) ||
  negb (bool_decide (select_where (fun s => bool_decide (svc_tenant_id s = t)) (protected_service d) = [])).
Definition delete_tenant_row (t : uuid) : M Session unit :=
  d ← get_db id;
  require (negb (tenant_referenced d t)) (IntegrityError "tenants_restrict_fkey") ;;
  mod_db (fun d => d <| tenants := delete t (tenants d) |>).

(** ** [services/tenants.py] *)

Record TenantSummary := mkTenantSummary {
  ts_tenant : Tenant;
  ts_active_allocation_count : nat;
  ts_user_count : nat
}.

Definition tenant_not_found : exn := HTTPException 404 "Tenant not found".
Definition tenant_status_value (s : TenantStatus) : string :=
  match s with tenant_active => "active" | tenant_suspended => "suspended" end.

Definition _get_existing_tenant (t : uuid) : M Session Tenant :=
  ts ← get_db tenants;
  get_or_raise (ts !! t) tenant_not_found.

Definition _ensure_unique_name (name : string) (exclude : option uuid) : M Session unit :=
  matching ← get_db (fun d => select_where (fun t => citext_eq (tenant_name t) name) (tenants d));
  existing ← one_or_none matching;
  require (match existing with
           | Some t => bool_decide (Some (tenant_id t) = exclude)
           | None => true
           end) (HTTPException 409 "Tenant already exists").

Definition tenant_users (d : Db) (t : uuid) : list User :=
  select_where (fun u => bool_decide (user_tenant_id u = Some t)) (users d).
Definition _summary (d : Db) (tenant : Tenant) : TenantSummary :=
  mkTenantSummary tenant
    (length (select_where (fun a => bool_decide (alloc_tenant_id a = tenant_id tenant) &&
                                    bool_decide (alloc_status a = cidr_active)) (allocated_cidr d)))
    (length (tenant_users d (tenant_id tenant))).
Definition get_tenant_summary (t : uuid) : M Session (option TenantSummary) :=
  get_db (fun d => _summary d <$> tenants d !! t).
Definition list_tenants (d : Db) : list TenantSummary :=
  _summary d <$> order_by tenant_created_at (rows (tenants d)).

Definition nat_str (n : nat) : string := pretty (N.of_nat n).
Definition _delete_blockers (d : Db) (t : uuid) : list string :=
  let user_count := length (tenant_users d t) in
  let allocation_count := length (select_where (fun a => bool_decide (alloc_tenant_id a = t) &&
    negb (bool_decide (alloc_status a = cidr_revoked))) (allocated_cidr d)) in
  (if (user_count =? 0)%nat then [] else ["users:" +:+ nat_str user_count]) ++
  (if (allocation_count =? 0)%nat then [] else ["allocations:" +:+ nat_str allocation_count]).

Definition tenant_event (actor : option User) (action : string) (t : Tenant) (outcome : string)
    (ip : option string) (metadata : list (string * jval)) : M Session unit :=
  record_event actor action (Some "tenant"%string) (Some (uuid_str (tenant_id t))) outcome ip
    (Some metadata).
Definition name_and_status (t : Tenant) : list (string * jval) :=
  [("name"%string, JStr (tenant_name t)); ("status"%string, JStr (tenant_status_value (tenant_status t)))].

Definition create_tenant (actor : option User) (name : string) (ip : option string)
    : M Session Tenant :=
  _ensure_unique_name name None ;;
  id ← uuid4;
  now ← utc_now;
  let tenant := mkTenant id name tenant_active now in
  check_pkey tenants id "tenants_pkey" ;;
  flush_tenant tenant ;;
  tenant_event actor "tenant.create" tenant "success" ip (name_and_status tenant) ;;
  mret tenant.

Definition update_tenant (actor : option User) (t : uuid) (name : option string)
    (status : option TenantStatus) (ip : option string) : M Session Tenant :=
  tenant ← _get_existing_tenant t;
  tenant ← (match name with
            | Some n =>
                if bool_decide (n = tenant_name tenant) then mret tenant
                else _ensure_unique_name n (Some (tenant_id tenant)) ;;
                     mret (tenant <| tenant_name := n |>)
            | None => mret tenant
            end);
  let tenant := match status with
                | Some st => tenant <| tenant_status := st |>
                | None => tenant
                end in
  flush_tenant tenant ;;
  tenant_event actor "tenant.update" tenant "success" ip (name_and_status tenant) ;;
  mret tenant.

Definition set_tenant_status (actor : option User) (t : uuid) (status : TenantStatus)
    (ip : option string) : M Session Tenant :=
  tenant ← _get_existing_tenant t;
  let tenant := tenant <| tenant_status := status |> in
  flush_tenant tenant ;;
  tenant_event actor "tenant.status" tenant "success" ip
    [("status"%string, JStr (tenant_status_value status))] ;;
  mret tenant.

Definition delete_tenant (actor : option User) (t : uuid) (ip : option string) : M Session unit :=
  tenant ← _get_existing_tenant t;
  blockers ← get_db (fun d => _delete_blockers d t);
  if bool_decide (blockers = []) then
    tenant_event actor "tenant.delete" tenant "success" ip
      [("name"%string, JStr (tenant_name tenant))] ;;
    delete_tenant_row (tenant_id tenant)
  else
    tenant_event actor "tenant.delete" tenant "denied" ip
      [("blockers"%string, JList (JStr <$> blockers))] ;;
    raise (HTTPBlocked 409 "Tenant has dependents" blockers).

(** ** [services/users.py] *)

Definition role_value (r : Role) : string :=
  match r with admin => "admin" | tenant_user => "tenant_user" end.
Definition user_status_value (s : UserStatus) : string :=
  match s with user_active => "active" | user_disabled => "disabled" end.
Definition opt_uuid (o : option uuid) : jval :=
  match o with Some t => JStr (uuid_str t) | None => JNull end.

(** The session hands out one object per row: an actor who changes the own row
    is seen by the audit trail with the change. *)
Definition same_object (actor : option User) (user : User) : option User :=
  match actor with
  | Some a => if bool_decide (user_id a = user_id user) then Some user else actor
  | None => None
  end.

Definition user_event (actor : option User) (action : string) (target : User) (outcome : string)
    (ip : option string) (metadata : option (list (string * jval))) : M Session unit :=
  record_event actor action (Some "user"%string) (Some (uuid_str (user_id target))) outcome ip
    metadata.

Definition _get_existing_user (uid : uuid) : M Session User :=
  us ← get_db users;
  get_or_raise (us !! uid) (HTTPException 404 "User not found").

Definition invalid_role_scope : exn := HTTPException 422 "Invalid role scope".
Definition _validate_role_tenant (role : Role) (tenant : option uuid) : M Session unit :=
  ts ← get_db tenants;
  require (match role, tenant with
           | admin, None => true
           | admin, Some _ => false
           | tenant_user, None => false
           | tenant_user, Some t => bool_decide (is_Some (ts !! t))
           end) invalid_role_scope.

Definition with_username (d : Db) (username : string) : list User :=
  select_where (fun u => citext_eq (user_username u) username) (users d).
Definition _ensure_unique_username (username : string) (exclude_user_id : option uuid)
    : M Session unit :=
  matching ← get_db (fun d => with_username d username);
  existing ← one_or_none matching;
  require (match existing with
           | Some u => bool_decide (Some (user_id u) = exclude_user_id)
           | None => true
           end) (HTTPException 409 "Username already exists").

Definition is_active_admin (u : User) : bool :=
  bool_decide (user_role u = admin) && bool_decide (user_status u = user_active).
Definition other_active_admins (d : Db) (uid : uuid) : list User :=
  select_where (fun u => is_active_admin u && negb (bool_decide (user_id u = uid))) (users d).

(** The query of [scalar_one_or_none] has no limit. *)
Definition _ensure_not_last_active_admin (user : User) : M Session unit :=
  if negb (is_active_admin user) then mret tt else
  others ← get_db (fun d => other_active_admins d (user_id user));
  other_admin ← one_or_none others;
  require (bool_decide (is_Some other_admin)) (HTTPException 409 "Cannot remove last admin").

Section accounts.
Context (token_urlsafe : nat → string) (idle_seconds absolute_seconds : Z).
Context (pwd_hash : nat → string → string) (pwd_verify : string → string → option bool).

Definition hash_password (plain : string) : M Ctx string :=
  salt ← draw;
  mret (pwd_hash salt plain).
Definition verify_password (plain hashed : string) : bool := default false (pwd_verify plain hashed).

Definition _bump_version_and_revoke (user : User) : M Ctx User :=
  let user := user <| user_session_version := user_session_version user + 1 |> in
  revoke_all (user_id user) ;;
  mret user.

Definition create_user (actor : option User) (username password : string) (role : Role)
    (tenant : option uuid) (ip : option string) : M Ctx User :=
  in_tx (_validate_role_tenant role tenant) ;;
  in_tx (_ensure_unique_username username None) ;;
  hash ← hash_password password;
  in_tx (
    id ← uuid4;
    now ← utc_now;
    let user := mkUser id tenant role username hash user_active 1 None now in
    check_pkey users id "users_pkey" ;;
    flush_user user ;;
    user_event actor "user.create" user "success" ip
      (Some [("role"%string, JStr (role_value role)); ("tenant_id"%string, opt_uuid tenant)]) ;;
    mret user).

Definition update_user (actor : option User) (uid : uuid) (username : option string)
    (role : option Role) (tenant : option uuid) (ip : option string) : M Ctx User :=
  user ← in_tx (_get_existing_user uid);
  let new_role := default (user_role user) role in
  let new_tenant := if bool_decide (is_Some role) || bool_decide (is_Some tenant)
                    then tenant else user_tenant_id user in
  in_tx (_validate_role_tenant new_role new_tenant) ;;
  user ← (match username with
          | Some n =>
              if bool_decide (n = user_username user) then mret user
              else in_tx (_ensure_unique_username n (Some (user_id user))) ;;
                   mret (user <| user_username := n |>)
          | None => mret user
          end);
  user ← (if negb (bool_decide (new_role = user_role user)) ||
             negb (bool_decide (new_tenant = user_tenant_id user)) then
            (if bool_decide (user_role user = admin) && negb (bool_decide (new_role = admin))
             then in_tx (_ensure_not_last_active_admin user) else mret tt) ;;
            _bump_version_and_revoke (user <| user_role := new_role |> <| user_tenant_id := new_tenant |>)
          else mret user);
  in_tx (
    flush_user user ;;
    user_event (same_object actor user) "user.update" user "success" ip
      (Some [("role"%string, JStr (role_value (user_role user)));
             ("tenant_id"%string, opt_uuid (user_tenant_id user))])) ;;
  mret user.

Definition set_status (actor : option User) (uid : uuid) (status : UserStatus) (ip : option string)
    : M Ctx User :=
  user ← in_tx (_get_existing_user uid);
  (if bool_decide (status = user_disabled) then in_tx (_ensure_not_last_active_admin user)
   else mret tt) ;;
  user ← (if bool_decide (user_status user = status) then mret user
          else _bump_version_and_revoke (user <| user_status := status |>));
  in_tx (
    flush_user user ;;
    user_event (same_object actor user) "user.status" user "success" ip
      (Some [("status"%string, JStr (user_status_value status))])) ;;
  mret user.

Definition reset_password (actor : option User) (uid : uuid) (new_password : string)
    (ip : option string) : M Ctx User :=
  user ← in_tx (_get_existing_user uid);
  hash ← hash_password new_password;
  user ← _bump_version_and_revoke (user <| user_password_hash := hash |>);
  in_tx (
    flush_user user ;;
    user_event (same_object actor user) "user.password.reset" user "success" ip None) ;;
  mret user.

Definition delete_user (actor : option User) (uid : uuid) (ip : option string) : M Ctx unit :=
  user ← in_tx (_get_existing_user uid);
  in_tx (_ensure_not_last_active_admin user) ;;
  revoke_all (user_id user) ;;
  in_tx (
    user_event actor "user.delete" user "success" ip None ;;
    mod_db (delete_user_row (user_id user))).

(** The loop over the user's sessions in [change_own_password]. *)
Fixpoint keep_only (current_session_id : string) (version : Z) (sessions : list SessionData)
    : M Ctx unit :=
  match sessions with
  | [] => mret tt
  | session :: sessions =>
      (if bool_decide (sess_sid session = current_session_id)
       then set_session_version idle_seconds current_session_id version ;; mret tt
       else revoke (sess_sid session)) ;;
      keep_only current_session_id version sessions
  end.

Definition invalid_credentials : exn := HTTPException 401 "Invalid credentials".

Definition change_own_password (user : User) (current_session_id current_password new_password : string)
    (ip : option string) : M Ctx User :=
  if negb (verify_password current_password (user_password_hash user)) then
    in_tx (user_event (Some user) "user.password.change_failed" user "denied" ip None) ;;
    raise invalid_credentials
  else
    hash ← hash_password new_password;
    let user := user <| user_password_hash := hash |>
                     <| user_session_version := user_session_version user + 1 |> in
    sessions ← list_for_user (user_id user);
    keep_only current_session_id (user_session_version user) sessions ;;
    in_tx (
      flush_user user ;;
      user_event (Some user) "user.password.change" user "success" ip None) ;;
    mret user.

(** ** [services/auth.py] *)

Definition _failed_login {A} (actor : option User) (username : string) (ip : option string)
    : M Ctx A :=
  in_tx (record_event actor "auth.login.failed" (Some "user"%string)
           ((fun u => uuid_str (user_id u)) <$> actor) "denied" ip
           (Some [("username"%string, JStr username)])) ;;
  raise invalid_credentials.

Definition login (username password : string) (ip : option string) : M Ctx (string * User) :=
  matching ← in_tx (get_db (fun d => with_username d username));
  found ← in_tx (one_or_none matching);
  match found with
  | None => _failed_login None username ip
  | Some user =>
      if negb (verify_password password (user_password_hash user))
      then _failed_login (Some user) username ip else
      if negb (bool_decide (user_status user = user_active))
      then _failed_login (Some user) username ip else
      ok ← in_tx (get_db (fun d => tenant_is_active d (user_tenant_id user)));
      if bool_decide (user_role user = tenant_user) && negb ok
      then _failed_login (Some user) username ip else
      now ← now_;
      let user := user <| user_last_login_at := Some now |> in
      session_id ← create token_urlsafe idle_seconds absolute_seconds (user_id user)
                     (user_session_version user) ip;
      in_tx (
        flush_user user ;;
        user_event (Some user) "auth.login" user "success" ip None) ;;
      mret (session_id, user)
  end.

Definition logout (actor : option User) (session_id : string) (ip : option string) : M Ctx unit :=
  revoke session_id ;;
  in_tx (record_event actor "auth.logout" (Some "session"%string) (Some session_id) "success" ip None).

(** [bootstrap_username] and [bootstrap_password] are the settings' values. *)
Definition bootstrap_admin (bootstrap_username bootstrap_password : option string)
    (ip : option string) : M Ctx User :=
  existing ← in_tx (get_db (fun d => head (order_by user_created_at
    (select_where (fun u => bool_decide (user_role u = admin)) (users d)))));
  match existing with
  | Some user => mret user
  | None =>
      match bootstrap_username, bootstrap_password with
      | Some username, Some password =>
          if bool_decide (username = "") || bool_decide (password = "")
          then raise (HTTPException 422 "Bootstrap credentials are required") else
          hash ← hash_password password;
          in_tx (
            id ← uuid4;
            now ← utc_now;
            let user := mkUser id None admin username hash user_active 1 None now in
            check_pkey users id "users_pkey" ;;
            flush_user user ;;
            user_event None "auth.bootstrap" user "success" ip
              (Some [("username"%string, JStr username)]) ;;
            mret user)
      | _, _ => raise (HTTPException 422 "Bootstrap credentials are required")
      end
  end.
End accounts.
