(* ===== verification/AccountsApi.v ===== *)
(** * The account routes ([api/routers/auth.py], [users.py], [tenants.py])

    A request resolves its cookie through the session store, runs its route
    on the database session and the store, and commits or rolls back the
    database; the store keeps what it was told. *)

From S2P Require Import Prelude PyStr Ipaddress RuleMatch Models Db.
From S2P Require Import Services Api SessionStore Accounts.
Import Deps.
Open Scope Z_scope.

(** ** [api/schemas] *)

Record UserCreateRequest := mkUserCreateRequest {
  uc_username : string;
  uc_password : string;
  uc_role : Role;
  uc_tenant_id : option uuid
}.
Record UserPatchRequest := mkUserPatchRequest {
  up_username : option string;
  up_role : option Role;
  up_tenant_id : option uuid;
  up_status : option UserStatus
}.
Record TenantPatchRequest := mkTenantPatchRequest {
  tp_name : option string;
  tp_status : option TenantStatus
}.

Inductive account_request :=
  | Login (username password : string)
  | Logout
  | ChangePassword (current_password new_password : string)
  | CreateUser (payload : UserCreateRequest)
  | UpdateUser (user_id_ : uuid) (payload : UserPatchRequest)
  | DeleteUser (user_id_ : uuid)
  | ResetPassword (user_id_ : uuid) (new_password : string)
  | CreateTenant (name : string)
  | UpdateTenant (tenant_id_ : uuid) (payload : TenantPatchRequest)
  | DeleteTenant (tenant_id_ : uuid)
  | SuspendTenant (tenant_id_ : uuid)
  | ReactivateTenant (tenant_id_ : uuid).

(** The gateway's world and the session store. *)
Record AWorld := mkAWorld { aw_world : World; aw_store : Store }.

#[global] Instance AWorld_eta : Eta AWorld := MkEta (fun r => mkAWorld (aw_world r) (aw_store r)).

(** [get_db] around a route that also uses the store. *)
Definition account_scope {A} (m : M Ctx A) : M AWorld A := fun aw =>
  match m (mkCtx (new_session (w_db (aw_world aw))) (aw_store aw)) with
  | (inr a, c) =>
      (inr a, mkAWorld (run_post_commit_callbacks (post_commit_callbacks (cx_tx c))
                          (aw_world aw <| w_db := db (cx_tx c) |>)) (cx_store c))
  | (inl e, c) =>
      (inl e, mkAWorld (aw_world aw <| w_db := rollback (w_db (aw_world aw)) (db (cx_tx c)) |>)
                (cx_store c))
  end.

Section caller.
Context (idle_seconds : Z).

(** [get_current_user] and [resolve_current_user] of [core/deps.py]. *)
Definition get_current_user (cookie : option string) : M Ctx Principal :=
  match cookie with
  | None => raise raise_unauthenticated
  | Some sid =>
      session ← get idle_seconds sid;
      in_tx (resolve_current_user session)
  end.

Definition admin_actor (cookie : option string) : M Ctx (option User) :=
  principal ← get_current_user cookie;
  principal ← lift (require_admin principal);
  in_tx (_load_actor principal).
End caller.

Module AuthRouter.
Section routes.
Context (token_urlsafe : nat → string) (idle_seconds absolute_seconds : Z).
Context (pwd_hash : nat → string → string) (pwd_verify : string → string → option bool).

Definition login (username password : string) : M Ctx string :=
  result ← login token_urlsafe idle_seconds absolute_seconds pwd_verify username password None;
  mret result.1.

Definition logout (cookie : option string) : M Ctx unit :=
  principal ← get_current_user idle_seconds cookie;
  actor ← in_tx (_load_actor principal);
  logout actor (p_session_id principal) None.

Definition change_password (cookie : option string) (current_password new_password : string)
    : M Ctx unit :=
  principal ← get_current_user idle_seconds cookie;
  user ← in_tx (_load_actor principal);
  user ← get_or_raise user raise_unauthenticated;
  change_own_password idle_seconds pwd_hash pwd_verify user (p_session_id principal)
    current_password new_password None ;;
  mret tt.
End routes.
End AuthRouter.

Module UsersRouter.
Section routes.
Context (idle_seconds : Z) (pwd_hash : nat → string → string).

Definition create_user (cookie : option string) (payload : UserCreateRequest) : M Ctx unit :=
  actor ← admin_actor idle_seconds cookie;
  create_user pwd_hash actor (uc_username payload) (uc_password payload) (uc_role payload)
    (uc_tenant_id payload) None ;;
  mret tt.

Definition update_user (cookie : option string) (uid : uuid) (payload : UserPatchRequest)
    : M Ctx unit :=
  actor ← admin_actor idle_seconds cookie;
  user ← update_user actor uid (up_username payload) (up_role payload) (up_tenant_id payload) None;
  match up_status payload with
  | Some status => set_status (same_object actor user) uid status None ;; mret tt
  | None => mret tt
  end.

Definition delete_user (cookie : option string) (uid : uuid) : M Ctx unit :=
  actor ← admin_actor idle_seconds cookie;
  delete_user actor uid None.

Definition reset_password (cookie : option string) (uid : uuid) (new_password : string) : M Ctx unit :=
  actor ← admin_actor idle_seconds cookie;
  reset_password pwd_hash actor uid new_password None ;;
  mret tt.
End routes.
End UsersRouter.

Module TenantsRouter.
Section routes.
Context (idle_seconds : Z).

(** The response is built from the stored row. *)
Definition respond (tenant : Tenant) : M Session unit :=
  summary ← get_tenant_summary (tenant_id tenant);
  get_or_raise summary tenant_not_found ;;
  mret tt.

Definition create_tenant (cookie : option string) (name : string) : M Ctx unit :=
  actor ← admin_actor idle_seconds cookie;
  in_tx (tenant ← create_tenant actor name None; respond tenant).

Definition update_tenant (cookie : option string) (t : uuid) (payload : TenantPatchRequest)
    : M Ctx unit :=
  actor ← admin_actor idle_seconds cookie;
  in_tx (tenant ← update_tenant actor t (tp_name payload) (tp_status payload) None; respond tenant).

Definition delete_tenant (cookie : option string) (t : uuid) : M Ctx unit :=
  actor ← admin_actor idle_seconds cookie;
  in_tx (delete_tenant actor t None).

Definition _set_tenant_status (cookie : option string) (t : uuid) (status : TenantStatus)
    : M Ctx unit :=
  actor ← admin_actor idle_seconds cookie;
  in_tx (tenant ← set_tenant_status actor t status None; respond tenant).
End routes.
End TenantsRouter.

Section serve.
Context (token_urlsafe : nat → string) (idle_seconds absolute_seconds : Z).
Context (pwd_hash : nat → string → string) (pwd_verify : string → string → option bool).

Definition account_route (cookie : option string) (r : account_request) : M Ctx unit :=
  match r with
  | Login username password => AuthRouter.login token_urlsafe idle_seconds absolute_seconds pwd_verify username password ;; mret tt
  | Logout => AuthRouter.logout idle_seconds cookie
  | ChangePassword current new => AuthRouter.change_password idle_seconds pwd_hash pwd_verify cookie current new
  | CreateUser payload => UsersRouter.create_user idle_seconds pwd_hash cookie payload
  | UpdateUser uid payload => UsersRouter.update_user idle_seconds cookie uid payload
  | DeleteUser uid => UsersRouter.delete_user idle_seconds cookie uid
  | ResetPassword uid new => UsersRouter.reset_password idle_seconds pwd_hash cookie uid new
  | CreateTenant name => TenantsRouter.create_tenant idle_seconds cookie name
  | UpdateTenant t payload => TenantsRouter.update_tenant idle_seconds cookie t payload
  | DeleteTenant t => TenantsRouter.delete_tenant idle_seconds cookie t
  | SuspendTenant t => TenantsRouter._set_tenant_status idle_seconds cookie t tenant_suspended
  | ReactivateTenant t => TenantsRouter._set_tenant_status idle_seconds cookie t tenant_active
  end.

Definition serve_account (cookie : option string) (r : account_request) : M AWorld unit :=
  account_scope (account_route cookie r).
End serve.
