(* ===== verification/AccountsInv.v ===== *)
(** * Invariants of accounts and sessions

    What a request may do to the sessions in the store whatever its outcome,
    what it does to the users when it commits, and the consequences over any
    sequence of requests, with refreshes of sessions interleaved. *)

From S2P Require Import Prelude PyStr Ipaddress RuleMatch Models Db.
From S2P Require Import Services Isolation Api SessionStore Accounts AccountsApi.
Import Deps.
Open Scope Z_scope.

(** ** Sessions only disappear *)

(** [sid] is in the store for [uid] at session version [v]. *)
Definition held (st : Store) (sid : string) (uid : uuid) (v : Z) : Prop :=
  ∃ e, session_keys st !! sid = Some e ∧ sess_user_id (ss_session e) = uid ∧
       sess_session_version (ss_session e) = v.

Definition store_le (st st' : Store) : Prop :=
  (draws st <= draws st')%nat ∧ ∀ sid uid v, held st' sid uid v → held st sid uid v.

#[global] Instance store_le_preorder : PreOrder store_le.
Proof. split; [done|]. intros x y z [? H1] [? H2]. split; [lia|auto]. Qed.

Definition shrinks {A} (m : M Ctx A) : Prop :=
  ∀ c r c', m c = (r, c') → store_le (cx_store c) (cx_store c').

Lemma shrinks_bind {A B} (m : M Ctx A) (k : A → M Ctx B) :
  shrinks m → (∀ a, shrinks (k a)) → shrinks (m ≫= k).
Proof.
  intros Hm Hk c r c' H. rewrite bind_run in H. destruct (m c) as [[e|a] c1] eqn:E.
  - injection H as <- <-. by eapply Hm.
  - etrans; [by eapply Hm|by eapply Hk].
Qed.

Lemma shrinks_in_tx {A} (m : M Session A) : shrinks (in_tx m).
Proof. intros c r c' H. unfold in_tx in H. destruct (m (cx_tx c)). by injection H as <- <-. Qed.
Lemma shrinks_gets {A} (f : Ctx → A) : shrinks (gets f).
Proof. by intros c r c' [= <- <-]. Qed.
Lemma shrinks_ret {A} (a : A) : shrinks (mret a).
Proof. by intros c r c' [= <- <-]. Qed.
Lemma shrinks_raise {A} e : shrinks (@raise Ctx A e).
Proof. by intros c r c' [= <- <-]. Qed.
Lemma shrinks_lift {A} (x : exn + A) : shrinks (lift x).
Proof. by intros c r c' [= <- <-]. Qed.
Lemma shrinks_redis f : (∀ st, store_le st (f st)) → shrinks (redis f).
Proof. intros Hf c r c' [= <- <-]. apply Hf. Qed.

Lemma delete_key_le sid st : store_le st (delete_key sid st).
Proof.
  split; [done|]. intros s u v (e & He & H). simpl in He. apply lookup_delete_Some in He as [_ He]. by exists e.
Qed.

Lemma revoke_in_le now sid st : store_le st (revoke_in now sid st).
Proof. unfold revoke_in. destruct (_read now sid st); apply delete_key_le. Qed.

Lemma revoke_all_le uid st : store_le st (revoke_all_in uid st).
Proof.
  split; [done|]. intros s u v (e & He & H). simpl in He. apply map_lookup_filter_Some in He as [He _]. by exists e.
Qed.

Lemma draw_shrinks : shrinks draw.
Proof. intros c r c' [= <- <-]. split; simpl; [lia|done]. Qed.

Lemma list_sids_le now sids st : store_le st (list_sids now sids st).2.
Proof.
  revert st. induction sids as [|sid sids IH]; intros st; simpl; [done|].
  destruct (_read now sid st) as [s|].
  - destruct (_is_absolute_expired now s); [etrans; [apply revoke_in_le|apply IH]|].
    specialize (IH st). by destruct (list_sids now sids st).
  - etrans; [apply revoke_in_le|apply IH].
Qed.

Lemma list_for_user_shrinks uid : shrinks (list_for_user uid).
Proof.
  apply shrinks_bind; [apply shrinks_in_tx|intros now]. intros c r c' H. unfold get_store in H.
  rewrite run_gets in H. pose proof (list_sids_le now
    (merge_sort sid_le (elements (smembers uid (cx_store c)))) (cx_store c)) as Hle.
  unfold id in H. destruct (list_sids _ _ _) as [l st']. by injection H as <- <-.
Qed.

(** Writing back what was read, for the same user and version. *)
Lemma set_key_le idle now sid s st :
  held st sid (sess_user_id s) (sess_session_version s) → store_le st (set_key idle now sid s st).
Proof.
  intros H. split; [done|]. intros k u v (e & He & Hu & Hv). simpl in He.
  apply lookup_insert_Some in He as [[<- <-]|[Hne He]]; [by subst|by exists e].
Qed.

Lemma read_held now sid st s :
  _read now sid st = Some s → held st sid (sess_user_id s) (sess_session_version s) ∧ sess_sid s = sid.
Proof.
  unfold _read. destruct (session_keys st !! sid) as [e|] eqn:He; [|done].
  destruct (live now e); [|done]. intros [= <-]. split; [|done]. by exists e.
Qed.

Lemma get_shrinks idle sid : shrinks (get idle sid).
Proof.
  apply shrinks_bind; [apply shrinks_in_tx|intros now]. intros c r c' H. unfold get_store in H.
  rewrite run_gets in H. destruct (_read now sid (cx_store c)) as [s|] eqn:Er; [|by injection H as <- <-].
  destruct (_is_absolute_expired now s).
  - revert H. apply shrinks_bind; [|intros _; apply shrinks_ret].
    apply shrinks_bind; [apply shrinks_in_tx|intros n]. apply shrinks_redis. apply revoke_in_le.
  - injection H as <- <-. simpl. apply set_key_le. by apply read_held in Er as [? _].
Qed.

Create HintDb accounts.
#[export] Hint Resolve shrinks_in_tx shrinks_gets shrinks_ret shrinks_raise shrinks_lift
  draw_shrinks list_for_user_shrinks get_shrinks : accounts.

Ltac shrinks_step :=
  match goal with
  | |- shrinks (_ ≫= _) => apply shrinks_bind; [|intros ?]
  | |- shrinks (match ?x with _ => _ end) => destruct x
  | |- shrinks (let _ := _ in _) => cbv zeta
  | |- shrinks (redis _) => apply shrinks_redis; first [apply revoke_in_le|apply revoke_all_le]
  | |- shrinks _ => solve [eauto with accounts]
  | |- shrinks ?m => let h := head_of m in unfold h
  end.
Ltac shrinks_auto := repeat shrinks_step.

Section shrinking.
Context (token_urlsafe : nat → string) (idle_seconds absolute_seconds : Z).
Context (pwd_hash : nat → string → string) (pwd_verify : string → string → option bool).

(** Every request but a login and a password change. *)
Lemma route_shrinks cookie r :
  match r with Login _ _ | ChangePassword _ _ => False | _ => True end →
  shrinks (account_route token_urlsafe idle_seconds absolute_seconds pwd_hash pwd_verify cookie r).
Proof. destruct r; intros Hr; try done; cbn [account_route]; shrinks_auto. Qed.
End shrinking.

(** ** The users table *)

Record users_ok (d : Db) : Prop := {
  uo_id : ∀ i u, users d !! i = Some u → user_id u = i ∧ (i < uuid_supply d)%positive;
  uo_name : ∀ i u j v, users d !! i = Some u → users d !! j = Some v →
    lower (user_username u) = lower (user_username v) → i = j;
  uo_role : ∀ i u, users d !! i = Some u → role_tenant_ok u = true;
  uo_tenant : ∀ i u, users d !! i = Some u → tenant_exists d (user_tenant_id u) = true;
  uo_tenant_id : ∀ i t, tenants d !! i = Some t → tenant_id t = i
}.

(** No user is added under an old identifier, and no session version goes back. *)
Definition users_step (d d' : Db) : Prop :=
  (uuid_supply d <= uuid_supply d')%positive ∧
  ∀ i u', users d' !! i = Some u' →
    (∃ u, users d !! i = Some u ∧ user_session_version u <= user_session_version u') ∨
    (uuid_supply d <= i)%positive.

#[global] Instance users_step_preorder : PreOrder users_step.
Proof.
  split.
  - intros d. split; [lia|]. intros i u' Hu. left. exists u'. split; [done|lia].
  - intros d1 d2 d3 [S1 H1] [S2 H2]. split; [lia|]. intros i u3 Hu3.
    destruct (H2 i u3 Hu3) as [(u2 & Hu2 & Hv2)|?]; [|right; lia].
    destruct (H1 i u2 Hu2) as [(u1 & Hu1 & Hv1)|?]; [|right; lia]. left. exists u1. split; [done|lia].
Qed.

(** What a committed request does: the invariant stays, and the users step. *)
Definition umoves (d d' : Db) : Prop := users_ok d → users_ok d' ∧ users_step d d'.

#[global] Instance umoves_preorder : PreOrder umoves.
Proof.
  split; [by intros d H|]. intros d1 d2 d3 H1 H2 Hok. destruct (H1 Hok) as [Hok2 St1].
  destruct (H2 Hok2) as [Hok3 St2]. split; [done|by etrans].
Qed.

(** Assignments to other tables, and draws of identifiers. *)
Lemma umoves_same d d' :
  users d' = users d → tenants d' = tenants d → (uuid_supply d <= uuid_supply d')%positive →
  umoves d d'.
Proof.
  intros Eu Et Es [Hid Hn Hr Ht Hti]. split.
  - split; rewrite ?Eu, ?Et; try done.
    + intros i u Hu. destruct (Hid i u Hu). split; [done|lia].
    + unfold tenant_exists in *. rewrite Et. done.
  - split; [done|]. rewrite Eu. intros i u Hu. left. exists u. split; [done|lia].
Qed.

Lemma citext_eq_true a b : citext_eq a b = true ↔ lower a = lower b.
Proof. unfold citext_eq. by rewrite bool_decide_eq_true. Qed.

Lemma other_username_nil d u i x :
  other_username d u = [] → users d !! i = Some x → user_id x ≠ user_id u →
  lower (user_username x) ≠ lower (user_username u).
Proof.
  intros Hn Hx Hne E. unfold other_username in Hn. rewrite select_where_nil in Hn.
  specialize (Hn i x Hx). rewrite (proj2 (citext_eq_true _ _) E), bool_decide_false in Hn; done.
Qed.

(** Writing a row that passes the constraints. *)
Lemma flush_user_inr u s a s' :
  flush_user u s = (inr a, s') →
  other_username (db s) u = [] ∧ role_tenant_ok u = true ∧
  tenant_exists (db s) (user_tenant_id u) = true ∧
  s' = s <| db := db s <| users := <[user_id u := u]> (users (db s)) |> |>.
Proof.
  unfold flush_user, get_db, put_user, mod_db. intros H. minv.
  split_and!; try done. by eapply bool_decide_eq_true.
Qed.

Lemma put_user_umoves d u :
  other_username d u = [] → role_tenant_ok u = true → tenant_exists d (user_tenant_id u) = true →
  (user_id u < uuid_supply d)%positive →
  (∀ u0, users d !! user_id u = Some u0 → user_session_version u0 <= user_session_version u) →
  users_ok d →
  users_ok (d <| users := <[user_id u := u]> (users d) |>) ∧
  (is_Some (users d !! user_id u) → users_step d (d <| users := <[user_id u := u]> (users d) |>)).
Proof.
  intros Hn Hr Ht Hlt Hv [Hid Hname Hrole Hten Htid]. split.
  - split; cbn -[lookup insert]; [..|done].
    + intros i x [[<- <-]|[_ Hx]]%lookup_insert_Some; [done|by apply Hid].
    + intros i x j y [[<- <-]|[Hi Hx]]%lookup_insert_Some [[<- <-]|[Hj Hy]]%lookup_insert_Some E; try done.
      * destruct (Hid _ _ Hy). by destruct (other_username_nil d u j y Hn Hy); [congruence|].
      * destruct (Hid _ _ Hx). by destruct (other_username_nil d u i x Hn Hx); [congruence|].
      * by eapply Hname.
    + intros i x [[<- <-]|[_ Hx]]%lookup_insert_Some; [done|by eapply Hrole].
    + intros i x [[<- <-]|[_ Hx]]%lookup_insert_Some; [done|by eapply Hten].
  - intros [u0 Hu0]. split; [simpl; lia|]. cbn -[lookup insert].
    intros i x [[<- <-]|[_ Hx]]%lookup_insert_Some; left; [exists u0; auto|exists x; split; [done|lia]].
Qed.

(** An existing row is rewritten. *)
Lemma flush_existing u u0 s a s' :
  flush_user u s = (inr a, s') → users (db s) !! user_id u = Some u0 →
  user_session_version u0 <= user_session_version u → umoves (db s) (db s').
Proof.
  intros (Hn & Hr & Ht & ->)%flush_user_inr Hu0 Hv Hok.
  destruct (put_user_umoves (db s) u Hn Hr Ht) as [H1 H2]; [|by intros ? [= <-]%(eq_trans (eq_sym Hu0))|done|].
  - by destruct (uo_id _ Hok _ _ Hu0).
  - split; [done|]. apply H2. by eexists.
Qed.

(** ** Runs over the database session and the store *)

Abbreviation cdb c := (db (cx_tx c)).

Lemma in_tx_inr {A} (m : M Session A) c a c' :
  in_tx m c = (inr a, c') → ∃ s, m (cx_tx c) = (inr a, s) ∧ c' = c <| cx_tx := s |>.
Proof. unfold in_tx. destruct (m (cx_tx c)) as [r s]. intros [= -> <-]. eauto. Qed.

(** Operations of the store leave the transaction alone. *)
Definition store_only {A} (m : M Ctx A) : Prop := ∀ c r c', m c = (r, c') → cx_tx c' = cx_tx c.

Lemma store_only_bind {A B} (m : M Ctx A) (k : A → M Ctx B) :
  store_only m → (∀ a, store_only (k a)) → store_only (m ≫= k).
Proof.
  intros Hm Hk c r c' H. rewrite bind_run in H. destruct (m c) as [[e|a] c1] eqn:E.
  - injection H as <- <-. by eapply Hm.
  - etrans; [by eapply Hk|by eapply Hm].
Qed.
Lemma store_only_gets {A} (f : Ctx → A) : store_only (gets f).
Proof. by intros c r c' [= <- <-]. Qed.
Lemma store_only_ret {A} (a : A) : store_only (mret a).
Proof. by intros c r c' [= <- <-]. Qed.
Lemma store_only_raise {A} e : store_only (@raise Ctx A e).
Proof. by intros c r c' [= <- <-]. Qed.
Lemma store_only_redis f : store_only (redis f).
Proof. by intros c r c' [= <- <-]. Qed.
Lemma store_only_now : store_only now_.
Proof. intros [s st] r c' [= <- <-]. done. Qed.

#[export] Hint Resolve store_only_gets store_only_ret store_only_raise store_only_redis
  store_only_now : accounts.

Ltac store_only_step :=
  match goal with
  | |- store_only (_ ≫= _) => apply store_only_bind; [|intros ?]
  | |- store_only (match ?x with _ => _ end) => destruct x
  | |- store_only (let _ := _ in _) => cbv zeta
  | |- store_only _ => solve [eauto with accounts]
  | |- store_only ?m => let h := head_of m in unfold h
  end.
Ltac store_only_auto := repeat store_only_step.

Section store_only_ops.
Context (token_urlsafe : nat → string) (idle_seconds absolute_seconds : Z).
Context (pwd_hash : nat → string → string).

Lemma hash_store_only p : store_only (hash_password pwd_hash p).
Proof. store_only_auto. Qed.
Lemma bump_store_only u : store_only (_bump_version_and_revoke u).
Proof. store_only_auto. Qed.
Lemma create_store_only u v ip : store_only (create token_urlsafe idle_seconds absolute_seconds u v ip).
Proof. store_only_auto. Qed.
Lemma get_store_only sid : store_only (get idle_seconds sid).
Proof. store_only_auto. Qed.
Lemma list_store_only uid : store_only (list_for_user uid).
Proof. store_only_auto. Qed.
Lemma keep_only_store_only sid v l : store_only (keep_only idle_seconds sid v l).
Proof. induction l; simpl; store_only_auto. Qed.
Lemma revoke_all_store_only uid : store_only (revoke_all uid).
Proof. store_only_auto. Qed.
Lemma revoke_store_only sid : store_only (revoke sid).
Proof. store_only_auto. Qed.
End store_only_ops.

(** Inverts a successful run over [Ctx]. *)
Ltac cinv_step :=
  match goal with
  | H : in_tx _ _ = (inr _, _) |- _ => apply in_tx_inr in H as (? & H & ?)
  | H : user_event _ _ _ _ _ _ _ = (inr _, _) |- _ => apply record_event_inr in H as [? ->]
  | H : record_event _ _ _ _ _ _ _ _ = (inr _, _) |- _ => apply record_event_inr in H as [? ->]
  | H : tenant_event _ _ _ _ _ _ _ = (inr _, _) |- _ => apply record_event_inr in H as [? ->]
  | H : one_or_none _ _ = (inr _, _) |- _ => apply one_or_none_inr in H as (-> & -> & ?)
  | H : hash_password _ _ _ = (inr _, _) |- _ => apply hash_store_only in H as ?; clear H
  | _ => minv_step
  end.
Ltac cinv := repeat (cinv_step; simplify_eq/=).

(** ** Edits of one user *)

Record user_edit (d d' : Db) (uid : uuid) (u0 u1 : User) : Prop := {
  ue_before : users d !! uid = Some u0;
  ue_id : user_id u1 = uid;
  ue_users : users d' = <[uid := u1]> (users d);
  ue_tenants : tenants d' = tenants d;
  ue_moves : umoves d d'
}.

(** The guard of removals: not an active administrator, or another one is there. *)
Definition spare_admin (d : Db) (u0 : User) : Prop :=
  is_active_admin u0 = true →
  ∃ j v, j ≠ user_id u0 ∧ users d !! j = Some v ∧ is_active_admin v = true.

Lemma not_last_admin_inr u s a s' :
  users_ok (db s) → _ensure_not_last_active_admin u s = (inr a, s') → s' = s ∧ spare_admin (db s) u.
Proof.
  intros Hok H. unfold _ensure_not_last_active_admin, get_db in H.
  destruct (is_active_admin u) eqn:Eu; simpl in H.
  - cinv. match goal with H : bool_decide _ = true |- _ => apply bool_decide_eq_true in H as [v Hv] end.
    split; [done|]. intros _. apply head_Some_elem_of, elem_of_select in Hv as [[Ha Hne]%andb_true_iff [j Hj]].
    exists j, v. destruct (uo_id _ Hok _ _ Hj) as [<- _].
    apply negb_true_iff, bool_decide_eq_false in Hne. done.
  - minv. split; [done|]. intros E. congruence.
Qed.

Lemma flush_edit u u0 s a s' uid :
  flush_user u s = (inr a, s') → users (db s) !! uid = Some u0 → user_id u = uid →
  user_session_version u0 <= user_session_version u →
  user_edit (db s) (db s') uid u0 u.
Proof.
  intros H Hu0 <- Hv. pose proof (flush_existing u u0 s a s' H Hu0 Hv) as Hm.
  apply flush_user_inr in H as (_ & _ & _ & ->). by split.
Qed.

Lemma user_edit_audit d d' uid u0 u1 evs :
  user_edit d d' uid u0 u1 → user_edit d (d' <| audit_events := evs |>) uid u0 u1.
Proof.
  intros [H1 H2 H3 H4 H5]. split; try done. etrans; [exact H5|]. by apply umoves_same.
Qed.

Section edits.
Context (pwd_hash : nat → string → string).

Definition scope_changes (u : User) (role : option Role) (tenant : option uuid) : bool :=
  let new_role := default (user_role u) role in
  let new_tenant := if bool_decide (is_Some role) || bool_decide (is_Some tenant)
                    then tenant else user_tenant_id u in
  negb (bool_decide (new_role = user_role u)) || negb (bool_decide (new_tenant = user_tenant_id u)).

Lemma unique_username_inr name ex s a s' :
  _ensure_unique_username name ex s = (inr a, s') → s' = s.
Proof. unfold _ensure_unique_username, get_db. intros H. by cinv. Qed.

Lemma bump_inr u c u' c' :
  _bump_version_and_revoke u c = (inr u', c') →
  u' = u <| user_session_version := user_session_version u + 1 |> ∧ cx_tx c' = cx_tx c.
Proof.
  intros H. pose proof (bump_store_only _ _ _ _ H). unfold _bump_version_and_revoke in H. minv.
  split; [|done]. unfold revoke_all, redis in *. by minv.
Qed.

Lemma update_user_inr actor uid name role tenant ip c u1 c' :
  users_ok (cdb c) → update_user actor uid name role tenant ip c = (inr u1, c') →
  ∃ u0, user_edit (cdb c) (cdb c') uid u0 u1 ∧
    (is_active_admin u0 = true → is_active_admin u1 = true ∨ spare_admin (cdb c) u0) ∧
    user_session_version u1 = user_session_version u0 + (if scope_changes u0 role tenant then 1 else 0) ∧
    user_status u1 = user_status u0.
Proof.
  intros Hok H. unfold update_user, _get_existing_user, _validate_role_tenant, get_db in H. cinv.
  match goal with H : users _ !! uid = Some ?x |- _ => rename x into u0; rename H into Hu0 end.
  destruct (uo_id _ Hok _ _ Hu0) as [Hid _].
  match goal with H : (match name with _ => _ end) _ = (inr ?x, ?c1) |- _ =>
    assert (cx_tx c1 = cx_tx c ∧ ∃ n, x = u0 <| user_username := n |>) as [Ec1 [n ->]]; [|clear H] end.
  { destruct name as [n|];
      [match goal with H : (if ?b then mret u0 else _) _ = _ |- _ => destruct b end|]; cinv; try match goal with
      H : _ensure_unique_username _ _ _ = _ |- _ => apply unique_username_inr in H as -> end;
      (split; [done|]); first [by eexists|exists (user_username u0); by destruct u0]. }
  cbn [user_role user_tenant_id user_id user_status user_session_version] in *.
  match goal with H : (if negb _ || negb _ then _ else _) ?c1 = (inr ?x, ?c2) |- _ =>
    assert (cx_tx c2 = cx_tx c ∧ user_id x = uid ∧ user_status x = user_status u0 ∧
      user_session_version x = user_session_version u0 + (if scope_changes u0 role tenant then 1 else 0) ∧
      (is_active_admin u0 = true → is_active_admin x = true ∨ spare_admin (cdb c) u0))
      as (Ec2 & E1 & E2 & E3 & E4); [|clear H; rename x into u2] end.
  { match goal with H : (if ?b then _ else _) _ = _ |- _ =>
      change b with (scope_changes u0 role tenant) in H; destruct (scope_changes u0 role tenant); [|minv] end.
    - cinv. match goal with H : _bump_version_and_revoke _ _ = _ |- _ => apply bump_inr in H as [-> Eb] end.
      rewrite Eb. clear Eb. cbn.
      match goal with H : (if ?b then _ else _) _ = _ |- _ => destruct b eqn:Eg end; cinv.
      + match goal with H : _ensure_not_last_active_admin _ _ = _ |- _ =>
          apply not_last_admin_inr in H as [-> Hsp]; [|congruence] end.
        split_and!; try done. intros _. right. rewrite Ec1 in Hsp. exact Hsp.
      + split_and!; try done. intros Ha. left. unfold is_active_admin in *. simpl.
        apply andb_true_iff in Ha as [Hr Hs]. rewrite Hr in Eg. simpl in Eg.
        apply negb_false_iff in Eg. by rewrite Eg.
    - split_and!; try done; [lia|]. by left. }
  match goal with H : flush_user _ _ = _ |- _ => rewrite ?Ec2 in H;
    pose proof (flush_edit _ u0 _ _ _ uid H Hu0 E1 ltac:(destruct (scope_changes _ _ _); lia)) as He end.
  exists u0. split_and!; [by apply user_edit_audit|done..].
Qed.

Lemma set_status_inr actor uid status ip c u1 c' :
  users_ok (cdb c) → set_status actor uid status ip c = (inr u1, c') →
  ∃ u0, user_edit (cdb c) (cdb c') uid u0 u1 ∧
    (is_active_admin u0 = true → is_active_admin u1 = true ∨ spare_admin (cdb c) u0) ∧
    user_session_version u1 = user_session_version u0 +
      (if bool_decide (user_status u0 = status) then 0 else 1) ∧ user_status u1 = status.
Proof.
  intros Hok H. unfold set_status, _get_existing_user, get_db in H. cinv.
  match goal with H : users _ !! uid = Some ?x |- _ => rename x into u0; rename H into Hu0 end.
  destruct (uo_id _ Hok _ _ Hu0) as [Hid _].
  match goal with H : (if bool_decide (status = user_disabled) then _ else _) _ = (inr _, ?c1) |- _ =>
    assert (cx_tx c1 = cx_tx c ∧ (status = user_disabled → spare_admin (cdb c) u0)) as [Ec1 Hsp];
    [|clear H] end.
  { destruct (bool_decide_reflect (status = user_disabled)) as [Es|Es]; cinv; [|by split].
    match goal with H : _ensure_not_last_active_admin _ _ = _ |- _ =>
      apply not_last_admin_inr in H as [-> ?]; done end. }
  match goal with H : (if bool_decide (user_status u0 = status) then _ else _) ?c1 = (inr ?x, ?c2) |- _ =>
    assert (cx_tx c2 = cx_tx c ∧ user_id x = uid ∧ user_status x = status ∧ user_role x = user_role u0 ∧
      user_session_version x = user_session_version u0 +
        (if bool_decide (user_status u0 = status) then 0 else 1))
      as (Ec2 & E1 & E2 & Er & E3); [|clear H; rename x into u2] end.
  { destruct (bool_decide_reflect (user_status u0 = status)); cinv; [split_and!; try done; lia|].
    match goal with H : _bump_version_and_revoke _ _ = _ |- _ => apply bump_inr in H as [-> Eb] end.
    rewrite Eb. done. }
  match goal with H : flush_user _ _ = _ |- _ => rewrite ?Ec2 in H;
    pose proof (flush_edit _ u0 _ _ _ uid H Hu0 E1 ltac:(case_bool_decide; lia)) as He end.
  exists u0. split_and!; [by apply user_edit_audit| |done..].
  intros Ha. destruct status; [left|right; by apply Hsp]. unfold is_active_admin in *.
  rewrite Er, E2. apply andb_true_iff in Ha as [-> _]. done.
Qed.

Lemma reset_password_inr actor uid pw ip c u1 c' :
  users_ok (cdb c) → reset_password pwd_hash actor uid pw ip c = (inr u1, c') →
  ∃ u0, user_edit (cdb c) (cdb c') uid u0 u1 ∧ is_active_admin u1 = is_active_admin u0 ∧
    user_session_version u1 = user_session_version u0 + 1.
Proof.
  intros Hok H. unfold reset_password, _get_existing_user, get_db in H. cinv.
  match goal with H : users _ !! uid = Some ?x |- _ => rename x into u0; rename H into Hu0 end.
  destruct (uo_id _ Hok _ _ Hu0) as [Hid _].
  match goal with H : _bump_version_and_revoke _ _ = _ |- _ => apply bump_inr in H as [-> Eb] end.
  match goal with H : cx_tx _ = cx_tx _ |- _ => rewrite ?Eb in *; cbn in H; rewrite H in * end.
  match goal with H : flush_user ?u _ = _ |- _ =>
    pose proof (flush_edit u u0 _ _ _ uid H Hu0 Hid ltac:(simpl; lia)) as He end.
  exists u0. split_and!; [by apply user_edit_audit|done..].
Qed.

Lemma delete_user_inr actor uid ip c a c' :
  users_ok (cdb c) → delete_user actor uid ip c = (inr a, c') →
  ∃ u0, users (cdb c) !! uid = Some u0 ∧ spare_admin (cdb c) u0 ∧
    users (cdb c') = delete uid (users (cdb c)) ∧ umoves (cdb c) (cdb c').
Proof.
  intros Hok H. unfold delete_user, _get_existing_user, get_db in H. cinv.
  match goal with H : users _ !! uid = Some ?x |- _ => rename x into u0; rename H into Hu0 end.
  destruct (uo_id _ Hok _ _ Hu0) as [Hid _].
  match goal with H : _ensure_not_last_active_admin _ _ = _ |- _ =>
    apply not_last_admin_inr in H as [-> Hsp]; [|done] end.
  match goal with H : revoke_all _ _ = _ |- _ => apply revoke_all_store_only in H as Er end.
  unfold mod_db in *. minv. rewrite Er. exists u0. split_and!; [done..|].
  intros _. split; [|split; [simpl; lia|]]; destruct Hok as [Hi Hn Hr Ht Hti].
  - split; cbn -[lookup delete fmap]; try done.
    + intros i u [_ Hu]%lookup_delete_Some. by apply Hi.
    + intros i u j v [_ Hu]%lookup_delete_Some [_ Hv]%lookup_delete_Some. by apply Hn.
    + intros i u [_ Hu]%lookup_delete_Some. by eapply Hr.
    + intros i u [_ Hu]%lookup_delete_Some. by eapply Ht.
  - cbn -[lookup delete fmap]. intros i u [_ Hu]%lookup_delete_Some. left. exists u. split; [done|lia].
Qed.

(** A row under a fresh identifier. *)
Lemma flush_new u s a s' :
  flush_user u (s <| db := db s <| uuid_supply := Pos.succ (uuid_supply (db s)) |> |>) = (inr a, s') →
  user_id u = uuid_supply (db s) →
  umoves (db s) (db s') ∧ users (db s') = <[user_id u := u]> (users (db s)).
Proof.
  intros (Hn & Hr & Ht & ->)%flush_user_inr Hid. split; [|done]. intros Hok.
  set (d1 := db s <| uuid_supply := Pos.succ (uuid_supply (db s)) |>).
  assert (users_ok d1) as Hok1 by (by apply (umoves_same (db s) d1); [..|simpl; lia|]).
  destruct (put_user_umoves d1 u Hn Hr Ht) as [H1 _]; [simpl; lia| |done|].
  - intros u0 Hu0. destruct (uo_id _ Hok _ _ Hu0). lia.
  - split; [exact H1|]. split; [simpl; lia|]. cbn -[lookup insert].
    intros i x [[<- <-]|[_ Hx]]%lookup_insert_Some; [right; lia|left; exists x; split; [done|lia]].
Qed.

Lemma create_user_inr actor name pw role tenant ip c u c' :
  create_user pwd_hash actor name pw role tenant ip c = (inr u, c') →
  umoves (cdb c) (cdb c') ∧ users (cdb c') = <[user_id u := u]> (users (cdb c)) ∧
  user_id u = uuid_supply (cdb c).
Proof.
  intros H. unfold create_user, _validate_role_tenant, get_db, utc_now, check_pkey in H. cinv.
  match goal with H : _ensure_unique_username _ _ _ = _ |- _ =>
    apply unique_username_inr in H; rewrite H in * end.
  match goal with H : uuid4 _ = _ |- _ => apply uuid4_inr in H as [-> ->] end.
  unfold get_db in *. cinv.
  match goal with H : flush_user _ _ = _ |- _ => apply (flush_new _ (cx_tx c)) in H as [Hm Eu]; [|done] end.
  split_and!; [|done..]. etrans; [exact Hm|]. by apply umoves_same.
Qed.

Lemma bootstrap_inr name pw ip c u c' :
  bootstrap_admin pwd_hash name pw ip c = (inr u, c') →
  umoves (cdb c) (cdb c') ∧
  (c' = c ∨ users (cdb c') = <[user_id u := u]> (users (cdb c)) ∧
            user_id u = uuid_supply (cdb c) ∧ is_active_admin u = true).
Proof.
  intros H. unfold bootstrap_admin, get_db, utc_now, check_pkey in H. cinv.
  match goal with H : (match ?x with Some _ => _ | None => _ end) _ = _ |- _ => destruct x end.
  { minv. split; [done|]. left. by destruct c. }
  destruct name as [name|]; [|done]. destruct pw as [pw|]; [|done].
  destruct (_ || _) in H; [done|]. cinv.
  match goal with H : cx_tx _ = _ |- _ => cbn in H; rewrite H in * end.
  match goal with H : uuid4 _ = _ |- _ => apply uuid4_inr in H as [-> ->] end.
  unfold get_db in *. cinv.
  match goal with H : flush_user _ _ = _ |- _ => apply (flush_new _ (cx_tx c)) in H as [Hm Eu]; [|done] end.
  split; [|right; done]. etrans; [exact Hm|]. by apply umoves_same.
Qed.

(** ** Tenants *)

Lemma umoves_tenants d d' :
  users d' = users d → (uuid_supply d <= uuid_supply d')%positive →
  (∀ i u t, users d !! i = Some u → user_tenant_id u = Some t →
     is_Some (tenants d !! t) → is_Some (tenants d' !! t)) →
  (∀ i t, tenants d' !! i = Some t → tenant_id t = i) → umoves d d'.
Proof.
  intros Eu Es Hk Hid' [Hid Hn Hr Ht Hti]. split.
  - split; rewrite ?Eu; try done.
    + intros i u Hu. destruct (Hid i u Hu). split; [done|lia].
    + intros i u Hu. specialize (Ht i u Hu). unfold tenant_exists in *.
      destruct (user_tenant_id u) as [t|] eqn:Et; [|done].
      apply bool_decide_eq_true. apply bool_decide_eq_true in Ht. by eapply Hk.
  - split; [done|]. rewrite Eu. intros i u Hu. left. exists u. split; [done|lia].
Qed.

Lemma flush_tenant_inr t s a s' :
  flush_tenant t s = (inr a, s') →
  s' = s <| db := db s <| tenants := <[tenant_id t := t]> (tenants (db s)) |> |>.
Proof. unfold flush_tenant, get_db, put_tenant, mod_db. intros H. by minv. Qed.

Lemma put_tenant_umoves d u t evs :
  (uuid_supply d <= u)%positive →
  umoves d (d <| uuid_supply := u |> <| tenants := <[tenant_id t := t]> (tenants d) |>
              <| audit_events := evs |>).
Proof.
  intros Hs Hok. apply umoves_tenants; try done; cbn -[lookup insert].
  - intros i x t' _ _ Ht. apply lookup_insert_is_Some. destruct (decide (tenant_id t = t')); auto.
  - intros i x [[<- <-]|[_ Hx]]%lookup_insert_Some; [done|by eapply uo_tenant_id].
Qed.

Lemma tenant_ops_umoves actor s s' t :
  (∀ name ip, create_tenant actor name ip s = (inr t, s') → umoves (db s) (db s') ∧ users (db s') = users (db s)) ∧
  (∀ i name st ip, update_tenant actor i name st ip s = (inr t, s') → umoves (db s) (db s') ∧ users (db s') = users (db s)) ∧
  (∀ i st ip, set_tenant_status actor i st ip s = (inr t, s') → umoves (db s) (db s') ∧ users (db s') = users (db s)).
Proof.
  assert (∀ name ex s a s', _ensure_unique_name name ex s = (inr a, s') → s' = s) as Hname.
  { intros name ex s0 a s1 H. unfold _ensure_unique_name, get_db in H. by cinv. }
  split_and!.
  - intros name ip H. unfold create_tenant, utc_now, get_db, check_pkey in H. minv.
    match goal with H : _ensure_unique_name _ _ _ = _ |- _ => apply Hname in H as -> end.
    match goal with H : uuid4 _ = _ |- _ => apply uuid4_inr in H as [-> ->] end.
    unfold get_db in *. cinv.
    match goal with H : flush_tenant _ _ = _ |- _ => apply flush_tenant_inr in H as -> end.
    split; [|done]. eapply (put_tenant_umoves (db s) (Pos.succ (uuid_supply (db s)))). lia.
  - intros i name st ip H. unfold update_tenant, _get_existing_tenant, get_db in H. cinv.
    match goal with H : (match name with _ => _ end) s = (inr _, ?s1) |- _ =>
      assert (s1 = s) as -> by (destruct name; [destruct (bool_decide _) in H; cinv; [done|by eapply Hname]|by minv]);
      clear H end.
    match goal with H : flush_tenant _ _ = _ |- _ => apply flush_tenant_inr in H as -> end.
    split; [|done]. eapply (put_tenant_umoves (db s) (uuid_supply (db s))). lia.
  - intros i st ip H. unfold set_tenant_status, _get_existing_tenant, get_db in H. cinv.
    match goal with H : flush_tenant _ _ = _ |- _ => apply flush_tenant_inr in H as -> end.
    split; [|done]. eapply (put_tenant_umoves (db s) (uuid_supply (db s))). lia.
Qed.

Lemma delete_tenant_umoves actor t ip s a s' :
  users_ok (db s) → delete_tenant actor t ip s = (inr a, s') →
  umoves (db s) (db s') ∧ users (db s') = users (db s).
Proof.
  intros Hok H. unfold delete_tenant, _get_existing_tenant, get_db in H. cinv.
  match goal with H : (if ?b then _ else _) _ = _ |- _ => destruct b; [|by cinv] end.
  unfold delete_tenant_row, get_db, mod_db in H. cinv.
  match goal with H : negb (tenant_referenced _ _) = true |- _ =>
    unfold tenant_referenced in H; apply negb_true_iff, orb_false_iff in H as [H _];
    apply orb_false_iff in H as [H _]; apply negb_false_iff, bool_decide_eq_true in H as Hu end.
  unfold id in Hu. cbn in Hu. rewrite select_where_nil in Hu.
  split; [|done]. apply umoves_tenants; try done; cbn -[lookup delete].
  - intros i u t' Hx Et [y Ht']. exists y. apply lookup_delete_Some. split; [|done].
    intros <-. specialize (Hu i u Hx). by rewrite bool_decide_true in Hu.
  - intros i y [_ Hy]%lookup_delete_Some. by eapply uo_tenant_id.
Qed.
End edits.

(** ** Logins and password changes *)

Section logins.
Context (token_urlsafe : nat → string) (idle_seconds absolute_seconds : Z).
Context (pwd_hash : nat → string → string) (pwd_verify : string → string → option bool).

(** What a request may leave in the store: what was there, and a new session of
    a present user at the user's version. *)
Definition store_step (d : Db) (st st' : Store) : Prop :=
  (draws st <= draws st')%nat ∧
  ∀ sid uid v, held st' sid uid v → held st sid uid v ∨
    (∃ n u, (draws st <= n < draws st')%nat ∧ sid = token_urlsafe n ∧
       users d !! uid = Some u ∧ v = user_session_version u).

Lemma store_le_step d st st' : store_le st st' → store_step d st st'.
Proof. intros [H1 H2]. split; [done|]. auto. Qed.

Lemma create_held uid v ip c r c' sid :
  create token_urlsafe idle_seconds absolute_seconds uid v ip c = (r, c') →
  r = inr (token_urlsafe (draws (cx_store c))) ∧ draws (cx_store c') = S (draws (cx_store c)) ∧
  ∀ u w, held (cx_store c') sid u w → held (cx_store c) sid u w ∨
    (sid = token_urlsafe (draws (cx_store c)) ∧ u = uid ∧ w = v).
Proof.
  intros [= <- <-]. split_and!; [done..|]. intros u w (e & He & Hu & Hw). simpl in He.
  apply lookup_insert_Some in He as [[<- <-]|[_ He]]; [right; by subst|left; by exists e].
Qed.

(** Who may log in. *)
Definition may_login (d : Db) (name pw : string) (u : User) : Prop :=
  users d !! user_id u = Some u ∧ lower (user_username u) = lower name ∧
  verify_password pwd_verify pw (user_password_hash u) = true ∧ user_status u = user_active ∧
  (user_role u = tenant_user → tenant_is_active d (user_tenant_id u) = true).

Definition login_tail (u : User) (ip : option string) : M Ctx (string * User) :=
  now ← now_;
  let user := u <| user_last_login_at := Some now |> in
  session_id ← create token_urlsafe idle_seconds absolute_seconds (user_id user)
                 (user_session_version user) ip;
  in_tx (
    flush_user user ;;
    user_event (Some user) "auth.login" user "success" ip None) ;;
  mret (session_id, user).

(** The checks touch neither the store nor, when they pass, the database. *)
Lemma login_cases name pw ip c r c' :
  users_ok (cdb c) →
  login token_urlsafe idle_seconds absolute_seconds pwd_verify name pw ip c = (r, c') →
  ((∃ e, r = inl e) ∧ cx_store c' = cx_store c) ∨
  ∃ u, may_login (cdb c) name pw u ∧ login_tail u ip c = (r, c').
Proof.
  intros Hok H. unfold login in H. rewrite bind_run in H. unfold in_tx at 1, get_db, gets in H.
  cbn in H. rewrite bind_run in H. unfold in_tx at 1 in H. cbn in H.
  destruct c as [tx st]. cbn [cx_tx cx_store] in *.
  destruct (with_username (db tx) name) as [|u [|u' l]] eqn:Ew; cbn in H.
  - left. injection H as <- <-. split; [by eexists|done].
  - assert (u ∈ with_username (db tx) name) as Hin by (rewrite Ew; left).
    apply elem_of_select in Hin as [Hn%citext_eq_true [i Hi]].
    destruct (uo_id _ Hok _ _ Hi) as [Hid _].
    destruct (verify_password pwd_verify pw (user_password_hash u)) eqn:Ev; cbn in H.
    2: { left. injection H as <- <-. split; [by eexists|done]. }
    case_bool_decide as Es; cbn in H.
    2: { left. injection H as <- <-. split; [by eexists|done]. }
    rewrite bind_run in H. unfold in_tx at 1 in H. cbn in H.
    case_bool_decide as Er; cbn in H.
    + destruct (tenant_is_active (db tx) (user_tenant_id u)) eqn:Et; cbn in H.
      2: { left. injection H as <- <-. split; [by eexists|done]. }
      right. exists u. split; [|exact H]. subst i. by split_and!.
    + right. exists u. split; [|exact H]. subst i. by split_and!.
  - left. injection H as <- <-. split; [by eexists|done].
Qed.

(** Rewriting a user's row under the same name, role and tenant never fails. *)
Lemma flush_user_run (s : Session) u0 u :
  users_ok (db s) → users (db s) !! user_id u0 = Some u0 → user_id u = user_id u0 →
  user_username u = user_username u0 → user_role u = user_role u0 →
  user_tenant_id u = user_tenant_id u0 →
  flush_user u s = (inr tt, s <| db := db s <| users := <[user_id u := u]> (users (db s)) |> |>).
Proof.
  intros Hok Hu0 E1 E2 E3 E4. unfold flush_user, get_db. mstep.
  rewrite bool_decide_true.
  2: { unfold other_username, id. apply select_where_nil. intros k x Hx.
       destruct (citext_eq (user_username x) (user_username u)) eqn:Ec; [|done].
       apply citext_eq_true in Ec. rewrite E2 in Ec. destruct (uo_id _ Hok _ _ Hx) as [Hk _].
       pose proof (uo_name _ Hok _ _ _ _ Hx Hu0 Ec). rewrite bool_decide_true by congruence. done. }
  mstep. assert (role_tenant_ok u = true) as ->.
  { unfold role_tenant_ok. rewrite E3, E4. exact (uo_role _ Hok _ _ Hu0). }
  mstep. assert (tenant_exists (id (db s)) (user_tenant_id u) = true) as ->.
  { unfold id. rewrite E4. exact (uo_tenant _ Hok _ _ Hu0). }
  mstep. done.
Qed.

Lemma rewrite_edit d d' u u1 :
  users_ok d → users d !! user_id u = Some u → user_id u1 = user_id u →
  user_username u1 = user_username u → user_role u1 = user_role u →
  user_tenant_id u1 = user_tenant_id u → user_session_version u <= user_session_version u1 →
  users d' = <[user_id u := u1]> (users d) → tenants d' = tenants d →
  uuid_supply d' = uuid_supply d → user_edit d d' (user_id u) u u1.
Proof.
  intros Hok Hu E1 E2 E3 E4 Hv Eu Et Es. split; try done.
  etrans; [|apply (umoves_same (d <| users := <[user_id u1 := u1]> (users d) |>)); simpl; congruence || lia].
  pose proof (flush_user_run (new_session d) u u1 Hok Hu E1 E2 E3 E4) as Hrun.
  refine (flush_existing u1 u (new_session d) tt _ Hrun _ Hv). by rewrite E1.
Qed.

Lemma now_run {A} (k : timestamp → M Ctx A) c : (now_ ≫= k) c = k (clock (cdb c)) c.
Proof. by destruct c. Qed.

Lemma login_tail_run u ip c :
  users_ok (cdb c) → users (cdb c) !! user_id u = Some u →
  ∃ c', login_tail u ip c = (inr (token_urlsafe (draws (cx_store c)),
                               u <| user_last_login_at := Some (clock (cdb c)) |>), c') ∧
    user_edit (cdb c) (cdb c') (user_id u) u (u <| user_last_login_at := Some (clock (cdb c)) |>) ∧
    draws (cx_store c') = S (draws (cx_store c)) ∧
    ∀ sid uid v, held (cx_store c') sid uid v → held (cx_store c) sid uid v ∨
      (sid = token_urlsafe (draws (cx_store c)) ∧ uid = user_id u ∧ v = user_session_version u).
Proof.
  intros Hok Hu. unfold login_tail. rewrite now_run. cbv beta zeta.
  set (u' := u <| user_last_login_at := Some (clock (cdb c)) |>).
  destruct (create token_urlsafe idle_seconds absolute_seconds (user_id u') (user_session_version u') ip c)
    as [x c1] eqn:Ec.
  pose proof (create_store_only _ _ _ _ _ _ _ _ _ Ec) as Etx.
  pose proof (fun sid => create_held _ _ _ _ _ _ sid Ec) as Hc.
  destruct (Hc EmptyString) as (-> & Hdr & _). rewrite bind_run, Ec. cbv iota beta.
  cbn [cx_tx cx_store] in Etx, Hdr. unfold in_tx. rewrite bind_run, Etx, bind_run.
  rewrite (flush_user_run (cx_tx c) u u' Hok Hu) by done. cbv iota beta.
  eexists. split; [reflexivity|]. split_and!.
  - apply rewrite_edit; try done.
  - exact Hdr.
  - intros sid uid v Hh. destruct (proj2 (proj2 (Hc sid)) uid v Hh) as [?|(? & ? & ?)]; [by left|by right].
Qed.

(** What a password change leaves in the store. *)
Definition kept_current (cur : string) (v : Z) (st st' : Store) : Prop :=
  (draws st <= draws st')%nat ∧
  ∀ sid uid w, held st' sid uid w → held st sid uid w ∨
    (sid = cur ∧ w = v ∧ ∃ w0, held st cur uid w0).

#[local] Instance kept_current_preorder cur v : PreOrder (kept_current cur v).
Proof.
  split; [split; auto|]. intros x y z [D1 H1] [D2 H2]. split; [lia|]. intros sid uid w H.
  destruct (H2 _ _ _ H) as [?|(-> & -> & w0 & Hw0)]; [by apply H1|]. right. split_and!; try done.
  destruct (H1 _ _ _ Hw0) as [?|(_ & _ & ?)]; eauto.
Qed.

Lemma revoke_run sid c :
  revoke sid c = (inr tt, c <| cx_store := revoke_in (clock (cdb c)) sid (cx_store c) |>).
Proof. by destruct c. Qed.

Lemma keep_only_run cur v l c :
  ∃ st', keep_only idle_seconds cur v l c = (inr tt, c <| cx_store := st' |>) ∧
    kept_current cur v (cx_store c) st'.
Proof.
  revert c. induction l as [|s l IH]; intros c; cbn [keep_only].
  { exists (cx_store c). split; [by destruct c|done]. }
  assert (∃ st1, (if bool_decide (sess_sid s = cur)
     then set_session_version idle_seconds cur v ;; mret tt else revoke (sess_sid s)) c =
     (inr tt, c <| cx_store := st1 |>) ∧ kept_current cur v (cx_store c) st1) as (st1 & E & H1).
  { assert (∀ x, kept_current cur v (cx_store c) (revoke_in (clock (cdb c)) x (cx_store c))) as Hrev.
    { intros x. destruct (revoke_in_le (clock (cdb c)) x (cx_store c)). split; auto. }
    case_bool_decide; [|eexists; split; [apply revoke_run|apply Hrev]].
    unfold set_session_version. rewrite bind_run.
    rewrite now_run. unfold get_store. mstep.
    destruct (_read (clock (cdb c)) cur (cx_store c)) as [x|] eqn:Er; [destruct (_is_absolute_expired _ x)|].
    1, 3: rewrite bind_run, revoke_run; eexists; split; [reflexivity|apply Hrev].
    eexists. split; [reflexivity|]. split; [done|]. intros sid uid w (e & He & Hu & Hw). simpl in He.
    apply lookup_insert_Some in He as [[<- <-]|[_ He]]; [|left; by exists e]. right. simpl in *. subst.
    split_and!; try done. apply read_held in Er as [Hh _]. eauto. }
  rewrite bind_run, E. destruct (IH (c <| cx_store := st1 |>)) as (st2 & E2 & H2).
  exists st2. rewrite E2. split; [done|]. by etrans.
Qed.

Lemma change_cases u cur pw new ip c r c' :
  users_ok (cdb c) → users (cdb c) !! user_id u = Some u →
  change_own_password idle_seconds pwd_hash pwd_verify u cur pw new ip c = (r, c') →
  ((∃ e, r = inl e) ∧ cx_store c' = cx_store c) ∨
  ∃ u1, r = inr u1 ∧ user_edit (cdb c) (cdb c') (user_id u) u u1 ∧
    is_active_admin u1 = is_active_admin u ∧
    user_session_version u1 = user_session_version u + 1 ∧
    kept_current cur (user_session_version u + 1) (cx_store c) (cx_store c').
Proof.
  intros Hok Hu H. unfold change_own_password in H.
  destruct (verify_password pwd_verify pw (user_password_hash u)); cbn [negb] in H.
  2: { left. injection H as <- <-. split; [by eexists|done]. }
  right. rewrite bind_run in H.
  destruct (hash_password pwd_hash new c) as [[e|hash] c1] eqn:Eh; [done|].
  pose proof (hash_store_only _ _ _ _ _ Eh) as Et1.
  assert (shrinks (hash_password pwd_hash new)) as Hs1 by shrinks_auto. apply Hs1 in Eh. clear Hs1.
  cbv zeta in H. rewrite bind_run in H.
  match type of H with context [list_for_user ?x c1] => destruct (list_for_user x c1) as [[e|l] c2] eqn:El end.
  { exfalso. unfold list_for_user in El. rewrite now_run in El. unfold get_store in El.
    rewrite run_gets in El. by destruct (list_sids _ _ _). }
  pose proof (list_store_only _ _ _ _ El) as Et2. apply list_for_user_shrinks in El.
  set (u1 := u <| user_password_hash := hash |>
               <| user_session_version := user_session_version u + 1 |>) in *.
  rewrite bind_run in H. destruct (keep_only_run cur (user_session_version u1) l c2) as (st' & Ek & Hk).
  rewrite Ek in H. cbv iota beta in H. unfold in_tx in H. rewrite bind_run in H.
  change (cx_tx (c2 <| cx_store := st' |>)) with (cx_tx c2) in H.
  rewrite Et2, Et1, bind_run, (flush_user_run (cx_tx c) u u1 Hok Hu) in H by done.
  injection H as <- <-. exists u1. split; [done|]. split_and!; try done.
  - apply rewrite_edit; try done. simpl. lia.
  - etrans; [|exact Hk]. assert (∀ a b, store_le a b → kept_current cur (user_session_version u + 1) a b) as Hle
      by (intros a b [? ?]; split; auto). etrans; [apply Hle, Eh|apply Hle, El].
Qed.

(** *** The caller *)

Lemma caller_inr cookie c p c' :
  users_ok (cdb c) → get_current_user idle_seconds cookie c = (inr p, c') →
  ∃ sid u, cookie = Some sid ∧ p_session_id p = sid ∧ users (cdb c) !! p_user_id p = Some u ∧
    user_role u = p_role p ∧ user_status u = user_active ∧
    held (cx_store c) sid (p_user_id p) (user_session_version u) ∧
    held (cx_store c') sid (p_user_id p) (user_session_version u) ∧
    cx_tx c' = cx_tx c ∧ store_le (cx_store c) (cx_store c') ∧
    (∃ e, session_keys (cx_store c) !! sid = Some e ∧ clock (cdb c) < ss_expires_at e ∧
       clock (cdb c) < sess_absolute_expiry (ss_session e)).
Proof.
  intros Hok H. destruct cookie as [sid|]; [|done]. unfold get_current_user in H.
  apply bind_inr in H as (session & c1 & Hg & H).
  pose proof (get_store_only _ _ _ _ _ Hg) as Et. pose proof (get_shrinks _ _ _ _ _ Hg) as Hle.
  apply in_tx_inr in H as (s & H & ->). rewrite Et in H. unfold resolve_current_user, get_db in H. minv.
  unfold get in Hg. rewrite now_run in Hg. unfold get_store in Hg. rewrite run_gets in Hg.
  destruct (_read (clock (cdb c)) sid (cx_store c)) as [x|] eqn:Er; [|done].
  destruct (_is_absolute_expired _ x) eqn:Ee.
  { rewrite bind_run, revoke_run in Hg. done. }
  injection Hg as <- <-. cbn in *. pose proof (read_held _ _ _ _ Er) as [Hh Hsid].
  match goal with H : users _ !! _ = Some ?y |- _ => rename y into u; rename H into Hu end.
  destruct (uo_id _ Hok _ _ Hu) as [Hid _].
  match goal with H : (_ =? _) = true |- _ => apply Z.eqb_eq in H as Hv end.
  exists sid, u. rewrite Hid, Hv. split_and!; try done.
  - by eapply bool_decide_eq_true.
  - eexists. split; [apply lookup_insert_eq|]. done.
  - unfold _read in Er. destruct (session_keys (cx_store c) !! sid) as [e|]; [|done].
    destruct (live _ e) eqn:El; [|done]. injection Er as <-. exists e. unfold live, _is_absolute_expired in *.
    cbn in Ee. split; [done|]. lia.
Qed.

Lemma admin_actor_inr cookie c a c' :
  users_ok (cdb c) → admin_actor idle_seconds cookie c = (inr a, c') →
  cx_tx c' = cx_tx c ∧ store_le (cx_store c) (cx_store c').
Proof.
  intros Hok H. unfold admin_actor, _load_actor, get_db in H.
  apply bind_inr in H as (p & c1 & Hg & H). cinv.
  destruct (caller_inr _ _ _ _ Hok Hg) as (_ & _ & _ & _ & _ & _ & _ & _ & _ & ? & ? & _). done.
Qed.

Definition has_admin (d : Db) : Prop := ∃ i u, users d !! i = Some u ∧ is_active_admin u = true.

(** What a committed request does to the users. *)
Definition commits (d d' : Db) : Prop :=
  users_ok d → umoves d d' ∧ (has_admin d → has_admin d').

Lemma commits_same d d' :
  users d' = users d → umoves d d' → commits d d'.
Proof. intros E Hm _. split; [done|]. unfold has_admin. by rewrite E. Qed.

Lemma commits_new d d' u :
  umoves d d' → users d' = <[user_id u := u]> (users d) → user_id u = uuid_supply d → commits d d'.
Proof.
  intros Hm Eu Hid Hok. split; [done|]. intros (i & x & Hx & Ha). exists i, x. split; [|done].
  destruct (uo_id _ Hok _ _ Hx). rewrite Eu, lookup_insert_ne; [done|]. intros E. lia.
Qed.

Lemma commits_edit d d' uid u0 u1 :
  user_edit d d' uid u0 u1 →
  (is_active_admin u0 = true → is_active_admin u1 = true ∨ spare_admin d u0) → commits d d'.
Proof.
  intros [H1 H2 H3 H4 H5] Hg Hok. split; [done|]. intros (i & x & Hx & Ha).
  destruct (uo_id _ Hok _ _ H1) as [Hid _]. destruct (decide (i = uid)) as [->|Hne].
  - simplify_eq. destruct (Hg Ha) as [Ha1|Hsp]; [exists (user_id u1), u1; by rewrite H3, lookup_insert_eq|].
    destruct (Hsp Ha) as (j & v & Hj & Hv & Hva). exists j, v. rewrite H3, lookup_insert_ne; [done|].
    congruence.
  - exists i, x. by rewrite H3, lookup_insert_ne.
Qed.

#[local] Instance commits_preorder : PreOrder commits.
Proof.
  split; [by intros d H|]. intros d1 d2 d3 H1 H2 Hok. destruct (H1 Hok) as [M1 A1].
  destruct (M1 Hok) as [Hok2 _]. destruct (H2 Hok2) as [M2 A2]. split; [by etrans|auto].
Qed.

Lemma in_tx_commits {A} (m : M Session A) c a c' :
  (∀ s, m (cx_tx c) = (inr a, s) → commits (cdb c) (db s)) →
  in_tx m c = (inr a, c') → commits (cdb c) (cdb c').
Proof. intros Hm H. apply in_tx_inr in H as (s & H & ->). by apply Hm. Qed.

Lemma admin_commits {A} cookie (k : option User → M Ctx A) c a c' :
  (∀ actor c1, cx_tx c1 = cx_tx c → users_ok (cdb c1) → k actor c1 = (inr a, c') →
     commits (cdb c1) (cdb c')) →
  (admin_actor idle_seconds cookie ≫= k) c = (inr a, c') → commits (cdb c) (cdb c').
Proof.
  intros Hk (actor & c1 & H1 & H2)%bind_inr Hok.
  destruct (admin_actor_inr _ _ _ _ Hok H1) as [E _]. pose proof (Hk actor c1 E) as Hk1.
  rewrite E in Hk1. by apply (Hk1 Hok H2 Hok).
Qed.

Lemma tenant_commits (m : M Session Tenant) c c' :
  (∀ t s, m (cx_tx c) = (inr t, s) → umoves (cdb c) (db s) ∧ users (db s) = users (cdb c)) →
  in_tx (tenant ← m; TenantsRouter.respond tenant) c = (inr tt, c') → commits (cdb c) (cdb c').
Proof.
  intros Hm. apply in_tx_commits. intros s (t & s1 & H1 & H2)%bind_inr.
  unfold TenantsRouter.respond, get_tenant_summary, get_db in H2. minv.
  destruct (Hm _ _ H1). by apply commits_same.
Qed.

Lemma login_commits name pw c c' :
  (AuthRouter.login token_urlsafe idle_seconds absolute_seconds pwd_verify name pw ;; mret tt) c =
    (inr tt, c') → commits (cdb c) (cdb c').
Proof.
  intros H Hok. unfold AuthRouter.login in H. minv.
  match goal with H : login _ _ _ _ _ _ _ _ = _ |- _ => rename H into Hl end.
  destruct (login_cases _ _ _ _ _ _ Hok Hl) as [[[e ?] _]|(u & (Hu & _) & Ht)]; [done|].
  destruct (login_tail_run u None c Hok Hu) as (c1 & E & He & _).
  rewrite E in Ht. injection Ht as _ <-. eapply commits_edit; [exact He|by left|done].
Qed.

Lemma logout_commits cookie c c' :
  AuthRouter.logout idle_seconds cookie c = (inr tt, c') → commits (cdb c) (cdb c').
Proof.
  intros H Hok. unfold AuthRouter.logout, _load_actor, get_db in H.
  apply bind_inr in H as (p & c1 & Hg & H).
  destruct (caller_inr _ _ _ _ Hok Hg) as (_ & _ & _ & _ & _ & _ & _ & _ & _ & E & _).
  unfold logout in H. cinv. rewrite revoke_run in *. simplify_eq/=. rewrite E.
  apply commits_same; [done|by apply umoves_same|done].
Qed.

Lemma change_password_inr cookie cur new c c' :
  users_ok (cdb c) →
  AuthRouter.change_password idle_seconds pwd_hash pwd_verify cookie cur new c = (inr tt, c') →
  ∃ sid u u1, cookie = Some sid ∧ user_edit (cdb c) (cdb c') (user_id u) u u1 ∧
    is_active_admin u1 = is_active_admin u ∧
    user_session_version u1 = user_session_version u + 1 ∧
    held (cx_store c) sid (user_id u) (user_session_version u) ∧
    kept_current sid (user_session_version u1) (cx_store c) (cx_store c').
Proof.
  intros Hok H. unfold AuthRouter.change_password, _load_actor, get_db in H.
  apply bind_inr in H as (p & c1 & Hg & H).
  destruct (caller_inr _ _ _ _ Hok Hg) as (sid & u & -> & Hp & Hu & _ & _ & Hh & _ & E & Hle & _).
  rewrite bind_run in H. unfold in_tx at 1, gets in H. cbn in H. rewrite E, Hu, run_get_some in H.
  apply bind_inr in H as (x & c2 & Hc & [_ ->]%ret_inr).
  destruct (uo_id _ Hok _ _ Hu) as [Hid _].
  destruct (change_cases _ _ _ _ _ (mkCtx (cx_tx c) (cx_store c1)) _ _ Hok ltac:(by rewrite Hid) Hc)
    as [[[e ?] _]|(u1 & _ & He & Ha & Hv & Hk)]; [done|].
  exists sid, u, u1. rewrite Hid in *. split_and!; try done. rewrite Hv, <- Hp.
  etrans; [|exact Hk]. destruct Hle. split; auto.
Qed.

Lemma route_commits cookie r c c' :
  account_route token_urlsafe idle_seconds absolute_seconds pwd_hash pwd_verify cookie r c = (inr tt, c') →
  commits (cdb c) (cdb c').
Proof.
  destruct r; cbn [account_route]; intros H.
  - by eapply login_commits.
  - by eapply logout_commits.
  - intros Hok. destruct (change_password_inr _ _ _ _ _ Hok H) as (sid & u & u1 & _ & He & Ha & _).
    eapply commits_edit; [exact He| |done]. rewrite Ha. by left.
  - revert H. apply admin_commits. intros actor c1 _ Hok H. cinv.
    match goal with H : create_user _ _ _ _ _ _ _ _ = _ |- _ =>
      apply create_user_inr in H as (Hm & Eu & Eid) end. by eapply commits_new.
  - revert H. apply admin_commits. intros actor c1 _ Hok (u1 & c2 & H1 & H)%bind_inr.
    destruct (update_user_inr _ _ _ _ _ _ _ _ _ Hok H1) as (u0 & He & Hg & _).
    etrans; [by eapply commits_edit|]. destruct (up_status payload); cinv; [|done].
    destruct (ue_moves _ _ _ _ _ He Hok) as [Hok2 _].
    match goal with H : set_status _ _ _ _ _ = _ |- _ =>
      destruct (set_status_inr _ _ _ _ _ _ _ Hok2 H) as (u2 & He2 & Hg2 & _) end.
    by eapply commits_edit.
  - revert H. apply admin_commits. intros actor c1 _ Hok H.
    destruct (delete_user_inr _ _ _ _ _ _ Hok H) as (u0 & Hu0 & Hsp & Eu & Hm). intros _. split; [done|].
    intros (i & x & Hx & Ha). destruct (uo_id _ Hok _ _ Hu0) as [Hid _].
    destruct (decide (i = user_id_)) as [->|Hne].
    + simplify_eq. destruct (Hsp Ha) as (j & v & Hj & Hv & Hva). exists j, v.
      rewrite Eu, lookup_delete_ne; [done|congruence].
    + exists i, x. by rewrite Eu, lookup_delete_ne.
  - revert H. apply admin_commits. intros actor c1 _ Hok H. cinv.
    match goal with H : reset_password _ _ _ _ _ _ = _ |- _ =>
      destruct (reset_password_inr _ _ _ _ _ _ _ _ Hok H) as (u0 & He & Ha & _) end.
    eapply commits_edit; [exact He|]. rewrite Ha. by left.
  - revert H. apply admin_commits. intros actor c1 _ Hok. apply tenant_commits. intros t s H.
    by eapply (proj1 (tenant_ops_umoves actor _ _ _)).
  - revert H. apply admin_commits. intros actor c1 _ Hok. apply tenant_commits. intros t s H.
    by eapply (proj1 (proj2 (tenant_ops_umoves actor _ _ _))).
  - revert H. apply admin_commits. intros actor c1 _ Hok. apply in_tx_commits. intros s H.
    destruct (delete_tenant_umoves _ _ _ _ _ _ Hok H). by apply commits_same.
  - revert H. apply admin_commits. intros actor c1 _ Hok. apply tenant_commits. intros t s H.
    by eapply (proj2 (proj2 (tenant_ops_umoves actor _ _ _))).
  - revert H. apply admin_commits. intros actor c1 _ Hok. apply tenant_commits. intros t s H.
    by eapply (proj2 (proj2 (tenant_ops_umoves actor _ _ _))).
Qed.
End logins.
