(* ===== verification/NodeLanes.v ===== *)
(** * The lanes that keep the data plane in step
    ([worker/blocked_port_reconciler.py], [worker/node_control_reconciler.py],
    [worker/nexthop_resolver.py], [services/nexthop_metrics.py])

    The blocked ports and the bypass switch are written through the helper
    [dpstat]; a lane remembers the last value it saw acknowledged and calls the
    helper only when the database asks for another one.  How a call ends is an
    argument of the tick that makes it. *)

From S2P Require Import Prelude PyStr Ipaddress Models Db Services NodeControl Api.
From stdpp Require Import pretty.
Import Deps.
Open Scope Z_scope.

(** ** Blocked UDP source ports ([services/ddos_amplification.py], [api/routers/ddos.py]) *)

(** The ports the data plane blocks on its own. *)
Definition HARDCODED_AMP_PORTS : list Z :=
  [17; 19; 53; 111; 123; 137; 161; 389; 520; 1900; 5353; 11211].

Definition list_blocked_ports (d : Db) : list BlockedUdpPort :=
  order_by bp_port (rows (blocked_udp_port d)).

Definition port_already_blocked : exn := HTTPException 409 "port already blocked".
Definition port_not_found : exn := HTTPException 404 "blocked port not found".

(** The check constraint of the column holds at the flush. *)
Definition port_in_range (port : Z) : bool := (0 <=? port) && (port <=? 65535).

Definition add_blocked_port (actor : option User) (port : Z) (note ip : option string)
    : M Session BlockedUdpPort :=
  ports ← get_db blocked_udp_port;
  require (bool_decide (ports !! port = None)) port_already_blocked ;;
  now ← utc_now;
  let entry := mkBlockedUdpPort port note (user_id <$> actor) now in
  require (port_in_range port) (IntegrityError "ck_blocked_udp_port_range") ;;
  mod_db (fun d => d <| blocked_udp_port := <[port := entry]> (blocked_udp_port d) |>) ;;
  record_event actor "ddos.amp_port.added" (Some "blocked_udp_port"%string) (Some (pretty port))
    "success" ip (Some [("note"%string, match note with Some n => JStr n | None => JNull end)]) ;;
  mret entry.

Definition remove_blocked_port (actor : option User) (port : Z) (ip : option string) : M Session unit :=
  ports ← get_db blocked_udp_port;
  require (bool_decide (is_Some (ports !! port))) port_not_found ;;
  mod_db (fun d => d <| blocked_udp_port := delete port (blocked_udp_port d) |>) ;;
  record_event actor "ddos.amp_port.removed" (Some "blocked_udp_port"%string) (Some (pretty port))
    "success" ip None.

(** ** The routes *)

Record BlockedPortCreateRequest := mkBlockedPortCreateRequest {
  bpr_port : Z;
  bpr_note : option string
}.

Record BlockedPortResponse := mkBlockedPortResponse {
  bps_port : Z;
  bps_note : option string;
  bps_created_by : option uuid;
  bps_created_at : timestamp
}.

Record AmplificationConfigResponse := mkAmplificationConfigResponse {
  amp_hardcoded_ports : list Z;
  amp_dynamic_ports : list BlockedPortResponse
}.

(** What the schema lets through. *)
Definition valid_request (r : BlockedPortCreateRequest) : bool :=
  port_in_range (bpr_port r) &&
  match bpr_note r with Some n => Z.of_nat (String.length n) <=? 256 | None => true end.

Definition _blocked_port_response (e : BlockedUdpPort) : BlockedPortResponse :=
  mkBlockedPortResponse (bp_port e) (bp_note e) (bp_created_by e) (bp_created_at e).

Definition get_amplification_config (principal : Principal) : M Session AmplificationConfigResponse :=
  lift (require_admin principal) ;;
  entries ← get_db list_blocked_ports;
  mret (mkAmplificationConfigResponse HARDCODED_AMP_PORTS (_blocked_port_response <$> entries)).

Definition add_blocked_udp_port (payload : BlockedPortCreateRequest) (principal : Principal)
    : M Session BlockedPortResponse :=
  require (valid_request payload) (HTTPException 422 "Validation error") ;;
  lift (require_admin principal) ;;
  actor ← _load_actor principal;
  entry ← add_blocked_port actor (bpr_port payload) (bpr_note payload) None;
  mret (_blocked_port_response entry).

Definition remove_blocked_udp_port (port : Z) (principal : Principal) : M Session unit :=
  lift (require_admin principal) ;;
  actor ← _load_actor principal;
  remove_blocked_port actor port None.

(** ** Every branch of the two operations *)

Lemma load_actor_run p s : ∃ actor, _load_actor p s = (inr actor, s).
Proof. by eexists. Qed.

Lemma add_blocked_port_run actor port note ip s :
  port_in_range port = true →
  match blocked_udp_port (db s) !! port with
  | Some _ => add_blocked_port actor port note ip s = (inl port_already_blocked, s)
  | None => ∃ entry e s', add_blocked_port actor port note ip s = (inr entry, s') ∧
      bp_port entry = port ∧ bp_note entry = note ∧
      blocked_udp_port (db s') = <[port := entry]> (blocked_udp_port (db s)) ∧
      audit_events (db s') = audit_events (db s) ++ [e] ∧
      audit_action e = "ddos.amp_port.added"%string
  end.
Proof.
  intros Hr. unfold add_blocked_port, get_db. destruct (blocked_udp_port (db s) !! port) eqn:E.
  - rewrite run_gets, E, bool_decide_eq_false_2 by done. by rewrite run_require_err.
  - rewrite run_gets, E, bool_decide_eq_true_2, run_require by done.
    unfold utc_now, get_db. rewrite run_gets. cbv zeta. rewrite Hr, run_require.
    unfold mod_db. rewrite run_modS. unfold record_event, mod_db. rewrite run_modS.
    eexists _, _, _. split; [reflexivity|]. by split_and!.
Qed.

Lemma remove_blocked_port_run actor port ip s :
  match blocked_udp_port (db s) !! port with
  | None => remove_blocked_port actor port ip s = (inl port_not_found, s)
  | Some _ => ∃ e s', remove_blocked_port actor port ip s = (inr tt, s') ∧
      blocked_udp_port (db s') = delete port (blocked_udp_port (db s)) ∧
      audit_events (db s') = audit_events (db s) ++ [e] ∧
      audit_action e = "ddos.amp_port.removed"%string
  end.
Proof.
  unfold remove_blocked_port, get_db. rewrite run_gets.
  destruct (blocked_udp_port (db s) !! port) eqn:E.
  - rewrite bool_decide_eq_true_2, run_require by (by eexists). unfold mod_db. rewrite run_modS.
    unfold record_event, mod_db. eexists _, _. split; [reflexivity|]. by split_and!.
  - rewrite bool_decide_eq_false_2 by (by intros [? ?]). by rewrite run_require_err.
Qed.

(** Blocking and unblocking a port.  An administrator's valid request adds
    exactly that port and one audit event, or is refused with 409 without effect
    when the port is blocked already; unblocking it next restores the table and
    adds one more event, and unblocking it again is refused with 404.  Anyone
    else is refused with 403 without effect. *)
Theorem blocked_port_routes payload p s :
  valid_request payload = true →
  let port := bpr_port payload in
  (p_role p ≠ admin → add_blocked_udp_port payload p s = (inl forbidden, s) ∧
                      remove_blocked_udp_port port p s = (inl forbidden, s)) ∧
  (p_role p = admin →
   match blocked_udp_port (db s) !! port with
   | Some _ => add_blocked_udp_port payload p s = (inl port_already_blocked, s)
   | None => ∃ r s1 s2 e1 e2, add_blocked_udp_port payload p s = (inr r, s1) ∧ bps_port r = port ∧
       bp_port <$> list_blocked_ports (db s1) ≡ₚ port :: (bp_port <$> list_blocked_ports (db s)) ∧
       remove_blocked_udp_port port p s1 = (inr tt, s2) ∧
       blocked_udp_port (db s2) = blocked_udp_port (db s) ∧
       audit_events (db s2) = audit_events (db s) ++ [e1; e2] ∧
       remove_blocked_udp_port port p s2 = (inl port_not_found, s2)
   end).
Proof.
  intros Hv. cbv zeta. unfold add_blocked_udp_port, remove_blocked_udp_port, require_admin.
  rewrite Hv. split; intros Hp.
  { rewrite bool_decide_eq_false_2 by done. by rewrite run_require, !run_lift_err. }
  rewrite bool_decide_eq_true_2 by done.
  apply andb_true_iff in Hv as [Hr _].
  assert (∀ {B} (k : option User → M Session B) s0, ∃ actor, (_load_actor p ≫= k) s0 = k actor s0) as Hact.
  { intros B k s0. by eexists. }
  destruct (blocked_udp_port (db s) !! bpr_port payload) eqn:E.
  - rewrite run_require, run_lift. edestruct (Hact BlockedPortResponse) as [a ->].
    pose proof (add_blocked_port_run a (bpr_port payload) (bpr_note payload) None s Hr) as H.
    rewrite E in H. by rewrite bind_run, H.
  - rewrite run_require, run_lift. edestruct (Hact BlockedPortResponse) as [a ->].
    pose proof (add_blocked_port_run a (bpr_port payload) (bpr_note payload) None s Hr) as H.
    rewrite E in H. destruct H as (entry & e1 & s1 & H1 & Eport & _ & Et1 & Ea1 & _).
    edestruct (Hact unit) as [a2 Ha2].
    pose proof (remove_blocked_port_run a2 (bpr_port payload) None s1) as H.
    rewrite Et1, lookup_insert_eq in H. destruct H as (e2 & s2 & H2 & Et2 & Ea2 & _).
    assert (blocked_udp_port (db s2) = blocked_udp_port (db s)) as Eback.
    { rewrite Et2, delete_insert_id; [done|done]. }
    eexists _, s1, s2, e1, e2. rewrite bind_run, H1. split_and!; [reflexivity|done| | |done| |].
    + unfold list_blocked_ports. rewrite !(order_by_perm bp_port), Et1. unfold rows.
      rewrite map_to_list_insert by done. simpl. by rewrite Eport.
    + rewrite run_lift. rewrite Ha2. exact H2.
    + by rewrite Ea2, Ea1, <- (assoc_L app).
    + rewrite run_lift. edestruct (Hact unit) as [a3 ->].
      pose proof (remove_blocked_port_run a3 (bpr_port payload) None s2) as H.
      by rewrite Eback, E in H.
Qed.

(** ** Writers *)

(** [applied]: the value reached the data plane before the helper ended or was
    killed. *)
Inductive CallOutcome :=
  | NotStarted
  | TimedOut (applied : bool)
  | Ended (returncode : Z) (applied : bool).

(** What [set] returns. *)
Definition acknowledged (o : CallOutcome) : bool :=
  match o with Ended rc _ => rc =? 0 | _ => false end.
Definition took_effect (o : CallOutcome) : bool :=
  match o with NotStarted => false | TimedOut applied | Ended _ applied => applied end.

(** The lane's memory, and the value in the data plane it acts on. *)
Record Asserted (V : Type) := mkAsserted { as_value : option V; as_dataplane : option V }.
Arguments mkAsserted {V}.
Arguments as_value {V}.
Arguments as_dataplane {V}.

Section assertion.
Context {V : Type} `{EqDecision V}.

(** [if self.asserted != desired and await self.writer.set(desired): self.asserted = desired]. *)
Definition assert_value (desired : V) (o : CallOutcome) (s : Asserted V) : Asserted V :=
  if bool_decide (as_value s = Some desired) then s
  else mkAsserted (if acknowledged o then Some desired else as_value s)
         (if took_effect o then Some desired else as_dataplane s).
End assertion.

(** The command line of the port writer. *)
Definition set_blocked_ports_args (ports : gset Z) : list string :=
  "set-blocked-ports"%string :: (pretty <$> merge_sort Z.le (elements ports)).
Definition set_bypass_args (bypass : Z) : list string := ["set-bypass"%string; pretty bypass].

(** ** [BlockedPortReconciler] *)

Definition BlockedPortReconciler : Type := Asserted (gset Z).

Definition desired_ports (d : Db) : gset Z := list_to_set (bp_port <$> list_blocked_ports d).

Definition reconcile_ports (d : Db) (o : CallOutcome) (s : BlockedPortReconciler)
    : BlockedPortReconciler := assert_value (desired_ports d) o s.

(** ** [NodeControlReconciler] *)

Record NodeControlReconciler := mkNodeControlReconciler {
  ncr_bypass : Asserted Z;
  ncr_maintenance_active : option bool
}.

(** The switches are read in a transaction that is not committed; the second
    component says whether [on_maintenance_cleared] is called. *)
Definition reconcile_control (d : Db) (o : CallOutcome) (s : NodeControlReconciler)
    : NodeControlReconciler * bool :=
  let control := node_control_of d in
  let desired_bypass := Z.b2z (nc_bypass_enabled control) in
  let maintenance_active := nc_maintenance_enabled control in
  (mkNodeControlReconciler (assert_value desired_bypass o (ncr_bypass s)) (Some maintenance_active),
   bool_decide (ncr_maintenance_active s = Some true) && negb maintenance_active).

(** ** [NextHopResolver] *)

(** [_METRICS]: successes and failures by service. *)
Definition ResolveMetrics : Type := gmap Z (Z * Z).
Definition get_resolve_metrics (dp_id : Z) (m : ResolveMetrics) : Z * Z := default (0, 0) (m !! dp_id).
Definition record_resolve_result (dp_id : Z) (success : bool) (m : ResolveMetrics) : ResolveMetrics :=
  let '(ok, bad) := get_resolve_metrics dp_id m in
  <[dp_id := if success then (ok + 1, bad) else (ok, bad + 1)]> m.

(** The next-hop table of the data plane, by service and address. *)
Record Hops := mkHops { hops_table : gmap Z string; hops_metrics : ResolveMetrics }.

#[global] Instance Hops_eta : Eta Hops := MkEta (fun r => mkHops (hops_table r) (hops_metrics r)).

Inductive hop_request := RequestResolve (dp_id : Z) (ip : string) | RequestEvict (dp_id : Z).

Section resolver.
(** Whether the helper's probe answers and whether its calls get through. *)
Context (resolves : Z → string → bool) (evicts : Z → bool).

Definition hop_resolve (dp_id : Z) (ip : string) (h : Hops) : Hops :=
  let success := resolves dp_id ip in
  (if success then h <| hops_table := <[dp_id := ip]> (hops_table h) |> else h)
    <| hops_metrics := record_resolve_result dp_id success (hops_metrics h) |>.

Definition hop_evict (dp_id : Z) (h : Hops) : Hops :=
  if evicts dp_id then h <| hops_table := delete dp_id (hops_table h) |> else h.

(** [str(ip_network(cidr_or_ip, strict=False).network_address)]. *)
Definition hop_address (svc : ProtectedService) : string :=
  string_of_pystr (string_from_ip_int (network_address (svc_cidr_or_ip svc))).

Definition enabled_services (d : Db) : list (Z * string) :=
  (fun svc => (svc_dp_id svc, hop_address svc)) <$> select_where svc_enabled (protected_service d).

(** [snapshot]: the snapshot could be read and parsed, else no entry is known. *)
Definition resolve_once (d : Db) (snapshot : bool) (h : Hops) : Hops :=
  let services := enabled_services d in
  let h := foldl (fun h x => hop_resolve x.1 x.2 h) h services in
  let active := if snapshot then (map_to_list (hops_table h)).*1 else [] in
  foldl (fun h dp_id => hop_evict dp_id h) h
    (List.filter (fun dp_id => negb (bool_decide (dp_id ∈ services.*1))) active).

(** One operation taken from the queue. *)
Definition drain_one (r : hop_request) (h : Hops) : Hops :=
  match r with
  | RequestResolve dp_id ip => hop_resolve dp_id ip h
  | RequestEvict dp_id => hop_evict dp_id h
  end.
End resolver.

(** The request [handle_service_update] leaves after an apply. *)
Definition hop_request_of (svc : ProtectedService) : hop_request :=
  if svc_enabled svc then RequestResolve (svc_dp_id svc) (hop_address svc)
  else RequestEvict (svc_dp_id svc).
