(* ===== verification/GatewaySpec.v ===== *)
(** * What holds in every reachable state, and what a request does *)

From S2P Require Import NodeLanes SessionStore Accounts AccountsApi AccountsInv.
From S2P Require Import Prelude PyStr Ipaddress RuleMatch Models Db.
From S2P Require Import Apply ApplyInv Allocations PyNum Services Isolation.
From S2P Require Import Rules ServicesInv FeedReconcile FeedInv Lists ListsInv.
From S2P Require Import Evolution WorkerInv Applier ApplierInv FeedRunner.
From S2P Require Import Processor WorldInv Api ApiInv System.
From S2P Require Import Requests Demo.
Import XdpgwApply Deps.
Open Scope Z_scope.

Section gateway.
Context (sha256 : pystr → string) (capacity : Decimal) (ncpus : Z).
Context (xdpgw_apply : World → list Z → HelperOutcome).
Context (fetch_source : World → ThreatFeedSource → exn + list Z).

Abbreviation reach := (reachable sha256 capacity ncpus xdpgw_apply fetch_source).

Lemma reach_inv x : reach x → inv sha256 (fun _ => True) x.
Proof. by apply reachable_inv. Qed.

Lemma reach_sys w ph : reach (w, ph) → sys_ok sha256 (w_db w).
Proof. intros H. apply (inv_sys _ _ _ (reach_inv _ H)). Qed.
Lemma reach_fresh w ph : reach (w, ph) → fresh_ok (w_db w).
Proof. intros H. apply (inv_fresh _ _ _ (reach_inv _ H)). Qed.

(** C1: whenever a service is shown as active, the data plane enforces its
    configuration of this moment.  The helper exits with status 0 only for a
    snapshot its decoder accepts; then, in every reachable state, the latest
    acknowledged snapshot decodes to a list of services that has the entry of
    the service's current destination, limits, plan, rules and whitelist when
    the service is enabled, and no entry for its destination when it is
    disabled.  Requests, crashes, recoveries and feed completions may come
    between any two transactions of the worker. *)
Theorem active_service_enforced
    (helper_parses : ∀ w bytes out err,
       xdpgw_apply w bytes = Exited 0 out err → is_Some (parse_snapshot bytes))
    w ph sid svc
    (Hreach : reach (w, ph))
    (Hsvc : protected_service (w_db w) !! sid = Some svc)
    (Hactive : svc_apply_status svc = ApplyStatus.active) :
  ∃ bytes older services, w_applied w = bytes :: older ∧
    parse_snapshot bytes = Some (SERVICE_FULL services) ∧
    if svc_enabled svc
    then decode_service (_service_config (w_db w) svc) ∈ services
    else ∀ c, c ∈ services → dst_of c ≠ net_entry (svc_cidr_or_ip svc).
Proof.
  destruct (reachable_inv _ _ _ _ _ (fun bytes => is_Some (parse_snapshot bytes)) helper_parses _ Hreach)
    as [Hsys _ Hact _ Hacc]. simpl in *. specialize (Hact sid svc Hsvc Hactive).
  pose proof Hact as (d0 & bytes & older & Ew & _). rewrite Ew in Hacc.
  apply Forall_cons in Hacc as [[cfg Hp] _].
  destruct (enforced_decoded w sid svc bytes older cfg (proj1 Hsys) Hsvc Hact Ew Hp)
    as (services & -> & Hin). by exists bytes, older, services.
Qed.

(** C2: in every reachable state each service has exactly one job of its
    current version; that job is queued, applying, succeeded or failed just as
    the service is queued, applying, active or failed; the applied version never
    passes the configured one and equals it exactly when the service is
    active. *)
Theorem job_ledger_consistent w ph sid svc
    (Hreach : reach (w, ph)) (Hsvc : protected_service (w_db w) !! sid = Some svc) :
  (∃ jid job, agent_job (w_db w) !! jid = Some job ∧ is_service_job sid (svc_version svc) job = true ∧
     (∀ jid' job', agent_job (w_db w) !! jid' = Some job' →
        is_service_job sid (svc_version svc) job' = true → jid' = jid) ∧
     match svc_apply_status svc with
     | ApplyStatus.pending => False
     | ApplyStatus.queued => job_status job = JobStatus.queued
     | ApplyStatus.applying => job_status job = JobStatus.applying
     | ApplyStatus.active => job_status job = JobStatus.succeeded
     | ApplyStatus.failed => job_status job = JobStatus.failed
     end) ∧
  match svc_active_version svc with
  | None => svc_apply_status svc ≠ ApplyStatus.active
  | Some v => v <= svc_version svc ∧ (v = svc_version svc ↔ svc_apply_status svc = ApplyStatus.active)
  end.
Proof.
  pose proof (reach_sys _ _ Hreach) as [[[Hl Hset] _] _].
  destruct (Hset sid svc Hsvc) as [Hact (jid & job & [Hj Ht] & Hv & Hc)]. split; [|exact Hact].
  exists jid, job. assert (∀ j, is_service_job sid (svc_version svc) j = true ↔
    job_target j = TargetService sid ∧ job_version j = svc_version svc) as Hiff.
  { intros j. unfold is_service_job. rewrite andb_true_iff, bool_decide_eq_true, Z.eqb_eq. done. }
  split_and!; [done|by apply Hiff| |].
  - intros jid' job' Hj' [Ht' Hv']%Hiff.
    eapply (li_unique _ _ Hl); [by split|by split|congruence].
  - unfold coupled in Hc. destruct (svc_apply_status svc), (job_status job); done.
Qed.

(** C3: in every reachable state an address inside the destination of a
    protected service belongs to that service alone, lies in an active
    allocation of the service's own tenant, and lies in no other active
    allocation. *)
Theorem protected_address_isolated w ph sid svc ip
    (Hreach : reach (w, ph)) (Hsvc : protected_service (w_db w) !! sid = Some svc)
    (Hip : in_net ip (svc_cidr_or_ip svc)) :
  (∀ sid' svc', protected_service (w_db w) !! sid' = Some svc' →
     in_net ip (svc_cidr_or_ip svc') → sid' = sid) ∧
  ∃ k a, allocated_cidr (w_db w) !! k = Some a ∧ is_active_alloc a = true ∧
    alloc_tenant_id a = svc_tenant_id svc ∧ in_net ip (alloc_cidr a) ∧
    ∀ k' a', allocated_cidr (w_db w) !! k' = Some a' → is_active_alloc a' = true →
             in_net ip (alloc_cidr a') → k' = k.
Proof.
  pose proof (reach_sys _ _ Hreach) as [(_ & Hiso & _) _].
  assert (∀ i s, protected_service (w_db w) !! i = Some s →
    dests (w_db w) !! i = Some (svc_tenant_id s, svc_cidr_or_ip s)) as Hd.
  { intros i s Hs. unfold dests. by rewrite lookup_fmap, Hs. }
  destruct (isolation_address _ _ _ _ _ _ Hiso (Hd _ _ Hsvc) Hip) as [Huniq Hal].
  split; [|exact Hal]. intros sid' svc' Hs' Hip'. by eapply Huniq; [apply Hd|].
Qed.

(** C33: in every reachable state a service has a plan with
    0 <= committed <= ceiling, at most sixteen rules, no two rules of one
    priority, and every rule has a service and valid port ranges (both bounds
    or none, ordered, within 0..65535). *)
Theorem configuration_well_formed w ph sid svc
    (Hreach : reach (w, ph)) (Hsvc : protected_service (w_db w) !! sid = Some svc) :
  (∃ plan, service_plan (w_db w) !! sid = Some plan ∧
     0 <= plan_committed_clean_gbps plan <= plan_ceiling_clean_gbps plan) ∧
  (length (rules_of (w_db w) sid) <= 16)%nat ∧
  NoDup (rule_priority <$> rules_of (w_db w) sid) ∧
  ∀ r, r ∈ rules_of (w_db w) sid →
    range_ok (rule_src_port_lo r, rule_src_port_hi r) ∧
    range_ok (rule_dst_port_lo r, rule_dst_port_hi r).
Proof.
  pose proof (reach_sys _ _ Hreach) as [(_ & _ & Hcf) _].
  destruct (cf_plan _ Hcf sid) as [_ Hp]. destruct Hp as [plan Hplan]; [by eexists|].
  destruct (cf_plan_ok _ Hcf _ _ Hplan) as [_ Hok]. unfold plan_ok in Hok.
  split_and!.
  - exists plan. split; [done|lia].
  - apply (cf_rule_count _ Hcf).
  - apply select_where_nodup. intros k r k' r' Hk Hk' E%bool_decide_eq_true E'%bool_decide_eq_true Hp.
    eapply (cf_rule_priority _ Hcf); [done..|congruence|done].
  - intros r (_ & k & Hk)%elem_of_select. by destruct (cf_rule _ Hcf _ _ Hk) as (_ & _ & ? & ?).
Qed.

(** C23: in every reachable state the global deny list has one entry per
    network and its networks are canonical; an entry that came from feeds is
    still asserted by some feed; the desired digest is the digest of the list
    as it stands, so a changed list always shows as a changed digest. *)
Theorem global_deny_consistent w ph
    (Hreach : reach (w, ph)) :
  NoDup (_global_cidrs (w_db w)) ∧ Forall net_wf (_global_cidrs (w_db w)) ∧
  (∀ i e, blacklist_entry (w_db w) !! i = Some e → is_global e = true → is_feed_entry e = true →
     ∃ s, is_Some (feed_blacklist_assertion (w_db w) !! (s, i))) ∧
  (∀ st, global_deny_state (w_db w) = Some st →
     gds_desired_digest st = Some (_digest sha256 (_global_cidrs (w_db w)))).
Proof.
  pose proof (reach_sys _ _ Hreach) as [_ (Hbl & Hfb & Hdig)]. split_and!.
  - by apply global_cidrs_nodup.
  - apply Forall_forall. intros c (i & e & Hi & _ & <-)%elem_of_global_cidrs. by eapply (bl_wf _ Hbl).
  - intros i e Hi Hg Hf. by destruct (Hfb i e Hi Hg Hf) as [s Hs]; exists s.
  - exact Hdig.
Qed.

(** The worker's functions stay inside the transition system: whatever
    [process_job] and the startup pass [reconcile_once] return or raise, they
    took the world from idle to idle along its steps, so every invariant of
    reachable states holds again afterwards. *)
Theorem worker_refines_steps down orphans exclude id w r w' n w''
    (Hreach : reach (w, Idle))
    (Hprocess : process_job sha256 xdpgw_apply fetch_source (DoubleBufferApplier xdpgw_apply)
                  down id w = (r, w'))
    (Hreconcile : reconcile_once sha256 xdpgw_apply fetch_source (DoubleBufferApplier xdpgw_apply)
                    down orphans exclude w' = (n, w'')) :
  rtc (step sha256 capacity ncpus xdpgw_apply fetch_source) (w, Idle) (w', Idle) ∧
  rtc (step sha256 capacity ncpus xdpgw_apply fetch_source) (w', Idle) (w'', Idle) ∧
  reach (w'', Idle).
Proof.
  apply (process_steps sha256 capacity ncpus) in Hprocess.
  apply (reconcile_once_steps sha256 capacity ncpus) in Hreconcile. split_and!; [done..|].
  destruct Hreach as (x0 & Hi & Hs). exists x0. split; [done|]. by do 2 (etrans; [eassumption|]).
Qed.

(** The requests of an account for other accounts, and for tenants. *)
Definition manages_accounts (r : account_request) : bool :=
  match r with Login _ _ | Logout | ChangePassword _ _ => false | _ => true end.

Lemma resolve_unchanged session s p s' : resolve_current_user session s = (inr p, s') → s' = s.
Proof. unfold resolve_current_user, get_db. intros H. by minv. Qed.

Lemma ports_refused session w p s0 payload port :
  resolve_current_user session (new_session (w_db w)) = (inr p, s0) → p_role p = tenant_user →
  (∃ e, session_scope (p ← resolve_current_user session; add_blocked_udp_port payload p) w = (inl e, w)) ∧
  session_scope (p ← resolve_current_user session; remove_blocked_udp_port port p) w = (inl forbidden, w).
Proof.
  intros Hp Hrole. pose proof (resolve_unchanged _ _ _ _ Hp) as ->.
  unfold add_blocked_udp_port, remove_blocked_udp_port, require_admin. split.
  - destruct (valid_request payload); eexists; apply session_scope_read; rewrite bind_run, Hp;
      cbn beta iota; rewrite Hrole; reflexivity.
  - apply session_scope_read. rewrite bind_run, Hp. cbn beta iota. rewrite Hrole. reflexivity.
Qed.

Lemma current_user_tx idle cookie c p c' :
  get_current_user idle cookie c = (inr p, c') → cx_tx c' = cx_tx c.
Proof.
  destruct cookie as [sid|]; [|done]. intros (session & c1 & Hg & H)%bind_inr.
  unfold in_tx in H. destruct (resolve_current_user session (cx_tx c1)) as [[e|q] s1] eqn:E; simplify_eq.
  apply resolve_unchanged in E as ->. simpl. exact (get_store_only _ _ _ _ _ Hg).
Qed.

Lemma accounts_refused token idle absolute pwd_hash pwd_verify cookie a w store p c :
  get_current_user idle cookie (mkCtx (new_session (w_db w)) store) = (inr p, c) →
  p_role p = tenant_user → manages_accounts a = true →
  serve_account token idle absolute pwd_hash pwd_verify cookie a (mkAWorld w store) =
    (inl forbidden, mkAWorld w (cx_store c)).
Proof.
  intros Hp Hrole Ha. pose proof (current_user_tx _ _ _ _ _ Hp) as Htx. simpl in Htx.
  assert (admin_actor idle cookie (mkCtx (new_session (w_db w)) store) = (inl forbidden, c)) as Hadmin.
  { unfold admin_actor. rewrite bind_run, Hp. unfold require_admin. by rewrite Hrole. }
  unfold serve_account, account_scope. simpl.
  assert (account_route token idle absolute pwd_hash pwd_verify cookie a (mkCtx (new_session (w_db w)) store) =
    (inl forbidden, c)) as ->.
  { by destruct a; try done; cbn [account_route]; unfold UsersRouter.create_user, UsersRouter.update_user,
      UsersRouter.delete_user, UsersRouter.reset_password, TenantsRouter.create_tenant,
      TenantsRouter.update_tenant, TenantsRouter.delete_tenant, TenantsRouter._set_tenant_status;
      rewrite bind_run, Hadmin. }
  rewrite Htx. simpl. rewrite rollback_same. by destruct w.
Qed.

(** C4: a tenant user reaches the services of the own tenant only.  Whatever
    the configuration request and its outcome: the rows, the configuration and
    the place in the apply ledger of every other tenant's services are unchanged;
    a service that appears belongs to the tenant; a job that appears, goes or
    changes (the time of its dispatch aside) is of one of the tenant's services;
    a recorded feed overlap goes only with a whitelist entry of one of them and
    none appears; and the accounts, the allocations, the global deny list with
    its feeds, runs and assertions, the node switches and the blocked ports are
    unchanged.  The requests that block and unblock ports are refused and change
    nothing, and so are all that manage accounts and tenants, which change
    nothing but the caller's own login session. *)
Theorem tenant_requests_confined session r w ph res w' p s0 t
    (Hreach : reach (w, ph))
    (Hcaller : resolve_current_user session (new_session (w_db w)) = (inr p, s0))
    (Hrole : p_role p = tenant_user) (Htenant : p_tenant_id p = Some t)
    (Hserve : serve sha256 capacity ncpus session r w = (res, w')) :
  foreign_same t (w_db w) (w_db w') ∧
  (∀ payload port,
     (∃ e, session_scope (p ← resolve_current_user session; add_blocked_udp_port payload p) w = (inl e, w)) ∧
     session_scope (p ← resolve_current_user session; remove_blocked_udp_port port p) w = (inl forbidden, w)) ∧
  (∀ token idle absolute pwd_hash pwd_verify cookie a store c,
     get_current_user idle cookie (mkCtx (new_session (w_db w)) store) = (inr p, c) →
     manages_accounts a = true →
     serve_account token idle absolute pwd_hash pwd_verify cookie a (mkAWorld w store) =
       (inl forbidden, mkAWorld w (cx_store c))).
Proof.
  split_and!; [|by intros; eapply ports_refused|by intros; eapply accounts_refused].
  destruct res as [e|u].
  - apply serve_inl in Hserve as [d ->]. exact (foreign_same_refl t (w_db w)).
  - apply serve_inr in Hserve as (p' & s' & Hp & Hr & ->).
    rewrite Hp in Hcaller. injection Hcaller as <- <-.
    apply (route_confined sha256 capacity ncpus p' t Hrole Htenant) in Hr.
    specialize (Hr (reach_sys _ _ Hreach) (reach_fresh _ _ Hreach)).
    destruct (callbacks_tables (post_commit_callbacks s') (w <| w_db := db s' |>)) as [Hod _].
    exact (foreign_same_dispatched t _ _ _ Hr Hod).
Qed.


(** C7: every answered request that changes the configuration of a service
    raises its version by exactly one, leaves the applied version alone, puts
    the service back to queued and adds exactly one new queued job of the new
    version, while the ledger of every other service stays put; asking for the
    switch position the service already has changes nothing. *)
Theorem configuration_request_requeues session r w ph u w' sid
    (Hreach : reach (w, ph)) (Htarget : config_target r = Some sid)
    (Hserve : serve sha256 capacity ncpus session r w = (inr u, w')) :
  ∃ svc, protected_service (w_db w) !! sid = Some svc ∧
  if noop r svc then w_db w' = w_db w ∧ w_queue w' = w_queue w else
  ∃ svc' jid job, protected_service (w_db w') !! sid = Some svc' ∧
    svc_version svc' = svc_version svc + 1 ∧ svc_apply_status svc' = ApplyStatus.queued ∧
    svc_active_version svc' = svc_active_version svc ∧
    agent_job (w_db w) !! jid = None ∧ agent_job (w_db w') !! jid = Some job ∧
    job_target job = TargetService sid ∧ job_version job = svc_version svc' ∧
    job_status job = JobStatus.queued ∧
    dom (agent_job (w_db w')) = {[jid]} ∪ dom (agent_job (w_db w)) ∧
    ∀ i, i ≠ sid → ledger_row <$> protected_service (w_db w') !! i =
                   ledger_row <$> protected_service (w_db w) !! i.
Proof.
  apply serve_inr in Hserve as (p & s' & _ & Hr & ->).
  apply (route_changed sha256 capacity ncpus p _ _ _ _ Htarget) in Hr.
  destruct (Hr (proj1 (reach_sys _ _ Hreach))) as (svc & Hs & [[En ->]|[En [trigger Hc]]]);
    exists svc; (split; [exact Hs|]); rewrite En; [done|].
  apply config_change_ledger in Hc as (svc0 & svc' & jid & Hs0 & Hs' & Hrow & Hnone & [now Haj] & Hoth).
  cbn [db new_session] in *. rewrite Hs in Hs0. injection Hs0 as <-. injection Hrow as Ev Est Eav.
  destruct (callbacks_tables (post_commit_callbacks s') (w <| w_db := db s' |>)) as [Hod _].
  destruct (only_dispatched_job _ _ jid Hod (new_job jid (TargetService sid) (svc_version svc') trigger now))
    as (job & Hjob & Hund); [simpl; by rewrite Haj, lookup_insert_eq|].
  assert (∀ f : AgentJob → Prop, f (undispatched (new_job jid (TargetService sid) (svc_version svc')
    trigger now)) → f (undispatched job)) as Hf by (intros f; by rewrite Hund).
  pose proof (only_dispatched_dom _ _ Hod) as Hdom.
  exists svc', jid, job. destruct Hod as (aj & E & _). split_and!; try done.
  - by rewrite E.
  - by apply (Hf (fun j => job_target j = TargetService sid)).
  - by apply (Hf (fun j => job_version j = svc_version svc')).
  - by apply (Hf (fun j => job_status j = JobStatus.queued)).
  - rewrite Hdom. simpl. rewrite Haj. apply dom_insert_L.
  - rewrite E. exact Hoth.
Qed.

(** A request that is refused or fails leaves no trace: no table, no dispatch
    and no audit event remains of it, and only the identifier and sequence
    supplies may have advanced. *)
Theorem refused_request_leaves_no_trace session r w e w'
    (Hserve : serve sha256 capacity ncpus session r w = (inl e, w')) :
  w_queue w' = w_queue w ∧ w_applied w' = w_applied w ∧ w_denied w' = w_denied w ∧
  audit_events (w_db w') = audit_events (w_db w) ∧
  ∃ n u, w_db w' = w_db w <| uuid_supply := u |> <| service_dp_id_seq := n |> ∧
    (uuid_supply (w_db w) <= u)%positive ∧ service_dp_id_seq (w_db w) <= n.
Proof.
  apply serve_inl in Hserve as [d ->]. split_and!; try done.
  eexists _, _. split_and!; [reflexivity|simpl; lia..].
Qed.

(** What [delete_service] does for a caller who may manage the service. *)
Lemma delete_service_run sid actor svc s :
  protected_service (db s) !! sid = Some svc → svc_id svc = sid →
  _authorize_actor_for_tenant actor (svc_tenant_id svc) = inr tt →
  let event outcome metadata := mkAuditEvent (user_id <$> actor)
    match actor with Some u => user_username u | None => "system"%string end "service.delete"
    (Some "protected_service"%string) (Some (uuid_str sid)) outcome None (scrub_metadata (Some metadata))
    (clock (db s)) in
  let recorded outcome metadata :=
    db s <| audit_events := audit_events (db s) ++ [event outcome metadata] |> in
  delete_service sid actor None s =
  if svc_enabled svc then
    (inl (HTTPException 409 "Disable service first"),
     s <| db := recorded "denied" [("reason", JStr "disable first"); ("dangerous", JBool true)] |>)
  else
    (inr tt, s <| db := cascade_service sid (recorded "success"
       [("dangerous", JBool true); ("tenant_id", JStr (uuid_str (svc_tenant_id svc)))]) |>)%string.
Proof.
  intros Hs Hid Ha. cbv zeta. unfold delete_service, _require_service, get_db, record_event, mod_db.
  mstep. unfold _load_service. rewrite Hs. mstep. rewrite Ha. mstep. rewrite Hid.
  by destruct (svc_enabled svc); mstep.
Qed.

(** The event that [delete_service] records. *)
Definition deletion_event (sid : uuid) (outcome : string) (e : AuditEvent) : Prop :=
  audit_action e = "service.delete"%string ∧ audit_target_type e = Some "protected_service"%string ∧
  audit_target_id e = Some (uuid_str sid) ∧ audit_outcome e = outcome.

(** C10: of the two outcomes of a deletion, both of which are meant to be audited,
    only the performed one is.  A caller who may manage the service and asks to
    delete it while it is enabled gets the 409; the session has by then recorded
    one more event, with outcome denied, but the request stores none: the audit
    trail and the service are as before.  When the service is disabled the
    deletion is performed: the service is gone and exactly the event with
    outcome success is stored. *)
Theorem denied_deletion_not_audited session sid w ph p s0 svc
    (Hreach : reach (w, ph))
    (Hcaller : resolve_current_user session (new_session (w_db w)) = (inr p, s0))
    (Hload : load_service_for_principal sid p (new_session (w_db w)) = (inr svc, s0))
    (Hactor : _authorize_actor_for_tenant (users (w_db w) !! p_user_id p) (svc_tenant_id svc) = inr tt) :
  let refusal := HTTPException 409 "Disable service first" in
  let trail := audit_events (w_db w) in
  if svc_enabled svc then
    (∃ s e, ServicesRouter.delete_service sid p (new_session (w_db w)) = (inl refusal, s) ∧
       audit_events (db s) = trail ++ [e] ∧ deletion_event sid "denied" e) ∧
    ∃ w', serve sha256 capacity ncpus session (DeleteService sid) w = (inl refusal, w') ∧
      audit_events (w_db w') = trail ∧ protected_service (w_db w') = protected_service (w_db w)
  else
    ∃ w' e, serve sha256 capacity ncpus session (DeleteService sid) w = (inr tt, w') ∧
      audit_events (w_db w') = trail ++ [e] ∧ deletion_event sid "success" e ∧
      protected_service (w_db w') = delete sid (protected_service (w_db w)).
Proof.
  destruct (load_service_inr _ _ _ _ _ Hload) as (-> & Hs & _). cbn [db new_session] in Hs.
  assert (svc_id svc = sid) as Hid
    by exact (li_svc_id _ _ (proj1 (proj1 (proj1 (reach_sys _ _ Hreach)))) _ _ Hs).
  assert (ServicesRouter.delete_service sid p (new_session (w_db w)) =
    delete_service sid (users (w_db w) !! p_user_id p) None (new_session (w_db w))) as Hroute.
  { unfold ServicesRouter.delete_service. rewrite bind_run, Hload. unfold _load_actor, get_db.
    by rewrite run_gets, Hid. }
  assert (serve sha256 capacity ncpus session (DeleteService sid) w =
    session_scope (delete_service sid (users (w_db w) !! p_user_id p) None) w) as Hserve.
  { unfold serve, session_scope. rewrite bind_run, Hcaller. cbn [route]. rewrite Hroute.
    by destruct (delete_service _ _ _ _) as [[?|[]] ?]. }
  cbv zeta. rewrite Hserve, Hroute. unfold session_scope.
  rewrite (delete_service_run sid _ svc (new_session (w_db w)) Hs Hid Hactor).
  destruct (svc_enabled svc).
  - split; [do 2 eexists|eexists]; (split; [reflexivity|]); done.
  - do 2 eexists. split; [reflexivity|]. by split_and!.
Qed.
End gateway.

(** ** The theorems on the concrete run *)

Abbreviation demo_reach := (reachable demo_sha demo_capacity 4 demo_helper demo_fetch).

Lemma active_service_enforced_witness :
  ∃ bytes older services, w_applied world3 = bytes :: older ∧
    parse_snapshot bytes = Some (SERVICE_FULL services) ∧
    decode_service (_service_config (w_db world3) service3) ∈ services.
Proof.
  apply (active_service_enforced demo_sha demo_capacity 4 demo_helper demo_fetch
    demo_helper_parses world3 Idle 3 service3 world3_reachable); vm_compute; reflexivity.
Defined.

Lemma job_ledger_consistent_witness :
  (∃ jid job, agent_job (w_db world3) !! jid = Some job ∧
     is_service_job 3 (svc_version service3) job = true ∧
     (∀ jid' job', agent_job (w_db world3) !! jid' = Some job' →
        is_service_job 3 (svc_version service3) job' = true → jid' = jid) ∧
     job_status job = JobStatus.succeeded) ∧
  4 <= svc_version service3 ∧
  (4 = svc_version service3 ↔ svc_apply_status service3 = ApplyStatus.active).
Proof.
  apply (job_ledger_consistent demo_sha demo_capacity 4 demo_helper demo_fetch
    world3 Idle 3 service3 world3_reachable). vm_compute. reflexivity.
Defined.

Lemma protected_address_isolated_witness :
  in_net 167772165 (svc_cidr_or_ip service3) ∧
  ∃ k a, allocated_cidr (w_db world3) !! k = Some a ∧ is_active_alloc a = true ∧
    alloc_tenant_id a = svc_tenant_id service3 ∧ in_net 167772165 (alloc_cidr a).
Proof.
  assert (in_net 167772165 (svc_cidr_or_ip service3)) as Hip 
    by (unfold in_net; by_compute).
  split; [exact Hip|].
  destruct (protected_address_isolated demo_sha demo_capacity 4 demo_helper demo_fetch
    world3 Idle 3 service3 167772165 world3_reachable eq_refl Hip) as [_ (k & a & H1 & H2 & H3 & H4 & _)].
  exists k, a. split_and!; assumption.
Defined.

Lemma configuration_well_formed_witness :
  (length (rules_of (w_db world3) 3) <= 16)%nat ∧
  NoDup (rule_priority <$> rules_of (w_db world3) 3).
Proof.
  destruct (configuration_well_formed demo_sha demo_capacity 4 demo_helper demo_fetch
    world3 Idle 3 service3 world3_reachable eq_refl) as (_ & H1 & H2 & _).
  split; assumption.
Defined.

Definition world4 : World := Eval vm_compute in
  (reconcile_once demo_sha demo_helper demo_fetch (DoubleBufferApplier demo_helper)
     (fun _ => false) true false world3).2.

Lemma worker_refines_steps_witness : demo_reach (world4, Idle).
Proof.
  apply (worker_refines_steps demo_sha demo_capacity 4 demo_helper demo_fetch (fun _ => false)
    true false 9 world2 (inr tt) world3 (inr 3) world4 world2_reachable); vm_compute; reflexivity.
Defined.

Definition world5 : World := Eval vm_compute in
  (demo_serve alice_session (DisableService 3 true) world3).2.

Lemma tenant_requests_confined_witness :
  foreign_same tenant_a (w_db world3) (w_db world5) ∧
  session_scope (p ← resolve_current_user alice_session; remove_blocked_udp_port 53 p) world3 =
    (inl forbidden, world3).
Proof.
  destruct (tenant_requests_confined demo_sha demo_capacity 4 demo_helper demo_fetch
    alice_session (DisableService 3 true) world3 Idle (inr tt) world5 alice
    (new_session (w_db world3)) tenant_a world3_reachable) as (H & Hports & _);
    [vm_compute; reflexivity..|].
  split; [exact H|]. apply (Hports (mkBlockedPortCreateRequest 53 None) 53).
Defined.

Lemma world5_reachable : demo_reach (world5, Idle).
Proof.
  destruct world3_reachable as (x0 & Hi & Hs). exists x0. split; [done|]. etrans; [exact Hs|].
  apply rtc_once, (step_request _ _ _ _ _ alice_session (DisableService 3 true) _ _ (inr tt)).
  vm_compute. reflexivity.
Qed.
Definition service5 : ProtectedService :=
  Eval vm_compute in default service3 (protected_service (w_db world5) !! 3%positive).



Lemma configuration_request_requeues_witness :
  ∃ svc' jid job, protected_service (w_db world5) !! 3%positive = Some svc' ∧
    svc_version svc' = 5 ∧ agent_job (w_db world5) !! jid = Some job ∧
    job_version job = svc_version svc' ∧ job_status job = JobStatus.queued.
Proof.
  destruct (configuration_request_requeues demo_sha demo_capacity 4 demo_helper demo_fetch
    alice_session (DisableService 3 true) world3 Idle tt world5 3 world3_reachable eq_refl
    ltac:(vm_compute; reflexivity)) as (svc & Hs & H).
  assert (svc = service3) as -> by (vm_compute in Hs; injection Hs as <-; reflexivity).
  destruct H as (svc' & jid & job & H1 & H2 & H3 & H4 & H5 & H6 & H7 & H8 & H9 & _).
  exists svc', jid, job. split_and!; assumption.
Defined.

(** Deleting the enabled service is refused and the event is gone; disabled, it is
    deleted and the event is there. *)
Lemma denied_deletion_not_audited_witness :
  (∃ w', demo_serve alice_session (DeleteService 3) world3 =
           (inl (HTTPException 409 "Disable service first"), w') ∧
     audit_events (w_db w') = audit_events (w_db world3)) ∧
  ∃ w' e, demo_serve alice_session (DeleteService 3) world5 = (inr tt, w') ∧
     audit_events (w_db w') = audit_events (w_db world5) ++ [e].
Proof.
  split.
  - destruct (denied_deletion_not_audited demo_sha demo_capacity 4 demo_helper demo_fetch
      alice_session 3 world3 Idle alice (new_session (w_db world3)) service3 world3_reachable
      ltac:(vm_compute; reflexivity) ltac:(vm_compute; reflexivity) ltac:(vm_compute; reflexivity))
      as [_ (w' & H1 & H2 & _)]. exists w'. split; [exact H1|exact H2].
  - destruct (denied_deletion_not_audited demo_sha demo_capacity 4 demo_helper demo_fetch
      alice_session 3 world5 Idle alice (new_session (w_db world5)) service5 world5_reachable
      ltac:(vm_compute; reflexivity) ltac:(vm_compute; reflexivity) ltac:(vm_compute; reflexivity))
      as (w' & e & H1 & H2 & _). exists w', e. split; [exact H1|exact H2].
Defined.
