(* ===== verification/WorkerSpec.v ===== *)
(** * What the worker does with one job

    Forward runs of the marks under the invariant, and the outcomes of
    [process_job], of the final mark's retries and of startup recovery. *)

From S2P Require Import Prelude PyStr Ipaddress RuleMatch Models Db.
From S2P Require Import Apply ApplyInv Allocations Services Isolation Rules.
From S2P Require Import ServicesInv FeedParser FeedReconcile FeedInv Lists ListsInv.
From S2P Require Import NodeControl FeedJobs Evolution WorkerInv.
From S2P Require Import Applier ApplierInv FeedRunner Processor WorldInv.
From S2P Require Import Api System Requests Demo.
Open Scope Z_scope.

(** ** Forward runs *)

Section marks.
Context (d : Db) (jid sid : uuid) (job : AgentJob) (svc : ProtectedService).
Hypothesis (Hjid : job_id job = jid) (Hsid : svc_id svc = sid).
Hypothesis (Hj : agent_job d !! jid = Some job) (Ht : job_target job = TargetService sid).
Hypothesis (Hs : protected_service d !! sid = Some svc).
Hypothesis (Hlive : is_terminal (job_status job) = false).

Definition marked_db (job' : AgentJob) (svc' : ProtectedService) : Db :=
  d <| protected_service := <[sid := svc']> (protected_service d) |>
    <| agent_job := <[jid := job']> (agent_job d) |>.

Ltac mark_run :=
  unfold _load_job_for_update, get_db; mstep; cbn [db new_session]; rewrite Hj; mstep;
  rewrite Hlive; unfold load_target_service, _load_service_for_update, get_db; rewrite Ht; mstep;
  cbn [db new_session]; rewrite Hs; mstep; unfold _superseded.

Lemma guarded_run k :
  guarded_mark jid k (new_session d) =
  if svc_version svc =? job_version job then k job svc (new_session d)
  else _mark_superseded job (new_session d).
Proof. unfold guarded_mark. mark_run. by destruct (_ =? _). Qed.

Lemma mark_applying_run :
  job_version job = svc_version svc → svc_apply_status svc = ApplyStatus.queued →
  mark_applying jid (new_session d) =
  (inr tt, new_session (marked_db
     (job <| job_status := JobStatus.applying |> <| job_started_at := Some (clock d) |>
          <| job_attempts := job_attempts job + 1 |>)
     (svc <| svc_apply_status := ApplyStatus.applying |> <| svc_updated_at := clock d |>))).
Proof.
  intros Hv Hst. etrans; [exact (guarded_run _)|]. rewrite (proj2 (Z.eqb_eq _ _)) by done.
  rewrite Hst. unfold marked_db. by rewrite <- Hjid, <- Hsid.
Qed.

Lemma mark_active_run :
  job_version job = svc_version svc → svc_apply_status svc = ApplyStatus.applying →
  default (-1) (svc_active_version svc) < job_version job →
  mark_active jid (new_session d) =
  (inr tt, new_session (marked_db
     (job <| job_status := JobStatus.succeeded |> <| job_finished_at := Some (clock d) |>)
     (svc <| svc_apply_status := ApplyStatus.active |>
          <| svc_active_version := Some (job_version job) |> <| svc_updated_at := clock d |>))).
Proof.
  intros Hv Hst Hav. etrans; [exact (guarded_run _)|]. rewrite (proj2 (Z.eqb_eq _ _)) by done.
  rewrite Hst. unfold assert_active_version_advances, default in *.
  rewrite (proj2 (Z.leb_gt _ _)) by (destruct (svc_active_version svc); done).
  unfold marked_db. by rewrite <- Hjid, <- Hsid.
Qed.

Lemma mark_failed_run error :
  job_version job = svc_version svc → svc_apply_status svc = ApplyStatus.applying →
  mark_failed jid error (new_session d) =
  (inr tt, new_session (marked_db
     (job <| job_status := JobStatus.failed |>
          <| job_error := Some (String.substring 0 APPLY_ERROR_LIMIT error) |>
          <| job_finished_at := Some (clock d) |>)
     (svc <| svc_apply_status := ApplyStatus.failed |> <| svc_updated_at := clock d |>))).
Proof.
  intros Hv Hst. etrans; [exact (guarded_run _)|]. rewrite (proj2 (Z.eqb_eq _ _)) by done.
  rewrite Hst. unfold marked_db. by rewrite <- Hjid, <- Hsid.
Qed.

(** A job of another version is closed without a look at its service. *)
Definition superseded_db : Db :=
  d <| agent_job := <[jid := job <| job_status := JobStatus.superseded |>
                              <| job_finished_at := Some (clock d) |>]> (agent_job d) |>.

Lemma stale_run k :
  job_version job ≠ svc_version svc →
  guarded_mark jid k (new_session d) = (inr tt, new_session superseded_db).
Proof.
  intros Hv. rewrite guarded_run, (proj2 (Z.eqb_neq _ _)) by congruence.
  unfold _mark_superseded, utc_now, get_db, put_job, mod_db. mstep. unfold superseded_db.
  by rewrite <- Hjid.
Qed.
End marks.

(** ** Claims *)

(** Reading the switches creates their row. *)
Definition with_switches (d : Db) : Db := d <| node_control := Some (node_control_of d) |>.

Lemma maintenance_run d :
  maintenance_active (new_session d) =
  (inr (nc_maintenance_enabled (node_control_of d)), new_session (with_switches d)).
Proof. unfold maintenance_active, mbind, M_bind. by rewrite get_node_control_run. Qed.

Section claim.
Context (w : World) (jid sid : uuid) (job : AgentJob).
Hypothesis (Hj : agent_job (w_db w) !! jid = Some job) (Hjid : job_id job = jid).
Hypothesis (Ht : job_target job = TargetService sid).

Lemma service_type : job_type job = JobType.service_update.
Proof. unfold job_type. by rewrite Ht. Qed.

(** A service job is held back during maintenance. *)
Lemma claim_held :
  nc_maintenance_enabled (node_control_of (w_db w)) = true →
  claim_job jid w = (inr None, w <| w_db := with_switches (w_db w) |>).
Proof.
  intros Hm. apply scope_commit. unfold get_db. mstep. cbn [db new_session]. rewrite Hj.
  rewrite service_type. rewrite bool_decide_true by done.
  rewrite bind_run, maintenance_run, Hm. done.
Qed.

(** Otherwise the claim is what [mark_applying] and a look at the row say. *)
Lemma claim_run d' :
  nc_maintenance_enabled (node_control_of (w_db w)) = false →
  mark_applying jid (new_session (with_switches (w_db w))) = (inr tt, new_session d') →
  claim_job jid w =
  (inr (match agent_job d' !! jid with
        | Some j => if has_status JobStatus.applying j then Some j else None
        | None => None
        end), w <| w_db := d' |>).
Proof.
  intros Hm Hmark. apply scope_commit. unfold get_db. mstep. cbn [db new_session]. rewrite Hj.
  rewrite service_type. rewrite bool_decide_true by done.
  rewrite bind_run, maintenance_run, Hm. cbv iota beta.
  cbn [lc_claim JOB_LIFECYCLES]. unfold ServiceJobLifecycle.claim, _locked_job, get_db. mstep.
  rewrite Hjid, bind_run, Hmark. cbv iota beta. mstep. cbn [db new_session].
  destruct (agent_job d' !! jid) as [j|]; [|done]. by destruct (has_status _ j).
Qed.
End claim.

Section worker.
Context (sha256 : pystr → string) (capacity : Decimal) (ncpus : Z).
Context (xdpgw_apply : World → list Z → HelperOutcome).
Context (fetch_source : World → ThreatFeedSource → exn + list Z).

Definition up (_ : nat) : bool := false.
Definition process := process_job sha256 xdpgw_apply fetch_source (DoubleBufferApplier xdpgw_apply).
Definition reached := reachable sha256 capacity ncpus xdpgw_apply fetch_source.

Lemma reached_gw w ph : reached (w, ph) → gw_ok (w_db w).
Proof.
  intros H. destruct (reachable_inv sha256 capacity ncpus xdpgw_apply fetch_source (fun _ => True)
    (fun _ _ _ _ _ => I) _ H) as [[Hgw _] _ _ _ _]. exact Hgw.
Qed.

(** The rows of a job and its service in a reachable state. *)
Record job_rows (d : Db) (jid sid : uuid) (job : AgentJob) (svc : ProtectedService) : Prop := {
  jr_job : agent_job d !! jid = Some job;
  jr_target : job_target job = TargetService sid;
  jr_service : protected_service d !! sid = Some svc
}.

Lemma job_rows_ids d jid sid job svc :
  gw_ok d → job_rows d jid sid job svc → job_id job = jid ∧ svc_id svc = sid.
Proof.
  intros [[Hl _] _] [Hj Ht Hs]. split; [exact (li_job_id _ _ Hl _ _ Hj)|exact (li_svc_id _ _ Hl _ _ Hs)].
Qed.

(** The only job of the current version decides the service's status. *)
Lemma current_job_coupled d jid sid job svc :
  gw_ok d → job_rows d jid sid job svc → job_version job = svc_version svc →
  coupled (svc_apply_status svc) (job_status job) = true ∧ active_ok svc.
Proof.
  intros [[Hl Hset] _] [Hj Ht Hs] Hv. destruct (Hset _ _ Hs) as [Ha (k & j & [Hk Htk] & Hvk & Hc)].
  split; [|done]. assert (k = jid) as ->; [|congruence].
  eapply (li_unique _ _ Hl); [by split|by split|congruence].
Qed.

Lemma mark_once_success w d jid job d' :
  w_db w = d → agent_job d !! jid = Some job → job_id job = jid → job_type job = JobType.service_update →
  mark_active jid (new_session d) = (inr tt, new_session d') →
  _mark_terminal up jid None w = (inr tt, w <| w_db := d' |>).
Proof.
  intros <- Hj Hid Ht Hm. unfold _mark_terminal, TERMINAL_MARK_ATTEMPTS. cbn [mark_attempts].
  unfold try_except, up, mark_once. rewrite (scope_commit _ w tt d'); [done|].
  unfold get_db. mstep. cbn [db new_session]. rewrite Hj, Ht.
  cbn [lc_succeed lc_fail JOB_LIFECYCLES].
  unfold ServiceJobLifecycle.succeed, ServiceJobLifecycle.fail. by rewrite Hid.
Qed.

Lemma mark_once_failure w d jid job error d' :
  w_db w = d → agent_job d !! jid = Some job → job_id job = jid → job_type job = JobType.service_update →
  mark_failed jid error (new_session d) = (inr tt, new_session d') →
  _mark_terminal up jid (Some error) w = (inr tt, w <| w_db := d' |>).
Proof.
  intros <- Hj Hid Ht Hm. unfold _mark_terminal, TERMINAL_MARK_ATTEMPTS. cbn [mark_attempts].
  unfold try_except, up, mark_once. rewrite (scope_commit _ w tt d'); [done|].
  unfold get_db. mstep. cbn [db new_session]. rewrite Hj, Ht.
  cbn [lc_succeed lc_fail JOB_LIFECYCLES].
  unfold ServiceJobLifecycle.succeed, ServiceJobLifecycle.fail. by rewrite Hid.
Qed.

(** ** The handler's outcomes *)

Definition data_errors {A} (m : M (list Z) A) : Prop :=
  ∀ p e p', m p = (inl e, p') → is_sqlalchemy_error e = false.

Lemma data_errors_bind {A B} (m : M (list Z) A) (k : A → M (list Z) B) :
  data_errors m → (∀ a, data_errors (k a)) → data_errors (m ≫= k).
Proof.
  intros Hm Hk p e p' H. rewrite bind_run in H. destruct (m p) as [[e'|a] p1] eqn:E.
  - injection H as <- <-. by eapply Hm.
  - by eapply Hk.
Qed.

Lemma data_errors_loop {A} (f : A → M (list Z) unit) xs :
  (∀ x, data_errors (f x)) → data_errors (for_each f xs).
Proof. intros Hf. induction xs; simpl; [by intros p e p' H|by apply data_errors_bind]. Qed.

Lemma data_errors_extend fs : data_errors (extend fs).
Proof.
  intros p e p' H. unfold extend in H. destruct (struct_pack fs) as [e'|bs] eqn:E; [|done].
  injection H as <- <-. revert e' E. induction fs as [|f fs IH]; intros e' E; simpl in E; [done|].
  destruct (pack_field f) as [e0|b] eqn:Ef.
  - injection E as <-. destruct f; simpl in Ef; [destruct (_ && _); [done|]|done]. by injection Ef as <-.
  - destruct (struct_pack fs) as [e1|]; [|done]. injection E as <-. by apply IH.
Qed.

Lemma cidr_parts_error s e : _cidr_parts s = inl e → is_sqlalchemy_error e = false.
Proof. unfold _cidr_parts. destruct (ip_network s false) as [[]|]; intros [= <-]; done. Qed.

Lemma map_parts_error l e : map_parts _cidr_parts l = inl e → is_sqlalchemy_error e = false.
Proof.
  induction l as [|x l IH]; simpl; [done|]. destruct (_cidr_parts x) eqn:Ex.
  - intros [= <-]. by eapply cidr_parts_error.
  - destruct (map_parts _cidr_parts l); [|done]. intros [= <-]. by apply IH.
Qed.

Lemma serialize_error node e :
  serialize_node_snapshot node = inl e → is_sqlalchemy_error e = false.
Proof.
  unfold serialize_node_snapshot. intros H.
  match type of H with context [match ?m [] with _ => _ end] =>
    assert (data_errors m) as Hd; [|destruct (m []) as [[e'|u] p] eqn:E; [|done]] end.
  - apply data_errors_bind; [apply data_errors_extend|intros _].
    apply data_errors_bind; [apply data_errors_extend|intros _]. apply data_errors_loop. intros c.
    apply data_errors_bind; [|intros dst; apply data_errors_bind].
    + intros p e' p' E. unfold lift in E. injection E as E <-. by eapply cidr_parts_error.
    + intros p e' p' E. unfold lift in E. injection E as E <-. by eapply map_parts_error.
    + intros wl. apply data_errors_bind; [apply data_errors_extend|intros _].
      apply data_errors_bind; [apply data_errors_loop; intros r; apply data_errors_extend|intros _].
      apply data_errors_bind; [apply data_errors_extend|intros _].
      apply data_errors_loop. intros e0. apply data_errors_extend.
  - injection H as <-. by eapply Hd.
Qed.

Lemma handler_outcome w jid sid job :
  agent_job (w_db w) !! jid = Some job → job_target job = TargetService sid →
  (∃ payload, serialize_node_snapshot (load_node_config (w_db w)) = inr payload ∧
     run_handler sha256 xdpgw_apply fetch_source (DoubleBufferApplier xdpgw_apply) jid w =
       (inr true, w <| w_applied := payload :: w_applied w |>)) ∨
  (∃ e, is_sqlalchemy_error e = false ∧
     run_handler sha256 xdpgw_apply fetch_source (DoubleBufferApplier xdpgw_apply) jid w = (inl e, w)).
Proof.
  intros Hj Ht. rewrite run_handler_found, Hj, (service_type sid job Ht), bind_run.
  pose proof (handle_service_split xdpgw_apply jid job sid w Hj Ht) as Hsplit.
  unfold prepare in Hsplit. rewrite Hj, Ht in Hsplit.
  destruct (load_service_config (w_db w) sid) as [cfg|] eqn:Hcfg.
  - destruct (serialize_node_snapshot _) as [e|payload] eqn:Es.
    + right. exists e. split; [by eapply serialize_error|].
      destruct Hsplit as [e' Hs]. rewrite Hs. f_equal. f_equal.
      unfold handle_service_update in Hs. rewrite Ht in Hs. unfold mbind at 1, M_bind at 1 in Hs.
      rewrite (scope_read _ w (inr (Some cfg))) in Hs by (unfold get_db, gets; simpl; by rewrite Hcfg).
      unfold mbind, M_bind in Hs. simpl in Hs. unfold double_buffer_apply in Hs.
      rewrite run_gets, Es in Hs. by injection Hs as <-.
    + rewrite Hsplit. destruct (run_helper xdpgw_apply payload w) as [r w'] eqn:Er.
      destruct (run_helper_cases xdpgw_apply (fun _ => True) (fun _ _ _ _ _ => I) payload w
        (match r with inl e => inl e | inr _ => inr true end) w')
        as [(E1 & _ & E2)|(e & E1 & E2)].
      { rewrite bind_run, Er. by destruct r. }
      * left. exists payload. destruct r; [done|]. by subst w'.
      * right. exists (ApplyError e). destruct r as [e'|]; [|done]. injection E1 as ->. by subst w'.
  - right. destruct Hsplit as [e Hs]. rewrite Hs. exists e. split; [|done].
    unfold handle_service_update in Hs. rewrite Ht in Hs. unfold mbind at 1, M_bind at 1 in Hs.
    rewrite (scope_read _ w (inr None)) in Hs by (unfold get_db, gets; simpl; by rewrite Hcfg).
    by injection Hs as <-.
Qed.

(** [process_job] put together from its parts. *)
Lemma process_run w jid job1 w1 r w2 :
  claim_job jid w = (inr (Some job1), w1) →
  run_handler sha256 xdpgw_apply fetch_source (DoubleBufferApplier xdpgw_apply) jid w1 = (r, w2) →
  match r with inr true => True | inl e => is_sqlalchemy_error e = false | inr false => False end →
  process up jid w =
  _mark_terminal up jid (match r with inl e => Some (exn_text e) | inr _ => None end) w2.
Proof.
  intros Hc Hh Hr. unfold process, process_job. rewrite bind_run, Hc. cbv iota beta.
  rewrite bind_run. unfold try_except. rewrite bind_run, Hh. destruct r as [e|[]]; [by rewrite Hr|done|done].
Qed.

(** *** The current version's job *)

Definition applying_job (d : Db) (job : AgentJob) : AgentJob :=
  job <| job_status := JobStatus.applying |> <| job_started_at := Some (clock d) |>
      <| job_attempts := job_attempts job + 1 |>.
Definition applying_service (d : Db) (svc : ProtectedService) : ProtectedService :=
  svc <| svc_apply_status := ApplyStatus.applying |> <| svc_updated_at := clock d |>.
Definition claimed_db (d : Db) (jid sid : uuid) (job : AgentJob) (svc : ProtectedService) : Db :=
  marked_db (with_switches d) jid sid (applying_job d job) (applying_service d svc).

Lemma claim_current w jid sid job svc :
  gw_ok (w_db w) → job_rows (w_db w) jid sid job svc → job_status job = JobStatus.queued →
  job_version job = svc_version svc →
  nc_maintenance_enabled (node_control_of (w_db w)) = false →
  claim_job jid w = (inr (Some (applying_job (w_db w) job)),
                     w <| w_db := claimed_db (w_db w) jid sid job svc |>).
Proof.
  intros Hgw Hrows Hq Hv Hm. destruct (job_rows_ids _ _ _ _ _ Hgw Hrows) as [Hjid Hsid].
  destruct (current_job_coupled _ _ _ _ _ Hgw Hrows Hv) as [Hc _]. destruct Hrows as [Hj Ht Hs].
  rewrite Hq in Hc. erewrite (claim_run w jid sid job Hj Hjid Ht _ Hm).
  2: { apply (mark_applying_run (with_switches (w_db w)) jid sid job svc); try done.
       - by rewrite Hq.
       - by destruct (svc_apply_status svc). }
  cbn [agent_job marked_db]. change (agent_job (marked_db ?d ?j ?s ?a ?b)) with (<[j := a]> (agent_job d)).
  by rewrite lookup_insert_eq.
Qed.

(** The applied version is behind while a version is under way. *)
Lemma version_behind d jid sid job svc :
  gw_ok d → job_rows d jid sid job svc → job_status job = JobStatus.queued →
  job_version job = svc_version svc → default (-1) (svc_active_version svc) < svc_version svc.
Proof.
  intros Hgw Hrows Hq Hv. destruct (current_job_coupled _ _ _ _ _ Hgw Hrows Hv) as [Hc Ha].
  pose proof (li_version _ _ (proj1 (proj1 Hgw)) _ _ (jr_service _ _ _ _ _ Hrows)).
  rewrite Hq in Hc. unfold active_ok in Ha.
  destruct (svc_active_version svc) as [v|]; simpl; [|lia].
  destruct Ha as [Hle Hiff]. destruct (decide (v = svc_version svc)) as [E|E]; [|lia].
  apply Hiff in E. by rewrite E in Hc.
Qed.

(** A mark keeps what the data plane is told. *)
Lemma claimed_content d jid sid job svc i :
  protected_service d !! sid = Some svc →
  content (claimed_db d jid sid job svc) i = content d i.
Proof.
  intros Hs. apply content_static; [|done..].
  change (protected_service (claimed_db d jid sid job svc)) with
    (<[sid := applying_service d svc]> (protected_service d)).
  destruct (decide (i = sid)) as [->|Hne]; [by rewrite lookup_insert_eq, Hs|by rewrite lookup_insert_ne].
Qed.

Lemma marked_rows d jid sid job job' svc' :
  job_target job = TargetService sid → job_target job' = job_target job →
  job_rows (marked_db d jid sid job' svc') jid sid job' svc'.
Proof.
  intros Ht Et. split; [apply lookup_insert_eq|congruence|apply lookup_insert_eq].
Qed.

(** The whole of [process_job] on the queued job of the current version. *)
Lemma process_settles w jid sid job svc
    (Hreach : reached (w, Idle))
    (Hrows : job_rows (w_db w) jid sid job svc)
    (Hqueued : job_status job = JobStatus.queued)
    (Hcurrent : job_version job = svc_version svc)
    (Hopen : nc_maintenance_enabled (node_control_of (w_db w)) = false) :
  ∃ w' job' svc', process up jid w = (inr tt, w') ∧ job_rows (w_db w') jid sid job' svc' ∧
    job_attempts job' = job_attempts job + 1 ∧ svc_version svc' = svc_version svc ∧
    ((∃ d payload, (∀ i, content d i = content (w_db w) i) ∧
        serialize_node_snapshot (load_node_config d) = inr payload ∧
        w_applied w' = payload :: w_applied w ∧ job_status job' = JobStatus.succeeded ∧
        svc_apply_status svc' = ApplyStatus.active ∧
        svc_active_version svc' = Some (svc_version svc)) ∨
     (∃ error, w_applied w' = w_applied w ∧ job_status job' = JobStatus.failed ∧
        job_error job' = Some error ∧ svc_apply_status svc' = ApplyStatus.failed ∧
        svc_active_version svc' = svc_active_version svc)).
Proof.
  pose proof (reached_gw _ _ Hreach) as Hgw.
  destruct (job_rows_ids _ _ _ _ _ Hgw Hrows) as [Hjid Hsid].
  pose proof (claim_current _ _ _ _ _ Hgw Hrows Hqueued Hcurrent Hopen) as Hclaim.
  pose proof (version_behind _ _ _ _ _ Hgw Hrows Hqueued Hcurrent) as Hav.
  destruct Hrows as [Hj Ht Hs].
  set (job1 := applying_job (w_db w) job) in *. set (svc1 := applying_service (w_db w) svc).
  set (d2 := claimed_db (w_db w) jid sid job svc) in *. set (w1 := w <| w_db := d2 |>) in *.
  assert (agent_job d2 !! jid = Some job1) as Hj2 by apply lookup_insert_eq.
  assert (protected_service d2 !! sid = Some svc1) as Hs2 by apply lookup_insert_eq.
  destruct (handler_outcome w1 jid sid job1 Hj2 Ht) as [(payload & Hser & Hh)|(e & He & Hh)].
  - pose proof (process_run w jid job1 w1 _ _ Hclaim Hh I) as Hp.
    pose proof (mark_active_run d2 jid sid job1 svc1 Hjid Hsid Hj2 Ht Hs2 eq_refl Hcurrent eq_refl
      ltac:(simpl; by rewrite Hcurrent)) as Hmark.
    assert (w_db (w1 <| w_applied := payload :: w_applied w1 |>) = d2) as Ew by reflexivity.
    pose proof (eq_trans Hp (mark_once_success _ d2 jid job1 _ Ew Hj2 Hjid
      (service_type sid job1 Ht) Hmark)) as Hrun.
    eexists _, _, _. split; [exact Hrun|]. split; [by apply marked_rows with (job := job1)|].
    split_and!; [done..|]. left. exists d2, payload. split_and!; try done.
    + intros i. by apply claimed_content.
    + simpl. by rewrite Hcurrent.
  - pose proof (process_run w jid job1 w1 _ _ Hclaim Hh He) as Hp.
    pose proof (mark_failed_run d2 jid sid job1 svc1 Hjid Hsid Hj2 Ht Hs2 eq_refl (exn_text e)
      Hcurrent eq_refl) as Hmark.
    assert (w_db w1 = d2) as Ew by reflexivity.
    pose proof (eq_trans Hp (mark_once_failure w1 d2 jid job1 _ _ Ew Hj2 Hjid
      (service_type sid job1 Ht) Hmark)) as Hrun.
    eexists _, _, _. split; [exact Hrun|]. split; [by apply marked_rows with (job := job1)|].
    split_and!; [done..|]. right. by eexists.
Qed.

(** C25: one pass of the worker settles the current version.  For the queued job
    of a service's current version, outside maintenance and with the database
    reachable, [process_job] returns, and either the helper acknowledged the
    snapshot of the whole node, the job succeeded and the service is active at
    that version, or nothing was acknowledged, the job failed with a recorded
    error and the service is failed with its applied version unchanged. *)
Theorem process_settles_current_job w jid sid job svc
    (Hreach : reached (w, Idle))
    (Hrows : job_rows (w_db w) jid sid job svc)
    (Hqueued : job_status job = JobStatus.queued)
    (Hcurrent : job_version job = svc_version svc)
    (Hopen : nc_maintenance_enabled (node_control_of (w_db w)) = false) :
  ∃ w' job' svc', process up jid w = (inr tt, w') ∧ job_rows (w_db w') jid sid job' svc' ∧
    job_attempts job' = job_attempts job + 1 ∧ svc_version svc' = svc_version svc ∧
    ((∃ d payload, (∀ i, content d i = content (w_db w) i) ∧
        serialize_node_snapshot (load_node_config d) = inr payload ∧
        w_applied w' = payload :: w_applied w ∧ job_status job' = JobStatus.succeeded ∧
        svc_apply_status svc' = ApplyStatus.active ∧
        svc_active_version svc' = Some (svc_version svc)) ∨
     (∃ error, w_applied w' = w_applied w ∧ job_status job' = JobStatus.failed ∧
        job_error job' = Some error ∧ svc_apply_status svc' = ApplyStatus.failed ∧
        svc_active_version svc' = svc_active_version svc)).
Proof. by eapply process_settles. Qed.

(** During maintenance a service job is left alone: [process_job] returns
    and changes nothing but the row of the node switches, which the check
    itself creates when it is missing. *)
Theorem maintenance_holds_service_jobs w jid sid job svc
    (Hrows : job_rows (w_db w) jid sid job svc)
    (Hheld : nc_maintenance_enabled (node_control_of (w_db w)) = true) :
  process up jid w = (inr tt, w <| w_db := with_switches (w_db w) |>).
Proof.
  destruct Hrows as [Hj Ht Hs]. unfold process, process_job.
  by rewrite bind_run, (claim_held w jid sid job Hj Ht Hheld).
Qed.

(** A job of an old version never touches its service.  Whatever the
    service's state, [process_job] closes a queued job whose version is no
    longer the configured one as superseded, without running the helper. *)
Theorem stale_job_superseded w ph jid sid job svc
    (Hreach : reached (w, ph)) (Hrows : job_rows (w_db w) jid sid job svc)
    (Hqueued : job_status job = JobStatus.queued)
    (Hstale : job_version job ≠ svc_version svc)
    (Hopen : nc_maintenance_enabled (node_control_of (w_db w)) = false) :
  process up jid w =
  (inr tt, w <| w_db := with_switches (w_db w)
     <| agent_job := <[jid := job <| job_status := JobStatus.superseded |>
                                   <| job_finished_at := Some (clock (w_db w)) |>]>
                       (agent_job (w_db w)) |> |>).
Proof.
  pose proof (reached_gw _ _ Hreach) as Hgw.
  destruct (job_rows_ids _ _ _ _ _ Hgw Hrows) as [Hjid Hsid]. destruct Hrows as [Hj Ht Hs].
  unfold process, process_job. rewrite bind_run.
  erewrite (claim_run w jid sid job Hj Hjid Ht _ Hopen).
  2: { apply (stale_run (with_switches (w_db w)) jid sid job svc Hjid Hj Ht Hs); [by rewrite Hqueued|done]. }
  change (agent_job (superseded_db ?d ?j ?a)) with
    (<[j := a <| job_status := JobStatus.superseded |> <| job_finished_at := Some (clock d) |>]>
       (agent_job d)).
  by rewrite lookup_insert_eq.
Qed.

(** The final mark survives up to two lost connections.  If the first
    attempt at which the database answers is among the three, the outcome is
    that of a single mark; if it never answers, the error is raised and the
    world is unchanged, so the job stays applying for recovery. *)
Theorem terminal_mark_retries down n id error w
    (Hdown : ∀ i, (i < n)%nat → down i = true)
    (Hup : (n < 3)%nat → down n = false)
    (Hmark : ∀ msg w', mark_once id error w ≠ (inl (OperationalError msg), w')) :
  ((n < 3)%nat → _mark_terminal down id error w = mark_once id error w) ∧
  ((3 <= n)%nat →
     _mark_terminal down id error w = (inl (OperationalError "connection lost"), w)).
Proof.
  split; intros Hn.
  - specialize (Hup Hn). unfold _mark_terminal, TERMINAL_MARK_ATTEMPTS.
    destruct n as [|[|[|n]]]; [..|lia]; cbn [mark_attempts Nat.add];
      rewrite ?(Hdown 0%nat), ?(Hdown 1%nat), ?Hup by lia; unfold try_except, raise, TERMINAL_MARK_ATTEMPTS;
      cbn [Nat.eqb]; cbv beta iota;
      (destruct (mark_once id error w) as [[e|u] w2] eqn:E; [|reflexivity]);
      (destruct e; try reflexivity; exfalso; exact (Hmark _ _ eq_refl)).
  - unfold _mark_terminal, TERMINAL_MARK_ATTEMPTS. cbn [mark_attempts Nat.add].
    by rewrite (Hdown 0%nat), (Hdown 1%nat), (Hdown 2%nat) by lia.
Qed.

End worker.

(** ** Witnesses on the concrete run *)

Definition job_at (w : World) (jid : uuid) : AgentJob :=
  default (new_job 1 TargetGlobalDeny 0 ChangeTrigger.service 0) (agent_job (w_db w) !! jid).
Definition service_at (w : World) (sid : uuid) : ProtectedService :=
  default service3 (protected_service (w_db w) !! sid).

Ltac by_rows := split; vm_compute; reflexivity.

Lemma process_settles_current_job_witness :
  ∃ w' job' svc', process demo_sha demo_helper demo_fetch up 9 world2 = (inr tt, w') ∧
    job_rows (w_db w') 9 3 job' svc' ∧ job_attempts job' = 1.
Proof.
  destruct (process_settles_current_job demo_sha demo_capacity 4 demo_helper demo_fetch
    world2 9 3 (job_at world2 9) (service_at world2 3) world2_reachable ltac:(by_rows)
    ltac:(vm_compute; reflexivity) ltac:(vm_compute; reflexivity) ltac:(vm_compute; reflexivity))
    as (w' & job' & svc' & H1 & H2 & H3 & _).
  exists w', job', svc'. split_and!; [exact H1|exact H2|exact (eq_trans H3 ltac:(vm_compute; reflexivity))].
Defined.

(** The administrator turns maintenance on. *)
Definition world2m : World := Eval vm_compute in
  (demo_serve root_session (SetNodeMaintenance true None) world2).2.

Lemma maintenance_holds_service_jobs_witness :
  process demo_sha demo_helper demo_fetch up 9 world2m = (inr tt, world2m <| w_db := with_switches (w_db world2m) |>).
Proof.
  apply (maintenance_holds_service_jobs demo_sha demo_helper demo_fetch world2m 9 3
    (job_at world2m 9) (service_at world2m 3)); [by_rows|vm_compute; reflexivity].
Defined.

Lemma stale_job_superseded_witness :
  job_version (job_at world2 7) = 3 ∧
  ∃ d, process demo_sha demo_helper demo_fetch up 7 world2 = (inr tt, world2 <| w_db := d |>).
Proof.
  split; [vm_compute; reflexivity|]. eexists.
  apply (stale_job_superseded demo_sha demo_capacity 4 demo_helper demo_fetch world2 Idle 7 3
    (job_at world2 7) (service_at world2 3) world2_reachable);
    [by_rows|vm_compute; reflexivity|vm_compute; discriminate|vm_compute; reflexivity].
Defined.

Lemma terminal_mark_retries_witness :
  _mark_terminal (fun i => (i <? 2)%nat) 9 None world3 = mark_once 9 None world3 ∧
  _mark_terminal (fun _ => true) 9 None world3 = (inl (OperationalError "connection lost"), world3).
Proof.
  assert (∀ msg w', mark_once 9 None world3 ≠ (inl (OperationalError msg), w')) as Hm
    by (intros msg w'; vm_compute; discriminate).
  split.
  - apply (terminal_mark_retries (fun i => (i <? 2)%nat) 2 9 None world3); [|done|done|lia].
    intros [|[|i]] Hi; [done|done|lia].
  - apply (terminal_mark_retries (fun _ => true) 3 9 None world3); [done|lia|done|lia].
Defined.



