(* ===== verification/DataPlaneSpec.v ===== *)
(** * What reaches the data plane

    Round trips of the two snapshots through the helper's decoder, and what
    keeps a snapshot from being written. *)

From S2P Require Import Prelude PyStr Ipaddress RuleMatch Models Db.
From S2P Require Import Apply ApplyInv Allocations Services Isolation Rules.
From S2P Require Import ServicesInv FeedParser FeedReconcile FeedInv Lists ListsInv.
From S2P Require Import NodeControl FeedJobs Evolution WorkerInv.
From S2P Require Import Applier ApplierInv FeedRunner Processor WorldInv.
From S2P Require Import Api System Requests Demo WorkerSpec.
Import XdpgwApply.
Open Scope Z_scope.

Section dataplane.
Context (sha256 : pystr → string) (capacity : Decimal) (ncpus : Z).
Context (xdpgw_apply : World → list Z → HelperOutcome).
Context (fetch_source : World → ThreatFeedSource → exn + list Z).

Lemma reached_inv w ph :
  reached sha256 capacity ncpus xdpgw_apply fetch_source (w, ph) → sys_ok sha256 (w_db w).
Proof.
  intros H. by destruct (reachable_inv sha256 capacity ncpus xdpgw_apply fetch_source (fun _ => True)
    (fun _ _ _ _ _ => I) _ H).
Qed.

Lemma load_snapshot_run d st :
  global_deny_state d = Some st →
  gds_desired_digest st = Some (_digest sha256 (_global_cidrs d)) →
  load_global_snapshot sha256 (gds_desired_revision st) (new_session d) =
  (inr (mkGlobalDenySnapshot (gds_desired_revision st) (_digest sha256 (_global_cidrs d))
     (_global_cidrs d)), new_session d).
Proof.
  intros Hst Hdig. unfold load_global_snapshot, _locked_global_state, get_db, mod_db. mstep.
  cbn [db new_session]. rewrite Hst. mstep. rewrite Z.eqb_refl. mstep.
  cbn [db new_session]. by rewrite bool_decide_true.
Qed.

(** What the helper's tables can hold. *)
Definition within_limits (d : Db) : Prop :=
  (∀ i s, protected_service d !! i = Some s → svc_enabled s = true → row_fits d s = true) ∧
  (∀ i, Z.of_nat (length (whitelist_of d i)) <= APPLY_MAX_LIST_ENTRIES) ∧
  Z.of_nat (size (protected_service d)) <= APPLY_MAX_SERVICES.

Lemma limits_bound d : gw_ok d → within_limits d → node_bounds (load_node_config d).
Proof.
  intros Hgw (Hrow & Hwl & Hn). split.
  - intros c (i & s & Hs & He & ->)%elem_of_node_config. split.
    + simpl. rewrite (Permutation_length (order_by_perm _ _)). apply Hgw.
    + simpl. by rewrite (Permutation_length (merge_sort_Permutation _ _)), length_fmap.
  - unfold load_node_config. rewrite length_fmap, (Permutation_length (order_by_perm _ _)).
    rewrite select_where_size. etrans; [|exact Hn]. apply Nat2Z.inj_le.
    apply map_subseteq_size, map_filter_subseteq.
Qed.

(** C11: the service snapshot survives the wire.  In every reachable state whose
    numbers fit the format, the serializer produces a payload, and if it is not
    longer than the helper reads, the helper's decoder accepts it and gets back
    exactly the enabled services, each with its destination, flags, rates,
    rules in priority order and whitelist. *)
Theorem node_snapshot_roundtrip w ph
    (Hreach : reached sha256 capacity ncpus xdpgw_apply fetch_source (w, ph))
    (Hfit : within_limits (w_db w)) :
  ∃ payload, serialize_node_snapshot (load_node_config (w_db w)) = inr payload ∧
    (Z.of_nat (length payload) <= APPLY_MAX_BYTES →
     parse_snapshot payload =
       Some (SERVICE_FULL (decode_service <$> load_node_config (w_db w)))).
Proof.
  destruct (reached_inv _ _ Hreach) as [Hgw _]. destruct Hfit as (Hrow & Hwl & Hn).
  destruct (node_config_fits (w_db w) Hgw Hrow) as [payload Hp].
  { intros i. eapply Z.le_lt_trans; [apply Hwl|done]. }
  { by eapply Z.le_lt_trans. }
  exists payload. split; [done|]. apply node_snapshot_inverts; [done|]. by apply limits_bound.
Qed.

(** C16: The deny snapshot survives the wire.  In every reachable state the
    desired revision can be loaded (its digest always matches the rows), and a
    list within the limits is written and decoded back to the same networks, in
    the strictly increasing order the helper insists on. *)
Theorem deny_snapshot_roundtrip w ph st
    (Hreach : reached sha256 capacity ncpus xdpgw_apply fetch_source (w, ph))
    (Hst : global_deny_state (w_db w) = Some st)
    (Hrev : 0 <= gds_desired_revision st < 2 ^ 64)
    (Hn : Z.of_nat (length (_global_cidrs (w_db w))) <= MAX_GLOBAL_DENY_ENTRIES) :
  ∃ snapshot payload entries,
    load_global_snapshot sha256 (gds_desired_revision st) (new_session (w_db w)) =
      (inr snapshot, new_session (w_db w)) ∧
    serialize_global_snapshot snapshot = inr payload ∧
    parse_snapshot payload =
      Some (GLOBAL_DENY (gds_desired_revision st) (decode_source <$> entries)) ∧
    Permutation entries (net_entry <$> _global_cidrs (w_db w)).
Proof.
  destruct (reached_inv _ _ Hreach) as [_ (Hbl & Hfb & Hdig)].
  set (cs := _global_cidrs (w_db w)) in *.
  destruct (global_snapshot_inverts
    (mkGlobalDenySnapshot (gds_desired_revision st) (_digest sha256 cs) cs))
    as (payload & entries & H1 & H2 & H3); [| |exact Hn|exact Hrev|].
  - apply Forall_forall. intros c (i & e & He & _ & <-)%elem_of_global_cidrs. by eapply bl_wf.
  - by apply global_cidrs_nodup.
  - exists (mkGlobalDenySnapshot (gds_desired_revision st) (_digest sha256 cs) cs), payload, entries.
    split_and!; [|exact H1|exact H2|exact H3].
    apply (load_snapshot_run (w_db w) st Hst). by apply Hdig.
Qed.

(** ** A number that does not fit *)

Definition negative_limit (s : ProtectedService) : bool :=
  (default 0 (svc_vip_pps s) <? 0) || (default 0 (svc_vip_bps s) <? 0).

Lemma negative_limit_unfit d s dst wl :
  negative_limit s = true →
  forallb field_fits (service_fields (_service_config d s) dst wl) = false.
Proof.
  intros H. apply not_true_is_false. intros Hf. rewrite forallb_forall in Hf.
  pose proof (Hf (U 8 (default 0 (svc_vip_pps s))) ltac:(do 8 right; by left)) as H1.
  pose proof (Hf (U 8 (default 0 (svc_vip_bps s))) ltac:(do 9 right; by left)) as H2.
  unfold negative_limit, field_fits in *. lia.
Qed.

Lemma negative_limit_blocks d sid s payload :
  protected_service d !! sid = Some s → svc_enabled s = true → negative_limit s = true →
  serialize_node_snapshot (load_node_config d) ≠ inr payload.
Proof.
  intros Hs He Hneg. apply (serialize_node_blocked _ (_service_config d s)).
  - apply elem_of_node_config. eauto.
  - intros dst wl. by apply negative_limit_unfit.
Qed.

(** One negative limit stops every service.  The schemas accept a negative
    [vip_pps] or [vip_bps]; while an enabled service has one, the queued job of
    the current version of any service, of any tenant, ends failed, and nothing
    is sent to the data plane. *)
Theorem negative_limit_fails_all_services w jid sid job svc bad_id bad
    (Hreach : reached sha256 capacity ncpus xdpgw_apply fetch_source (w, Idle))
    (Hrows : job_rows (w_db w) jid sid job svc)
    (Hqueued : job_status job = JobStatus.queued)
    (Hcurrent : job_version job = svc_version svc)
    (Hopen : nc_maintenance_enabled (node_control_of (w_db w)) = false)
    (Hbad : protected_service (w_db w) !! bad_id = Some bad)
    (Henabled : svc_enabled bad = true) (Hneg : negative_limit bad = true) :
  ∃ w' job' svc',
    process sha256 xdpgw_apply fetch_source up jid w = (inr tt, w') ∧
    job_rows (w_db w') jid sid job' svc' ∧ w_applied w' = w_applied w ∧
    job_status job' = JobStatus.failed ∧ svc_apply_status svc' = ApplyStatus.failed.
Proof.
  destruct (process_settles sha256 capacity ncpus xdpgw_apply fetch_source w jid sid job svc
    Hreach Hrows Hqueued Hcurrent Hopen) as (w' & job' & svc' & Hrun & Hrows' & _ & _ & H).
  destruct H as [(d & payload & Hsame & Hser & _)|(error & Ha & Hj & _ & Hs & _)].
  2: { by exists w', job', svc'. }
  exfalso. specialize (Hsame bad_id). unfold content in Hsame. injection Hsame as E _ _ _.
  rewrite Hbad in E. destruct (protected_service d !! bad_id) as [s|] eqn:Es; [|done].
  unfold row_config in E. cbn in E. injection E. clear E. intros.
  eapply (negative_limit_blocks d bad_id s); [done|congruence| |exact Hser].
  rewrite <- Hneg. unfold negative_limit. congruence.
Qed.
End dataplane.

(** ** Witnesses on the concrete run *)

Lemma world3_within_limits : within_limits (w_db world3).
Proof.
  split_and!.
  - intros i s. refine (map_Forall_lookup_1 (fun _ s => svc_enabled s = true →
      row_fits (w_db world3) s = true) (protected_service (w_db world3)) i s _).
    apply (bool_decide_unpack _). vm_compute. exact I.
  - intros i. unfold whitelist_of. rewrite select_where_size.
    transitivity (Z.of_nat (size (whitelist_entry (w_db world3)))); [|vm_compute; discriminate].
    apply Nat2Z.inj_le, map_subseteq_size, map_filter_subseteq.
  - vm_compute. discriminate.
Qed.

Lemma node_snapshot_roundtrip_witness :
  ∃ payload, serialize_node_snapshot (load_node_config (w_db world3)) = inr payload ∧
    parse_snapshot payload =
      Some (SERVICE_FULL (decode_service <$> load_node_config (w_db world3))).
Proof.
  destruct (node_snapshot_roundtrip demo_sha demo_capacity 4 demo_helper demo_fetch world3 Idle
    world3_reachable world3_within_limits) as (payload & H1 & H2).
  exists payload. split; [exact H1|]. apply H2.
  assert (serialize_node_snapshot (load_node_config (w_db world3)) =
    inr (List.hd [] (w_applied world3))) as E by (vm_compute; reflexivity).
  rewrite E in H1. injection H1 as <-. vm_compute. discriminate.
Defined.

(** The administrator denies two networks. *)
Definition world3d : World := Eval vm_compute in
  (demo_serve root_session (AddGlobalBlacklist (py "10.0.0.0/8"))
    (demo_serve root_session (AddGlobalBlacklist (py "9.0.0.0/8")) world3).2).2.

Lemma world3d_reachable :
  reachable demo_sha demo_capacity 4 demo_helper demo_fetch (world3d, Idle).
Proof.
  destruct world3_reachable as (x0 & Hi & Hs). exists x0. split; [done|]. etrans; [exact Hs|].
  apply (serve_all_steps [(root_session, AddGlobalBlacklist (py "9.0.0.0/8"));
                          (root_session, AddGlobalBlacklist (py "10.0.0.0/8"))]).
  vm_compute. reflexivity.
Qed.

Definition deny_state3d : GlobalDenyState :=
  Eval vm_compute in default initial_deny_state (global_deny_state (w_db world3d)).

Lemma deny_snapshot_roundtrip_witness :
  ∃ payload entries, parse_snapshot payload = Some (GLOBAL_DENY 2 entries) ∧
    Permutation entries (decode_source ∘ net_entry <$> [Net 150994944 8; Net 167772160 8]).
Proof.
  destruct (deny_snapshot_roundtrip demo_sha demo_capacity 4 demo_helper demo_fetch world3d Idle
    deny_state3d world3d_reachable) as (snapshot & payload & entries & _ & _ & H2 & H3).
  - vm_compute. reflexivity.
  - vm_compute. split; [discriminate|reflexivity].
  - vm_compute. discriminate.
  - exists payload, (decode_source <$> entries). split; [exact H2|].
    rewrite H3. vm_compute. reflexivity.
Defined.

(** The tenant user sets a negative rate on the service. *)
Definition negative_patch : ServicePatchRequest :=
  mkServicePatchRequest None None None (Some (-1)) None None None.
Definition world3n : World := Eval vm_compute in
  (demo_serve alice_session (UpdateService 3 negative_patch) world3).2.

Lemma world3n_reachable :
  reachable demo_sha demo_capacity 4 demo_helper demo_fetch (world3n, Idle).
Proof.
  destruct world3_reachable as (x0 & Hi & Hs). exists x0. split; [done|]. etrans; [exact Hs|].
  apply (serve_all_steps [(alice_session, UpdateService 3 negative_patch)]).
  vm_compute. reflexivity.
Qed.

Lemma negative_limit_fails_all_services_witness :
  ∃ w' job' svc', process demo_sha demo_helper demo_fetch up 10 world3n = (inr tt, w') ∧
    job_rows (w_db w') 10 3 job' svc' ∧ job_status job' = JobStatus.failed.
Proof.
  destruct (negative_limit_fails_all_services demo_sha demo_capacity 4 demo_helper demo_fetch
    world3n 10 3 (job_at world3n 10) (service_at world3n 3) 3 (service_at world3n 3)
    world3n_reachable ltac:(by_rows) ltac:(vm_compute; reflexivity) ltac:(vm_compute; reflexivity)
    ltac:(vm_compute; reflexivity) ltac:(vm_compute; reflexivity) ltac:(vm_compute; reflexivity)
    ltac:(vm_compute; reflexivity)) as (w' & job' & svc' & H1 & H2 & _ & H3 & _).
  exists w', job', svc'. split_and!; [exact H1|exact H2|exact H3].
Defined.
