(* ===== verification/FeedSpec.v ===== *)
(** * The global deny list

    What a feed synchronization and the administrator's edits do to the list,
    and what a dry run predicts. *)

From S2P Require Import Prelude PyStr Ipaddress RuleMatch Models Db.
From S2P Require Import Apply ApplyInv Allocations Services Isolation Rules.
From S2P Require Import ServicesInv FeedParser FeedReconcile FeedInv Lists ListsInv.
From S2P Require Import NodeControl FeedJobs Feeds Evolution WorkerInv.
From S2P Require Import Applier ApplierInv FeedRunner Processor WorldInv.
From S2P Require Import Api System Requests DenyInv Demo GatewaySpec WorkerSpec DataPlaneSpec.
Open Scope Z_scope.

(** What the dry run computes without writing: the list the real run leaves. *)
Lemma elem_of_prospective d src cands c :
  bl_ok d → feed_backed d →
  c ∈ _prospective_global_cidrs d src cands ↔ c ∈ cands ∨ denied_otherwise d src c.
Proof.
  intros Hbl Hfb. unfold _prospective_global_cidrs, order_by_text.
  rewrite merge_sort_Permutation, elem_of_remove_dups, elem_of_app, list_elem_of_fmap.
  split.
  - intros [(e & -> & [Hk (Hg & i & Hi)%elem_of_select]%list_elem_of_filter)|]; [|by left].
    destruct (decide (bl_source_cidr e ∈ cands)) as [?|Hn]; [by left|]. right.
    pose proof (bl_key _ Hbl _ _ Hi) as Hid. rewrite (bool_decide_false _ Hn) in Hk.
    exists i, e. split_and!; try done. destruct (is_feed_entry e) eqn:Ef; [right|by left].
    destruct (asserted_by d (fun s => negb (bool_decide (s = src))) (bl_id e)) eqn:Eo.
    + apply asserted_by_iff in Eo as (s & Hs & Ha). rewrite Hid in Ha.
      apply negb_true_iff, bool_decide_eq_false in Hs. by exists s.
    + destruct (asserted_by d (fun s => bool_decide (s = src)) (bl_id e)) eqn:Es; [done|].
      destruct (Hfb i e Hi Hg Ef) as [s Hs]. exfalso.
      assert (∀ p, p s = true → asserted_by d p (bl_id e) = true) as Hany
        by (intros p Hp; apply asserted_by_iff; rewrite Hid; by exists s).
      destruct (decide (s = src)) as [E|E].
      * rewrite Hany in Es; [done|by rewrite bool_decide_true].
      * rewrite Hany in Eo; [done|by rewrite bool_decide_false].
  - intros [?|(i & e & Hi & Hg & <- & Hwhy)]; [by right|]. left. exists e. split; [done|].
    apply list_elem_of_filter. split; [|apply elem_of_select; eauto].
    pose proof (bl_key _ Hbl _ _ Hi) as Hid. apply negb_true_iff.
    destruct Hwhy as [->|(s & Hne & Hs)]; [done|].
    assert (asserted_by d (fun s => negb (bool_decide (s = src))) (bl_id e) = true) as ->.
    { apply asserted_by_iff. rewrite Hid. exists s. by rewrite bool_decide_false. }
    by rewrite andb_false_r.
Qed.

Lemma prospective_nodup d src cands : NoDup (_prospective_global_cidrs d src cands).
Proof.
  unfold _prospective_global_cidrs, order_by_text. rewrite merge_sort_Permutation.
  apply NoDup_remove_dups.
Qed.

(** Putting or dropping one entry, seen through the list. *)
Lemma insert_entry_cidrs d d' e c :
  blacklist_entry d' = <[bl_id e := e]> (blacklist_entry d) → is_global e = true →
  (∀ e0, blacklist_entry d !! bl_id e = Some e0 → bl_source_cidr e0 = bl_source_cidr e) →
  c ∈ _global_cidrs d' ↔ c = bl_source_cidr e ∨ c ∈ _global_cidrs d.
Proof.
  intros Eb Hg Hsame. rewrite !elem_of_global_cidrs. setoid_rewrite Eb. split.
  - intros (i & x & [[<- <-]|[Hne Hi]]%lookup_insert_Some & Hx & <-); [by left|]. right. eauto.
  - intros [->|(i & x & Hi & Hx & <-)]; [exists (bl_id e), e; by rewrite lookup_insert_eq|].
    destruct (decide (i = bl_id e)) as [->|Hne].
    + exists (bl_id e), e. rewrite lookup_insert_eq. split_and!; [done|done|]. symmetry. by apply Hsame.
    + exists i, x. by rewrite lookup_insert_ne.
Qed.

Lemma delete_entry_cidrs d d' e c :
  bl_ok d → blacklist_entry d !! bl_id e = Some e → is_global e = true →
  blacklist_entry d' = delete (bl_id e) (blacklist_entry d) →
  c ∈ _global_cidrs d' ↔ c ≠ bl_source_cidr e ∧ c ∈ _global_cidrs d.
Proof.
  intros Hbl Hi Hg Eb. rewrite !elem_of_global_cidrs. setoid_rewrite Eb. split.
  - intros (i & x & [Hne Hx]%lookup_delete_Some & Hgx & <-). split; [|by exists i, x].
    intros E. apply Hne. symmetry. by eapply (bl_unique _ Hbl).
  - intros [Hne (i & x & Hx & Hgx & <-)]. exists i, x. split_and!; [|done..].
    apply lookup_delete_Some. split; [|done]. intros <-. congruence.
Qed.

Lemma has_assertions_iff d i e :
  bl_ok d → blacklist_entry d !! i = Some e → is_global e = true →
  (∃ source, asserts d source (bl_source_cidr e) = true) → _has_feed_assertions d i = true.
Proof.
  intros Hbl Hi Hg (source & (j & x & Ha & Hj & Hx & Ec)%asserts_iff).
  apply asserted_by_iff. exists source. split; [done|].
  by rewrite <- (bl_unique _ Hbl _ _ _ _ Hj Hi Hx Hg Ec).
Qed.

Section feeds.
Context (sha256 : pystr → string) (capacity : Decimal) (ncpus : Z).
Context (xdpgw_apply : World → list Z → HelperOutcome).
Context (fetch_source : World → ThreatFeedSource → exn + list Z).

(** C12: a synchronization replaces what its source says and nothing else.
    After a real run the source asserts exactly the networks of the body, every
    other source asserts what it did, and the list holds exactly the networks of
    the body and those denied for another reason (an administrator's entry, or
    another source); the desired revision advances exactly when the digest
    moves, and the run fails rather than exceed the capacity. *)
Theorem sync_replaces_source w ph run body source r s'
    (Hreach : reached sha256 capacity ncpus xdpgw_apply fetch_source (w, ph))
    (Hsource : live_source (w_db w) run = Some source) (Hreal : run_dry_run run = false)
    (Hrun : reconcile sha256 run (parse_line_list body) (new_session (w_db w)) = (inr r, s')) :
  (∀ c, asserts (db s') (feed_id source) c = true ↔ c ∈ cidrs (parse_line_list body)) ∧
  (∀ src c, src ≠ feed_id source → asserts (db s') src c = asserts (w_db w) src c) ∧
  (∀ c, c ∈ _global_cidrs (db s') ↔
     c ∈ cidrs (parse_line_list body) ∨ denied_otherwise (w_db w) (feed_id source) c) ∧
  Z.of_nat (length (_global_cidrs (db s'))) <= MAX_GLOBAL_DENY_ENTRIES ∧
  global_deny_state (db s') =
    Some (advance sha256 (_global_cidrs (db s'))
            (default initial_deny_state (global_deny_state (w_db w)))).
Proof.
  pose proof (reached_inv _ _ _ _ _ _ _ Hreach) as [_ Hdeny].
  destruct (reconcile_inr sha256 run _ source (new_session (w_db w)) r s' Hdeny (parse_wf body)
    Hsource Hreal Hrun) as (_ & _ & H1 & H2 & H3 & H4 & H5 & _). by split_and!.
Qed.

(** ** What a run writes into its own row *)

Definition with_stats (parsed : ParseResult) (r : ReconcileResult) (run : FeedSyncRun) : FeedSyncRun :=
  run <| run_valid := Z.of_nat (valid_distinct_count parsed) |>
      <| run_duplicates := Z.of_nat (duplicate_count parsed) |>
      <| run_skipped_invalid := Z.of_nat (invalid_count parsed) |>
      <| run_added := rr_added r |> <| run_removed := rr_removed r |>
      <| run_overlap_count := rr_overlap_count r |>
      <| run_global_changed := rr_global_changed r |>
      <| run_desired_revision := rr_desired_revision r |>.

(** A dry run changes its own row, in the statistics, and nothing else. *)
Lemma dry_run_writes run parsed source s r s' :
  live_source (db s) run = Some source → run_dry_run run = true →
  reconcile sha256 run parsed s = (inr r, s') →
  db s' = db s <| feed_sync_run := alter (with_stats parsed r) (run_id run) (feed_sync_run (db s)) |> ∧
  rr_valid r = Z.of_nat (valid_distinct_count parsed) ∧
  rr_overlap_count r = _overlap_count (db s) (_load_candidates (cidrs parsed)).
Proof.
  unfold live_source, reconcile, _locked_source, get_db. intros Hsrc Hdry H. minv.
  destruct (_ !! _) as [source'|]; [|done]. destruct (_ && _); [done|]. simplify_eq.
  minv. rewrite Hdry in *. simpl in *.
  match goal with H : _locked_global_state false _ = _ |- _ =>
    apply locked_state_inr in H as [-> ->] end.
  minv.
  unfold _store_run_stats, mod_db in *. minv. destruct s as [[] ? ? ?]; simpl in *.
  split_and!; done.
Qed.

Definition same_runs (d d' : Db) : Prop := feed_sync_run d' = feed_sync_run d.

#[local] Instance same_runs_preorder : PreOrder same_runs.
Proof. split; [done|]. unfold same_runs. intros x y z H1 H2. congruence. Qed.

Lemma upsert_same_runs networks now : respects same_runs (_upsert_feed_entries networks now).
Proof. unfold _upsert_feed_entries, insert_feed_entry, uuid4, check_pkey. respects_auto. Qed.
Lemma replace_same_runs src cands now : respects same_runs (_replace_source_assertions src cands now).
Proof. unfold _replace_source_assertions. respects_auto. Qed.
Lemma orphans_same_runs : respects same_runs _delete_orphaned_feed_entries.
Proof. unfold _delete_orphaned_feed_entries. respects_auto. Qed.
Lemma materialize_same_runs st cs : respects same_runs (_materialize_locked sha256 st cs).
Proof. unfold _materialize_locked. respects_auto. Qed.
Lemma overlaps_same_runs rid cands n : respects same_runs (_persist_overlaps rid cands n).
Proof.
  unfold _persist_overlaps, insert_overlap, uuid4. respects_auto. unfold same_runs. by case_match.
Qed.
Lemma summary_same_runs src rid cands n :
  respects same_runs (if n =? 0 then mret tt else _record_overlap_summary src rid cands n).
Proof.
  unfold _record_overlap_summary. respects_auto. intros s1 x s2 [evs ->]%record_event_inr. done.
Qed.

(** A real run writes the same statistics into its row. *)
Lemma real_run_row run parsed source s r s' :
  live_source (db s) run = Some source → run_dry_run run = false →
  reconcile sha256 run parsed s = (inr r, s') →
  feed_sync_run (db s') = alter (with_stats parsed r) (run_id run) (feed_sync_run (db s)) ∧
  rr_valid r = Z.of_nat (valid_distinct_count parsed) ∧
  rr_overlap_count r = _overlap_count (db s) (_load_candidates (cidrs parsed)).
Proof.
  unfold live_source, reconcile, _locked_source, get_db. intros Hsrc Hdry H. minv.
  destruct (_ !! _) as [source'|]; [|done]. destruct (_ && _); [done|]. simplify_eq.
  minv. rewrite Hdry in *. simpl in *.
  match goal with H : _locked_global_state true _ = _ |- _ =>
    apply locked_state_inr in H as [-> ->] end.
  minv.
  unfold utc_now, get_db in *. minv.
  match goal with
  | H1 : _upsert_feed_entries _ _ _ = _, H2 : _replace_source_assertions _ _ _ _ = _,
    H3 : _delete_orphaned_feed_entries _ = _, H4 : _materialize_locked _ _ _ _ = _,
    H5 : _persist_overlaps _ _ _ _ = _, H6 : (if _ then _ else _) _ = (_, ?s6) |- _ =>
      apply upsert_same_runs in H1; apply replace_same_runs in H2; apply orphans_same_runs in H3;
      apply materialize_same_runs in H4; apply overlaps_same_runs in H5;
      apply summary_same_runs in H6;
      assert (feed_sync_run (db s6) = feed_sync_run (db s)) as Hruns
        by (rewrite H6, H5, H4, H3, H2, H1; reflexivity)
  end.
  unfold _store_run_stats, mod_db in *. minv. simpl. rewrite Hruns. split_and!; done.
Qed.

(** C34: a dry run predicts the real run and writes nothing but its statistics.
    The only row it changes is the run's own, and there only the counters, the
    changed flag and the revision.  The numbers of valid, added and removed
    networks and of overlaps with whitelists are those the real run reports,
    which leaves the same statistics in its row (the changed flag and the
    revision aside), and the list it computes is, up to order, the list the real
    run leaves. *)
Theorem dry_run_predicts w ph run body source r1 s1 r2 s2
    (Hreach : reached sha256 capacity ncpus xdpgw_apply fetch_source (w, ph))
    (Hsource : live_source (w_db w) run = Some source)
    (Hdry : reconcile sha256 (run <| run_dry_run := true |>) (parse_line_list body)
              (new_session (w_db w)) = (inr r1, s1))
    (Hreal : reconcile sha256 (run <| run_dry_run := false |>) (parse_line_list body)
              (new_session (w_db w)) = (inr r2, s2)) :
  let parsed := parse_line_list body in
  let runs := feed_sync_run (w_db w) in
  db s1 = w_db w <| feed_sync_run := alter (with_stats parsed r1) (run_id run) runs |> ∧
  feed_sync_run (db s2) = alter (with_stats parsed r2) (run_id run) runs ∧
  rr_valid r1 = rr_valid r2 ∧ rr_added r1 = rr_added r2 ∧ rr_removed r1 = rr_removed r2 ∧
  rr_overlap_count r1 = rr_overlap_count r2 ∧
  Permutation
    (_prospective_global_cidrs (w_db w) (feed_id source) (_load_candidates (cidrs parsed)))
    (_global_cidrs (db s2)).
Proof.
  pose proof (reached_inv _ _ _ _ _ _ _ Hreach) as [_ Hdeny]. pose proof Hdeny as (Hbl & Hfb & _).
  assert (∀ b, live_source (w_db w) (run <| run_dry_run := b |>) = Some source) as Hlive
    by (intros b; rewrite <- Hsource; reflexivity).
  destruct (reconcile_dry_inr sha256 (run <| run_dry_run := true |>) _ source (new_session (w_db w)) r1 s1 (Hlive _) eq_refl Hdry)
    as (_ & _ & Hd1 & _).
  destruct (dry_run_writes (run <| run_dry_run := true |>) _ source (new_session (w_db w)) r1 s1
    (Hlive _) eq_refl Hdry) as (E1 & V1 & O1).
  destruct (real_run_row (run <| run_dry_run := false |>) _ source (new_session (w_db w)) r2 s2
    (Hlive _) eq_refl Hreal) as (E2 & V2 & O2).
  destruct (reconcile_inr sha256 (run <| run_dry_run := false |>) _ source (new_session (w_db w)) r2 s2 Hdeny (parse_wf body)
    (Hlive _) eq_refl Hreal) as (_ & (Hbl2 & _) & _ & _ & Hset & _ & _ & Hd2 & _).
  rewrite <- Hd2 in Hd1. injection Hd1 as Ha Hr. cbv zeta.
  split_and!; [exact E1|exact E2|congruence|done|done|congruence|].
  apply NoDup_Permutation; [apply prospective_nodup|by apply global_cidrs_nodup|]. intros c.
  rewrite (elem_of_prospective _ _ _ _ Hbl Hfb), elem_of_load_candidates. symmetry. apply Hset.
Qed.

(** An administrator's entry.  Adding a network denies it and keeps the
    rest; removing one drops exactly that network, unless some feed asserts it,
    in which case the list is unchanged and the entry is the feed's from then on. *)
Theorem manual_deny_edits w ph src actor ip s'
    (Hreach : reached sha256 capacity ncpus xdpgw_apply fetch_source (w, ph)) :
  (∀ e, add_blacklist sha256 src actor ip (new_session (w_db w)) = (inr e, s') →
     _parse_source src = inr (bl_source_cidr e) ∧
     ∀ c, c ∈ _global_cidrs (db s') ↔ c = bl_source_cidr e ∨ c ∈ _global_cidrs (w_db w)) ∧
  (remove_blacklist sha256 src actor ip (new_session (w_db w)) = (inr tt, s') →
   ∃ n i e, _parse_source src = inr n ∧ blacklist_entry (w_db w) !! i = Some e ∧
     bl_source_cidr e = n ∧ is_feed_entry e = false ∧
     ((∃ source, asserts (w_db w) source n = true) →
        ∀ c, c ∈ _global_cidrs (db s') ↔ c ∈ _global_cidrs (w_db w)) ∧
     ((∀ source, asserts (w_db w) source n = false) →
        ∀ c, c ∈ _global_cidrs (db s') ↔ c ≠ n ∧ c ∈ _global_cidrs (w_db w))).
Proof.
  pose proof (reached_inv _ _ _ _ _ _ _ Hreach) as [Hgw Hdeny]. pose proof Hdeny as (Hbl & Hfb & _).
  split.
  - intros e H. destruct (add_blacklist_inr sha256 src actor ip (new_session (w_db w)) e s' Hgw Hdeny H)
      as (_ & _ & _ & Hp & _ & Eb & _ & Hg & Hsame).
    split; [done|]. intros c. by apply (insert_entry_cidrs (w_db w) (db s') e).
  - intros H. destruct (remove_blacklist_inr sha256 src actor ip (new_session (w_db w)) tt s' Hgw Hdeny H)
      as (e & _ & _ & _ & Hp & Hi & Hm & Eb & Hg). cbn [db new_session] in *.
    exists (bl_source_cidr e), (bl_id e), e. split_and!; try done.
    + intros [source Hs] c. rewrite (has_assertions_iff (w_db w) (bl_id e) e Hbl Hi Hg) in Eb.
      2: { by exists source. }
      rewrite (insert_entry_cidrs (w_db w) (db s')
        (e <| bl_source := source_feed |> <| bl_created_by := None |>) c); [|exact Eb|exact Hg|].
      * split; [|by right]. intros [->|?]; [|done]. apply elem_of_global_cidrs. eauto.
      * simpl. intros e0 He0. by simplify_eq.
    + intros Hno c. destruct (_has_feed_assertions (w_db w) (bl_id e)) eqn:Eas.
      { apply asserted_by_iff in Eas as (s & _ & Hs). specialize (Hno s).
        assert (asserts (w_db w) s (bl_source_cidr e) = true); [|congruence].
        apply asserts_iff. exists (bl_id e), e. by split_and!. }
      by apply delete_entry_cidrs.
Qed.

End feeds.

(** ** The concrete run: a source whose body is already denied by hand *)

Definition demo_feed : FeedSourceCreateRequest :=
  mkFeedSourceCreateRequest "list" "https://feed.example/list" 3600 line_list true None.
Definition feed_requests : list (option SessionData * request) :=
  [(root_session, CreateFeed demo_feed); (root_session, SyncFeed 13 false)].
Definition world3q : World := Eval vm_compute in default world3d (serve_all feed_requests world3d).
Definition world3f : World := Eval vm_compute in (claim_job 15 world3q).2.
Definition demo_source : ThreatFeedSource := Eval vm_compute in
  default (mkThreatFeedSource 1 "" "" line_list true 0 None 0 None None None None None 0 0)
    (threat_feed_source (w_db world3f) !! 13%positive).
Definition demo_claimed : FeedSyncRun := Eval vm_compute in
  default (new_run 1 demo_source ChangeTrigger.feed_manual false)
    (feed_sync_run (w_db world3f) !! 14%positive).
Definition demo_run (dry : bool) : FeedSyncRun := demo_claimed <| run_dry_run := dry |>.
Definition demo_feed_job : AgentJob := Eval vm_compute in
  default (new_job 1 TargetGlobalDeny 0 ChangeTrigger.service 0)
    (agent_job (w_db world3f) !! 15%positive).
Definition demo_body : list Z := py "9.0.0.0/8".

Lemma world3f_reachable :
  reachable demo_sha demo_capacity 4 demo_helper demo_fetch (world3f, Idle).
Proof.
  destruct world3d_reachable as (x0 & Hi & Hs). exists x0. split; [done|]. etrans; [exact Hs|].
  etrans; [apply (serve_all_steps feed_requests world3d world3q); vm_compute; reflexivity|].
  eapply rtc_l; [apply (step_claim _ _ _ _ _ 15%positive world3q demo_feed_job world3f);
                 vm_compute; reflexivity|].
  apply rtc_once, step_crash.
Qed.

Definition sync3f (dry : bool) :=
  reconcile demo_sha (demo_run dry) (parse_line_list demo_body) (new_session (w_db world3f)).
Definition real3f : Session := Eval vm_compute in (sync3f false).2.
Definition dry3f : Session := Eval vm_compute in (sync3f true).2.

Lemma sync_replaces_source_witness :
  Net 150994944 8 ∈ _global_cidrs (db real3f) ↔
    Net 150994944 8 ∈ cidrs (parse_line_list demo_body) ∨
    denied_otherwise (w_db world3f) 13 (Net 150994944 8).
Proof.
  refine (proj1 (proj2 (proj2 (sync_replaces_source demo_sha demo_capacity 4 demo_helper demo_fetch
    world3f Idle (demo_run false) demo_body demo_source
    (mkReconcileResult 1 1 0 0 false None false) real3f world3f_reachable _ _ _))) _);
    vm_compute; reflexivity.
Defined.

(** The download completes with one network that is denied by hand and a new one. *)
Definition world3g : World := Eval vm_compute in
  (complete_feed_fetch demo_sha demo_helper demo_feed_job
     (inr (py "9.0.0.0/8" ++ [10] ++ py "11.0.0.0/8")) world3f).2.
Definition deny_state3g : GlobalDenyState :=
  Eval vm_compute in default initial_deny_state (global_deny_state (w_db world3g)).
Definition feed_entry3g : BlacklistEntry := Eval vm_compute in
  default (mkBlacklistEntry 1 scope_global source_manual (Net 0 0) None 0)
    (blacklist_entry (w_db world3g) !! 17%positive).

Lemma world3g_reachable :
  reachable demo_sha demo_capacity 4 demo_helper demo_fetch (world3g, Idle).
Proof.
  destruct world3f_reachable as (x0 & Hi & Hs). exists x0. split; [done|]. etrans; [exact Hs|].
  apply rtc_once, (step_feed_completed _ _ _ _ _ demo_feed_job
    (inr (py "9.0.0.0/8" ++ [10] ++ py "11.0.0.0/8")) _ _ (inr tt)); [|vm_compute; reflexivity].
  split; [vm_compute; reflexivity|]. intros j sid Hj. vm_compute in Hj. by injection Hj as <-.
Qed.

(** Three networks, one of them an entry of the feed, which asserts it, and the
    digest of the three. *)
Lemma global_deny_consistent_witness :
  _global_cidrs (w_db world3g) = [Net 150994944 8; Net 167772160 8; Net 184549376 8] ∧
  is_feed_entry feed_entry3g = true ∧
  NoDup (_global_cidrs (w_db world3g)) ∧
  (∃ s, is_Some (feed_blacklist_assertion (w_db world3g) !! (s, 17%positive))) ∧
  gds_desired_digest deny_state3g = Some (_digest demo_sha (_global_cidrs (w_db world3g))).
Proof.
  destruct (global_deny_consistent demo_sha demo_capacity 4 demo_helper demo_fetch
    world3g Idle world3g_reachable) as (H1 & _ & H2 & H3).
  split; [vm_compute; reflexivity|]. split; [reflexivity|]. split; [exact H1|]. split.
  - apply (H2 17%positive feed_entry3g); vm_compute; reflexivity.
  - apply (H3 deny_state3g). vm_compute. reflexivity.
Defined.

Lemma dry_run_predicts_witness :
  feed_sync_run (db dry3f) =
    alter (with_stats (parse_line_list demo_body) (mkReconcileResult 1 1 0 0 true None false)) 14%positive
      (feed_sync_run (w_db world3f)) ∧
  Permutation (_prospective_global_cidrs (w_db world3f) 13 [Net 150994944 8])
    (_global_cidrs (db real3f)).
Proof.
  destruct (dry_run_predicts demo_sha demo_capacity 4 demo_helper demo_fetch
    world3f Idle (demo_run false) demo_body demo_source
    (mkReconcileResult 1 1 0 0 true None false) dry3f
    (mkReconcileResult 1 1 0 0 false None false) real3f world3f_reachable
    ltac:(vm_compute; reflexivity) ltac:(vm_compute; reflexivity) ltac:(vm_compute; reflexivity))
    as (H1 & _ & _ & _ & _ & _ & H2).
  split; [exact (f_equal feed_sync_run H1)|exact H2].
Defined.

Definition root_user : option User := Eval vm_compute in users (w_db world3f) !! 1000%positive.
Definition world3f_removed : Session := Eval vm_compute in
  (remove_blacklist demo_sha (py "9.0.0.0/8") root_user None
     (new_session (w_db world3f))).2.

Lemma manual_deny_edits_witness :
  ∃ n i e, _parse_source (py "9.0.0.0/8") = inr n ∧
    blacklist_entry (w_db world3f) !! i = Some e ∧ bl_source_cidr e = n ∧ is_feed_entry e = false.
Proof.
  destruct (proj2 (manual_deny_edits demo_sha demo_capacity 4 demo_helper demo_fetch
    world3f Idle (py "9.0.0.0/8") root_user None world3f_removed
    world3f_reachable) ltac:(vm_compute; reflexivity)) as (n & i & e & H1 & H2 & H3 & H4 & _).
  exists n, i, e. split_and!; assumption.
Defined.

(** A dry run can announce a change that the real run does not make.  The
    digest of the list in force is taken in the order of [cidr] values and that
    of the predicted list in the order of their texts; with 9.0.0.0/8 and
    10.0.0.0/8 already denied, synchronizing a source that lists 9.0.0.0/8
    leaves the list as it is, and the dry run still reports a change. *)
Theorem dry_run_false_change :
  ∃ r1 r2 s1 s2,
    reconcile demo_sha (demo_run true) (parse_line_list demo_body) (new_session (w_db world3f)) =
      (inr r1, s1) ∧
    reconcile demo_sha (demo_run false) (parse_line_list demo_body) (new_session (w_db world3f)) =
      (inr r2, s2) ∧
    _global_cidrs (db s2) = _global_cidrs (w_db world3f) ∧
    rr_global_changed r1 = true ∧ rr_global_changed r2 = false.
Proof.
  exists (mkReconcileResult 1 1 0 0 true None false), (mkReconcileResult 1 1 0 0 false None false),
    dry3f, real3f.
  split_and!; vm_compute; reflexivity.
Qed.



