(* ===== verification/FeedAdminSpec.v ===== *)
(** * Administration of feed sources

    The ledger of runs, what deleting a source leaves behind, and what the
    schedule queues. *)

From S2P Require Import Prelude PyStr Ipaddress RuleMatch Models Db.
From S2P Require Import Apply ApplyInv Allocations Services Isolation Rules.
From S2P Require Import ServicesInv FeedParser FeedReconcile FeedInv Lists ListsInv.
From S2P Require Import NodeControl FeedJobs Feeds Evolution WorkerInv ApiInv.
From S2P Require Import Applier ApplierInv FeedRunner Processor WorldInv.
From S2P Require Import Api System Requests DenyInv Demo.
From S2P Require Import WorkerSpec DataPlaneSpec FeedSpec FeedLedger LedgerOps LedgerInv.
Open Scope Z_scope.

(** ** What a reconciliation leaves of the runs *)

Definition runs_kept (d d' : Db) : Prop :=
  threat_feed_source d' = threat_feed_source d ∧
  ∀ i, run_key <$> feed_sync_run d' !! i = run_key <$> feed_sync_run d !! i.

#[global] Instance runs_kept_preorder : PreOrder runs_kept.
Proof.
  split; [by intros d|]. intros d1 d2 d3 [E1 H1] [E2 H2]. split; [congruence|].
  intros i. by rewrite H2.
Qed.

Lemma runs_kept_alter d d' f rid :
  threat_feed_source d' = threat_feed_source d → feed_sync_run d' = alter f rid (feed_sync_run d) →
  (∀ r, run_key (f r) = run_key r) → runs_kept d d'.
Proof.
  intros Es Er Hf. split; [done|]. intros i. rewrite Er. destruct (decide (rid = i)) as [->|Hne].
  - rewrite lookup_alter_eq. destruct (feed_sync_run d !! i); [|done]. simpl. by rewrite Hf.
  - by rewrite lookup_alter_ne.
Qed.

Lemma reconcile_kept sha256 run parsed : respects runs_kept (reconcile sha256 run parsed).
Proof.
  ledger_auto; first [ by split | by eapply runs_kept_alter | case_match; by split ].
Qed.

(** ** Deletion *)

(** A source in the table, seen as deleted. *)
Record withdrawn (d : Db) (id : uuid) : Prop := {
  wd_source : ∃ source, threat_feed_source d !! id = Some source ∧ is_deleted source = true ∧
    feed_enabled source = false ∧ feed_next_sync_at source = None;
  wd_asserts : ∀ c, asserts d id c = false
}.

Section deletion.
Context (sha256 : pystr → string).

(** The state the reconciliation of a deletion starts from. *)
Record deleting (d d3 : Db) (id : uuid) (run : FeedSyncRun) : Prop := {
  de_same : deny_same d d3;
  de_run : feed_sync_run d3 !! run_id run = Some run;
  de_run_source : run_feed_source_id run = id;
  de_trigger : run_trigger run = ChangeTrigger.feed_delete;
  de_dry : run_dry_run run = false;
  de_source : ∃ source, threat_feed_source d3 !! id = Some source ∧ feed_id source = id ∧
    is_deleted source = true ∧ feed_enabled source = false ∧ feed_next_sync_at source = None;
  de_inflight : ∀ r, _inflight_run d id = Some r → run_id run = run_id r
}.

Lemma delete_source_deleting id actor s run s' :
  feed_ok (db s) → delete_source sha256 id actor s = (inr run, s') →
  ∃ s3 res s4 evs, deleting (db s) (db s3) id run ∧
    reconcile sha256 run (parse_line_list []) s3 = (inr res, s4) ∧ db s' = db s4 <| audit_events := evs |>.
Proof.
  intros Hok (locked & source & s1 & run0 & s2 & s3 & res & s4 & evs & Hl & Hdel & Es & E1 & Henq &
    Hre & Hrec & E')%delete_source_inr.
  exists s3, res, s4, evs. split; [|done]. clear Hrec E' evs s4 res.
  pose proof (fo_source_id _ Hok _ _ Hl) as Hid.
  assert (_inflight_run (db s1) id = _inflight_run (db s) id) as Hsame by (by rewrite E1).
  assert (feed_id source = id) as Hsid by (by subst source).
  assert (is_deleted source = true ∧ feed_enabled source = false ∧ feed_next_sync_at source = None) as Hsrc.
  { subst source. split; [by apply bool_decide_true|done]. }
  apply enqueue_locked_inr in Henq as [[Hin ->]|(Hin & source' & rid & jid & u & Es' & -> & Hr & Hj & E2)].
  - rewrite Hsid, Hsame in Hin. pose proof Hin as (Hs0 & i & j & rid & _ & _ & _ & Hr)%inflight_some.
    pose proof (fo_run_id _ Hok _ _ Hr) as Hrid. subst rid.
    destruct (fo_run _ Hok _ _ Hr) as (x & Hx & _ & Hd). rewrite Hs0 in Hx. simplify_eq.
    destruct Hre as [(Et & _)|(Et & -> & aj & E3 & _)]; [destruct (Hd Et); congruence|].
    split; try done; [by rewrite E3, E1|..]; rewrite ?E3; simpl.
    + apply lookup_insert_eq.
    + rewrite E1. simpl. eexists. rewrite lookup_insert_eq. split; [done|by split].
    + intros r Hr'. congruence.
  - destruct Hre as [(Et & -> & ->)|(Et & _)]; [|done].
    split; try done; [by rewrite E2, E1|..]; rewrite ?E2; simpl.
    + apply lookup_insert_eq.
    + by subst source'.
    + rewrite Hsid. exists source'. rewrite lookup_insert_eq. by subst source'.
    + intros r Hr'. congruence.
Qed.

Lemma delete_source_result id actor s run s' :
  feed_ok (db s) → deny_ok sha256 (db s) → delete_source sha256 id actor s = (inr run, s') →
  deny_ok sha256 (db s') ∧ withdrawn (db s') id ∧
  (∀ src c, src ≠ id → asserts (db s') src c = asserts (db s) src c) ∧
  (∀ c, c ∈ _global_cidrs (db s') ↔ denied_otherwise (db s) id c) ∧
  (∃ run', feed_sync_run (db s') !! run_id run = Some run' ∧ run_feed_source_id run' = id ∧
     run_trigger run' = ChangeTrigger.feed_delete ∧ run_dry_run run' = false) ∧
  (∀ r, _inflight_run (db s) id = Some r → run_id run = run_id r).
Proof.
  intros Hok Hdeny H. destruct (delete_source_deleting _ _ _ _ _ Hok H)
    as (s3 & res & s4 & evs & [Hds Hrun Hrs Htr Hdry (source & Hsrc & Hsid & Hsd & Hen & Hnx) Hinf] & Hrec & E').
  assert (live_source (db s3) run = Some source) as Hlive.
  { unfold live_source. rewrite Hrs, Hsrc, Htr. by rewrite andb_false_r. }
  destruct (reconcile_kept _ _ _ _ _ _ Hrec) as [Ks Kr].
  eapply (reconcile_inr sha256 run _ source) in Hrec
    as (_ & Hd' & Ha & Ho & Hg & _); [|by eapply deny_ok_same|apply parse_wf|done|done].
  rewrite Hsid in *. assert (cidrs (parse_line_list []) = []) as Enil by (vm_compute; reflexivity).
  rewrite Enil in *. rewrite E'. split; [by eapply deny_ok_same; [|exact Hd']|]. split_and!.
  - split; simpl; [exists source; rewrite Ks; done|]. intros c. apply not_true_iff_false.
    intros [] %Ha%not_elem_of_nil.
  - intros x c Hne. etrans; [by apply (Ho x c)|]. unfold asserts, assertions. by destruct Hds as (-> & -> & _).
  - intros c. etrans; [apply (Hg c)|]. unfold denied_otherwise, asserted.
    destruct Hds as (-> & -> & _). set_solver.
  - specialize (Kr (run_id run)). rewrite Hrun in Kr. simpl in Kr.
    apply fmap_Some in Kr as (r' & Hr' & [= _ K2 _ _ K5 K6]). exists r'. simpl. split_and!; congruence.
  - done.
Qed.

(** An answered deletion, and the tables it commits. *)
Lemma delete_route_inr capacity ncpus session sid w u w' :
  feed_ok (w_db w) → serve sha256 capacity ncpus session (DeleteFeed sid) w = (inr u, w') →
  ∃ actor run s', delete_source sha256 sid actor (new_session (w_db w)) = (inr run, s') ∧
    only_dispatched (db s') (w_db w').
Proof.
  intros Hok (p & s' & _ & Hr & ->)%serve_inr. cbn [route] in Hr. unfold FeedsRouter.delete_feed in Hr.
  apply bind_inr in Hr as (p1 & s1 & H1 & Hr). unfold get_admin_principal in H1.
  assert (s1 = new_session (w_db w)) as -> by (by minv).
  apply bind_inr in Hr as (source & s1 & H2 & Hr).
  assert (s1 = new_session (w_db w) ∧ threat_feed_source (w_db w) !! sid = Some source) as [-> Hs].
  { unfold FeedsRouter._active_source, get_db in H2. by minv. }
  apply bind_inr in Hr as (actor & s1 & H3 & Hr).
  assert (s1 = new_session (w_db w)) as -> by (unfold Deps._load_actor, get_db in H3; by minv).
  apply bind_inr in Hr as (run & s1 & H4 & [_ ->]%ret_inr). rewrite (fo_source_id _ Hok _ _ Hs) in H4.
  exists actor, run, s1. split; [exact H4|]. exact (proj1 (callbacks_tables (post_commit_callbacks s1) (w <| w_db := db s1 |>))).
Qed.
End deletion.

Lemma reconcile_world_inr sha256 rid parsed w res revision w' run :
  feed_sync_run (w_db w) !! rid = Some run →
  _reconcile sha256 rid parsed w = (inr (res, revision), w') →
  ∃ s1 s2 run', (∃ runs, db s1 = w_db w <| feed_sync_run := runs |>) ∧ run_key run' = run_key run ∧
    reconcile sha256 run' parsed s1 = (inr res, s2) ∧ only_dispatched (db s2) (w_db w').
Proof.
  intros Hr H. unfold _reconcile, session_scope in H.
  match type of H with (match ?m with _ => _ end) = _ => destruct m as [[e|x] s'] eqn:Em end; [done|].
  injection H as -> <-. unfold get_db in Em. rewrite run_gets in Em. cbn [db new_session] in Em. rewrite Hr in Em.
  rewrite run_get_some in Em. apply bind_inr in Em as (? & s1 & H1 & Em).
  unfold put_run, mod_db in H1. apply modS_inr in H1 as ->.
  apply bind_inr in Em as (res' & s2 & Hrec & Em).
  assert (res' = res ∧ s2 = s') as [-> ->].
  { destruct (_ || _); [by minv|]. rewrite run_gets in Em. by minv. }
  eexists _, s', _. split; [|split; [|split; [exact Hrec|]]]; [by eexists|done|].
  exact (proj1 (callbacks_tables (post_commit_callbacks s') (w <| w_db := db s' |>))).
Qed.

(** ** The schedule *)

(** A source the schedule owes a run. *)
Definition due_now (d : Db) (now : timestamp) (s : ThreatFeedSource) : Prop :=
  feed_enabled s = true ∧ is_deleted s = false ∧
  (∃ t, feed_next_sync_at s = Some t ∧ t <= now) ∧ at_rest d (feed_id s).

Lemma not_inflight_rest d sid :
  sid ∉ (run_feed_source_id ∘ snd <$> inflight_feed_jobs d) ↔ at_rest d sid.
Proof.
  split.
  - intros Hn i j rid r Hj Hf Ht Hr E. apply Hn, list_elem_of_fmap. exists (j, r). split; [done|].
    apply elem_of_inflight. eauto 10.
  - intros Hr ([j r] & -> & (i & rid & Hj & Hf & Ht & Hrun)%elem_of_inflight)%list_elem_of_fmap.
    by eapply Hr.
Qed.

Lemma rest_no_inflight d sid : at_rest d sid → _inflight_run d sid = None.
Proof.
  intros Hr. destruct (_inflight_run d sid) as [r|] eqn:E; [|done].
  apply inflight_some in E as (Es & i & j & rid & Hj & Hf & Ht & Hrun). by destruct (Hr _ _ _ _ Hj Hf Ht Hrun).
Qed.

Lemma elem_of_due d now limit s :
  (s ∈ list_due_sources d now limit → due_now d now s ∧ ∃ i, threat_feed_source d !! i = Some s) ∧
  (Z.of_nat (length (list_due_sources d now limit)) < limit →
   due_now d now s → (∃ i, threat_feed_source d !! i = Some s) → s ∈ list_due_sources d now limit).
Proof.
  unfold list_due_sources. set (l := order_by_asc _ _).
  assert (s ∈ l ↔ due_now d now s ∧ ∃ i, threat_feed_source d !! i = Some s) as Hl.
  { unfold l, order_by_asc. rewrite merge_sort_Permutation, elem_of_select, !andb_true_iff, !negb_true_iff,
      bool_decide_eq_false, not_inflight_rest. unfold due_now.
    destruct (feed_next_sync_at s) as [t|]; [|naive_solver]. rewrite Z.leb_le. naive_solver. }
  destruct (limit <=? 0) eqn:E.
  { split; [by intros ?%not_elem_of_nil|]. simpl. lia. }
  rewrite <- Hl. split.
  - intros (i & Hi)%list_elem_of_lookup_1. apply lookup_take_Some in Hi as [Hi _]. by eapply list_elem_of_lookup_2.
  - rewrite length_take. intros Hlen Hd Hi. rewrite take_ge by lia. by apply Hl.
Qed.

Lemma due_nodup d now limit : feed_ok d → NoDup (feed_id <$> list_due_sources d now limit).
Proof.
  intros Hok. unfold list_due_sources. destruct (_ <=? _); [by constructor|].
  rewrite fmap_take. eapply sublist_NoDup; [|apply sublist_take].
  unfold order_by_asc. rewrite merge_sort_Permutation. apply select_where_nodup.
  intros i x j y Hi Hj _ _ E. rewrite (fo_source_id _ Hok _ _ Hi), (fo_source_id _ Hok _ _ Hj) in E. done.
Qed.

Lemma convergence_runs s b s' :
  _enqueue_global_convergence s = (inr b, s') → feed_sync_run (db s') = feed_sync_run (db s).
Proof.
  revert s b s'. change (respects (fun d d' => feed_sync_run d' = feed_sync_run d) _enqueue_global_convergence).
  unfold _enqueue_global_convergence, put_job, uuid4, utc_now, check_pkey, get_db.
  assert (PreOrder (fun d d' => feed_sync_run d' = feed_sync_run d)) by (split; [done|intros ???; congruence]).
  respects_auto.
Qed.

(** The runs a pass of the schedule adds. *)
Record scheduled (sources : list ThreatFeedSource) (d d' : Db) : Prop := {
  sc_old : feed_sync_run d ⊆ feed_sync_run d';
  sc_new : ∀ s, s ∈ sources → ∃ rid run, feed_sync_run d !! rid = None ∧
    feed_sync_run d' !! rid = Some run ∧ run_feed_source_id run = feed_id s ∧
    run_sequence run = feed_sync_sequence s + 1 ∧ run_status run = FeedSyncStatus.queued ∧
    run_trigger run = ChangeTrigger.feed_schedule ∧ run_dry_run run = false;
  sc_only : ∀ rid run, feed_sync_run d !! rid = None → feed_sync_run d' !! rid = Some run →
    run_feed_source_id run ∈ feed_id <$> sources
}.

Lemma enqueue_all_inr sources s u s' :
  feed_ok (db s) → NoDup (feed_id <$> sources) →
  (∀ x, x ∈ sources → threat_feed_source (db s) !! feed_id x = Some x ∧ is_deleted x = false ∧
     at_rest (db s) (feed_id x)) →
  enqueue_all sources s = (inr u, s') → scheduled sources (db s) (db s').
Proof.
  revert s. induction sources as [|x sources IH]; intros s Hok Hnd Hin H; cbn [enqueue_all] in H.
  { apply ret_inr in H as [_ ->]. split; [done|by intros ? ?%not_elem_of_nil|congruence]. }
  apply bind_inr in H as (run & s1 & H1 & H). 
  pose proof (enqueue_sync_feed (feed_id x) ChangeTrigger.feed_schedule false ltac:(done) _ _ _ H1 Hok) as Hok1.
  destruct (Hin x) as (Hx & Hdel & Hrest); [left|].
  unfold enqueue_sync, _source_for_update, get_db in H1. rewrite run_assoc, run_gets, run_ret, Hx, run_get_some in H1.
  apply bind_inr in H1 as (? & s0 & [_ ->]%require_inr & H1).
  apply enqueue_locked_inr in H1 as [[E _]|(_ & x' & rid & jid & v & Ex' & -> & Hr & Hj & Edb)].
  { rewrite (rest_no_inflight _ _ Hrest) in E. done. }
  simpl in Hnd. apply NoDup_cons in Hnd as [Hni Hnd].
  assert (feed_id x' = feed_id x) as Hid by (by subst x').
  specialize (IH s1 Hok1 Hnd). destruct IH as [Hsub Hnew Honly]; [|exact H|].
  { intros y Hy. destruct (Hin y) as (Hy1 & Hy2 & Hy3); [by right|].
    assert (feed_id y ≠ feed_id x) as Hne by (intros E; apply Hni; rewrite <- E; by apply list_elem_of_fmap_2).
    rewrite Edb. simpl. split; [by rewrite lookup_insert_ne|]. split; [done|].
    unfold at_rest. cbn [agent_job feed_sync_run].
    intros i j q r Hij Hf Hq [[<- <-]|[Hqn Hqr]]%lookup_insert_Some; [simpl; congruence|].
    apply lookup_insert_Some in Hij as [[<- <-]|[_ Hij]]; [by injection Hq as ->|].
    by apply (Hy3 i j q r). }
  rewrite Edb in Hsub, Hnew, Honly. simpl in *.
  assert (feed_sync_run (db s) ⊆ feed_sync_run (db s')) as Hsub'.
  { etrans; [|exact Hsub]. by apply insert_subseteq. }
  split; [done|..].
  - intros y [->|Hy]%elem_of_cons.
    + exists rid, (new_run rid x' ChangeTrigger.feed_schedule false). split; [done|].
      split; [eapply lookup_weaken; [apply lookup_insert_eq|exact Hsub]|]. subst x'. done.
    + destruct (Hnew y Hy) as (q & r & Hq & Hq' & Hrest'). exists q, r. split; [|done].
      by apply lookup_insert_None in Hq as [? _].
  - intros q r Hq Hq'. destruct (decide (q = rid)) as [->|Hne].
    + pose proof (lookup_weaken _ _ rid _ (lookup_insert_eq (feed_sync_run (db s)) rid _) Hsub) as E.
      rewrite E in Hq'. injection Hq' as <-. simpl. rewrite Hid. left.
    + right. eapply Honly; [|exact Hq']. by rewrite lookup_insert_ne.
Qed.

Section feeds.
Context (sha256 : pystr → string) (capacity : Decimal) (ncpus : Z).
Context (xdpgw_apply : World → list Z → HelperOutcome).
Context (fetch_source : World → ThreatFeedSource → exn + list Z).
Abbreviation reached := (reached sha256 capacity ncpus xdpgw_apply fetch_source).

(** C13: the ledger of synchronization runs is consistent, under any
    interleaving of requests, the schedule, worker steps and crashes.  Every
    run belongs to a source, is numbered within the source's counter and by no
    other run of it, and has exactly one job, of that number, whose status goes
    with the run's; a source has at most one run queued or running; and a run
    that deletes belongs to a deleted source and is not a dry run. *)
Theorem feed_ledger_consistent w ph rid run
    (Hreach : reached (w, ph)) (Hrun : feed_sync_run (w_db w) !! rid = Some run) :
  (∃ source, threat_feed_source (w_db w) !! run_feed_source_id run = Some source ∧
     run_sequence run <= feed_sync_sequence source ∧
     (run_trigger run = ChangeTrigger.feed_delete → is_deleted source = true ∧ run_dry_run run = false)) ∧
  (∃ jid job, agent_job (w_db w) !! jid = Some job ∧ job_target job = TargetFeedRun rid ∧
     job_version job = run_sequence run ∧ coupled (job_status job) (run_status run) = true ∧
     ∀ jid' job', agent_job (w_db w) !! jid' = Some job' → job_target job' = TargetFeedRun rid →
       jid' = jid) ∧
  (∀ rid' run', feed_sync_run (w_db w) !! rid' = Some run' →
     run_feed_source_id run' = run_feed_source_id run →
     run_sequence run' = run_sequence run ∨
       run_status run ∈ [FeedSyncStatus.queued; FeedSyncStatus.running] ∧
       run_status run' ∈ [FeedSyncStatus.queued; FeedSyncStatus.running] → rid' = rid).
Proof.
  pose proof (reachable_feed _ _ _ _ _ _ Hreach) as Hok. simpl in Hok.
  assert (∀ j r, job_target j = TargetFeedRun r ↔ feed_sync_run_id j = Some r) as Htgt.
  { intros j r. unfold feed_sync_run_id. destruct (job_target j); naive_solver. }
  assert (∀ j r, coupled (job_status j) r = true →
    r ∈ [FeedSyncStatus.queued; FeedSyncStatus.running] → in_flight j = true) as Hfl.
  { intros j r Hc Hr. unfold in_flight.
    destruct (job_status j), r; try done; exfalso; set_solver. }
  split_and!.
  - by eapply fo_run.
  - destruct (fo_has_job _ Hok _ _ Hrun) as (jid & job & Hj & Ht).
    destruct (fo_job _ Hok _ _ _ Hj Ht) as (r & Hr & Hv & Hc). simplify_eq.
    exists jid, job. split_and!; [done|by apply Htgt|done|done|].
    intros jid' job' Hj' Ht'%Htgt. by eapply (fo_one_job _ Hok).
  - intros rid' run' Hrun' Es [Eq|[Hi Hi']]; [by eapply (fo_sequence _ Hok)|].
    destruct (fo_has_job _ Hok _ _ Hrun) as (jid & job & Hj & Ht).
    destruct (fo_has_job _ Hok _ _ Hrun') as (jid' & job' & Hj' & Ht').
    destruct (fo_job _ Hok _ _ _ Hj Ht) as (r & Hr & _ & Hc).
    destruct (fo_job _ Hok _ _ _ Hj' Ht') as (r' & Hr' & _ & Hc'). simplify_eq.
    assert (jid = jid') as <- by (eapply (fo_inflight _ Hok jid job run rid jid' job' run' rid'); eauto).
    congruence.
Qed.

(** C19: Deleting a source withdraws it.  After an answered deletion the source
    is deleted, disabled and off the schedule, asserts nothing, every other
    source asserts what it did, and the deny list holds exactly the networks
    denied for another reason. *)
Theorem deleted_source_withdrawn w ph session sid w'
    (Hreach : reached (w, ph))
    (Hserve : serve sha256 capacity ncpus session (DeleteFeed sid) w = (inr tt, w')) :
  withdrawn (w_db w') sid ∧
  (∀ src c, src ≠ sid → asserts (w_db w') src c = asserts (w_db w) src c) ∧
  (∀ c, c ∈ _global_cidrs (w_db w') ↔ denied_otherwise (w_db w) sid c).
Proof.
  pose proof (reachable_feed _ _ _ _ _ _ Hreach) as Hok. simpl in Hok.
  destruct (reached_inv _ _ _ _ _ _ _ Hreach) as [_ Hd].
  destruct (delete_route_inr _ _ _ _ _ _ _ _ Hok Hserve) as (actor & run & s' & H & aj & E & _).
  destruct (delete_source_result sha256 sid actor (new_session (w_db w)) _ _ Hok Hd H) as (_ & [Hw Ha] & Ho & Hg & _). rewrite E.
  by split_and!.
Qed.

(** A deletion while a run of the source is in progress does not hold.  The
    deletion turns the run in flight into one of deletion, which the guard of
    [reconcile] against deleted sources lets through: when the fetch that was
    under way completes, the deleted source asserts the networks it delivered,
    and they are denied again. *)
Theorem deleted_source_reasserted w ph session sid run w1 body res revision w2
    (Hreach : reached (w, ph)) (Hrun : _inflight_run (w_db w) sid = Some run)
    (Hserve : serve sha256 capacity ncpus session (DeleteFeed sid) w = (inr tt, w1))
    (Hfetched : _reconcile sha256 (run_id run) (parse_line_list body) w1 = (inr (res, revision), w2)) :
  (∃ source, threat_feed_source (w_db w2) !! sid = Some source ∧ is_deleted source = true) ∧
  (∀ c, asserts (w_db w2) sid c = true ↔ c ∈ cidrs (parse_line_list body)) ∧
  (∀ c, c ∈ cidrs (parse_line_list body) → c ∈ _global_cidrs (w_db w2)).
Proof.
  pose proof (reachable_feed _ _ _ _ _ _ Hreach) as Hok. simpl in Hok.
  destruct (reached_inv _ _ _ _ _ _ _ Hreach) as [_ Hd].
  destruct (delete_route_inr _ _ _ _ _ _ _ _ Hok Hserve) as (actor & run0 & s' & H & aj & E & _).
  destruct (delete_source_result sha256 sid actor (new_session (w_db w)) _ _ Hok Hd H) as (Hd' & [(source & Hs & Hdel & _) _] & _ & _ &
    (run1 & Hr1 & Hsrc & Htr & Hdry) & Hid).
  pose proof (serve_kfeed _ _ _ _ _ _ _ _ Hserve Hok) as Hok1.
  assert (feed_id source = sid) as Hsid by (eapply (fo_source_id _ Hok1); by rewrite E).
  rewrite (Hid _ Hrun) in Hr1. clear Hid Hserve H.
  assert (feed_sync_run (w_db w1) !! run_id run = Some run1) as Hr by (by rewrite E).
  destruct (reconcile_world_inr _ _ _ _ _ _ _ _ Hr Hfetched) as (s1 & s2 & run2 & [runs E1] & Ek & Hrec & aj2 & E2 & _).
  injection Ek as K1 K2 K3 K4 K5 K6.
  assert (live_source (db s1) run2 = Some source) as Hlive.
  { unfold live_source. rewrite E1, E, K2, Hsrc. simpl. rewrite Hs, K5, Htr. by rewrite andb_false_r. }
  destruct (reconcile_kept _ _ _ _ _ _ Hrec) as [Ks _].
  eapply (reconcile_inr sha256 run2 _ source) in Hrec
    as (_ & _ & Ha & _ & Hg & _); [|by eapply deny_ok_same; [|exact Hd']; rewrite E1, E|apply parse_wf|done|congruence].
  rewrite E2. split_and!.
  - exists source. simpl. by rewrite Ks, E1, E.
  - intros c. rewrite Hsid in Ha. apply (Ha c).
  - intros c Hc. apply (Hg c). by left.
Qed.

(** A pass of the schedule queues exactly the due sources.  Those it
    considers are enabled, not deleted, due and without a run queued or running,
    and all such sources are considered unless the limit is reached; each of
    them gets one new run, queued, with the next number of its source, no other
    source gets any, and the runs there were are as before. *)
Theorem schedule_queues_due w ph now limit n w'
    (Hreach : reached (w, ph)) (Hpass : enqueue_due_feed_syncs now limit w = (inr n, w')) :
  (∀ s, s ∈ list_due_sources (w_db w) now limit → due_now (w_db w) now s) ∧
  (Z.of_nat (length (list_due_sources (w_db w) now limit)) < limit →
   ∀ i s, threat_feed_source (w_db w) !! i = Some s → due_now (w_db w) now s →
     s ∈ list_due_sources (w_db w) now limit) ∧
  scheduled (list_due_sources (w_db w) now limit) (w_db w) (w_db w').
Proof.
  pose proof (reachable_feed _ _ _ _ _ _ Hreach) as Hok. simpl in Hok.
  split; [intros s Hs; by apply elem_of_due in Hs as [? _]|].
  split; [intros Hlen i s Hi Hd; apply elem_of_due; eauto|].
  unfold enqueue_due_feed_syncs, session_scope in Hpass.
  match type of Hpass with (match ?m with _ => _ end) = _ => destruct m as [[e|x] s'] eqn:Em end; [done|].
  injection Hpass as _ <-.
  destruct (callbacks_tables (post_commit_callbacks s') (w <| w_db := db s' |>)) as [(aj & E & _) _].
  unfold get_db in Em. rewrite run_gets in Em. apply bind_inr in Em as (u & s1 & Hall & Em).
  apply bind_inr in Em as (b & s2 & Hc%convergence_runs & [_ ->]%ret_inr).
  eapply enqueue_all_inr in Hall as [H1 H2 H3];
    [|done|by apply due_nodup|intros y ((_ & Hdel & _ & Hrest) & i & Hi)%elem_of_due].
  - change (scheduled (list_due_sources (w_db w) now limit) (w_db w) (w_db
      (run_post_commit_callbacks (post_commit_callbacks s2) (w <| w_db := db s2 |>)))).
    rewrite E. split; simpl; by rewrite Hc.
  - split_and!; [|done|done]. by rewrite (fo_source_id _ Hok _ _ Hi).
Qed.
End feeds.

(** ** Witnesses *)

Definition world3x : World := Eval vm_compute in
  (demo_serve root_session (DeleteFeed 13) world3f).2.
Definition late_body : list Z := py "11.0.0.0/8".
Definition refetched : World := Eval vm_compute in
  (_reconcile demo_sha 14 (parse_line_list late_body) world3x).2.
Definition refetch_result : ReconcileResult * option Z := Eval vm_compute in
  match (_reconcile demo_sha 14 (parse_line_list late_body) world3x).1 with
  | inr r => r
  | inl _ => (mkReconcileResult 0 0 0 0 false None true, None)
  end.

Lemma feed_ledger_consistent_witness :
  ∃ jid job, agent_job (w_db world3f) !! jid = Some job ∧ job_target job = TargetFeedRun 14.
Proof.
  destruct (feed_ledger_consistent demo_sha demo_capacity 4 demo_helper demo_fetch world3f Idle 14%positive
    demo_claimed world3f_reachable) as (_ & (jid & job & Hj & Ht & _) & _); [vm_compute; reflexivity|].
  exists jid, job. split; assumption.
Defined.

(** The source whose two networks are in force is deleted: the network denied by
    hand as well stays, the other one goes. *)
Definition world3h : World := Eval vm_compute in
  (demo_serve root_session (DeleteFeed 13) world3g).2.

Lemma deleted_source_withdrawn_witness :
  _global_cidrs (w_db world3g) = [Net 150994944 8; Net 167772160 8; Net 184549376 8] ∧
  _global_cidrs (w_db world3h) = [Net 150994944 8; Net 167772160 8] ∧
  withdrawn (w_db world3h) 13 ∧
  ¬ denied_otherwise (w_db world3g) 13 (Net 184549376 8).
Proof.
  destruct (deleted_source_withdrawn demo_sha demo_capacity 4 demo_helper demo_fetch world3g Idle
    root_session 13%positive world3h world3g_reachable ltac:(vm_compute; reflexivity)) as (H1 & _ & H2).
  split; [vm_compute; reflexivity|]. split; [vm_compute; reflexivity|]. split; [exact H1|].
  rewrite <- H2. assert (_global_cidrs (w_db world3h) = [Net 150994944 8; Net 167772160 8]) as ->
    by (vm_compute; reflexivity). set_solver.
Defined.

Lemma deleted_source_reasserted_witness :
  ¬ (Net 184549376 8 ∈ _global_cidrs (w_db world3x)) ∧ Net 184549376 8 ∈ _global_cidrs (w_db refetched).
Proof.
  split.
  - assert (_global_cidrs (w_db world3x) = [Net 150994944 8; Net 167772160 8]) as Eq
      by (vm_compute; reflexivity).
    rewrite Eq. set_solver.
  - apply (deleted_source_reasserted demo_sha demo_capacity 4 demo_helper demo_fetch world3f Idle
      root_session 13%positive demo_claimed world3x late_body refetch_result.1 refetch_result.2 refetched
      world3f_reachable); [vm_compute; reflexivity..|].
    assert (cidrs (parse_line_list late_body) = [Net 184549376 8]) as Eq by (vm_compute; reflexivity).
    rewrite Eq. left.
Defined.

(** A new source is due at once. *)
Definition world3p : World := Eval vm_compute in
  (demo_serve root_session (CreateFeed demo_feed) world3d).2.
Definition world3s : World := Eval vm_compute in (enqueue_due_feed_syncs 0 100 world3p).2.

Lemma world3p_reachable :
  reachable demo_sha demo_capacity 4 demo_helper demo_fetch (world3p, Idle).
Proof.
  destruct world3d_reachable as (x0 & Hi & Hs). exists x0. split; [done|]. etrans; [exact Hs|].
  apply (serve_all_steps [(root_session, CreateFeed demo_feed)]); vm_compute; reflexivity.
Qed.

Lemma schedule_queues_due_witness :
  length (list_due_sources (w_db world3p) 0 100) = 1%nat ∧
  scheduled (list_due_sources (w_db world3p) 0 100) (w_db world3p) (w_db world3s).
Proof.
  split; [vm_compute; reflexivity|].
  apply (schedule_queues_due demo_sha demo_capacity 4 demo_helper demo_fetch world3p Idle 0 100 1 world3s
    world3p_reachable). vm_compute. reflexivity.
Defined.
