(* ===== verification/AccountsSpec.v ===== *)
(** * Accounts and sessions: the transition system and its theorems *)

From S2P Require Import Prelude PyStr Ipaddress RuleMatch Models Db.
From S2P Require Import Services Isolation Api ApiInv SessionStore.
From S2P Require Import Accounts AccountsApi AccountsInv.
From stdpp Require Import pretty.
Import Deps.
Open Scope Z_scope.

Section accounts.
Context (token_urlsafe : nat → string) (idle_seconds absolute_seconds : Z).
Context (pwd_hash : nat → string → string) (pwd_verify : string → string → option bool).

Abbreviation arequest := (serve_account token_urlsafe idle_seconds absolute_seconds pwd_hash pwd_verify).

(** ** Steps

    Requests are atomic, except that the refresh of a session is split: another
    request may have read a session ([as_read]) and write it back later
    ([as_write]), after other requests have run.  [as_other] is everything that
    leaves users and tenants alone: the gateway's requests, the worker, time. *)

Definition AState : Type := AWorld * list (string * SessionData).

Inductive astep : AState → AState → Prop :=
  | as_account cookie r aw fl res aw' :
      arequest cookie r aw = (res, aw') → astep (aw, fl) (aw', fl)
  | as_bootstrap name pw aw fl res aw' :
      account_scope (bootstrap_admin pwd_hash name pw None) aw = (res, aw') → astep (aw, fl) (aw', fl)
  | as_read sid s aw fl :
      _read (clock (w_db (aw_world aw))) sid (aw_store aw) = Some s →
      _is_absolute_expired (clock (w_db (aw_world aw))) s = false →
      astep (aw, fl) (aw, (sid, refreshed (clock (w_db (aw_world aw))) s) :: fl)
  | as_write sid s aw fl :
      (sid, s) ∈ fl →
      astep (aw, fl)
        (aw <| aw_store := set_key idle_seconds (clock (w_db (aw_world aw))) sid s (aw_store aw) |>, fl)
  | as_other aw fl w' :
      users (w_db w') = users (w_db (aw_world aw)) →
      tenants (w_db w') = tenants (w_db (aw_world aw)) →
      (uuid_supply (w_db (aw_world aw)) <= uuid_supply (w_db w'))%positive →
      astep (aw, fl) (aw <| aw_world := w' |>, fl).

Definition ainitial (x : AState) : Prop :=
  w_db (aw_world x.1) = empty_db ∧ session_keys (aw_store x.1) = ∅ ∧ x.2 = [].
Definition areachable (x : AState) : Prop := ∃ x0, ainitial x0 ∧ rtc astep x0 x.

(** ** Copies of sessions, in the store and on their way to it *)

Definition copy (st : Store) (fl : list (string * SessionData)) (sid : string) (uid : uuid) (v : Z)
    : Prop :=
  held st sid uid v ∨
  ∃ s, (sid, s) ∈ fl ∧ sess_user_id s = uid ∧ sess_session_version s = v.

Definition drawn (st : Store) (sid : string) : Prop := ∃ n, (n < draws st)%nat ∧ sid = token_urlsafe n.

Record acc_ok (d : Db) (st : Store) (fl : list (string * SessionData)) : Prop := {
  ao_users : users_ok d;
  ao_copy : ∀ sid uid v, copy st fl sid uid v →
    drawn st sid ∧ (uid < uuid_supply d)%positive ∧
    ∀ u, users d !! uid = Some u → v <= user_session_version u
}.

(** No copy of [sid] speaks for [uid] any more. *)
Definition dead (d : Db) (st : Store) (fl : list (string * SessionData)) (sid : string) (uid : uuid)
    : Prop :=
  drawn st sid ∧ (uid < uuid_supply d)%positive ∧
  ∀ v u, copy st fl sid uid v → users d !! uid = Some u → v < user_session_version u.

Hypothesis token_inj : Inj eq eq token_urlsafe.

Lemma copy_step d st st' fl sid uid v :
  store_step token_urlsafe d st st' → copy st' fl sid uid v →
  copy st fl sid uid v ∨ (∃ n u, (draws st <= n < draws st')%nat ∧ sid = token_urlsafe n ∧
    users d !! uid = Some u ∧ v = user_session_version u).
Proof.
  intros [_ Hs] [H|H]; [|left; by right]. destruct (Hs _ _ _ H) as [?|?]; [left; by left|by right].
Qed.

Lemma drawn_le st st' sid : (draws st <= draws st')%nat → drawn st sid → drawn st' sid.
Proof. intros Hle (n & Hn & ->). exists n. split; [lia|done]. Qed.

Lemma move_ok d d' st st' fl :
  users_ok d' → users_step d d' → store_step token_urlsafe d st st' → acc_ok d st fl →
  acc_ok d' st' fl ∧ ∀ sid uid, dead d st fl sid uid → dead d' st' fl sid uid.
Proof.
  intros Hok' [Hsup Hu] Hs [Hok Hc]. pose proof (proj1 Hs) as Hdr. split; [split; [done|]|].
  - intros sid uid v [Hcp|(n & u & Hn & -> & Hux & ->)]%(copy_step d st); [| |done].
    + destruct (Hc _ _ _ Hcp) as (H1 & H2 & H3). split_and!; [by eapply drawn_le|lia|].
      intros u' Hu'. destruct (Hu _ _ Hu') as [(u & Hux & Hv)|?]; [|lia].
      specialize (H3 u Hux). lia.
    + destruct (uo_id _ Hok _ _ Hux) as [_ Hlt]. split_and!; [exists n; split; [lia|done]|lia|].
      intros u' Hu'. destruct (Hu _ _ Hu') as [(u0 & Hu0 & Hv)|?]; [|lia]. simplify_eq. done.
  - intros sid uid (H1 & H2 & H3). split_and!; [by eapply drawn_le|lia|].
    intros v u' [Hcp|(n & u & Hn & -> & Hux & ->)]%(copy_step d st) Hu'; [| |done].
    + destruct (Hu _ _ Hu') as [(u & Hux & Hv)|?]; [|lia]. specialize (H3 v u Hcp Hux). lia.
    + destruct H1 as (m & Hm & E). apply token_inj in E. lia.
Qed.

(** ** A request, whatever its outcome *)

Lemma route_store cookie r c res c' :
  users_ok (db (cx_tx c)) →
  account_route token_urlsafe idle_seconds absolute_seconds pwd_hash pwd_verify cookie r c = (res, c') →
  store_step token_urlsafe (db (cx_tx c)) (cx_store c) (cx_store c') ∨
  ∃ current new, r = ChangePassword current new ∧ res = inr tt.
Proof.
  intros Hok H.
  assert ((∃ a b, r = Login a b) ∨ (∃ a b, r = ChangePassword a b) ∨
    match r with Login _ _ | ChangePassword _ _ => False | _ => True end) as [(name & pw & ->)|[(cur & new & ->)|Hr]]
    by (destruct r; eauto).
  3: { left. apply store_le_step. by eapply route_shrinks. }
  all: cbn [account_route] in H.
  - left. rewrite bind_run in H. unfold AuthRouter.login in H. rewrite bind_run in H.
    destruct (login _ _ _ _ _ _ _ _) as [x c1] eqn:El.
    assert (c' = c1) as -> by (destruct x; by injection H).
    destruct (login_cases _ _ _ _ _ _ _ _ _ _ Hok El) as [[_ ->]|(u & (Hu & _) & Ht)]; [by apply store_le_step|].
    destruct (login_tail_run token_urlsafe idle_seconds absolute_seconds u None c Hok Hu)
      as (c2 & E & _ & Hd & Hh).
    assert (c2 = c1) as -> by congruence. split; [lia|]. intros sid uid v Hx.
    destruct (Hh _ _ _ Hx) as [?|(-> & -> & ->)]; [by left|right].
    exists (draws (cx_store c)), u. split_and!; [lia|lia|done..].
  - destruct res as [e|[]]; [|right; eauto]. left. apply store_le_step.
    unfold AuthRouter.change_password, _load_actor, get_db in H. rewrite bind_run in H.
    assert (shrinks (get_current_user idle_seconds cookie)) as Hsh by shrinks_auto.
    destruct (get_current_user idle_seconds cookie c) as [[e1|p] c1] eqn:Eg.
    { injection H as <- <-. by eapply Hsh. }
    destruct (caller_inr _ _ _ _ _ Hok Eg) as (sid & u & -> & Hp & Hu & _ & _ & _ & _ & E & Hle & _).
    destruct (uo_id _ Hok _ _ Hu) as [Hid _].
    rewrite bind_run in H. unfold in_tx at 1, gets in H. cbn in H. rewrite E, Hu, run_get_some, bind_run in H.
    destruct (change_own_password _ _ _ _ _ _ _ _ _) as [[e2|u1] c2] eqn:Ec; [|done].
    injection H as <- <-.
    destruct (change_cases idle_seconds pwd_hash pwd_verify u (p_session_id p) cur
      new None (mkCtx (cx_tx c) (cx_store c1)) _ _ Hok ltac:(by rewrite Hid) Ec)
      as [[_ ->]|(u1 & ? & _)]; done.
Qed.

Abbreviation opened aw := (mkCtx (new_session (w_db (aw_world aw))) (aw_store aw)).

(** A table the callbacks do not touch. *)
Lemma callbacks_accounts cbs w :
  users (w_db (run_post_commit_callbacks cbs w)) = users (w_db w) ∧
  tenants (w_db (run_post_commit_callbacks cbs w)) = tenants (w_db w) ∧
  uuid_supply (w_db (run_post_commit_callbacks cbs w)) = uuid_supply (w_db w) ∧
  clock (w_db (run_post_commit_callbacks cbs w)) = clock (w_db w).
Proof.
  revert w. induction cbs as [|x cbs IH]; intros w; [done|].
  change (run_post_commit_callbacks (x :: cbs) w) with
    (run_post_commit_callbacks cbs (dispatch w (callback_job x))).
  destruct (IH (dispatch w (callback_job x))) as (-> & -> & -> & ->).
  unfold dispatch. by destruct (w_redis_up w).
Qed.

(** The database of a request after it, as far as accounts go. *)
Lemma account_scope_cases {A} (m : M Ctx A) aw res aw' :
  account_scope m aw = (res, aw') →
  ∃ c', m (opened aw) = (res, c') ∧
    aw_store aw' = cx_store c' ∧
    let d' := match res with inr _ => db (cx_tx c') | inl _ => w_db (aw_world aw) end in
    umoves d' (w_db (aw_world aw')) ∧
    users (w_db (aw_world aw')) = users d' ∧ tenants (w_db (aw_world aw')) = tenants d' ∧
    clock (w_db (aw_world aw')) = clock d'.
Proof.
  unfold account_scope. destruct (m _) as [[e|a] c'] eqn:E; intros [= <- <-]; exists c'.
  - split_and!; [done..| |done|done|done]. apply umoves_same; [done..|]. simpl. lia.
  - cbn [aw_world aw_store]. destruct (callbacks_accounts (post_commit_callbacks (cx_tx c'))
      (aw_world aw <| w_db := db (cx_tx c') |>)) as (E1 & E2 & E3 & E4).
    split_and!; [done..| |exact E1|exact E2|exact E4]. apply umoves_same; [exact E1|exact E2|].
    apply Pos.le_lteq. right. symmetry. exact E3.
Qed.

Lemma scope_raise_audit {A} (m : M Ctx A) aw e aw' :
  account_scope m aw = (inl e, aw') →
  audit_events (w_db (aw_world aw')) = audit_events (w_db (aw_world aw)).
Proof. unfold account_scope. by destruct (m _) as [[?|?] c']; intros [= _ <-]. Qed.

(** A committed password change. *)
Lemma change_ok d d' st st' fl sid u u1 :
  user_edit d d' (user_id u) u u1 → user_session_version u1 = user_session_version u + 1 →
  held st sid (user_id u) (user_session_version u) →
  kept_current sid (user_session_version u1) st st' → acc_ok d st fl →
  acc_ok d' st' fl ∧ ∀ k uid, dead d st fl k uid → dead d' st' fl k uid.
Proof.
  intros He Hv Hh [Hdr Hk] [Hok Hc]. destruct (ue_moves _ _ _ _ _ He Hok) as [Hok' [Hsup Hu]].
  assert (∀ k uid v, copy st' fl k uid v →
    copy st fl k uid v ∨ (k = sid ∧ v = user_session_version u1 ∧ uid = user_id u)) as Hcopy.
  { intros k uid v [H|H]; [|left; by right]. destruct (Hk _ _ _ H) as [?|(-> & -> & w0 & Hw0)].
    - left. by left.
    - right. split_and!; try done. destruct Hw0 as (e & He1 & Hu1 & _).
      destruct Hh as (e' & He2 & Hu2 & _). congruence. }
  assert (users d' !! user_id u = Some u1) as Hu1 by (rewrite (ue_users _ _ _ _ _ He); apply lookup_insert_eq).
  pose proof (ue_before _ _ _ _ _ He) as Hu0.
  split; [split; [done|]|].
  - intros k uid v [Hcp|(-> & -> & ->)]%Hcopy.
    + destruct (Hc _ _ _ Hcp) as (H1 & H2 & H3). split_and!; [by eapply drawn_le|lia|].
      intros u' Hu'. destruct (Hu _ _ Hu') as [(x & Hx & Hv')|?]; [|lia]. specialize (H3 x Hx). lia.
    + destruct (Hc _ _ _ (or_introl Hh)) as (H1 & H2 & _). split_and!; [by eapply drawn_le|lia|].
      intros u' Hu'. simplify_eq. lia.
  - intros k uid (H1 & H2 & H3). split_and!; [by eapply drawn_le|lia|].
    intros v u' [Hcp|(-> & -> & ->)]%Hcopy Hu'.
    + destruct (Hu _ _ Hu') as [(x & Hx & Hv')|?]; [|lia]. specialize (H3 v x Hcp Hx). lia.
    + specialize (H3 _ _ (or_introl Hh) Hu0). lia.
Qed.

Abbreviation ok x := (acc_ok (w_db (aw_world x.1)) (aw_store x.1) x.2).
Abbreviation gone x := (dead (w_db (aw_world x.1)) (aw_store x.1) x.2).

Lemma store_refl d st : store_step token_urlsafe d st st.
Proof. by apply store_le_step. Qed.

Lemma scope_ok {A} (m : M Ctx A) aw res aw' fl :
  account_scope m aw = (res, aw') → ok (aw, fl) →
  (∀ c', m (opened aw) = (res, c') →
     let d' := match res with inr _ => db (cx_tx c') | inl _ => w_db (aw_world aw) end in
     acc_ok d' (cx_store c') fl ∧
     ∀ sid uid, gone (aw, fl) sid uid → dead d' (cx_store c') fl sid uid) →
  ok (aw', fl) ∧ ∀ sid uid, gone (aw, fl) sid uid → gone (aw', fl) sid uid.
Proof.
  intros H Hok Hm. destruct (account_scope_cases _ _ _ _ H) as (c' & Hc & Est & Hmv & Eu & _).
  destruct (Hm c' Hc) as [Hok1 Hd1]. destruct (Hmv (ao_users _ _ _ Hok1)) as [Huo Hst].
  cbn [fst snd] in *. rewrite Est.
  destruct (move_ok _ _ (cx_store c') (cx_store c') fl Huo Hst (store_refl _ _) Hok1) as [H1 H2].
  split; [exact H1|]. auto.
Qed.

Lemma astep_ok x y :
  astep x y → ok x → ok y ∧ ∀ sid uid, gone x sid uid → gone y sid uid.
Proof.
  destruct 1 as [cookie r aw fl res aw' H|name pw aw fl res aw' H|sid s aw fl Hr He|sid s aw fl Hin
    |aw fl w' Eu Et Es]; intros Hok.
  - eapply scope_ok; [exact H|exact Hok|]. intros c' Hc d'. cbn [fst snd] in *.
    pose proof (ao_users _ _ _ Hok) as Huo.
    destruct (route_store _ _ (opened aw) _ _ Huo Hc) as [Hs|(cur & new & -> & ->)].
    + destruct res as [e|[]]; subst d'.
      * by apply (move_ok (w_db (aw_world aw)) _ (aw_store aw)).
      * destruct (route_commits _ _ _ _ _ _ _ (opened aw) _ Hc Huo) as [Hm _].
        destruct (Hm Huo). by apply (move_ok (w_db (aw_world aw)) _ (aw_store aw)).
    + subst d'. destruct (change_password_inr _ _ _ _ _ _ (opened aw) _ Huo Hc)
        as (sid & u & u1 & _ & He & _ & Hv & Hh & Hk). by eapply change_ok.
  - eapply scope_ok; [exact H|exact Hok|]. intros c' Hc d'. cbn [fst snd] in *.
    pose proof (ao_users _ _ _ Hok) as Huo.
    assert (shrinks (bootstrap_admin pwd_hash name pw None)) as Hsh by shrinks_auto.
    pose proof (store_le_step token_urlsafe (w_db (aw_world aw)) _ _ (Hsh _ _ _ Hc)) as Hs.
    destruct res as [e|u]; subst d'.
    + by apply (move_ok (w_db (aw_world aw)) _ (aw_store aw)).
    + destruct (bootstrap_inr _ _ _ _ _ _ _ Hc) as [Hm _]. destruct (Hm Huo).
      by apply (move_ok (w_db (aw_world aw)) _ (aw_store aw)).
  - destruct Hok as [Huo Hc]. cbn [fst snd] in *.
    apply read_held in Hr as [Hh _].
    assert (∀ k uid v, copy (aw_store aw) ((sid, refreshed (clock (w_db (aw_world aw))) s) :: fl) k uid v →
      copy (aw_store aw) fl k uid v) as Hcopy.
    { intros k uid v [?|(x & [[= -> ->]|?]%elem_of_cons & <- & <-)]; [by left|by left|right; eauto]. }
    split; [split; [done|]; eauto|]. intros k uid (H1 & H2 & H3). split_and!; try done. eauto.
  - destruct Hok as [Huo Hc]. cbn [fst snd aw_world aw_store] in *.
    assert (∀ k uid v, copy (set_key idle_seconds (clock (w_db (aw_world aw))) sid s (aw_store aw)) fl k uid v →
      copy (aw_store aw) fl k uid v) as Hcopy.
    { intros k uid v [(e & Hl & Hu & Hv)|?]; [|by right]. simpl in Hl.
      apply lookup_insert_Some in Hl as [[<- <-]|[_ Hl]]; [right; eauto|left; by exists e]. }
    split; [split; [done|]; eauto|]. intros k uid (H1 & H2 & H3). split_and!; try done. eauto.
  - cbn [fst snd] in *. destruct (umoves_same _ _ Eu Et Es (ao_users _ _ _ Hok)).
    by apply (move_ok (w_db (aw_world aw)) _ (aw_store aw)); [..|apply store_refl|].
Qed.

Lemma initial_ok x : ainitial x → ok x.
Proof.
  intros (Hdb & Hs & Hf). rewrite Hdb, Hf. split; [by split|].
  intros sid uid v [(e & He & _)|(s & []%not_elem_of_nil & _)]. by rewrite Hs in He.
Qed.

Lemma areachable_ok x : areachable x → ok x.
Proof.
  intros (x0 & Hi%initial_ok & Hr). induction Hr as [|x y z Hxy _ IH]; [done|]. apply IH. by eapply astep_ok.
Qed.
(** ** Revocation *)

(** Requests that take a user's access away. *)
Definition revokes (d : Db) (r : account_request) (uid : uuid) : Prop :=
  match r with
  | DeleteUser u | ResetPassword u _ => u = uid
  | UpdateUser u p => u = uid ∧ ∃ x, users d !! uid = Some x ∧
      (scope_changes x (up_role p) (up_tenant_id p) = true ∨
       ∃ st, up_status p = Some st ∧ user_status x ≠ st)
  | _ => False
  end.

(** [sid] is accepted as a session of [uid]. *)
Definition authenticates (aw : AWorld) (sid : string) (uid : uuid) : Prop :=
  ∃ p c', get_current_user idle_seconds (Some sid) (opened aw) = (inr p, c') ∧ p_user_id p = uid.

Lemma dead_refused x sid uid : ok x → gone x sid uid → ¬ authenticates x.1 sid uid.
Proof.
  intros Hok (_ & _ & Hd) (p & c' & H & <-).
  destruct (caller_inr _ _ (opened x.1) _ _ (ao_users _ _ _ Hok) H)
    as (s & u & [= <-] & _ & Hu & _ & _ & Hh & _).
  specialize (Hd _ _ (or_introl Hh) Hu). lia.
Qed.

(** The version moves past every session's. *)
Definition overtaken (d d' : Db) (uid : uuid) : Prop :=
  ∃ u0, users d !! uid = Some u0 ∧
    ∀ u', users d' !! uid = Some u' → user_session_version u0 < user_session_version u'.

Lemma edit_overtakes d d' uid u0 u1 :
  user_edit d d' uid u0 u1 → user_session_version u0 < user_session_version u1 → overtaken d d' uid.
Proof.
  intros [H1 _ H3 _ _] Hv. exists u0. split; [done|]. rewrite H3. intros u'. rewrite lookup_insert_eq.
  by intros [= <-].
Qed.

Lemma revokes_overtakes cookie r c c' uid :
  users_ok (db (cx_tx c)) → revokes (db (cx_tx c)) r uid →
  account_route token_urlsafe idle_seconds absolute_seconds pwd_hash pwd_verify cookie r c = (inr tt, c') →
  overtaken (db (cx_tx c)) (db (cx_tx c')) uid.
Proof.
  intros Hok Hr H. destruct r; cbn [revokes account_route] in *; try done.
  - destruct Hr as [-> (x & Hx & Hr)]. unfold UsersRouter.update_user in H.
    apply bind_inr in H as (actor & c1 & [E _]%admin_actor_inr & H); [|done].
    rewrite <- E in Hok, Hx |- *. apply bind_inr in H as (u1 & c2 & H1 & H).
    destruct (update_user_inr _ _ _ _ _ _ _ _ _ Hok H1) as (u0 & He & _ & Hv & Hs).
    pose proof (ue_before _ _ _ _ _ He) as Hu0. assert (x = u0) as -> by congruence.
    destruct (up_status payload) as [st|] eqn:Es.
    + apply bind_inr in H as (u2 & c3 & H2 & [_ ->]%ret_inr).
      destruct (ue_moves _ _ _ _ _ He Hok) as [Hok2 _].
      destruct (set_status_inr _ _ _ _ _ _ _ Hok2 H2) as (y & He2 & _ & Hv2 & _).
      pose proof (ue_before _ _ _ _ _ He2) as Hy. rewrite (ue_users _ _ _ _ _ He), lookup_insert_eq in Hy.
      injection Hy as <-. exists u0. split; [done|]. rewrite (ue_users _ _ _ _ _ He2). intros u'.
      rewrite lookup_insert_eq. intros [= <-]. rewrite Hv2, Hs, Hv.
      destruct Hr as [->|(st' & [= <-] & Hne)]; [cbv iota; match goal with |- context [if ?b then _ else _] => destruct b end; lia|].
      rewrite bool_decide_false by done. destruct (scope_changes _ _ _); lia.
    + apply ret_inr in H as [_ ->]. destruct Hr as [Hsc|(? & ? & _)]; [|done].
      eapply edit_overtakes; [exact He|]. rewrite Hsc in Hv. lia.
  - subst. unfold UsersRouter.delete_user in H.
    apply bind_inr in H as (actor & c1 & [E _]%admin_actor_inr & H); [|done]. rewrite <- E in Hok |- *.
    destruct (delete_user_inr _ _ _ _ _ _ Hok H) as (u0 & Hu0 & _ & Eu & _). exists u0.
    split; [done|]. intros u'. by rewrite Eu, lookup_delete_eq.
  - subst. unfold UsersRouter.reset_password in H.
    apply bind_inr in H as (actor & c1 & [E _]%admin_actor_inr & H); [|done]. rewrite <- E in Hok |- *.
    apply bind_inr in H as (u1 & c2 & H & [_ ->]%ret_inr).
    destruct (reset_password_inr _ _ _ _ _ _ _ _ Hok H) as (u0 & He & _ & Hv).
    eapply edit_overtakes; [exact He|lia].
Qed.

Lemma revokes_kills cookie r aw fl aw' uid sid :
  ok (aw, fl) → revokes (w_db (aw_world aw)) r uid → arequest cookie r aw = (inr tt, aw') →
  drawn (aw_store aw) sid → gone (aw', fl) sid uid.
Proof.
  intros Hok Hr H Hd. pose proof (ao_users _ _ _ Hok) as Huo.
  destruct (account_scope_cases _ _ _ _ H) as (c' & Hc & Est & Hmv & Eu & _). cbn [fst snd] in *.
  destruct (revokes_overtakes _ _ (opened aw) _ _ Huo Hr Hc) as (u0 & Hu0 & Hov).
  destruct (route_commits _ _ _ _ _ _ _ (opened aw) _ Hc Huo) as [Hm _].
  destruct (Hm Huo) as [Huo1 [Hs1 _]]. destruct (Hmv Huo1) as [_ [Hs2 _]].
  assert (store_le (aw_store aw) (cx_store c')) as [Hdr Hle].
  { refine (route_shrinks _ _ _ _ _ cookie r _ _ _ _ Hc). by destruct r. }
  destruct (uo_id _ Huo _ _ Hu0) as [_ Hlt]. cbn [db cx_tx new_session] in Hs1. rewrite Est. split_and!.
  - by eapply drawn_le.
  - lia.
  - intros v u Hcp. rewrite Eu. intros Hu. specialize (Hov u Hu).
    assert (copy (aw_store aw) fl sid uid v) as Hcp' by (destruct Hcp; [left; auto|by right]).
    destruct (ao_copy _ _ _ Hok _ _ _ Hcp') as (_ & _ & Hv). specialize (Hv _ Hu0). lia.
Qed.

Lemma steps_keep_dead x y sid uid : rtc astep x y → ok x → gone x sid uid → ok y ∧ gone y sid uid.
Proof.
  induction 1 as [|x y z Hxy _ IH]; [done|]. intros Hok Hg. destruct (astep_ok _ _ Hxy Hok). auto.
Qed.

(** C22: once an administrator's request that deletes a user, resets the
    user's password, or changes the user's role, tenant or status is answered,
    no session handed out before it is ever accepted for that user again:
    neither one still in the store, nor one that a concurrent request had read
    and writes back later, whatever requests follow. *)
Theorem revoked_sessions_stay_dead cookie r aw fl aw' uid sid y :
  areachable (aw, fl) → arequest cookie r aw = (inr tt, aw') →
  revokes (w_db (aw_world aw)) r uid → drawn (aw_store aw) sid →
  rtc astep (aw', fl) y → ¬ authenticates y.1 sid uid.
Proof.
  intros Hreach H Hr Hd Hy. pose proof (areachable_ok _ Hreach) as Hok.
  destruct (astep_ok (aw, fl) (aw', fl)) as [Hok' _]; [exact (as_account _ _ _ _ _ _ H)|done|].
  destruct (steps_keep_dead _ _ sid uid Hy Hok') as [Hoky Hg];
    [exact (revokes_kills _ _ _ _ _ _ _ Hok Hr H Hd)|].
  by apply dead_refused.
Qed.

(** ** The administrators *)

Lemma route_needs_user cookie r c c' :
  users_ok (db (cx_tx c)) →
  account_route token_urlsafe idle_seconds absolute_seconds pwd_hash pwd_verify cookie r c = (inr tt, c') →
  ∃ i u, users (db (cx_tx c)) !! i = Some u.
Proof.
  intros Hok H.
  assert (∀ {A} (k : Principal → M Ctx A) a, (get_current_user idle_seconds cookie ≫= k) c = (inr a, c') →
    ∃ i u, users (db (cx_tx c)) !! i = Some u) as Hcaller.
  { intros A k a (p & c1 & Hg & _)%bind_inr.
    destruct (caller_inr _ _ _ _ _ Hok Hg) as (_ & u & _ & _ & Hu & _). eauto. }
  assert (∀ (k : option User → M Ctx unit), (admin_actor idle_seconds cookie ≫= k) c = (inr tt, c') →
    ∃ i u, users (db (cx_tx c)) !! i = Some u) as Hadmin.
  { intros k (x & c1 & H1 & _)%bind_inr. unfold admin_actor in H1. apply bind_inr in H1 as (p & c2 & Hg & _).
    destruct (caller_inr _ _ _ _ _ Hok Hg) as (_ & u & _ & _ & Hu & _). eauto. }
  destruct r; cbn [account_route] in H; try (by eapply Hadmin); try (by eapply Hcaller).
  apply bind_inr in H as (x & c1 & H & _). unfold AuthRouter.login in H.
  apply bind_inr in H as (y & c2 & H & _).
  destruct (login_cases _ _ _ _ _ _ _ _ _ _ Hok H) as [[[e ?] _]|(u & (Hu & _) & _)]; [done|eauto].
Qed.

(** C27: in every reachable state there is either no user at all (before the
    bootstrap) or an active administrator: no request removes, disables or
    demotes the last one. *)
Theorem admin_always_present x :
  areachable x → users (w_db (aw_world x.1)) = ∅ ∨ has_admin (w_db (aw_world x.1)).
Proof.
  intros (x0 & Hi & Hr). pose proof (initial_ok _ Hi) as H0. destruct Hi as [Hdb _].
  assert (users (w_db (aw_world x0.1)) = ∅ ∨ has_admin (w_db (aw_world x0.1))) as Ha by (left; by rewrite Hdb).
  clear Hdb. induction Hr as [|x y z Hxy _ IH]; [done|].
  apply IH; [by eapply astep_ok|]. clear IH. pose proof (ao_users _ _ _ H0) as Huo.
  destruct Hxy as [cookie r aw fl res aw' H|name pw aw fl res aw' H| | |aw fl w' Eu Et Es];
    cbn [fst snd aw_world] in *; [| |done..|by unfold has_admin in *; simpl; rewrite Eu];
    destruct (account_scope_cases _ _ _ _ H) as (c' & Hc & _ & _ & Eu & _); unfold has_admin at 1; rewrite Eu;
    (destruct res as [e|a]; [exact Ha|]).
  - destruct a. destruct (route_needs_user _ _ (opened aw) _ Huo Hc) as (i & u & Hu).
    destruct Ha as [Ha|Ha]; [cbn in Hu; by rewrite Ha in Hu|]. right.
    destruct (route_commits _ _ _ _ _ _ _ (opened aw) _ Hc Huo) as [_ Hk]. exact (Hk Ha).
  - destruct (bootstrap_inr _ _ _ _ (opened aw) _ _ Hc) as [_ [->|(E & Hid & Hadm)]]; [exact Ha|].
    right. rewrite E. exists (user_id a), a. by rewrite lookup_insert_eq.
Qed.

(** ** Logging in *)

Lemma with_username_one d name u :
  users_ok d → users d !! user_id u = Some u → lower (user_username u) = lower name →
  with_username d name = [u].
Proof.
  intros Hok Hu Hn. apply (select_where_unique _ _ (user_id u)); [done|by apply citext_eq_true|].
  intros j v Hj Hv%citext_eq_true. symmetry. eapply (uo_name _ Hok); [exact Hu|exact Hj|congruence].
Qed.

Abbreviation the_login := (login token_urlsafe idle_seconds absolute_seconds pwd_verify).

Lemma login_accepted name pw ip c u :
  users_ok (db (cx_tx c)) → may_login pwd_verify (db (cx_tx c)) name pw u →
  the_login name pw ip c = login_tail token_urlsafe idle_seconds absolute_seconds u ip c.
Proof.
  intros Hok (Hu & Hn & Hv & Hs & Ht). unfold login. rewrite bind_run. unfold in_tx at 1, get_db, gets.
  cbn. rewrite (with_username_one _ _ _ Hok Hu Hn), bind_run. unfold in_tx at 1. cbn.
  rewrite Hv, bool_decide_true by done. cbn [negb]. rewrite bind_run. unfold in_tx at 1. cbn.
  destruct c as [tx st]. cbn in *.
  case_bool_decide as Er; cbn; [rewrite Ht by done|]; done.
Qed.

Lemma login_refused name pw ip c e c' :
  users_ok (db (cx_tx c)) → the_login name pw ip c = (inl e, c') →
  e = invalid_credentials ∧ ∀ u, ¬ may_login pwd_verify (db (cx_tx c)) name pw u.
Proof.
  intros Hok H. split.
  - unfold login in H. rewrite bind_run in H. unfold in_tx at 1, get_db, gets in H. cbn in H.
    rewrite bind_run in H. unfold in_tx at 1 in H. cbn in H.
    destruct (with_username (db (cx_tx c)) name) as [|u [|u' l]] eqn:Ew; cbn in H; [by injection H| |].
    + destruct (verify_password pwd_verify pw (user_password_hash u)); cbn in H; [|by injection H].
      assert (u ∈ with_username (db (cx_tx c)) name) as [_ [i Hi]]%elem_of_select by (rewrite Ew; left).
      destruct (uo_id _ Hok _ _ Hi) as [Hid _]. subst i.
      destruct (bool_decide_reflect (user_status u = user_active)); cbn in H; [|by injection H].
      rewrite bind_run in H. unfold in_tx at 1 in H. cbn in H.
      destruct (bool_decide (user_role u = tenant_user) && _) in H; [by injection H|].
      destruct (login_tail_run token_urlsafe idle_seconds absolute_seconds u ip
        (mkCtx (cx_tx c) (cx_store c)) Hok Hi) as (c1 & E & _).
      unfold login_tail in E. cbn in H, E. rewrite E in H. done.
    + exfalso. assert (u ∈ with_username (db (cx_tx c)) name) as [Hn [i Hi]]%elem_of_select by (rewrite Ew; left).
      rewrite (with_username_one _ _ u Hok) in Ew; [done| |by apply citext_eq_true].
      by destruct (uo_id _ Hok _ _ Hi) as [-> _].
  - intros u Hm. rewrite (login_accepted _ _ _ _ _ Hok Hm) in H. destruct Hm as [Hu _].
    destruct (login_tail_run token_urlsafe idle_seconds absolute_seconds u ip c Hok Hu) as (c1 & E & _). congruence.
Qed.

(** The new session is in the store, under its time. *)
Lemma login_tail_key u ip c r c' :
  login_tail token_urlsafe idle_seconds absolute_seconds u ip c = (r, c') →
  let now := clock (db (cx_tx c)) in let sid := token_urlsafe (draws (cx_store c)) in
  session_keys (cx_store c') !! sid =
    Some (mkStoredSession (mkSessionData sid (user_id u) (user_session_version u) now
      (now + seconds absolute_seconds) now ip) (now + seconds idle_seconds)).
Proof.
  intros H now sid. unfold login_tail in H. rewrite now_run in H. cbv beta zeta in H.
  rewrite bind_run in H.
  match type of H with context [create ?a ?b ?d ?e ?f ?g c] =>
    destruct (create a b d e f g c) as [x c1] eqn:Ec; injection Ec as <- <- end.
  assert (∀ B (m : M Session B) (k : B → M Ctx (string * User)) c2 y c3,
    (∀ b, k b = mret (sid, u <| user_last_login_at := Some now |>)) →
    (in_tx m ≫= k) c2 = (y, c3) → cx_store c3 = cx_store c2) as Htx.
  { intros B m k c2 y c3 Hk Hm. rewrite bind_run in Hm. unfold in_tx in Hm.
    destruct (m (cx_tx c2)) as [[e|b] t]; [|rewrite Hk in Hm]; by injection Hm as <- <-. }
  apply Htx in H; [|done]. rewrite H. cbn -[lookup insert]. by rewrite lookup_insert_eq.
Qed.

Lemma login_tail_clock u ip c r c' :
  login_tail token_urlsafe idle_seconds absolute_seconds u ip c = (inr r, c') →
  clock (db (cx_tx c')) = clock (db (cx_tx c)).
Proof.
  intros H. unfold login_tail in H. rewrite now_run in H. cbv beta zeta in H. cinv.
  match goal with H : create _ _ _ _ _ _ _ = _ |- _ => apply create_store_only in H as E end.
  match goal with H : flush_user _ _ = _ |- _ => apply flush_user_inr in H as (_ & _ & _ & ->) end.
  simpl. by rewrite E.
Qed.

(** A stored session under its times is read and written back. *)
Lemma get_run sid c e :
  session_keys (cx_store c) !! sid = Some e → clock (db (cx_tx c)) < ss_expires_at e →
  clock (db (cx_tx c)) < sess_absolute_expiry (ss_session e) →
  ∃ c', get idle_seconds sid c =
    (inr (Some (refreshed (clock (db (cx_tx c))) (ss_session e <| sess_sid := sid |>))), c') ∧
    cx_tx c' = cx_tx c.
Proof.
  intros He H1 H2. destruct (get idle_seconds sid c) as [r c'] eqn:Eg.
  pose proof (get_store_only _ _ _ _ _ Eg) as Etx. exists c'. split; [|done].
  unfold get in Eg. rewrite now_run in Eg. unfold get_store in Eg. rewrite run_gets in Eg.
  unfold _read, live in Eg. rewrite He, (proj2 (Z.ltb_lt _ _)) in Eg by exact H1.
  unfold _is_absolute_expired in Eg. rewrite (proj2 (Z.leb_gt _ _)) in Eg by exact H2.
  by injection Eg as <- <-.
Qed.

Lemma resolve_run (s : Session) session u :
  users (db s) !! sess_user_id session = Some u → user_status u = user_active →
  user_session_version u = sess_session_version session →
  (user_role u = tenant_user → tenant_is_active (db s) (user_tenant_id u) = true) →
  resolve_current_user (Some session) s =
    (inr (mkPrincipal (user_id u) (user_username u) (user_role u) (user_tenant_id u) (sess_sid session)), s).
Proof.
  intros Hu Hs Hv Ht. unfold resolve_current_user, get_db. mstep. rewrite Hu. mstep.
  rewrite (bool_decide_true _ Hs). mstep. rewrite Hv, Z.eqb_refl. mstep. unfold id.
  assert (negb (bool_decide (user_role u = tenant_user)) || tenant_is_active (db s) (user_tenant_id u) = true)
    as -> by (case_bool_decide; [by rewrite Ht|done]).
  by mstep.
Qed.

Lemma authenticates_key aw sid uid u :
  users (w_db (aw_world aw)) !! uid = Some u → user_id u = uid → user_status u = user_active →
  (user_role u = tenant_user → tenant_is_active (w_db (aw_world aw)) (user_tenant_id u) = true) →
  (∃ e, session_keys (aw_store aw) !! sid = Some e ∧ clock (w_db (aw_world aw)) < ss_expires_at e ∧
     clock (w_db (aw_world aw)) < sess_absolute_expiry (ss_session e) ∧
     sess_user_id (ss_session e) = uid ∧ sess_session_version (ss_session e) = user_session_version u) →
  authenticates aw sid uid.
Proof.
  intros Hu Hid Hs Ht (e & He & H1 & H2 & Hsu & Hsv). unfold authenticates, get_current_user.
  destruct (get_run sid (opened aw) e He H1 H2) as (c1 & Eg & Etx). rewrite bind_run, Eg. cbv iota beta.
  unfold in_tx. rewrite Etx, (resolve_run _ _ u); [by eexists _, _| |done|done|exact Ht].
  cbn. by rewrite Hsu.
Qed.

(** C28: a login is answered with a session exactly when the name (case
    aside) belongs to an active user with that password whose tenant, for a
    tenant user, is active; the session then authenticates as that user.
    Every other login fails with [Invalid credentials], whatever the reason,
    and the audit trail keeps no trace of it: the event the code records is
    rolled back. *)
Theorem login_authenticates name pw x res aw' :
  0 < idle_seconds → 0 < absolute_seconds → areachable x →
  account_scope (AuthRouter.login token_urlsafe idle_seconds absolute_seconds pwd_verify name pw) x.1 =
    (res, aw') →
  match res with
  | inr sid => ∃ u, may_login pwd_verify (w_db (aw_world x.1)) name pw u ∧
      authenticates aw' sid (user_id u)
  | inl e => e = invalid_credentials ∧
      (∀ u, ¬ may_login pwd_verify (w_db (aw_world x.1)) name pw u) ∧
      audit_events (w_db (aw_world aw')) = audit_events (w_db (aw_world x.1))
  end.
Proof.
  intros Hi Ha Hreach H. pose proof (ao_users _ _ _ (areachable_ok _ Hreach)) as Huo.
  destruct x as [aw fl]. cbn [fst snd] in *.
  destruct (account_scope_cases _ _ _ _ H) as (c' & Hc & Est & _ & Eu & Ete & Ecl).
  unfold AuthRouter.login in Hc. rewrite bind_run in Hc.
  destruct (the_login name pw None (opened aw)) as [[e|[sid u']] c1] eqn:El.
  { injection Hc as <- <-. apply login_refused in El as [-> ?]; [|done]. split_and!; [done..|].
    exact (scope_raise_audit _ _ _ _ H). }
  injection Hc as <- <-.
  destruct (login_cases _ _ _ _ _ _ _ (opened aw) _ _ Huo El) as [[[e ?] _]|(u & Hm & Ht)]; [done|].
  exists u. split; [done|]. destruct Hm as (Hu & _ & _ & Hs & Hten).
  destruct (login_tail_run token_urlsafe idle_seconds absolute_seconds u None (opened aw) Huo Hu)
    as (c2 & E & He & _).
  pose proof (login_tail_key _ _ _ _ _ E) as Hkey. rewrite E in Ht. injection Ht as <- <- <-.
  apply (authenticates_key _ _ _ (u <| user_last_login_at := Some (clock (w_db (aw_world aw))) |>)).
  - rewrite Eu, (ue_users _ _ _ _ _ He). by rewrite lookup_insert_eq.
  - done.
  - exact Hs.
  - unfold tenant_is_active. rewrite Ete, (ue_tenants _ _ _ _ _ He). exact Hten.
  - rewrite Est, Ecl, (login_tail_clock _ _ _ _ _ E). eexists. split; [exact Hkey|]. cbn. unfold seconds.
    split_and!; [lia..|done|done].
Qed.

Lemma logout_inr sid c c' :
  users_ok (db (cx_tx c)) → AuthRouter.logout idle_seconds (Some sid) c = (inr tt, c') →
  session_keys (cx_store c') !! sid = None ∧ users (db (cx_tx c')) = users (db (cx_tx c)) ∧
  tenants (db (cx_tx c')) = tenants (db (cx_tx c)) ∧ clock (db (cx_tx c')) = clock (db (cx_tx c)).
Proof.
  intros Hok H. unfold AuthRouter.logout, _load_actor, get_db in H.
  apply bind_inr in H as (p & c1 & Hg & H).
  destruct (caller_inr _ _ _ _ _ Hok Hg) as (k & _ & [= <-] & Hp & _ & _ & _ & _ & _ & E & _).
  rewrite <- E. clear E Hg. unfold logout in H. cinv. rewrite revoke_run in *. simplify_eq/=. split; [|done].
  unfold revoke_in. destruct (_read _ _ _); cbn; apply lookup_delete_eq.
Qed.

(** A tenant user speaks only while the tenant is active. *)
Lemma caller_tenant cookie c p c' u :
  users_ok (db (cx_tx c)) → get_current_user idle_seconds cookie c = (inr p, c') →
  users (db (cx_tx c)) !! p_user_id p = Some u → user_role u = tenant_user →
  tenant_is_active (db (cx_tx c)) (user_tenant_id u) = true.
Proof.
  intros Hok H Hu. destruct cookie as [sid|]; [|done]. unfold get_current_user in H.
  apply bind_inr in H as (session & c1 & Hg%get_store_only & (s & H & ->)%in_tx_inr). rewrite Hg in H.
  apply resolve_inr in H as [_ (sd & u' & _ & Hu' & _ & _ & -> & Ht)].
  destruct (uo_id _ Hok _ _ Hu') as [E _]. cbn in Hu. rewrite E in Hu. assert (u = u') as -> by congruence.
  exact Ht.
Qed.

(** The refresh of a session is a read and a later write without a
    condition.  A session that is logged out between the two is refused at
    first and accepted again after the write: the logout is undone. *)
Theorem logout_undone_by_refresh sid uid aw fl aw' :
  0 < idle_seconds → areachable (aw, fl) → authenticates aw sid uid →
  arequest (Some sid) Logout aw = (inr tt, aw') →
  ¬ authenticates aw' sid uid ∧
  ∃ s, astep (aw, fl) (aw, (sid, s) :: fl) ∧ astep (aw, (sid, s) :: fl) (aw', (sid, s) :: fl) ∧
    ∃ aw2, astep (aw', (sid, s) :: fl) (aw2, (sid, s) :: fl) ∧ authenticates aw2 sid uid.
Proof.
  intros Hidle Hreach (p & c0 & Hauth & <-) H.
  pose proof (ao_users _ _ _ (areachable_ok _ Hreach)) as Huo. cbn [fst snd] in Huo.
  destruct (account_scope_cases _ _ _ _ H) as (c' & Hc & Est & _ & Eu & Ete & Ecl).
  destruct (logout_inr _ (opened aw) _ Huo Hc) as (Hnone & Eu1 & Ete1 & Ecl1). rewrite <- Est in Hnone.
  cbn [cx_tx db new_session] in Eu1, Ete1, Ecl1. rewrite Eu1 in Eu. rewrite Ete1 in Ete. rewrite Ecl1 in Ecl.
  destruct (caller_inr _ _ (opened aw) _ _ Huo Hauth)
    as (k & u & [= <-] & _ & Hu & _ & Hs & Hh & _ & _ & _ & (e & He & Hx1 & Hx2)).
  cbn [cx_tx cx_store db new_session] in *. destruct (uo_id _ Huo _ _ Hu) as [Hid _].
  destruct Hh as (e' & He' & Hsu & Hsv). assert (e' = e) as -> by congruence.
  assert (_read (clock (w_db (aw_world aw))) sid (aw_store aw) = Some (ss_session e <| sess_sid := sid |>)) as Hr.
  { unfold _read, live. by rewrite He, (proj2 (Z.ltb_lt _ _)). }
  split.
  - intros (p2 & c2 & H2 & Hp2). assert (users_ok (w_db (aw_world aw'))) as Huo'.
    { destruct (astep_ok (aw, fl) (aw', fl)) as [Hok' _];
        [exact (as_account _ _ _ _ _ _ H)|by apply areachable_ok|apply Hok']. }
    destruct (caller_inr _ _ (opened aw') _ _ Huo' H2) as (k & _ & [= <-] & _ & _ & _ & _ & (e2 & He2 & _) & _).
    cbn in He2. congruence.
  - eexists. split_and!.
    + apply as_read; [exact Hr|]. unfold _is_absolute_expired. cbn. lia.
    + exact (as_account _ _ _ _ _ _ H).
    + eexists. split; [apply as_write; left|].
      apply (authenticates_key _ _ _ u); cbn -[lookup insert]; rewrite ?Eu; try done.
      * unfold tenant_is_active. rewrite Ete. exact (caller_tenant _ (opened aw) _ _ _ Huo Hauth Hu).
      * rewrite lookup_insert_eq. eexists. split; [done|]. cbn. unfold seconds. rewrite Ecl.
        split_and!; [lia|lia|done|done].
Qed.
End accounts.

(** ** Removing an administrator *)

(** What the guard answers, by the number of other active administrators. *)
Definition guard_outcome (others : nat) : option exn :=
  match others with
  | O => Some (HTTPException 409 "Cannot remove last admin")
  | S O => None
  | _ => Some MultipleResultsFound
  end.

Lemma guard_run u s :
  is_active_admin u = true →
  _ensure_not_last_active_admin u s =
    (match guard_outcome (length (other_active_admins (db s) (user_id u))) with
     | Some e => inl e | None => inr tt end, s).
Proof.
  intros Ha. unfold _ensure_not_last_active_admin, get_db. rewrite Ha. cbn [negb]. mstep.
  by destruct (other_active_admins (db s) (user_id u)) as [|v [|v' l]].
Qed.

Lemma in_tx_run {A B} (m : M Session A) (k : A → M Ctx B) tx st r tx' :
  m tx = (r, tx') →
  (in_tx m ≫= k) (mkCtx tx st) =
    match r with inl e => (inl e, mkCtx tx' st) | inr a => k a (mkCtx tx' st) end.
Proof. intros H. rewrite bind_run. unfold in_tx. cbn [cx_tx]. rewrite H. by destruct r. Qed.

Lemma existing_user_run uid u s :
  users (db s) !! uid = Some u → _get_existing_user uid s = (inr u, s).
Proof. intros Hu. unfold _get_existing_user, get_db. by rewrite run_gets, Hu. Qed.

Lemma disable_run actor u ip tx st :
  users_ok (db tx) → users (db tx) !! user_id u = Some u → is_active_admin u = true →
  match guard_outcome (length (other_active_admins (db tx) (user_id u))) with
  | Some e => (set_status actor (user_id u) user_disabled ip (mkCtx tx st)).1 = inl e
  | None => ∃ u', (set_status actor (user_id u) user_disabled ip (mkCtx tx st)).1 = inr u' ∧
      user_status u' = user_disabled
  end.
Proof.
  intros Hok Hu Ha. pose proof (guard_run u tx Ha) as Er.
  unfold set_status. rewrite (in_tx_run _ _ _ _ _ _ (existing_user_run _ _ _ Hu)).
  rewrite (bool_decide_true (user_disabled = user_disabled)) by done. rewrite (in_tx_run _ _ _ _ _ _ Er).
  destruct (guard_outcome _) as [e|]; [done|].
  assert (bool_decide (user_status u = user_disabled) = false) as ->.
  { apply bool_decide_eq_false. unfold is_active_admin in Ha.
    apply andb_true_iff in Ha as [_ Ha%bool_decide_eq_true]. by rewrite Ha. }
  rewrite bind_run. unfold _bump_version_and_revoke. cbv zeta. rewrite bind_run. cbn [revoke_all redis modS].
  set (u1 := u <| user_status := user_disabled |> <| user_session_version := _ |>).
  assert (∀ st', ((in_tx (flush_user u1 ;; user_event (same_object actor u1) "user.status" u1 "success" ip
    (Some [("status"%string, JStr (user_status_value user_disabled))])) ;; mret u1) (mkCtx tx st')).1 =
    inr u1) as Hrun.
  { intros st'. rewrite bind_run. unfold in_tx. cbn [cx_tx]. rewrite bind_run.
    by rewrite (flush_user_run tx u u1 Hok Hu). }
  exists u1. split; [apply Hrun|done].
Qed.

(** Deleting or disabling an active administrator succeeds when exactly
    one other active administrator exists and is refused when there is none;
    with two or more others the guard's query raises [MultipleResultsFound],
    so that with three active administrators none of them can be removed. *)
Theorem removing_an_admin actor uid u ip c :
  users_ok (db (cx_tx c)) → users (db (cx_tx c)) !! uid = Some u → is_active_admin u = true →
  match guard_outcome (length (other_active_admins (db (cx_tx c)) uid)) with
  | Some e =>
      (delete_user actor uid ip c).1 = inl e ∧ (set_status actor uid user_disabled ip c).1 = inl e
  | None =>
      (delete_user actor uid ip c).1 = inr tt ∧
      ∃ u', (set_status actor uid user_disabled ip c).1 = inr u' ∧ user_status u' = user_disabled
  end.
Proof.
  intros Hok Hu Ha. destruct (uo_id _ Hok _ _ Hu) as [<- _]. destruct c as [tx st]. cbn [cx_tx] in *.
  pose proof (disable_run actor u ip tx st Hok Hu Ha) as Hd. pose proof (guard_run u tx Ha) as Er.
  unfold delete_user. rewrite (in_tx_run _ _ _ _ _ _ (existing_user_run _ _ _ Hu)), (in_tx_run _ _ _ _ _ _ Er).
  by destruct (guard_outcome _).
Qed.

(** ** Deleting a tenant *)

(** A tenant without users whose allocations are all revoked has no
    blocker, but the rows of the revoked allocations still refer to it: its
    deletion fails with an integrity error instead of a conflict. *)
Theorem revoked_allocations_block_delete actor t tn aid a ip s :
  tenants (db s) !! t = Some tn → tenant_id tn = t → tenant_users (db s) t = [] →
  allocated_cidr (db s) !! aid = Some a → alloc_tenant_id a = t →
  (∀ k b, allocated_cidr (db s) !! k = Some b → alloc_tenant_id b = t → alloc_status b = cidr_revoked) →
  _delete_blockers (db s) t = [] ∧
  (delete_tenant actor t ip s).1 = inl (IntegrityError "tenants_restrict_fkey").
Proof.
  intros Ht Hid Hus Ha Hat Hrev.
  assert (_delete_blockers (db s) t = []) as Hb.
  { unfold _delete_blockers. rewrite Hus.
    rewrite (proj2 (select_where_nil _ (allocated_cidr (db s)))); [done|].
    intros k b Hk. destruct (bool_decide_reflect (alloc_tenant_id b = t)) as [E|]; [|done].
    by rewrite (Hrev k b Hk E). }
  split; [done|]. unfold delete_tenant, _get_existing_tenant, get_db. mstep. rewrite Ht. mstep.
  rewrite Hb, (bool_decide_true ([] = [])) by done.
  unfold tenant_event, record_event, utc_now, get_db, mod_db, delete_tenant_row. mstep.
  assert (∀ d, allocated_cidr d = allocated_cidr (db s) → tenant_referenced d (tenant_id tn) = true) as E.
  { intros d Ed. unfold tenant_referenced. rewrite Hid, Ed. apply orb_true_iff. left. apply orb_true_iff. right.
    apply negb_true_iff, bool_decide_eq_false. rewrite select_where_nil. intros Hn.
    specialize (Hn aid a Ha). by rewrite bool_decide_true in Hn. }
  unfold get_db. mstep. unfold id. rewrite E by done. by mstep.
Qed.

(** ** A concrete run *)

Definition demo_token (n : nat) : string := nat_str n.
Definition demo_hash (salt : nat) (plain : string) : string := plain.
Definition demo_verify (plain hashed : string) : option bool := Some (bool_decide (plain = hashed)).

#[global] Instance demo_token_inj : Inj eq eq demo_token.
Proof. intros a b H. apply Nat2N.inj. by apply (inj pretty). Qed.

Abbreviation demo_account := (serve_account demo_token 1800 43200 demo_hash demo_verify).
Abbreviation demo_astep := (astep demo_token 1800 43200 demo_hash demo_verify).
Abbreviation demo_areachable := (areachable demo_token 1800 43200 demo_hash demo_verify).

Definition run_accounts (rs : list (option string * account_request)) (aw : AWorld) : AWorld :=
  foldl (fun aw r => (demo_account r.1 r.2 aw).2) aw rs.

Lemma run_accounts_steps rs aw fl : rtc demo_astep (aw, fl) (run_accounts rs aw, fl).
Proof.
  revert aw. induction rs as [|[ck r] rs IH]; intros aw; [done|]. eapply rtc_l; [|apply IH].
  simpl. destruct (demo_account ck r aw) eqn:E. by eapply as_account.
Qed.

Definition aworld0 : AWorld := mkAWorld (mkWorld empty_db [] true [] []) (mkStore ∅ ∅ 0).
Definition aworld1 : AWorld :=
  (account_scope (bootstrap_admin demo_hash (Some "root"%string) (Some "secret"%string) None) aworld0).2.

Lemma run_accounts_reachable rs : demo_areachable (run_accounts rs aworld1, []).
Proof.
  exists (aworld0, []). split; [done|]. eapply rtc_l; [|apply run_accounts_steps].
  unfold aworld1. destruct (account_scope _ aworld0) eqn:E. by eapply as_bootstrap.
Qed.

(** The administrator logs in, creates a tenant with a user, who logs in. *)
Definition root_login : list (option string * account_request) := [(None, Login "Root" "secret")].
Definition root_sid : string := demo_token 1.
Definition alice_setup : list (option string * account_request) :=
  root_login ++
  [(Some root_sid, CreateTenant "acme");
   (Some root_sid, CreateUser (mkUserCreateRequest "alice" "pw" tenant_user (Some 2%positive)));
   (None, Login "alice" "pw")].

Definition alice_sid : string := demo_token 3.
Definition with_alice : AWorld := Eval vm_compute in run_accounts alice_setup aworld1.

Lemma with_alice_reachable : demo_areachable (with_alice, []).
Proof.
  replace with_alice with (run_accounts alice_setup aworld1) by (vm_compute; reflexivity).
  apply run_accounts_reachable.
Qed.

Definition alice_reset : AWorld := Eval vm_compute in
  (demo_account (Some root_sid) (ResetPassword 3 "new") with_alice).2.
Definition alice_back : AWorld := Eval vm_compute in
  run_accounts [(None, Login "alice" "new")] alice_reset.

Lemma revoked_sessions_stay_dead_witness :
  ¬ authenticates 1800 alice_back alice_sid 3.
Proof.
  apply (revoked_sessions_stay_dead demo_token 1800 43200 demo_hash demo_verify demo_token_inj
    (Some root_sid) (ResetPassword 3 "new") with_alice [] alice_reset 3 alice_sid (alice_back, [])).
  - exact with_alice_reachable.
  - vm_compute; reflexivity.
  - reflexivity.
  - exists 3%nat. split; [vm_compute; lia|reflexivity].
  - replace alice_back with (run_accounts [(None, Login "alice" "new")] alice_reset) by (vm_compute; reflexivity).
    apply run_accounts_steps.
Defined.

Lemma admin_always_present_witness :
  users (w_db (aw_world with_alice)) = ∅ ∨ has_admin (w_db (aw_world with_alice)).
Proof.
  apply (admin_always_present demo_token 1800 43200 demo_hash demo_verify demo_token_inj (with_alice, [])).
  exact with_alice_reachable.
Defined.

Definition alice_again : (exn + string) * AWorld := Eval vm_compute in
  account_scope (AuthRouter.login demo_token 1800 43200 demo_verify "ALICE" "pw") with_alice.

Lemma login_authenticates_witness :
  ∃ u, may_login demo_verify (w_db (aw_world with_alice)) "ALICE" "pw" u ∧
    authenticates 1800 alice_again.2 (demo_token 4) (user_id u).
Proof.
  apply (login_authenticates demo_token 1800 43200 demo_hash demo_verify demo_token_inj "ALICE" "pw"
    (with_alice, []) (inr (demo_token 4)) alice_again.2); [lia|lia|exact with_alice_reachable|].
  vm_compute; reflexivity.
Defined.

Definition alice_out : AWorld := Eval vm_compute in
  (demo_account (Some alice_sid) Logout with_alice).2.

Lemma logout_undone_by_refresh_witness :
  ¬ authenticates 1800 alice_out alice_sid 3 ∧
  ∃ s, demo_astep (with_alice, []) (with_alice, [(alice_sid, s)]) ∧
    demo_astep (with_alice, [(alice_sid, s)]) (alice_out, [(alice_sid, s)]) ∧
    ∃ aw2, demo_astep (alice_out, [(alice_sid, s)]) (aw2, [(alice_sid, s)]) ∧
      authenticates 1800 aw2 alice_sid 3.
Proof.
  apply (logout_undone_by_refresh demo_token 1800 43200 demo_hash demo_verify demo_token_inj
    alice_sid 3 with_alice [] alice_out); [lia|exact with_alice_reachable| |vm_compute; reflexivity].
  unfold authenticates. eexists _, _. split; [vm_compute; reflexivity|reflexivity].
Defined.

(** Two more administrators. *)
Definition three_admins : AWorld := Eval vm_compute in run_accounts
  [(Some root_sid, CreateUser (mkUserCreateRequest "bob" "pw" admin None));
   (Some root_sid, CreateUser (mkUserCreateRequest "eve" "pw" admin None))] with_alice.
Definition three_admins_ctx : Ctx :=
  mkCtx (new_session (w_db (aw_world three_admins))) (aw_store three_admins).

Lemma three_admins_ok : users_ok (w_db (aw_world three_admins)).
Proof.
  assert (rtc demo_astep (with_alice, []) (three_admins, [])) as H.
  { replace three_admins with (run_accounts
      [(Some root_sid, CreateUser (mkUserCreateRequest "bob" "pw" admin None));
       (Some root_sid, CreateUser (mkUserCreateRequest "eve" "pw" admin None))] with_alice)
      by (vm_compute; reflexivity). apply run_accounts_steps. }
  destruct with_alice_reachable as (x0 & Hi & Hr).
  assert (demo_areachable (three_admins, [])) as Hreach by (exists x0; split; [done|by etrans]).
  apply (areachable_ok demo_token 1800 43200 demo_hash demo_verify demo_token_inj) in Hreach.
  exact (ao_users _ _ _ _ Hreach).
Qed.

Definition root_row : User := Eval vm_compute in
  default (mkUser 1 None admin "" "" user_active 0 None 0) (users (w_db (aw_world three_admins)) !! 1%positive).

Lemma removing_an_admin_witness :
  (delete_user None 1 None three_admins_ctx).1 = inl MultipleResultsFound ∧
  (set_status None 1 user_disabled None three_admins_ctx).1 = inl MultipleResultsFound.
Proof.
  apply (removing_an_admin None 1 root_row None three_admins_ctx); [exact three_admins_ok| |];
    vm_compute; reflexivity.
Defined.

(** A tenant whose only allocation was revoked. *)
Definition left_tenant : Db :=
  empty_db <| tenants := {[2%positive := mkTenant 2 "acme" tenant_active 0]} |>
    <| allocated_cidr := {[5%positive := mkAllocatedCIDR 5 2 (Net 167772160 24) cidr_revoked None 0 0]} |>.

Lemma revoked_allocations_block_delete_witness :
  _delete_blockers left_tenant 2 = [] ∧
  (delete_tenant None 2 None (new_session left_tenant)).1 = inl (IntegrityError "tenants_restrict_fkey").
Proof.
  apply (revoked_allocations_block_delete None 2 (mkTenant 2 "acme" tenant_active 0) 5
    (mkAllocatedCIDR 5 2 (Net 167772160 24) cidr_revoked None 0 0) None (new_session left_tenant));
    [reflexivity..|].
  intros k b Hk _. change (allocated_cidr (db (new_session left_tenant))) with
    ({[5%positive := mkAllocatedCIDR 5 2 (Net 167772160 24) cidr_revoked None 0 0]} : gmap uuid AllocatedCIDR) in Hk.
  apply lookup_singleton_Some in Hk as [_ <-]. reflexivity.
Defined.
