(* ===== verification/OpsModels.v ===== *)
(** * The operational tables ([db/models.py]) and their sessions

    Telemetry, alerting and billing rows, kept beside the configuration tables
    of [Db].  A worker lane or a route over them runs in one session that
    spans both; [ops_scope] is its transaction.

    The sessions of the source do not flush on their own ([autoflush=False]):
    a [Numeric(18, 4)] value is checked at the next explicit flush or at the
    commit, stays unrounded on the row object until then, and is rounded by
    the column for the readers after the commit. *)

From S2P Require Import Prelude Ipaddress Models Db PyNum.
Open Scope Z_scope.

(** ** Enumerations *)

Module XdpMode.
Inductive t := native | generic | offline | unknown.
#[global] Instance t_eq_dec : EqDecision t.
Proof. solve_decision. Defined.
Definition value (m : t) : string :=
  match m with
  | native => "native" | generic => "generic" | offline => "offline" | unknown => "unknown"
  end.
End XdpMode.

Module AlertScope.
Inductive t := node | service.
#[global] Instance t_eq_dec : EqDecision t.
Proof. solve_decision. Defined.
Definition value (s : t) : string := match s with node => "node" | service => "service" end.
End AlertScope.

Module AlertState.
Inductive t := pending | firing | resolved.
#[global] Instance t_eq_dec : EqDecision t.
Proof. solve_decision. Defined.
Definition value (s : t) : string :=
  match s with pending => "pending" | firing => "firing" | resolved => "resolved" end.
End AlertState.

Module AlertSeverity.
Inductive t := info | warning | critical.
#[global] Instance t_eq_dec : EqDecision t.
Proof. solve_decision. Defined.
Definition value (s : t) : string :=
  match s with info => "info" | warning => "warning" | critical => "critical" end.
End AlertSeverity.

Module ChannelKind.
Inductive t := email | webhook.
#[global] Instance t_eq_dec : EqDecision t.
Proof. solve_decision. Defined.
Definition value (k : t) : string := match k with email => "email" | webhook => "webhook" end.
End ChannelKind.

Module NotificationState.
Inductive t := pending | sent | retrying | failed.
#[global] Instance t_eq_dec : EqDecision t.
Proof. solve_decision. Defined.
End NotificationState.

Module TelemetryScope.
Inductive t := service | node.
#[global] Instance t_eq_dec : EqDecision t.
Proof. solve_decision. Defined.
End TelemetryScope.

Module BillingStatus.
Inductive t := open | final.
#[global] Instance t_eq_dec : EqDecision t.
Proof. solve_decision. Defined.
End BillingStatus.

(** ** Tables *)

Record TelemetryCounter := mkTelemetryCounter {
  tc_id : uuid;
  tc_scope : TelemetryScope.t;
  tc_service_id : option uuid;
  tc_dp_id : option Z;
  tc_window_start : timestamp;
  tc_window_seconds : Z;
  tc_clean_pkts : Z;
  tc_clean_bytes : Z;
  tc_drop_pkts : Z;
  tc_drop_bytes : Z;
  tc_drop_by_reason : list (string * Z);
  tc_pps : Z;
  tc_bps : Z;
  tc_top_dst_ports : option (list (Z * Z));          (* port, count *)
  tc_top_src : option (list (string * Z));           (* address, count *)
  tc_is_baseline : bool
}.

Record NodeHealthSnapshot := mkNodeHealthSnapshot {
  nh_id : uuid;
  nh_captured_at : timestamp;
  nh_window_seconds : Z;
  nh_xdp_mode : XdpMode.t;
  nh_active_slot : option Z;
  nh_map_version : option Z;
  nh_map_error_count : Z;
  nh_node_clean_bps : Z;
  nh_node_capacity_bps : Z;
  nh_bloom_stats : option (list (string * jval))
}.

(** Threshold overrides are [Numeric(18, 4)]. *)
Record AlertRule := mkAlertRule {
  ar_id : uuid;
  ar_key : string;
  ar_enabled : bool;
  ar_severity_override : option AlertSeverity.t;
  ar_fire_threshold_override : option PyDec;
  ar_clear_threshold_override : option PyDec;
  ar_silence_in_maintenance : bool
}.

Record NotificationChannel := mkNotificationChannel {
  ch_id : uuid;
  ch_name : string;
  ch_kind : ChannelKind.t;
  ch_tenant_id : option uuid;
  ch_enabled : bool;
  ch_min_severity : AlertSeverity.t;
  ch_config : list (string * jval);
  ch_secret : option string
}.

Record Alert := mkAlert {
  al_id : uuid;
  al_rule_key : string;
  al_scope : AlertScope.t;
  al_scope_key : string;
  al_service_id : option uuid;
  al_tenant_id : option uuid;
  al_service_name : option string;
  al_severity : AlertSeverity.t;
  al_state : AlertState.t;
  al_metric_value : option PyDec;                    (* Numeric(18, 4) *)
  al_context : list (string * jval);
  al_fire_streak : Z;
  al_clear_streak : Z;
  al_first_observed_at : timestamp;
  al_fired_at : option timestamp;
  al_resolved_at : option timestamp;
  al_last_notified_at : option timestamp;
  al_acknowledged_at : option timestamp;
  al_acknowledged_by : option uuid
}.

Record AlertNotification := mkAlertNotification {
  an_id : uuid;
  an_alert_id : uuid;
  an_channel_id : option uuid;
  an_channel_name : string;
  an_kind : ChannelKind.t;
  an_trigger : string;
  an_state : NotificationState.t;
  an_attempts : Z;
  an_last_error : option string;
  an_sent_at : option timestamp;
  an_created_at : timestamp;
  an_updated_at : timestamp
}.

Record BillingSample := mkBillingSample {
  bs_service_id : uuid;
  bs_dp_id : option Z;
  bs_sample_ts : timestamp;
  bs_clean_bps : Z;
  bs_window_seconds : Z;
  bs_is_reset : bool
}.

(** Rates in hundredths of a Gbit/s. *)
Record BillingUsage := mkBillingUsage {
  bu_id : uuid;
  bu_service_id : option uuid;
  bu_tenant_id : option uuid;
  bu_service_name : string;
  bu_period_start : timestamp;
  bu_period_end : timestamp;
  bu_billing_metric : string;
  bu_committed_clean_gbps : Z;
  bu_p95_clean_gbps : Z;
  bu_billed_gbps : Z;
  bu_overage_gbps : Z;
  bu_overage_policy : OveragePolicy;
  bu_sample_count : Z;
  bu_status : BillingStatus.t;
  bu_finalized_at : option timestamp
}.

#[global] Instance AlertRule_eta : Eta AlertRule := MkEta (fun r =>
  mkAlertRule (ar_id r) (ar_key r) (ar_enabled r) (ar_severity_override r)
    (ar_fire_threshold_override r) (ar_clear_threshold_override r)
    (ar_silence_in_maintenance r)).
#[global] Instance NotificationChannel_eta : Eta NotificationChannel := MkEta (fun r =>
  mkNotificationChannel (ch_id r) (ch_name r) (ch_kind r) (ch_tenant_id r) (ch_enabled r)
    (ch_min_severity r) (ch_config r) (ch_secret r)).
#[global] Instance Alert_eta : Eta Alert := MkEta (fun r =>
  mkAlert (al_id r) (al_rule_key r) (al_scope r) (al_scope_key r) (al_service_id r)
    (al_tenant_id r) (al_service_name r) (al_severity r) (al_state r) (al_metric_value r)
    (al_context r) (al_fire_streak r) (al_clear_streak r) (al_first_observed_at r)
    (al_fired_at r) (al_resolved_at r) (al_last_notified_at r) (al_acknowledged_at r)
    (al_acknowledged_by r)).
#[global] Instance AlertNotification_eta : Eta AlertNotification := MkEta (fun r =>
  mkAlertNotification (an_id r) (an_alert_id r) (an_channel_id r) (an_channel_name r)
    (an_kind r) (an_trigger r) (an_state r) (an_attempts r) (an_last_error r) (an_sent_at r)
    (an_created_at r) (an_updated_at r)).
#[global] Instance TelemetryCounter_eta : Eta TelemetryCounter := MkEta (fun r =>
  mkTelemetryCounter (tc_id r) (tc_scope r) (tc_service_id r) (tc_dp_id r) (tc_window_start r)
    (tc_window_seconds r) (tc_clean_pkts r) (tc_clean_bytes r) (tc_drop_pkts r)
    (tc_drop_bytes r) (tc_drop_by_reason r) (tc_pps r) (tc_bps r) (tc_top_dst_ports r)
    (tc_top_src r) (tc_is_baseline r)).
#[global] Instance BillingUsage_eta : Eta BillingUsage := MkEta (fun r =>
  mkBillingUsage (bu_id r) (bu_service_id r) (bu_tenant_id r) (bu_service_name r)
    (bu_period_start r) (bu_period_end r) (bu_billing_metric r) (bu_committed_clean_gbps r)
    (bu_p95_clean_gbps r) (bu_billed_gbps r) (bu_overage_gbps r) (bu_overage_policy r)
    (bu_sample_count r) (bu_status r) (bu_finalized_at r)).

Record OpsDb := mkOpsDb {
  telemetry_counter : gmap uuid TelemetryCounter;
  node_health_snapshot : gmap uuid NodeHealthSnapshot;
  alert_rule : gmap string AlertRule;                (* by key, unique *)
  notification_channel : gmap uuid NotificationChannel;
  alert : gmap uuid Alert;
  alert_notification : gmap uuid AlertNotification;
  billing_sample : gmap (uuid * timestamp) BillingSample;  (* by service and instant, unique *)
  billing_usage : gmap uuid BillingUsage
}.

#[global] Instance OpsDb_eta : Eta OpsDb := MkEta (fun r =>
  mkOpsDb (telemetry_counter r) (node_health_snapshot r) (alert_rule r)
    (notification_channel r) (alert r) (alert_notification r) (billing_sample r)
    (billing_usage r)).

Definition empty_ops : OpsDb := mkOpsDb ∅ ∅ ∅ ∅ ∅ ∅ ∅ ∅.

(** ** Sessions over both stores *)

(** A message handed to a channel's transport; it is not undone by a rollback. *)
Record Delivery := mkDelivery {
  dl_channel : NotificationChannel;
  dl_envelope : list (string * jval)
}.

Record OSession := mkOSession {
  os_session : Session;
  ops : OpsDb;
  os_outbox : list Delivery
}.

#[global] Instance OSession_eta : Eta OSession := MkEta (fun r =>
  mkOSession (os_session r) (ops r) (os_outbox r)).

Record OWorld := mkOWorld {
  ow_world : World;
  ow_ops : OpsDb;
  ow_outbox : list Delivery
}.

#[global] Instance OWorld_eta : Eta OWorld := MkEta (fun r =>
  mkOWorld (ow_world r) (ow_ops r) (ow_outbox r)).

Definition ow_db (w : OWorld) : Db := w_db (ow_world w).
Definition os_db (s : OSession) : Db := db (os_session s).

(** A computation over the configuration tables, in the wider session. *)
Definition core {A} (m : M Session A) : M OSession A := fun s =>
  let '(r, s') := m (os_session s) in (r, s <| os_session := s' |>).

Definition get_ops {A} (f : OpsDb → A) : M OSession A := gets (fun s => f (ops s)).
Definition mod_ops (f : OpsDb → OpsDb) : M OSession unit :=
  modS (fun s => s <| ops := f (ops s) |>).

Definition opt_fits (d : option PyDec) : bool := default true (fits_numeric_18_4 <$> d).

(** The numeric columns written so far fit their precision. *)
Definition numerics_fit (d : OpsDb) : bool :=
  forallb (fun a => opt_fits (al_metric_value a)) (rows (alert d)) &&
  forallb (fun r => opt_fits (ar_fire_threshold_override r) &&
                    opt_fits (ar_clear_threshold_override r)) (rows (alert_rule d)).

(** [db.flush()]. *)
Definition flush : M OSession unit :=
  d ← get_ops id;
  require (numerics_fit d) NumericOverflow.

(** What the columns keep of the values written. *)
Definition store_alert (a : Alert) : Alert :=
  a <| al_metric_value := store_numeric_18_4 <$> al_metric_value a |>.
Definition store_rule (r : AlertRule) : AlertRule :=
  r <| ar_fire_threshold_override := store_numeric_18_4 <$> ar_fire_threshold_override r |>
    <| ar_clear_threshold_override := store_numeric_18_4 <$> ar_clear_threshold_override r |>.
Definition store_numerics (d : OpsDb) : OpsDb :=
  d <| alert := store_alert <$> alert d |> <| alert_rule := store_rule <$> alert_rule d |>.

(** The transaction of a lane or a request. *)
Definition ops_scope {A} (m : M OSession A) : M OWorld A := fun w =>
  match (m ≫= fun a => flush ;; mret a)
          (mkOSession (new_session (ow_db w)) (ow_ops w) (ow_outbox w)) with
  | (inr a, s) =>
      (inr a, mkOWorld
        (run_post_commit_callbacks (post_commit_callbacks (os_session s))
           (ow_world w <| w_db := os_db s |>))
        (store_numerics (ops s)) (os_outbox s))
  | (inl e, s) =>
      (inl e, mkOWorld (ow_world w <| w_db := rollback (ow_db w) (os_db s) |>)
        (ow_ops w) (os_outbox s))
  end.

(** ** What the foreign keys do when a configuration row goes away *)

Definition null_if {A} `{EqDecision A} (x : A) (o : option A) : option A :=
  if bool_decide (o = Some x) then None else o.

(** [ON DELETE SET NULL] and [CASCADE] from [protected_service]. *)
Definition service_deleted (id : uuid) (d : OpsDb) : OpsDb :=
  d <| telemetry_counter :=
         (fun r => r <| tc_service_id := null_if id (tc_service_id r) |>) <$> telemetry_counter d |>
    <| alert := (fun r => r <| al_service_id := null_if id (al_service_id r) |>) <$> alert d |>
    <| billing_sample := filter (fun kv => bs_service_id kv.2 ≠ id) (billing_sample d) |>
    <| billing_usage :=
         (fun r => r <| bu_service_id := null_if id (bu_service_id r) |>) <$> billing_usage d |>.

(** [ON DELETE SET NULL] from [notification_channel]. *)
Definition channel_deleted (id : uuid) (d : OpsDb) : OpsDb :=
  d <| notification_channel := delete id (notification_channel d) |>
    <| alert_notification :=
         (fun r => r <| an_channel_id := null_if id (an_channel_id r) |>) <$> alert_notification d |>.

(** [ON DELETE CASCADE] from [alert]: the notifications of a deleted alert go. *)
Definition alerts_deleted (gone : Alert → bool) (d : OpsDb) : OpsDb :=
  let keep := filter (fun kv => gone kv.2 = false) (alert d) in
  d <| alert := keep |>
    <| alert_notification :=
         filter (fun kv => is_Some (alert d !! an_alert_id kv.2) → is_Some (keep !! an_alert_id kv.2))
           (alert_notification d) |>.

(** ** Lemmas *)

Lemma core_inr {A} (m : M Session A) s a s' :
  core m s = (inr a, s') →
  ∃ t, m (os_session s) = (inr a, t) ∧ s' = s <| os_session := t |>.
Proof. unfold core. destruct (m (os_session s)) as [[e|b] t]; intros [= <- <-]. eauto. Qed.

Lemma core_inl {A} (m : M Session A) s e s' :
  core m s = (inl e, s') →
  ∃ t, m (os_session s) = (inl e, t) ∧ s' = s <| os_session := t |>.
Proof. unfold core. destruct (m (os_session s)) as [[e'|b] t]; intros [= <- <-]. eauto. Qed.

Lemma flush_inr s u s' : flush s = (inr u, s') → s' = s ∧ numerics_fit (ops s) = true.
Proof.
  unfold flush, get_ops. rewrite run_gets. intros [Hfit ->]%require_inr. done.
Qed.

(** A committed scope ran its body to the end. *)
Lemma ops_scope_inr {A} (m : M OSession A) w a w' :
  ops_scope m w = (inr a, w') →
  ∃ s, m (mkOSession (new_session (ow_db w)) (ow_ops w) (ow_outbox w)) = (inr a, s) ∧
    numerics_fit (ops s) = true ∧ ow_ops w' = store_numerics (ops s) ∧
    ow_outbox w' = os_outbox s.
Proof.
  unfold ops_scope. intros H.
  destruct ((m ≫= _) _) as [[e|b] s] eqn:E; simplify_eq.
  apply bind_inr in E as (a' & s1 & Hm & E).
  apply bind_inr in E as (u & s2 & Hf & E). apply flush_inr in Hf as [-> Hfit].
  apply ret_inr in E as [-> ->]. exists s1. done.
Qed.

(** A scope that raises leaves the tables as they were. *)
Lemma ops_scope_inl {A} (m : M OSession A) w e w' :
  ops_scope m w = (inl e, w') → ow_ops w' = ow_ops w.
Proof. unfold ops_scope. by destruct ((m ≫= _) _) as [[?|?] ?]; intros [= <- <-]. Qed.
