(* ===== verification/AlertRules.v ===== *)
(** * The alert-rule catalog and its per-tick predicates ([services/alert_rules.py])

    The source has its own [AlertScope] and [Severity] enumerations with the
    members of the persisted ones and converts by value; the model uses one
    type for both. *)

From S2P Require Import Prelude Models Db PyNum OpsModels.
Open Scope Z_scope.

(** ** Data *)

Record RuleDef := mkRuleDef {
  rd_key : string;
  rd_scope : AlertScope.t;
  rd_severity : AlertSeverity.t;
  rd_fire_threshold : MetricValue;
  rd_clear_threshold : MetricValue;
  rd_default_enabled : bool;
  rd_silence_in_maintenance : bool;
  rd_title : string;
  rd_critical_threshold : option MetricValue
}.

(** Optional persisted overrides; absent values fall back to the catalog. *)
Record EffectiveRule := mkEffectiveRule {
  er_enabled : option bool;
  er_severity : option AlertSeverity.t;
  er_fire_threshold : option MetricValue;
  er_clear_threshold : option MetricValue
}.

Record NodeAlertInputs := mkNodeAlertInputs {
  ni_map_error_count : option Z;
  ni_xdp_mode : option string;
  ni_node_clean_bps : option Z;
  ni_node_capacity_bps : option Z;
  ni_apply_failed_count : option Z;
  ni_job_backlog : option Z;
  ni_stuck_applying : option bool;
  ni_telemetry_stale : option bool;
  ni_feed_failure_count : option Z;
  ni_bloom_false_positives : option Z;
  ni_bypass_enabled : option bool;
  ni_maintenance_enabled : option bool
}.

Definition no_node_inputs : NodeAlertInputs :=
  mkNodeAlertInputs None None None None None None None None None None None None.

#[global] Instance NodeAlertInputs_eta : Eta NodeAlertInputs := MkEta (fun r =>
  mkNodeAlertInputs (ni_map_error_count r) (ni_xdp_mode r) (ni_node_clean_bps r)
    (ni_node_capacity_bps r) (ni_apply_failed_count r) (ni_job_backlog r)
    (ni_stuck_applying r) (ni_telemetry_stale r) (ni_feed_failure_count r)
    (ni_bloom_false_positives r) (ni_bypass_enabled r) (ni_maintenance_enabled r)).

Record ServiceAlertInputs := mkServiceAlertInputs {
  si_scope_key : string;
  si_tenant_id : uuid;
  si_service_id : uuid;
  si_clean_bps : option Z;
  si_committed_bps : option Z;
  si_drop_bps : option Z;
  si_total_bps : option Z;
  si_whitelist_overlap_count : option Z
}.

Record AlertInputs := mkAlertInputs {
  ai_node : NodeAlertInputs;
  ai_services : list ServiceAlertInputs
}.

Record RuleObservation := mkRuleObservation {
  ob_rule_key : string;
  ob_scope : AlertScope.t;
  ob_scope_key : string;
  ob_tenant_id : option uuid;
  ob_service_id : option uuid;
  ob_severity : AlertSeverity.t;
  ob_metric_value : MetricValue;
  ob_firing : bool;
  ob_context : list (string * jval)
}.

(** ** The catalog *)

(** A float literal [n / d]. *)
Definition lit (n d : Z) : MetricValue := MFloat (true_div n d).

Definition rule_map_error : RuleDef :=
  mkRuleDef "map_error" AlertScope.node AlertSeverity.critical (MInt 0) (MInt 0) true false
    "Data-plane map error" None.
Definition rule_xdp_degraded : RuleDef :=
  mkRuleDef "xdp_degraded" AlertScope.node AlertSeverity.critical (MInt 1) (MInt 0) true false
    "XDP mode degraded" None.
Definition rule_near_capacity : RuleDef :=
  mkRuleDef "near_capacity" AlertScope.node AlertSeverity.warning (lit 9 10) (lit 85 100) true
    false "Node clean throughput near capacity" (Some (lit 1 1)).
Definition rule_apply_failed : RuleDef :=
  mkRuleDef "apply_failed" AlertScope.node AlertSeverity.critical (MInt 1) (MInt 0) true true
    "Configuration apply failed" None.
Definition rule_worker_backlog : RuleDef :=
  mkRuleDef "worker_backlog" AlertScope.node AlertSeverity.warning (MInt 100) (MInt 80) true true
    "Worker backlog or progress failure" None.
Definition rule_feed_failed : RuleDef :=
  mkRuleDef "feed_failed" AlertScope.node AlertSeverity.warning (MInt 1) (MInt 0) true false
    "Threat-feed sync failed" None.
Definition rule_committed_not_honored : RuleDef :=
  mkRuleDef "committed_not_honored" AlertScope.service AlertSeverity.warning (MInt 1) (MInt 1)
    true false "Committed clean throughput not honored" None.
Definition rule_attack_onset : RuleDef :=
  mkRuleDef "attack_onset" AlertScope.service AlertSeverity.warning (lit 1 10) (lit 5 100) true
    false "Service drop share indicates attack onset" None.
Definition rule_bloom_false_positive : RuleDef :=
  mkRuleDef "bloom_false_positive" AlertScope.node AlertSeverity.warning (MInt 1000) (MInt 900)
    true false "Bloom false-positive volume high" None.
Definition rule_bypass_or_maintenance : RuleDef :=
  mkRuleDef "bypass_or_maintenance" AlertScope.node AlertSeverity.critical (MInt 1) (MInt 0)
    true false "Bypass or maintenance active" None.
Definition rule_whitelist_overlap : RuleDef :=
  mkRuleDef "whitelist_overlap" AlertScope.service AlertSeverity.warning (MInt 1) (MInt 0) true
    false "Whitelist overlaps a threat-feed entry" None.

Definition RULES : list RuleDef :=
  [rule_map_error; rule_xdp_degraded; rule_near_capacity; rule_apply_failed;
   rule_worker_backlog; rule_feed_failed; rule_committed_not_honored; rule_attack_onset;
   rule_bloom_false_positive; rule_bypass_or_maintenance; rule_whitelist_overlap].

(** ** Evaluation *)
Section evaluate.
Context {S : Type}.

Definition _threshold (effective : EffectiveRule) : M S MetricValue :=
  get_or_raise (er_fire_threshold effective) AssertionError.

Definition _severity (effective : EffectiveRule) : M S AlertSeverity.t :=
  get_or_raise (er_severity effective) AssertionError.

Definition _resolved_rule (rule : RuleDef) (override : option EffectiveRule) : EffectiveRule :=
  match override with
  | None =>
      mkEffectiveRule (Some (rd_default_enabled rule)) (Some (rd_severity rule))
        (Some (rd_fire_threshold rule)) (Some (rd_clear_threshold rule))
  | Some o =>
      mkEffectiveRule
        (Some match er_enabled o with None => rd_default_enabled rule | Some b => b end)
        (Some match er_severity o with None => rd_severity rule | Some s => s end)
        (Some match er_fire_threshold o with None => rd_fire_threshold rule | Some t => t end)
        (Some match er_clear_threshold o with None => rd_clear_threshold rule | Some t => t end)
  end.

Definition _node_observation (rule : RuleDef) (effective : EffectiveRule)
    (metric_value : MetricValue) (firing : bool) (severity : option AlertSeverity.t)
    : M S (option RuleObservation) :=
  severity ← match severity with None => _severity effective | Some s => mret s end;
  mret (Some (mkRuleObservation (rd_key rule) AlertScope.node "node" None None severity
    metric_value firing [("title", JStr (rd_title rule))]))%string.

Definition _service_observation (rule : RuleDef) (effective : EffectiveRule)
    (service : ServiceAlertInputs) (metric_value : MetricValue) (firing : bool)
    : M S (option RuleObservation) :=
  severity ← _severity effective;
  mret (Some (mkRuleObservation (rd_key rule) AlertScope.service (si_scope_key service)
    (Some (si_tenant_id service)) (Some (si_service_id service)) severity
    metric_value firing [("title", JStr (rd_title rule))]))%string.

(** [max(conditions, key=...)] keeps the first firing condition, or the first. *)
Definition first_max (conditions : list (MetricValue * bool)) : option (MetricValue * bool) :=
  match List.find snd conditions with
  | Some c => Some c
  | None => head conditions
  end.

Definition int_of_bool (b : bool) : Z := if b then 1 else 0.

Definition _worker_health_observation (rule : RuleDef) (effective : EffectiveRule)
    (node : NodeAlertInputs) : M S (option RuleObservation) :=
  backlog ← match ni_job_backlog node with
            | None => mret []
            | Some n => t ← _threshold effective; mret [(MInt n, num_geb (MInt n) t)]
            end;
  let flag o := match o with
                | None => []
                | Some b => [(MInt (int_of_bool b), b)]
                end in
  let conditions := backlog ++ flag (ni_stuck_applying node) ++ flag (ni_telemetry_stale node) in
  match first_max conditions with
  | None => mret None
  | Some (metric_value, _) =>
      _node_observation rule effective metric_value (existsb snd conditions) None
  end.

(** A count compared with the threshold. *)
Definition count_observation (rule : RuleDef) (effective : EffectiveRule) (count : Z)
    : M S (option RuleObservation) :=
  t ← _threshold effective;
  _node_observation rule effective (MInt count) (num_geb (MInt count) t) None.

Definition degraded_modes : list string := ["generic"; "offline"; "off"; "detached"]%string.

Definition _evaluate_node (rule : RuleDef) (effective : EffectiveRule) (node : NodeAlertInputs)
    : M S (option RuleObservation) :=
  let key_is k := bool_decide (rd_key rule = k) in
  if key_is "map_error"%string then
    match ni_map_error_count node with
    | None => mret None
    | Some n =>
        t ← _threshold effective;
        _node_observation rule effective (MInt n) (num_gtb (MInt n) t) None
    end
  else if key_is "xdp_degraded"%string then
    match ni_xdp_mode node with
    | None => mret None
    | Some mode =>
        let degraded := bool_decide (lower mode ∈ degraded_modes) in
        _node_observation rule effective (MInt (int_of_bool degraded)) degraded None
    end
  else if key_is "near_capacity"%string then
    match ni_node_clean_bps node, ni_node_capacity_bps node with
    | Some clean, Some capacity =>
        if capacity <=? 0 then mret None else
        let ratio := MFloat (true_div clean capacity) in
        let severity :=
          match rd_critical_threshold rule with
          | Some c => if num_geb ratio c then Some AlertSeverity.critical
                      else er_severity effective
          | None => er_severity effective
          end in
        t ← _threshold effective;
        _node_observation rule effective ratio (num_geb ratio t) severity
    | _, _ => mret None
    end
  else if key_is "apply_failed"%string then
    match ni_apply_failed_count node with
    | None => mret None | Some n => count_observation rule effective n end
  else if key_is "worker_backlog"%string then _worker_health_observation rule effective node
  else if key_is "feed_failed"%string then
    match ni_feed_failure_count node with
    | None => mret None | Some n => count_observation rule effective n end
  else if key_is "bloom_false_positive"%string then
    match ni_bloom_false_positives node with
    | None => mret None | Some n => count_observation rule effective n end
  else if key_is "bypass_or_maintenance"%string then
    match ni_bypass_enabled node, ni_maintenance_enabled node with
    | None, None => mret None
    | b, m =>
        let active := default false b || default false m in
        _node_observation rule effective (MInt (int_of_bool active)) active None
    end
  else mret None.

Definition _evaluate_service (rule : RuleDef) (effective : EffectiveRule)
    (service : ServiceAlertInputs) : M S (option RuleObservation) :=
  let key_is k := bool_decide (rd_key rule = k) in
  if key_is "committed_not_honored"%string then
    match si_clean_bps service, si_committed_bps service with
    | Some clean, Some committed =>
        if committed <=? 0 then mret None else
        _service_observation rule effective service (MInt clean) (clean <? committed)
    | _, _ => mret None
    end
  else if key_is "attack_onset"%string then
    match si_drop_bps service, si_total_bps service with
    | Some drop, Some total =>
        if total <=? 0 then mret None else
        let drop_share := MFloat (true_div drop total) in
        t ← _threshold effective;
        _service_observation rule effective service drop_share (num_geb drop_share t)
    | _, _ => mret None
    end
  else if key_is "whitelist_overlap"%string then
    match si_whitelist_overlap_count service with
    | None => mret None
    | Some n =>
        t ← _threshold effective;
        _service_observation rule effective service (MInt n) (num_geb (MInt n) t)
    end
  else mret None.

(** [for x in xs: o = f(x); if o is not None: observations.append(o)]. *)
Fixpoint collect {A B} (f : A → M S (option B)) (xs : list A) : M S (list B) :=
  match xs with
  | [] => mret []
  | x :: xs => o ← f x; rest ← collect f xs; mret (option_list o ++ rest)
  end.

Definition evaluate_rule (inputs : AlertInputs) (effective : string → option EffectiveRule)
    (rule : RuleDef) : M S (list RuleObservation) :=
  let resolved := _resolved_rule rule (effective (rd_key rule)) in
  if negb (default false (er_enabled resolved)) then mret [] else
  match rd_scope rule with
  | AlertScope.node => option_list <$> _evaluate_node rule resolved (ai_node inputs)
  | AlertScope.service => collect (_evaluate_service rule resolved) (ai_services inputs)
  end.

Fixpoint evaluate_rules (inputs : AlertInputs) (effective : string → option EffectiveRule)
    (rules : list RuleDef) : M S (list RuleObservation) :=
  match rules with
  | [] => mret []
  | rule :: rules =>
      here ← evaluate_rule inputs effective rule;
      rest ← evaluate_rules inputs effective rules;
      mret (here ++ rest)
  end.

Definition evaluate (inputs : AlertInputs) (effective : string → option EffectiveRule)
    : M S (list RuleObservation) := evaluate_rules inputs effective RULES.
End evaluate.

(** ** Lemmas *)

Definition ob_key (o : RuleObservation) : string * string := (ob_rule_key o, ob_scope_key o).

(** [yields m P]: [m] touches no state, does not raise, and returns a value of
    [P]. *)
Definition yields {S A} (m : M S A) (P : A → Prop) : Prop :=
  ∃ a, (∀ s, m s = (inr a, s)) ∧ P a.

Section yields_rules.
Context {S : Type}.

Lemma yields_ret {A} (a : A) (P : A → Prop) : P a → yields (mret a : M S A) P.
Proof. intros H. by exists a. Qed.

Lemma yields_bind {A B} (m : M S A) (k : A → M S B) P Q :
  yields m P → (∀ a, P a → yields (k a) Q) → yields (m ≫= k) Q.
Proof.
  intros (a & Hm & Ha) Hk. destruct (Hk a Ha) as (b & Hb & HQ). exists b. split; [|done].
  intros s. by rewrite bind_run, Hm.
Qed.

Lemma yields_some {A} (o : option A) e a (P : A → Prop) :
  o = Some a → P a → yields (get_or_raise o e : M S A) P.
Proof. intros -> H. by exists a. Qed.

Lemma yields_weaken {A} (m : M S A) (P Q : A → Prop) :
  yields m P → (∀ a, P a → Q a) → yields m Q.
Proof. intros (a & Hm & Ha) H. exists a. auto. Qed.

Lemma yields_collect {A B} (f : A → M S (option B)) (P : A → B → Prop) xs :
  (∀ x, x ∈ xs → yields (f x) (fun o => ∀ b, o = Some b → P x b)) →
  yields (collect f xs) (fun l => ∃ os, Forall2 (fun x o => ∀ b, o = Some b → P x b) xs os ∧
                                        l = concat (option_list <$> os)).
Proof.
  induction xs as [|x xs IH]; intros H; simpl.
  - apply yields_ret. by exists [].
  - eapply yields_bind; [apply H; left|]. simpl. intros o Ho.
    eapply yields_bind; [apply IH; intros y Hy; apply H; by right|].
    intros l (os & Hos & ->). apply yields_ret. exists (o :: os). split; [by constructor|done].
Qed.
End yields_rules.

(** What an observation of a rule looks like. *)
Definition node_ob (rule : RuleDef) (o : RuleObservation) : Prop :=
  ob_rule_key o = rd_key rule ∧ ob_scope o = AlertScope.node ∧ ob_scope_key o = "node"%string ∧
  ob_tenant_id o = None ∧ ob_service_id o = None.
Definition service_ob (rule : RuleDef) (svc : ServiceAlertInputs) (o : RuleObservation) : Prop :=
  ob_rule_key o = rd_key rule ∧ ob_scope o = AlertScope.service ∧
  ob_scope_key o = si_scope_key svc ∧ ob_tenant_id o = Some (si_tenant_id svc) ∧
  ob_service_id o = Some (si_service_id svc).

(** An effective rule with nothing left open. *)
Definition complete (e : EffectiveRule) : Prop :=
  is_Some (er_enabled e) ∧ is_Some (er_severity e) ∧ is_Some (er_fire_threshold e) ∧
  is_Some (er_clear_threshold e).

Lemma resolved_complete rule o : complete (_resolved_rule rule o).
Proof. destruct o; repeat split; eauto. Qed.

Section evaluate_facts.
Context {S : Type}.

Ltac yields_step :=
  match goal with
  | |- yields (mret _) (fun _ => True) => by apply yields_ret
  | |- yields (mret _) _ => apply yields_ret
  | |- yields (_ ≫= _) _ => eapply (yields_bind _ _ (fun _ => True)); [|intros ? _]
  | |- yields (get_or_raise (er_severity ?e) _) _ =>
      eapply (yields_some _ _ _ (fun _ => True)); [eassumption|done]
  | |- yields (get_or_raise (er_fire_threshold ?e) _) _ =>
      eapply (yields_some _ _ _ (fun _ => True)); [eassumption|done]
  end.

Lemma node_observation_yields rule e metric firing sev :
  complete e → yields (@_node_observation S rule e metric firing sev)
    (fun o => ∃ x, o = Some x ∧ node_ob rule x ∧ ob_metric_value x = metric ∧ ob_firing x = firing).
Proof.
  intros (_ & [v Hv] & _). unfold _node_observation, _severity.
  destruct sev; repeat yields_step; (eexists; split; [done|]; by repeat split).
Qed.

Lemma service_observation_yields rule e svc metric firing :
  complete e → yields (@_service_observation S rule e svc metric firing)
    (fun o => ∃ x, o = Some x ∧ service_ob rule svc x ∧ ob_metric_value x = metric ∧
                   ob_firing x = firing).
Proof.
  intros (_ & [v Hv] & _). unfold _service_observation, _severity.
  repeat yields_step. eexists; split; [done|]; by repeat split.
Qed.

Lemma threshold_yields e : complete e →
  yields (@_threshold S e) (fun t => er_fire_threshold e = Some t).
Proof. intros (_ & _ & [t Ht] & _). unfold _threshold. by eapply yields_some. Qed.

Ltac node_obs :=
  eapply yields_weaken; [by apply node_observation_yields|];
  intros ? (x & -> & Hx & _) ? [= <-]; exact Hx.

Lemma worker_health_yields rule e node :
  complete e →
  yields (@_worker_health_observation S rule e node) (fun o => ∀ x, o = Some x → node_ob rule x).
Proof.
  intros He. unfold _worker_health_observation. eapply (yields_bind _ _ (fun _ => True)).
  - case_match; [|by apply yields_ret].
    eapply yields_bind; [by apply threshold_yields|]. intros t _. by apply yields_ret.
  - intros backlog _. cbv zeta. repeat case_match; try (by apply yields_ret); node_obs.
Qed.

Lemma evaluate_node_yields rule e node :
  complete e →
  yields (@_evaluate_node S rule e node) (fun o => ∀ x, o = Some x → node_ob rule x).
Proof.
  intros He. unfold _evaluate_node, count_observation. cbv zeta.
  repeat case_match; try (by apply yields_ret); try node_obs; try (by apply worker_health_yields);
    (eapply yields_bind; [by apply threshold_yields|]; intros t _; node_obs).
Qed.

Lemma evaluate_service_yields rule e svc :
  complete e →
  yields (@_evaluate_service S rule e svc) (fun o => ∀ x, o = Some x → service_ob rule svc x).
Proof.
  intros He. unfold _evaluate_service. cbv zeta.
  repeat case_match; try (by apply yields_ret);
    try (eapply yields_bind; [by apply threshold_yields|]; intros t _);
    (eapply yields_weaken; [by apply service_observation_yields|];
     intros ? (x & -> & Hx & _) ? [= <-]; exact Hx).
Qed.

(** The observations of one rule: at most one for the node, or at most one per
    service, in the order of the services. *)
Definition rule_obs (inputs : AlertInputs) (rule : RuleDef) (l : list RuleObservation) : Prop :=
  match rd_scope rule with
  | AlertScope.node => ∃ o, l = option_list o ∧ ∀ x, o = Some x → node_ob rule x
  | AlertScope.service =>
      ∃ os, Forall2 (fun svc o => ∀ x, o = Some x → service_ob rule svc x)
              (ai_services inputs) os ∧ l = concat (option_list <$> os)
  end.

Lemma evaluate_rule_yields inputs eff rule :
  yields (@evaluate_rule S inputs eff rule) (fun l => rule_obs inputs rule l).
Proof.
  unfold evaluate_rule, rule_obs. pose proof (resolved_complete rule (eff (rd_key rule))) as He.
  cbv zeta. case_match.
  - apply yields_ret. destruct (rd_scope rule); [by exists None|].
    exists (replicate (length (ai_services inputs)) None). split.
    + apply Forall2_replicate_r; [done|]. by apply Forall_forall.
    + induction (length (ai_services inputs)); [done|]. simpl. done.
  - destruct (rd_scope rule).
    + eapply yields_bind; [by apply evaluate_node_yields|]. intros o Ho. apply yields_ret. eauto.
    + apply yields_collect. intros svc _. by apply evaluate_service_yields.
Qed.

Lemma evaluate_rules_yields inputs eff rules :
  yields (@evaluate_rules S inputs eff rules)
    (fun l => ∃ ls, Forall2 (rule_obs inputs) rules ls ∧ l = concat ls).
Proof.
  induction rules as [|rule rules IH]; simpl; [apply yields_ret; by exists []|].
  eapply yields_bind; [apply evaluate_rule_yields|]. intros here Hhere.
  eapply yields_bind; [exact IH|]. intros rest (ls & Hls & ->).
  apply yields_ret. exists (here :: ls). split; [by constructor|done].
Qed.
End evaluate_facts.
