(* ===== verification/Calendar.v ===== *)
(** * UTC calendar time ([datetime]) and the billing periods ([services/billing_period.py])

    A timestamp counts microseconds from the Unix epoch.  Ordinals, dates and
    [isoformat] follow Python's [datetime]; a year outside 1 to 9999 is an
    error. *)

From S2P Require Import Prelude Models PyNum.
From stdpp Require Import pretty.
Open Scope Z_scope.

(** ** The proleptic Gregorian calendar *)

Definition is_leap (y : Z) : bool :=
  (y mod 4 =? 0) && (negb (y mod 100 =? 0) || (y mod 400 =? 0)).

Definition days_before_year (y : Z) : Z :=
  let y := y - 1 in y * 365 + y / 4 - y / 100 + y / 400.

(** Days of a month, and of the months before it in a year. *)
Definition days_in_month (leap : bool) (m : Z) : Z :=
  match m with
  | 2 => if leap then 29 else 28
  | 4 | 6 | 9 | 11 => 30
  | _ => 31
  end.
Definition days_before_month (leap : bool) (m : Z) : Z :=
  match m with
  | 1 => 0 | 2 => 31 | 3 => 59 | 4 => 90 | 5 => 120 | 6 => 151 | 7 => 181 | 8 => 212
  | 9 => 243 | 10 => 273 | 11 => 304 | 12 => 334 | _ => 0
  end + (if leap && (2 <? m) then 1 else 0).

(** [date(y, m, d).toordinal()]. *)
Definition ymd2ord (y m d : Z) : Z := days_before_year y + days_before_month (is_leap y) m + d.

(** The month and day of the [n]-th day of a year, from zero. *)
Definition month_of_day (leap : bool) (n : Z) : Z * Z :=
  let month := Z.shiftr (n + 50) 5 in
  let preceding := days_before_month leap month in
  if n <? preceding then
    let month := month - 1 in
    (month, n - (preceding - days_in_month leap month) + 1)
  else (month, n - preceding + 1).

(** [date.fromordinal(n)]. *)
Definition ord2ymd (n : Z) : Z * Z * Z :=
  let n := n - 1 in
  let n400 := n / 146097 in let n := n mod 146097 in
  let n100 := n / 36524 in let n := n mod 36524 in
  let n4 := n / 1461 in let n := n mod 1461 in
  let n1 := n / 365 in let n := n mod 365 in
  let year := n400 * 400 + 1 + n100 * 100 + n4 * 4 + n1 in
  if (n1 =? 4) || (n100 =? 4) then (year - 1, 12, 31)
  else
    let leap := (n1 =? 3) && (negb (n4 =? 24) || (n100 =? 3)) in
    let '(m, d) := month_of_day leap n in (year, m, d).

(** ** Instants *)

Definition microseconds_per_day : Z := 86400000000.
Definition epoch_ordinal : Z := 719163.

Definition date_of (at_ : timestamp) : Z * Z * Z :=
  ord2ymd (at_ / microseconds_per_day + epoch_ordinal).

(** [datetime(y, m, 1, tzinfo=UTC)]. *)
Definition month_start (y m : Z) : exn + timestamp :=
  if (1 <=? y) && (y <=? 9999) then inr ((ymd2ord y m 1 - epoch_ordinal) * microseconds_per_day)
  else inl (ValueError "year is out of range").

Definition pad (width : nat) (n : Z) : string :=
  let s : string := pretty (Z.to_N n) in zeros (width - String.length s) +:+ s.

(** [value.isoformat()] of an aware UTC datetime. *)
Definition isoformat (at_ : timestamp) : string :=
  let '(y, m, d) := date_of at_ in
  let us := at_ mod microseconds_per_day in
  let s := us / 1000000 in
  let frac := us mod 1000000 in
  (pad 4 y +:+ "-" +:+ pad 2 m +:+ "-" +:+ pad 2 d +:+ "T" +:+
   pad 2 (s / 3600)%Z +:+ ":" +:+ pad 2 (s / 60 mod 60)%Z +:+ ":" +:+ pad 2 (s mod 60)%Z +:+
   (if (frac =? 0)%Z then "" else "." +:+ pad 6 frac) +:+ "+00:00")%string.

(** ** [services/billing_period.py] *)

Definition month_period (at_ : timestamp) : exn + timestamp * timestamp :=
  let '(y, m, _) := date_of at_ in
  match month_start y m with
  | inl e => inl e
  | inr period_start =>
      match (if m =? 12 then month_start (y + 1) 1 else month_start y (m + 1)) with
      | inl e => inl e
      | inr period_end => inr (period_start, period_end)
      end
  end.

Definition previous_period (period_start : timestamp) : exn + timestamp * timestamp :=
  match month_period period_start with
  | inl e => inl e
  | inr (current_start, _) =>
      let '(y, m, _) := date_of current_start in
      match (if m =? 1 then month_start (y - 1) 12 else month_start y (m - 1)) with
      | inl e => inl e
      | inr previous_start => inr (previous_start, current_start)
      end
  end.

(** ** Lemmas *)

Definition valid_date (y m d : Z) : Prop :=
  1 <= m <= 12 ∧ 1 <= d <= days_in_month (is_leap y) m.

(** Within a year, by evaluation over its days. *)
Definition month_of_day_ok (leap : bool) (n : Z) : bool :=
  let '(m, d) := month_of_day leap n in
  (days_before_month leap m + d =? n + 1) && (1 <=? m) && (m <=? 12) && (1 <=? d) &&
  (d <=? days_in_month leap m).

Lemma month_of_day_all (leap : bool) :
  forallb (month_of_day_ok leap) (Z.of_nat <$> seq 0 (if leap then 366 else 365)) = true.
Proof. destruct leap; vm_compute; reflexivity. Qed.

Lemma month_of_day_spec (leap : bool) n m d :
  0 <= n < (if leap then 366 else 365) → month_of_day leap n = (m, d) →
  days_before_month leap m + d = n + 1 ∧ 1 <= m <= 12 ∧ 1 <= d <= days_in_month leap m.
Proof.
  intros Hn E. pose proof (month_of_day_all leap) as Hall. rewrite forallb_forall in Hall.
  assert (month_of_day_ok leap n = true) as Hok.
  { apply Hall, list_elem_of_In, list_elem_of_fmap. exists (Z.to_nat n). split; [lia|].
    apply elem_of_seq. destruct leap; lia. }
  unfold month_of_day_ok in Hok. rewrite E in Hok.
  rewrite !andb_true_iff, Z.eqb_eq, !Z.leb_le in Hok. lia.
Qed.

(** Turning the page: the first of the next month follows the last day. *)
Lemma next_month_ord y m :
  1 <= m <= 12 →
  (if m =? 12 then ymd2ord (y + 1) 1 1 else ymd2ord y (m + 1) 1) =
  ymd2ord y m 1 + days_in_month (is_leap y) m.
Proof.
  intros Hm. unfold ymd2ord. destruct (Z.eqb_spec m 12) as [->|Hne].
  - assert (days_before_year (y + 1) = days_before_year y + if is_leap y then 366 else 365) as ->.
    { unfold days_before_year, is_leap.
      destruct (Z.eqb_spec (y mod 4) 0), (Z.eqb_spec (y mod 100) 0), (Z.eqb_spec (y mod 400) 0);
        simpl; Z.to_euclidean_division_equations; lia. }
    unfold days_before_month, days_in_month. destruct (is_leap y), (is_leap (y + 1)); simpl; lia.
  - assert (m = 1 ∨ m = 2 ∨ m = 3 ∨ m = 4 ∨ m = 5 ∨ m = 6 ∨ m = 7 ∨ m = 8 ∨ m = 9 ∨ m = 10 ∨
            m = 11) as Hcases by lia.
    destruct (is_leap y); repeat destruct Hcases as [->|Hcases];
      try subst m; simpl; unfold days_before_month; simpl; lia.
Qed.

(** An ordinal is the ordinal of its date. *)
Lemma ord2ymd_spec n y m d :
  ord2ymd n = (y, m, d) → ymd2ord y m d = n ∧ valid_date y m d.
Proof.
  unfold ord2ymd. cbv zeta. set (k := n - 1). intros E.
  set (n400 := k / 146097) in *. set (r400 := k mod 146097) in *.
  set (n100 := r400 / 36524) in *. set (r100 := r400 mod 36524) in *.
  set (n4 := r100 / 1461) in *. set (r4 := r100 mod 1461) in *.
  set (n1 := r4 / 365) in *. set (r1 := r4 mod 365) in *.
  assert (k = 146097 * n400 + r400 ∧ 0 <= r400 < 146097) as [Hk Hr400].
  { unfold n400, r400. Z.to_euclidean_division_equations; lia. }
  assert (r400 = 36524 * n100 + r100 ∧ 0 <= r100 < 36524 ∧ 0 <= n100 <= 4) as (Hk1 & Hr100 & Hn100).
  { unfold n100, r100. Z.to_euclidean_division_equations; lia. }
  assert (r100 = 1461 * n4 + r4 ∧ 0 <= r4 < 1461 ∧ 0 <= n4 <= 24) as (Hk2 & Hr4 & Hn4).
  { unfold n4, r4. Z.to_euclidean_division_equations; lia. }
  assert (r4 = 365 * n1 + r1 ∧ 0 <= r1 < 365 ∧ 0 <= n1 <= 4) as (Hk3 & Hr1 & Hn1).
  { unfold n1, r1. Z.to_euclidean_division_equations; lia. }
  assert (n = k + 1) as Hn by (unfold k; lia).
  clearbody n1 r1. clearbody n4 r4. clearbody n100 r100. clearbody n400 r400. clearbody k. subst n.
  destruct ((n1 =? 4) || (n100 =? 4)) eqn:Elast.
  - injection E as <- <- <-. apply orb_true_iff in Elast. rewrite !Z.eqb_eq in Elast.
    assert (is_leap (n400 * 400 + 1 + n100 * 100 + n4 * 4 + n1 - 1) = true) as Hleap.
    { unfold is_leap. destruct Elast as [-> | ->].
      - assert (n100 < 4) by lia.
        rewrite andb_true_iff, orb_true_iff, negb_true_iff, !Z.eqb_eq, Z.eqb_neq.
        Z.to_euclidean_division_equations; lia.
      - assert (n4 = 0 ∧ n1 = 0) as [-> ->] by lia.
        rewrite andb_true_iff, orb_true_iff, negb_true_iff, !Z.eqb_eq, Z.eqb_neq.
        Z.to_euclidean_division_equations; lia. }
    unfold ymd2ord, valid_date. rewrite Hleap. split; [|simpl; lia].
    unfold days_before_year. simpl days_before_month. unfold days_before_month.
    destruct Elast as [-> | ->]; simpl; Z.to_euclidean_division_equations; lia.
  - apply orb_false_iff in Elast as [E1 E100]. rewrite Z.eqb_neq in E1, E100.
    destruct (month_of_day _ r1) as [m0 d0] eqn:Em. injection E as <- <- <-.
    assert ((n1 =? 3) && (negb (n4 =? 24) || (n100 =? 3)) =
            is_leap (n400 * 400 + 1 + n100 * 100 + n4 * 4 + n1)) as Hleap.
    { apply eq_true_iff_eq. unfold is_leap.
      rewrite !andb_true_iff, !orb_true_iff, !negb_true_iff, !Z.eqb_eq, !Z.eqb_neq.
      Z.to_euclidean_division_equations; lia. }
    rewrite Hleap in Em. apply month_of_day_spec in Em as (Hsum & Hm & Hd).
    + split; [|by split]. unfold ymd2ord. enough (days_before_year
        (n400 * 400 + 1 + n100 * 100 + n4 * 4 + n1) =
        146097 * n400 + 36524 * n100 + 1461 * n4 + 365 * n1) as -> by lia.
      unfold days_before_year. Z.to_euclidean_division_equations; lia.
    + destruct (is_leap _); lia.
Qed.

Lemma days_before_year_mono y y' : y <= y' → days_before_year y <= days_before_year y'.
Proof. unfold days_before_year. intros H. Z.to_euclidean_division_equations; lia. Qed.

Lemma days_before_year_next y :
  days_before_year (y + 1) = days_before_year y + if is_leap y then 366 else 365.
Proof.
  pose proof (next_month_ord y 12 ltac:(lia)) as H. unfold ymd2ord in H. simpl in H.
  unfold days_before_month in H. destruct (is_leap y), (is_leap (y + 1)); simpl in H; lia.
Qed.

Definition month_table_ok (leap : bool) : bool :=
  forallb (fun m => (0 <=? days_before_month leap m) &&
    (days_before_month leap m + days_in_month leap m <=? (if leap then 366 else 365)) &&
    forallb (fun m' => negb (m <? m') ||
      (days_before_month leap m + days_in_month leap m <=? days_before_month leap m'))
      (Z.of_nat <$> seq 1 12)) (Z.of_nat <$> seq 1 12).

Lemma month_table (leap : bool) m m' :
  1 <= m <= 12 → 1 <= m' <= 12 →
  0 <= days_before_month leap m ∧
  days_before_month leap m + days_in_month leap m <= (if leap then 366 else 365) ∧
  (m < m' → days_before_month leap m + days_in_month leap m <= days_before_month leap m').
Proof.
  intros Hm Hm'. assert (month_table_ok leap = true) as Hok by (by destruct leap).
  assert (∀ m, 1 <= m <= 12 → In m (Z.of_nat <$> seq 1 12)) as Hin.
  { intros k Hk. apply list_elem_of_In, list_elem_of_fmap. exists (Z.to_nat k). split; [lia|].
    apply elem_of_seq. lia. }
  unfold month_table_ok in Hok. rewrite forallb_forall in Hok.
  specialize (Hok m (Hin m Hm)). rewrite !andb_true_iff, !Z.leb_le, forallb_forall in Hok.
  destruct Hok as [[H1 H2] H3]. specialize (H3 m' (Hin m' Hm')).
  rewrite orb_true_iff, negb_true_iff, Z.ltb_ge, Z.leb_le in H3. split_and!; [done|done|lia].
Qed.

(** A date is determined by its ordinal. *)
Lemma ymd2ord_inj y m d y' m' d' :
  valid_date y m d → valid_date y' m' d' → ymd2ord y m d = ymd2ord y' m' d' →
  (y, m, d) = (y', m', d').
Proof.
  intros [Hm Hd] [Hm' Hd'] E. unfold ymd2ord in E.
  destruct (month_table (is_leap y) m m Hm Hm) as (? & ? & _).
  destruct (month_table (is_leap y') m' m' Hm' Hm') as (? & ? & _).
  assert (y = y') as <-.
  { destruct (Z.lt_trichotomy y y') as [Hlt|[Heq|Hlt]]; [|done|].
    - pose proof (days_before_year_mono (y + 1) y' ltac:(lia)).
      rewrite days_before_year_next in *. destruct (is_leap y); lia.
    - pose proof (days_before_year_mono (y' + 1) y ltac:(lia)).
      rewrite days_before_year_next in *. destruct (is_leap y'); lia. }
  destruct (month_table (is_leap y) m m' Hm Hm') as (_ & _ & Hlt).
  destruct (month_table (is_leap y) m' m Hm' Hm) as (_ & _ & Hgt).
  assert (m = m') as <- by lia. assert (d = d') as <- by lia. done.
Qed.

Lemma ord2ymd_ymd2ord y m d : valid_date y m d → ord2ymd (ymd2ord y m d) = (y, m, d).
Proof.
  intros Hv. destruct (ord2ymd (ymd2ord y m d)) as [[y' m'] d'] eqn:E.
  apply ord2ymd_spec in E as [E Hv']. by apply ymd2ord_inj.
Qed.

Lemma month_start_inr y m t :
  month_start y m = inr t →
  t = (ymd2ord y m 1 - epoch_ordinal) * microseconds_per_day ∧ 1 <= y <= 9999.
Proof.
  unfold month_start. destruct (_ && _) eqn:E; [|done]. intros [= <-].
  apply andb_true_iff in E. rewrite !Z.leb_le in E. done.
Qed.

(** The instants of a month are those whose date is in it. *)
Lemma month_start_iff y m at_ :
  1 <= m <= 12 →
  (ymd2ord y m 1 - epoch_ordinal) * microseconds_per_day <= at_ <
    (ymd2ord y m 1 + days_in_month (is_leap y) m - epoch_ordinal) * microseconds_per_day ↔
  ∃ d, date_of at_ = (y, m, d).
Proof.
  intros Hm. unfold date_of.
  assert ((ymd2ord y m 1 - epoch_ordinal) * microseconds_per_day <= at_ <
    (ymd2ord y m 1 + days_in_month (is_leap y) m - epoch_ordinal) * microseconds_per_day ↔
    ymd2ord y m 1 <= at_ / microseconds_per_day + epoch_ordinal <
    ymd2ord y m 1 + days_in_month (is_leap y) m) as ->.
  { unfold microseconds_per_day. Z.to_euclidean_division_equations; lia. }
  set (n := at_ / microseconds_per_day + epoch_ordinal). clearbody n. split.
  - intros Hn. exists (n - ymd2ord y m 1 + 1).
    rewrite <- (ord2ymd_ymd2ord y m (n - ymd2ord y m 1 + 1)); [|split; [done|lia]].
    f_equal. unfold ymd2ord. lia.
  - intros (d & [<- [_ Hd]]%ord2ymd_spec). unfold ymd2ord. lia.
Qed.

Lemma month_period_inr at_ s e :
  month_period at_ = inr (s, e) ↔
  ∃ y m d, date_of at_ = (y, m, d) ∧ 1 <= m <= 12 ∧ 1 <= y ∧ (if m =? 12 then y + 1 else y) <= 9999 ∧
    s = (ymd2ord y m 1 - epoch_ordinal) * microseconds_per_day ∧
    e = (ymd2ord y m 1 + days_in_month (is_leap y) m - epoch_ordinal) * microseconds_per_day.
Proof.
  unfold month_period. destruct (date_of at_) as [[y m] d] eqn:E.
  assert (1 <= m <= 12) as Hm by (by apply ord2ymd_spec in E as [_ [? _]]).
  pose proof (next_month_ord y m Hm) as Hnext. split.
  - destruct (month_start y m) as [?|s'] eqn:Es; [done|]. apply month_start_inr in Es as [-> Hy].
    intros Ee. exists y, m, d. rewrite <- Hnext.
    destruct (m =? 12); (destruct (month_start _ _) as [?|e'] eqn:Em in Ee; [done|]);
      injection Ee as <- <-; apply month_start_inr in Em as [-> ?]; split_and!; done || lia.
  - intros (? & ? & ? & [= <- <- <-] & _ & Hy & Hy' & -> & ->). unfold month_start.
    rewrite <- Hnext. destruct (m =? 12).
    all: repeat match goal with
      | |- context [(1 <=? ?z) && (?z <=? 9999)] =>
          replace ((1 <=? z) && (z <=? 9999)) with true
            by (symmetry; apply andb_true_iff; rewrite !Z.leb_le; lia)
      end; done.
Qed.
