(* ===== verification/AlertDispatch.v ===== *)
(** * Alert notification delivery ([worker/alert_dispatch.py])

    Routing, the durable notification rows, retries and the message handed to
    a channel.  The two transports, an HTTP POST and an SMTP session, are
    parameters that answer whether the message was accepted at an instant;
    every message handed to one is recorded in the outbox. *)

From S2P Require Import Prelude Models Db PyNum OpsModels Calendar.
From stdpp Require Import pretty.
Open Scope Z_scope.

(** ** Routing *)

Definition _SEVERITY_ORDER (s : AlertSeverity.t) : Z :=
  match s with AlertSeverity.info => 0 | AlertSeverity.warning => 1 | AlertSeverity.critical => 2 end.

Definition _matches (channel : NotificationChannel) (a : Alert) : bool :=
  if _SEVERITY_ORDER (al_severity a) <? _SEVERITY_ORDER (ch_min_severity channel) then false
  else match al_scope a with
       | AlertScope.node => bool_decide (ch_tenant_id channel = None)
       | AlertScope.service =>
           bool_decide (ch_tenant_id channel = None) ||
           bool_decide (ch_tenant_id channel = al_tenant_id a)
       end.

Definition select_channels (a : Alert) : M OSession (list NotificationChannel) :=
  channels ← get_ops notification_channel;
  mret (List.filter (fun channel => _matches channel a) (select_where ch_enabled channels)).

Definition put_notification (n : AlertNotification) : M OSession unit :=
  mod_ops (fun d => d <| alert_notification := <[an_id n := n]> (alert_notification d) |>).

(** [AlertNotification(alert=..., channel=..., ...)] and [db.add]. *)
Definition add_notification (a : Alert) (trigger : string) (channel : NotificationChannel)
    : M OSession unit :=
  nid ← core uuid4;
  now ← core utc_now;
  ns ← get_ops alert_notification;
  require (bool_decide (ns !! nid = None)) (IntegrityError "alert_notification_pkey") ;;
  put_notification (mkAlertNotification nid (al_id a) (Some (ch_id channel)) (ch_name channel)
    (ch_kind channel) trigger NotificationState.pending 0 None None now now).

Definition enqueue (a : Alert) (trigger : string) : M OSession unit :=
  channels ← select_channels a;
  for_each (add_notification a trigger) channels ;;
  flush.

(** ** The message *)

Definition dict_get (k : string) (kvs : list (string * jval)) : option jval :=
  snd <$> List.find (fun kv => bool_decide (kv.1 = k)) kvs.

Definition _CONTEXT_STRING_LIMIT : nat := 2000.

Fixpoint _truncate (v : jval) : jval :=
  match v with
  | JStr s => JStr (String.substring 0 _CONTEXT_STRING_LIMIT s)
  | JObj kvs =>
      JObj ((fix go kvs :=
               match kvs with
               | [] => []
               | (k, v) :: kvs => (k, _truncate v) :: go kvs
               end) kvs)
  | JList l => JList (map _truncate l)
  | v => v
  end.

Definition _bounded_context (context : list (string * jval)) : list (string * jval) :=
  (fun kv => (kv.1, _truncate kv.2)) <$> scrub_metadata (Some context).

Definition _timestamp (value : option timestamp) : jval :=
  match value with Some t => JStr (isoformat t) | None => JNull end.

Definition opt_item (k : string) (o : option jval) : list (string * jval) :=
  match o with Some v => [(k, v)] | None => [] end.

Definition _envelope (a : Alert) : list (string * jval) :=
  let context := _bounded_context (al_context a) in
  [("alert_id", JStr (uuid_str (al_id a)));
   ("rule", JStr (al_rule_key a));
   ("severity", JStr (AlertSeverity.value (al_severity a)));
   ("scope", JStr (AlertScope.value (al_scope a)));
   ("state", JStr (AlertState.value (al_state a)));
   ("fired_at", _timestamp (al_fired_at a));
   ("metric", match al_metric_value a with Some m => JStr (dec_str m) | None => JNull end);
   ("title", default (JStr (al_rule_key a)) (dict_get "title" context));
   ("context", JObj context)]%string ++
  opt_item "service_id" (JStr ∘ uuid_str <$> al_service_id a) ++
  opt_item "tenant_id" (JStr ∘ uuid_str <$> al_tenant_id a) ++
  opt_item "resolved_at" (JStr ∘ isoformat <$> al_resolved_at a).

(** [str(header_value)] of the values [_headers] keeps; a [bool] is an [int]. *)
Definition header_text (v : jval) : option string :=
  match v with
  | JStr s => Some s
  | JInt n => Some (pretty n)
  | JBool b => Some (if b then "True" else "False")%string
  | _ => None
  end.

Definition _headers (value : option jval) : list (string * string) :=
  match value with
  | Some (JObj kvs) =>
      omap (fun kv => (fun t => (kv.1, t)) <$> header_text kv.2) kvs
  | _ => []
  end.

(** [isinstance(v, str) and v]. *)
Definition nonempty_str (v : option jval) : option string :=
  match v with
  | Some (JStr s) => if String.eqb s "" then None else Some s
  | _ => None
  end.

Fixpoint no_newline (s : string) : bool :=
  match s with
  | EmptyString => true
  | String a s =>
      let n := Ascii.N_of_ascii a in negb (N.eqb n 10 || N.eqb n 13) && no_newline s
  end.

Fixpoint join (sep : string) (l : list string) : string :=
  match l with
  | [] => ""
  | [s] => s
  | s :: l => s +:+ sep +:+ join sep l
  end.

(** What [smtplib] is asked to do. *)
Record SmtpRequest := mkSmtpRequest {
  smtp_host : string;
  smtp_port : Z;
  smtp_starttls : bool;
  smtp_login : option (string * string);
  smtp_from : string;
  smtp_to : list string;
  smtp_subject : string;
  smtp_body : list (string * jval)
}.

(** [str(v)] of the scalar values a title can have; the rules set strings. *)
Definition jval_str (v : jval) : string :=
  match v with
  | JStr s => s
  | JNull => "None"
  | JBool b => if b then "True" else "False"
  | JInt n => pretty n
  | JList _ | JObj _ => "..."
  end.

Section dispatcher.
Context (http_post : timestamp → string → list (string * jval) → list (string * string) → bool)
        (smtp_send : timestamp → SmtpRequest → bool)
        (max_attempts : Z).

Definition record_delivery (channel : NotificationChannel) (envelope : list (string * jval))
    : M OSession unit :=
  modS (fun s => s <| os_outbox := os_outbox s ++ [mkDelivery channel envelope] |>).

Definition _send_webhook (channel : NotificationChannel) (envelope : list (string * jval))
    : M OSession unit :=
  url ← get_or_raise (nonempty_str (dict_get "url" (ch_config channel)))
          (ValueError "Webhook URL is not configured");
  let headers := _headers (dict_get "headers" (ch_config channel)) in
  let headers :=
    match ch_secret channel with
    | Some secret =>
        if existsb (fun kv => bool_decide (kv.1 = "Authorization"%string)) headers then headers
        else headers ++ [("Authorization", "Bearer " +:+ secret)]%string
    | None => headers
    end in
  record_delivery channel envelope ;;
  now ← core utc_now;
  require (http_post now url envelope headers) (RuntimeError "HTTPError").

Definition _send_email (channel : NotificationChannel) (envelope : list (string * jval))
    : M OSession unit :=
  let config := ch_config channel in
  host ← get_or_raise (nonempty_str (dict_get "smtp_host" config))
           (ValueError "SMTP host is not configured");
  sender ← get_or_raise (nonempty_str (dict_get "from" config))
             (ValueError "SMTP sender is not configured");
  recipients ← get_or_raise
    match dict_get "to" config with Some (JList l) => Some l | _ => None end
    (ValueError "SMTP recipients are not configured");
  let recipient_list := omap (fun v => nonempty_str (Some v)) recipients in
  require (negb (bool_decide (recipient_list = [])))
    (ValueError "SMTP recipients are not configured") ;;
  port ← get_or_raise
    match default (JInt 25) (dict_get "port" config) with
    | JInt n => Some n
    | JBool b => Some (if b then 1 else 0)
    | _ => None
    end (ValueError "SMTP port is invalid");
  let subject := jval_str (default JNull (dict_get "title" envelope)) in
  require (no_newline sender && no_newline (join ", " recipient_list) && no_newline subject)
    (ValueError "Header values may not contain linefeed or carriage return characters") ;;
  let starttls :=
    match dict_get "use_tls" config with Some (JBool true) => true | _ => false end in
  let login :=
    match nonempty_str (dict_get "username" config), ch_secret channel with
    | Some username, Some secret => Some (username, secret)
    | _, _ => None
    end in
  record_delivery channel envelope ;;
  now ← core utc_now;
  require (smtp_send now
    (mkSmtpRequest host port starttls login sender recipient_list subject envelope))
    (RuntimeError "SMTPException").

Definition _send (channel : NotificationChannel) (a : Alert) : M OSession unit :=
  let envelope := _envelope a in
  match ch_kind channel with
  | ChannelKind.webhook => _send_webhook channel envelope
  | ChannelKind.email => _send_email channel envelope
  end.

(** ** Attempts and retries *)

(** The default of [retry_backoff_seconds], which no caller changes. *)
Definition retry_backoff_seconds : Z := 5.
(** The longest [timedelta], in seconds. *)
Definition timedelta_max_seconds : Z := 86399999999999.
Definition microseconds (seconds : Z) : Z := seconds * 1000000.

Definition set_failed_state (now : timestamp) (n : AlertNotification) : AlertNotification :=
  n <| an_state := NotificationState.failed |> <| an_updated_at := now |>.

Definition _mark_failure (now : timestamp) (n : AlertNotification) : AlertNotification :=
  n <| an_attempts := an_attempts n + 1 |>
    <| an_last_error := Some "Alert channel delivery failed"%string |>
    <| an_state := if max_attempts <=? an_attempts n + 1 then NotificationState.failed
                   else NotificationState.retrying |>
    <| an_updated_at := now |>.

Definition mark_sent (now : timestamp) (n : AlertNotification) : AlertNotification :=
  n <| an_attempts := an_attempts n + 1 |> <| an_state := NotificationState.sent |>
    <| an_last_error := None |> <| an_sent_at := Some now |> <| an_updated_at := now |>.

Definition _retry_due (n : AlertNotification) (now : timestamp) : M OSession bool :=
  if bool_decide (an_state n = NotificationState.pending) then mret true
  else if max_attempts <=? an_attempts n then
    put_notification (set_failed_state now n) ;; mret false
  else
    let backoff := retry_backoff_seconds * 2 ^ Z.max (an_attempts n - 1) 0 in
    require (backoff <=? timedelta_max_seconds) OverflowError ;;
    mret (microseconds backoff <=? now - an_updated_at n).

(** [try: await self._send(...) except Exception: ...]: whether it went through. *)
Definition attempted (send : M OSession unit) : M OSession bool :=
  try_except (send ;; mret true) (fun _ => mret false).

(** An exception of the transport is recorded as a failed attempt. *)
Definition deliver (n : AlertNotification) (a : Alert) (channel : NotificationChannel)
    : M OSession unit :=
  now ← core utc_now;
  ok ← attempted (_send channel a);
  put_notification (if (ok : bool) then mark_sent now n else _mark_failure now n).

Definition open_state (n : AlertNotification) : bool :=
  bool_decide (an_state n = NotificationState.pending) ||
  bool_decide (an_state n = NotificationState.retrying).

Definition dispatch_one (n : AlertNotification) : M OSession unit :=
  now ← core utc_now;
  due ← _retry_due n now;
  if negb due then mret tt else
  alerts ← get_ops alert;
  channels ← get_ops notification_channel;
  match alerts !! an_alert_id n, an_channel_id n ≫= fun c => channels !! c with
  | Some a, Some channel => deliver n a channel
  | _, _ => put_notification (_mark_failure now n)
  end.

Definition dispatch_pending : M OSession unit :=
  ns ← get_ops alert_notification;
  for_each dispatch_one (order_by an_created_at (select_where open_state ns)) ;;
  flush.

(** ** Test deliveries *)

Record TestDeliveryResult := mkTestDeliveryResult {
  td_state : NotificationState.t;
  td_attempts : Z;
  td_error : option string
}.

(** The synthetic alert of [send_test]. *)
Definition synthetic_alert (id : uuid) (now : timestamp) : Alert :=
  mkAlert id "test" AlertScope.node "" None None None AlertSeverity.info AlertState.firing None
    [("title", JStr "Alert channel test")]%string 0 0 now (Some now) None None None None.

Definition send_test (channel : NotificationChannel) : M OSession TestDeliveryResult :=
  id ← core uuid4;
  now ← core utc_now;
  ok ← attempted (_send channel (synthetic_alert id now));
  mret (if (ok : bool) then mkTestDeliveryResult NotificationState.sent 1 None
        else mkTestDeliveryResult NotificationState.failed 1
               (Some "Alert channel test delivery failed"%string)).
End dispatcher.
