(* ===== verification/AlertSources.v ===== *)
(** * The persisted inputs of the alert rules ([worker/alert_sources.py],
    [services/telemetry_math.py]) *)

From S2P Require Import Prelude Models Db PyNum OpsModels Calendar.
From S2P Require Import AlertRules AlertDispatch.
From stdpp Require Import pretty.
Open Scope Z_scope.

(** ** [services/telemetry_math.py] *)

(** [int(plan.committed_clean_gbps * 1000000000)]; the column holds hundredths. *)
Definition committed_clean_bps (plan : option ServicePlan) : Z :=
  match plan with
  | None => 0
  | Some plan => plan_committed_clean_gbps plan * 10000000
  end.

Definition committed_honored (bps : Z) (plan : option ServicePlan) : option bool :=
  match plan with
  | None => None
  | Some _ => Some (committed_clean_bps plan <=? bps)
  end.

(** ** Window functions *)

(** [row_number() over (partition_by=group, order_by=keys desc) == 1]; the keys
    end in the primary key, so the order is total. *)
Definition rank_one {A} (same_group : A → A → bool) (keys : A → list Z) (l : list A) : list A :=
  List.filter (fun r => forallb (fun r' => negb (same_group r r') || lex_geb (keys r) (keys r')) l) l.

Definition id_key (id : uuid) : Z := Zpos id.

Record AlertSources := mkAlertSources {
  telemetry_stale_seconds : Z;      (* as a timedelta, in microseconds *)
  stuck_applying_seconds : Z
}.

Record _JobInputs := mkJobInputs {
  ji_queued_count : Z;
  ji_failed_count : Z;
  ji_stuck_applying : bool
}.

Definition count_if {A} (p : A → bool) (l : list A) : Z := Z.of_nat (length (List.filter p l)).

Section sources.
Context (self : AlertSources).

Definition is_status (s : JobStatus.t) (j : AgentJob) : bool := bool_decide (job_status j = s).

Definition _job_inputs (d : Db) (now : timestamp) : _JobInputs :=
  let jobs := select_where (fun j => is_status JobStatus.queued j || is_status JobStatus.failed j ||
                                     is_status JobStatus.applying j) (agent_job d) in
  let applying_started :=
    (fun j => default (job_created_at j) (job_started_at j)) <$>
      List.filter (is_status JobStatus.applying) jobs in
  let stuck_applying :=
    match applying_started with
    | [] => false
    | t :: ts => stuck_applying_seconds self <=? now - foldr Z.min t ts
    end in
  mkJobInputs (count_if (is_status JobStatus.queued) jobs)
    (int_of_bool (existsb (is_status JobStatus.failed) jobs)) stuck_applying.

Definition _latest_feed_runs (successful_only : bool) (d : Db) : list FeedSyncRun :=
  let good r := bool_decide (run_status r = FeedSyncStatus.success) ||
                bool_decide (run_status r = FeedSyncStatus.partial) in
  rank_one (fun r r' => bool_decide (run_feed_source_id r = run_feed_source_id r'))
    (fun r => [run_sequence r; id_key (run_id r)])
    (select_where (fun r => negb successful_only || good r) (feed_sync_run d)).

Definition _feed_failure_count (d : Db) : Z :=
  count_if (fun r => bool_decide (run_status r = FeedSyncStatus.failed)) (_latest_feed_runs false d).

(** The count for one service; a service without a group counts zero. *)
Definition _overlap_counts (d : Db) (service : uuid) : Z :=
  let latest := _latest_feed_runs true d in
  count_if (fun o => bool_decide (overlap_service_id o = service) &&
    existsb (fun r => bool_decide (run_id r = overlap_feed_sync_run_id o)) latest)
    (feed_sync_overlap d).

Definition _telemetry_stale (health : option NodeHealthSnapshot) (now : timestamp) : option bool :=
  (fun h => telemetry_stale_seconds self <=? now - nh_captured_at h) <$> health.

(** [isinstance(value, int)] holds of a [bool] too. *)
Definition _bloom_false_positives (health : option NodeHealthSnapshot) : option Z :=
  match (health ≫= nh_bloom_stats) ≫= dict_get "bloom_hit_lpm_miss" with
  | Some (JInt n) => Some n
  | Some (JBool b) => Some (int_of_bool b)
  | _ => None
  end.

Definition _drop_bps (counter : option TelemetryCounter) : option Z :=
  match counter with
  | None => None
  | Some c => if tc_window_seconds c <=? 0 then None
              else Some (tc_drop_bytes c * 8 / tc_window_seconds c)
  end.

Definition _total_bps (counter : option TelemetryCounter) : option Z :=
  match counter, _drop_bps counter with
  | Some c, Some drop_bps => Some (tc_bps c + drop_bps)
  | _, _ => None
  end.

Definition latest_counters (o : OpsDb) : list TelemetryCounter :=
  rank_one (fun r r' => bool_decide (tc_service_id r = tc_service_id r'))
    (fun r => [tc_window_start r; id_key (tc_id r)])
    (select_where (fun r => bool_decide (tc_scope r = TelemetryScope.service) &&
                            negb (tc_is_baseline r)) (telemetry_counter o)).

Definition _service_rows (d : Db) (o : OpsDb)
    : list (ProtectedService * option ServicePlan * option TelemetryCounter) :=
  let latest := latest_counters o in
  (fun s => (s, service_plan d !! svc_id s,
             List.find (fun c => bool_decide (tc_service_id c = Some (svc_id s))) latest)) <$>
    order_by svc_dp_id (rows (protected_service d)).

Definition service_inputs (d : Db)
    (row : ProtectedService * option ServicePlan * option TelemetryCounter) : ServiceAlertInputs :=
  let '(service, plan, counter) := row in
  mkServiceAlertInputs (pretty (svc_dp_id service)) (svc_tenant_id service) (svc_id service)
    (tc_bps <$> counter) (Some (committed_clean_bps plan)) (_drop_bps counter)
    (_total_bps counter) (Some (_overlap_counts d (svc_id service))).

Definition latest_health (o : OpsDb) : option NodeHealthSnapshot :=
  head (order_by_desc (fun h => [nh_captured_at h; id_key (nh_id h)])
          (rows (node_health_snapshot o))).

Definition load_inputs (d : Db) (o : OpsDb) (now : timestamp) : AlertInputs :=
  let health := latest_health o in
  let jobs := _job_inputs d now in
  let control := node_control d in
  mkAlertInputs
    (mkNodeAlertInputs (nh_map_error_count <$> health)
       (XdpMode.value ∘ nh_xdp_mode <$> health) (nh_node_clean_bps <$> health)
       (nh_node_capacity_bps <$> health) (Some (ji_failed_count jobs))
       (Some (ji_queued_count jobs)) (Some (ji_stuck_applying jobs))
       (_telemetry_stale health now) (Some (_feed_failure_count d))
       (_bloom_false_positives health) (nc_bypass_enabled <$> control)
       (nc_maintenance_enabled <$> control))
    (service_inputs d <$> _service_rows d o).

Definition load (now : timestamp) : M OSession AlertInputs :=
  d ← core (get_db id);
  o ← get_ops id;
  mret (load_inputs d o now).
End sources.
