(* ===== verification/AlertEvaluator.v ===== *)
(** * The alert lifecycle lane ([worker/alert_evaluator.py])

    An alert walks from pending through firing to resolved; every streak and
    timestamp lives on its row.  The sources and the notification dispatcher
    are the ones of [AlertSources] and [AlertDispatch]. *)

From S2P Require Import Prelude Models Db PyNum OpsModels Calendar.
From S2P Require Import AlertRules AlertDispatch AlertSources.
Open Scope Z_scope.

Record AlertEvaluator := mkAlertEvaluator {
  ev_sources : AlertSources;
  ev_fire_ticks : Z;
  ev_clear_ticks : Z;
  ev_renotify : Z;                    (* timedelta(seconds=renotify_seconds) *)
  ev_history_retention_days : Z;
  ev_max_attempts : Z
}.

(** The mappings a tick works with, by rule key. *)
Abbreviation effective_rules := (string → option EffectiveRule).
Abbreviation silence_map := (string → bool).

Definition active (a : Alert) : bool := negb (bool_decide (al_state a = AlertState.resolved)).

Definition al_key (a : Alert) : string * string := (al_rule_key a, al_scope_key a).

(** [RULE_BY_KEY]: the catalog's keys are distinct. *)
Definition RULE_BY_KEY (key : string) : option RuleDef :=
  List.find (fun rule => bool_decide (rd_key rule = key)) RULES.

(** [_load_rules], for one key. *)
Definition effective_rule (persisted : gmap string AlertRule) (key : string)
    : option EffectiveRule :=
  match RULE_BY_KEY key with
  | None => None
  | Some definition =>
      Some match persisted !! key with
           | None =>
               mkEffectiveRule (Some (rd_default_enabled definition))
                 (Some (rd_severity definition)) (Some (rd_fire_threshold definition))
                 (Some (rd_clear_threshold definition))
           | Some row =>
               mkEffectiveRule (Some (ar_enabled row))
                 (Some (default (rd_severity definition) (ar_severity_override row)))
                 (Some (default (rd_fire_threshold definition)
                    (MFloat ∘ float_of_dec <$> ar_fire_threshold_override row)))
                 (Some (default (rd_clear_threshold definition)
                    (MFloat ∘ float_of_dec <$> ar_clear_threshold_override row)))
           end
  end.

Definition silenced_rule (persisted : gmap string AlertRule) (key : string) : bool :=
  match RULE_BY_KEY key with
  | None => false
  | Some definition =>
      match persisted !! key with
      | None => rd_silence_in_maintenance definition
      | Some row => ar_silence_in_maintenance row
      end
  end.

Definition _load_rules : M OSession (effective_rules * silence_map) :=
  persisted ← get_ops alert_rule;
  mret (effective_rule persisted, silenced_rule persisted).

Definition put_alert (a : Alert) : M OSession unit :=
  mod_ops (fun d => d <| alert := <[al_id a := a]> (alert d) |>).

Definition _in_hysteresis_band (o : RuleObservation) (effective : option EffectiveRule)
    : M OSession bool :=
  match effective with
  | None => mret false
  | Some e =>
      match er_fire_threshold e, er_clear_threshold e with
      | Some f, Some c =>
          mret (if num_eqb f c then false else num_geb (ob_metric_value o) c)
      | None, None => mret false
      | _, None => raise AssertionError
      | None, Some c => mret (num_geb (ob_metric_value o) c)
      end
  end.

Section evaluator.
Context (http_post : timestamp → string → list (string * jval) → list (string * string) → bool)
        (smtp_send : timestamp → SmtpRequest → bool)
        (self : AlertEvaluator).

Definition _renotify_due (a : Alert) (now : timestamp) : bool :=
  match al_acknowledged_at a, al_last_notified_at a with
  | None, Some t => ev_renotify self <=? now - t
  | _, _ => false
  end.

Definition _audit_critical (a : Alert) : M OSession unit :=
  core (record_event None "alert.fired" (Some "alert"%string) (Some (uuid_str (al_id a)))
    "critical" None
    (Some [("rule_key", JStr (al_rule_key a)); ("scope_key", JStr (al_scope_key a));
           ("severity", JStr (AlertSeverity.value (al_severity a)));
           ("metric_value",
              match al_metric_value a with Some m => JStr (dec_str m) | None => JNull end);
           ("context", JObj (al_context a))]%string)) ;;
  flush.

Section tick.
Context (now : timestamp) (maintenance_enabled : bool)
        (effective : effective_rules) (silence_in_maintenance : silence_map).

(** The alert as the caller leaves it; returns the row with the notification
    mark, which is stored before the channels are selected. *)
Definition _enqueue (a : Alert) (trigger : string) : M OSession Alert :=
  if maintenance_enabled && silence_in_maintenance (al_rule_key a) then put_alert a ;; mret a
  else
    let a := a <| al_last_notified_at := Some now |> in
    put_alert a ;; enqueue a trigger ;; mret a.

Definition is_critical (a : Alert) : bool := bool_decide (al_severity a = AlertSeverity.critical).

Definition _fire (a : Alert) : M OSession unit :=
  a ← _enqueue (a <| al_state := AlertState.firing |> <| al_fired_at := Some now |>
                  <| al_clear_streak := 0 |>) "fire";
  if is_critical a then _audit_critical a else mret tt.

Definition _resolve (a : Alert) : M OSession unit :=
  if bool_decide (al_state a = AlertState.resolved) then mret tt else
  _enqueue (a <| al_state := AlertState.resolved |> <| al_resolved_at := Some now |>) "resolve" ;;
  mret tt.

(** The partial unique index [uq_alert_active_scope]. *)
Definition active_taken (d : OpsDb) (key : string * string) : bool :=
  negb (bool_decide (select_where (fun a => active a && bool_decide (al_key a = key)) (alert d) = [])).

Definition _open_pending (o : RuleObservation) : M OSession unit :=
  aid ← core uuid4;
  d ← get_ops id;
  let a := mkAlert aid (ob_rule_key o) (ob_scope o) (ob_scope_key o) (ob_service_id o)
             (ob_tenant_id o) None (ob_severity o) AlertState.pending
             (Some (dec_of_metric (ob_metric_value o))) (ob_context o) 1 0 now
             None None None None None in
  require (bool_decide (alert d !! aid = None)) (IntegrityError "alert_pkey") ;;
  require (negb (active_taken d (ob_key o))) (IntegrityError "uq_alert_active_scope") ;;
  put_alert a ;;
  flush ;;
  if ev_fire_ticks self <=? 1 then _fire a else mret tt.

Definition observed (a : Alert) (o : RuleObservation) : Alert :=
  a <| al_metric_value := Some (dec_of_metric (ob_metric_value o)) |>
    <| al_context := ob_context o |> <| al_severity := ob_severity o |>.

Definition _reconcile_observation (a0 : Alert) (o : RuleObservation) : M OSession unit :=
  let a := observed a0 o in
  if ob_firing o then
    let a := a <| al_clear_streak := 0 |> in
    match al_state a with
    | AlertState.pending =>
        let a := a <| al_fire_streak := al_fire_streak a + 1 |> in
        if ev_fire_ticks self <=? al_fire_streak a then _fire a else put_alert a
    | AlertState.firing =>
        put_alert a ;;
        (if negb (is_critical a0) && is_critical a then _audit_critical a else mret tt) ;;
        (if _renotify_due a now then _enqueue a "reminder" ;; mret tt else mret tt)
    | AlertState.resolved => put_alert a
    end
  else
    match al_state a with
    | AlertState.pending =>
        put_alert (a <| al_fire_streak := 0 |> <| al_clear_streak := 0 |>)
    | _ =>
        band ← _in_hysteresis_band o (effective (ob_rule_key o));
        if (band : bool) then put_alert (a <| al_clear_streak := 0 |>)
        else
          let a := a <| al_clear_streak := al_clear_streak a + 1 |> in
          if ev_clear_ticks self <=? al_clear_streak a then _resolve a else put_alert a
    end.

(** [active_by_key.get(key)]; a key kept twice answers with the last row. *)
Definition lookup_active (actives : list Alert) (key : string * string) : option Alert :=
  last (List.filter (fun a => bool_decide (al_key a = key)) actives).

(** The row object behind an entry of the list, with the assignments made so far. *)
Definition current (a : Alert) : M OSession Alert :=
  alerts ← get_ops alert;
  mret (default a (alerts !! al_id a)).

Definition observe (actives : list Alert) (o : RuleObservation) : M OSession unit :=
  match lookup_active actives (ob_key o) with
  | None => if ob_firing o then _open_pending o else mret tt
  | Some a => a ← current a; _reconcile_observation a o
  end.

Definition resolve_unobserved (observations : list RuleObservation) (a : Alert) : M OSession unit :=
  if existsb (fun o => bool_decide (ob_key o = al_key a)) observations then mret tt
  else a ← current a; _resolve a.

Definition reconcile (observations : list RuleObservation) : M OSession unit :=
  alerts ← get_ops alert;
  let active_alerts := select_where active alerts in
  for_each (observe active_alerts) observations ;;
  for_each (resolve_unobserved observations) active_alerts.
End tick.

Definition expired (cutoff : timestamp) (a : Alert) : bool :=
  bool_decide (al_state a = AlertState.resolved) &&
  match al_resolved_at a with Some t => t <? cutoff | None => false end.

Definition prune_history (now : timestamp) : M OSession unit :=
  let cutoff := now - ev_history_retention_days self * microseconds_per_day in
  mod_ops (alerts_deleted (expired cutoff)).

Definition tick_body : M OSession unit :=
  now ← core utc_now;
  inputs ← load (ev_sources self) now;
  rules ← _load_rules;
  let '(effective, silence_in_maintenance) := rules in
  observations ← evaluate inputs effective;
  reconcile now (default false (ni_maintenance_enabled (ai_node inputs))) effective
    silence_in_maintenance observations ;;
  prune_history now ;;
  dispatch_pending http_post smtp_send (ev_max_attempts self).

Definition tick : M OWorld unit := ops_scope tick_body.
End evaluator.
