(* ===== verification/AlertInv.v ===== *)
(** * The alert lifecycle, row by row

    What each handler of the evaluator does to the alert table, and the
    well-formedness of the table. *)

From S2P Require Import Prelude Models Db PyNum OpsModels AlertRules AlertDispatch.
From S2P Require Import AlertSources AlertEvaluator.
Open Scope Z_scope.

(** ** What a computation may do to the state it runs on

    [moves R m]: whether [m] returns or raises, its states are related by the
    preorder [R].  The rules follow the monad, so that a frame property of a
    lane is proved by walking its code. *)

Lemma bind_inl {S A B} (m : M S A) (k : A → M S B) s s' e :
  (m ≫= k) s = (inl e, s') →
  m s = (inl e, s') ∨ ∃ a s1, m s = (inr a, s1) ∧ k a s1 = (inl e, s').
Proof. rewrite bind_run. destruct (m s) as [[e'|a] s1]; [by intros [= <- <-]; left|eauto]. Qed.

Definition moves {S A} (R : S → S → Prop) (m : M S A) : Prop := ∀ s, R s (m s).2.

Lemma moves_inr {S A} (R : S → S → Prop) (m : M S A) s a s' :
  moves R m → m s = (inr a, s') → R s s'.
Proof. intros Hm E. pose proof (Hm s) as H. by rewrite E in H. Qed.

Section moves_rules.
Context {S : Type} (R : S → S → Prop) `{!PreOrder R}.

Lemma moves_ret {A} (a : A) : moves R (mret a).
Proof. intros s. simpl. reflexivity. Qed.
Lemma moves_raise {A} e : moves R (@raise S A e).
Proof. intros s. simpl. reflexivity. Qed.
Lemma moves_gets {A} (f : S → A) : moves R (gets f).
Proof. intros s. simpl. reflexivity. Qed.
Lemma moves_lift {A} (r : exn + A) : moves R (lift r).
Proof. intros s. simpl. reflexivity. Qed.
Lemma moves_require b e : moves R (require b e).
Proof. destruct b; [apply moves_ret|apply moves_raise]. Qed.
Lemma moves_get_or_raise {A} (o : option A) e : moves R (get_or_raise o e).
Proof. destruct o; [apply moves_ret|apply moves_raise]. Qed.
Lemma moves_modS f : (∀ s, R s (f s)) → moves R (modS f).
Proof. by intros H s. Qed.

Lemma moves_bind {A B} (m : M S A) (k : A → M S B) :
  moves R m → (∀ a, moves R (k a)) → moves R (m ≫= k).
Proof.
  intros Hm Hk s. rewrite bind_run. pose proof (Hm s) as H.
  destruct (m s) as [[e|a] s1]; [done|]. etrans; [exact H|apply Hk].
Qed.

Lemma moves_for_each {A} (f : A → M S unit) xs : (∀ x, moves R (f x)) → moves R (for_each f xs).
Proof. intros Hf. induction xs; simpl; [apply moves_ret|by apply moves_bind]. Qed.

Lemma moves_try {A} (m : M S A) h :
  moves R m → (∀ e, moves R (h e)) → moves R (try_except m h).
Proof.
  intros Hm Hh s. unfold try_except. pose proof (Hm s) as H.
  destruct (m s) as [[e|a] s1]; [|done]. etrans; [exact H|apply Hh].
Qed.

Lemma moves_yields {A} (m : M S A) P : yields m P → moves R m.
Proof. intros (a & H & _) s. rewrite H. reflexivity. Qed.
End moves_rules.

Lemma moves_core {A} (R : OSession → OSession → Prop) (m : M Session A) :
  (∀ s t, R s (s <| os_session := t |>)) → moves R (core m).
Proof. intros H s. unfold core. destruct (m (os_session s)) as [r t]. apply H. Qed.

Lemma moves_mod_ops (R : OSession → OSession → Prop) f :
  (∀ s, R s (s <| ops := f (ops s) |>)) → moves R (mod_ops f).
Proof. by intros H s. Qed.

(** Reading the configuration tables changes nothing. *)
Lemma core_get_run {A} (f : Db → A) s : core (get_db f) s = (inr (f (os_db s)), s).
Proof. by destruct s. Qed.
Lemma core_now_run s : core utc_now s = (inr (clock (os_db s)), s).
Proof. by destruct s. Qed.
Lemma moves_core_now R `{!PreOrder R} : moves R (core utc_now).
Proof. intros s. rewrite core_now_run. simpl. reflexivity. Qed.

Create HintDb ops.
#[export] Hint Resolve moves_ret moves_raise moves_gets moves_lift moves_require
  moves_get_or_raise : ops.

Ltac moves_step :=
  lazymatch goal with
  | |- moves _ (_ ≫= _) => apply (moves_bind _); [|intros ?]
  | |- moves _ (for_each _ _) => apply (moves_for_each _); intros ?
  | |- moves _ (try_except _ _) => apply (moves_try _); [|intros ?]
  | |- moves _ (core utc_now) => apply (moves_core_now _)
  | |- moves _ (core _) => apply moves_core; intros ? ?; try done
  | |- moves _ (mod_ops _) => apply moves_mod_ops; intros ?; try done
  | |- moves _ (modS _) => apply (moves_modS _); intros ?; try done
  | |- moves _ (get_ops _) => apply (moves_gets _)
  | |- moves _ (let _ := _ in _) => cbv zeta
  | |- moves _ (match ?x with _ => _ end) => destruct x eqn:?
  | |- moves _ _ => solve [eauto with ops typeclass_instances]
  end.
Ltac moves_auto := repeat moves_step.

Lemma moves_flush R `{!PreOrder R} : moves R flush.
Proof. unfold flush. moves_auto. Qed.
#[export] Hint Resolve moves_flush : ops.

(** The session and the tables, apart from what was sent. *)
Definition same_tables (s s' : OSession) : Prop := os_session s' = os_session s ∧ ops s' = ops s.
#[global] Instance same_tables_preorder : PreOrder same_tables.
Proof.
  split; [done|]. intros s1 s2 s3 [H1 H2] [H3 H4]. split; congruence.
Qed.

(** ** The abstract lifecycle of one key *)

Inductive Life := Idle | Pending (streak : Z) | Firing (clear : Z).
(** What a tick sees of a key: nothing, a firing observation, one held by the
    hysteresis band, or a clear one. *)
Inductive Sight := Absent | Fires | Holds | Clears.

Definition life_step (fire_ticks clear_ticks : Z) (l : Life) (s : Sight) : Life :=
  match l, s with
  | Idle, Fires => if fire_ticks <=? 1 then Firing 0 else Pending 1
  | Idle, _ => Idle
  | Pending k, Fires => if fire_ticks <=? k + 1 then Firing 0 else Pending (k + 1)
  | Pending _, (Holds | Clears) => Pending 0
  | Firing _, (Fires | Holds) => Firing 0
  | Firing c, Clears => if clear_ticks <=? c + 1 then Idle else Firing (c + 1)
  | _, Absent => Idle
  end.

Definition life_row (a : Alert) : Life :=
  match al_state a with
  | AlertState.pending => Pending (al_fire_streak a)
  | AlertState.firing => Firing (al_clear_streak a)
  | AlertState.resolved => Idle
  end.

Definition active_with (k : string * string) (a : Alert) : bool :=
  active a && bool_decide (al_key a = k).

Definition life (t : gmap uuid Alert) (k : string * string) : Life :=
  match select_where (active_with k) t with
  | [] => Idle
  | a :: _ => life_row a
  end.

(** The hysteresis decision as a value. *)
Definition band_value (effective : option EffectiveRule) (o : RuleObservation) : bool :=
  match effective with
  | None => false
  | Some e =>
      match er_fire_threshold e, er_clear_threshold e with
      | Some f, Some c => if num_eqb f c then false else num_geb (ob_metric_value o) c
      | None, Some c => num_geb (ob_metric_value o) c
      | _, None => false
      end
  end.

Definition sight_ob (effective : effective_rules) (o : RuleObservation) : Sight :=
  if ob_firing o then Fires
  else if band_value (effective (ob_rule_key o)) o then Holds else Clears.

Definition sight (effective : effective_rules) (os : list RuleObservation) (k : string * string)
    : Sight :=
  match List.find (fun o => bool_decide (ob_key o = k)) os with
  | None => Absent
  | Some o => sight_ob effective o
  end.

(** ** Well-formed tables *)

Record row_wf (fire_ticks clear_ticks : Z) (a : Alert) : Prop := {
  wf_pending : al_state a = AlertState.pending →
    al_fired_at a = None ∧ al_resolved_at a = None ∧ al_clear_streak a = 0 ∧
    0 <= al_fire_streak a < fire_ticks;
  wf_firing : al_state a = AlertState.firing →
    is_Some (al_fired_at a) ∧ al_resolved_at a = None ∧ 0 <= al_clear_streak a < clear_ticks;
  wf_resolved : al_state a = AlertState.resolved → is_Some (al_resolved_at a);
  wf_scope : al_scope a = AlertScope.node → al_tenant_id a = None ∧ al_service_id a = None
}.

Record table_wf (fire_ticks clear_ticks : Z) (t : gmap uuid Alert) : Prop := {
  wf_ids : ∀ i a, t !! i = Some a → al_id a = i;
  wf_rows : ∀ i a, t !! i = Some a → row_wf fire_ticks clear_ticks a;
  wf_unique : ∀ i a j b, t !! i = Some a → t !! j = Some b → active a = true → active b = true →
    al_key a = al_key b → i = j
}.

Lemma active_life a : active a = false ↔ life_row a = Idle.
Proof. unfold active, life_row. by destruct (al_state a). Qed.

Lemma active_with_true k a : active_with k a = true ↔ active a = true ∧ al_key a = k.
Proof. unfold active_with. by rewrite andb_true_iff, bool_decide_eq_true. Qed.

(** *** The life of a key in a table *)
Section life_lemmas.
Context (t : gmap uuid Alert).
Hypothesis unique : ∀ i a j b, t !! i = Some a → t !! j = Some b → active a = true →
  active b = true → al_key a = al_key b → i = j.

Lemma life_active i a k :
  t !! i = Some a → active a = true → al_key a = k → life t k = life_row a.
Proof.
  intros Hi Ha <-. unfold life. rewrite (select_where_unique _ _ i a); [done..| |].
  - by apply active_with_true.
  - intros j b Hj [Hb Hk]%active_with_true. by eapply unique.
Qed.
End life_lemmas.

Lemma life_none (t : gmap uuid Alert) k :
  (∀ i a, t !! i = Some a → active a = true → al_key a ≠ k) → life t k = Idle.
Proof.
  intros H. unfold life. rewrite (proj2 (select_where_nil _ _)); [done|].
  intros i a Hi. apply not_true_iff_false. intros [Ha Hk]%active_with_true. by eapply H.
Qed.

(** The life of a key is read from its active rows, in whatever order. *)
Lemma life_cases (t : gmap uuid Alert) k :
  (∃ i a, t !! i = Some a ∧ active a = true ∧ al_key a = k) ∨
  (∀ i a, t !! i = Some a → active a = true → al_key a ≠ k).
Proof.
  destruct (select_where (active_with k) t) as [|a l] eqn:E.
  - right. rewrite select_where_nil in E. intros i a Hi Ha Hk.
    specialize (E i a Hi). assert (active_with k a = true) by (by apply active_with_true). congruence.
  - left. assert (a ∈ select_where (active_with k) t) as Hin by (rewrite E; left).
    apply elem_of_select in Hin as ([Ha Hk]%active_with_true & i & Hi). eauto.
Qed.

Section with_ticks.
Context (ft ct : Z).

(** Writing a row of a key touches that key only. *)
Lemma table_wf_insert (t : gmap uuid Alert) i a' :
  table_wf ft ct t → al_id a' = i → row_wf ft ct a' →
  (∀ j b, j ≠ i → t !! j = Some b → active b = true → al_key b ≠ al_key a') →
  table_wf ft ct (<[i := a']> t).
Proof.
  intros [Hids Hrows Huniq] Hid Hrow Hother. split.
  - intros j b [[<- <-]|[Hne Hj]]%lookup_insert_Some; [done|by apply Hids].
  - intros j b [[<- <-]|[Hne Hj]]%lookup_insert_Some; [done|by eapply Hrows].
  - intros j b j' b' Hj Hj' Hb Hb' Hk.
    apply lookup_insert_Some in Hj as [[<- <-]|[Hne Hj]];
      apply lookup_insert_Some in Hj' as [[<- <-]|[Hne' Hj']]; [done|..].
    + by destruct (Hother j' b').
    + by destruct (Hother j b).
    + by eapply Huniq.
Qed.

Lemma life_insert (t : gmap uuid Alert) i a' k :
  table_wf ft ct t → table_wf ft ct (<[i := a']> t) →
  (∀ j b, j ≠ i → t !! j = Some b → active b = true → al_key b ≠ al_key a') →
  (∀ a, t !! i = Some a → al_key a = al_key a') →
  life (<[i := a']> t) k = if decide (k = al_key a') then life_row a' else life t k.
Proof.
  intros Hwf Hwf' Hother Hsame. destruct (decide (k = al_key a')) as [->|Hne].
  - destruct (active a') eqn:Ea.
    + apply (life_active _ (wf_unique _ _ _ Hwf') i); [by rewrite lookup_insert_eq|done..].
    + rewrite (proj1 (active_life a') Ea). apply life_none.
      intros j b [[<- <-]|[Hnej Hj]]%lookup_insert_Some Hb; [congruence|by eapply Hother].
  - destruct (life_cases t k) as [(j & b & Hj & Hb & Hk)|Hnone].
    + rewrite (life_active t (wf_unique _ _ _ Hwf) j b k) by done.
      apply (life_active _ (wf_unique _ _ _ Hwf') j); [|done..].
      rewrite lookup_insert_ne; [done|]. intros <-. apply Hne. rewrite <- Hk. by apply Hsame.
    + rewrite (life_none t k Hnone). apply life_none.
      intros j b [[<- <-]|[Hnej Hj]]%lookup_insert_Some Hb; [congruence|by eapply Hnone].
Qed.
End with_ticks.

(** ** Frames *)

(** The alert table is left alone. *)
Definition same_alerts (s s' : OSession) : Prop := alert (ops s') = alert (ops s).

#[global] Instance same_alerts_preorder : PreOrder same_alerts.
Proof. split; unfold same_alerts; [done|intros ? ? ?; congruence]. Qed.

Lemma enqueue_same_alerts a trigger : moves same_alerts (enqueue a trigger).
Proof. unfold enqueue, select_channels, add_notification, put_notification. moves_auto. Qed.
Lemma audit_same_alerts a : moves same_alerts (_audit_critical a).
Proof. unfold _audit_critical. moves_auto. Qed.
#[export] Hint Resolve enqueue_same_alerts audit_same_alerts : ops.

Section dispatch_frames.
Context (http_post : timestamp → string → list (string * jval) → list (string * string) → bool)
        (smtp_send : timestamp → SmtpRequest → bool) (max_attempts : Z).
Lemma dispatch_same_alerts : moves same_alerts (dispatch_pending http_post smtp_send max_attempts).
Proof.
  unfold dispatch_pending, dispatch_one, _retry_due, deliver, attempted, _send, _send_webhook,
    _send_email, record_delivery, put_notification. moves_auto.
Qed.
End dispatch_frames.

(** ** The handlers *)

Lemma put_alert_run a s u s' :
  put_alert a s = (inr u, s') → alert (ops s') = <[al_id a := a]> (alert (ops s)).
Proof. unfold put_alert, mod_ops. intros H%modS_inr. by subst. Qed.

Lemma band_run o e s b s' :
  _in_hysteresis_band o e s = (inr b, s') → s' = s ∧ b = band_value e o.
Proof.
  unfold _in_hysteresis_band, band_value. destruct e as [e|]; [|intros H; by minv].
  destruct (er_fire_threshold e), (er_clear_threshold e); intros H; by minv.
Qed.

(** What does not change along the life of a row. *)
Record same_alert (a a' : Alert) : Prop := {
  sa_id : al_id a' = al_id a;
  sa_key : al_key a' = al_key a;
  sa_scope : al_scope a' = al_scope a;
  sa_tenant : al_tenant_id a' = al_tenant_id a;
  sa_service : al_service_id a' = al_service_id a;
  sa_first : al_first_observed_at a' = al_first_observed_at a;
  sa_ack : al_acknowledged_at a' = al_acknowledged_at a
}.

#[global] Instance same_alert_preorder : PreOrder same_alert.
Proof. split; [by split|]. intros a b c [] []. split; congruence. Qed.

(** [a] is written back as [a'], in a table otherwise unchanged. *)
Definition rewritten (s s' : OSession) (a a' : Alert) : Prop :=
  alert (ops s') = <[al_id a := a']> (alert (ops s)) ∧ same_alert a a'.

Section handlers.
Context (ev : AlertEvaluator) (now : timestamp) (maintenance : bool)
        (eff : effective_rules) (sil : silence_map).
Abbreviation ft := (ev_fire_ticks ev).
Abbreviation ct := (ev_clear_ticks ev).

Lemma alert_enqueue_run a trigger s a' s' :
  _enqueue now maintenance sil a trigger s = (inr a', s') →
  rewritten s s' a a' ∧ (a' = a ∨ a' = a <| al_last_notified_at := Some now |>).
Proof.
  unfold _enqueue. destruct (maintenance && sil (al_rule_key a)); intros H.
  - apply bind_inr in H as (u & s1 & H1 & H). apply ret_inr in H as [-> ->].
    apply put_alert_run in H1. split; [by split|by left].
  - apply bind_inr in H as (u & s1 & H1 & H). apply bind_inr in H as (u' & s2 & H2 & H).
    apply ret_inr in H as [-> ->]. apply put_alert_run in H1.
    apply (moves_inr same_alerts) in H2; [|apply enqueue_same_alerts].
    split; [|by right]. split; [|by split]. by rewrite H2, H1.
Qed.

Lemma fire_run a s u s' :
  _fire now maintenance sil a s = (inr u, s') →
  ∃ a', rewritten s s' a a' ∧ al_state a' = AlertState.firing ∧ al_fired_at a' = Some now ∧
    al_clear_streak a' = 0 ∧ al_resolved_at a' = al_resolved_at a.
Proof.
  unfold _fire. intros H. apply bind_inr in H as (a1 & s1 & H1 & H).
  apply alert_enqueue_run in H1 as [[H1 Hsame] Hcases].
  assert (alert (ops s') = alert (ops s1)) as E.
  { destruct (is_critical a1); [|by minv].
    eapply (moves_inr same_alerts); [apply audit_same_alerts|exact H]. }
  exists a1. unfold rewritten. rewrite E, H1. simpl.
  split_and!; [done| |by destruct Hcases as [-> | ->]..].
  etrans; [|exact Hsame]. by split.
Qed.

Lemma alert_resolve_run a s u s' :
  al_state a ≠ AlertState.resolved →
  _resolve now maintenance sil a s = (inr u, s') →
  ∃ a', rewritten s s' a a' ∧ al_state a' = AlertState.resolved ∧ al_resolved_at a' = Some now.
Proof.
  unfold _resolve. intros Hst H. rewrite bool_decide_eq_false_2 in H by done.
  apply bind_inr in H as (a1 & s1 & H1 & H). apply ret_inr in H as [_ ->].
  apply alert_enqueue_run in H1 as [[H1 Hsame] Hcases]. exists a1. unfold rewritten. rewrite H1. simpl.
  split_and!; [done| |by destruct Hcases as [-> | ->]..].
  etrans; [|exact Hsame]. by split.
Qed.

Lemma rewritten_via a b s s' a' :
  same_alert a b → rewritten s s' b a' → rewritten s s' a a'.
Proof.
  intros Hab [E Hb]. split; [|by etrans].
  by rewrite E, (sa_id _ _ Hab).
Qed.

Lemma put_rewritten a b s u s' :
  same_alert a b → put_alert b s = (inr u, s') → rewritten s s' a b.
Proof.
  intros Hab H%put_alert_run. split; [|done]. by rewrite H, (sa_id _ _ Hab).
Qed.

(** How a row that keeps its identity is well formed. *)
Lemma row_wf_to_pending a a' :
  row_wf ft ct a → same_alert a a' → al_state a' = AlertState.pending →
  al_fired_at a' = None → al_resolved_at a' = None → al_clear_streak a' = 0 →
  0 <= al_fire_streak a' < ft → row_wf ft ct a'.
Proof.
  intros [_ _ _ Wsc] [_ _ Ssc St Ss _ _] E F1 F2 F3 F4.
  split; rewrite ?E, ?Ssc, ?St, ?Ss; try done; try lia.
Qed.
Lemma row_wf_to_firing a a' :
  row_wf ft ct a → same_alert a a' → al_state a' = AlertState.firing →
  is_Some (al_fired_at a') → al_resolved_at a' = None →
  0 <= al_clear_streak a' < ct → row_wf ft ct a'.
Proof.
  intros [_ _ _ Wsc] [_ _ Ssc St Ss _ _] E F1 F2 F3.
  split; rewrite ?E, ?Ssc, ?St, ?Ss; try done; try lia.
Qed.
Lemma row_wf_to_resolved a a' :
  row_wf ft ct a → same_alert a a' → al_state a' = AlertState.resolved →
  is_Some (al_resolved_at a') → row_wf ft ct a'.
Proof.
  intros [_ _ _ Wsc] [_ _ Ssc St Ss _ _] E F1.
  split; rewrite ?E, ?Ssc, ?St, ?Ss; try done; try lia.
Qed.

(** [moved a a' sg s s']: the handler wrote [a'] over [a] as the abstract
    lifecycle says for the sight [sg]. *)
Definition moved (a : Alert) (sg : Sight) (s s' : OSession) : Prop :=
  ∃ a', rewritten s s' a a' ∧ row_wf ft ct a' ∧ life_row a' = life_step ft ct (life_row a) sg.

Section one_row.
Context (a : Alert) (o : RuleObservation) (s : OSession) (u : unit) (s' : OSession).
Hypotheses (Hft : 0 < ft) (Hct : 0 < ct) (Hwf : row_wf ft ct a).
Hypothesis run : _reconcile_observation ev now maintenance eff sil a o s = (inr u, s').

Lemma pending_fires :
  al_state a = AlertState.pending → ob_firing o = true → moved a Fires s s'.
Proof.
  intros Est Ef. pose proof run as H. unfold _reconcile_observation in H. rewrite Ef in H.
  simpl in H. rewrite Est in H. destruct (wf_pending _ _ _ Hwf Est) as (F1 & F2 & F3 & F4).
  destruct (ft <=? al_fire_streak a + 1) eqn:Eft.
  - apply fire_run in H as (a' & Hrw & S1 & S2 & S3 & S4). simpl in S4.
    apply (rewritten_via a) in Hrw; [|by split]. exists a'. split_and!; [done| |].
    + apply (row_wf_to_firing a); try done; first [apply Hrw | congruence | lia].
    + unfold life_row. rewrite S1, S3, Est. simpl. by rewrite Eft.
  - eapply (put_rewritten a) in H; [|by split]. eexists. split_and!; [exact H| |].
    + apply (row_wf_to_pending a); try done; first [apply H | simpl; lia].
    + unfold life_row. simpl. rewrite Est. simpl. by rewrite Eft.
Qed.

Lemma firing_fires :
  al_state a = AlertState.firing → ob_firing o = true → moved a Fires s s'.
Proof.
  intros Est Ef. pose proof run as H. unfold _reconcile_observation in H. rewrite Ef in H.
  cbv zeta in H. set (a1 := observed a o <| al_clear_streak := 0 |>) in *.
  assert (al_state a1 = AlertState.firing) as Est1 by done. rewrite Est1 in H.
  destruct (wf_firing _ _ _ Hwf Est) as (F1 & F2 & F3).
  apply bind_inr in H as (u1 & s1 & H1 & H). apply bind_inr in H as (u2 & s2 & H2 & H).
  assert (alert (ops s2) = alert (ops s1)) as E2.
  { destruct (negb _ && _); [|by minv].
    eapply (moves_inr same_alerts); [apply audit_same_alerts|exact H2]. }
  apply (put_rewritten a) in H1; [|by split].
  assert (∃ a2, alert (ops s') = <[al_id a := a2]> (alert (ops s)) ∧
                (a2 = a1 ∨ a2 = a1 <| al_last_notified_at := Some now |>)) as (a2 & E & Ha2).
  { destruct (_renotify_due ev a1 now).
    - apply bind_inr in H as (a2 & s3 & [[E3 _] Hcases]%alert_enqueue_run & H).
      apply ret_inr in H as [_ ->]. exists a2. split; [|done].
      rewrite E3, E2, (proj1 H1), (sa_id _ _ (proj2 H1)). apply insert_insert_eq.
    - apply ret_inr in H as [_ ->]. exists a1. split; [by rewrite E2, (proj1 H1)|by left]. }
  exists a2. assert (same_alert a a2) as Hs.
  { etrans; [apply H1|]. by destruct Ha2 as [-> | ->]. }
  split_and!; [done| |].
  - apply (row_wf_to_firing a); destruct Ha2 as [-> | ->]; try done; simpl; lia.
  - unfold life_row. rewrite Est. by destruct Ha2 as [-> | ->]; simpl; rewrite Est.
Qed.

Lemma quiet_observation :
  active a = true → ob_firing o = false → moved a (sight_ob eff o) s s'.
Proof.
  intros Hact Ef. pose proof run as H. unfold _reconcile_observation in H. unfold sight_ob.
  rewrite Ef in *. simpl in H. destruct (al_state a) eqn:Est.
  - destruct (wf_pending _ _ _ Hwf Est) as (F1 & F2 & F3 & F4).
    eapply (put_rewritten a) in H; [|by split]. eexists. split_and!; [exact H| |].
    + apply (row_wf_to_pending a); try done; first [apply H | simpl; lia].
    + unfold life_row. simpl. rewrite Est. by destruct (band_value _ _).
  - destruct (wf_firing _ _ _ Hwf Est) as (F1 & F2 & F3).
    apply bind_inr in H as (b & s1 & [-> ->]%band_run & H).
    destruct (band_value _ _); [|destruct (ct <=? al_clear_streak a + 1) eqn:Ect].
    + eapply (put_rewritten a) in H; [|by split]. eexists. split_and!; [exact H| |].
      * apply (row_wf_to_firing a); try done; first [apply H | simpl; lia].
      * unfold life_row. simpl. by rewrite Est.
    + apply alert_resolve_run in H as (a' & Hrw & S1 & S2); [|simpl; congruence].
      apply (rewritten_via a) in Hrw; [|by split]. exists a'. split_and!; [done| |].
      * apply (row_wf_to_resolved a); try done; apply Hrw.
      * unfold life_row. rewrite S1, Est. simpl. by rewrite Ect.
    + eapply (put_rewritten a) in H; [|by split]. eexists. split_and!; [exact H| |].
      * apply (row_wf_to_firing a); try done; first [apply H | simpl; lia].
      * unfold life_row. simpl. rewrite Est. simpl. by rewrite Ect.
  - unfold active in Hact. by rewrite Est in Hact.
Qed.

(** A row moves as the abstract lifecycle does, and stays well formed. *)
Lemma reconcile_observation_run : active a = true → moved a (sight_ob eff o) s s'.
Proof.
  intros Hact. destruct (ob_firing o) eqn:Ef; [|by apply quiet_observation].
  unfold sight_ob. rewrite Ef. destruct (al_state a) eqn:Est;
    [by apply pending_fires|by apply firing_fires|].
  unfold active in Hact. by rewrite Est in Hact.
Qed.
End one_row.
End handlers.

(** ** One reconciliation refines the abstract lifecycle of every key *)

(** The rows of a key are the same in both tables. *)
Definition same_rows (k : string * string) (t t' : gmap uuid Alert) : Prop :=
  ∀ i a, al_key a = k → t !! i = Some a ↔ t' !! i = Some a.

#[global] Instance same_rows_equiv k : Equivalence (same_rows k).
Proof.
  split.
  - by intros t i a.
  - intros t t' H i a Hk. by rewrite (H i a Hk).
  - intros t1 t2 t3 H1 H2 i a Hk. by rewrite (H1 i a Hk), (H2 i a Hk).
Qed.

Lemma same_rows_insert k (t : gmap uuid Alert) i a' :
  al_key a' ≠ k → (∀ a, t !! i = Some a → al_key a ≠ k) → same_rows k t (<[i := a']> t).
Proof.
  intros Hne Hold j b Hk. rewrite lookup_insert_Some. split.
  - intros Hj. right. split; [|done]. intros <-. by eapply Hold.
  - intros [[<- <-]|[_ Hj]]; [congruence|done].
Qed.

Lemma life_same_rows k (t t' : gmap uuid Alert) ft ct :
  table_wf ft ct t → table_wf ft ct t' → same_rows k t t' → life t' k = life t k.
Proof.
  intros W W' Hs. destruct (life_cases t k) as [(i & a & Hi & Ha & Hk)|Hnone].
  - rewrite (life_active t (wf_unique _ _ _ W) i a k) by done.
    apply (life_active t' (wf_unique _ _ _ W') i a k); [|done..]. by apply (Hs i a Hk).
  - rewrite (life_none t k Hnone). apply life_none. intros i a Hi Ha Hk.
    apply (Hs i a Hk) in Hi. by eapply Hnone.
Qed.

Lemma lookup_active_elem l k a : lookup_active l k = Some a → a ∈ l ∧ al_key a = k.
Proof.
  unfold lookup_active. intros H%last_Some_elem_of.
  apply list_elem_of_In, filter_In in H as [H1 H2%bool_decide_eq_true].
  split; [by apply list_elem_of_In|done].
Qed.

Lemma lookup_active_none l k a : lookup_active l k = None → a ∈ l → al_key a ≠ k.
Proof.
  unfold lookup_active. rewrite last_None. intros H Ha%list_elem_of_In Hk.
  assert (In a (List.filter (fun a => bool_decide (al_key a = k)) l)) as Hin.
  { apply filter_In. split; [done|]. by apply bool_decide_eq_true. }
  rewrite H in Hin. destruct Hin.
Qed.

Section refine.
Context (ev : AlertEvaluator) (now : timestamp) (maintenance : bool)
        (eff : effective_rules) (sil : silence_map).
Abbreviation ft := (ev_fire_ticks ev).
Abbreviation ct := (ev_clear_ticks ev).
Hypotheses (Hft : 0 < ft) (Hct : 0 < ct).

Abbreviation tbl s := (alert (ops s)).
Abbreviation wf := (table_wf ft ct).

(** One key stepped, the rows of the others kept. *)
Definition stepped (k : string * string) (l : Life) (t t' : gmap uuid Alert) : Prop :=
  wf t' ∧ life t' k = l ∧ ∀ k', k' ≠ k → same_rows k' t t'.

(** Replacing the active row of a key. *)
Lemma rewritten_stepped s s' a a' :
  wf (tbl s) → tbl s !! al_id a = Some a → active a = true →
  rewritten s s' a a' → row_wf ft ct a' → stepped (al_key a) (life_row a') (tbl s) (tbl s').
Proof.
  intros W Hi Ha [E Hsame] Hrow. pose proof (sa_key _ _ Hsame) as Hk.
  assert (∀ j b, j ≠ al_id a → tbl s !! j = Some b → active b = true → al_key b ≠ al_key a')
    as Hother.
  { intros j b Hj Hb Hab Hkb. apply Hj. eapply (wf_unique _ _ _ W); [done..|congruence]. }
  assert (wf (tbl s')) as W'.
  { rewrite E. apply table_wf_insert; try done. apply Hsame. }
  split_and!; [done| |].
  - rewrite E in W' |- *. rewrite (life_insert ft ct); [by rewrite decide_True|done..|].
    intros b Hb. rewrite Hi in Hb. injection Hb as <-. done.
  - intros k' Hne. rewrite E. apply same_rows_insert; [congruence|].
    intros b Hb. rewrite Hi in Hb. simplify_eq. congruence.
Qed.

Lemma open_pending_run o s u s' :
  wf (tbl s) → (ob_scope o = AlertScope.node → ob_tenant_id o = None ∧ ob_service_id o = None) →
  _open_pending ev now maintenance sil o s = (inr u, s') →
  stepped (ob_key o) (life_step ft ct Idle Fires) (tbl s) (tbl s').
Proof.
  intros W Hscope H. unfold _open_pending in H.
  apply bind_inr in H as (aid & s1 & H1 & H). apply bind_inr in H as (d & s2 & H2 & H).
  apply (gets_inr (fun s => id (ops s))) in H2 as [-> ->]. cbv zeta in H.
  apply core_inr in H1 as (t & _ & ->). simpl in H.
  apply bind_inr in H as (? & s3 & [Hfresh ->]%require_inr & H).
  apply bind_inr in H as (? & s4 & [Hfree ->]%require_inr & H).
  apply bind_inr in H as (? & s5 & H5%put_alert_run & H).
  apply bind_inr in H as (? & s6 & [-> _]%flush_inr & H). simpl in H5.
  apply bool_decide_eq_true in Hfresh. unfold active_taken in Hfree.
  apply negb_true_iff, negb_false_iff, bool_decide_eq_true in Hfree.
  assert (∀ j b, tbl s !! j = Some b → active b = true → al_key b ≠ ob_key o) as Hnone.
  { intros j b Hj Hb Hk. rewrite select_where_nil in Hfree. specialize (Hfree j b Hj).
    rewrite Hb, bool_decide_eq_true_2 in Hfree by done. done. }
  set (a := mkAlert aid _ _ _ _ _ _ _ _ _ _ _ _ _ _ _ _ _ _) in *.
  assert (∃ a', tbl s' = <[aid := a']> (tbl s) ∧ same_alert a a' ∧ row_wf ft ct a' ∧
            life_row a' = life_step ft ct Idle Fires) as (a' & E & Hsame & Hrow & Hlife).
  { assert (row_wf 2 1 a) as Hrow0.
    { split; simpl; try congruence; [|done]. intros _. split_and!; lia || done. }
    simpl. destruct (ft <=? 1) eqn:E1.
    - apply fire_run in H as (a' & [E Hs] & S1 & S2 & S3 & S4). exists a'.
      split_and!; [|done| |unfold life_row; by rewrite S1, S3].
      + rewrite E, H5. apply insert_insert_eq.
      + destruct Hs as [_ _ Ssc St Ss _ _]. split; rewrite ?S1; try done.
        * intros _. rewrite S2, S3, S4. split_and!; [by eexists|done|lia..].
        * rewrite Ssc, St, Ss. apply Hscope.
    - apply ret_inr in H as [_ ->]. exists a. split_and!; [done..| |done].
      split; simpl; try congruence; [|done]. intros _. split_and!; lia || done. }
  assert (al_key a' = ob_key o) as Hk by apply (sa_key _ _ Hsame).
  assert (wf (tbl s')) as W'.
  { rewrite E. apply table_wf_insert; try done; [apply (sa_id _ _ Hsame)|].
    intros j b _ Hj Hb. rewrite Hk. by eapply Hnone. }
  split_and!; [done| |].
  - rewrite E in W' |- *. rewrite (life_insert ft ct); [by rewrite decide_True|done..| |].
    + intros j b _ Hj Hb. rewrite Hk. by eapply Hnone.
    + intros b Hb. congruence.
  - intros k' Hne. rewrite E. apply same_rows_insert; [congruence|]. intros b Hb. congruence.
Qed.

Definition scoped (o : RuleObservation) : Prop :=
  ob_scope o = AlertScope.node → ob_tenant_id o = None ∧ ob_service_id o = None.

Lemma elem_of_actives t a : wf t → a ∈ select_where active t ↔ active a = true ∧ t !! al_id a = Some a.
Proof.
  intros W. rewrite elem_of_select. split.
  - intros (Ha & i & Hi). split; [done|]. by rewrite (wf_ids _ _ _ W i a Hi).
  - intros [Ha Hi]. eauto.
Qed.

(** One observation, on a table whose rows of the key are those of the start. *)
Lemma observe_run t0 o s u s' :
  wf t0 → wf (tbl s) → scoped o → same_rows (ob_key o) t0 (tbl s) →
  observe ev now maintenance eff sil (select_where active t0) o s = (inr u, s') →
  stepped (ob_key o) (life_step ft ct (life t0 (ob_key o)) (sight_ob eff o)) (tbl s) (tbl s').
Proof.
  intros W0 W Hsc Hsame H. unfold observe in H.
  destruct (lookup_active _ _) as [a|] eqn:El.
  - apply lookup_active_elem in El as [[Ha Hi]%elem_of_actives Hk]; [|done].
    assert (tbl s !! al_id a = Some a) as His by (by apply Hsame).
    unfold current in H. rewrite run_assoc in H.
    apply bind_inr in H as (ts & s1 & [-> ->]%(gets_inr (fun s => alert (ops s))) & H).
    rewrite run_ret, His in H. simpl in H.
    apply reconcile_observation_run in H as (a' & Hrw & Hrow & Hlife); try done;
      [|by eapply (wf_rows _ _ _ W)].
    rewrite <- Hk, (life_active t0 (wf_unique _ _ _ W0) (al_id a) a) by done.
    rewrite <- Hlife. by apply rewritten_stepped.
  - rewrite (life_none t0); [|intros i a Hi Ha; eapply lookup_active_none; [exact El|];
      apply elem_of_select; eauto].
    unfold sight_ob. destruct (ob_firing o); [by apply open_pending_run in H|].
    apply ret_inr in H as [_ ->]. split_and!; [done| |done].
    assert (life (tbl s) (ob_key o) = Idle) as ->; [|by destruct (band_value _ _)].
    apply life_none. intros i a Hi Ha Hk. apply (Hsame i a Hk) in Hi.
    eapply lookup_active_none; [exact El| |exact Hk]. apply elem_of_select. eauto.
Qed.

(** What a list of observations does to the life of a key. *)
Definition stepped_by (os : list RuleObservation) (t : gmap uuid Alert) (k : string * string) : Life :=
  match List.find (fun o => bool_decide (ob_key o = k)) os with
  | None => life t k
  | Some o => life_step ft ct (life t k) (sight_ob eff o)
  end.

Lemma find_key_none (os : list RuleObservation) k :
  List.find (fun o => bool_decide (ob_key o = k)) os = None ↔ k ∉ (ob_key <$> os).
Proof.
  split.
  - intros H (o & -> & Ho)%list_elem_of_fmap. apply list_elem_of_In in Ho.
    eapply find_none in H; [|exact Ho]. by apply bool_decide_eq_false in H.
  - intros H. destruct (List.find _ os) as [o|] eqn:E; [|done].
    apply find_some in E as [Ho%list_elem_of_In Hk%bool_decide_eq_true].
    destruct H. rewrite <- Hk. by apply list_elem_of_fmap_2.
Qed.

Lemma observe_all t0 os s u s' :
  wf t0 → wf (tbl s) → Forall scoped os → NoDup (ob_key <$> os) →
  (∀ k, k ∈ (ob_key <$> os) → same_rows k t0 (tbl s)) →
  for_each (observe ev now maintenance eff sil (select_where active t0)) os s = (inr u, s') →
  wf (tbl s') ∧ (∀ k, life (tbl s') k = stepped_by os (tbl s) k) ∧
  (∀ k, k ∉ (ob_key <$> os) → same_rows k (tbl s) (tbl s')).
Proof.
  revert s. induction os as [|o os IH]; intros s W0 W Hsc Hnd Hsame H; simpl in H.
  { apply ret_inr in H as [_ ->]. done. }
  apply bind_inr in H as (u1 & s1 & H1 & H). apply Forall_cons in Hsc as [Hsco Hsc].
  apply NoDup_cons in Hnd as [Hnot Hnd].
  apply observe_run in H1 as (W1 & L1 & R1); try done; [|apply Hsame; left].
  apply IH in H as (W2 & L2 & R2); try done.
  - split_and!; [done| |].
    + intros k. rewrite L2. unfold stepped_by. simpl. case_bool_decide as Hk.
      * subst k. rewrite (proj2 (find_key_none os _)) by done. rewrite L1.
        rewrite (life_same_rows _ t0 (tbl s) ft ct) by (try done; apply Hsame; left). done.
      * rewrite (life_same_rows k (tbl s) (tbl s1) ft ct); [done..|]. apply R1. congruence.
    + intros k Hk. rewrite fmap_cons, not_elem_of_cons in Hk. destruct Hk as [Hne Hk].
      etrans; [by apply R1|by apply R2].
  - intros k Hk. etrans; [apply Hsame; by right|]. apply R1. by intros ->.
Qed.

(** Resolving the rows no observation speaks of. *)
Lemma resolve_all os l s u s' :
  wf (tbl s) → NoDup (al_key <$> l) →
  (∀ a, a ∈ l → al_key a ∉ (ob_key <$> os) → active a = true ∧ tbl s !! al_id a = Some a) →
  for_each (resolve_unobserved now maintenance sil os) l s = (inr u, s') →
  wf (tbl s') ∧ ∀ k, life (tbl s') k =
    if decide (k ∈ (al_key <$> l) ∧ k ∉ (ob_key <$> os)) then Idle else life (tbl s) k.
Proof.
  revert s. induction l as [|a l IH]; intros s W Hnd Hl H; simpl in H.
  { apply ret_inr in H as [_ ->]. split; [done|]. intros k. rewrite decide_False; [done|].
    intros [Hk _]. by apply not_elem_of_nil in Hk. }
  apply bind_inr in H as (u1 & s1 & H1 & H). apply NoDup_cons in Hnd as [Hnot Hnd].
  unfold resolve_unobserved in H1.
  assert (existsb (fun o => bool_decide (ob_key o = al_key a)) os = true ↔
          al_key a ∈ (ob_key <$> os)) as Hex.
  { rewrite existsb_exists, list_elem_of_fmap. split.
    - intros (o & Ho%list_elem_of_In & E%bool_decide_eq_true). eauto.
    - intros (o & E & Ho%list_elem_of_In). exists o. by rewrite bool_decide_eq_true. }
  destruct (existsb _ os).
  - apply ret_inr in H1 as [_ ->]. assert (al_key a ∈ (ob_key <$> os)) as Hin by (by apply Hex).
    apply IH in H as [W' L]; [|done..|intros b Hb; apply Hl; by right].
    split; [done|]. intros k. rewrite L. apply decide_ext. rewrite fmap_cons, elem_of_cons.
    split; [tauto|]. intros [[-> | ?] ?]; [done|auto].
  - assert (al_key a ∉ (ob_key <$> os)) as Hout by (rewrite <- Hex; done).
    destruct (Hl a) as [Ha Hi]; [left|done|].
    unfold current in H1. rewrite run_assoc in H1.
    apply bind_inr in H1 as (ts & s2 & [-> ->]%(gets_inr (fun s => alert (ops s))) & H1).
    rewrite run_ret, Hi in H1. simpl in H1. apply alert_resolve_run in H1 as (a' & Hrw & S1 & S2).
    2:{ intros E. unfold active in Ha. by rewrite E in Ha. }
    assert (row_wf ft ct a') as Hrow.
    { apply (row_wf_to_resolved ev a); try done; [by eapply (wf_rows _ _ _ W)|apply Hrw]. }
    apply rewritten_stepped in Hrw as (W1 & L1 & R1); try done.
    assert (life_row a' = Idle) as Ea by (unfold life_row; by rewrite S1). rewrite Ea in L1.
    apply IH in H as [W' L]; [|done..|].
    + split; [done|]. intros k. rewrite L. rewrite fmap_cons. destruct (decide (k = al_key a)) as [->|Hne].
      * rewrite L1. assert (al_key a ∈ al_key a :: (al_key <$> l)) by (apply elem_of_cons; by left).
        repeat case_decide; tauto.
      * rewrite (life_same_rows k (tbl s) (tbl s1) ft ct) by (try done; by apply R1).
        apply decide_ext. rewrite elem_of_cons. naive_solver.
    + intros b Hb Hkb. destruct (Hl b) as [Hb1 Hb2]; [by right|done|]. split; [done|].
      apply (R1 (al_key b)); [|done..]. intros E. apply Hnot. rewrite <- E.
      by apply list_elem_of_fmap_2.
Qed.

(** One reconciliation moves every key as the abstract lifecycle does. *)
Lemma reconcile_refines os s u s' :
  wf (tbl s) → Forall scoped os → NoDup (ob_key <$> os) →
  reconcile ev now maintenance eff sil os s = (inr u, s') →
  wf (tbl s') ∧ ∀ k, life (tbl s') k = life_step ft ct (life (tbl s) k) (sight eff os k).
Proof.
  intros W Hsc Hnd H. unfold reconcile in H.
  apply bind_inr in H as (ts & s1 & [-> ->]%(gets_inr (fun s => alert (ops s))) & H). cbv zeta in H.
  apply bind_inr in H as (u1 & s1 & H1 & H).
  apply observe_all in H1 as (W1 & L1 & R1); try done.
  apply resolve_all in H as [W2 L2]; try done.
  - split; [done|]. intros k. rewrite L2, L1. unfold stepped_by, sight.
    destruct (List.find _ os) as [o|] eqn:Ef.
    + rewrite decide_False; [done|]. intros [_ Hk]. apply find_key_none in Hk. congruence.
    + apply find_key_none in Ef. destruct (life_cases (tbl s) k) as [(i & a & Hi & Ha & Hk)|Hnone].
      * rewrite decide_True; [by destruct (life (tbl s) k)|]. split; [|done]. rewrite <- Hk.
        apply list_elem_of_fmap_2, elem_of_select. eauto.
      * rewrite (life_none _ _ Hnone). by destruct (decide _).
  - apply select_where_nodup. intros i a j b Hi Hj Ha Hb E. by eapply (wf_unique _ _ _ W).
  - intros a [Ha Hi]%elem_of_actives Hk; [|done]. split; [done|]. by apply (R1 (al_key a)).
Qed.
End refine.
