(* ===== verification/AlertSpec.v ===== *)
(** * What the alert lane promises

    The observations of a tick as a function of the tables, the refinement of
    a committed tick, the histories of the lane and what they allow. *)

From S2P Require Import Prelude Models Db PyNum OpsModels AlertInv AlertRules.
From S2P Require Import AlertDispatch AlertSources AlertEvaluator.
From stdpp Require Import pretty.
Open Scope Z_scope.

(** ** The observations of a tick *)

(** The evaluation reads no state: any session gives its result. *)
Definition no_session : OSession := mkOSession (new_session empty_db) empty_ops [].

Definition result_of {A} (m : M OSession (list A)) : list A :=
  match (m no_session).1 with inr l => l | inl _ => [] end.

Definition rule_observations (inputs : AlertInputs) (eff : effective_rules) (rule : RuleDef)
    : list RuleObservation := result_of (evaluate_rule inputs eff rule).

Definition observations (inputs : AlertInputs) (eff : effective_rules) : list RuleObservation :=
  concat (rule_observations inputs eff <$> RULES).

Lemma yields_result {A} (m : M OSession (list A)) P :
  yields m P → (∀ s, m s = (inr (result_of m), s)) ∧ P (result_of m).
Proof.
  intros (a & H & Ha). assert (result_of m = a) as -> by (unfold result_of; by rewrite H). done.
Qed.

Lemma evaluate_rule_run inputs eff rule :
  (∀ s : OSession, evaluate_rule inputs eff rule s = (inr (rule_observations inputs eff rule), s)) ∧
  rule_obs inputs rule (rule_observations inputs eff rule).
Proof. apply yields_result, evaluate_rule_yields. Qed.

Lemma evaluate_run inputs eff (s : OSession) : evaluate inputs eff s = (inr (observations inputs eff), s).
Proof.
  unfold evaluate, observations. induction RULES as [|rule rules IH]; [done|].
  cbn [evaluate_rules]. rewrite bind_run, (proj1 (evaluate_rule_run inputs eff rule)).
  by rewrite bind_run, IH.
Qed.

(** An observation carries its rule's key. *)
Lemma rule_obs_key inputs rule l o :
  rule_obs inputs rule l → o ∈ l → ob_rule_key o = rd_key rule ∧ scoped o.
Proof.
  unfold rule_obs, scoped. destruct (rd_scope rule).
  - intros (x & -> & Hx) Ho. destruct x as [x|]; [|by apply not_elem_of_nil in Ho].
    apply list_elem_of_singleton in Ho as ->. destruct (Hx x) as (? & ? & ? & ? & ?); [done|].
    split; [done|]. intros _. done.
  - intros (os & Hos & ->) Ho. apply list_elem_of_In, in_concat in Ho as (l & Hl & Ho).
    apply list_elem_of_In, list_elem_of_fmap in Hl as (x & -> & Hx).
    destruct x as [x|]; [|done]. destruct Ho as [<-|[]].
    apply list_elem_of_lookup_1 in Hx as (n & Hn). destruct (Forall2_lookup_r _ _ _ _ _ Hos Hn) as (svc & _ & Hs).
    destruct (Hs x) as (? & Hsc & _); [done|]. split; [done|]. congruence.
Qed.

(** The scope keys of one rule's observations come from distinct services. *)
Lemma service_keys_nodup rule svcs os :
  Forall2 (fun svc o => ∀ x, o = Some x → service_ob rule svc x) svcs os →
  NoDup (si_scope_key <$> svcs) → NoDup (ob_key <$> concat (option_list <$> os)).
Proof.
  induction 1 as [|svc o svcs os Hso Hos IH]; simpl; [constructor|].
  intros [Hnot Hnd]%NoDup_cons. destruct o as [x|]; [|by apply IH]. simpl.
  apply NoDup_cons. split; [|by apply IH].
  intros (y & Ey & Hy)%list_elem_of_fmap. apply Hnot. destruct (Hso x eq_refl) as (_ & _ & Ex & _).
  apply list_elem_of_In, in_concat in Hy as (l & Hl & Hy).
  apply list_elem_of_In, list_elem_of_fmap in Hl as (z & -> & Hz).
  destruct z as [z|]; [|done]. destruct Hy as [<-|[]].
  apply list_elem_of_lookup_1 in Hz as (n & Hn).
  destruct (Forall2_lookup_r _ _ _ _ _ Hos Hn) as (svc' & Hsvc & Hs').
  destruct (Hs' z eq_refl) as (_ & _ & Ez & _). apply list_elem_of_fmap. exists svc'.
  split; [|by eapply list_elem_of_lookup_2]. unfold ob_key in Ey. congruence.
Qed.

Lemma rule_obs_nodup inputs rule l :
  NoDup (si_scope_key <$> ai_services inputs) → rule_obs inputs rule l → NoDup (ob_key <$> l).
Proof.
  unfold rule_obs. intros Hnd. destruct (rd_scope rule).
  - intros (o & -> & _). destruct o; simpl; [apply NoDup_singleton|constructor].
  - intros (os & Hos & ->). by eapply service_keys_nodup.
Qed.

Lemma observations_scoped inputs eff : Forall scoped (observations inputs eff).
Proof.
  unfold observations. apply Forall_forall. intros o Ho.
  apply list_elem_of_In, in_concat in Ho as (l & Hl & Ho%list_elem_of_In).
  apply list_elem_of_In, list_elem_of_fmap in Hl as (rule & -> & _).
  eapply rule_obs_key; [|exact Ho]. apply evaluate_rule_run.
Qed.

Lemma catalog_keys : NoDup (rd_key <$> RULES).
Proof. apply (bool_decide_unpack _). vm_compute. exact I. Qed.

Lemma observations_nodup inputs eff :
  NoDup (si_scope_key <$> ai_services inputs) → NoDup (ob_key <$> observations inputs eff).
Proof.
  intros Hsvc. unfold observations. pose proof catalog_keys as Hk.
  induction RULES as [|rule rules IH]; simpl; [constructor|].
  apply NoDup_cons in Hk as [Hnot Hk]. rewrite fmap_app. apply NoDup_app. split_and!.
  - eapply rule_obs_nodup; [done|]. apply evaluate_rule_run.
  - intros k (o & -> & Ho)%list_elem_of_fmap (o' & Ek & Ho')%list_elem_of_fmap. apply Hnot.
    apply list_elem_of_In, in_concat in Ho' as (l & Hl & Ho'%list_elem_of_In).
    apply list_elem_of_In, list_elem_of_fmap in Hl as (rule' & -> & Hr').
    pose proof (rule_obs_key _ _ _ _ (proj2 (evaluate_rule_run inputs eff rule)) Ho) as [E1 _].
    pose proof (rule_obs_key _ _ _ _ (proj2 (evaluate_rule_run inputs eff rule')) Ho') as [E2 _].
    apply list_elem_of_fmap. exists rule'. split; [|done]. unfold ob_key in Ek. congruence.
  - by apply IH.
Qed.

(** The single observation of a rule is what a tick sees of its key. *)
Lemma sight_of_rule inputs eff rule o :
  NoDup (si_scope_key <$> ai_services inputs) → rule ∈ RULES →
  o ∈ rule_observations inputs eff rule →
  sight eff (observations inputs eff) (ob_key o) = sight_ob eff o.
Proof.
  intros Hnd Hr Ho. assert (o ∈ observations inputs eff) as Hin.
  { unfold observations. apply list_elem_of_In, in_concat. exists (rule_observations inputs eff rule).
    split; [|by apply list_elem_of_In]. apply list_elem_of_In. by apply list_elem_of_fmap_2. }
  pose proof (observations_nodup inputs eff Hnd) as Hk. unfold sight.
  destruct (List.find _ _) as [o'|] eqn:E.
  - apply find_some in E as [Ho'%list_elem_of_In Ek%bool_decide_eq_true].
    apply list_elem_of_lookup_1 in Hin as (i & Hi). apply list_elem_of_lookup_1 in Ho' as (j & Hj).
    assert (i = j) as <-; [|congruence].
    eapply NoDup_lookup; [exact Hk|rewrite list_lookup_fmap, Hi; done|].
    rewrite list_lookup_fmap, Hj. simpl. congruence.
  - eapply find_none in E; [|by apply list_elem_of_In]. by apply bool_decide_eq_false in E.
Qed.

(** ** One tick *)

(** [dp_id] is unique among the services. *)
Definition dp_ids_distinct (d : Db) : Prop :=
  ∀ i s j s', protected_service d !! i = Some s → protected_service d !! j = Some s' →
    svc_dp_id s = svc_dp_id s' → i = j.

Lemma scope_keys_nodup src d o now :
  dp_ids_distinct d → NoDup (si_scope_key <$> ai_services (load_inputs src d o now)).
Proof.
  intros Hdp. simpl. unfold _service_rows. rewrite <- !list_fmap_compose.
  rewrite (list_fmap_ext _ (fun s => pretty (svc_dp_id s))) by done.
  rewrite (order_by_perm svc_dp_id). change (fun s => pretty (svc_dp_id s)) with (pretty ∘ svc_dp_id).
  rewrite list_fmap_compose. apply (NoDup_fmap_2 _).
  assert (select_where (fun _ => true) (protected_service d) = rows (protected_service d)) as <-.
  { unfold select_where. induction (rows (protected_service d)) as [|r l IH]; [done|].
    rewrite filter_cons_True by done. f_equal. exact IH. }
  apply select_where_nodup. intros i s j s' Hi Hj _ _. by apply Hdp.
Qed.

Section ticks.
Context (http_post : timestamp → string → list (string * jval) → list (string * string) → bool)
        (smtp_send : timestamp → SmtpRequest → bool)
        (ev : AlertEvaluator).
Abbreviation ft := (ev_fire_ticks ev).
Abbreviation ct := (ev_clear_ticks ev).

(** The inputs, the effective rules and the sights of the next tick. *)
Definition tick_inputs (w : OWorld) : AlertInputs :=
  load_inputs (ev_sources ev) (ow_db w) (ow_ops w) (clock (ow_db w)).
Definition tick_rules (w : OWorld) : effective_rules := effective_rule (alert_rule (ow_ops w)).
Definition tick_sight (w : OWorld) (k : string * string) : Sight :=
  sight (tick_rules w) (observations (tick_inputs w) (tick_rules w)) k.

(** Deleting expired history and storing the numerics change no life. *)
Lemma table_wf_sub (t t' : gmap uuid Alert) : t' ⊆ t → table_wf ft ct t → table_wf ft ct t'.
Proof.
  intros Hsub [H1 H2 H3]. split.
  - intros i a Hi. by eapply H1, lookup_weaken.
  - intros i a Hi. by eapply H2, lookup_weaken.
  - intros i a j b Hi Hj. eapply H3; by eapply lookup_weaken.
Qed.

Lemma life_sub (t t' : gmap uuid Alert) k :
  table_wf ft ct t → t' ⊆ t → (∀ i a, t !! i = Some a → active a = true → t' !! i = Some a) →
  life t' k = life t k.
Proof.
  intros W Hsub Hkeep. pose proof (table_wf_sub _ _ Hsub W) as W'.
  destruct (life_cases t k) as [(i & a & Hi & Ha & Hk)|Hnone].
  - rewrite (life_active t (wf_unique _ _ _ W) i a k) by done.
    apply (life_active t' (wf_unique _ _ _ W') i a k); [by apply Hkeep|done..].
  - rewrite (life_none t k Hnone). apply life_none. intros i a Hi. eapply Hnone.
    by eapply lookup_weaken.
Qed.

Lemma expired_inactive cutoff a : expired cutoff a = true → active a = false.
Proof. unfold expired, active. intros [-> _]%andb_true_iff. done. Qed.

(** Rows changed by a function that keeps what the lifecycle reads. *)
Definition inert (f : Alert → Alert) : Prop :=
  ∀ a, al_id (f a) = al_id a ∧ al_key (f a) = al_key a ∧ al_state (f a) = al_state a ∧
    life_row (f a) = life_row a ∧ (row_wf ft ct a → row_wf ft ct (f a)).

Lemma inert_map f (t : gmap uuid Alert) :
  inert f → table_wf ft ct t → table_wf ft ct (f <$> t) ∧ ∀ k, life (f <$> t) k = life t k.
Proof.
  intros Hf W. assert (table_wf ft ct (f <$> t)) as W'.
  { destruct W as [H1 H2 H3]. split.
    - intros i a. rewrite lookup_fmap, fmap_Some. intros (b & Hi & ->).
      rewrite (proj1 (Hf b)). by apply H1.
    - intros i a. rewrite lookup_fmap, fmap_Some. intros (b & Hi & ->).
      apply (Hf b). by eapply H2.
    - intros i a j b. rewrite !lookup_fmap, !fmap_Some. intros (a' & Hi & ->) (b' & Hj & ->).
      destruct (Hf a') as (_ & Ka & Sa & _), (Hf b') as (_ & Kb & Sb & _).
      unfold active. rewrite Ka, Kb, Sa, Sb. by apply H3. }
  split; [done|]. intros k. destruct (life_cases t k) as [(i & a & Hi & Ha & Hk)|Hnone].
  - rewrite (life_active t (wf_unique _ _ _ W) i a k) by done.
    destruct (Hf a) as (_ & Ka & Sa & <- & _).
    apply (life_active _ (wf_unique _ _ _ W') i); [by rewrite lookup_fmap, Hi| |congruence].
    unfold active. by rewrite Sa.
  - rewrite (life_none t k Hnone). apply life_none. intros i a.
    rewrite lookup_fmap, fmap_Some. intros (b & Hi & ->). destruct (Hf b) as (_ & Kb & Sb & _).
    unfold active. rewrite Kb, Sb. by apply (Hnone i).
Qed.

Lemma store_alert_inert : inert store_alert.
Proof. intros a. split_and!; try done. intros []. by split. Qed.

Lemma tick_run w w' :
  0 < ft → 0 < ct → dp_ids_distinct (ow_db w) → table_wf ft ct (alert (ow_ops w)) →
  tick http_post smtp_send ev w = (inr tt, w') →
  table_wf ft ct (alert (ow_ops w')) ∧
  ∀ k, life (alert (ow_ops w')) k = life_step ft ct (life (alert (ow_ops w)) k) (tick_sight w k).
Proof.
  intros Hft Hct Hdp W H. unfold tick in H. apply ops_scope_inr in H as (s & H & _ & E & _).
  rewrite E. simpl. unfold tick_body in H.
  apply bind_inr in H as (now & s1 & H1 & H). apply core_inr in H1 as (t & H1 & ->).
  apply gets_inr in H1 as [-> ->]. unfold load in H.
  apply bind_inr in H as (inputs & s1 & H1 & H).
  apply bind_inr in H1 as (d & s2 & H2 & H1). apply core_inr in H2 as (t & H2 & ->).
  apply gets_inr in H2 as [-> ->].
  apply bind_inr in H1 as (o & s3 & [-> ->]%(gets_inr (fun s => id (ops s))) & H1).
  apply ret_inr in H1 as [-> ->]. simpl in H.
  apply bind_inr in H as ([eff sil] & s1 & H1 & H). unfold _load_rules in H1.
  apply bind_inr in H1 as (p & s2 & [-> ->]%(gets_inr (fun s => alert_rule (ops s))) & H1).
  apply ret_inr in H1 as [[= -> ->] ->]. simpl in H.
  apply bind_inr in H as (os & s1 & H1 & H). rewrite evaluate_run in H1.
  injection H1 as <- <-.
  apply bind_inr in H as (u & s1 & H1 & H).
  apply reconcile_refines in H1 as [W1 L1]; [|try done..].
  - apply bind_inr in H as (u2 & s2 & H2%modS_inr & H). subst s2.
    apply (moves_inr same_alerts) in H; [|apply dispatch_same_alerts]. unfold same_alerts in H.
    rewrite H. simpl. set (t1 := alert (ops s1)) in *.
    assert (filter (fun kv => expired (clock (ow_db w) - ev_history_retention_days ev *
      Calendar.microseconds_per_day) kv.2 = false) t1 ⊆ t1) as Hsub by apply map_filter_subseteq.
    destruct (inert_map store_alert _ store_alert_inert (table_wf_sub _ _ Hsub W1)) as [W2 L2].
    split; [exact W2|]. intros k. rewrite L2, (life_sub t1), L1; [done..|].
    intros i a Hi Ha. apply map_lookup_filter_Some_2; [done|]. simpl.
    apply not_true_iff_false. intros Hx%expired_inactive. congruence.
  - apply observations_scoped.
  - apply observations_nodup. by apply scope_keys_nodup.
Qed.

(** ** Histories of the lane *)

(** A history ends in a world and remembers, for every key, what the committed
    ticks saw of it, the latest first.  Between ticks anything may happen to
    the other tables; the alert rows themselves are only touched by foreign
    keys, which no lifecycle field depends on. *)
Inductive lane_history : OWorld → (string * string → list Sight) → Prop :=
  | lane_start w : alert (ow_ops w) = ∅ → lane_history w (fun _ => [])
  | lane_tick w w' h :
      lane_history w h → dp_ids_distinct (ow_db w) →
      tick http_post smtp_send ev w = (inr tt, w') →
      lane_history w' (fun k => tick_sight w k :: h k)
  | lane_failed w w' h e :
      lane_history w h → tick http_post smtp_send ev w = (inl e, w') → lane_history w' h
  | lane_other w w' h f :
      lane_history w h → inert f → alert (ow_ops w') = f <$> alert (ow_ops w) → lane_history w' h.

Definition life_after (h : list Sight) : Life := foldr (fun s l => life_step ft ct l s) Idle h.

Lemma life_of_history w h :
  0 < ft → 0 < ct → lane_history w h →
  table_wf ft ct (alert (ow_ops w)) ∧ ∀ k, life (alert (ow_ops w)) k = life_after (h k).
Proof.
  intros Hft Hct. induction 1 as [w E|w w' h _ [W L] Hdp Ht|w w' h e _ [W L] Ht|w w' h f _ [W L] Hf E].
  - rewrite E. split; [by split|]. intros k. apply life_none. done.
  - apply tick_run in Ht as [W' L']; try done. split; [done|]. intros k. by rewrite L', L.
  - apply ops_scope_inl in Ht. by rewrite Ht.
  - rewrite E. destruct (inert_map f _ Hf W) as [W' L']. split; [done|]. intros k. by rewrite L'.
Qed.

(** A streak counts the latest sights. *)
Definition streak_ok (h : list Sight) (l : Life) : Prop :=
  match l with
  | Idle => True
  | Pending n => 0 <= n < ft ∧ take (Z.to_nat n) h = replicate (Z.to_nat n) Fires
  | Firing c => 0 <= c < ct ∧ take (Z.to_nat c) h = replicate (Z.to_nat c) Clears
  end.

Lemma take_replicate_succ {A} (x : A) n h :
  0 <= n → take (Z.to_nat n) h = replicate (Z.to_nat n) x →
  take (Z.to_nat (n + 1)) (x :: h) = replicate (Z.to_nat (n + 1)) x.
Proof.
  intros Hn E. replace (Z.to_nat (n + 1)) with (S (Z.to_nat n)) by lia. simpl. by rewrite E.
Qed.

Lemma life_after_streaks h : 0 < ft → 0 < ct → streak_ok h (life_after h).
Proof.
  intros Hft Hct. induction h as [|s h IH]; [done|].
  change (life_after (s :: h)) with (life_step ft ct (life_after h) s).
  destruct (life_after h) as [|n|c], s; simpl in *; try done; try case_match; simpl; try done;
    try (split; [lia|done]).
  - destruct IH as [Hn IH]. split; [lia|]. by apply take_replicate_succ; [lia|].
  - destruct IH as [Hc IH]. split; [lia|]. by apply take_replicate_succ; [lia|].
Qed.

(** Going up takes a full streak of firing sights. *)
Lemma firing_needs_streak h s c :
  0 < ft → 0 < ct → (∀ c', life_after h ≠ Firing c') → life_after (s :: h) = Firing c →
  take (Z.to_nat ft) (s :: h) = replicate (Z.to_nat ft) Fires.
Proof.
  intros Hft Hct Hno E.
  change (life_after (s :: h)) with (life_step ft ct (life_after h) s) in E.
  pose proof (life_after_streaks h Hft Hct) as Hs.
  destruct (life_after h) as [|n|c'] eqn:Eh; [| |by destruct (Hno c')];
    destruct s; simpl in E; try done; case_match; try done.
  - by assert (ft = 1) as -> by lia.
  - destruct Hs as [Hn Hs]. assert (ft = n + 1) as -> by lia. apply take_replicate_succ; [lia|done].
Qed.

(** Going down takes a full streak of clear sights, or the key's absence. *)
Lemma resolving_needs_streak h s c :
  0 < ft → 0 < ct → life_after h = Firing c → life_after (s :: h) = Idle →
  s = Absent ∨ take (Z.to_nat ct) (s :: h) = replicate (Z.to_nat ct) Clears.
Proof.
  intros Hft Hct Eh E. pose proof (life_after_streaks h Hft Hct) as Hs. rewrite Eh in Hs.
  change (life_after (s :: h)) with (life_step ft ct (life_after h) s) in E. rewrite Eh in E.
  destruct s; simpl in E; try done; [by left|]. case_match; [|done]. right.
  destruct Hs as [Hc Hs]. assert (ct = c + 1) as -> by lia. apply take_replicate_succ; [lia|done].
Qed.

(** C30: In any history of the lane, an alert only starts firing on the
    [fire_ticks]-th firing observation in a row: no shorter run of firing
    ticks, and no run interrupted by a quiet or missing one, notifies
    anybody. *)
Theorem alert_fires_after_streak w h w' k c :
  0 < ft → 0 < ct → lane_history w h → dp_ids_distinct (ow_db w) →
  tick http_post smtp_send ev w = (inr tt, w') →
  (∀ c', life (alert (ow_ops w)) k ≠ Firing c') → life (alert (ow_ops w')) k = Firing c →
  take (Z.to_nat ft) (tick_sight w k :: h k) = replicate (Z.to_nat ft) Fires.
Proof.
  intros Hft Hct Hh Hdp Ht. pose proof (lane_tick _ _ _ Hh Hdp Ht) as Hh'.
  rewrite (proj2 (life_of_history _ _ Hft Hct Hh)), (proj2 (life_of_history _ _ Hft Hct Hh')).
  by apply firing_needs_streak.
Qed.

(** In any history of the lane, a firing alert is only resolved by the
    [clear_ticks]-th clear observation in a row, or by a tick that has no
    observation of its key at all (a disabled rule or an absent source). *)
Theorem alert_resolves_after_streak w h w' k c :
  0 < ft → 0 < ct → lane_history w h → dp_ids_distinct (ow_db w) →
  tick http_post smtp_send ev w = (inr tt, w') →
  life (alert (ow_ops w)) k = Firing c → life (alert (ow_ops w')) k = Idle →
  tick_sight w k = Absent ∨
  take (Z.to_nat ct) (tick_sight w k :: h k) = replicate (Z.to_nat ct) Clears.
Proof.
  intros Hft Hct Hh Hdp Ht. pose proof (lane_tick _ _ _ Hh Hdp Ht) as Hh'.
  rewrite (proj2 (life_of_history _ _ Hft Hct Hh)), (proj2 (life_of_history _ _ Hft Hct Hh')).
  by apply resolving_needs_streak.
Qed.

(** C9: A committed tick moves every key at once as the abstract lifecycle
    [life_step] does on what the tick saw of that key; keys do not disturb one
    another, whatever is notified, pruned or dispatched on the way. *)
Theorem alert_tick_refines_lifecycle w w' :
  0 < ft → 0 < ct → dp_ids_distinct (ow_db w) → table_wf ft ct (alert (ow_ops w)) →
  tick http_post smtp_send ev w = (inr tt, w') →
  ∀ k, life (alert (ow_ops w')) k = life_step ft ct (life (alert (ow_ops w)) k) (tick_sight w k).
Proof. intros ? ? ? ? Ht. eapply tick_run; eauto. Qed.

(** C31: In every history of the lane the alert table is well formed: one
    active row per rule and scope, streaks within their bounds, timestamps
    that fit the state, and no tenant or service on a node alert. *)
Theorem alert_table_invariant w h :
  0 < ft → 0 < ct → lane_history w h → table_wf ft ct (alert (ow_ops w)).
Proof. intros Hft Hct Hh. by apply (life_of_history w h). Qed.
End ticks.

(** ** Rules whose clear threshold is zero *)

Lemma effective_default persisted rule :
  RULE_BY_KEY (rd_key rule) = Some rule → persisted !! rd_key rule = None →
  effective_rule persisted (rd_key rule) = Some (_resolved_rule rule None).
Proof. unfold effective_rule. by intros -> ->. Qed.

Lemma apply_failed_observation inputs persisted n :
  persisted !! "apply_failed"%string = None → ni_apply_failed_count (ai_node inputs) = Some n →
  rule_observations inputs (effective_rule persisted) rule_apply_failed =
  [mkRuleObservation "apply_failed" AlertScope.node "node" None None AlertSeverity.critical
     (MInt n) (num_geb (MInt n) (MInt 1)) [("title"%string, JStr "Configuration apply failed")]].
Proof.
  intros Hp Hn. unfold rule_observations, result_of, evaluate_rule.
  rewrite (effective_default persisted rule_apply_failed) by done.
  unfold _evaluate_node. simpl. by rewrite Hn.
Qed.

Lemma feed_failed_observation inputs persisted n :
  persisted !! "feed_failed"%string = None → ni_feed_failure_count (ai_node inputs) = Some n →
  rule_observations inputs (effective_rule persisted) rule_feed_failed =
  [mkRuleObservation "feed_failed" AlertScope.node "node" None None AlertSeverity.warning
     (MInt n) (num_geb (MInt n) (MInt 1)) [("title"%string, JStr "Threat-feed sync failed")]].
Proof.
  intros Hp Hn. unfold rule_observations, result_of, evaluate_rule.
  rewrite (effective_default persisted rule_feed_failed) by done.
  unfold _evaluate_node. simpl. by rewrite Hn.
Qed.

(** A quiet observation of a count is held by the band that ends at zero. *)
Lemma zero_clear_held eff o f n :
  eff (ob_rule_key o) = Some (mkEffectiveRule (Some true) f (Some (MInt 1)) (Some (MInt 0))) →
  ob_metric_value o = MInt n → 0 <= n → sight_ob eff o = Fires ∨ sight_ob eff o = Holds.
Proof.
  intros He Hm Hn. unfold sight_ob, band_value. rewrite He, Hm. cbn [er_fire_threshold er_clear_threshold].
  rewrite num_eqb_int, num_geb_int. rewrite (proj2 (Z.leb_le 0 n) Hn).
  destruct (ob_firing o); [by left|by right].
Qed.

Lemma held_keeps_firing ft ct c s : s = Fires ∨ s = Holds → life_step ft ct (Firing c) s = Firing 0.
Proof. by intros [-> | ->]. Qed.

Section zero_clear.
Context (http_post : timestamp → string → list (string * jval) → list (string * string) → bool)
        (smtp_send : timestamp → SmtpRequest → bool)
        (ev : AlertEvaluator).

Lemma count_rule_sight w rule o n k :
  rule_observations (tick_inputs ev w) (tick_rules w) rule = [o] → ob_key o = k →
  dp_ids_distinct (ow_db w) → rule ∈ RULES →
  tick_rules w (ob_rule_key o) = Some (_resolved_rule rule None) →
  rd_default_enabled rule = true → rd_fire_threshold rule = MInt 1 → rd_clear_threshold rule = MInt 0 →
  ob_metric_value o = MInt n → 0 <= n →
  tick_sight ev w k = Fires ∨ tick_sight ev w k = Holds.
Proof.
  intros Ho <- Hdp Hr He Hen Hf Hc Hm Hn. unfold tick_sight.
  rewrite (sight_of_rule _ _ rule) by
    (try (by apply scope_keys_nodup); try done; rewrite Ho; by apply list_elem_of_singleton).
  eapply zero_clear_held; [|exact Hm|exact Hn]. rewrite He. simpl. by rewrite Hen, Hf, Hc.
Qed.

(** With the catalog's thresholds (fire at 1, clear at 0) the alerts
    [apply_failed] and [feed_failed] never resolve once they fire: a count of
    zero is not below the clear threshold, so every quiet tick falls into the
    hysteresis band and resets the clear streak. *)
Theorem zero_clear_threshold_never_resolves w w' key c :
  0 < ev_fire_ticks ev → 0 < ev_clear_ticks ev → dp_ids_distinct (ow_db w) →
  table_wf (ev_fire_ticks ev) (ev_clear_ticks ev) (alert (ow_ops w)) →
  key = "apply_failed"%string ∨ key = "feed_failed"%string →
  alert_rule (ow_ops w) !! key = None →
  life (alert (ow_ops w)) (key, "node"%string) = Firing c →
  tick http_post smtp_send ev w = (inr tt, w') →
  life (alert (ow_ops w')) (key, "node"%string) = Firing 0.
Proof.
  intros Hft Hct Hdp W Hkey Hnone Hl Ht. apply tick_run in Ht as [_ L]; try done.
  rewrite L, Hl. apply held_keeps_firing.
  destruct Hkey as [-> | ->].
  - eapply (count_rule_sight w rule_apply_failed); [by apply apply_failed_observation|done|done| | |done|done|done|done|].
    + apply list_elem_of_In. simpl. tauto.
    + by apply (effective_default _ rule_apply_failed).
    + simpl. unfold int_of_bool. by case_match.
  - eapply (count_rule_sight w rule_feed_failed); [by apply feed_failed_observation|done|done| | |done|done|done|done|].
    + apply list_elem_of_In. simpl. tauto.
    + by apply (effective_default _ rule_feed_failed).
    + simpl. unfold _feed_failure_count, count_if. lia.
Qed.
End zero_clear.
