(* ===== verification/AlertDelivery.v ===== *)
(** * Delivery of notifications: attempts, retries and their end *)

From S2P Require Import Prelude Models Db PyNum OpsModels AlertInv.
From S2P Require Import Calendar AlertDispatch.
Open Scope Z_scope.

Section delivery.
Context (http_post : timestamp → string → list (string * jval) → list (string * string) → bool)
        (smtp_send : timestamp → SmtpRequest → bool)
        (max_attempts : Z).
Abbreviation ns s := (alert_notification (ops s)).
Abbreviation now_of s := (clock (os_db s)).

(** Sending writes nothing but the outbox. *)
Lemma send_same_tables channel a : moves same_tables (_send http_post smtp_send channel a).
Proof.
  unfold _send, _send_webhook, _send_email, record_delivery. moves_auto.
Qed.

(** ** One notification, one dispatch *)

Definition backoff_of (n : AlertNotification) : Z :=
  microseconds (retry_backoff_seconds * 2 ^ Z.max (an_attempts n - 1) 0).

(** Whether a dispatch at [now] attempts an open notification. *)
Definition due (now : timestamp) (n : AlertNotification) : bool :=
  bool_decide (an_state n = NotificationState.pending) ||
  (an_attempts n <? max_attempts) && (backoff_of n <=? now - an_updated_at n).

(** What a dispatch at [now] makes of a notification. *)
Definition outcome (now : timestamp) (n n' : AlertNotification) : Prop :=
  if negb (open_state n) then n' = n
  else if due now n then n' = mark_sent now n ∨ n' = _mark_failure max_attempts now n
  else if max_attempts <=? an_attempts n then n' = set_failed_state now n
  else n' = n.

Lemma put_notification_run n s u s' :
  put_notification n s = (inr u, s') → ns s' = <[an_id n := n]> (ns s) ∧ os_session s' = os_session s.
Proof. unfold put_notification, mod_ops. intros H%modS_inr. by subst. Qed.

Lemma attempted_run m s b s' :
  moves same_tables m → attempted m s = (inr b, s') → same_tables s s'.
Proof.
  intros Hm. apply (moves_inr same_tables). unfold attempted.
  apply (moves_try _); [apply (moves_bind _); [exact Hm|intros ?; apply (moves_ret _)]|].
  intros e. apply (moves_ret _).
Qed.

(** The notification is rewritten in place, the clock stands still. *)
Definition written (s s' : OSession) (n n' : AlertNotification) : Prop :=
  ns s' = <[an_id n := n']> (ns s) ∧ an_id n' = an_id n ∧ os_session s' = os_session s.

Lemma retry_due_run n s b s' :
  open_state n = true → ns s !! an_id n = Some n →
  _retry_due max_attempts n (now_of s) s = (inr b, s') →
  b = due (now_of s) n ∧
  (if b then s' = s else ∃ n', written s s' n n' ∧ outcome (now_of s) n n').
Proof.
  intros Hopen Hn H. unfold _retry_due in H. unfold outcome. rewrite Hopen.
  cbn [negb]. unfold due. case_bool_decide as Hst; simpl.
  { apply ret_inr in H as [-> ->]. done. }
  destruct (max_attempts <=? an_attempts n) eqn:Emax.
  - apply bind_inr in H as (u & s1 & [E1 E2]%put_notification_run & H).
    apply ret_inr in H as [-> ->].
    assert ((an_attempts n <? max_attempts) = false) as -> by lia. simpl. split; [done|].
    eexists. split; [split; [exact E1|]; done|done].
  - apply bind_inr in H as (u & s1 & [_ ->]%require_inr & H).
    apply ret_inr in H as [-> ->].
    assert ((an_attempts n <? max_attempts) = true) as -> by lia. simpl. fold (backoff_of n).
    split; [done|]. destruct (backoff_of n <=? now_of s - an_updated_at n) eqn:Eb; [done|].
    exists n. split; [|done]. split; [|done]. by rewrite insert_id.
Qed.

Lemma dispatch_one_run n s u s' :
  open_state n = true → ns s !! an_id n = Some n →
  dispatch_one http_post smtp_send max_attempts n s = (inr u, s') →
  ∃ n', written s s' n n' ∧ outcome (now_of s) n n'.
Proof.
  intros Hopen Hn H. unfold dispatch_one in H.
  apply bind_inr in H as (now & s1 & H1 & H). rewrite core_now_run in H1. injection H1 as <- <-.
  apply bind_inr in H as (b & s1 & H1 & H).
  apply retry_due_run in H1 as [Eb H1]; [|done..]. destruct b; simpl in H.
  - subst s1. assert (∃ n', written s s' n n' ∧
      (n' = mark_sent (now_of s) n ∨ n' = _mark_failure max_attempts (now_of s) n)) as (n' & Hw & Hc).
    { apply bind_inr in H as (al & s2 & [-> ->]%(gets_inr (fun s => alert (ops s))) & H).
      apply bind_inr in H as (ch & s2 & [-> ->]%(gets_inr (fun s => notification_channel (ops s))) & H).
      destruct (alert (ops s) !! an_alert_id n) as [a|];
        [destruct (an_channel_id n ≫= _) as [c|]|].
      - unfold deliver in H. apply bind_inr in H as (now & s2 & H2 & H).
        rewrite core_now_run in H2. injection H2 as <- <-.
        apply bind_inr in H as (ok & s2 & H2 & H).
        apply attempted_run in H2 as [S1 S2]; [|apply send_same_tables].
        apply put_notification_run in H as [E1 E2]. rewrite S2 in E1. rewrite S1 in E2.
        exists (if ok then mark_sent (now_of s) n else _mark_failure max_attempts (now_of s) n).
        destruct ok; (split; [by split|]); [by left|by right].
      - apply put_notification_run in H as [E1 E2]. eexists. split; [by split|by right].
      - apply put_notification_run in H as [E1 E2]. eexists. split; [by split|by right]. }
    exists n'. split; [done|]. unfold outcome. by rewrite Hopen, <- Eb.
  - apply ret_inr in H as [_ ->]. exact H1.
Qed.

(** A dispatch gives every notification its outcome, in whatever order. *)
Lemma dispatch_all l s u s' :
  NoDup (an_id <$> l) → (∀ n, n ∈ l → open_state n = true ∧ ns s !! an_id n = Some n) →
  for_each (dispatch_one http_post smtp_send max_attempts) l s = (inr u, s') →
  os_session s' = os_session s ∧ (∀ i, i ∉ (an_id <$> l) → ns s' !! i = ns s !! i) ∧
  ∀ n, n ∈ l → ∃ n', ns s' !! an_id n = Some n' ∧ outcome (now_of s) n n'.
Proof.
  revert s. induction l as [|n l IH]; intros s Hnd Hl H; simpl in H.
  { apply ret_inr in H as [_ ->]. split_and!; [done..|]. by intros n Hn%not_elem_of_nil. }
  apply bind_inr in H as (u1 & s1 & H1 & H). apply NoDup_cons in Hnd as [Hnot Hnd].
  destruct (Hl n) as [Ho Hn]; [left|].
  apply dispatch_one_run in H1 as (n1 & (E1 & Hid & E2) & Hout); [|done..].
  apply IH in H as (S & Hsame & Hall); [|done|].
  - unfold os_db in *. rewrite E2 in *. split_and!; [done| |].
    + intros i Hi. rewrite fmap_cons, not_elem_of_cons in Hi. destruct Hi as [Hne Hi].
      rewrite Hsame, E1 by done. by rewrite lookup_insert_ne.
    + intros m [-> | Hm]%elem_of_cons; [|by apply Hall].
      exists n1. split; [|done]. rewrite Hsame, E1 by done. by rewrite lookup_insert_eq.
  - intros m Hm. destruct (Hl m) as [Hom Hmm]; [by right|]. split; [done|].
    rewrite E1, lookup_insert_ne; [done|]. intros E. apply Hnot. rewrite E.
    by apply list_elem_of_fmap_2.
Qed.

Definition notification_ids (t : gmap uuid AlertNotification) : Prop :=
  ∀ i n, t !! i = Some n → an_id n = i.

Lemma dispatch_pending_run s u s' :
  notification_ids (ns s) → dispatch_pending http_post smtp_send max_attempts s = (inr u, s') →
  os_session s' = os_session s ∧ notification_ids (ns s') ∧
  (∀ i n, ns s !! i = Some n → ∃ n', ns s' !! i = Some n' ∧ outcome (now_of s) n n') ∧
  (∀ i, ns s !! i = None → ns s' !! i = None).
Proof.
  intros Hids H. unfold dispatch_pending in H.
  apply bind_inr in H as (t & s1 & [-> ->]%(gets_inr (fun s => alert_notification (ops s))) & H).
  apply bind_inr in H as (u1 & s1 & H1 & H). apply flush_inr in H as [-> _].
  assert (∀ n, n ∈ order_by an_created_at (select_where open_state (ns s)) ↔
            open_state n = true ∧ ns s !! an_id n = Some n) as Hin.
  { intros n. rewrite elem_of_order_by, elem_of_select. split.
    - intros (Ho & i & Hi). split; [done|]. by rewrite (Hids i n Hi).
    - intros [Ho Hi]. eauto. }
  apply dispatch_all in H1 as (S & Hsame & Hall).
  - assert (∀ i n, ns s !! i = Some n → ∃ n', ns s1 !! i = Some n' ∧ outcome (now_of s) n n') as Hout.
    { intros i n Hi. pose proof (Hids i n Hi) as <-. destruct (open_state n) eqn:Eo.
      - apply Hall. by apply Hin.
      - exists n. split; [|unfold outcome; by rewrite Eo]. rewrite Hsame; [done|].
        intros (m & Em & [Ho Hm]%Hin)%list_elem_of_fmap. rewrite <- Em in Hm. congruence. }
    assert (∀ i, ns s !! i = None → ns s1 !! i = None) as Hnone.
    { intros i Hi. rewrite Hsame; [done|].
      intros (m & Em & [Ho Hm]%Hin)%list_elem_of_fmap. rewrite <- Em in Hm. congruence. }
    split_and!; try done. intros i n Hi. destruct (ns s !! i) as [n0|] eqn:E0.
    + destruct (Hout i n0 E0) as (n' & Hn' & Ho). rewrite Hi in Hn'. injection Hn' as <-.
      rewrite <- (Hids i n0 E0). unfold outcome in Ho.
      repeat case_match; try (by subst n); by destruct Ho as [-> | ->].
    + rewrite (Hnone i E0) in Hi. done.
  - rewrite (order_by_perm an_created_at). apply select_where_nodup.
    intros i n j m Hi Hj _ _ E. rewrite <- (Hids i n Hi), <- (Hids j m Hj). done.
  - intros n Hn. by apply Hin.
Qed.

(** ** Bounds and totality *)

Record notification_wf (n : AlertNotification) : Prop := {
  nw_attempts : 0 <= an_attempts n <= max_attempts;
  nw_pending : an_state n = NotificationState.pending → an_attempts n = 0;
  nw_retrying : an_state n = NotificationState.retrying → 1 <= an_attempts n < max_attempts;
  nw_sent : an_state n = NotificationState.sent → is_Some (an_sent_at n) ∧ an_last_error n = None
}.

Definition notifications_wf (t : gmap uuid AlertNotification) : Prop :=
  ∀ i n, t !! i = Some n → an_id n = i ∧ notification_wf n.

Lemma outcome_wf now n n' :
  0 < max_attempts → notification_wf n → outcome now n n' → notification_wf n'.
Proof.
  intros Hmax [H1 H2 H3 H4] Ho. unfold outcome in Ho.
  destruct (open_state n) eqn:Eo; simpl in Ho; [|by subst].
  assert (an_attempts n < max_attempts) as Hlt.
  { unfold open_state in Eo. apply orb_true_iff in Eo as [E|E]; apply bool_decide_eq_true in E.
    - rewrite (H2 E). lia.
    - apply (H3 E). }
  destruct (due now n).
  - destruct Ho as [-> | ->].
    + split; simpl; try done; lia.
    + split; simpl; try lia; try case_match; try done; lia.
  - destruct (max_attempts <=? an_attempts n) eqn:E; [lia|]. by subst.
Qed.

(** Forty-five attempts are the most whose backoff is a [timedelta]. *)
Lemma backoff_fits n :
  max_attempts <= 45 → an_attempts n < max_attempts →
  (retry_backoff_seconds * 2 ^ Z.max (an_attempts n - 1) 0 <=? timedelta_max_seconds) = true.
Proof.
  intros Hmax Hn. apply Z.leb_le. unfold retry_backoff_seconds, timedelta_max_seconds.
  assert (2 ^ Z.max (an_attempts n - 1) 0 <= 2 ^ 43) by (apply Z.pow_le_mono_r; lia).
  change (2 ^ 43) with 8796093022208 in *. lia.
Qed.

Lemma attempted_total m s : ∃ b s', attempted m s = (inr b, s').
Proof.
  unfold attempted, try_except. rewrite bind_run. destruct (m s) as [[e|[]] s1]; eauto.
Qed.

Lemma dispatch_one_total n s :
  max_attempts <= 45 → ∃ s', dispatch_one http_post smtp_send max_attempts n s = (inr tt, s').
Proof.
  intros Hmax. unfold dispatch_one. rewrite bind_run, core_now_run.
  assert (∃ b s1, _retry_due max_attempts n (now_of s) s = (inr b, s1)) as (b & s1 & E).
  { unfold _retry_due. case_match; [by eauto|]. case_match; [by eexists _, _|].
    rewrite backoff_fits by lia. by eexists _, _. }
  rewrite bind_run, E. destruct b; simpl; [|eauto]. unfold get_ops. rewrite !run_gets.
  case_match; [case_match|]; [|by eexists..].
  unfold deliver. rewrite bind_run, core_now_run.
  destruct (attempted_total (_send http_post smtp_send n0 a) s1) as (ok & s2 & E2).
  rewrite bind_run, E2. by eexists.
Qed.

(** The columns with a precision are those of the alerts and the rules. *)
Definition same_numerics (s s' : OSession) : Prop :=
  alert (ops s') = alert (ops s) ∧ alert_rule (ops s') = alert_rule (ops s).
#[global] Instance same_numerics_preorder : PreOrder same_numerics.
Proof. split; [done|]. intros ? ? ? [] []. split; congruence. Qed.

Lemma dispatch_one_numerics n :
  moves same_numerics (dispatch_one http_post smtp_send max_attempts n).
Proof.
  unfold dispatch_one, _retry_due, deliver, attempted, _send, _send_webhook,
    _send_email, record_delivery, put_notification. moves_auto.
Qed.

Lemma for_each_total {S A} (f : A → M S unit) l s :
  (∀ x s, ∃ s', f x s = (inr tt, s')) → ∃ s', for_each f l s = (inr tt, s').
Proof.
  intros Hf. revert s. induction l as [|x l IH]; intros s; simpl; [eauto|].
  destruct (Hf x s) as (s1 & E). rewrite bind_run, E. apply IH.
Qed.

Lemma dispatch_pending_total s :
  max_attempts <= 45 → numerics_fit (ops s) = true →
  ∃ s', dispatch_pending http_post smtp_send max_attempts s = (inr tt, s') ∧
        numerics_fit (ops s') = true.
Proof.
  intros Hmax Hfit. unfold dispatch_pending, get_ops. rewrite run_gets.
  destruct (for_each_total (dispatch_one http_post smtp_send max_attempts)
    (order_by an_created_at (select_where open_state (ns s))) s) as (s1 & E).
  { intros n s0. by apply dispatch_one_total. }
  assert (same_numerics s s1) as [E1 E2].
  { eapply moves_inr; [|exact E]. apply (moves_for_each _). intros n. apply dispatch_one_numerics. }
  assert (numerics_fit (ops s1) = true) as Hfit1 by (unfold numerics_fit; by rewrite E1, E2).
  exists s1. split; [|done]. rewrite bind_run, E. unfold flush, get_ops. rewrite run_gets. simpl.
  unfold id. by rewrite Hfit1.
Qed.

(** ** Every notification comes to an end *)

(** The longest wait between two attempts. *)
Definition longest_backoff : Z := microseconds (retry_backoff_seconds * 2 ^ Z.max (max_attempts - 2) 0).

Definition wait (gap : Z) : M OSession unit :=
  core (mod_db (fun d => d <| clock := clock d + gap |>)).

(** [rounds] dispatches, each a [gap] after the one before. *)
Fixpoint dispatch_rounds (gap : Z) (rounds : nat) : M OSession unit :=
  match rounds with
  | O => mret tt
  | S rounds =>
      wait gap ;; dispatch_pending http_post smtp_send max_attempts ;; dispatch_rounds gap rounds
  end.

Definition not_later (now : timestamp) (t : gmap uuid AlertNotification) : Prop :=
  ∀ i n, t !! i = Some n → an_updated_at n <= now.

Lemma due_after_wait now n :
  notification_wf n → open_state n = true → an_updated_at n <= now →
  due (now + longest_backoff) n = true.
Proof.
  intros [H1 H2 H3 _] Ho Hu. unfold due. apply orb_true_iff. unfold open_state in Ho.
  apply orb_true_iff in Ho as [E|E]; [by left|right]. apply bool_decide_eq_true in E.
  specialize (H3 E). apply andb_true_iff. split; [lia|]. apply Z.leb_le.
  unfold backoff_of, longest_backoff, microseconds.
  assert (2 ^ Z.max (an_attempts n - 1) 0 <= 2 ^ Z.max (max_attempts - 2) 0)
    by (apply Z.pow_le_mono_r; lia).
  unfold retry_backoff_seconds. lia.
Qed.

(** A due notification is closed, or has one attempt less to go. *)
Lemma due_progress now n n' :
  open_state n = true → due now n = true → outcome now n n' →
  open_state n' = false ∨
  (an_attempts n' = an_attempts n + 1 ∧ an_attempts n' < max_attempts ∧ an_updated_at n' = now).
Proof.
  unfold outcome. intros Ho Hd. rewrite Ho, Hd. simpl. intros [-> | ->]; [by left|].
  unfold _mark_failure, open_state. simpl. destruct (max_attempts <=? an_attempts n + 1) eqn:E.
  - by left.
  - right. split_and!; try done. lia.
Qed.

Lemma outcome_not_later now n n' :
  outcome now n n' → an_updated_at n <= now → an_updated_at n' <= now.
Proof.
  unfold outcome. intros Ho Hn. repeat case_match; try (destruct Ho as [-> | ->]); subst; simpl; lia.
Qed.

Lemma rounds_run k s :
  0 < max_attempts → max_attempts <= 45 → numerics_fit (ops s) = true →
  notifications_wf (ns s) → not_later (now_of s) (ns s) →
  ∃ s', dispatch_rounds longest_backoff k s = (inr tt, s') ∧
    ∀ i n, ns s !! i = Some n →
      open_state n = false ∨ max_attempts - an_attempts n <= Z.of_nat k →
      ∃ n', ns s' !! i = Some n' ∧ open_state n' = false.
Proof.
  intros Hmax H45. revert s. induction k as [|k IH]; intros s Hfit Hwf Hlate.
  { exists s. split; [done|]. intros i n Hi [Ho|Hk]; exists n; (split; [done|]); [done|].
    destruct (Hwf i n Hi) as [_ [H1 H2 H3 _]]. unfold open_state.
    rewrite !bool_decide_eq_false_2; [done|..];
      intros E; first [specialize (H3 E) | specialize (H2 E)]; lia. }
  cbn [dispatch_rounds]. rewrite bind_run. simpl.
  set (s1 := mkOSession _ (ops s) (os_outbox s)).
  assert (now_of s1 = now_of s + longest_backoff) as Hnow by done.
  destruct (dispatch_pending_total s1 H45 Hfit) as (s2 & E2 & Hfit2). rewrite bind_run, E2.
  apply dispatch_pending_run in E2 as (S2 & Hids & Hout & Hnone); [|intros i n Hi; by apply Hwf].
  assert (now_of s2 = now_of s1) as Hnow2 by (unfold os_db; by rewrite S2).
  assert (longest_backoff >= 0) as Hpos.
  { unfold longest_backoff, microseconds, retry_backoff_seconds.
    pose proof (Z.pow_nonneg 2 (Z.max (max_attempts - 2) 0)). lia. }
  destruct (IH s2 Hfit2) as (s3 & E3 & Hend).
  - intros i n' Hn'. destruct (ns s !! i) as [n|] eqn:En; [|by rewrite (Hnone i En) in Hn'].
    destruct (Hout i n En) as (n1 & En1 & Ho). rewrite Hn' in En1. injection En1 as <-.
    split; [by apply Hids|]. eapply outcome_wf; [done| |exact Ho]. by apply (Hwf i).
  - intros i n' Hn'. destruct (ns s !! i) as [n|] eqn:En; [|by rewrite (Hnone i En) in Hn'].
    destruct (Hout i n En) as (n1 & En1 & Ho). rewrite Hn' in En1. injection En1 as <-.
    rewrite Hnow2. eapply outcome_not_later; [exact Ho|]. rewrite Hnow.
    specialize (Hlate i n En). lia.
  - exists s3. split; [done|]. intros i n Hi Hk. destruct (Hout i n Hi) as (n' & Hn' & Ho).
    apply (Hend i n' Hn'). destruct (open_state n) eqn:Eo.
    + destruct Hk as [|Hk]; [done|]. destruct (due_progress (now_of s1) n n' Eo) as [Hc|(Ha & _ & _)].
      * rewrite Hnow. apply due_after_wait; [by apply (Hwf i)|done|by eapply Hlate].
      * done.
      * by left.
      * right. lia.
    + left. unfold outcome in Ho. rewrite Eo in Ho. simpl in Ho. by subst n'.
Qed.

(** C32: Retrying ends.  From any well-formed state, [max_attempts] dispatches
    spaced by the longest backoff all run to their end and leave every
    notification that was there sent or failed, whatever the channels answer;
    up to 45 attempts the backoff stays a valid [timedelta], so no dispatch
    raises. *)
Theorem notifications_terminate s :
  0 < max_attempts <= 45 → numerics_fit (ops s) = true →
  notifications_wf (ns s) → not_later (now_of s) (ns s) →
  ∃ s', dispatch_rounds longest_backoff (Z.to_nat max_attempts) s = (inr tt, s') ∧
    ∀ i n, ns s !! i = Some n → ∃ n', ns s' !! i = Some n' ∧
      (an_state n' = NotificationState.sent ∨ an_state n' = NotificationState.failed).
Proof.
  intros [Hmax H45] Hfit Hwf Hlate.
  destruct (rounds_run (Z.to_nat max_attempts) s Hmax H45 Hfit Hwf Hlate) as (s' & E & Hend).
  exists s'. split; [done|]. intros i n Hi. destruct (Hwf i n Hi) as [_ [H1 _ _ _]].
  destruct (Hend i n Hi) as (n' & Hn' & Ho); [right; lia|]. exists n'. split; [done|].
  unfold open_state in Ho. destruct (an_state n'); auto; done.
Qed.

End delivery.

(** ** Routing *)

Abbreviation ns s := (alert_notification (ops s)).

Definition notifies (a : Alert) (trigger : string) (c : NotificationChannel) (n : AlertNotification)
    : Prop :=
  an_alert_id n = al_id a ∧ an_channel_id n = Some (ch_id c) ∧ an_channel_name n = ch_name c ∧
  an_kind n = ch_kind c ∧ an_trigger n = trigger ∧
  an_state n = NotificationState.pending ∧ an_attempts n = 0.

(** The rows of the second table that the first does not have. *)
Definition added (t t' : gmap uuid AlertNotification) (n : AlertNotification) : Prop :=
  ∃ i, t !! i = None ∧ t' !! i = Some n.

Lemma add_notification_run a trigger c s u s' :
  add_notification a trigger c s = (inr u, s') →
  ∃ n, ns s !! an_id n = None ∧ ns s' = <[an_id n := n]> (ns s) ∧ notifies a trigger c n.
Proof.
  unfold add_notification. intros H.
  apply bind_inr in H as (nid & s1 & H1 & H). apply core_inr in H1 as (t & _ & ->).
  apply bind_inr in H as (now & s2 & H2 & H). rewrite core_now_run in H2. injection H2 as <- <-.
  apply bind_inr in H as (tb & s3 & [-> ->]%(gets_inr (fun s => alert_notification (ops s))) & H).
  apply bind_inr in H as (u1 & s4 & [Hf ->]%require_inr & H). apply bool_decide_eq_true in Hf.
  unfold put_notification, mod_ops in H. apply modS_inr in H as ->. simpl in *.
  eexists (mkAlertNotification nid _ _ _ _ _ _ _ _ _ _ _). split_and!; [exact Hf|done|done..].
Qed.

Lemma add_notifications_run a trigger l s u s' :
  NoDup (ch_id <$> l) → for_each (add_notification a trigger) l s = (inr u, s') →
  ns s ⊆ ns s' ∧
  (∀ n, added (ns s) (ns s') n → ∃ c, c ∈ l ∧ notifies a trigger c n) ∧
  (∀ c, c ∈ l → ∃ n, added (ns s) (ns s') n ∧ notifies a trigger c n ∧
     ∀ m, added (ns s) (ns s') m → an_channel_id m = Some (ch_id c) → m = n).
Proof.
  revert s. induction l as [|c l IH]; intros s Hnd H; simpl in H.
  { apply ret_inr in H as [_ ->]. split_and!; [done| |by intros c ?%not_elem_of_nil].
    intros n (i & ? & ?). congruence. }
  apply NoDup_cons in Hnd as [Hc0 Hnd].
  apply bind_inr in H as (u1 & s1 & (n & Hn & E & Hnt)%add_notification_run & H).
  apply IH in H as (Hsub & Hnew & Hall); [|done]. assert (ns s ⊆ ns s1) as Hsub1.
  { rewrite E. by apply insert_subseteq. }
  assert (∀ m, added (ns s) (ns s') m ↔ m = n ∨ added (ns s1) (ns s') m) as Hadd.
  { intros m. split.
    - intros (i & Hi & Hm). destruct (decide (i = an_id n)) as [->|Hne].
      + left. assert (ns s1 !! an_id n = Some n) as Hl by (rewrite E; apply lookup_insert_eq).
        apply (lookup_weaken _ _ _ _ Hl) in Hsub. congruence.
      + right. exists i. by rewrite E, lookup_insert_ne by done.
    - intros [->|(i & Hi & Hm)].
      + exists (an_id n). split; [done|]. eapply lookup_weaken; [|exact Hsub].
        rewrite E. apply lookup_insert_eq.
      + exists i. split; [|done]. by eapply lookup_weaken_None. }
  split_and!; [by etrans| |].
  - intros m [->|(c' & Hc & Hm)%Hnew]%Hadd; [exists c|exists c']; (split; [|done]); [left|by right].
  - setoid_rewrite Hadd. intros c' [->|Hc]%elem_of_cons.
    + exists n. split_and!; [by left|done|]. intros m [->|Hm] Hid; [done|].
      destruct (Hnew m Hm) as (c' & Hc' & _ & Hid' & _). destruct Hc0. apply list_elem_of_fmap.
      exists c'. split; [congruence|done].
    + destruct (Hall c' Hc) as (m & Hm & Hmt & Huniq). exists m. split_and!; [by right|done|].
      intros m' [->|Hm'] Hid; [|by apply Huniq]. destruct Hc0. apply list_elem_of_fmap.
      exists c'. split; [|done]. destruct Hnt as (_ & Hid' & _). congruence.
Qed.

(** C14: An alert event notifies exactly the channels it is routed to: every
    enabled channel whose severity floor it reaches and whose owner may see it
    gets one new pending notification and not a second one, no other
    notification appears, and those that were there stay as they were.  A node
    alert reaches channels without a tenant only; a service alert those and the
    channels of its own tenant. *)
Theorem enqueue_routes_exactly a trigger s u s' :
  (∀ i c, notification_channel (ops s) !! i = Some c → ch_id c = i) →
  enqueue a trigger s = (inr u, s') →
  let routed c := notification_channel (ops s) !! ch_id c = Some c ∧ ch_enabled c = true ∧
    _SEVERITY_ORDER (ch_min_severity c) <= _SEVERITY_ORDER (al_severity a) ∧
    (ch_tenant_id c = None ∨
     al_scope a = AlertScope.service ∧ ch_tenant_id c = al_tenant_id a) in
  let new := added (alert_notification (ops s)) (alert_notification (ops s')) in
  alert_notification (ops s) ⊆ alert_notification (ops s') ∧
  (∀ n, new n → ∃ c, routed c ∧ notifies a trigger c n) ∧
  (∀ c, routed c → ∃ n, new n ∧ notifies a trigger c n ∧
     ∀ m, new m → an_channel_id m = Some (ch_id c) → m = n).
Proof.
  intros Hids H. cbv zeta. unfold enqueue, select_channels in H. rewrite run_assoc in H.
  apply bind_inr in H as (t & s1 & [-> ->]%(gets_inr (fun s => notification_channel (ops s))) & H).
  rewrite run_ret in H. apply bind_inr in H as (u1 & s1 & H1 & H). apply flush_inr in H as [-> _].
  assert (∀ c, c ∈ List.filter (fun c => _matches c a)
    (select_where ch_enabled (notification_channel (ops s))) ↔
    notification_channel (ops s) !! ch_id c = Some c ∧ ch_enabled c = true ∧
    _SEVERITY_ORDER (ch_min_severity c) <= _SEVERITY_ORDER (al_severity a) ∧
    (ch_tenant_id c = None ∨
     al_scope a = AlertScope.service ∧ ch_tenant_id c = al_tenant_id a)) as Hin.
  { intros c. rewrite list_elem_of_In, filter_In, <- list_elem_of_In, elem_of_select.
    assert ((∃ k, notification_channel (ops s) !! k = Some c) ↔
            notification_channel (ops s) !! ch_id c = Some c) as ->.
    { split; [|eauto]. intros (k & Hk). by rewrite (Hids k c Hk). }
    unfold _matches. case_match eqn:E.
    - rewrite Z.ltb_lt in E. split; [by intros [_ ?]|]. intros (_ & _ & ? & _). lia.
    - rewrite Z.ltb_ge in E. destruct (al_scope a); rewrite ?orb_true_iff, !bool_decide_eq_true;
        naive_solver. }
  apply add_notifications_run in H1 as (H1 & H2 & H3).
  2: { apply (sublist_NoDup _ (ch_id <$> select_where ch_enabled (notification_channel (ops s)))).
       - apply select_where_nodup. intros k c k' c' Hk Hk' _ _ He.
         by rewrite <- (Hids k c Hk), <- (Hids k' c' Hk').
       - apply fmap_sublist. clear. induction (select_where _ _) as [|c l IH]; simpl; [done|].
         case_match; by constructor. }
  split_and!; [done| |].
  - intros n Hn. destruct (H2 n Hn) as (c & Hc & Hnt). exists c. split; [by apply Hin|done].
  - intros c Hc. apply H3. by apply Hin.
Qed.
