(* ===== verification/AlertApi.v ===== *)
(** * The alert routes ([api/routers/alerts.py], [api/schemas/alerts.py])

    Reading alerts, tuning the rules and managing the notification channels.
    A route runs in one session of [OpsModels]; the caller was resolved by
    [core/deps.py]. *)

From S2P Require Import Prelude PyStr Models Db PyNum Services Api OpsModels AlertRules.
From S2P Require Import AlertDispatch AlertEvaluator AlertInv AlertDelivery.
Import Deps.
Open Scope Z_scope.

(** ** Schemas *)

Record AlertNotificationResponse := mkAlertNotificationResponse {
  anr_id : uuid;
  anr_channel_name : string;
  anr_kind : ChannelKind.t;
  anr_trigger : string;
  anr_state : NotificationState.t;
  anr_attempts : Z;
  anr_last_error : option string;
  anr_sent_at : option timestamp
}.

Record AlertResponse := mkAlertResponse {
  alr_id : uuid;
  alr_rule_key : string;
  alr_scope : AlertScope.t;
  alr_scope_key : string;
  alr_service_id : option uuid;
  alr_tenant_id : option uuid;
  alr_service_name : option string;
  alr_severity : AlertSeverity.t;
  alr_state : AlertState.t;
  alr_metric_value : option PyDec;
  alr_context : list (string * jval);
  alr_first_observed_at : timestamp;
  alr_fired_at : option timestamp;
  alr_resolved_at : option timestamp;
  alr_acknowledged_at : option timestamp;
  alr_notifications : list AlertNotificationResponse
}.

Record AlertListResponse := mkAlertListResponse {
  all_alerts : list AlertResponse;
  all_has_data : bool
}.

Record AlertRuleResponse := mkAlertRuleResponse {
  arr_key : string;
  arr_enabled : bool;
  arr_severity : AlertSeverity.t;
  arr_fire_threshold : MetricValue;       (* as a float *)
  arr_clear_threshold : MetricValue;
  arr_silence_in_maintenance : bool
}.

Record AlertRulePatchRequest := mkAlertRulePatchRequest {
  arp_enabled : option bool;
  arp_severity : option AlertSeverity.t;
  arp_fire_threshold : option pyfloat;
  arp_clear_threshold : option pyfloat;
  arp_silence_in_maintenance : option bool
}.

Record NotificationChannelRequest := mkNotificationChannelRequest {
  ncr_name : option string;
  ncr_kind : option ChannelKind.t;
  ncr_tenant_id : option uuid;
  ncr_enabled : option bool;
  ncr_min_severity : option AlertSeverity.t;
  ncr_config : option (list (string * jval));
  ncr_secret : option string
}.

Record NotificationChannelCreateRequest := mkNotificationChannelCreateRequest {
  ncc_name : string;
  ncc_kind : ChannelKind.t;
  ncc_tenant_id : option uuid;
  ncc_enabled : option bool;
  ncc_min_severity : option AlertSeverity.t;
  ncc_config : list (string * jval);
  ncc_secret : option string
}.

(** Without the secret. *)
Record NotificationChannelResponse := mkNotificationChannelResponse {
  nrs_id : uuid;
  nrs_name : string;
  nrs_kind : ChannelKind.t;
  nrs_tenant_id : option uuid;
  nrs_enabled : bool;
  nrs_min_severity : AlertSeverity.t;
  nrs_config : list (string * jval)
}.

(** ** Reading alerts *)

Definition notification_response (n : AlertNotification) : AlertNotificationResponse :=
  mkAlertNotificationResponse (an_id n) (an_channel_name n) (an_kind n) (an_trigger n)
    (an_state n) (an_attempts n) (an_last_error n) (an_sent_at n).

Definition _response (o : OpsDb) (a : Alert) : AlertResponse :=
  mkAlertResponse (al_id a) (al_rule_key a) (al_scope a) (al_scope_key a) (al_service_id a)
    (al_tenant_id a) (al_service_name a) (al_severity a) (al_state a) (al_metric_value a)
    (al_context a) (al_first_observed_at a) (al_fired_at a) (al_resolved_at a)
    (al_acknowledged_at a)
    (notification_response <$>
       select_where (fun n => bool_decide (an_alert_id n = al_id a)) (alert_notification o)).

(** The clause a tenant's queries carry; an administrator's have none. *)
Definition visible_to (principal : Principal) (a : Alert) : bool :=
  bool_decide (p_role principal = admin) ||
  bool_decide (al_scope a = AlertScope.service) && bool_decide (al_tenant_id a = p_tenant_id principal).

Definition require_tenant (principal : Principal) : M OSession unit :=
  require (bool_decide (p_role principal = admin) || negb (bool_decide (p_tenant_id principal = None)))
    (HTTPException 403 "Forbidden").

Definition opt_clause {A} (o : option A) (p : A → bool) : bool :=
  match o with None => true | Some x => p x end.

Definition list_alerts (principal : Principal) (state : option AlertState.t)
    (severity : option AlertSeverity.t) (scope : option AlertScope.t) (service_id : option uuid)
    (since : option timestamp) : M OSession AlertListResponse :=
  match service_id with
  | Some sid => core (load_service_for_principal sid principal) ;; mret tt
  | None => mret tt
  end ;;
  require_tenant principal ;;
  o ← get_ops id;
  let records := order_by_desc (fun a => [al_first_observed_at a; Zpos (al_id a)])
    (select_where (fun a =>
       visible_to principal a &&
       opt_clause state (fun s => bool_decide (al_state a = s)) &&
       opt_clause severity (fun s => bool_decide (al_severity a = s)) &&
       opt_clause scope (fun s => bool_decide (al_scope a = s)) &&
       opt_clause service_id (fun s => bool_decide (al_service_id a = Some s)) &&
       opt_clause since (fun t => t <=? al_first_observed_at a)) (alert o)) in
  let responses := _response o <$> records in
  mret (mkAlertListResponse responses (negb (bool_decide (length responses = 0%nat)))).

Definition get_alert (alert_id : uuid) (principal : Principal) : M OSession AlertResponse :=
  require_tenant principal ;;
  o ← get_ops id;
  match alert o !! alert_id with
  | Some a => if visible_to principal a then mret (_response o a)
              else raise (HTTPException 404 "Alert not found")
  | None => raise (HTTPException 404 "Alert not found")
  end.

(** ** Rules *)

Definition float_threshold (t : MetricValue) : MetricValue :=
  match t with MInt n => MFloat (float_of_dec (DecFin n 0)) | t => t end.

Definition _rule_response (definition : RuleDef) (row : option AlertRule) : AlertRuleResponse :=
  let threshold (d : MetricValue) (o : option PyDec) :=
    match o with None => float_threshold d | Some t => MFloat (float_of_dec t) end in
  match row with
  | None =>
      mkAlertRuleResponse (rd_key definition) (rd_default_enabled definition)
        (rd_severity definition) (threshold (rd_fire_threshold definition) None)
        (threshold (rd_clear_threshold definition) None) (rd_silence_in_maintenance definition)
  | Some row =>
      mkAlertRuleResponse (rd_key definition) (ar_enabled row)
        (default (rd_severity definition) (ar_severity_override row))
        (threshold (rd_fire_threshold definition) (ar_fire_threshold_override row))
        (threshold (rd_clear_threshold definition) (ar_clear_threshold_override row))
        (ar_silence_in_maintenance row)
  end.

Definition admin_only (principal : Principal) : M OSession unit :=
  core (lift (require_admin principal)) ;; mret tt.

Definition _audit (principal : Principal) (action target_type target_id : string)
    (metadata : list (string * jval)) : M OSession unit :=
  actor ← core (_load_actor principal);
  core (record_event actor action (Some target_type) (Some target_id) "success" None (Some metadata)) ;;
  flush.

Definition list_rules (principal : Principal) : M OSession (list AlertRuleResponse) :=
  admin_only principal ;;
  overrides ← get_ops alert_rule;
  mret ((fun definition => _rule_response definition (overrides !! rd_key definition)) <$> RULES).

Definition set_opt {A R} (o : option A) (f : A → R → R) (r : R) : R :=
  match o with None => r | Some x => f x r end.

Definition patched_rule (payload : AlertRulePatchRequest) (rule : AlertRule) : AlertRule :=
  set_opt (arp_silence_in_maintenance payload)
    (fun b r => r <| ar_silence_in_maintenance := b |>)
  (set_opt (arp_clear_threshold payload)
    (fun x r => r <| ar_clear_threshold_override := Some (dec_of_float x) |>)
  (set_opt (arp_fire_threshold payload)
    (fun x r => r <| ar_fire_threshold_override := Some (dec_of_float x) |>)
  (set_opt (arp_severity payload) (fun s r => r <| ar_severity_override := Some s |>)
  (set_opt (arp_enabled payload) (fun b r => r <| ar_enabled := b |>) rule)))).

Definition patch_rule (key : string) (payload : AlertRulePatchRequest) (principal : Principal)
    : M OSession AlertRuleResponse :=
  admin_only principal ;;
  definition ← get_or_raise (RULE_BY_KEY key) (HTTPException 404 "Alert rule not found");
  rules ← get_ops alert_rule;
  rule ← match rules !! key with
         | Some rule => mret rule
         | None =>
             rid ← core uuid4;
             mret (mkAlertRule rid key true None None None (rd_silence_in_maintenance definition))
         end;
  let rule := patched_rule payload rule in
  mod_ops (fun d => d <| alert_rule := <[key := rule]> (alert_rule d) |>) ;;
  flush ;;
  _audit principal "alert.rule.update" "alert_rule" (uuid_str (ar_id rule)) [("key", JStr key)]%string ;;
  mret (_rule_response definition (Some rule)).

(** ** Channels *)

Definition _channel_response (c : NotificationChannel) : NotificationChannelResponse :=
  mkNotificationChannelResponse (ch_id c) (ch_name c) (ch_kind c) (ch_tenant_id c)
    (ch_enabled c) (ch_min_severity c) (ch_config c).

Definition channel_not_found : exn := HTTPException 404 "Notification channel not found".

Definition _load_channel (channel_id : uuid) : M OSession NotificationChannel :=
  channels ← get_ops notification_channel;
  get_or_raise (channels !! channel_id) channel_not_found.

Definition is_str (v : option jval) : bool := match v with Some (JStr _) => true | _ => false end.

Definition _validate_channel_config (kind : ChannelKind.t) (config : list (string * jval))
    : exn + unit :=
  match kind with
  | ChannelKind.webhook =>
      match nonempty_str (dict_get "url" config) with
      | Some _ => inr tt
      | None => inl (HTTPException 422 "Webhook URL required")
      end
  | ChannelKind.email =>
      let recipients_ok :=
        match dict_get "to" config with
        | Some (JList l) =>
            negb (bool_decide (length l = 0%nat)) &&
            forallb (fun v => match nonempty_str (Some v) with Some _ => true | None => false end) l
        | _ => false
        end in
      if is_str (dict_get "smtp_host" config) && is_str (dict_get "from" config) && recipients_ok
      then inr tt else inl (HTTPException 422 "SMTP configuration required")
  end.

Fixpoint insert_str (s : string) (l : list string) : list string :=
  match l with
  | [] => [s]
  | x :: l => if String.leb s x then s :: x :: l else x :: insert_str s l
  end.
Definition sorted_keys (kvs : list (string * jval)) : list string :=
  foldr insert_str [] kvs.*1.

Fixpoint insert_channel (c : NotificationChannel) (l : list NotificationChannel)
    : list NotificationChannel :=
  match l with
  | [] => [c]
  | x :: l => if String.leb (ch_name c) (ch_name x) then c :: x :: l else x :: insert_channel c l
  end.

Definition list_channels (principal : Principal) : M OSession (list NotificationChannelResponse) :=
  admin_only principal ;;
  channels ← get_ops notification_channel;
  mret (_channel_response <$> foldr insert_channel [] (rows channels)).

(** The column width and the foreign key of the row. *)
Definition check_channel_row (c : NotificationChannel) : M OSession unit :=
  require (String.length (ch_name c) <=? 255)%nat DataError ;;
  tenants ← core (get_db tenants);
  require (opt_clause (ch_tenant_id c) (fun t => negb (bool_decide (tenants !! t = None))))
    (IntegrityError "notification_channel_tenant_id_fkey").

Definition put_channel (c : NotificationChannel) : M OSession unit :=
  mod_ops (fun d => d <| notification_channel := <[ch_id c := c]> (notification_channel d) |>).

Definition create_channel (payload : NotificationChannelCreateRequest) (principal : Principal)
    : M OSession NotificationChannelResponse :=
  admin_only principal ;;
  core (lift (_validate_channel_config (ncc_kind payload) (ncc_config payload))) ;;
  cid ← core uuid4;
  let channel := mkNotificationChannel cid (ncc_name payload) (ncc_kind payload)
    (ncc_tenant_id payload) (default true (ncc_enabled payload))
    (default AlertSeverity.info (ncc_min_severity payload)) (ncc_config payload)
    (ncc_secret payload) in
  check_channel_row channel ;;
  channels ← get_ops notification_channel;
  require (bool_decide (channels !! cid = None)) (IntegrityError "notification_channel_pkey") ;;
  put_channel channel ;;
  flush ;;
  _audit principal "alert.channel.create" "notification_channel" (uuid_str cid)
    [("name", JStr (ch_name channel)); ("kind", JStr (ChannelKind.value (ch_kind channel)));
     ("config_keys", JList (JStr <$> sorted_keys (ch_config channel)))]%string ;;
  mret (_channel_response channel).

Definition patched_channel (payload : NotificationChannelRequest) (c : NotificationChannel)
    : NotificationChannel :=
  mkNotificationChannel (ch_id c) (default (ch_name c) (ncr_name payload))
    (default (ch_kind c) (ncr_kind payload))
    match ncr_tenant_id payload with Some t => Some t | None => ch_tenant_id c end
    (default (ch_enabled c) (ncr_enabled payload))
    (default (ch_min_severity c) (ncr_min_severity payload))
    (default (ch_config c) (ncr_config payload))
    match ncr_secret payload with Some x => Some x | None => ch_secret c end.

Definition patch_channel (channel_id : uuid) (payload : NotificationChannelRequest)
    (principal : Principal) : M OSession NotificationChannelResponse :=
  admin_only principal ;;
  channel ← _load_channel channel_id;
  let kind := default (ch_kind channel) (ncr_kind payload) in
  let config := default (ch_config channel) (ncr_config payload) in
  core (lift (_validate_channel_config kind config)) ;;
  let channel := patched_channel payload channel in
  check_channel_row channel ;;
  put_channel channel ;;
  flush ;;
  _audit principal "alert.channel.update" "notification_channel" (uuid_str (ch_id channel)) [] ;;
  mret (_channel_response channel).

Definition delete_channel (channel_id : uuid) (principal : Principal) : M OSession unit :=
  admin_only principal ;;
  channel ← _load_channel channel_id;
  _audit principal "alert.channel.delete" "notification_channel" (uuid_str (ch_id channel)) [] ;;
  mod_ops (channel_deleted (ch_id channel)).

Definition test_channel
    (http_post : timestamp → string → list (string * jval) → list (string * string) → bool)
    (smtp_send : timestamp → SmtpRequest → bool)
    (channel_id : uuid) (principal : Principal) : M OSession TestDeliveryResult :=
  admin_only principal ;;
  channel ← _load_channel channel_id;
  send_test http_post smtp_send channel.

(** ** Who sees alerts, and what is checked when a message leaves *)

(** What a principal may see of the alerts. *)
Definition may_see (p : Principal) (a : Alert) : Prop :=
  p_role p = admin ∨
  (al_scope a = AlertScope.service ∧ is_Some (p_tenant_id p) ∧ al_tenant_id a = p_tenant_id p).

Lemma visible_may_see p a :
  p_role p = admin ∨ p_tenant_id p ≠ None → visible_to p a = true ↔ may_see p a.
Proof.
  intros Hp. unfold visible_to, may_see.
  rewrite orb_true_iff, andb_true_iff, !bool_decide_eq_true. split.
  - intros [?|[? ?]]; [by left|]. destruct Hp as [?|Hp]; [by left|right].
    split_and!; try done. by apply not_eq_None_Some.
  - intros [?|(? & _ & ?)]; auto.
Qed.

Lemma require_tenant_run p s u s' :
  require_tenant p s = (inr u, s') → s' = s ∧ (p_role p = admin ∨ p_tenant_id p ≠ None).
Proof.
  unfold require_tenant. intros [H ->]%require_inr. split; [done|].
  apply orb_true_iff in H. rewrite negb_true_iff, bool_decide_eq_true, bool_decide_eq_false in H. done.
Qed.

Lemma load_service_unchanged sid p s x s' :
  core (load_service_for_principal sid p) s = (inr x, s') → s' = s.
Proof.
  intros (t & H & ->)%core_inr. assert (t = os_session s) as ->; [|by destruct s].
  unfold load_service_for_principal in H. apply bind_inr in H as (m & s1 & [-> ->]%gets_inr & H).
  apply bind_inr in H as (svc & s1 & [_ ->]%get_or_raise_inr & H).
  repeat case_match; try done; by minv.
Qed.

(** The filters of the query string. *)
Definition selected (state : option AlertState.t) (severity : option AlertSeverity.t)
    (scope : option AlertScope.t) (service_id : option uuid) (since : option timestamp)
    (a : Alert) : Prop :=
  (∀ x, state = Some x → al_state a = x) ∧ (∀ x, severity = Some x → al_severity a = x) ∧
  (∀ x, scope = Some x → al_scope a = x) ∧ (∀ x, service_id = Some x → al_service_id a = Some x) ∧
  (∀ x, since = Some x → x <= al_first_observed_at a).

(** The alert listing changes nothing and answers, for the filters asked,
    exactly the alerts the caller may see: all of them for an administrator,
    and for a tenant user the service alerts of the own tenant, never a node
    alert or one of another tenant. *)
Theorem alert_listing_confined p state severity scope service_id since s r s' :
  (∀ i a, alert (ops s) !! i = Some a → al_id a = i) →
  list_alerts p state severity scope service_id since s = (inr r, s') →
  s' = s ∧
  ∀ x, x ∈ all_alerts r ↔
    ∃ a, x = _response (ops s) a ∧ alert (ops s) !! al_id a = Some a ∧ may_see p a ∧
         selected state severity scope service_id since a.
Proof.
  intros Hids H. unfold list_alerts in H.
  apply bind_inr in H as (u & s1 & H1 & H). assert (s1 = s) as ->.
  { destruct service_id as [sid|]; [|by minv].
    apply bind_inr in H1 as (x & s2 & H1 & H2). apply ret_inr in H2 as [_ ->].
    by eapply load_service_unchanged. }
  apply bind_inr in H as (u2 & s1 & [-> Hp]%require_tenant_run & H).
  apply bind_inr in H as (o & s1 & [-> ->]%(gets_inr (fun s => id (ops s))) & H).
  cbv zeta in H. apply ret_inr in H as [-> ->]. split; [done|].
  intros x. cbn [all_alerts]. rewrite list_elem_of_fmap. unfold id.
  setoid_rewrite (merge_sort_Permutation _ _). setoid_rewrite elem_of_select.
  setoid_rewrite andb_true_iff. setoid_rewrite andb_true_iff. setoid_rewrite andb_true_iff.
  setoid_rewrite andb_true_iff. setoid_rewrite andb_true_iff.
  setoid_rewrite (visible_may_see p _ Hp).
  split.
  - intros (a & -> & (((((Hsee & H1') & H2) & H3) & H4) & H5) & i & Hi). exists a.
    split_and!; try done; [by rewrite (Hids i a Hi)|].
    unfold selected. split_and!.
    all: intros y ->; unfold opt_clause in *;
      first [ match goal with H : bool_decide _ = true |- _ => by apply bool_decide_eq_true in H end
            | by apply Z.leb_le ].
  - intros (a & -> & Hi & Hsee & H1' & H2 & H3 & H4 & H5). exists a.
    split; [done|]. split; [|by exists (al_id a)].
    assert (∀ {A} (o : option A) (p : A → bool), (∀ x, o = Some x → p x = true) →
      opt_clause o p = true) as Hclause by (intros A [x|] q Hq; [by apply Hq|done]).
    split; [split; [split; [split; [split; [done|]|]|]|]|]; apply Hclause; intros y Hy;
      first [apply bool_decide_eq_true; auto | apply Z.leb_le; auto].
Qed.

(** ** Delivery does not route again *)

Section delivery.
Context (http_post : timestamp → string → list (string * jval) → list (string * string) → bool)
        (smtp_send : timestamp → SmtpRequest → bool)
        (max_attempts : Z).

Lemma webhook_outbox c env url s :
  nonempty_str (dict_get "url" (ch_config c)) = Some url →
  os_outbox (_send_webhook http_post c env s).2 = os_outbox s ++ [mkDelivery c env].
Proof.
  intros Hurl. unfold _send_webhook. rewrite Hurl, run_get_some. cbv zeta.
  unfold record_delivery. rewrite run_modS, bind_run, core_now_run. by destruct (http_post _ _ _ _).
Qed.

Lemma attempted_state m s b s' : attempted m s = (inr b, s') → s' = (m s).2.
Proof.
  unfold attempted, try_except. rewrite bind_run. by destruct (m s) as [[e|u] s1]; intros [= _ <-].
Qed.

(** A pending notification is delivered to its channel as the channel is
    at that moment: the owner, severity floor and enabled flag are not checked
    again, so a channel moved to another tenant after the event still receives
    the alert of the first tenant. *)
Theorem delivery_skips_routing n a c url s u s' :
  an_state n = NotificationState.pending →
  alert (ops s) !! an_alert_id n = Some a →
  an_channel_id n = Some (ch_id c) → notification_channel (ops s) !! ch_id c = Some c →
  ch_kind c = ChannelKind.webhook → nonempty_str (dict_get "url" (ch_config c)) = Some url →
  _matches c a = false →
  dispatch_one http_post smtp_send max_attempts n s = (inr u, s') →
  os_outbox s' = os_outbox s ++ [mkDelivery c (_envelope a)].
Proof.
  intros Hst Ha Hcid Hc Hkind Hurl _ H. unfold dispatch_one in H.
  rewrite bind_run, core_now_run in H. unfold _retry_due in H.
  rewrite bool_decide_eq_true_2, run_ret in H by done. simpl in H. unfold get_ops in H.
  rewrite !run_gets, Ha, Hcid in H. simpl in H. rewrite Hc in H. unfold deliver in H.
  rewrite bind_run, core_now_run in H. apply bind_inr in H as (ok & s1 & H1 & H).
  unfold put_notification, mod_ops in H. apply modS_inr in H as ->. simpl.
  apply attempted_state in H1 as ->. unfold _send. rewrite Hkind. by eapply webhook_outbox.
Qed.
End delivery.
