(* ===== verification/AlertDemo.v ===== *)
(** * The alert lane on concrete worlds

    A node near its capacity whose alert fires and clears, and a failed job
    whose alert does not. *)

From S2P Require Import Prelude Ipaddress Models Db Api PyNum OpsModels AlertInv.
From S2P Require Import AlertRules AlertDispatch AlertSources AlertEvaluator.
From S2P Require Import AlertSpec AlertDelivery AlertApi.
Import Deps.
Open Scope Z_scope.

Definition second : Z := 1000000.
Definition demo_evaluator : AlertEvaluator :=
  mkAlertEvaluator (mkAlertSources (60 * second) (300 * second)) 2 2 (1800 * second) 90 3.
Definition demo_post (t : timestamp) (url : string) (body : list (string * jval))
    (headers : list (string * string)) : bool := true.
Definition demo_smtp (t : timestamp) (r : SmtpRequest) : bool := false.

Definition demo_service : ProtectedService :=
  mkProtectedService 2 7 1 "web" (Net 167772160 24) allow_rule_only true None None None None
    ApplyStatus.active 1 (Some 1) None 0 0.
Definition failed_job : AgentJob :=
  mkAgentJob 3 (TargetService 2) 1 ChangeTrigger.service JobStatus.failed (Some "boom"%string) 1
    None 0 (Some 0) (Some 0).

Definition alert_db : Db :=
  empty_db <| tenants := {[1%positive := mkTenant 1 "acme" tenant_active 0]} |>
           <| protected_service := {[2%positive := demo_service]} |>
           <| agent_job := {[3%positive := failed_job]} |>
           <| uuid_supply := 100%positive |> <| clock := 10 * second |>.

Definition demo_channel : NotificationChannel :=
  mkNotificationChannel 9 "ops" ChannelKind.webhook None true AlertSeverity.info
    [("url", JStr "https://hooks.example/ops")]%string None.

(** The node at [clean] percent of its capacity, captured now. *)
Definition health (clean : Z) (at_ : timestamp) : NodeHealthSnapshot :=
  mkNodeHealthSnapshot 50 at_ 2 XdpMode.native (Some 0) (Some 1) 0 clean 100 None.

Definition at_load (clean : Z) (w : OWorld) : OWorld :=
  w <| ow_ops := ow_ops w <| node_health_snapshot :=
         {[50%positive := health clean (clock (ow_db w))]} |> |>.

Definition lane_world0 : OWorld :=
  at_load 95 (mkOWorld (mkWorld alert_db [] true [] [])
    (empty_ops <| notification_channel := {[9%positive := demo_channel]} |>) []).

Definition demo_tick (w : OWorld) : OWorld := (tick demo_post demo_smtp demo_evaluator w).2.

Definition lane_world1 : OWorld := Eval vm_compute in demo_tick lane_world0.
Definition lane_world2 : OWorld := Eval vm_compute in demo_tick lane_world1.
(** The load falls and the job is gone. *)
Definition lane_world3 : OWorld := Eval vm_compute in
  at_load 50 (lane_world2 <| ow_world := ow_world lane_world2
    <| w_db := ow_db lane_world2 <| agent_job := ∅ |> |> |>).
Definition lane_world4 : OWorld := Eval vm_compute in demo_tick lane_world3.
Definition lane_world5 : OWorld := Eval vm_compute in demo_tick lane_world4.

Definition capacity_key : string * string := ("near_capacity", "node")%string.
Definition failed_key : string * string := ("apply_failed", "node")%string.

Example demo_lives :
  (fun w => (life (alert (ow_ops w)) capacity_key, life (alert (ow_ops w)) failed_key)) <$>
    [lane_world0; lane_world1; lane_world2; lane_world4; lane_world5] =
  [(Idle, Idle); (Pending 1, Pending 1); (Firing 0, Firing 0); (Firing 1, Firing 0); (Idle, Firing 0)].
Proof. vm_compute. reflexivity. Qed.

(** ** Witnesses *)

Lemma demo_dp_ids w :
  protected_service (ow_db w) = {[2%positive := demo_service]} → dp_ids_distinct (ow_db w).
Proof.
  intros E i s j s'. rewrite E, !lookup_singleton_Some. intros [<- _] [<- _]. done.
Qed.

Lemma demo_dp0 : dp_ids_distinct (ow_db lane_world0).
Proof. apply demo_dp_ids. reflexivity. Qed.
Lemma demo_dp1 : dp_ids_distinct (ow_db lane_world1).
Proof. apply demo_dp_ids. reflexivity. Qed.
Lemma demo_dp3 : dp_ids_distinct (ow_db lane_world3).
Proof. apply demo_dp_ids. reflexivity. Qed.
Lemma demo_dp4 : dp_ids_distinct (ow_db lane_world4).
Proof. apply demo_dp_ids. reflexivity. Qed.

Abbreviation demo_step w w' := (tick demo_post demo_smtp demo_evaluator w = (inr tt, w')).
Lemma demo_tick0 : demo_step lane_world0 lane_world1.
Proof. vm_compute. reflexivity. Qed.
Lemma demo_tick1 : demo_step lane_world1 lane_world2.
Proof. vm_compute. reflexivity. Qed.
Lemma demo_tick3 : demo_step lane_world3 lane_world4.
Proof. vm_compute. reflexivity. Qed.
Lemma demo_tick4 : demo_step lane_world4 lane_world5.
Proof. vm_compute. reflexivity. Qed.

Abbreviation demo_history := (lane_history demo_post demo_smtp demo_evaluator).
Abbreviation demo_sight := (tick_sight demo_evaluator).

Lemma demo_history0 : demo_history lane_world0 (fun _ => []).
Proof. apply lane_start. reflexivity. Qed.
Lemma demo_history1 : demo_history lane_world1 (fun k => [demo_sight lane_world0 k]).
Proof. apply (lane_tick _ _ _ _ _ _ demo_history0 demo_dp0 demo_tick0). Qed.
Lemma demo_history2 :
  demo_history lane_world2 (fun k => [demo_sight lane_world1 k; demo_sight lane_world0 k]).
Proof. apply (lane_tick _ _ _ _ _ _ demo_history1 demo_dp1 demo_tick1). Qed.
Lemma demo_history3 :
  demo_history lane_world3 (fun k => [demo_sight lane_world1 k; demo_sight lane_world0 k]).
Proof.
  apply (lane_other _ _ _ _ _ _ id demo_history2); [by intros a|].
  rewrite map_fmap_id. reflexivity.
Qed.
Lemma demo_history4 : demo_history lane_world4
  (fun k => [demo_sight lane_world3 k; demo_sight lane_world1 k; demo_sight lane_world0 k]).
Proof. apply (lane_tick _ _ _ _ _ _ demo_history3 demo_dp3 demo_tick3). Qed.

Lemma demo_wf3 : table_wf 2 2 (alert (ow_ops lane_world3)).
Proof. apply (life_of_history demo_post demo_smtp demo_evaluator _ _ eq_refl eq_refl demo_history3). Qed.

Lemma alert_fires_after_streak_witness :
  take 2 [demo_sight lane_world1 capacity_key; demo_sight lane_world0 capacity_key] =
  [Fires; Fires].
Proof.
  apply (alert_fires_after_streak demo_post demo_smtp demo_evaluator lane_world1
    (fun k => [demo_sight lane_world0 k]) lane_world2 capacity_key 0 eq_refl eq_refl
    demo_history1 demo_dp1 demo_tick1).
  - intros c'. vm_compute. discriminate.
  - vm_compute. reflexivity.
Defined.

Lemma alert_resolves_after_streak_witness :
  demo_sight lane_world4 capacity_key = Absent ∨
  take 2 [demo_sight lane_world4 capacity_key; demo_sight lane_world3 capacity_key;
          demo_sight lane_world1 capacity_key; demo_sight lane_world0 capacity_key] =
  [Clears; Clears].
Proof.
  apply (alert_resolves_after_streak demo_post demo_smtp demo_evaluator lane_world4
    (fun k => [demo_sight lane_world3 k; demo_sight lane_world1 k; demo_sight lane_world0 k])
    lane_world5 capacity_key 1 eq_refl eq_refl demo_history4 demo_dp4 demo_tick4).
  - vm_compute. reflexivity.
  - vm_compute. reflexivity.
Defined.

Lemma alert_tick_refines_lifecycle_witness :
  life (alert (ow_ops lane_world4)) capacity_key =
  life_step 2 2 (life (alert (ow_ops lane_world3)) capacity_key) (demo_sight lane_world3 capacity_key).
Proof.
  apply (alert_tick_refines_lifecycle demo_post demo_smtp demo_evaluator lane_world3 lane_world4
    eq_refl eq_refl demo_dp3 demo_wf3 demo_tick3).
Defined.

Lemma alert_table_invariant_witness : table_wf 2 2 (alert (ow_ops lane_world4)).
Proof.
  apply (alert_table_invariant demo_post demo_smtp demo_evaluator _ _ eq_refl eq_refl demo_history4).
Defined.

Lemma zero_clear_threshold_witness : life (alert (ow_ops lane_world4)) failed_key = Firing 0.
Proof.
  apply (zero_clear_threshold_never_resolves demo_post demo_smtp demo_evaluator lane_world3
    lane_world4 "apply_failed" 0 eq_refl eq_refl demo_dp3 demo_wf3).
  - by left.
  - reflexivity.
  - vm_compute. reflexivity.
  - exact demo_tick3.
Defined.

(** A session in the third world, with one notification of its own. *)
Definition demo_session : OSession :=
  mkOSession (new_session (ow_db lane_world3)) (ow_ops lane_world3) [].
Definition demo_notification (state : NotificationState.t) (attempts : Z) : AlertNotification :=
  mkAlertNotification 60 100 (Some 9%positive) "ops" ChannelKind.webhook "fire" state attempts None
    None 0 0.
Definition retry_session : OSession :=
  demo_session <| ops := ops demo_session
    <| alert_notification := {[60%positive := demo_notification NotificationState.retrying 1]} |> |>.

Lemma retry_session_wf :
  notifications_wf 3 (alert_notification (ops retry_session)) ∧
  not_later (clock (os_db retry_session)) (alert_notification (ops retry_session)).
Proof.
  split; intros i n; simpl; rewrite lookup_singleton_Some; intros [<- <-]; [|simpl; lia].
  split; [done|]. split; simpl; try done; lia.
Qed.

Lemma notifications_terminate_witness :
  ∃ s', dispatch_rounds (fun _ _ _ _ => false) demo_smtp 3 (longest_backoff 3) 3 retry_session =
    (inr tt, s') ∧
    ∀ i n, alert_notification (ops retry_session) !! i = Some n →
      ∃ n', alert_notification (ops s') !! i = Some n' ∧
        (an_state n' = NotificationState.sent ∨ an_state n' = NotificationState.failed).
Proof.
  apply (notifications_terminate (fun _ _ _ _ => false) demo_smtp 3 retry_session).
  - lia.
  - vm_compute. reflexivity.
  - apply retry_session_wf.
  - apply retry_session_wf.
Defined.

Definition demo_alert : Alert :=
  mkAlert 100 "attack_onset" AlertScope.service "7" (Some 2%positive) (Some 1%positive) None
    AlertSeverity.warning AlertState.firing None [] 2 0 0 (Some 0) None None None None.

(** Channels of the node, of the alert's tenant and of another one, a disabled
    channel and one that wants critical alerts only. *)
Definition routing_channels : gmap uuid NotificationChannel :=
  list_to_map ((fun c => (ch_id c, c)) <$>
    [demo_channel;
     demo_channel <| ch_id := 10%positive |> <| ch_tenant_id := Some 1%positive |>;
     demo_channel <| ch_id := 11%positive |> <| ch_tenant_id := Some 2%positive |>;
     demo_channel <| ch_id := 12%positive |> <| ch_enabled := false |>;
     demo_channel <| ch_id := 13%positive |> <| ch_min_severity := AlertSeverity.critical |>]).
Definition routing_session : OSession :=
  demo_session <| ops := ops demo_session <| notification_channel := routing_channels |> |>.
Definition enqueued_session : OSession := Eval vm_compute in
  (enqueue demo_alert "fire" routing_session).2.

Lemma enqueue_routes_exactly_witness :
  (an_channel_id <$> (map_to_list (alert_notification (ops enqueued_session) ∖
    alert_notification (ops routing_session))).*2) = [Some 10; Some 9]%positive ∧
  ∃ n, added (alert_notification (ops routing_session)) (alert_notification (ops enqueued_session)) n ∧
    notifies demo_alert "fire" demo_channel n ∧
    ∀ m, added (alert_notification (ops routing_session))
               (alert_notification (ops enqueued_session)) m →
         an_channel_id m = Some 9%positive → m = n.
Proof.
  split; [vm_compute; reflexivity|].
  apply (enqueue_routes_exactly demo_alert "fire" routing_session tt enqueued_session).
  - intros i c Hc. revert i c Hc. change (map_Forall (fun i c => ch_id c = i)
      (notification_channel (ops routing_session))). by_compute.
  - vm_compute. reflexivity.
  - split; [vm_compute; reflexivity|]. split; [done|]. split; [done|]. by left.
Defined.

Definition tenant_principal : Principal := mkPrincipal 30 "ann" tenant_user (Some 1%positive) "sid".
Definition listing_session : OSession :=
  demo_session <| ops := ops demo_session <| alert := {[100%positive := demo_alert]} |> |>.
Definition listing_result : AlertListResponse :=
  mkAlertListResponse [_response (ops listing_session) demo_alert] true.

Lemma alert_listing_confined_witness :
  listing_session = listing_session ∧
  ∀ x, x ∈ all_alerts listing_result ↔
    ∃ a, x = _response (ops listing_session) a ∧ alert (ops listing_session) !! al_id a = Some a ∧
         may_see tenant_principal a ∧ selected None None None None None a.
Proof.
  apply (alert_listing_confined tenant_principal None None None None None listing_session
    listing_result listing_session).
  - intros i a. simpl. rewrite lookup_singleton_Some. intros [<- <-]. done.
  - vm_compute. reflexivity.
Defined.

(** The channel now belongs to tenant 2; the alert is tenant 1's. *)
Definition moved_channel : NotificationChannel := demo_channel <| ch_tenant_id := Some 2%positive |>.
Definition moved_session : OSession :=
  listing_session <| ops := ops listing_session
    <| notification_channel := {[9%positive := moved_channel]} |> |>.
Definition delivered_session : OSession := Eval vm_compute in
  (dispatch_one demo_post demo_smtp 3 (demo_notification NotificationState.pending 0)
     moved_session).2.

Lemma delivery_skips_routing_witness :
  os_outbox delivered_session =
  os_outbox moved_session ++ [mkDelivery moved_channel (_envelope demo_alert)].
Proof.
  apply (delivery_skips_routing demo_post demo_smtp 3
    (demo_notification NotificationState.pending 0) demo_alert moved_channel
    "https://hooks.example/ops" moved_session tt delivered_session);
    vm_compute; reflexivity.
Defined.

(** A pending alert that never fired is resolved when its rule is disabled, and
    the channel is told of the resolution of an alert it never heard of. *)
Definition disabled_world : OWorld := Eval vm_compute in
  demo_tick (lane_world1 <| ow_ops := ow_ops lane_world1 <| alert_rule :=
    {["near_capacity"%string :=
        mkAlertRule 70 "near_capacity" false None None None false]} |> |>).

Example unfired_alert_sends_resolve :
  life (alert (ow_ops lane_world1)) capacity_key = Pending 1 ∧
  life (alert (ow_ops disabled_world)) capacity_key = Idle ∧
  existsb (fun n => bool_decide (an_trigger n = "resolve"%string))
    (rows (alert_notification (ow_ops disabled_world))) = true ∧
  existsb (fun d => match dict_get "fired_at" (dl_envelope d) with Some JNull => true | _ => false end)
    (ow_outbox disabled_world) = true.
Proof. vm_compute. auto. Qed.
