(* ===== verification/TelemetryReader.v ===== *)
(** * Data-plane telemetry as the helper prints it ([worker/telemetry_reader.py])

    The typed snapshot and drop-event readers over decoded JSON, and the
    printers that mirror them.  A Python [dict] is an association list with
    distinct keys. *)

From S2P Require Import Prelude PyStr Ipaddress Models Db PyNum OpsModels Calendar AlertDispatch.
Open Scope Z_scope.

(** ** A result or an exception *)

#[global] Instance sum_ret : MRet (sum exn) := fun A a => inr a.
#[global] Instance sum_bind : MBind (sum exn) := fun A B k m =>
  match m with inl e => inl e | inr a => k a end.

Definition guard_sum (b : bool) (e : exn) : exn + unit := if b then inr tt else inl e.

Lemma mapM_inverse {A B C} (f : A → exn + B) (g : C → A) (h : C → B) l :
  (∀ c, f (g c) = inr (h c)) → mapM f (g <$> l) = inr (h <$> l).
Proof.
  intros H. induction l as [|c l IH]; [done|].
  change (mapM f (g <$> c :: l)) with
    (f (g c) ≫= fun y => mapM f (g <$> l) ≫= fun k => mret (y :: k)).
  by rewrite H, IH.
Qed.

(** ** Field readers *)

Definition dict := list (string * jval).

(** [payload[key]]. *)
Definition item (key : string) (payload : dict) : exn + jval :=
  match dict_get key payload with Some v => inr v | None => inl (KeyError key) end.

Definition _mapping (value : jval) : exn + dict :=
  match value with JObj kvs => inr kvs | _ => inl (ValueError "expected an object") end.

Definition _integer (value : jval) : exn + Z :=
  match value with JInt n => inr n | _ => inl (ValueError "expected an integer") end.

Definition _counter_map (value : jval) : exn + list (string * Z) :=
  kvs ← _mapping value;
  mapM (fun kv => n ← _integer kv.2; mret (kv.1, n)) kvs.

Definition _port (value : jval) : exn + Z :=
  port ← _integer value;
  _ ← guard_sum ((0 <=? port) && (port <=? 65535)) (ValueError "expected a port");
  mret port.

(** An IPv6 address and a string that is no address both end in [ValueError]. *)
Definition _ipv4 (value : jval) : exn + string :=
  match value with
  | JStr s =>
      match ip_int_from_string (py s) with
      | Some _ => inr s
      | None => inl (ValueError "expected an IPv4 address")
      end
  | _ => inl (ValueError "expected an IPv4 address")
  end.

Definition _string (value : jval) (e : exn) : exn + string :=
  match value with JStr s => inr s | _ => inl e end.

Definition int_field (key : string) (payload : dict) : exn + Z := item key payload ≫= _integer.

(** ** [DropEvent] *)

Record DropEvent := mkDropEvent {
  de_ts_ns : Z;
  de_reason : string;
  de_src_ip : string;
  de_dst_ip : string;
  de_sport : Z;
  de_dport : Z;
  de_ip_proto : Z;
  de_service_id : Z
}.

Definition DropEvent_from_dict (payload : dict) : exn + DropEvent :=
  reason ← item "reason" payload;
  reason ← _string reason (ValueError "expected a drop reason");
  ip_proto ← int_field "ip_proto" payload;
  _ ← guard_sum ((0 <=? ip_proto) && (ip_proto <=? 255)) (ValueError "expected an IP protocol");
  service_id ← int_field "service_id" payload;
  _ ← guard_sum (0 <=? service_id) (ValueError "expected a non-negative service id");
  ts_ns ← int_field "ts_ns" payload;
  src_ip ← item "src_ip" payload ≫= _ipv4;
  dst_ip ← item "dst_ip" payload ≫= _ipv4;
  sport ← item "sport" payload ≫= _port;
  dport ← item "dport" payload ≫= _port;
  mret (mkDropEvent ts_ns reason src_ip dst_ip sport dport ip_proto service_id).

(** ** [ServiceCounters] *)

Record ServiceCounters := mkServiceCounters {
  sc_dp_id : Z;
  sc_clean_pkts : Z;
  sc_clean_bytes : Z;
  sc_drop_pkts : Z;
  sc_drop_bytes : Z;
  sc_drop_by_reason : list (string * Z)
}.

Definition ServiceCounters_from_dict (payload : dict) : exn + ServiceCounters :=
  dp_id ← int_field "dp_id" payload;
  clean_pkts ← int_field "clean_pkts" payload;
  clean_bytes ← int_field "clean_bytes" payload;
  drop_pkts ← int_field "drop_pkts" payload;
  drop_bytes ← int_field "drop_bytes" payload;
  drop_by_reason ← item "drop_by_reason" payload ≫= _counter_map;
  mret (mkServiceCounters dp_id clean_pkts clean_bytes drop_pkts drop_bytes drop_by_reason).

Definition counter_obj (kvs : list (string * Z)) : jval := JObj ((fun kv => (kv.1, JInt kv.2)) <$> kvs).

Definition ServiceCounters_to_dict (c : ServiceCounters) : dict :=
  [("dp_id", JInt (sc_dp_id c)); ("clean_pkts", JInt (sc_clean_pkts c));
   ("clean_bytes", JInt (sc_clean_bytes c)); ("drop_pkts", JInt (sc_drop_pkts c));
   ("drop_bytes", JInt (sc_drop_bytes c));
   ("drop_by_reason", counter_obj (sc_drop_by_reason c))]%string.

(** ** [NodeCounters] *)

Record NodeCounters := mkNodeCounters {
  nc_counters : list (string * Z);
  nc_sample_stats : list (string * Z);
  nc_bloom_stats : list (string * Z)
}.

Definition NodeCounters_from_dict (payload : dict) : exn + NodeCounters :=
  counters ← item "counters" payload ≫= _counter_map;
  sample_stats ← item "sample_stats" payload ≫= _counter_map;
  bloom_stats ← item "bloom_stats" payload ≫= _counter_map;
  mret (mkNodeCounters counters sample_stats bloom_stats).

Definition NodeCounters_to_dict (c : NodeCounters) : dict :=
  [("counters", counter_obj (nc_counters c)); ("sample_stats", counter_obj (nc_sample_stats c));
   ("bloom_stats", counter_obj (nc_bloom_stats c))]%string.

(** ** [NextHopEntry] *)

Record NextHopEntry := mkNextHopEntry {
  hop_dp_id : Z;
  hop_dst_mac : string;
  hop_src_mac : string;
  hop_resolved : bool;
  hop_age_s : Z
}.

Definition NextHopEntry_from_dict (payload : dict) : exn + NextHopEntry :=
  resolved ← item "resolved" payload;
  resolved ← match resolved with
             | JBool b => inr b
             | _ => inl (ValueError "expected a boolean for resolved")
             end;
  dst_mac ← item "dst_mac" payload;
  dst_mac ← _string dst_mac (ValueError "expected a string for dst_mac");
  src_mac ← item "src_mac" payload;
  src_mac ← _string src_mac (ValueError "expected a string for src_mac");
  dp_id ← int_field "dp_id" payload;
  age_s ← int_field "age_s" payload;
  mret (mkNextHopEntry dp_id dst_mac src_mac resolved age_s).

Definition NextHopEntry_to_dict (h : NextHopEntry) : dict :=
  [("dp_id", JInt (hop_dp_id h)); ("dst_mac", JStr (hop_dst_mac h));
   ("src_mac", JStr (hop_src_mac h)); ("resolved", JBool (hop_resolved h));
   ("age_s", JInt (hop_age_s h))]%string.

(** ** [TelemetrySnapshot] *)

Record TelemetrySnapshot := mkTelemetrySnapshot {
  ts_ts_ns : Z;
  ts_active_slot : Z;
  ts_active_version : Z;
  ts_xdp_mode : string;
  ts_xdp_prog_id : Z;
  ts_xdp_ifindex : Z;
  ts_node : NodeCounters;
  ts_services : list ServiceCounters;
  ts_nexthops : list NextHopEntry;
  ts_bypass_active : bool;
  ts_bypass_pkts : Z;
  ts_bypass_bytes : Z;
  ts_has_bypass_blocks : bool
}.

#[global] Instance TelemetrySnapshot_eta : Eta TelemetrySnapshot := MkEta (fun r =>
  mkTelemetrySnapshot (ts_ts_ns r) (ts_active_slot r) (ts_active_version r) (ts_xdp_mode r)
    (ts_xdp_prog_id r) (ts_xdp_ifindex r) (ts_node r) (ts_services r) (ts_nexthops r)
    (ts_bypass_active r) (ts_bypass_pkts r) (ts_bypass_bytes r) (ts_has_bypass_blocks r)).

Definition has_key (key : string) (payload : dict) : bool :=
  match dict_get key payload with Some _ => true | None => false end.

Definition _list (value : jval) (e : exn) : exn + list jval :=
  match value with JList l => inr l | _ => inl e end.

Definition TelemetrySnapshot_from_dict (payload : dict) : exn + TelemetrySnapshot :=
  active ← item "active" payload ≫= _mapping;
  xdp ← item "xdp" payload ≫= _mapping;
  node_control ← _mapping (default (JObj []) (dict_get "node_control" payload));
  bypass ← _mapping (default (JObj []) (dict_get "bypass" payload));
  services ← item "services" payload;
  services ← _list services (ValueError "expected services list");
  nexthop_list ← _list (default (JList []) (dict_get "nexthop" payload))
                   (ValueError "expected nexthop list");
  nexthops ← mapM (fun v => _mapping v ≫= NextHopEntry_from_dict) nexthop_list;
  xdp_mode ← item "mode" xdp;
  xdp_mode ← _string xdp_mode (ValueError "expected XDP mode");
  ts_ns ← int_field "ts_ns" payload;
  active_slot ← int_field "slot" active;
  active_version ← int_field "version" active;
  xdp_prog_id ← int_field "prog_id" xdp;
  xdp_ifindex ← int_field "ifindex" xdp;
  node ← item "node" payload ≫= _mapping;
  node ← NodeCounters_from_dict node;
  services ← mapM (fun v => _mapping v ≫= ServiceCounters_from_dict) services;
  bypass_active ← _integer (default (JInt 0) (dict_get "bypass" node_control));
  bypass_pkts ← _integer (default (JInt 0) (dict_get "pkts" bypass));
  bypass_bytes ← _integer (default (JInt 0) (dict_get "bytes" bypass));
  mret (mkTelemetrySnapshot ts_ns active_slot active_version xdp_mode xdp_prog_id xdp_ifindex
    node services nexthops (negb (bypass_active =? 0)) bypass_pkts bypass_bytes
    (has_key "node_control" payload || has_key "bypass" payload)).

(** Whether the printed object carries the bypass blocks. *)
Definition shows_bypass (t : TelemetrySnapshot) : bool :=
  ts_has_bypass_blocks t || ts_bypass_active t || negb (ts_bypass_pkts t =? 0) ||
  negb (ts_bypass_bytes t =? 0).

Definition TelemetrySnapshot_to_dict (t : TelemetrySnapshot) : dict :=
  [("ts_ns", JInt (ts_ts_ns t));
   ("active", JObj [("slot", JInt (ts_active_slot t)); ("version", JInt (ts_active_version t))]);
   ("xdp", JObj [("mode", JStr (ts_xdp_mode t)); ("prog_id", JInt (ts_xdp_prog_id t));
                 ("ifindex", JInt (ts_xdp_ifindex t))]);
   ("node", JObj (NodeCounters_to_dict (ts_node t)));
   ("services", JList (JObj ∘ ServiceCounters_to_dict <$> ts_services t))]%string ++
  (if bool_decide (length (ts_nexthops t) = 0%nat) then []
   else [("nexthop"%string, JList (JObj ∘ NextHopEntry_to_dict <$> ts_nexthops t))]) ++
  (if shows_bypass t then
     [("node_control", JObj [("bypass", JInt (if ts_bypass_active t then 1 else 0))]);
      ("bypass", JObj [("pkts", JInt (ts_bypass_pkts t)); ("bytes", JInt (ts_bypass_bytes t))])]%string
   else []).

(** ** [TelemetryReader.snapshot] *)

(** What became of the subprocess: it did not start, ran into the timeout, or
    exited with a code.  An output is [None] when it is no UTF-8; the decoded
    standard output comes with its JSON decoding. *)
Inductive dpstat_run :=
  | NotStarted
  | TimedOut
  | Exited (returncode : Z) (stdout : option (string * option jval)) (stderr : option string).

Definition not_loaded (s : string) : bool := str_contains "not loaded" (lower s).

(** Every decoding error reads as no snapshot. *)
Definition snapshot (run : dpstat_run) : option TelemetrySnapshot :=
  match run with
  | NotStarted | TimedOut => None
  | Exited code stdout stderr =>
      if negb (code =? 0) then None else
      match stdout with
      | None => None
      | Some (output, json) =>
          if not_loaded output then None else
          match stderr with
          | None => None
          | Some errors =>
              if not_loaded errors then None else
              match json with
              | None => None
              | Some v =>
                  match _mapping v ≫= TelemetrySnapshot_from_dict with
                  | inr t => Some t
                  | inl _ => None
                  end
              end
          end
      end
  end.

(** The drop events of the lines of a tail; a malformed line is skipped. *)
Definition tail_events (lines : list (option jval)) : list DropEvent :=
  omap (fun line =>
    match line with
    | None => None
    | Some v => match _mapping v ≫= DropEvent_from_dict with inr e => Some e | inl _ => None end
    end) lines.

(** ** Lemmas *)

Lemma counter_map_inverse kvs : _counter_map (counter_obj kvs) = inr kvs.
Proof.
  unfold _counter_map, counter_obj. simpl.
  rewrite (mapM_inverse _ (fun kv : string * Z => (kv.1, JInt kv.2)) id) by (by intros []).
  by rewrite list_fmap_id.
Qed.

Lemma ServiceCounters_inverse c : ServiceCounters_from_dict (ServiceCounters_to_dict c) = inr c.
Proof.
  unfold ServiceCounters_from_dict, ServiceCounters_to_dict, int_field, item. simpl.
  rewrite counter_map_inverse. by destruct c.
Qed.

Lemma NodeCounters_inverse c : NodeCounters_from_dict (NodeCounters_to_dict c) = inr c.
Proof.
  unfold NodeCounters_from_dict, NodeCounters_to_dict, item. simpl.
  rewrite !counter_map_inverse. by destruct c.
Qed.

Lemma NextHopEntry_inverse h : NextHopEntry_from_dict (NextHopEntry_to_dict h) = inr h.
Proof. by destruct h. Qed.

Lemma services_inverse svcs :
  mapM (fun v => _mapping v ≫= ServiceCounters_from_dict) (JObj ∘ ServiceCounters_to_dict <$> svcs) =
  inr svcs.
Proof.
  rewrite (mapM_inverse _ _ id) by (intros c; apply ServiceCounters_inverse).
  by rewrite list_fmap_id.
Qed.

Lemma hops_inverse hops :
  mapM (fun v => _mapping v ≫= NextHopEntry_from_dict) (JObj ∘ NextHopEntry_to_dict <$> hops) =
  inr hops.
Proof.
  rewrite (mapM_inverse _ _ id) by (intros c; apply NextHopEntry_inverse).
  by rewrite list_fmap_id.
Qed.

Lemma hides_bypass t :
  shows_bypass t = false →
  ts_has_bypass_blocks t = false ∧ ts_bypass_active t = false ∧ ts_bypass_pkts t = 0 ∧
  ts_bypass_bytes t = 0.
Proof.
  unfold shows_bypass. rewrite !orb_false_iff, !negb_false_iff, !Z.eqb_eq. tauto.
Qed.

#[local] Arguments NodeCounters_from_dict : simpl never.
#[local] Arguments NodeCounters_to_dict : simpl never.
#[local] Arguments mapM : simpl never.
#[local] Arguments list_fmap : simpl never.
#[local] Arguments fmap : simpl never.

(** Reading what a snapshot prints gives the snapshot back, field by
    field, for any counters, services and next hops; only the private flag
    that records the presence of the bypass blocks is recomputed from the
    printed object, as the class excludes it from comparison. *)
Theorem snapshot_dict_roundtrip t :
  TelemetrySnapshot_from_dict (TelemetrySnapshot_to_dict t) =
  inr (t <| ts_has_bypass_blocks := shows_bypass t |>).
Proof.
  destruct t as [ts slot ver mode pid ifx node svcs hops act pk by_ has].
  unfold TelemetrySnapshot_to_dict, TelemetrySnapshot_from_dict.
  destruct (shows_bypass _) eqn:Esb; [|apply hides_bypass in Esb as (? & ? & ? & ?); simpl in *; subst].
  all: destruct hops as [|hop hops]; simpl ts_nexthops; simpl length.
  all: simpl; rewrite ?hops_inverse; simpl; rewrite ?NodeCounters_inverse; simpl;
    rewrite ?services_inverse; simpl; first [by destruct act | reflexivity].
Qed.
