(* ===== verification/Telemetry.v ===== *)
(** * The telemetry lane ([worker/telemetry.py])

    Cumulative data-plane counters become windowed rows: the difference to the
    previous snapshot, or the counter itself after a reset.  The aggregator
    keeps the previous snapshot and the rolling window of sampled drops in
    memory; rows are written in a transaction of their own. *)

From S2P Require Import Prelude PyStr Models Db PyNum Services OpsModels Calendar.
From S2P Require Import AlertDispatch TelemetryReader.
Open Scope Z_scope.

Record AggregatorConfig := mkAggregatorConfig {
  ag_interval_seconds : Z;
  ag_retention_seconds : Z;
  ag_node_clean_capacity_bps : Z;
  ag_top_talkers_window_seconds : Z;
  ag_top_talkers_limit : nat
}.

Record TelemetryAggregator := mkTelemetryAggregator {
  ta_previous : option TelemetrySnapshot;
  ta_sampled_events : list (timestamp * DropEvent)      (* the deque, oldest first *)
}.

#[global] Instance TelemetryAggregator_eta : Eta TelemetryAggregator := MkEta (fun r =>
  mkTelemetryAggregator (ta_previous r) (ta_sampled_events r)).

(** ** Deltas *)

Definition counter_delta (current previous : Z) (reset : bool) : Z :=
  if reset || (current <? previous) then current else current - previous.

(** [previous.get(key, 0)]. *)
Definition counter_get (key : string) (m : list (string * Z)) : Z :=
  default 0 (snd <$> List.find (fun kv => bool_decide (kv.1 = key)) m).

Definition _mapping_delta (current previous : list (string * Z)) (baseline reset : bool)
    : list (string * Z) :=
  if baseline then (fun kv => (kv.1, 0)) <$> current
  else (fun kv => (kv.1, counter_delta kv.2 (counter_get kv.1 previous) reset)) <$> current.

Definition _service_delta (current : ServiceCounters) (previous : option ServiceCounters)
    (baseline reset : bool) : ServiceCounters :=
  if baseline then
    mkServiceCounters (sc_dp_id current) 0 0 0 0 ((fun kv => (kv.1, 0)) <$> sc_drop_by_reason current)
  else
    let prior := default (mkServiceCounters (sc_dp_id current) 0 0 0 0 []) previous in
    mkServiceCounters (sc_dp_id current)
      (counter_delta (sc_clean_pkts current) (sc_clean_pkts prior) reset)
      (counter_delta (sc_clean_bytes current) (sc_clean_bytes prior) reset)
      (counter_delta (sc_drop_pkts current) (sc_drop_pkts prior) reset)
      (counter_delta (sc_drop_bytes current) (sc_drop_bytes prior) reset)
      (_mapping_delta (sc_drop_by_reason current) (sc_drop_by_reason prior) false reset).

(** ** Top talkers *)

(** [Counter] over a list, its items by descending count and then by key. *)
Section top.
Context {K : Type} `{EqDecision K} (key_leb : K → K → bool).

Definition count_of (k : K) (l : list K) : Z :=
  Z.of_nat (length (List.filter (fun x => bool_decide (x = k)) l)).

Definition rank_leb (a b : K * Z) : bool :=
  (b.2 <? a.2) || ((a.2 =? b.2) && key_leb a.1 b.1).

Fixpoint insert_ranked (x : K * Z) (l : list (K * Z)) : list (K * Z) :=
  match l with
  | [] => [x]
  | y :: l => if rank_leb x y then x :: y :: l else y :: insert_ranked x l
  end.

Definition top_counts (limit : nat) (l : list K) : list (K * Z) :=
  take limit (foldr insert_ranked [] ((fun k => (k, count_of k l)) <$> remove_dups l)).
End top.

Section aggregator.
Context (self : AggregatorConfig).

Definition _top_talkers (dp_id : option Z) (samples : list (timestamp * DropEvent))
    : list (Z * Z) * list (string * Z) :=
  let events := List.filter (fun e =>
    match dp_id with None => true | Some d => de_service_id e =? d end) samples.*2 in
  (top_counts Z.leb (ag_top_talkers_limit self) (de_dport <$> events),
   top_counts String.leb (ag_top_talkers_limit self) (de_src_ip <$> events)).

(** Events older than the window leave from the front of the deque. *)
Fixpoint drop_older (cutoff : timestamp) (l : list (timestamp * DropEvent))
    : list (timestamp * DropEvent) :=
  match l with
  | [] => []
  | e :: l' => if e.1 <? cutoff then drop_older cutoff l' else l
  end.

Definition _prune_sampled_events (captured_at : timestamp) (a : TelemetryAggregator)
    : TelemetryAggregator :=
  a <| ta_sampled_events :=
         drop_older (captured_at - microseconds (ag_top_talkers_window_seconds self))
           (ta_sampled_events a) |>.

(** One event of the tail. *)
Definition collect_event (captured_at : timestamp) (event : DropEvent) (a : TelemetryAggregator)
    : TelemetryAggregator :=
  _prune_sampled_events captured_at
    (a <| ta_sampled_events := ta_sampled_events a ++ [(captured_at, event)] |>).

(** ** Rows *)

Definition _rate (value multiplier : Z) : Z := value * multiplier / ag_interval_seconds self.

Definition _xdp_mode (value : string) : XdpMode.t :=
  default XdpMode.unknown
    (List.find (fun m => bool_decide (XdpMode.value m = value))
       [XdpMode.native; XdpMode.generic; XdpMode.offline; XdpMode.unknown]).

Definition _counter_row (id : uuid) (scope : TelemetryScope.t) (service_id : option uuid)
    (dp_id : option Z) (captured_at : timestamp) (clean_pkts clean_bytes drop_pkts drop_bytes : Z)
    (drop_by_reason : list (string * Z)) (top_dst_ports : list (Z * Z))
    (top_src : list (string * Z)) (is_baseline : bool) : TelemetryCounter :=
  mkTelemetryCounter id scope service_id dp_id captured_at (ag_interval_seconds self)
    clean_pkts clean_bytes drop_pkts drop_bytes drop_by_reason (_rate clean_pkts 1)
    (_rate clean_bytes 8) (Some top_dst_ports) (Some top_src) is_baseline.

Definition int64_ok (n : Z) : bool := (- 2 ^ 63 <=? n) && (n <? 2 ^ 63).

(** [BigInteger] columns. *)
Definition counter_fits (r : TelemetryCounter) : bool :=
  int64_ok (tc_clean_pkts r) && int64_ok (tc_clean_bytes r) && int64_ok (tc_drop_pkts r) &&
  int64_ok (tc_drop_bytes r) && int64_ok (tc_pps r) && int64_ok (tc_bps r).
Definition health_fits (h : NodeHealthSnapshot) : bool :=
  int64_ok (default 0 (nh_map_version h)) && int64_ok (nh_map_error_count h) &&
  int64_ok (nh_node_clean_bps h) && int64_ok (nh_node_capacity_bps h).

Definition add_counter (r : TelemetryCounter) : M OSession unit :=
  t ← get_ops telemetry_counter;
  require (bool_decide (t !! tc_id r = None)) (IntegrityError "telemetry_counter_pkey") ;;
  require (counter_fits r) DataError ;;
  mod_ops (fun d => d <| telemetry_counter := <[tc_id r := r]> (telemetry_counter d) |>).

Definition add_health (h : NodeHealthSnapshot) : M OSession unit :=
  t ← get_ops node_health_snapshot;
  require (bool_decide (t !! nh_id h = None)) (IntegrityError "node_health_snapshot_pkey") ;;
  require (health_fits h) DataError ;;
  mod_ops (fun d => d <| node_health_snapshot := <[nh_id h := h]> (node_health_snapshot d) |>).

Definition _prune (captured_at : timestamp) : M OSession unit :=
  let cutoff := captured_at - microseconds (ag_retention_seconds self) in
  mod_ops (fun d =>
    d <| telemetry_counter := filter (fun kv => cutoff <= tc_window_start kv.2) (telemetry_counter d) |>
      <| node_health_snapshot := filter (fun kv => cutoff <= nh_captured_at kv.2)
           (node_health_snapshot d) |>).

Definition _persist_offline (captured_at : timestamp) : M OSession unit :=
  hid ← core uuid4;
  add_health (mkNodeHealthSnapshot hid captured_at 0 XdpMode.offline None None 0 0
    (ag_node_clean_capacity_bps self) None) ;;
  _prune captured_at.

(** [{service.dp_id: service.id}] and the lookup in it; the last one wins. *)
Definition service_by_dp (d : Db) (dp_id : Z) : option uuid :=
  svc_id <$> last (select_where (fun s => svc_dp_id s =? dp_id) (protected_service d)).

Definition previous_service (previous : option TelemetrySnapshot) (dp_id : Z)
    : option ServiceCounters :=
  match previous with
  | None => None
  | Some p => last (List.filter (fun s => sc_dp_id s =? dp_id) (ts_services p))
  end.

Section window.
Context (previous : option TelemetrySnapshot) (current : TelemetrySnapshot)
        (captured_at : timestamp) (samples : list (timestamp * DropEvent)).

Definition is_baseline : bool := match previous with None => true | Some _ => false end.
Definition version_reset : bool :=
  match previous with
  | None => false
  | Some p => negb (ts_active_version current =? ts_active_version p)
  end.

Definition window_delta (c : ServiceCounters) : ServiceCounters :=
  _service_delta c (previous_service previous (sc_dp_id c)) is_baseline version_reset.

Definition add_service_window (d : Db) (c : ServiceCounters) : M OSession unit :=
  match service_by_dp d (sc_dp_id c) with
  | None => mret tt
  | Some service_id =>
      cid ← core uuid4;
      let delta := window_delta c in
      let '(ports, sources) := _top_talkers (Some (sc_dp_id c)) samples in
      add_counter (_counter_row cid TelemetryScope.service (Some service_id) (Some (sc_dp_id c))
        captured_at (sc_clean_pkts delta) (sc_clean_bytes delta) (sc_drop_pkts delta)
        (sc_drop_bytes delta) (sc_drop_by_reason delta) ports sources is_baseline)
  end.

Definition sum_of (f : ServiceCounters → Z) : Z :=
  foldr (fun c acc => f (window_delta c) + acc) 0 (ts_services current).

Definition node_drop_by_reason : list (string * Z) :=
  _mapping_delta (nc_counters (ts_node current))
    match previous with Some p => nc_counters (ts_node p) | None => [] end is_baseline version_reset.

Definition node_drop_pkts : Z :=
  foldr (fun kv acc => if bool_decide (kv.1 ∈ ["map_error"; "map_errors"]%string) then acc
                       else kv.2 + acc) 0 node_drop_by_reason.

Definition _persist_snapshot : M OSession unit :=
  d ← core (get_db id);
  for_each (add_service_window d) (ts_services current) ;;
  let '(ports, sources) := _top_talkers None samples in
  cid ← core uuid4;
  add_counter (_counter_row cid TelemetryScope.node None None captured_at
    (sum_of sc_clean_pkts) (sum_of sc_clean_bytes) node_drop_pkts (sum_of sc_drop_bytes)
    node_drop_by_reason ports sources is_baseline) ;;
  hid ← core uuid4;
  add_health (mkNodeHealthSnapshot hid captured_at (ag_interval_seconds self)
    (_xdp_mode (ts_xdp_mode current)) (Some (ts_active_slot current))
    (Some (ts_active_version current)) (counter_get "map_error" (nc_counters (ts_node current)))
    (_rate (sum_of sc_clean_bytes) 8) (ag_node_clean_capacity_bps self)
    (Some ((fun kv => (kv.1, JInt kv.2)) <$> nc_bloom_stats (ts_node current)))) ;;
  _prune captured_at.
End window.

(** ** One iteration *)

Record AggWorld := mkAggWorld { agw_world : OWorld; agw_lane : TelemetryAggregator }.

#[global] Instance AggWorld_eta : Eta AggWorld := MkEta (fun r => mkAggWorld (agw_world r) (agw_lane r)).

Definition in_world {A} (m : M OWorld A) : M AggWorld A := fun s =>
  let '(r, w) := m (agw_world s) in (r, s <| agw_world := w |>).

(** [SQLAlchemyError]: what the database raises. *)
Definition is_sqlalchemy_error (e : exn) : bool :=
  match e with
  | IntegrityError _ | NumericOverflow | DataError | OperationalError _ | MultipleResultsFound => true
  | _ => false
  end.

(** [read] is what [reader.snapshot()] returned.  A database error is logged
    and keeps the previous snapshot. *)
Definition aggregate_once (read : option TelemetrySnapshot) : M AggWorld unit :=
  captured_at ← gets (fun s => clock (ow_db (agw_world s)));
  match read with
  | None =>
      try_except (in_world (ops_scope (_persist_offline captured_at)))
        (fun e => if is_sqlalchemy_error e then mret tt else raise e)
  | Some current =>
      modS (fun s => s <| agw_lane := _prune_sampled_events captured_at (agw_lane s) |>) ;;
      lane ← gets agw_lane;
      stored ← try_except
        (in_world (ops_scope (_persist_snapshot (ta_previous lane) current captured_at
           (ta_sampled_events lane))) ;; mret true)
        (fun e => if is_sqlalchemy_error e then mret false else raise e);
      if (stored : bool) then
        modS (fun s => s <| agw_lane := agw_lane s <| ta_previous := Some current |> |>)
      else mret tt
  end.
End aggregator.
