(* ===== verification/TelemetrySpec.v ===== *)
(** * What the telemetry lane records *)

From S2P Require Import Prelude PyStr Models Db PyNum OpsModels AlertInv Calendar.
From S2P Require Import AlertDispatch TelemetryReader Telemetry.
Open Scope Z_scope.

(** ** The ranking of top talkers *)

Section ranking.
Context {K : Type} `{EqDecision K} (key_leb : K → K → bool).
Hypothesis leb_total : ∀ a b, key_leb a b = true ∨ key_leb b a = true.
Hypothesis leb_trans : ∀ a b c, key_leb a b = true → key_leb b c = true → key_leb a c = true.

Abbreviation before a b := (rank_leb key_leb a b = true).

Lemma rank_total a b : before a b ∨ before b a.
Proof.
  unfold rank_leb. rewrite !orb_true_iff, !andb_true_iff, !Z.ltb_lt, !Z.eqb_eq.
  destruct (Z.lt_trichotomy a.2 b.2) as [?|[?|?]]; [auto| |auto].
  destruct (leb_total a.1 b.1); auto.
Qed.

Lemma rank_trans a b c : before a b → before b c → before a c.
Proof.
  unfold rank_leb. rewrite !orb_true_iff, !andb_true_iff, !Z.ltb_lt, !Z.eqb_eq.
  intros [?|[? ?]] [?|[? ?]]; [left; lia..|]. right. split; [lia|]. by eapply leb_trans.
Qed.

Lemma insert_ranked_perm x l : insert_ranked key_leb x l ≡ₚ x :: l.
Proof.
  induction l as [|y l IH]; simpl; [done|]. destruct (rank_leb key_leb x y); [done|].
  rewrite IH. apply Permutation_swap.
Qed.

Lemma insert_ranked_sorted x l :
  StronglySorted (fun a b => before a b) l →
  StronglySorted (fun a b => before a b) (insert_ranked key_leb x l).
Proof.
  induction l as [|y l IH]; simpl; intros Hs.
  { repeat constructor. }
  apply StronglySorted_inv in Hs as [Hs Hy]. destruct (rank_leb key_leb x y) eqn:E.
  - constructor; [by constructor|]. constructor; [done|].
    eapply Forall_impl; [exact Hy|]. intros z. by apply rank_trans.
  - constructor; [by apply IH|]. rewrite insert_ranked_perm. constructor; [|done].
    destruct (rank_total x y); congruence.
Qed.

Lemma ranked_sorted l : StronglySorted (fun a b => before a b) (foldr (insert_ranked key_leb) [] l).
Proof. induction l; simpl; [constructor|by apply insert_ranked_sorted]. Qed.

Lemma ranked_perm l : foldr (insert_ranked key_leb) [] l ≡ₚ l.
Proof. induction l as [|x l IH]; simpl; [done|]. by rewrite insert_ranked_perm, IH. Qed.

Lemma sorted_take_drop (R : relation (K * Z)) n l a b :
  StronglySorted R l → a ∈ take n l → b ∈ drop n l → R a b.
Proof.
  intros Hs. revert n. induction Hs as [|x l Hs IH Hx]; intros n.
  { rewrite take_nil. by intros Ha%not_elem_of_nil. }
  destruct n as [|n]; simpl; [by intros Ha%not_elem_of_nil|].
  intros [-> | Ha]%elem_of_cons Hb; [|by eapply IH].
  rewrite Forall_forall in Hx. apply Hx. rewrite <- (take_drop n l). apply elem_of_app. by right.
Qed.

(** At most [limit] keys, each with its exact count, none of the others ahead
    of any of them. *)
Lemma top_counts_spec limit l :
  (length (top_counts key_leb limit l) <= limit)%nat ∧
  (∀ k n, (k, n) ∈ top_counts key_leb limit l → k ∈ l ∧ n = count_of k l) ∧
  (∀ k, k ∈ l → (k, count_of k l) ∈ top_counts key_leb limit l ∨
     (length (top_counts key_leb limit l) = limit ∧
      ∀ x, x ∈ top_counts key_leb limit l → before x (k, count_of k l))).
Proof.
  unfold top_counts. set (all := foldr _ _ _).
  assert (all ≡ₚ (fun k => (k, count_of k l)) <$> remove_dups l) as Hperm by apply ranked_perm.
  assert (StronglySorted (fun a b => before a b) all) as Hsort by apply ranked_sorted.
  assert (∀ x, x ∈ all ↔ ∃ k, x = (k, count_of k l) ∧ k ∈ l) as Hall.
  { intros x. rewrite Hperm, list_elem_of_fmap. by setoid_rewrite elem_of_remove_dups. }
  clearbody all. split_and!.
  - rewrite length_take. lia.
  - intros k n Hk. assert ((k, n) ∈ all) as Hin.
    { rewrite <- (take_drop limit all). apply elem_of_app. by left. }
    apply Hall in Hin as (k' & [= -> ->] & Hk'). done.
  - intros k Hk. assert ((k, count_of k l) ∈ all) as Hin by (apply Hall; eauto).
    rewrite <- (take_drop limit all) in Hin. apply elem_of_app in Hin as [?|Hd]; [by left|right].
    split.
    + rewrite length_take. assert (limit < length all)%nat; [|lia].
      destruct (decide (limit < length all)%nat) as [|Hge]; [done|].
      rewrite drop_ge in Hd by lia. by apply not_elem_of_nil in Hd.
    + intros x Hx. by eapply (sorted_take_drop (fun a b => before a b)).
Qed.
End ranking.

Lemma string_leb_trans a b c : String.leb a b = true → String.leb b c = true → String.leb a c = true.
Proof.
  unfold String.leb. revert b c. induction a as [|x a IH]; intros [|y b] [|z c]; simpl; try done.
  unfold Ascii.compare. specialize (IH b c).
  destruct (N.compare_spec (Ascii.N_of_ascii x) (Ascii.N_of_ascii y)) as [E1|E1|E1];
  destruct (N.compare_spec (Ascii.N_of_ascii y) (Ascii.N_of_ascii z)) as [E2|E2|E2]; try done.
  - rewrite E1, E2, N.compare_refl. done.
  - rewrite E1. by rewrite (proj2 (N.compare_lt_iff _ _) E2).
  - rewrite <- E2. by rewrite (proj2 (N.compare_lt_iff _ _) E1).
  - by rewrite (proj2 (N.compare_lt_iff _ _) (N.lt_trans _ _ _ E1 E2)).
Qed.

Lemma Z_leb_total a b : (a <=? b) = true ∨ (b <=? a) = true.
Proof. lia. Qed.
Lemma Z_leb_trans a b c : (a <=? b) = true → (b <=? c) = true → (a <=? c) = true.
Proof. lia. Qed.

(** The sampled events of a service, or of the node. *)
Definition events_of (dp_id : option Z) (samples : list (timestamp * DropEvent)) : list DropEvent :=
  List.filter (fun e => match dp_id with None => true | Some d => de_service_id e =? d end) samples.*2.

(** The top talkers of a window are the true top: at most [limit] source
    addresses, each with the exact number of its sampled drops, and every
    address left out has no more drops than any address listed (ties by
    address). *)
Theorem top_talkers_are_the_top cfg dp_id samples :
  let sources := de_src_ip <$> events_of dp_id samples in
  let top := (_top_talkers cfg dp_id samples).2 in
  (length top <= ag_top_talkers_limit cfg)%nat ∧
  (∀ ip n, (ip, n) ∈ top → ip ∈ sources ∧ n = count_of ip sources) ∧
  (∀ ip, ip ∈ sources → (ip, count_of ip sources) ∈ top ∨
     (length top = ag_top_talkers_limit cfg ∧ ∀ x, x ∈ top → count_of ip sources <= x.2)).
Proof.
  cbv zeta. unfold _top_talkers. cbn [snd].
  destruct (top_counts_spec String.leb String.leb_total string_leb_trans (ag_top_talkers_limit cfg)
    (de_src_ip <$> events_of dp_id samples)) as (H1 & H2 & H3).
  split_and!; [exact H1|exact H2|]. intros ip Hip. destruct (H3 ip Hip) as [?|[E Hb]]; [by left|right].
  split; [exact E|]. intros x Hx. specialize (Hb x Hx). unfold rank_leb in Hb. simpl in Hb.
  rewrite orb_true_iff, andb_true_iff, Z.ltb_lt, Z.eqb_eq in Hb. lia.
Qed.

(** ** Windows *)

Abbreviation tcs s := (telemetry_counter (ops s)).

Lemma add_counter_run r s u s' :
  add_counter r s = (inr u, s') →
  tcs s !! tc_id r = None ∧ tcs s' = <[tc_id r := r]> (tcs s) ∧ os_session s' = os_session s.
Proof.
  unfold add_counter. intros H.
  apply bind_inr in H as (t & s1 & [-> ->]%(gets_inr (fun s => telemetry_counter (ops s))) & H).
  apply bind_inr in H as (u1 & s1 & [Hf ->]%require_inr & H).
  apply bind_inr in H as (u2 & s1 & [_ ->]%require_inr & H).
  unfold mod_ops in H. apply modS_inr in H as ->. by apply bool_decide_eq_true in Hf.
Qed.

Section windows.
Context (cfg : AggregatorConfig) (previous : option TelemetrySnapshot) (current : TelemetrySnapshot)
        (captured_at : timestamp) (samples : list (timestamp * DropEvent)).

(** The growth of a counter in the window: nothing for a baseline, the counter
    itself when it is new, was reset or belongs to another version, and the
    difference otherwise. *)
Definition grown (before : option Z) (now : Z) : Z :=
  match previous, before with
  | None, _ => 0
  | Some p, Some b =>
      if (ts_active_version current =? ts_active_version p) && (b <=? now) then now - b else now
  | Some _, None => now
  end.

Definition growth (f : ServiceCounters → Z) (c : ServiceCounters) : Z :=
  grown (f <$> previous_service previous (sc_dp_id c)) (f c).

Definition total_growth (f : ServiceCounters → Z) : Z :=
  foldr (fun c acc => growth f c + acc) 0 (ts_services current).

(** The growth of every counter of a mapping, by its key. *)
Definition reasons_grown (before now : list (string * Z)) : list (string * Z) :=
  (fun kv => (kv.1, grown (snd <$> List.find (fun kv' => bool_decide (kv'.1 = kv.1)) before) kv.2))
    <$> now.

(** The row of a service: every counter with its own growth, and the rates. *)
Definition service_window (sid : uuid) (c : ServiceCounters) (r : TelemetryCounter) : Prop :=
  tc_scope r = TelemetryScope.service ∧ tc_service_id r = Some sid ∧ tc_dp_id r = Some (sc_dp_id c) ∧
  tc_window_start r = captured_at ∧ tc_window_seconds r = ag_interval_seconds cfg ∧
  tc_clean_pkts r = growth sc_clean_pkts c ∧ tc_clean_bytes r = growth sc_clean_bytes c ∧
  tc_drop_pkts r = growth sc_drop_pkts c ∧ tc_drop_bytes r = growth sc_drop_bytes c ∧
  tc_drop_by_reason r =
    reasons_grown (from_option sc_drop_by_reason [] (previous_service previous (sc_dp_id c)))
      (sc_drop_by_reason c) ∧
  tc_pps r = growth sc_clean_pkts c / ag_interval_seconds cfg ∧
  tc_bps r = growth sc_clean_bytes c * 8 / ag_interval_seconds cfg ∧
  tc_is_baseline r = bool_decide (previous = None).

(** The row of the node: the totals over the services, known or not; the drop
    reasons are the node's own, and its dropped packets are their sum without
    the map errors. *)
Definition node_window (r : TelemetryCounter) : Prop :=
  let reasons := reasons_grown (from_option (fun p => nc_counters (ts_node p)) [] previous)
                   (nc_counters (ts_node current)) in
  tc_scope r = TelemetryScope.node ∧ tc_service_id r = None ∧ tc_dp_id r = None ∧
  tc_window_start r = captured_at ∧ tc_window_seconds r = ag_interval_seconds cfg ∧
  tc_clean_pkts r = total_growth sc_clean_pkts ∧ tc_clean_bytes r = total_growth sc_clean_bytes ∧
  tc_drop_pkts r = foldr (fun kv acc => if bool_decide (kv.1 ∈ ["map_error"; "map_errors"]%string)
                                        then acc else kv.2 + acc) 0 reasons ∧
  tc_drop_bytes r = total_growth sc_drop_bytes ∧ tc_drop_by_reason r = reasons ∧
  tc_pps r = total_growth sc_clean_pkts / ag_interval_seconds cfg ∧
  tc_bps r = total_growth sc_clean_bytes * 8 / ag_interval_seconds cfg ∧
  tc_is_baseline r = bool_decide (previous = None).

Lemma delta_grown now before :
  (if is_baseline previous then 0
   else counter_delta now (default 0 before) (version_reset previous current)) = grown before now.
Proof.
  unfold grown, is_baseline, version_reset, counter_delta. destruct previous as [p|]; [|done].
  destruct before as [b|]; simpl; [|rewrite Z.sub_0_r; by destruct (_ || _)].
  destruct (ts_active_version current =? ts_active_version p); [|done]. simpl.
  destruct (Z.ltb_spec now b), (Z.leb_spec b now); done || lia.
Qed.

Lemma mapping_delta_grown before now :
  _mapping_delta now before (is_baseline previous) (version_reset previous current) =
  reasons_grown before now.
Proof.
  unfold _mapping_delta, reasons_grown, counter_get.
  destruct (is_baseline previous) eqn:E; apply list_fmap_ext; intros _ [k v] _; simpl;
    by rewrite <- delta_grown, E.
Qed.

(** The modelled delta computes the growth of every counter. *)
Lemma window_delta_growth c :
  window_delta previous current c =
  mkServiceCounters (sc_dp_id c) (growth sc_clean_pkts c) (growth sc_clean_bytes c)
    (growth sc_drop_pkts c) (growth sc_drop_bytes c)
    (reasons_grown (from_option sc_drop_by_reason [] (previous_service previous (sc_dp_id c)))
       (sc_drop_by_reason c)).
Proof.
  unfold window_delta, growth. rewrite <- !delta_grown, <- mapping_delta_grown.
  unfold _service_delta. unfold _mapping_delta.
  destruct (is_baseline previous), (previous_service previous (sc_dp_id c)); done.
Qed.

Lemma is_baseline_none : is_baseline previous = bool_decide (previous = None).
Proof. by destruct previous. Qed.

Lemma sum_of_growth f (g : ServiceCounters → Z) :
  (∀ c, g (window_delta previous current c) = growth f c) →
  sum_of previous current g = total_growth f.
Proof. intros H. unfold sum_of, total_growth. apply foldr_ext; [|done..]. intros c acc. by rewrite H. Qed.

Lemma add_service_window_run d c s u s' :
  add_service_window cfg previous current captured_at samples d c s = (inr u, s') →
  match service_by_dp d (sc_dp_id c) with
  | None => s' = s
  | Some sid => ∃ r, tcs s !! tc_id r = None ∧ tcs s' = <[tc_id r := r]> (tcs s) ∧
                     service_window sid c r
  end.
Proof.
  unfold add_service_window. destruct (service_by_dp d (sc_dp_id c)) as [sid|].
  - intros H. apply bind_inr in H as (cid & s1 & H1 & H). apply core_inr in H1 as (t & _ & ->).
    cbv zeta in H. destruct (_top_talkers _ _ _) as [ports sources].
    apply add_counter_run in H as (Hf & E & _). eexists. split_and!; [exact Hf|exact E|].
    rewrite window_delta_growth. unfold service_window, _counter_row, _rate.
    rewrite is_baseline_none. cbn. rewrite Z.mul_1_r. by split_and!.
  - intros H. by apply ret_inr in H as [_ ->].
Qed.

(** New rows, by their ids. *)
Definition as_table (rows : list TelemetryCounter) : gmap uuid TelemetryCounter :=
  list_to_map ((fun r => (tc_id r, r)) <$> rows).

Lemma as_table_none rows i : i ∉ tc_id <$> rows → as_table rows !! i = None.
Proof.
  intros Hi. apply not_elem_of_list_to_map_1. intros Hin. apply Hi.
  rewrite <- list_fmap_compose in Hin. exact Hin.
Qed.

(** The services of the snapshot that the database knows. *)
Definition known (d : Db) : list ServiceCounters :=
  filter (fun c => is_Some (service_by_dp d (sc_dp_id c))) (ts_services current).

Lemma windows_all d l s u s' :
  for_each (add_service_window cfg previous current captured_at samples d) l s = (inr u, s') →
  ∃ rows, NoDup (tc_id <$> rows) ∧ Forall (fun r => tcs s !! tc_id r = None) rows ∧
    tcs s' = as_table rows ∪ tcs s ∧
    Forall2 (fun c r => ∃ sid, service_by_dp d (sc_dp_id c) = Some sid ∧ service_window sid c r)
      (filter (fun c => is_Some (service_by_dp d (sc_dp_id c))) l) rows.
Proof.
  revert s. induction l as [|c l IH]; intros s H; simpl in H.
  { apply ret_inr in H as [_ ->]. exists []. split_and!; [constructor..| |constructor].
    symmetry. apply (left_id_L ∅ (∪)). }
  apply bind_inr in H as (u1 & s1 & H1%add_service_window_run & H).
  apply IH in H as (rows & Hnd & Hfresh & E & Hall). rewrite filter_cons.
  destruct (service_by_dp d (sc_dp_id c)) as [sid|] eqn:Es.
  - destruct H1 as (r & Hf & E1 & Hw). rewrite decide_True by eauto.
    rewrite E1 in E, Hfresh. assert (tc_id r ∉ tc_id <$> rows) as Hr.
    { intros (r' & He & Hin)%list_elem_of_fmap. rewrite Forall_forall in Hfresh.
      specialize (Hfresh r' Hin). rewrite <- He, lookup_insert_eq in Hfresh. done. }
    exists (r :: rows). split_and!.
    + by apply NoDup_cons.
    + constructor; [done|]. eapply Forall_impl; [exact Hfresh|]. simpl.
      intros x [Hx _]%lookup_insert_None. done.
    + rewrite E. unfold as_table. simpl. rewrite <- insert_union_l, <- insert_union_r; [done|].
      by apply as_table_none.
    + constructor; [by exists sid|done].
  - subst s1. rewrite decide_False by (by intros []). by exists rows.
Qed.

(** What a persisted window leaves: one row for every known service of the
    snapshot, in its order, and one for the node, all new; of the rows that were
    there, those within the retention. *)
Definition window_rows (d : Db) (t t' : gmap uuid TelemetryCounter) : Prop :=
  ∃ rows node,
    Forall2 (fun c r => ∃ sid, service_by_dp d (sc_dp_id c) = Some sid ∧ service_window sid c r)
      (known d) rows ∧
    node_window node ∧
    NoDup (tc_id <$> node :: rows) ∧ Forall (fun r => t !! tc_id r = None) (node :: rows) ∧
    t' = as_table (node :: rows) ∪
         filter (fun kv => captured_at - microseconds (ag_retention_seconds cfg) <= tc_window_start kv.2) t.

Lemma prune_keeps_window rows (t : gmap uuid TelemetryCounter) :
  0 <= ag_retention_seconds cfg →
  Forall (fun r => tc_window_start r = captured_at) rows →
  Forall (fun r => t !! tc_id r = None) rows →
  filter (fun kv => captured_at - microseconds (ag_retention_seconds cfg) <= tc_window_start kv.2)
    (as_table rows ∪ t) =
  as_table rows ∪
  filter (fun kv => captured_at - microseconds (ag_retention_seconds cfg) <= tc_window_start kv.2) t.
Proof.
  intros Hret Hstart Hfresh.
  assert (∀ i r, as_table rows !! i = Some r → r ∈ rows ∧ i = tc_id r) as Hin.
  { intros i r Hi. apply elem_of_list_to_map_2, list_elem_of_fmap in Hi as (r' & [= -> ->] & Hr). done. }
  rewrite Forall_forall in Hstart, Hfresh. rewrite map_filter_union.
  - f_equal. apply map_filter_id. intros i r Hi. apply Hin in Hi as [Hr _]. simpl.
    rewrite (Hstart r Hr). unfold microseconds. lia.
  - apply map_disjoint_spec. intros i r r' Hi Hi'. apply Hin in Hi as [Hr ->].
    by rewrite (Hfresh r Hr) in Hi'.
Qed.

Lemma node_row_window id ports sources :
  node_window (_counter_row cfg id TelemetryScope.node None None captured_at
    (sum_of previous current sc_clean_pkts) (sum_of previous current sc_clean_bytes)
    (node_drop_pkts previous current) (sum_of previous current sc_drop_bytes)
    (node_drop_by_reason previous current) ports sources (is_baseline previous)).
Proof.
  unfold node_window, node_drop_pkts. cbv zeta.
  assert (node_drop_by_reason previous current =
    reasons_grown (from_option (fun p => nc_counters (ts_node p)) [] previous)
      (nc_counters (ts_node current))) as ->.
  { unfold node_drop_by_reason. rewrite mapping_delta_grown. by destruct previous. }
  rewrite (sum_of_growth sc_clean_pkts), (sum_of_growth sc_clean_bytes),
    (sum_of_growth sc_drop_bytes), is_baseline_none
    by (intros c; by rewrite window_delta_growth).
  unfold _counter_row, _rate. cbn -[reasons_grown foldr]. rewrite Z.mul_1_r. by split_and!.
Qed.

Lemma persist_snapshot_run s u s' :
  0 <= ag_retention_seconds cfg →
  _persist_snapshot cfg previous current captured_at samples s = (inr u, s') →
  window_rows (os_db s) (tcs s) (tcs s').
Proof.
  intros Hret H. unfold _persist_snapshot in H.
  apply bind_inr in H as (d & s1 & H1 & H). rewrite core_get_run in H1. injection H1 as <- <-.
  apply bind_inr in H as (u1 & s1 & H1 & H).
  apply windows_all in H1 as (rows & Hnd & Hfresh & E1 & Hall).
  destruct (_top_talkers _ None _) as [ports sources].
  apply bind_inr in H as (cid & s2 & H2 & H). apply core_inr in H2 as (t2 & _ & ->).
  apply bind_inr in H as (u3 & s3 & H3 & H). set (row := _counter_row _ _ _ _ _ _ _ _ _ _ _ _ _ _) in H3.
  assert (node_window row) as Hnode by apply node_row_window. clearbody row.
  apply add_counter_run in H3 as (Hf & E3 & _). simpl in Hf, E3.
  apply bind_inr in H as (hid & s4 & H4 & H). apply core_inr in H4 as (t4 & _ & ->).
  apply bind_inr in H as (u5 & s5 & H5 & H). assert (tcs s5 = tcs s3) as E5.
  { unfold add_health in H5.
    apply bind_inr in H5 as (t & s6 & [-> ->]%(gets_inr (fun s => node_health_snapshot (ops s))) & H5).
    apply bind_inr in H5 as (? & s6 & [_ ->]%require_inr & H5).
    apply bind_inr in H5 as (? & s6 & [_ ->]%require_inr & H5).
    unfold mod_ops in H5. by apply modS_inr in H5 as ->. }
  unfold _prune, mod_ops in H. apply modS_inr in H as ->. simpl. rewrite E5, E3, E1.
  rewrite E1 in Hf. apply lookup_union_None in Hf as [Hf1 Hf2].
  exists rows, row. split_and!; [done|done| | |].
  - apply NoDup_cons. split; [|done]. intros (r & He & Hr)%list_elem_of_fmap.
    rewrite He in Hf1. apply not_elem_of_list_to_map_2 in Hf1. apply Hf1.
    rewrite <- list_fmap_compose. apply list_elem_of_fmap. by exists r.
  - by constructor.
  - rewrite <- (prune_keeps_window (row :: rows)); [|done| |by constructor].
    + unfold as_table. simpl. by rewrite insert_union_l.
    + constructor; [apply Hnode|]. apply Forall_forall. intros r Hr.
      apply list_elem_of_lookup in Hr as (k & Hk).
      destruct (Forall2_lookup_r _ _ _ _ _ Hall Hk) as (c & _ & sid & _ & Hw). apply Hw.
Qed.
End windows.

(** C15: An iteration of the telemetry lane is all or nothing.  Either every
    known service gets one new row with the growth of each of its counters, and
    of each drop reason, since the previous snapshot (the counter itself after a
    data-plane reset or a version change, zero for a baseline), the node gets one
    with the sums, the rows within the retention are kept, no other appears, and
    the snapshot becomes the next baseline; or a database error leaves the rows
    and the baseline as they were, so the traffic of a lost window is counted in
    the next one. *)
Theorem telemetry_window_recorded cfg current s s' :
  0 <= ag_retention_seconds cfg →
  aggregate_once cfg (Some current) s = (inr tt, s') →
  let previous := ta_previous (agw_lane s) in
  let t := telemetry_counter (ow_ops (agw_world s)) in
  let t' := telemetry_counter (ow_ops (agw_world s')) in
  (ta_previous (agw_lane s') = Some current ∧
   window_rows cfg previous current (clock (ow_db (agw_world s))) (ow_db (agw_world s)) t t') ∨
  (ta_previous (agw_lane s') = previous ∧ t' = t).
Proof.
  intros Hret H. cbv zeta. unfold aggregate_once in H.
  apply bind_inr in H as (at_ & s1 & [-> ->]%gets_inr & H). rewrite run_modS, run_gets in H.
  apply bind_inr in H as (stored & s1 & H1 & H). simpl in H1.
  apply try_except_inr in H1 as [H1|(e & s2 & H1 & H2)].
  - apply bind_inr in H1 as (u & s2 & H1 & H2). apply ret_inr in H2 as [-> ->].
    unfold in_world in H1. destruct (ops_scope _ _) as [[e|b] w'] eqn:Es; [done|].
    injection H1 as _ <-. apply modS_inr in H as ->. simpl. left. split; [done|].
    apply ops_scope_inr in Es as (s2 & H2 & _ & -> & _).
    apply persist_snapshot_run in H2; done.
  - apply bind_inl in H1 as [H1|H1].
    + unfold in_world in H1. destruct (ops_scope _ _) as [[e'|b] w'] eqn:Es; [|done].
      injection H1 as <- <-. destruct (is_sqlalchemy_error e'); [|done].
      apply ret_inr in H2 as [-> ->]. apply ret_inr in H as [_ ->]. simpl. right.
      apply ops_scope_inl in Es. by rewrite Es.
    + destruct H1 as (x & s3 & _ & H1). done.
Qed.
