(* ===== verification/Billing.v ===== *)
(** * Billing ([services/billing_metrics.py], [worker/billing.py])

    The meter samples the clean byte rate of every service, keeps one usage row
    per service and month, finalizes the rows of past months and prunes their
    samples.  Its in-memory state is the previous snapshot's counters and the
    service cache. *)

From S2P Require Import Prelude PyStr Models Db PyNum OpsModels Calendar.
From S2P Require Import AlertDispatch TelemetryReader Telemetry.
From Stdlib Require Import SpecFloat.
Open Scope Z_scope.

(** ** [services/billing_metrics.py] *)

(** [math.ceil(x)] of a finite double. *)
Definition ceil_float (x : pyfloat) : Z := let '(n, d) := float_fraction x in - ((- n) / d).

(** The literal [0.95]. *)
Definition float_0_95 : pyfloat := Eval vm_compute in true_div 95 100.

Definition rank_index (count : nat) : Z := ceil_float (fmul float_0_95 (float_of_Z (Z.of_nat count))) - 1.

(** [sorted(samples)[i]]; a negative index would count from the end. *)
Definition p95_nearest_rank (samples : list Z) : exn + Z :=
  match samples with
  | [] => inr 0
  | _ =>
      let l := merge_sort Z.le samples in
      let i := rank_index (length samples) in
      let i := if i <? 0 then i + Z.of_nat (length l) else i in
      match (if i <? 0 then None else l !! Z.to_nat i) with
      | Some x => inr x
      | None => inl (RuntimeError "list index out of range")
      end
  end.

(** [bytes_per_sec * 8 / 10^9] quantized to hundredths, half to even. *)
Definition bps_to_gbps (bytes_per_sec : Z) : Z := round_half_even (bytes_per_sec * 8) 10000000.

(** ** The meter *)

Record _ServiceCacheEntry := mkServiceCacheEntry {
  ce_service : ProtectedService;
  ce_tenant_id : uuid;
  ce_plan : option ServicePlan
}.

Record BillingMeter := mkBillingMeter {
  bm_previous : list (Z * Z);                  (* dp_id to clean bytes *)
  bm_previous_ts_ns : option Z;
  bm_previous_version : option Z;
  bm_services : list (Z * _ServiceCacheEntry)  (* by dp_id, in query order *)
}.

#[global] Instance BillingMeter_eta : Eta BillingMeter := MkEta (fun r =>
  mkBillingMeter (bm_previous r) (bm_previous_ts_ns r) (bm_previous_version r) (bm_services r)).

Definition new_meter : BillingMeter := mkBillingMeter [] None None [].

Record MeterWorld := mkMeterWorld { mw_world : OWorld; mw_meter : BillingMeter }.

#[global] Instance MeterWorld_eta : Eta MeterWorld := MkEta (fun r =>
  mkMeterWorld (mw_world r) (mw_meter r)).

Definition meter_scope {A} (m : M OSession A) : M MeterWorld A := fun s =>
  let '(r, w) := ops_scope m (mw_world s) in (r, s <| mw_world := w |>).

Definition _now : M MeterWorld timestamp := gets (fun s => clock (ow_db (mw_world s))).

(** A Python [dict] keyed by integers: the last entry of a key counts. *)
Definition zget {A} (k : Z) (l : list (Z * A)) : option A :=
  snd <$> last (List.filter (fun kv => kv.1 =? k) l).

Definition service_cache (d : Db) : list (Z * _ServiceCacheEntry) :=
  (fun s => (svc_dp_id s, mkServiceCacheEntry s (svc_tenant_id s) (service_plan d !! svc_id s))) <$>
    rows (protected_service d).

Definition _refresh_service_cache : M MeterWorld unit :=
  modS (fun s => s <| mw_meter := mw_meter s
                        <| bm_services := service_cache (ow_db (mw_world s)) |> |>).

(** [insert ... on conflict (service_id, sample_ts) do nothing]. *)
Definition _upsert_sample (service_id : uuid) (dp_id : Z) (sample_ts : timestamp)
    (clean_bps window_seconds : Z) (is_reset : bool) : M OSession unit :=
  require (int64_ok clean_bps && (window_seconds <? 2 ^ 31)) DataError ;;
  mod_ops (fun d =>
    match billing_sample d !! (service_id, sample_ts) with
    | Some _ => d
    | None =>
        d <| billing_sample := <[(service_id, sample_ts) :=
               mkBillingSample service_id (Some dp_id) sample_ts clean_bps window_seconds is_reset]>
               (billing_sample d) |>
    end).

Definition _set_previous (t : TelemetrySnapshot) (m : BillingMeter) : BillingMeter :=
  m <| bm_previous := (fun c => (sc_dp_id c, sc_clean_bytes c)) <$> ts_services t |>
    <| bm_previous_ts_ns := Some (ts_ts_ns t) |>
    <| bm_previous_version := Some (ts_active_version t) |>.

Definition _NANOSECONDS_PER_SECOND : Z := 1000000000.

Section sampling.
Context (meter : BillingMeter) (current : TelemetrySnapshot) (elapsed_seconds : Z)
        (sample_ts : timestamp).

Definition meter_version_reset : bool :=
  negb (bool_decide (Some (ts_active_version current) = bm_previous_version meter)).

(** Whether the counter restarted, and the clean bytes of the interval. *)
Definition is_reset (c : ServiceCounters) : bool :=
  meter_version_reset ||
  match zget (sc_dp_id c) (bm_previous meter) with
  | Some previous_bytes => sc_clean_bytes c <? previous_bytes
  | None => false
  end.
Definition interval_bytes (c : ServiceCounters) : Z :=
  if is_reset c then sc_clean_bytes c
  else match zget (sc_dp_id c) (bm_previous meter) with
       | None => 0
       | Some previous_bytes => sc_clean_bytes c - previous_bytes
       end.

Definition sample_service (c : ServiceCounters) : M OSession unit :=
  match zget (sc_dp_id c) (bm_services meter) with
  | None => mret tt
  | Some entry =>
      _upsert_sample (svc_id (ce_service entry)) (sc_dp_id c) sample_ts
        (interval_bytes c / elapsed_seconds) elapsed_seconds (is_reset c)
  end.

(** The cached services by their distinct keys. *)
Definition sample_silent (kv : Z * _ServiceCacheEntry) : M OSession unit :=
  if existsb (fun c => sc_dp_id c =? kv.1) (ts_services current) then mret tt
  else _upsert_sample (svc_id (ce_service kv.2)) kv.1 sample_ts 0 elapsed_seconds false.

Definition sample_body : M OSession unit :=
  for_each sample_service (ts_services current) ;;
  for_each sample_silent (bm_services meter).
End sampling.

(** [except SQLAlchemyError: log and return]; answers whether it went through. *)
Definition logged (m : M MeterWorld unit) : M MeterWorld bool :=
  try_except (m ;; mret true) (fun e => if is_sqlalchemy_error e then mret false else raise e).

Definition sample_once (read : option TelemetrySnapshot) : M MeterWorld unit :=
  match read with
  | None => mret tt
  | Some current =>
      _refresh_service_cache ;;
      meter ← gets mw_meter;
      let advance := modS (fun s => s <| mw_meter := _set_previous current (mw_meter s) |>) in
      match bm_previous_ts_ns meter with
      | None => advance
      | Some previous_ts =>
          let elapsed_seconds := (ts_ts_ns current - previous_ts) / _NANOSECONDS_PER_SECOND in
          if elapsed_seconds <=? 0 then mret tt else
          sample_ts ← _now;
          stored ← logged (meter_scope (sample_body meter current elapsed_seconds sample_ts));
          if (stored : bool) then advance else mret tt
      end
  end.

(** ** Usage rows *)

Definition numeric_fits_10_2 (h : Z) : bool := Z.abs h <? 10 ^ 10.

Definition usage_fits (u : BillingUsage) : bool :=
  numeric_fits_10_2 (bu_committed_clean_gbps u) && numeric_fits_10_2 (bu_p95_clean_gbps u) &&
  numeric_fits_10_2 (bu_billed_gbps u) && numeric_fits_10_2 (bu_overage_gbps u).

Definition put_usage (u : BillingUsage) : M OSession unit :=
  require (usage_fits u) NumericOverflow ;;
  mod_ops (fun d => d <| billing_usage := <[bu_id u := u]> (billing_usage d) |>).

Definition period_samples (o : OpsDb) (service_id : uuid) (period_start period_end : timestamp)
    : list Z :=
  bs_clean_bps <$> select_where (fun b => bool_decide (bs_service_id b = service_id) &&
    (period_start <=? bs_sample_ts b) && (bs_sample_ts b <? period_end)) (billing_sample o).

(** What the plan and the samples of a period say, in hundredths of a Gbit/s. *)
Definition with_measures (entry : _ServiceCacheEntry) (period_end : timestamp) (samples : list Z)
    (p95 : Z) (u : BillingUsage) : BillingUsage :=
  let plan := ce_plan entry in
  let committed := match plan with Some p => plan_committed_clean_gbps p | None => 0 end in
  let metric := match plan with Some p => plan_billing_metric p | None => "p95_clean_bps"%string end in
  let policy := match plan with Some p => plan_overage_policy p | None => overage_billed end in
  let p95_clean_gbps := bps_to_gbps p95 in
  mkBillingUsage (bu_id u) (bu_service_id u) (Some (ce_tenant_id entry))
    (svc_name (ce_service entry)) (bu_period_start u) period_end metric committed p95_clean_gbps
    (Z.max committed p95_clean_gbps) (Z.max 0 (p95_clean_gbps - committed)) policy
    (Z.of_nat (length samples)) (bu_status u) (bu_finalized_at u).

Definition usage_of (service_id : uuid) (period_start : timestamp) (u : BillingUsage) : bool :=
  bool_decide (bu_service_id u = Some service_id) && (bu_period_start u =? period_start).

Definition refresh_service (period_start period_end : timestamp)
    (kv : Z * _ServiceCacheEntry) : M OSession unit :=
  let entry := kv.2 in
  let sid := svc_id (ce_service entry) in
  o ← get_ops id;
  let samples := period_samples o sid period_start period_end in
  p95 ← lift (p95_nearest_rank samples);
  let fill := with_measures entry period_end samples p95 in
  match select_where (usage_of sid period_start) (billing_usage o) with
  | [] =>
      uid ← core uuid4;
      require (bool_decide (billing_usage o !! uid = None)) (IntegrityError "billing_usage_pkey") ;;
      put_usage (fill (mkBillingUsage uid (Some sid) None "" period_start period_end "" 0 0 0 0
        overage_billed 0 BillingStatus.open None))
  | u :: _ =>
      if bool_decide (bu_status u = BillingStatus.open) then put_usage (fill u) else mret tt
  end.

Definition refresh_open_periods : M MeterWorld unit :=
  now ← _now;
  period ← lift (month_period now);
  let '(period_start, period_end) := period in
  _refresh_service_cache ;;
  meter ← gets mw_meter;
  logged (meter_scope (for_each (refresh_service period_start period_end) (bm_services meter))) ;;
  mret tt.

Definition finalize_usage (now : timestamp) (u : BillingUsage) : BillingUsage :=
  if bool_decide (bu_status u = BillingStatus.open) &&
     ((bu_period_end u <=? now) || bool_decide (bu_service_id u = None))
  then u <| bu_status := BillingStatus.final |> <| bu_finalized_at := Some now |>
  else u.

Definition finalize_due_periods : M MeterWorld unit :=
  now ← _now;
  logged (meter_scope (mod_ops (fun d =>
    d <| billing_usage := finalize_usage now <$> billing_usage d |>))) ;;
  mret tt.

(** A sample of a period that was finalized and has expired. *)
Definition prunable (cutoff : timestamp) (usages : gmap uuid BillingUsage) (b : BillingSample) : bool :=
  negb (bool_decide (select_where (fun u =>
    bool_decide (bu_service_id u = Some (bs_service_id b)) &&
    bool_decide (bu_status u = BillingStatus.final) && (bu_period_end u <=? cutoff) &&
    (bu_period_start u <=? bs_sample_ts b) && (bs_sample_ts b <? bu_period_end u)) usages = [])).

Section tick.
Context (sample_retention_days : Z).

Definition prune_samples : M MeterWorld unit :=
  now ← _now;
  let cutoff := now - sample_retention_days * microseconds_per_day in
  logged (meter_scope (mod_ops (fun d =>
    d <| billing_sample := filter (fun kv => prunable cutoff (billing_usage d) kv.2 = false)
           (billing_sample d) |>))) ;;
  mret tt.

Definition billing_tick (read : option TelemetrySnapshot) : M MeterWorld unit :=
  sample_once read ;;
  refresh_open_periods ;;
  finalize_due_periods ;;
  prune_samples.
End tick.
