(* ===== verification/BillingSpec.v ===== *)
(** * What the bills say

    The percentile and the calendar, then the ledger of bills under the ticks of
    the meter. *)

From S2P Require Import Prelude PyStr Models Db PyNum OpsModels Calendar AlertDispatch.
From S2P Require Import AlertInv TelemetryReader Telemetry Billing.
From Stdlib Require Import SpecFloat.
Open Scope Z_scope.

(** ** The 95th percentile *)

(** A month of five-minute samples has at most 8928. *)
Definition max_samples : nat := Z.to_nat 10000.

Fixpoint all_from (f : Z → bool) (n : nat) (z : Z) : bool :=
  match n with O => true | S n => f z && all_from f n (z + 1) end.

Lemma all_from_true f n z x : all_from f n z = true → z <= x < z + Z.of_nat n → f x = true.
Proof.
  revert z. induction n as [|n IH]; intros z; simpl; [lia|].
  intros [Hz Hn]%andb_true_iff Hx. destruct (Z.eq_dec x z) as [->|]; [done|]. apply (IH _ Hn). lia.
Qed.

(** The product in floating point loses nothing that the ceiling can see. *)
Definition rank_exact (n : Z) : bool :=
  ceil_float (fmul float_0_95 (float_of_Z n)) =? (95 * n + 99) / 100.

Lemma rank_exact_all : all_from rank_exact max_samples 1 = true.
Proof. vm_cast_no_check (eq_refl true). Qed.

Lemma rank_index_exact n :
  (1 <= n <= max_samples)%nat → rank_index n = (95 * Z.of_nat n + 99) / 100 - 1.
Proof.
  intros Hn. assert (rank_exact (Z.of_nat n) = true) as H%Z.eqb_eq.
  { eapply all_from_true; [apply rank_exact_all|lia]. }
  unfold rank_index. by rewrite H.
Qed.

Lemma sorted_ranks (l : list Z) i p :
  StronglySorted Z.le l → l !! i = Some p →
  (S i <= length (filter (fun x => (x <= p)%Z) l))%nat ∧
  (length (filter (fun x => (x < p)%Z) l) <= i)%nat.
Proof.
  intros Hs. revert i. induction Hs as [|x l Hs IH Hx]; intros i Hi; [done|].
  rewrite Forall_forall in Hx. destruct i as [|i]; simpl in Hi.
  - injection Hi as ->. rewrite !filter_cons, decide_True, decide_False by lia.
    split; simpl; [lia|]. destruct (filter (fun x => x < p) l) as [|y r] eqn:E; [simpl; lia|].
    assert (y ∈ filter (fun x => x < p) l) as [? Hy]%list_elem_of_filter by (rewrite E; by left).
    specialize (Hx y Hy). lia.
  - destruct (IH i Hi) as [H1 H2]. specialize (Hx p (list_elem_of_lookup_2 _ _ _ Hi)).
    rewrite !filter_cons, decide_True by done. split; [simpl; lia|].
    destruct (decide (x < p)); simpl; lia.
Qed.

(** C39: The 95th percentile of a month's samples is the nearest-rank one, also
    though its rank is computed in floating point: it is one of the samples, at
    least 95 % of the samples are not above it and less than 95 % are below it. *)
Theorem p95_is_nearest_rank (samples : list Z) :
  (1 <= length samples <= max_samples)%nat →
  ∃ p, p95_nearest_rank samples = inr p ∧ p ∈ samples ∧
    95 * Z.of_nat (length samples) <= 100 * Z.of_nat (length (filter (fun x => x <= p) samples)) ∧
    100 * Z.of_nat (length (filter (fun x => x < p) samples)) < 95 * Z.of_nat (length samples).
Proof.
  intros Hn. unfold p95_nearest_rank. destruct samples as [|x0 xs]; [simpl in Hn; lia|].
  set (l := x0 :: xs) in *. clearbody l. clear x0 xs. cbv zeta.
  rewrite (rank_index_exact _ Hn).
  pose proof (merge_sort_Permutation Z.le l) as Hperm.
  pose proof (StronglySorted_merge_sort Z.le l) as Hsort.
  set (i := (95 * Z.of_nat (length l) + 99) / 100 - 1).
  assert (0 <= i < Z.of_nat (length l) ∧ 95 * Z.of_nat (length l) <= 100 * (i + 1) ∧
          100 * i < 95 * Z.of_nat (length l)) as (Hi & H1 & H2).
  { unfold i. Z.to_euclidean_division_equations. lia. }
  destruct (Z.ltb_spec i 0); [lia|]. destruct (Z.ltb_spec i 0); [lia|].
  destruct (lookup_lt_is_Some_2 (merge_sort Z.le l) (Z.to_nat i)) as [p Hp].
  { rewrite Hperm. lia. }
  rewrite Hp. exists p. destruct (sorted_ranks _ _ _ Hsort Hp) as [Hle Hlt].
  rewrite Hperm in Hle, Hlt. split_and!; [done| |lia|lia].
  rewrite <- Hperm. by eapply list_elem_of_lookup_2.
Qed.

(** ** Billing periods *)

Lemma first_valid y m : 1 <= m <= 12 → valid_date y m 1.
Proof. intros Hm. split; [done|]. unfold days_in_month. repeat case_match; lia. Qed.

Lemma date_of_first y m :
  1 <= m <= 12 → date_of ((ymd2ord y m 1 - epoch_ordinal) * microseconds_per_day) = (y, m, 1).
Proof.
  intros Hm. unfold date_of. rewrite Z.div_mul by done. rewrite Z.sub_add.
  by apply ord2ymd_ymd2ord, first_valid.
Qed.

(** A calendar month is determined by any instant in it. *)
Lemma month_period_iff at_ s e at' :
  month_period at_ = inr (s, e) → s <= at' < e ↔ month_period at' = inr (s, e).
Proof.
  intros (y & m & d & Hd & Hm & Hy & Hy' & -> & ->)%month_period_inr.
  rewrite month_start_iff by done. split.
  - intros [d' Hd']. apply month_period_inr. by exists y, m, d'.
  - intros (y2 & m2 & d2 & E2 & Hm2 & _ & _ & Es & Ee)%month_period_inr.
    exists d2. rewrite E2. assert (ymd2ord y m 1 = ymd2ord y2 m2 1) as Eo.
    { unfold microseconds_per_day in Es. lia. }
    apply ymd2ord_inj in Eo; [|by apply first_valid..]. by injection Eo as <- <-.
Qed.

Lemma month_period_covers at_ s e : month_period at_ = inr (s, e) → s <= at_ < e.
Proof. intros H. by apply (month_period_iff _ _ _ _ H). Qed.

Lemma month_period_start at_ s e : month_period at_ = inr (s, e) → month_period s = inr (s, e).
Proof.
  intros H. apply (month_period_iff _ _ _ s H). pose proof (month_period_covers _ _ _ H). lia.
Qed.

(** Billing months partition time.  The period of an instant contains it,
    every instant of the period has the same period, the instant at its end
    starts the next one, and the previous period of that one is the period
    itself, so no sample falls between two bills or into both. *)
Theorem month_periods_partition at_ s e :
  month_period at_ = inr (s, e) →
  (∀ at', s <= at' < e ↔ month_period at' = inr (s, e)) ∧ s <= at_ < e ∧
  (∀ s' e', month_period e = inr (s', e') → s' = e ∧ previous_period e = inr (s, e)).
Proof.
  intros H. split; [by intros; apply (month_period_iff at_)|].
  split; [by apply month_period_covers|].
  intros s' e' He. apply month_period_inr in H as (y & m & d & Hd & Hm & Hy & Hy' & Es & Ee).
  rewrite <- (next_month_ord y m Hm) in Ee. unfold previous_period. rewrite He.
  apply month_period_inr in He as (y2 & m2 & d2 & Hd2 & Hm2 & Hy2 & _ & -> & _).
  assert (∃ y' m', e = (ymd2ord y' m' 1 - epoch_ordinal) * microseconds_per_day ∧ 1 <= m' <= 12 ∧
    (if m' =? 1 then (y' - 1, 12) else (y', m' - 1)) = (y, m)) as (y' & m' & E' & Hm' & Eprev).
  { destruct (Z.eqb_spec m 12) as [->|].
    - exists (y + 1), 1. split_and!; [done|lia..|simpl; f_equal; lia].
    - exists y, (m + 1). split_and!; [done|lia..|]. destruct (Z.eqb_spec (m + 1) 1); [lia|].
      f_equal; lia. }
  rewrite E', date_of_first in Hd2 by done. injection Hd2 as <- <- _. rewrite <- E'. split; [done|].
  rewrite E', date_of_first by done. rewrite <- E'.
  assert (month_start y m = inr s) as Hs.
  { unfold month_start. rewrite (proj2 (andb_true_iff _ _)); [by rewrite Es|].
    rewrite !Z.leb_le. destruct (m =? 12); lia. }
  destruct (m' =? 1); injection Eprev as -> ->; by rewrite Hs.
Qed.

(** ** The billing ledger: what a tick of the meter may do to it *)

(** A bill: a calendar month, the larger of what was committed and what was
    used, closed at a known time that is not before the month's end unless the
    service is gone. *)
Definition usage_ok (u : BillingUsage) : Prop :=
  month_period (bu_period_start u) = inr (bu_period_start u, bu_period_end u) ∧
  bu_billed_gbps u = Z.max (bu_committed_clean_gbps u) (bu_p95_clean_gbps u) ∧
  bu_overage_gbps u = Z.max 0 (bu_p95_clean_gbps u - bu_committed_clean_gbps u) ∧
  match bu_status u with
  | BillingStatus.open => bu_finalized_at u = None
  | BillingStatus.final =>
      ∃ t, bu_finalized_at u = Some t ∧ (bu_period_end u <= t ∨ bu_service_id u = None)
  end.

(** One bill per service and month. *)
Definition ledger_ok (t : gmap uuid BillingUsage) : Prop :=
  (∀ i u, t !! i = Some u → bu_id u = i ∧ usage_ok u) ∧
  (∀ i j u v, t !! i = Some u → t !! j = Some v →
     bu_service_id u = bu_service_id v → is_Some (bu_service_id u) →
     bu_period_start u = bu_period_start v → i = j).

(** A closed bill that a sample went into, of a period past the cutoff. *)
Definition billed_before (cutoff : timestamp) (t : gmap uuid BillingUsage) (b : BillingSample) : Prop :=
  ∃ i u, t !! i = Some u ∧ bu_service_id u = Some (bs_service_id b) ∧
    bu_status u = BillingStatus.final ∧ bu_period_end u <= cutoff ∧
    bu_period_start u <= bs_sample_ts b < bu_period_end u.

Definition bills (o : OpsDb) : gmap uuid BillingUsage * gmap (uuid * timestamp) BillingSample :=
  (billing_usage o, billing_sample o).

Definition ledger_step (cutoff : timestamp)
    (x y : gmap uuid BillingUsage * gmap (uuid * timestamp) BillingSample) : Prop :=
  ledger_ok x.1 →
  ledger_ok y.1 ∧
  (∀ i u, x.1 !! i = Some u → bu_status u = BillingStatus.final → y.1 !! i = Some u) ∧
  (∀ k b, x.2 !! k = Some b → y.2 !! k = Some b ∨ billed_before cutoff y.1 b).

#[global] Instance ledger_step_preorder cutoff : PreOrder (ledger_step cutoff).
Proof.
  split; [intros x Hx; split_and!; [done..|by left]|].
  intros x y z Hxy Hyz Hx. destruct (Hxy Hx) as (Hy & Hf1 & Hs1).
  destruct (Hyz Hy) as (Hz & Hf2 & Hs2). split_and!; [done|by eauto|].
  intros k b Hb. destruct (Hs1 k b Hb) as [?|(i & u & Hu & Hs & Hst & Hr)]; [by apply Hs2|].
  right. exists i, u. split_and!; try done; [by apply Hf2|apply Hr..].
Qed.

(** The same in a session and in the worker's world, at a given time. *)
Definition session_step cutoff (s s' : OSession) : Prop :=
  clock (os_db s') = clock (os_db s) ∧ ledger_step cutoff (bills (ops s)) (bills (ops s')).
Definition meter_step cutoff (s s' : MeterWorld) : Prop :=
  clock (ow_db (mw_world s')) = clock (ow_db (mw_world s)) ∧
  ledger_step cutoff (bills (ow_ops (mw_world s))) (bills (ow_ops (mw_world s'))).

#[global] Instance session_step_preorder cutoff : PreOrder (session_step cutoff).
Proof. split; [by split|]. intros x y z [E1 H1] [E2 H2]. split; [congruence|by etrans]. Qed.
#[global] Instance meter_step_preorder cutoff : PreOrder (meter_step cutoff).
Proof. split; [by split|]. intros x y z [E1 H1] [E2 H2]. split; [congruence|by etrans]. Qed.

Lemma callbacks_clock cbs w : clock (w_db (run_post_commit_callbacks cbs w)) = clock (w_db w).
Proof.
  revert w. induction cbs as [|x cbs IH]; intros w; [done|].
  change (run_post_commit_callbacks (x :: cbs) w) with
    (run_post_commit_callbacks cbs (dispatch w (callback_job x))).
  rewrite IH. unfold dispatch. by destruct (w_redis_up w).
Qed.

(** A transaction commits what its body did, or nothing. *)
Lemma moves_meter_scope cutoff {A} (m : M OSession A) :
  moves (session_step cutoff) m → moves (meter_step cutoff) (meter_scope m).
Proof.
  intros Hm s. unfold meter_scope, ops_scope.
  set (s0 := mkOSession _ _ _). pose proof (Hm s0) as H.
  assert (∀ a, moves (session_step cutoff) (flush ;; mret a : M OSession A)) as Hfl.
  { intros a. moves_auto. }
  rewrite bind_run. destruct (m s0) as [[e|a] s1]; simpl in H |- *; [done|].
  specialize (Hfl a s1).
  destruct ((flush ;; mret a) s1) as [[e|a'] s2]; simpl in Hfl |- *; [done|].
  assert (session_step cutoff s0 s2) as [Hc Hl] by (by etrans). split; simpl.
  - unfold ow_db. simpl. by rewrite callbacks_clock.
  - exact Hl.
Qed.

Lemma moves_logged cutoff m :
  moves (meter_step cutoff) m → moves (meter_step cutoff) (logged m).
Proof. intros Hm. unfold logged. moves_auto. Qed.

(** ** The steps *)

Lemma ledger_put cutoff (t : gmap uuid BillingUsage) samples u :
  usage_ok u →
  match t !! bu_id u with
  | None => ∀ i v, t !! i = Some v → bu_service_id v = bu_service_id u →
              bu_period_start v = bu_period_start u → False
  | Some v => bu_status v = BillingStatus.open ∧ bu_service_id v = bu_service_id u ∧
              bu_period_start v = bu_period_start u
  end →
  ledger_step cutoff (t, samples) (<[bu_id u := u]> t, samples).
Proof.
  intros Hu Hold [Hrows Huniq]. simpl. split_and!; [|..|by left].
  - split.
    + intros i v [[<- <-]|[_ Hv]]%lookup_insert_Some; [done|by apply Hrows].
    + assert (∀ j v, bu_id u ≠ j → t !! j = Some v → bu_service_id v = bu_service_id u →
        is_Some (bu_service_id v) → bu_period_start v = bu_period_start u → False) as Hne.
      { intros j v Hj Hv Es Hs Ep. destruct (t !! bu_id u) as [v0|] eqn:E0; [|by eapply Hold].
        destruct Hold as (_ & Es0 & Ep0). apply Hj, (Huniq _ _ v0 v); try done; try congruence. }
      intros i j v w [[<- <-]|[Hi Hv]]%lookup_insert_Some [[<- <-]|[Hj Hw]]%lookup_insert_Some Es Hs Ep.
      * done.
      * exfalso. eapply (Hne j w); try done. by rewrite <- Es.
      * exfalso. by eapply (Hne i v).
      * by eapply Huniq.
  - intros i v Hv Hf. rewrite lookup_insert_ne; [done|]. intros <-. rewrite Hv in Hold.
    destruct Hold as [Ho _]. congruence.
Qed.

Lemma put_usage_step cutoff u s :
  ledger_step cutoff (bills (ops s)) (<[bu_id u := u]> (billing_usage (ops s)), billing_sample (ops s)) →
  session_step cutoff s (put_usage u s).2.
Proof.
  intros H. unfold put_usage. destruct (usage_fits u); [by split|]. reflexivity.
Qed.

Lemma with_measures_ok entry period_end samples p95 u :
  month_period (bu_period_start u) = inr (bu_period_start u, period_end) →
  bu_status u = BillingStatus.open → bu_finalized_at u = None →
  usage_ok (with_measures entry period_end samples p95 u).
Proof. intros Hp Hs Hf. unfold usage_ok, with_measures. simpl. by rewrite Hs. Qed.

Lemma moves_refresh_service cutoff period_start period_end kv :
  month_period period_start = inr (period_start, period_end) →
  moves (session_step cutoff) (refresh_service period_start period_end kv).
Proof.
  intros Hp s. unfold refresh_service, get_ops. rewrite run_gets. cbv zeta beta.
  set (sid := svc_id (ce_service kv.2)). unfold id.
  destruct (p95_nearest_rank _) as [e|p95]; [reflexivity|]. rewrite run_lift.
  destruct (select_where _ _) as [|u l] eqn:Esel.
  - rewrite bind_run. change (core uuid4 s) with
      (@inr exn uuid (uuid_supply (os_db s)),
       s <| os_session := (uuid4 (os_session s)).2 |>). cbv iota.
    set (s1 := s <| os_session := _ |>). transitivity s1; [by split|].
    destruct (bool_decide_reflect (billing_usage (ops s) !! uuid_supply (os_db s) = None)) as [Hfresh|];
      [|reflexivity].
    apply put_usage_step, ledger_put.
    + by apply with_measures_ok.
    + change (ops s1) with (ops s). change (bu_id _) with (uuid_supply (os_db s)). rewrite Hfresh. simpl.
      intros i v Hv Es Ep. pose proof (proj1 (select_where_nil _ _) Esel i v Hv) as Hno.
      unfold usage_of in Hno. rewrite Es, Ep, bool_decide_true, Z.eqb_refl in Hno by done. done.
  - destruct (bool_decide_reflect (bu_status u = BillingStatus.open)) as [Ho|]; [|reflexivity].
    assert (u ∈ select_where (usage_of sid period_start) (billing_usage (ops s))) as Hin.
    { rewrite Esel. by left. }
    apply elem_of_select in Hin as [Hof (i & Hi)]. unfold usage_of in Hof.
    apply andb_true_iff in Hof as [Hs%bool_decide_eq_true Hps%Z.eqb_eq].
    apply put_usage_step. intros Hl. pose proof (proj1 Hl i u Hi) as [<- Hu].
    revert Hl. apply ledger_put; [|simpl; rewrite Hi; by split_and!].
    apply with_measures_ok; [by rewrite Hps|done|]. destruct Hu as (_ & _ & _ & Hst).
    by rewrite Ho in Hst.
Qed.

Lemma moves_upsert_sample cutoff sid dp ts bps w r :
  moves (session_step cutoff) (_upsert_sample sid dp ts bps w r).
Proof.
  unfold _upsert_sample. moves_auto. split; [done|]. intros Hl. unfold bills. simpl.
  destruct (billing_sample (ops _) !! (sid, ts)) eqn:E; [by split_and!; [..|left]|].
  simpl. split_and!; [done..|]. intros k b Hb. left.
  rewrite lookup_insert_ne; [done|]. congruence.
Qed.

Lemma moves_sample_body cutoff meter current elapsed ts :
  moves (session_step cutoff) (sample_body meter current elapsed ts).
Proof.
  unfold sample_body, sample_service, sample_silent. moves_auto; apply moves_upsert_sample.
Qed.

Lemma moves_sample_once cutoff read : moves (meter_step cutoff) (sample_once read).
Proof.
  unfold sample_once, _refresh_service_cache, _now. moves_auto.
  by apply moves_logged, moves_meter_scope, moves_sample_body.
Qed.

Lemma moves_refresh_open_periods cutoff : moves (meter_step cutoff) refresh_open_periods.
Proof.
  unfold refresh_open_periods, _refresh_service_cache, _now. apply (moves_bind _); [moves_auto|].
  intros now s. destruct (month_period now) as [e|[ps pe]] eqn:Ep; [reflexivity|].
  rewrite run_lift. revert s.
  change (moves (meter_step cutoff) (modS (fun s => s <| mw_meter := mw_meter s
    <| bm_services := service_cache (ow_db (mw_world s)) |> |>) ;;
    meter ← gets mw_meter;
    logged (meter_scope (for_each (refresh_service ps pe) (bm_services meter))) ;; mret tt)).
  moves_auto. apply moves_logged, moves_meter_scope. moves_auto.
  apply moves_refresh_service. by eapply month_period_start.
Qed.

Lemma finalize_usage_ok now u : usage_ok u → usage_ok (finalize_usage now u).
Proof.
  unfold finalize_usage. destruct (_ && _) eqn:E; [|done].
  apply andb_true_iff in E as [_ [Hend%Z.leb_le|Hs%bool_decide_eq_true]%orb_true_iff].
  all: intros (Hp & Hb & Ho & _); unfold usage_ok; simpl; split_and!; try done; eauto.
Qed.

Lemma finalize_usage_key now u :
  bu_id (finalize_usage now u) = bu_id u ∧
  bu_service_id (finalize_usage now u) = bu_service_id u ∧
  bu_period_start (finalize_usage now u) = bu_period_start u.
Proof. unfold finalize_usage. by destruct (_ && _). Qed.

Lemma moves_finalize cutoff : moves (meter_step cutoff) finalize_due_periods.
Proof.
  unfold finalize_due_periods, _now. moves_auto. apply moves_logged, moves_meter_scope. moves_auto.
  split; [done|]. intros [Hrows Huniq]. unfold bills. simpl. split_and!; [|..|by left].
  - split.
    + intros i u' (u & <- & Hu)%lookup_fmap_Some. destruct (finalize_usage_key a u) as (-> & _ & _).
      destruct (Hrows i u Hu). split; [done|by apply finalize_usage_ok].
    + intros i j u' v' (u & <- & Hu)%lookup_fmap_Some (v & <- & Hv)%lookup_fmap_Some.
      destruct (finalize_usage_key a u) as (_ & -> & ->).
      destruct (finalize_usage_key a v) as (_ & -> & ->). by apply Huniq.
  - intros i u Hu Hf. apply lookup_fmap_Some. exists u. split; [|done].
    unfold finalize_usage. by rewrite Hf.
Qed.

Lemma prune_step cutoff (t : gmap uuid BillingUsage) samples :
  ledger_step cutoff (t, samples)
    (t, filter (fun kv => prunable cutoff t kv.2 = false) samples).
Proof.
  intros Hl. split_and!; [done..|]. simpl. intros k b Hb.
  destruct (prunable cutoff t b) eqn:E; [right|left; by apply map_lookup_filter_Some_2].
  unfold prunable in E. apply negb_true_iff, bool_decide_eq_false in E.
  destruct (select_where _ t) as [|u l] eqn:Esel; [done|].
  assert (u ∈ u :: l) as Hin by left. rewrite <- Esel in Hin. clear Esel E.
  apply elem_of_select in Hin as [Hp (i & Hi)]. exists i, u.
  rewrite !andb_true_iff, !bool_decide_eq_true, !Z.leb_le, Z.ltb_lt in Hp.
  destruct Hp as ((((? & ?) & ?) & ?) & ?). by split_and!.
Qed.

Lemma prune_samples_step days s :
  meter_step (clock (ow_db (mw_world s)) - days * microseconds_per_day) s (prune_samples days s).2.
Proof.
  unfold prune_samples, _now. rewrite run_gets. cbv zeta.
  set (cutoff := _ - _). clearbody cutoff. revert s. apply (moves_bind _); [|intros; moves_auto].
  apply moves_logged, moves_meter_scope. moves_auto. split; [done|]. apply prune_step.
Qed.

Lemma billing_tick_step days read s :
  meter_step (clock (ow_db (mw_world s)) - days * microseconds_per_day) s (billing_tick days read s).2.
Proof.
  unfold billing_tick. set (cutoff := _ - _).
  assert (∀ m k, moves (meter_step cutoff) m →
    (∀ s', clock (ow_db (mw_world s')) = clock (ow_db (mw_world s)) → meter_step cutoff s' (k s').2) →
    ∀ s', clock (ow_db (mw_world s')) = clock (ow_db (mw_world s)) →
      meter_step cutoff s' (((m : M MeterWorld unit) ;; (k : M MeterWorld unit)) s').2) as Hseq.
  { intros m k Hm Hk s' Hc. rewrite bind_run. pose proof (Hm s') as H.
    destruct (m s') as [[e|[]] s1]; simpl in H; [done|]. etrans; [exact H|]. apply Hk.
    rewrite (proj1 H). done. }
  apply Hseq; [apply moves_sample_once| |done].
  apply Hseq; [apply moves_refresh_open_periods|].
  apply Hseq; [apply moves_finalize|].
  intros s' Hc. unfold cutoff. rewrite <- Hc. apply prune_samples_step.
Qed.

(** Deleting a service keeps the ledger. *)
Lemma service_deleted_ledger id o :
  ledger_ok (billing_usage o) → ledger_ok (billing_usage (service_deleted id o)).
Proof.
  intros [Hrows Huniq]. simpl. assert (∀ x : option uuid, null_if id x = None ∨ null_if id x = x) as Hn.
  { intros x. unfold null_if. case_bool_decide; eauto. }
  split.
  - intros i u' (u & <- & Hu)%lookup_fmap_Some. destruct (Hrows i u Hu) as [Hk (Hp & Hb & Ho & Hs)].
    split; [done|]. split_and!; try done. simpl. destruct (bu_status u); [done|].
    destruct Hs as (t & Ht & [?|E]); exists t; split; eauto. right. rewrite E.
    by destruct (Hn None) as [-> | ->].
  - intros i j u' v' (u & <- & Hu)%lookup_fmap_Some (v & <- & Hv)%lookup_fmap_Some. simpl.
    intros Es [x Hx] Ep. rewrite Hx in Es. apply (Huniq i j u v); try done.
    all: destruct (Hn (bu_service_id u)) as [E|E], (Hn (bu_service_id v)) as [E'|E']; try congruence.
    all: rewrite <- E, Hx; eauto.
Qed.

(** C8: Bills are sound and closed bills are immutable.  Whatever a tick of the
    meter reads and however it ends, it keeps one bill per service and calendar
    month, billing the larger of the committed and the measured rate and closing
    no bill of a live service before its month's end; it never changes a closed
    bill, never changes a stored sample, and drops only samples of a closed
    period that ended before the retention cutoff. *)
Theorem billing_ledger_invariant days read s :
  ledger_ok (billing_usage (ow_ops (mw_world s))) →
  let s' := (billing_tick days read s).2 in
  let t := billing_usage (ow_ops (mw_world s)) in
  let t' := billing_usage (ow_ops (mw_world s')) in
  ledger_ok t' ∧
  (∀ i u, t !! i = Some u → bu_status u = BillingStatus.final → t' !! i = Some u) ∧
  (∀ k b, billing_sample (ow_ops (mw_world s)) !! k = Some b →
     billing_sample (ow_ops (mw_world s')) !! k = Some b ∨
     billed_before (clock (ow_db (mw_world s)) - days * microseconds_per_day) t' b).
Proof. intros H. apply (billing_tick_step days read s), H. Qed.

(** ** What an open bill says *)

(** The samples of a service whose calendar month is the given one. *)
Definition month_samples (o : OpsDb) (sid : uuid) (period : timestamp * timestamp) : list Z :=
  bs_clean_bps <$> select_where (fun b => bool_decide (bs_service_id b = sid) &&
    bool_decide (month_period (bs_sample_ts b) = inr period)) (billing_sample o).

Lemma period_samples_month o sid ps pe at_ :
  month_period at_ = inr (ps, pe) → period_samples o sid ps pe = month_samples o sid (ps, pe).
Proof.
  intros Hp. unfold period_samples, month_samples, select_where. f_equal. apply list_filter_iff.
  intros b. rewrite !Is_true_true, !andb_true_iff, Z.leb_le, Z.ltb_lt, !bool_decide_eq_true.
  rewrite <- (month_period_iff _ _ _ (bs_sample_ts b) Hp). tauto.
Qed.

(** An open bill of a cached service agrees with its plan and its samples. *)
Definition bill_of (o : OpsDb) (period : timestamp * timestamp) (entry : _ServiceCacheEntry)
    (t : gmap uuid BillingUsage) : Prop :=
  let sid := svc_id (ce_service entry) in
  let samples := month_samples o sid period in
  ∃ u, t !! bu_id u = Some u ∧ bu_service_id u = Some sid ∧ bu_period_start u = period.1 ∧
    (bu_status u = BillingStatus.open →
      bu_tenant_id u = Some (ce_tenant_id entry) ∧
      bu_committed_clean_gbps u = default 0 (plan_committed_clean_gbps <$> ce_plan entry) ∧
      bu_sample_count u = Z.of_nat (length samples) ∧
      ∃ p, p95_nearest_rank samples = inr p ∧ bu_p95_clean_gbps u = bps_to_gbps p).

Lemma put_usage_run u s r s' :
  put_usage u s = (inr r, s') →
  billing_usage (ops s') = <[bu_id u := u]> (billing_usage (ops s)) ∧
  billing_sample (ops s') = billing_sample (ops s).
Proof.
  unfold put_usage. intros H. apply bind_inr in H as (? & s1 & [_ ->]%require_inr & H).
  unfold mod_ops in H. by apply modS_inr in H as ->.
Qed.

Lemma refresh_service_run at_ ps pe kv s r s' :
  month_period at_ = inr (ps, pe) → ledger_ok (billing_usage (ops s)) →
  refresh_service ps pe kv s = (inr r, s') →
  bill_of (ops s) (ps, pe) kv.2 (billing_usage (ops s')) ∧
  billing_sample (ops s') = billing_sample (ops s) ∧
  (∀ i v, bu_service_id v ≠ Some (svc_id (ce_service kv.2)) →
     billing_usage (ops s) !! i = Some v → billing_usage (ops s') !! i = Some v).
Proof.
  intros Hp Hl H. unfold refresh_service, get_ops in H. rewrite run_gets in H. cbv zeta in H.
  unfold id in H. rewrite (period_samples_month _ _ _ _ _ Hp) in H.
  set (sid := svc_id (ce_service kv.2)) in *. unfold bill_of. fold sid.
  set (samples := month_samples _ _ _) in *. clearbody samples.
  destruct (p95_nearest_rank samples) as [e|p] eqn:E95; [done|]. rewrite run_lift in H.
  destruct (select_where _ _) as [|u l] eqn:Esel in H.
  - apply bind_inr in H as (uid & s1 & H1 & H). apply core_inr in H1 as (t & _ & ->).
    apply bind_inr in H as (? & s1 & [Hf%bool_decide_eq_true ->]%require_inr & H).
    apply put_usage_run in H as [-> ->]. simpl in *. split_and!; [|done|].
    + eexists. split; [apply lookup_insert_eq|]. simpl. split_and!; try done.
      intros _. split_and!; try done; [by destruct (ce_plan kv.2)|eauto].
    + intros i v _ Hi. rewrite lookup_insert_ne; [done|]. intros <-. congruence.
  - assert (u ∈ u :: l) as Hin by left. rewrite <- Esel in Hin. clear Esel.
    apply elem_of_select in Hin as [Hof (i & Hi)]. destruct (proj1 Hl i u Hi) as [<- _].
    apply andb_true_iff in Hof as [Hs%bool_decide_eq_true Hps%Z.eqb_eq].
    destruct (bool_decide_reflect (bu_status u = BillingStatus.open)) as [Ho|Ho].
    + apply put_usage_run in H as [-> ->]. split_and!; [|done|].
      * eexists. split; [apply lookup_insert_eq|]. simpl. split_and!; try done.
        intros _. split_and!; try done; [by destruct (ce_plan kv.2)|eauto].
      * intros j v Hv Hj. simpl. rewrite lookup_insert_ne; [done|]. intros <-. congruence.
    + apply ret_inr in H as [_ ->]. split_and!; try done. by exists u.
Qed.

Lemma refresh_all at_ ps pe l s r s' :
  month_period at_ = inr (ps, pe) → ledger_ok (billing_usage (ops s)) →
  NoDup ((fun kv : Z * _ServiceCacheEntry => svc_id (ce_service kv.2)) <$> l) →
  for_each (refresh_service ps pe) l s = (inr r, s') →
  Forall (fun kv => bill_of (ops s) (ps, pe) kv.2 (billing_usage (ops s'))) l ∧
  (∀ i v, (∀ kv, kv ∈ l → bu_service_id v ≠ Some (svc_id (ce_service kv.2))) →
     billing_usage (ops s) !! i = Some v → billing_usage (ops s') !! i = Some v).
Proof.
  intros Hp. revert s. induction l as [|kv l IH]; intros s Hl Hnd H; simpl in H.
  { apply ret_inr in H as [_ ->]. by split. }
  apply bind_inr in H as (u & s1 & H1 & H).
  assert (ledger_ok (billing_usage (ops s1))) as Hl1.
  { pose proof (moves_refresh_service 0 ps pe kv (month_period_start _ _ _ Hp) s) as Hm.
    rewrite H1 in Hm. apply Hm, Hl. }
  apply refresh_service_run with (at_ := at_) in H1 as (Hb & Es & Hkeep); try done.
  apply NoDup_cons in Hnd as [Hni Hnd]. apply IH in H as [Hall Hkeep']; try done. split.
  - constructor.
    + destruct Hb as (v & Hv & Hs & Hrest). exists v. split; [|by split].
      apply Hkeep'; [|done]. intros kv' Hin E. apply Hni.
      rewrite Hs in E. injection E as E. apply list_elem_of_fmap. by exists kv'.
    + eapply Forall_impl; [exact Hall|]. intros kv'. unfold bill_of, month_samples. by rewrite Es.
  - intros i v Hv Hi. apply Hkeep'; [intros; apply Hv; by right|]. apply Hkeep; [|done].
    apply Hv. by left.
Qed.

(** The cache holds one entry per row. *)
Lemma service_cache_nodup d :
  (∀ i r, protected_service d !! i = Some r → svc_id r = i) →
  NoDup ((fun kv : Z * _ServiceCacheEntry => svc_id (ce_service kv.2)) <$> service_cache d).
Proof.
  intros Hkey. unfold service_cache. rewrite <- list_fmap_compose. unfold compose. simpl.
  unfold rows. rewrite <- list_fmap_compose. unfold compose.
  rewrite (list_fmap_ext _ (fst : uuid * ProtectedService → uuid)); [apply NoDup_fst_map_to_list|].
  intros n [i r] Hin%list_elem_of_lookup_2%elem_of_map_to_list. by apply Hkey.
Qed.

(** C29: An open bill is what the month says.  Refreshing the bills of the
    current month either fails as a whole and changes no bill, or leaves every
    service with a bill of that month, which, while open, carries its tenant,
    the rate its plan commits to, and the percentile and number of exactly the
    samples taken in that calendar month. *)
Theorem open_bill_reflects_month s s' period :
  let d := ow_db (mw_world s) in
  let o := ow_ops (mw_world s) in
  let t' := billing_usage (ow_ops (mw_world s')) in
  (∀ i r, protected_service d !! i = Some r → svc_id r = i) → ledger_ok (billing_usage o) →
  month_period (clock d) = inr period →
  refresh_open_periods s = (inr tt, s') →
  t' = billing_usage o ∨
  ∀ i r, protected_service d !! i = Some r →
    bill_of o period (mkServiceCacheEntry r (svc_tenant_id r) (service_plan d !! i)) t'.
Proof.
  cbv zeta. intros Hkey Hl Hp H. destruct period as [ps pe].
  unfold refresh_open_periods, _now in H. rewrite run_gets, Hp, run_lift in H.
  unfold _refresh_service_cache in H. rewrite run_modS, run_gets in H.
  apply bind_inr in H as (stored & s1 & H1 & H). apply ret_inr in H as [_ ->].
  unfold logged in H1. apply try_except_inr in H1 as [H1|(e & s2 & H1 & H2)].
  - apply bind_inr in H1 as (u & s2 & H1 & H2). apply ret_inr in H2 as [_ <-]. right.
    unfold meter_scope in H1. simpl in H1. destruct (ops_scope _ _) as [[e|b] w'] eqn:Es; [done|].
    injection H1 as <- <-. simpl. apply ops_scope_inr in Es as (s2 & H2 & _ & -> & _).
    eapply refresh_all in H2 as [Hall _]; [|exact Hp|exact Hl|by apply service_cache_nodup].
    intros i r Hr. rewrite Forall_forall in Hall.
    pose proof (Hkey i r Hr) as Hi. rewrite <- Hi.
    apply (Hall (svc_dp_id r, mkServiceCacheEntry r (svc_tenant_id r) (service_plan _ !! svc_id r))).
    apply list_elem_of_fmap. exists r. split; [done|]. apply elem_of_rows. eauto.
  - left. apply bind_inl in H1 as [H1|(x & s3 & _ & H1)]; [|done].
    unfold meter_scope in H1. simpl in H1. destruct (ops_scope _ _) as [[e'|b] w'] eqn:Es; [|done].
    injection H1 as <- <-. destruct (is_sqlalchemy_error e'); [|done].
    apply ret_inr in H2 as [_ ->]. simpl. apply ops_scope_inl in Es. by rewrite Es.
Qed.
