(* ===== verification/CsvText.v ===== *)
(** * CSV text, as [csv.writer(output, lineterminator="\n")] writes it

    A field is quoted when it holds a delimiter, a quote or a line terminator
    ([QUOTE_MINIMAL]); a carriage return is quoted only by the newer versions
    of the writer ([quotes_cr]). *)

From S2P Require Import Prelude.
From Stdlib Require Import Ascii.
Open Scope string_scope.

#[local] Arguments String.append !_ _ : simpl nomatch.

Definition comma : ascii := ",".
Definition quote : ascii := ascii_of_nat 34.
Definition newline : ascii := ascii_of_nat 10.
Definition carriage_return : ascii := ascii_of_nat 13.

Section writer.
Context (quotes_cr : bool).

Definition is_special (c : ascii) : bool :=
  Ascii.eqb c comma || Ascii.eqb c quote || Ascii.eqb c newline ||
  quotes_cr && Ascii.eqb c carriage_return.

Fixpoint has_special (s : string) : bool :=
  match s with "" => false | String c s => is_special c || has_special s end.

Fixpoint double_quotes (s : string) : string :=
  match s with
  | "" => ""
  | String c s => if Ascii.eqb c quote then String quote (String quote (double_quotes s))
                  else String c (double_quotes s)
  end.

Definition quoted (s : string) : string := String quote (double_quotes s ++ String quote "").
Definition write_field (s : string) : string := if has_special s then quoted s else s.

Fixpoint write_fields (fields : list string) : string :=
  match fields with
  | [] => ""
  | [f] => write_field f
  | f :: fs => write_field f ++ String comma (write_fields fs)
  end.

(** [writer.writerow(fields)]; a single empty field is quoted. *)
Definition writerow (fields : list string) : string :=
  match fields with
  | [""] => quoted "" ++ String newline ""
  | _ => write_fields fields ++ String newline ""
  end.

Fixpoint write_rows (rows : list (list string)) : string :=
  match rows with [] => "" | r :: rs => writerow r ++ write_rows rs end.
End writer.

(** ** Reading it back *)

Inductive reader_state := StartField | InField | InQuoted | QuoteInQuoted.

Fixpoint read_from (st : reader_state) (field : string) (row : list string) (s : string)
    : list (list string) :=
  match s with
  | "" => match st, row with StartField, [] => [] | _, _ => [row ++ [field]]%list end
  | String c s =>
      match st with
      | InQuoted =>
          if Ascii.eqb c quote then read_from QuoteInQuoted field row s
          else read_from InQuoted (field ++ String c "") row s
      | _ =>
          if Ascii.eqb c comma then read_from StartField "" (row ++ [field])%list s
          else if Ascii.eqb c newline then ((row ++ [field]) :: read_from StartField "" [] s)%list
          else match st, Ascii.eqb c quote with
               | StartField, true => read_from InQuoted field row s
               | QuoteInQuoted, true => read_from InQuoted (field ++ String c "") row s
               | _, _ => read_from InField (field ++ String c "") row s
               end
      end
  end.

Definition read_csv : string → list (list string) := read_from StartField "" [].

Lemma string_app_cons a c b : (a ++ String c "") ++ b = a ++ String c b.
Proof. induction a as [|x a IH]; simpl; [done|f_equal; exact IH]. Qed.
Lemma string_app_assoc a b c : (a ++ b) ++ c = a ++ b ++ c.
Proof. induction a as [|x a IH]; simpl; [done|f_equal; exact IH]. Qed.
Lemma string_app_nil a : a ++ "" = a.
Proof. induction a as [|x a IH]; simpl; [done|f_equal; exact IH]. Qed.

(** A field that is complete, before a delimiter or the end of its line. *)
Definition field_ends (row : list string) (f : string) (c : ascii) (rest : string)
    : list (list string) :=
  if Ascii.eqb c comma then read_from StartField "" (row ++ [f])%list rest
  else ((row ++ [f]) :: read_from StartField "" [] rest)%list.

Definition separator (c : ascii) : Prop := c = comma ∨ c = newline.

Lemma read_end st f row c rest :
  separator c → st ≠ InQuoted → read_from st f row (String c rest) = field_ends row f c rest.
Proof. by intros [-> | ->] H; destruct st. Qed.

Lemma read_quoted field row f c rest :
  separator c →
  read_from InQuoted field row (double_quotes f ++ String quote (String c rest)) =
  field_ends row (field ++ f) c rest.
Proof.
  intros Hc. revert field. induction f as [|x f IH]; intros field.
  - cbn [double_quotes String.append]. change (read_from InQuoted field row (String quote (String c rest)))
      with (read_from QuoteInQuoted field row (String c rest)).
    rewrite string_app_nil. by apply read_end.
  - cbn [double_quotes]. destruct (Ascii.eqb_spec x quote) as [->|Hx].
    + change (read_from InQuoted field row
        (String quote (String quote (double_quotes f)) ++ String quote (String c rest)))
        with (read_from InQuoted (field ++ String quote "") row
                (double_quotes f ++ String quote (String c rest))).
      by rewrite IH, string_app_cons.
    + cbn [String.append read_from]. apply Ascii.eqb_neq in Hx. by rewrite Hx, IH, string_app_cons.
Qed.

Lemma read_plain quotes_cr st field row f c rest :
  separator c → st = StartField ∨ st = InField → has_special quotes_cr f = false →
  read_from st field row (f ++ String c rest) = field_ends row (field ++ f) c rest.
Proof.
  intros Hc. revert st field. induction f as [|x f IH]; intros st field Hst Hs.
  - rewrite string_app_nil. apply read_end; [done|]. by destruct Hst as [-> | ->].
  - cbn [has_special] in Hs. apply orb_false_iff in Hs as [Hx Hs]. unfold is_special in Hx.
    rewrite !orb_false_iff in Hx. destruct Hx as [[[H1 H2] H3] _].
    cbn [String.append read_from]. rewrite H1, H2, H3, <- (string_app_cons field x f).
    destruct Hst as [-> | ->]; apply IH; auto.
Qed.

Lemma read_field quotes_cr row f c rest :
  separator c →
  read_from StartField "" row (write_field quotes_cr f ++ String c rest) = field_ends row f c rest.
Proof.
  intros Hc. unfold write_field. destruct (has_special quotes_cr f) eqn:E.
  - unfold quoted. cbn [String.append]. rewrite string_app_assoc.
    change (read_from StartField "" row (String quote (double_quotes f ++ String quote "" ++ String c rest)))
      with (read_from InQuoted "" row (double_quotes f ++ String quote (String c rest))).
    by rewrite (read_quoted "" row f c rest Hc).
  - by rewrite (read_plain quotes_cr StartField "" row f c rest); auto.
Qed.

Lemma read_fields quotes_cr row fields rest :
  fields ≠ [] →
  read_from StartField "" row (write_fields quotes_cr fields ++ String newline rest) =
  ((row ++ fields) :: read_from StartField "" [] rest)%list.
Proof.
  revert row. induction fields as [|f fs IH]; intros row Hne; [done|].
  destruct fs as [|g fs].
  - cbn [write_fields]. rewrite read_field by (by right). reflexivity.
  - change (write_fields quotes_cr (f :: g :: fs)) with
      (write_field quotes_cr f ++ String comma (write_fields quotes_cr (g :: fs))).
    rewrite string_app_assoc. cbn [String.append]. rewrite read_field by (by left).
    unfold field_ends. rewrite Ascii.eqb_refl, IH by done. by rewrite <- (assoc_L app).
Qed.

(** What is written is read back. *)
Lemma read_write_rows quotes_cr rows :
  Forall (fun r => r ≠ []) rows → read_csv (write_rows quotes_cr rows) = rows.
Proof.
  induction 1 as [|r rs Hr _ IH]; [done|]. unfold read_csv in *. cbn [write_rows].
  assert (writerow quotes_cr r ++ write_rows quotes_cr rs =
    (if bool_decide (r = [""]) then quoted "" else write_fields quotes_cr r) ++
      String newline (write_rows quotes_cr rs)) as ->.
  { unfold writerow. case_bool_decide as E; [by rewrite E|].
    destruct r as [|[|x f] [|g fs]]; try done; by rewrite string_app_cons. }
  case_bool_decide as E.
  - subst r. simpl. by rewrite IH.
  - rewrite read_fields by done. by rewrite IH.
Qed.
