(* ===== verification/BillingApi.v ===== *)
(** * The billing routes ([api/routers/billing.py], [api/schemas/billing.py])

    Listing the bills, their history and their export.  [collate] is the text
    order of the database, [quotes_cr] the version of the CSV writer. *)

From S2P Require Import Prelude PyStr Models Db Services Api PyNum OpsModels.
From S2P Require Import AlertInv Calendar AlertDispatch AlertSources AlertApi CsvText.
From stdpp Require Import pretty.
Import Deps.
Open Scope Z_scope.

Record BillingUsageResponse := mkBillingUsageResponse {
  bur_service_id : option uuid;
  bur_service_name : string;
  bur_tenant_id : option uuid;
  bur_period_start : timestamp;
  bur_period_end : timestamp;
  bur_billing_metric : string;
  bur_committed_clean_gbps : Z;
  bur_p95_clean_gbps : Z;
  bur_billed_gbps : Z;
  bur_overage_gbps : Z;
  bur_overage_policy : OveragePolicy;
  bur_sample_count : Z;
  bur_status : BillingStatus.t;
  bur_provisional : bool
}.

Record BillingUsageListResponse := mkBillingUsageListResponse {
  bul_usage : list BillingUsageResponse;
  bul_has_data : bool
}.

Definition _usage_response (u : BillingUsage) : BillingUsageResponse :=
  mkBillingUsageResponse (bu_service_id u) (bu_service_name u) (bu_tenant_id u) (bu_period_start u)
    (bu_period_end u) (bu_billing_metric u) (bu_committed_clean_gbps u) (bu_p95_clean_gbps u)
    (bu_billed_gbps u) (bu_overage_gbps u) (bu_overage_policy u) (bu_sample_count u) (bu_status u)
    (bool_decide (bu_status u = BillingStatus.open)).

Definition usage_list_response (usages : list BillingUsage) : BillingUsageListResponse :=
  mkBillingUsageListResponse (_usage_response <$> usages) (negb (bool_decide (usages = []))).

(** [_PERIOD_PATTERN], on ASCII text. *)
Definition period_matches (period : string) : bool :=
  match py period with
  | [y1; y2; y3; y4; dash; m1; m2] =>
      (49 <=? y1) && (y1 <=? 57) && is_digit y2 && is_digit y3 && is_digit y4 && (dash =? 45) &&
      ((m1 =? 48) && (49 <=? m2) && (m2 <=? 57) || (m1 =? 49) && (48 <=? m2) && (m2 <=? 50))
  | _ => false
  end.

Definition _period_bounds (period : string) : exn + timestamp * timestamp :=
  match split_on 45 (py period) with
  | [year; month] =>
      match month_start (int10 year) (int10 month) with
      | inl e => inl e
      | inr first => month_period first
      end
  | _ => inl (ValueError "not enough values to unpack")
  end.

(** FastAPI answers 422 to a query parameter that does not match. *)
Definition check_period (period : string) : M OSession unit :=
  require (period_matches period) (HTTPException 422 "Validation error").

Section routes.
Context (collate : string → string → bool) (quotes_cr : bool).

(** [order_by(service_name, id)], and the same within descending periods. *)
Definition by_name (u v : BillingUsage) : bool :=
  if bool_decide (bu_service_name u = bu_service_name v) then id_key (bu_id u) <=? id_key (bu_id v)
  else collate (bu_service_name u) (bu_service_name v).
Definition by_period (u v : BillingUsage) : bool :=
  if bu_period_start u =? bu_period_start v then by_name u v
  else bu_period_start v <? bu_period_start u.

Definition sorted_usage (before : BillingUsage → BillingUsage → bool) (l : list BillingUsage)
    : list BillingUsage := merge_sort (fun u v => Is_true (before u v)) l.

(** The clause of a tenant's queries. *)
Definition usage_visible (principal : Principal) (u : BillingUsage) : bool :=
  bool_decide (p_role principal = admin) || bool_decide (bu_tenant_id u = p_tenant_id principal).

Definition check_service (service_id : option uuid) (principal : Principal) : M OSession unit :=
  match service_id with
  | Some sid => core (load_service_for_principal sid principal) ;; mret tt
  | None => mret tt
  end.

Definition list_usage (principal : Principal) (service_id tenant_id : option uuid)
    (period : option string) (status_filter : option BillingStatus.t)
    : M OSession BillingUsageListResponse :=
  match period with Some p => check_period p | None => mret tt end ;;
  check_service service_id principal ;;
  require_tenant principal ;;
  bounds ← match period with
           | Some p => b ← lift (_period_bounds p); mret (Some b)
           | None => mret None
           end;
  o ← get_ops id;
  let usages := sorted_usage by_period (select_where (fun u =>
    usage_visible principal u &&
    (negb (bool_decide (p_role principal = admin)) ||
     opt_clause tenant_id (fun t => bool_decide (bu_tenant_id u = Some t))) &&
    opt_clause service_id (fun s => bool_decide (bu_service_id u = Some s)) &&
    opt_clause bounds (fun b => (bu_period_start u =? b.1) && (bu_period_end u =? b.2)) &&
    opt_clause status_filter (fun s => bool_decide (bu_status u = s))) (billing_usage o)) in
  mret (usage_list_response usages).

Definition usage_history (principal : Principal) (service_id : option uuid) (limit : Z)
    : M OSession BillingUsageListResponse :=
  require ((1 <=? limit) && (limit <=? 100)) (HTTPException 422 "Validation error") ;;
  check_service service_id principal ;;
  require_tenant principal ;;
  o ← get_ops id;
  let usages := take (Z.to_nat limit) (sorted_usage by_period (select_where (fun u =>
    bool_decide (bu_status u = BillingStatus.final) && usage_visible principal u &&
    opt_clause service_id (fun s => bool_decide (bu_service_id u = Some s))) (billing_usage o))) in
  mret (usage_list_response usages).

Definition overage_policy_value (p : OveragePolicy) : string :=
  match p with overage_billed => "billed" | overage_capped => "capped" end.

(** [str(Decimal)] of a [Numeric(10, 2)]. *)
Definition gbps_str (hundredths : Z) : string := dec_str (DecFin hundredths (-2)).

Definition csv_header : list string :=
  ["service"; "tenant"; "period"; "committed"; "p95"; "billed"; "overage"; "overage_policy";
   "sample_count"]%string.

Definition csv_usage (period : string) (row : BillingUsage * option string) : list string :=
  let '(u, tenant_name) := row in
  let tenant := match tenant_name with
                | Some n => if bool_decide (n = ""%string) then default ""%string (uuid_str <$> bu_tenant_id u)
                            else n
                | None => default ""%string (uuid_str <$> bu_tenant_id u)
                end in
  [bu_service_name u; tenant; period; gbps_str (bu_committed_clean_gbps u);
   gbps_str (bu_p95_clean_gbps u); gbps_str (bu_billed_gbps u); gbps_str (bu_overage_gbps u);
   overage_policy_value (bu_overage_policy u); pretty (bu_sample_count u)].

(** The body and the file name. *)
Definition _csv_response (rows : list (BillingUsage * option string)) (period : string)
    : string * string :=
  (write_rows quotes_cr (csv_header :: (csv_usage period <$> rows)),
   ("billing-usage-" +:+ period +:+ ".csv")%string).

Inductive Export := ExportCsv (body filename : string) | ExportJson (r : BillingUsageListResponse).

Definition export_usage (period : string) (csv : bool) (principal : Principal) : M OSession Export :=
  check_period period ;;
  lift (require_admin principal) ;;
  bounds ← lift (_period_bounds period);
  o ← get_ops id;
  tenants ← core (get_db tenants);
  let usages := sorted_usage by_name (select_where (fun u =>
    (bu_period_start u =? bounds.1) && (bu_period_end u =? bounds.2) &&
    bool_decide (bu_status u = BillingStatus.final)) (billing_usage o)) in
  let rows := (fun u => (u, t ← bu_tenant_id u; tenant_name <$> (tenants !! t))) <$> usages in
  if csv then let '(body, filename) := _csv_response rows period in mret (ExportCsv body filename)
  else mret (ExportJson (usage_list_response usages)).
End routes.

(** ** Who sees which bills *)

Definition may_see_usage (p : Principal) (u : BillingUsage) : Prop :=
  p_role p = admin ∨ (is_Some (p_tenant_id p) ∧ bu_tenant_id u = p_tenant_id p).

Lemma usage_visible_may_see p u :
  p_role p = admin ∨ p_tenant_id p ≠ None → usage_visible p u = true ↔ may_see_usage p u.
Proof.
  intros Hp. unfold usage_visible, may_see_usage. rewrite orb_true_iff, !bool_decide_eq_true.
  rewrite <- not_eq_None_Some. tauto.
Qed.

Lemma check_service_run sid p s u s' : check_service sid p s = (inr u, s') → s' = s.
Proof.
  destruct sid as [sid|]; simpl; [|by intros [_ ->]%ret_inr].
  intros H. apply bind_inr in H as (x & s2 & H1 & H2). apply ret_inr in H2 as [_ ->].
  by eapply load_service_unchanged.
Qed.

Lemma opt_clause_true {A} (o : option A) p :
  opt_clause o p = true ↔ ∀ x, o = Some x → p x = true.
Proof.
  destruct o as [x|]; simpl; split; try done; [by intros H y [= <-]|by intros H; apply H].
Qed.

(** The bills a caller is shown are exactly those that match the filters
    and that the caller may see: every bill for an administrator, the bills of
    the own tenant for a tenant user; the history shows closed bills only, and
    neither route changes anything. *)
Theorem billing_listing_confined collate p sid tid status limit s r1 s1 r2 s2 :
  list_usage collate p sid tid None status s = (inr r1, s1) →
  usage_history collate p sid limit s = (inr r2, s2) →
  s1 = s ∧ s2 = s ∧
  (∀ x, x ∈ bul_usage r1 ↔ ∃ i u, x = _usage_response u ∧ billing_usage (ops s) !! i = Some u ∧
     may_see_usage p u ∧ (∀ t, p_role p = admin → tid = Some t → bu_tenant_id u = Some t) ∧
     (∀ i, sid = Some i → bu_service_id u = Some i) ∧ (∀ st, status = Some st → bu_status u = st)) ∧
  (length (bul_usage r2) <= Z.to_nat limit)%nat ∧
  (∀ x, x ∈ bul_usage r2 → ∃ i u, x = _usage_response u ∧ billing_usage (ops s) !! i = Some u ∧
     may_see_usage p u ∧ bu_status u = BillingStatus.final ∧
     (∀ i, sid = Some i → bu_service_id u = Some i)).
Proof.
  intros H1 H2. unfold list_usage in H1. rewrite run_ret in H1.
  apply bind_inr in H1 as (u & s' & ->%check_service_run & H1).
  apply bind_inr in H1 as (u2 & s' & [-> Hp]%require_tenant_run & H1). rewrite run_ret in H1.
  unfold get_ops in H1. rewrite run_gets in H1. cbv zeta in H1. apply ret_inr in H1 as [-> ->].
  unfold usage_history in H2. apply bind_inr in H2 as (u3 & s' & [_ ->]%require_inr & H2).
  apply bind_inr in H2 as (u4 & s' & ->%check_service_run & H2).
  apply bind_inr in H2 as (u5 & s' & [-> _]%require_tenant_run & H2).
  unfold get_ops in H2. rewrite run_gets in H2. cbv zeta in H2. apply ret_inr in H2 as [-> ->].
  split; [done|]. split; [done|]. split; [|split].
  - intros x. cbn [bul_usage usage_list_response]. rewrite list_elem_of_fmap.
    unfold sorted_usage, id. setoid_rewrite (merge_sort_Permutation _ _). setoid_rewrite elem_of_select.
    split.
    + intros (v & -> & Hv & i & Hi). exists i, v. rewrite !andb_true_iff in Hv.
      destruct Hv as ((((Hsee & Ht) & Hs) & _) & Hst). rewrite usage_visible_may_see in Hsee by done.
      rewrite opt_clause_true in Hs. rewrite opt_clause_true in Hst. split_and!; try done.
      * intros t Ha Et. rewrite bool_decide_eq_true_2 in Ht by done. subst tid.
        by apply bool_decide_eq_true in Ht.
      * intros j Hj. by apply Hs, bool_decide_eq_true in Hj.
      * intros st Hj. by apply Hst, bool_decide_eq_true in Hj.
    + intros (i & v & -> & Hi & Hsee & Ht & Hs & Hst). exists v. split; [done|]. split; [|by eauto].
      rewrite !andb_true_iff, usage_visible_may_see, !opt_clause_true by done.
      split_and!; try done.
      * apply orb_true_iff. destruct (bool_decide_reflect (p_role p = admin)) as [Ha|]; [right|by left].
        apply opt_clause_true. intros t Et. by apply bool_decide_eq_true, Ht.
      * intros j Hj. by apply bool_decide_eq_true, Hs.
      * intros j Hj. by apply bool_decide_eq_true, Hst.
  - cbn [bul_usage usage_list_response]. rewrite length_fmap, length_take. lia.
  - intros x. cbn [bul_usage usage_list_response]. rewrite list_elem_of_fmap.
    intros (v & -> & Hv). apply list_elem_of_lookup in Hv as [k Hk]. apply lookup_take_Some in Hk as [Hk _].
    apply list_elem_of_lookup_2 in Hk. unfold sorted_usage, id in Hk. rewrite merge_sort_Permutation in Hk.
    apply elem_of_select in Hk as [Hv (i & Hi)]. rewrite !andb_true_iff in Hv.
    destruct Hv as ((Hf & Hsee) & Hs). rewrite usage_visible_may_see in Hsee by done.
    rewrite opt_clause_true in Hs. apply bool_decide_eq_true in Hf. exists i, v. split_and!; try done.
    intros j Hj. by apply Hs, bool_decide_eq_true in Hj.
Qed.

(** The CSV export is readable: whatever the names of the services and
    tenants contain, a CSV reader finds the header and then one record per bill
    with exactly its nine values. *)
Theorem billing_csv_reads_back quotes_cr rows period :
  read_csv (_csv_response quotes_cr rows period).1 = csv_header :: (csv_usage period <$> rows).
Proof.
  apply read_write_rows. constructor; [done|]. apply Forall_fmap, Forall_true. by intros [u n].
Qed.
