(* ===== verification/TelemetryApi.v ===== *)
(** * The telemetry routes ([api/routers/telemetry.py], [api/schemas/telemetry.py])

    Windows, history, export and the node's health.  The snapshot the reader
    takes during a request is an argument of its route. *)

From S2P Require Import Prelude PyStr Models Db NodeControl Services Api.
From S2P Require Import PyNum OpsModels AlertInv Calendar AlertDispatch AlertSources.
From S2P Require Import TelemetryReader Telemetry TelemetrySpec CsvText AlertApi.
From stdpp Require Import pretty.
Import Deps.
Open Scope Z_scope.

(** ** Schemas *)

Record TelemetryWindowResponse := mkTelemetryWindowResponse {
  tw_has_data : bool;
  tw_clean_pkts : Z;
  tw_clean_bytes : Z;
  tw_drop_pkts : Z;
  tw_drop_bytes : Z;
  tw_drop_by_reason : list (string * Z);
  tw_pps : Z;
  tw_bps : Z;
  tw_top_dst_ports : list (Z * Z);
  tw_top_src : list (string * Z);
  tw_committed_clean_bps : Z;
  tw_committed_honored : option bool;
  tw_window_start : option timestamp;
  tw_window_seconds : Z;
  tw_stale : bool
}.

Record TelemetryWindowPoint := mkTelemetryWindowPoint {
  wp_window_start : timestamp;
  wp_window_seconds : Z;
  wp_clean_pkts : Z;
  wp_clean_bytes : Z;
  wp_drop_pkts : Z;
  wp_drop_bytes : Z;
  wp_pps : Z;
  wp_bps : Z
}.

Record TelemetryHistoryResponse := mkTelemetryHistoryResponse {
  th_has_data : bool;
  th_windows : list TelemetryWindowPoint
}.

Record FeedSyncRunStatusResponse := mkFeedSyncRunStatusResponse {
  frs_id : uuid;
  frs_sequence : Z;
  frs_status : FeedSyncStatus.t;
  frs_started_at : option timestamp;
  frs_finished_at : option timestamp;
  frs_duration_ms : option Z;
  frs_error : option string;
  frs_valid : Z;
  frs_added : Z;
  frs_removed : Z;
  frs_skipped_invalid : Z;
  frs_overlap_count : Z
}.

Record FeedSourceStatusResponse := mkFeedSourceStatusResponse {
  fss_id : uuid;
  fss_name : string;
  fss_enabled : bool;
  fss_last_status : option FeedSyncStatus.t;
  fss_last_error : option string;
  fss_last_sync_at : option timestamp;
  fss_last_run : option FeedSyncRunStatusResponse
}.

Record JobBacklogResponse := mkJobBacklogResponse { jb_queued : Z; jb_applying : Z }.

Record LastApplyResponse := mkLastApplyResponse {
  la_id : uuid;
  la_job_type : JobType.t;
  la_status : JobStatus.t;
  la_error : option string;
  la_created_at : timestamp;
  la_started_at : option timestamp;
  la_finished_at : option timestamp
}.

Record CommittedServiceResponse := mkCommittedServiceResponse {
  cs_service_id : uuid;
  cs_observed_clean_bps : Z;
  cs_committed_clean_bps : Z;
  cs_honored : option bool;
  cs_window_start : option timestamp
}.

Record NodeControlStateResponse := mkNodeControlStateResponse {
  ncs_desired : bool;
  ncs_effective : bool;
  ncs_activated_at : option timestamp;
  ncs_active_seconds : Z
}.

Record NodeHealthResponse := mkNodeHealthResponse {
  nhr_has_data : bool;
  nhr_xdp_mode : XdpMode.t;
  nhr_active_slot : option Z;
  nhr_map_version : option Z;
  nhr_map_error_count : Z;
  nhr_node_clean_bps : Z;
  nhr_node_capacity_bps : Z;
  nhr_window_start : option timestamp;
  nhr_window_seconds : Z;
  nhr_stale : bool;
  nhr_bloom_stats : list (string * jval);
  nhr_committed_services : list CommittedServiceResponse;
  nhr_job_backlog : JobBacklogResponse;
  nhr_last_apply : option LastApplyResponse;
  nhr_feed_sources : list FeedSourceStatusResponse;
  nhr_bypass : NodeControlStateResponse;
  nhr_maintenance : NodeControlStateResponse;
  nhr_bypass_pkts : Z;
  nhr_bypass_bytes : Z;
  nhr_unresolved_services : Z
}.

(** ** Helpers *)

Definition _STALE_AFTER_SECONDS : Z := 4.
Definition _HISTORY_MAX_LIMIT : Z := 1000.

Definition _is_stale (now window_start : timestamp) : bool :=
  _STALE_AFTER_SECONDS * 1000000 <? now - window_start.

(** [max(0, int((now - activated_at).total_seconds()))]. *)
Definition _control_state (now : timestamp) (desired effective : bool)
    (activated_at : option timestamp) : NodeControlStateResponse :=
  mkNodeControlStateResponse desired effective activated_at
    (match activated_at with None => 0 | Some t => Z.max 0 (Z.quot (now - t) 1000000) end).

Definition _snapshot_xdp_mode (snapshot : option TelemetrySnapshot) (fallback : XdpMode.t) : XdpMode.t :=
  match snapshot with None => fallback | Some t => _xdp_mode (ts_xdp_mode t) end.

Definition _telemetry_response (now : timestamp) (counter : option TelemetryCounter)
    (plan : option ServicePlan) : TelemetryWindowResponse :=
  let clean_bps_commitment := committed_clean_bps plan in
  match counter with
  | None =>
      mkTelemetryWindowResponse false 0 0 0 0 [] 0 0 [] [] clean_bps_commitment None None 0 true
  | Some c =>
      mkTelemetryWindowResponse true (tc_clean_pkts c) (tc_clean_bytes c) (tc_drop_pkts c)
        (tc_drop_bytes c) (tc_drop_by_reason c) (tc_pps c) (tc_bps c)
        (default [] (tc_top_dst_ports c)) (default [] (tc_top_src c)) clean_bps_commitment
        (committed_honored (tc_bps c) plan) (Some (tc_window_start c)) (tc_window_seconds c)
        (_is_stale now (tc_window_start c))
  end.

Definition _window_point (c : TelemetryCounter) : TelemetryWindowPoint :=
  mkTelemetryWindowPoint (tc_window_start c) (tc_window_seconds c) (tc_clean_pkts c)
    (tc_clean_bytes c) (tc_drop_pkts c) (tc_drop_bytes c) (tc_pps c) (tc_bps c).

Definition _history_response (windows : list TelemetryCounter) : TelemetryHistoryResponse :=
  mkTelemetryHistoryResponse (negb (bool_decide (windows = [] :> list TelemetryCounter)))
    (_window_point <$> windows).

(** ** Windows *)

Definition service_row (service_id : uuid) (c : TelemetryCounter) : bool :=
  bool_decide (tc_scope c = TelemetryScope.service) &&
  bool_decide (tc_service_id c = Some service_id) && negb (tc_is_baseline c).
Definition node_row (c : TelemetryCounter) : bool :=
  bool_decide (tc_scope c = TelemetryScope.node) && negb (tc_is_baseline c).

(** [order_by(window_start.desc()).limit(limit)]. *)
Definition newest (limit : nat) (row : TelemetryCounter → bool) (o : OpsDb) : list TelemetryCounter :=
  take limit (order_by_desc (fun c => [tc_window_start c]) (select_where row (telemetry_counter o))).

Definition _service_windows (service_id : uuid) (limit : Z) (o : OpsDb) : list TelemetryCounter :=
  reverse (newest (Z.to_nat limit) (service_row service_id) o).
Definition _node_windows (limit : Z) (o : OpsDb) : list TelemetryCounter :=
  reverse (newest (Z.to_nat limit) node_row o).

Definition HistoryLimit (limit : Z) : M OSession unit :=
  require ((1 <=? limit) && (limit <=? _HISTORY_MAX_LIMIT)) (HTTPException 422 "Validation error").

Definition get_service_telemetry (service_id : uuid) (principal : Principal)
    : M OSession TelemetryWindowResponse :=
  core (load_service_for_principal service_id principal) ;;
  o ← get_ops id;
  plans ← core (get_db service_plan);
  now ← core utc_now;
  mret (_telemetry_response now (head (newest 1 (service_row service_id) o)) (plans !! service_id)).

Definition get_node_telemetry (principal : Principal) : M OSession TelemetryWindowResponse :=
  lift (require_admin principal) ;;
  o ← get_ops id;
  now ← core utc_now;
  mret (_telemetry_response now (head (newest 1 node_row o)) None).

Definition get_service_telemetry_history (service_id : uuid) (principal : Principal) (limit : Z)
    : M OSession TelemetryHistoryResponse :=
  HistoryLimit limit ;;
  core (load_service_for_principal service_id principal) ;;
  o ← get_ops id;
  mret (_history_response (_service_windows service_id limit o)).

Definition get_node_telemetry_history (principal : Principal) (limit : Z)
    : M OSession TelemetryHistoryResponse :=
  HistoryLimit limit ;;
  lift (require_admin principal) ;;
  o ← get_ops id;
  mret (_history_response (_node_windows limit o)).

(** ** Export *)

Definition window_header : list string :=
  ["window_start"; "window_seconds"; "clean_pkts"; "clean_bytes"; "drop_pkts"; "drop_bytes"; "pps";
   "bps"]%string.
Definition window_fields (c : TelemetryCounter) : list string :=
  [isoformat (tc_window_start c); pretty (tc_window_seconds c); pretty (tc_clean_pkts c);
   pretty (tc_clean_bytes c); pretty (tc_drop_pkts c); pretty (tc_drop_bytes c); pretty (tc_pps c);
   pretty (tc_bps c)].

Inductive TelemetryExport :=
  | WindowsCsv (body filename : string)
  | WindowsJson (r : TelemetryHistoryResponse).

Section export.
Context (quotes_cr : bool).

Definition _csv_windows (windows : list TelemetryCounter) (label : string) : TelemetryExport :=
  WindowsCsv (write_rows quotes_cr (window_header :: (window_fields <$> windows)))
    ("telemetry-" +:+ label +:+ ".csv")%string.

Definition _export (windows : list TelemetryCounter) (csv : bool) (label : string) : TelemetryExport :=
  if csv then _csv_windows windows label else WindowsJson (_history_response windows).

Definition export_service_telemetry (service_id : uuid) (csv : bool) (principal : Principal)
    (limit : Z) : M OSession TelemetryExport :=
  HistoryLimit limit ;;
  core (load_service_for_principal service_id principal) ;;
  o ← get_ops id;
  mret (_export (_service_windows service_id limit o) csv ("service-" +:+ uuid_str service_id)%string).

Definition export_node_telemetry (csv : bool) (principal : Principal) (limit : Z)
    : M OSession TelemetryExport :=
  HistoryLimit limit ;;
  lift (require_admin principal) ;;
  o ← get_ops id;
  mret (_export (_node_windows limit o) csv "node").
End export.

(** ** The node's health *)

Definition _job_backlog (d : Db) : JobBacklogResponse :=
  mkJobBacklogResponse (count_if (is_status JobStatus.queued) (rows (agent_job d)))
    (count_if (is_status JobStatus.applying) (rows (agent_job d))).

Definition _last_apply (d : Db) : option LastApplyResponse :=
  (fun j => mkLastApplyResponse (job_id j) (job_type j) (job_status j) (job_error j)
              (job_created_at j) (job_started_at j) (job_finished_at j)) <$>
    head (order_by_desc (fun j => [job_created_at j; id_key (job_id j)])
      (select_where (fun j => negb (bool_decide (job_type j = JobType.feed_sync))) (agent_job d))).

Definition _committed_services (d : Db) (o : OpsDb) : list CommittedServiceResponse :=
  let latest := latest_counters o in
  (fun plan =>
     let counter := List.find (fun c => bool_decide (tc_service_id c = Some (plan_service_id plan))) latest in
     mkCommittedServiceResponse (plan_service_id plan) (default 0 (tc_bps <$> counter))
       (committed_clean_bps (Some plan))
       (c ← counter; committed_honored (tc_bps c) (Some plan)) (tc_window_start <$> counter)) <$>
    order_by (fun plan => id_key (plan_service_id plan)) (rows (service_plan d)).

Definition run_status_response (r : FeedSyncRun) : FeedSyncRunStatusResponse :=
  mkFeedSyncRunStatusResponse (run_id r) (run_sequence r) (run_status r) (run_started_at r)
    (run_finished_at r) (run_duration_ms r) (run_error r) (run_valid r) (run_added r)
    (run_removed r) (run_skipped_invalid r) (run_overlap_count r).

Definition _feed_sources (d : Db) : list FeedSourceStatusResponse :=
  let latest := rank_one (fun r r' => bool_decide (run_feed_source_id r = run_feed_source_id r'))
    (fun r => [run_sequence r; id_key (run_id r)]) (rows (feed_sync_run d)) in
  (fun source =>
     let run := List.find (fun r => bool_decide (run_feed_source_id r = feed_id source)) latest in
     mkFeedSourceStatusResponse (feed_id source) (feed_name source) (feed_enabled source)
       (feed_last_status source) (feed_last_error source) (feed_last_sync_at source)
       (run_status_response <$> run)) <$>
    order_by_asc (fun f => [feed_created_at f; id_key (feed_id f)])
      (select_where (fun f => bool_decide (feed_deleted_at f = None)) (threat_feed_source d)).

(** [{nh.dp_id: nh.resolved}.get(dp_id, False)]. *)
Definition hop_resolves (hops : list NextHopEntry) (dp_id : Z) : bool :=
  default false (hop_resolved <$> last (List.filter (fun h => hop_dp_id h =? dp_id) hops)).

Definition unresolved_services (d : Db) (snapshot : option TelemetrySnapshot) : Z :=
  let enabled := svc_dp_id <$> select_where svc_enabled (protected_service d) in
  match snapshot with
  | Some t => count_if (fun dp_id => negb (hop_resolves (ts_nexthops t) dp_id)) enabled
  | None => Z.of_nat (length enabled)
  end.

Definition get_node_health (snapshot : option TelemetrySnapshot) (principal : Principal)
    : M OSession NodeHealthResponse :=
  lift (require_admin principal) ;;
  control ← core get_node_control;
  o ← get_ops id;
  d ← core (get_db id);
  now ← core utc_now;
  let health := head (order_by_desc (fun h => [nh_captured_at h]) (rows (node_health_snapshot o))) in
  let bypass := _control_state now (nc_bypass_enabled control)
    (match snapshot with Some t => ts_bypass_active t | None => false end)
    (nc_bypass_activated_at control) in
  let maintenance := _control_state now (nc_maintenance_enabled control)
    (nc_maintenance_enabled control) (nc_maintenance_activated_at control) in
  let bypass_pkts := match snapshot with Some t => ts_bypass_pkts t | None => 0 end in
  let bypass_bytes := match snapshot with Some t => ts_bypass_bytes t | None => 0 end in
  let live {A} (f : TelemetrySnapshot → A) (fallback : option A) : option A :=
    match snapshot with Some t => Some (f t) | None => fallback end in
  mret match health with
  | None =>
      mkNodeHealthResponse false (_snapshot_xdp_mode snapshot XdpMode.offline)
        (live ts_active_slot None) (live ts_active_version None) 0 0 0 None 0 true []
        (_committed_services d o) (_job_backlog d) (_last_apply d) (_feed_sources d) bypass maintenance
        bypass_pkts bypass_bytes (unresolved_services d snapshot)
  | Some h =>
      mkNodeHealthResponse true (_snapshot_xdp_mode snapshot (nh_xdp_mode h))
        (live ts_active_slot (nh_active_slot h)) (live ts_active_version (nh_map_version h))
        (nh_map_error_count h) (nh_node_clean_bps h) (nh_node_capacity_bps h)
        (Some (nh_captured_at h)) (nh_window_seconds h) (_is_stale now (nh_captured_at h))
        (default [] (nh_bloom_stats h))
        (_committed_services d o) (_job_backlog d) (_last_apply d) (_feed_sources d) bypass maintenance
        bypass_pkts bypass_bytes (unresolved_services d snapshot)
  end.

(** ** The newest windows *)

Lemma sorted_weaken {A} (R R' : A → A → Prop) l :
  (∀ x y, R x y → R' x y) → StronglySorted R l → StronglySorted R' l.
Proof. intros H. induction 1; constructor; [done|]. eapply Forall_impl; eauto. Qed.

Lemma sorted_reverse {A} (R : A → A → Prop) l :
  StronglySorted R l → StronglySorted (fun x y => R y x) (reverse l).
Proof.
  induction 1 as [|x l Hs IH Hx]; [constructor|]. rewrite reverse_cons.
  apply StronglySorted_app_2; [|done|by repeat constructor].
  intros y z Hy ->%list_elem_of_singleton. rewrite elem_of_reverse in Hy.
  by apply (proj1 (Forall_forall _ _) Hx).
Qed.

Lemma newest_spec limit row o :
  let shown := newest limit row o in
  (length shown <= limit)%nat ∧
  StronglySorted (fun c c' => tc_window_start c' <= tc_window_start c) shown ∧
  (∀ c, c ∈ shown → row c = true ∧ ∃ i, telemetry_counter o !! i = Some c) ∧
  (∀ i c, telemetry_counter o !! i = Some c → row c = true →
     c ∈ shown ∨ (length shown = limit ∧ ∀ c', c' ∈ shown → tc_window_start c <= tc_window_start c')).
Proof.
  cbv zeta. unfold newest. set (all := order_by_desc _ _).
  assert (all ≡ₚ select_where row (telemetry_counter o)) as Hp by apply merge_sort_Permutation.
  assert (StronglySorted (fun c c' => tc_window_start c' <= tc_window_start c) all) as Hs.
  { eapply sorted_weaken; [|apply (StronglySorted_merge_sort _)].
    intros c c'. unfold lex_ge. rewrite Is_true_true. simpl. lia. }
  clearbody all. split_and!.
  - rewrite length_take. lia.
  - rewrite <- (take_drop limit all) in Hs. by apply StronglySorted_app_1_l in Hs.
  - intros c Hc. apply elem_of_select. rewrite <- Hp, <- (take_drop limit all). apply elem_of_app. by left.
  - intros i c Hi Hr. assert (c ∈ all) as Hc by (rewrite Hp; apply elem_of_select; eauto).
    rewrite <- (take_drop limit all) in Hc, Hs.
    apply elem_of_app in Hc as [?|Hd]; [by left|right]. split.
    + rewrite length_take. destruct (decide (limit < length all)%nat) as [|Hge]; [lia|].
      rewrite drop_ge in Hd by lia. by apply not_elem_of_nil in Hd.
    + intros c' Hc'. 
      by apply (StronglySorted_app_1_elem_of _ _ _ c' c Hs).
Qed.

Lemma load_service_owned sid p s svc s' :
  core (load_service_for_principal sid p) s = (inr svc, s') →
  ∃ svc, protected_service (os_db s) !! sid = Some svc ∧
    (p_role p = admin ∨ p_tenant_id p = Some (svc_tenant_id svc)).
Proof.
  intros (t & H & _)%core_inr. unfold load_service_for_principal in H.
  apply bind_inr in H as (m & s1 & [-> ->]%gets_inr & H).
  apply bind_inr in H as (x & s1 & [Hx ->]%get_or_raise_inr & H). exists x. split; [done|].
  unfold authorize_tenant_resource in H. case_bool_decide; [by left|right].
  destruct (p_tenant_id p) as [t'|]; [|done]. case_bool_decide; [by subst|done].
Qed.

(** The history of a service shows its newest windows, oldest first.  A
    tenant user gets it only for a service of the own tenant; the answer has at
    most the number of windows asked for, never a baseline and never a window
    of another service, and every window left out is older than all shown. *)
Theorem telemetry_history_newest sid p limit s r s' :
  get_service_telemetry_history sid p limit s = (inr r, s') →
  s' = s ∧
  (∃ svc, protected_service (os_db s) !! sid = Some svc ∧
     (p_role p = admin ∨ p_tenant_id p = Some (svc_tenant_id svc))) ∧
  ∃ windows, th_windows r = _window_point <$> windows ∧
    (length windows <= Z.to_nat limit)%nat ∧
    StronglySorted (fun c c' => tc_window_start c <= tc_window_start c') windows ∧
    (∀ c, c ∈ windows → service_row sid c = true) ∧
    (∀ i c, telemetry_counter (ops s) !! i = Some c → service_row sid c = true →
       c ∈ windows ∨
       (length windows = Z.to_nat limit ∧ ∀ c', c' ∈ windows → tc_window_start c <= tc_window_start c')).
Proof.
  intros H. unfold get_service_telemetry_history, HistoryLimit in H.
  apply bind_inr in H as (u & s1 & [_ ->]%require_inr & H).
  apply bind_inr in H as (svc & s1 & H1 & H). pose proof (load_service_unchanged _ _ _ _ _ H1) as ->.
  unfold get_ops in H. rewrite run_gets in H. apply ret_inr in H as [-> ->]. split; [done|].
  split; [by eapply load_service_owned|].
  destruct (newest_spec (Z.to_nat limit) (service_row sid) (ops s)) as (Hl & Hs & Hin & Hout).
  exists (_service_windows sid limit (ops s)). unfold _service_windows.
  set (shown := newest _ _ _) in *. clearbody shown. split_and!.
  - done.
  - by rewrite length_reverse.
  - by apply sorted_reverse in Hs.
  - intros c Hc. rewrite elem_of_reverse in Hc. by apply Hin.
  - intros i c Hi Hr. rewrite length_reverse, elem_of_reverse.
    destruct (Hout i c Hi Hr) as [?|[? Hold]]; [by left|right]. split; [done|].
    intros c' Hc'. rewrite elem_of_reverse in Hc'. by apply Hold.
Qed.
