(* ===== verification/MeterDemo.v ===== *)
(** * Metering on concrete worlds

    One service with a plan of 2 Gbit/s: a telemetry window, the bills around a
    month's end, and a sample that no bill counts. *)

From S2P Require Import Prelude Ipaddress PyStr Models Db PyNum OpsModels.
From S2P Require Import AlertInv Calendar AlertDispatch TelemetryReader Telemetry TelemetrySpec.
From S2P Require Import Billing BillingSpec CsvText BillingApi TelemetryApi Api.
Import Deps.
Open Scope Z_scope.

Definition meter_service : ProtectedService :=
  mkProtectedService 2 7 1 "web" (Net 167772160 24) allow_rule_only true None None None None
    ApplyStatus.active 1 (Some 1) None 0 0.

(** 2026-02-01T00:00:00Z. *)
Definition february : timestamp := 1769904000000000.
Definition seconds (n : Z) : Z := n * 1000000.

Definition meter_db : Db :=
  empty_db <| tenants := {[1%positive := mkTenant 1 "acme" tenant_active 0]} |>
           <| protected_service := {[2%positive := meter_service]} |>
           <| service_plan := {[2%positive := mkServicePlan 2 200 1000 "p95_clean_bps" overage_billed]} |>
           <| uuid_supply := 100%positive |> <| clock := february - seconds 900 |>.

(** The clean counter of the service, [t] seconds after the data plane started. *)
Definition reading (t clean_bytes : Z) : TelemetrySnapshot :=
  mkTelemetrySnapshot (t * 1000000000) 0 1 "native" 1 1 (mkNodeCounters [] [] [])
    [mkServiceCounters 7 (clean_bytes / 1000) clean_bytes 0 0 []] [] false 0 0 false.

Definition meter_world : OWorld := mkOWorld (mkWorld meter_db [] true [] []) empty_ops [].

(** ** The 95th percentile *)

(** Twenty samples: the 19th smallest is the percentile. *)
Definition twenty_samples : list Z := Z.of_nat <$> seq 1 20.

Lemma p95_is_nearest_rank_witness :
  p95_nearest_rank twenty_samples = inr 19 ∧
  ∃ p, p95_nearest_rank twenty_samples = inr p ∧ p ∈ twenty_samples ∧
    95 * 20 <= 100 * Z.of_nat (length (filter (fun x => x <= p) twenty_samples)) ∧
    100 * Z.of_nat (length (filter (fun x => x < p) twenty_samples)) < 95 * 20.
Proof.
  split; [vm_compute; reflexivity|].
  apply (p95_is_nearest_rank twenty_samples).
  assert (length twenty_samples = 20%nat) as -> by reflexivity. unfold max_samples. lia.
Defined.

Lemma month_periods_partition_witness :
  month_period (february - 1) = inr (february - seconds 2678400, february) ∧
  (∀ s' e', month_period february = inr (s', e') →
     s' = february ∧ previous_period february = inr (february - seconds 2678400, february)).
Proof.
  split; [vm_compute; reflexivity|].
  destruct (month_periods_partition (february - 1) (february - seconds 2678400) february)
    as (_ & _ & H); [vm_compute; reflexivity|exact H].
Defined.

(** ** A telemetry window *)

Definition lane_config : AggregatorConfig := mkAggregatorConfig 2 3600 1000 60 5.
(** Two readings: the known service 7 passes and drops packets, its reasons
    grow, and service 8 is not in the database. *)
Definition reading_before : TelemetrySnapshot :=
  mkTelemetrySnapshot 0 0 1 "native" 1 1 (mkNodeCounters [("not_allowed", 5)]%string [] [])
    [mkServiceCounters 7 10 1000 4 400 [("not_allowed", 4)]%string] [] false 0 0 false.
Definition reading_after : TelemetrySnapshot :=
  mkTelemetrySnapshot 2000000000 0 1 "native" 1 1
    (mkNodeCounters [("not_allowed", 9); ("map_error", 3)]%string [] [])
    [mkServiceCounters 7 60 6000 7 900 [("not_allowed", 6); ("blacklist", 1)]%string;
     mkServiceCounters 8 2 200 1 100 []] [] false 0 0 false.
Definition lane_start_world : AggWorld :=
  mkAggWorld meter_world (mkTelemetryAggregator (Some reading_before) []).
Definition lane_after_window : AggWorld := Eval vm_compute in
  (aggregate_once lane_config (Some reading_after) lane_start_world).2.

Definition figures (r : TelemetryCounter) : list Z * list (string * Z) :=
  ([tc_clean_pkts r; tc_clean_bytes r; tc_drop_pkts r; tc_drop_bytes r; tc_pps r; tc_bps r],
   tc_drop_by_reason r).

Example window_figures :
  (fun scope => figures <$> select_where (fun r => bool_decide (tc_scope r = scope))
    (telemetry_counter (ow_ops (agw_world lane_after_window)))) <$>
    [TelemetryScope.service; TelemetryScope.node] =
  [[([50; 5000; 3; 500; 25; 20000], [("not_allowed", 2); ("blacklist", 1)])];
   [([52; 5200; 4; 600; 26; 20800], [("not_allowed", 4); ("map_error", 3)])]]%string.
Proof. vm_compute. reflexivity. Qed.

Lemma telemetry_window_recorded_witness :
  ta_previous (agw_lane lane_after_window) = Some reading_after ∧
  window_rows lane_config (Some reading_before) reading_after (february - seconds 900) meter_db
    ∅ (telemetry_counter (ow_ops (agw_world lane_after_window))).
Proof.
  destruct (telemetry_window_recorded lane_config reading_after lane_start_world lane_after_window)
    as [H|[H _]].
  - done.
  - vm_compute. reflexivity.
  - exact H.
  - exfalso. revert H. vm_compute. congruence.
Defined.

(** ** Bills *)

Definition bills_of (s : MeterWorld) : list BillingUsage := rows (billing_usage (ow_ops (mw_world s))).
Definition at_clock (t : timestamp) (s : MeterWorld) : MeterWorld :=
  s <| mw_world := mw_world s <| ow_world := ow_world (mw_world s)
        <| w_db := ow_db (mw_world s) <| clock := t |> |> |> |>.
Definition meter_run (m : M MeterWorld unit) (s : MeterWorld) : MeterWorld := (m s).2.

(** A first reading, and 300 s later one with 150 GB more: 4 Gbit/s. *)
Definition meter0 : MeterWorld := Eval vm_compute in
  at_clock (february - seconds 600)
    (meter_run (billing_tick 400 (Some (reading 0 0))) (mkMeterWorld meter_world new_meter)).
Definition meter1 : MeterWorld := Eval vm_compute in
  meter_run (billing_tick 400 (Some (reading 300 150000000000))) meter0.

Example bill_after_first_sample :
  (fun u => (bu_sample_count u, bu_p95_clean_gbps u, bu_billed_gbps u, bu_overage_gbps u,
             bu_status u)) <$> bills_of meter1 = [(1, 400, 400, 200, BillingStatus.open)].
Proof. vm_compute. reflexivity. Qed.

Lemma ledger_ok_tick days read s s' :
  ledger_ok (billing_usage (ow_ops (mw_world s))) → meter_run (billing_tick days read) s = s' →
  ledger_ok (billing_usage (ow_ops (mw_world s'))).
Proof. intros H <-. apply (billing_tick_step days read s), H. Qed.

Lemma ledger_ok_empty : ledger_ok ∅.
Proof. by split; intros *; rewrite lookup_empty. Qed.

Lemma meter0_ledger : ledger_ok (billing_usage (ow_ops (mw_world meter0))).
Proof.
  change (ledger_ok (billing_usage (ow_ops (mw_world (at_clock (february - seconds 900) meter0))))).
  apply (ledger_ok_tick 400 (Some (reading 0 0)) (mkMeterWorld meter_world new_meter)).
  - exact ledger_ok_empty.
  - vm_compute. reflexivity.
Qed.
Lemma meter1_ledger : ledger_ok (billing_usage (ow_ops (mw_world meter1))).
Proof.
  apply (ledger_ok_tick 400 (Some (reading 300 150000000000)) meter0); [exact meter0_ledger|].
  vm_compute. reflexivity.
Qed.

Lemma meter_services_keyed (i : uuid) r :
  protected_service meter_db !! i = Some r → svc_id r = i.
Proof.
  change (protected_service meter_db) with ({[2%positive := meter_service]} : gmap uuid ProtectedService).
  intros [<- <-]%lookup_singleton_Some. reflexivity.
Qed.

Definition closing : MeterWorld := Eval vm_compute in at_clock (february + seconds 1) meter1.

Lemma billing_ledger_invariant_witness :
  bu_status <$> bills_of (billing_tick 400 None closing).2 =
    [BillingStatus.open; BillingStatus.final] ∧
  ledger_ok (billing_usage (ow_ops (mw_world (billing_tick 400 None closing).2))).
Proof.
  split; [vm_compute; reflexivity|].
  apply (billing_ledger_invariant 400 None closing). exact meter1_ledger.
Defined.

(** The refresh of the tick that made [meter1]. *)
Definition sampled : MeterWorld := Eval vm_compute in
  meter_run (sample_once (Some (reading 300 150000000000))) meter0.
Definition refreshed : MeterWorld := Eval vm_compute in meter_run refresh_open_periods sampled.

Lemma open_bill_reflects_month_witness :
  billing_usage (ow_ops (mw_world refreshed)) = billing_usage (ow_ops (mw_world sampled)) ∨
  ∀ i r, protected_service (ow_db (mw_world sampled)) !! i = Some r →
    bill_of (ow_ops (mw_world sampled)) (february - seconds 2678400, february)
      (mkServiceCacheEntry r (svc_tenant_id r) (service_plan (ow_db (mw_world sampled)) !! i))
      (billing_usage (ow_ops (mw_world refreshed))).
Proof.
  apply (open_bill_reflects_month sampled refreshed (february - seconds 2678400, february)).
  - exact meter_services_keyed.
  - exact meter0_ledger.
  - vm_compute. reflexivity.
  - vm_compute. reflexivity.
Defined.

(** ** The sample at the end of the month *)

(** The clock reaches the new month between the sampling and the refresh of one
    tick: the January bill closes with one sample while two were taken. *)
Definition boundary_tick (read : option TelemetrySnapshot) (before after : timestamp)
    (s : MeterWorld) : MeterWorld :=
  meter_run finalize_due_periods (meter_run refresh_open_periods
    (at_clock after (meter_run (sample_once read) (at_clock before s)))).

Definition past_boundary : MeterWorld := Eval vm_compute in
  boundary_tick (Some (reading 600 450000000000)) (february - 1) (february + 1) meter1.

Theorem boundary_sample_unbilled :
  ∃ i u, billing_usage (ow_ops (mw_world past_boundary)) !! i = Some u ∧
    bu_period_end u = february ∧ bu_status u = BillingStatus.final ∧ bu_sample_count u = 1 ∧
    bu_billed_gbps u = 400 ∧
    merge_sort Z.le (month_samples (ow_ops (mw_world past_boundary)) 2 (bu_period_start u, february)) =
      [500000000; 1000000000].
Proof.
  exists 100%positive. eexists. split; [vm_compute; reflexivity|].
  split_and!; vm_compute; reflexivity.
Qed.

(** ** Reading the tables *)

Definition demo_reader : Principal := mkPrincipal 5 "alice" tenant_user (Some 1%positive) "s".
Definition reader_session (w : OWorld) : OSession :=
  mkOSession (new_session (ow_db w)) (ow_ops w) (ow_outbox w).
Definition bill_session : OSession := Eval vm_compute in reader_session (mw_world past_boundary).
Definition window_session : OSession := Eval vm_compute in reader_session (agw_world lane_after_window).

Definition demo_list := Eval vm_compute in
  (list_usage String.leb demo_reader (Some 2%positive) None None (Some BillingStatus.final) bill_session).1.
Definition demo_usage_history := Eval vm_compute in
  (usage_history String.leb demo_reader (Some 2%positive) 1 bill_session).1.
Definition demo_history : TelemetryHistoryResponse := Eval vm_compute in
  match (get_service_telemetry_history 2 demo_reader 10 window_session).1 with
  | inr r => r
  | inl _ => mkTelemetryHistoryResponse false []
  end.

Lemma billing_listing_confined_witness :
  ∃ r1 r2, demo_list = inr r1 ∧ demo_usage_history = inr r2 ∧
  (∀ x, x ∈ bul_usage r2 → ∃ i u, x = _usage_response u ∧
     billing_usage (ops bill_session) !! i = Some u ∧ may_see_usage demo_reader u ∧
     bu_status u = BillingStatus.final ∧
     (∀ i, Some 2%positive = Some i → bu_service_id u = Some i)).
Proof.
  eexists _, _. split; [reflexivity|]. split; [reflexivity|].
  eapply (billing_listing_confined String.leb demo_reader (Some 2%positive) None
    (Some BillingStatus.final) 1 bill_session _ bill_session _ bill_session).
  - vm_compute. reflexivity.
  - vm_compute. reflexivity.
Defined.

Lemma telemetry_history_newest_witness :
  length (th_windows demo_history) = 1%nat ∧
  ∃ windows, th_windows demo_history = _window_point <$> windows ∧
    (∀ c, c ∈ windows → service_row 2 c = true).
Proof.
  split; [reflexivity|].
  destruct (telemetry_history_newest 2 demo_reader 10 window_session demo_history window_session)
    as (_ & _ & windows & Hw & _ & _ & Hr & _).
  - vm_compute. reflexivity.
  - exists windows. split; [exact Hw|exact Hr].
Defined.
