(* ===== verification/WorkerLoop.v ===== *)
(** * The worker loop ([worker/worker.py], [worker/feed_coordinator.py])

    One process takes jobs from Redis, sweeps the ledger when Redis is silent
    or unreachable, and keeps at most one feed download in flight.  [run] is
    given by its two loop bodies: [startup_iteration] and [main_iteration].

    What an [await] may meet is the argument [it] of a body: which of the awaited
    tasks are done, whether the database answers, the loop's clock and whether
    the stop event is set.  A body runs the in-flight task to its end; a task that outlives
    the shutdown grace period is the crash of [System].  Delays are in
    microseconds, in which doubling is exact. *)

From S2P Require Import Prelude PyStr Models Db FeedJobs Feeds Applier FeedRunner Processor.
Open Scope Z_scope.

(** ** [FeedCoordinator] *)

(** The body or the error of the fetch. *)
Record FeedFetchCompletion := mkFeedFetchCompletion {
  fc_job : AgentJob;
  fc_source_id : uuid;
  fc_started : Z;
  fc_fetched : exn + list Z
}.

Record FetchTask := mkFetchTask {
  ft_job : AgentJob;
  ft_source : ThreatFeedSource;
  ft_started : Z;
  ft_done : bool
}.

Record FeedCoordinator := mkFeedCoordinator {
  fco_active_job : option AgentJob;
  fco_fetch_task : option FetchTask;
  fco_completion_queue : list FeedFetchCompletion
}.

#[global] Instance FetchTask_eta : Eta FetchTask := MkEta (fun r =>
  mkFetchTask (ft_job r) (ft_source r) (ft_started r) (ft_done r)).
#[global] Instance FeedCoordinator_eta : Eta FeedCoordinator := MkEta (fun r =>
  mkFeedCoordinator (fco_active_job r) (fco_fetch_task r) (fco_completion_queue r)).

Definition new_coordinator : FeedCoordinator := mkFeedCoordinator None None [].

Module Coordinator.
Definition busy (c : FeedCoordinator) : bool := bool_decide (is_Some (fco_active_job c)).

(** The accessor of the running task. *)
Definition fetch_task (c : FeedCoordinator) : exn + FetchTask :=
  match fco_fetch_task c with
  | None => inl (RuntimeError "feed fetch is not running")
  | Some t => inr t
  end.

Definition start (job : AgentJob) (source : ThreatFeedSource) (now : Z) (c : FeedCoordinator)
    : bool * FeedCoordinator :=
  if busy c then (false, c)
  else (true, c <| fco_active_job := Some job |>
                <| fco_fetch_task := Some (mkFetchTask job source now false) |>).

(** [_completion_queue.get()], when there is something to get. *)
Definition next_completion (c : FeedCoordinator) : option (FeedFetchCompletion * FeedCoordinator) :=
  match fco_completion_queue c with
  | [] => None
  | x :: q => Some (x, c <| fco_completion_queue := q |>)
  end.

Definition release (completion : FeedFetchCompletion) (c : FeedCoordinator) : exn + FeedCoordinator :=
  match fco_active_job c with
  | Some job =>
      if bool_decide (job_id job = job_id (fc_job completion))
      then inr (c <| fco_active_job := None |> <| fco_fetch_task := None |>)
      else inl (RuntimeError "feed completion does not own the active fetch slot")
  | None => inl (RuntimeError "feed completion does not own the active fetch slot")
  end.

(** [_run_fetch] coming to its end with what the fetch returned or raised. *)
Definition _run_fetch (fetched : exn + list Z) (c : FeedCoordinator) : FeedCoordinator :=
  match fco_fetch_task c with
  | Some t =>
      if ft_done t then c
      else c <| fco_fetch_task := Some (t <| ft_done := true |>) |>
             <| fco_completion_queue := fco_completion_queue c ++
                  [mkFeedFetchCompletion (ft_job t) (feed_id (ft_source t)) (ft_started t) fetched] |>
  | None => c
  end.
End Coordinator.

(** ** The state of the loop *)

Record Loop := mkLoop {
  lp_world : World;
  lp_coordinator : option FeedCoordinator;       (* [None] without a feed runner *)
  lp_backoff : option Z;
  lp_redis_degraded : bool;
  lp_reconcile_requested : bool;                 (* the event of the node-control lane *)
  lp_next_reconcile : Z
}.

#[global] Instance Loop_eta : Eta Loop := MkEta (fun r =>
  mkLoop (lp_world r) (lp_coordinator r) (lp_backoff r) (lp_redis_degraded r)
    (lp_reconcile_requested r) (lp_next_reconcile r)).

Record LoopSettings := mkLoopSettings {
  worker_reconcile_interval : Z;
  worker_backoff_initial : Z;
  worker_backoff_max : Z
}.

(** The places where the loop goes to the database. *)
Inductive db_op := OpSchedule | OpReconcile | OpFindFeed | OpStartFeed | OpComplete | OpJobType | OpProcess.

Record Iteration := mkIteration {
  it_now : Z;                              (* the loop's clock when it compares *)
  it_after : Z;                            (* and after a reconciliation *)
  it_stop : bool;                          (* the stop event is set during the wait *)
  it_pop : bool;                           (* [brpop] came back during the wait *)
  it_signal : bool;                        (* reconciliation was requested during the wait *)
  it_fetched : option (exn + list Z);      (* the download ended during the wait *)
  it_outage : db_op → bool;                (* the database refuses the connection *)
  it_down : nat → bool;                    (* or drops it at a final mark *)
  it_stopping : bool                       (* the stop event is set while the task runs *)
}.

Inductive outcome := Continue | Stop.

Inductive waited :=
  | WaitRedisError
  | WaitDone (job_id : option uuid) (completion : option FeedFetchCompletion).

Definition on_world {A} (m : M World A) : M Loop A := fun s =>
  let '(r, w) := m (lp_world s) in (r, s <| lp_world := w |>).

Section worker.
Context (sha256 : pystr → string).
Context (xdpgw_apply : World → list Z → HelperOutcome).
Context (fetch_source : World → ThreatFeedSource → exn + list Z).
Context (applier : Applier).
Context (settings : LoopSettings).

(** ** Backing off *)

Definition _next_backoff (current : option Z) : Z :=
  match current with
  | None => Z.min (worker_backoff_initial settings) (worker_backoff_max settings)
  | Some current => Z.min (current * 2) (worker_backoff_max settings)
  end.

Definition _back_off : M Loop unit :=
  modS (fun s => s <| lp_backoff := Some (_next_backoff (lp_backoff s)) |>).

Section iteration.
Context (it : Iteration).

(** A transaction that needs the database. *)
Definition with_db {A} (op : db_op) (m : M World A) : M Loop A :=
  if it_outage it op then raise (OperationalError "connection refused") else on_world m.

Definition is_operational_error (e : exn) : bool :=
  match e with OperationalError _ => true | _ => false end.

Definition _schedule_due_feeds : M Loop unit :=
  failed ← try_except
    (now ← gets (fun s => clock (w_db (lp_world s)));
     with_db OpSchedule (enqueue_due_feed_syncs now DEFAULT_DUE_SOURCE_LIMIT) ;; mret false)
    (fun e => if is_operational_error e then mret true else raise e);
  if (failed : bool) then _back_off else modS (fun s => s <| lp_backoff := None |>).

(** [asyncio.create_task(task)] under [_stop_or_finish]: the loop ends when the
    stop event comes first, and backs off when the database is lost. *)
Definition finish_task (task : M Loop unit) (k : M Loop outcome) : M Loop outcome :=
  if it_stopping it then task ;; mret Stop else
  failed ← try_except (task ;; mret false)
    (fun e => if is_operational_error e then mret true else raise e);
  if (failed : bool) then _back_off ;; mret Continue else k.

Definition reconcile (include_orphans : bool) : M Loop unit :=
  coordinator ← gets lp_coordinator;
  with_db OpReconcile (reconcile_once sha256 xdpgw_apply fetch_source applier (it_down it)
    include_orphans (bool_decide (is_Some coordinator))) ;;
  mret tt.

(** ** The download slot *)

Definition coordinator_busy : M Loop bool :=
  gets (fun s => match lp_coordinator s with Some c => Coordinator.busy c | None => false end).

(** [started] is [time.monotonic()]. *)
Definition coordinator_start (job : AgentJob) (source : ThreatFeedSource) : M Loop bool :=
  c ← gets lp_coordinator;
  match c with
  | None => mret false
  | Some c =>
      let '(ok, c) := Coordinator.start job source (it_now it) c in
      modS (fun s => s <| lp_coordinator := Some c |>) ;;
      mret ok
  end.

Definition _start_feed_fetch (id : uuid) : M Loop bool :=
  busy ← coordinator_busy;
  if (busy : bool) then mret false else
  job ← with_db OpStartFeed (claim_job id);
  match job with
  | None => mret false
  | Some job =>
      require (bool_decide (job_type job = JobType.feed_sync))
        (RuntimeError "feed fetch lane claimed a non-feed job") ;;
      source ← with_db OpStartFeed (load_source_for_fetch job);
      match source with
      | None => with_db OpStartFeed (finish_missing_feed job) ;; mret true
      | Some source =>
          started ← coordinator_start job source;
          require started (RuntimeError "feed fetch lane became unavailable after claim") ;;
          mret true
      end
  end.

(** The oldest queued feed job. *)
Definition next_feed_job (d : Db) : option uuid :=
  head (jobs_with (fun j => has_status JobStatus.queued j &&
                            bool_decide (job_type j = JobType.feed_sync)) d).

Definition _start_next_feed_fetch : M Loop bool :=
  id ← with_db OpFindFeed (gets (fun w => next_feed_job (w_db w)));
  match id with None => mret false | Some id => _start_feed_fetch id end.

Definition coordinator_release (completion : FeedFetchCompletion) : M Loop unit :=
  c ← gets lp_coordinator;
  c ← get_or_raise c (RuntimeError "feed completion arrived without feed dependencies");
  c ← lift (Coordinator.release completion c);
  modS (fun s => s <| lp_coordinator := Some c |>).

(** The [finally] releases the slot whether the processing raised or not. *)
Definition _complete_feed_fetch (completion : FeedFetchCompletion) : M Loop unit :=
  c ← gets lp_coordinator;
  get_or_raise c (RuntimeError "feed completion arrived without feed dependencies") ;;
  try_except
    (with_db OpComplete
       (complete_feed_fetch sha256 xdpgw_apply (fc_job completion) (fc_fetched completion)))
    (fun e => coordinator_release completion ;; raise e) ;;
  coordinator_release completion.

Definition _is_feed_sync_job (id : uuid) : M Loop bool :=
  with_db OpJobType (gets (fun w => match agent_job (w_db w) !! id with
                                    | Some j => bool_decide (job_type j = JobType.feed_sync)
                                    | None => false
                                    end)).

(** ** Waiting *)

Inductive popped := PopError | PopNothing | PopJob (id : uuid).

(** The list's last element; a timeout gives nothing. *)
Definition _brpop : M Loop popped :=
  w ← gets lp_world;
  if negb (w_redis_up w) then mret PopError else
  match last (w_queue w) with
  | None => mret PopNothing
  | Some id =>
      modS (fun s => s <| lp_world := lp_world s <| w_queue := removelast (w_queue (lp_world s)) |> |>) ;;
      mret (PopJob id)
  end.

(** A pop that is not done is cancelled; one that is done together with a task
    that goes first is dropped. *)
Definition pop_task : M Loop popped := if it_pop it then _brpop else mret PopNothing.

Definition pop_result (p : popped) : waited :=
  match p with
  | PopError => WaitRedisError
  | PopNothing => WaitDone None None
  | PopJob id => WaitDone (Some id) None
  end.

Definition _wait_for_pop : M Loop waited :=
  p ← pop_task;
  modS (fun s => s <| lp_reconcile_requested := lp_reconcile_requested s || it_signal it |>) ;;
  requested ← gets lp_reconcile_requested;
  if it_stop it || requested then mret (WaitDone None None) else mret (pop_result p).

(** Getting the completion that is ready, if any. *)
Definition take_completion : M Loop (option FeedFetchCompletion) :=
  c ← gets lp_coordinator;
  match c ≫= Coordinator.next_completion with
  | None => mret None
  | Some (completion, c) => modS (fun s => s <| lp_coordinator := Some c |>) ;; mret (Some completion)
  end.

Definition fetch_ended : M Loop unit :=
  match it_fetched it with
  | None => mret tt
  | Some fetched => modS (fun s => s <| lp_coordinator := Coordinator._run_fetch fetched <$> lp_coordinator s |>)
  end.

Definition _wait_for_work : M Loop waited :=
  p ← pop_task;
  fetch_ended ;;
  completion ← take_completion;
  if it_stop it then mret (WaitDone None None) else
  match completion with
  | Some c => mret (WaitDone None (Some c))
  | None => mret (pop_result p)
  end.

Definition wait_phase : M Loop waited :=
  busy ← coordinator_busy;
  if (busy : bool) then
    ready ← gets (fun s => match lp_coordinator s with Some c => fco_completion_queue c | None => [] end);
    match ready with
    | [] => _wait_for_work
    | _ => completion ← take_completion; mret (WaitDone None completion)
    end
  else _wait_for_pop.

(** ** The loops *)

(** The body of the first [while]: [Stop] with [true] when it is through. *)
Definition startup_iteration : M Loop (outcome * bool) :=
  _schedule_due_feeds ;;
  if it_stopping it then reconcile true ;; mret (Stop, false) else
  failed ← try_except (reconcile true ;; mret false)
    (fun e => if is_operational_error e then mret true else raise e);
  if (failed : bool) then _back_off ;; mret (Continue, false) else
  modS (fun s => s <| lp_next_reconcile := it_after it + worker_reconcile_interval settings |>) ;;
  mret (Continue, true).

(** Redis is unreachable: sweep the ledger at the pace of the backoff. *)
Definition degraded : M Loop outcome :=
  modS (fun s => s <| lp_redis_degraded := true |>) ;;
  _schedule_due_feeds ;;
  finish_task (reconcile false) (_back_off ;; mret Continue).

Definition handle_popped (id : uuid) : M Loop outcome :=
  coordinator ← gets lp_coordinator;
  feed ← match coordinator with Some _ => _is_feed_sync_job id | None => mret false end;
  if (feed : bool) then
    busy ← coordinator_busy;
    (if (busy : bool) then mret false else _start_feed_fetch id) ;;
    mret Continue
  else
    finish_task (with_db OpProcess (process_job sha256 xdpgw_apply fetch_source applier (it_down it) id))
      (mret Continue).

Definition sweep : M Loop outcome :=
  requested ← gets lp_reconcile_requested;
  next ← gets lp_next_reconcile;
  modS (fun s => s <| lp_reconcile_requested := false |>) ;;
  if (it_now it <? next) && negb requested then mret Continue else
  _schedule_due_feeds ;;
  finish_task (reconcile false)
    (modS (fun s => s <| lp_next_reconcile := it_after it + worker_reconcile_interval settings |>) ;;
     mret Continue).

Definition main_iteration : M Loop outcome :=
  coordinator ← gets lp_coordinator;
  busy ← coordinator_busy;
  started ← (if bool_decide (is_Some coordinator) && negb busy then _start_next_feed_fetch
             else mret false);
  if (started : bool) then mret Continue else
  w ← wait_phase;
  match w with
  | WaitRedisError => degraded
  | WaitDone job_id completion =>
      if it_stop it then mret Stop else
      modS (fun s => s <| lp_redis_degraded := false |> <| lp_backoff := None |>) ;;
      match completion, job_id with
      | Some c, _ => finish_task (_complete_feed_fetch c) (mret Continue)
      | None, Some id => handle_popped id
      | None, None => sweep
      end
  end.
End iteration.
End worker.

(** ** Stopping ([Worker.run]'s [finally])

    The tasks that the worker has started are met in some state: they have
    ended, or they go on for some time, or for ever, and end in some way then;
    when they are cancelled they take some time, or for ever, to end. *)
Module Shutdown.

Inductive raised := Exc (e : exn) | TimeoutError | CancelledError.
Inductive task_end := Returned | Raised (r : raised).
Inductive Task :=
  | Finished (e : task_end)
  | Running (rest : option Z) (e : task_end) (after_cancel : option Z) (cancelled : task_end).

(** What is done, in order, and what is waited for, in seconds. *)
Inductive action :=
  | SetStop | RemoveSignals | Waited (seconds : Z) | Cancel | Logged (r : raised)
  | CloseClient | CloseRedis | ClearFeedRunner | ClearNextHop | DisposeEngine.

(** Computations that note what they do and return, raise, or never end
    ([None]). *)
Definition T (A : Type) : Type := list action * option (raised + A).
#[global] Instance T_ret : MRet T := fun _ a => ([], Some (inr a)).
#[global] Instance T_bind : MBind T := fun _ _ k m =>
  match m.2 with
  | None => (m.1, None)
  | Some (inl r) => (m.1, Some (inl r))
  | Some (inr a) => ((m.1 ++ (k a).1)%list, (k a).2)
  end.
Definition act (a : action) : T unit := ([a], Some (inr tt)).
Definition throw {A} (r : raised) : T A := ([], Some (inl r)).
Definition hang {A} : T A := ([], None).
Definition ended (e : task_end) : T unit :=
  match e with Returned => mret tt | Raised r => throw r end.

(** [try: m finally: f]; an exception of [f] replaces that of [m], and [f] is not
    reached when [m] never ends. *)
Definition try_finally {A} (m : T A) (f : T unit) : T A :=
  match m.2, f.2 with
  | None, _ => m
  | Some _, None => ((m.1 ++ f.1)%list, None)
  | Some _, Some (inl r) => ((m.1 ++ f.1)%list, Some (inl r))
  | Some _, Some (inr _) => ((m.1 ++ f.1)%list, m.2)
  end.

(** [except Exception: logger.exception(...)]; [CancelledError] is none. *)
Definition logged (m : T unit) : T unit :=
  match m with
  | (l, Some (inl CancelledError)) => m
  | (l, Some (inl r)) => ((l ++ [Logged r])%list, Some (inr tt))
  | m => m
  end.

Section shutdown.
Context (worker_shutdown_grace_seconds : Z).

Definition in_time (rest : option Z) : bool :=
  match rest with Some n => n <? worker_shutdown_grace_seconds | None => false end.

(** [asyncio.wait_for(asyncio.shield(task), timeout)]: the end of the task, or
    [None] for [TimeoutError], which is also what a task that raises it gives. *)
Definition wait_for (rest : option Z) (e : task_end) : T (option task_end) :=
  if in_time rest then
    act (Waited (Z.max 0 (default 0 rest))) ;;
    match e with Raised TimeoutError => mret None | e => mret (Some e) end
  else act (Waited worker_shutdown_grace_seconds) ;; mret None.

(** [await task] with [CancelledError] passed over; the await has no timeout. *)
Definition _discard_cancelled (left : option Z) (e : task_end) : T unit :=
  match left with
  | None => hang
  | Some n =>
      act (Waited (Z.max 0 n)) ;;
      match e with Raised CancelledError => mret tt | e => ended e end
  end.

(** [task.cancel()] leaves a task that has ended as it is. *)
Definition cancel_and_discard (rest : option Z) (e : task_end) (after_cancel : option Z)
    (cancelled : task_end) : T unit :=
  act Cancel ;;
  if in_time rest then _discard_cancelled (Some 0) e
  else _discard_cancelled after_cancel cancelled.

Definition _finish_inflight (task : option Task) : T unit :=
  match task with
  | None | Some (Finished _) => mret tt
  | Some (Running rest e after_cancel cancelled) =>
      r ← wait_for rest e;
      match r with
      | None => cancel_and_discard rest e after_cancel cancelled
      | Some e => ended e
      end
  end.

Definition _finish_background_lane (task : option Task) : T unit :=
  match task with
  | None => mret tt
  | Some (Finished e) => logged (_discard_cancelled (Some 0) e)
  | Some (Running rest e after_cancel cancelled) =>
      r ← wait_for rest e;
      match r with
      | None => cancel_and_discard rest e after_cancel cancelled
      | Some e => logged (ended e)
      end
  end.

Fixpoint finish_lanes (lanes : list (option Task)) : T unit :=
  match lanes with [] => mret tt | t :: lanes => _finish_background_lane t ;; finish_lanes lanes end.

(** [lanes] are the telemetry, billing, node control, alert, next hop and blocked
    port tasks, [fetch] the task of the feed coordinator. *)
Definition finally_ (inflight : option Task) (lanes : list (option Task)) (fetch : option Task)
    (feed_runner : bool) : T unit :=
  act SetStop ;;
  act RemoveSignals ;;
  _finish_inflight inflight ;;
  try_finally
    (finish_lanes lanes ;;
     _finish_inflight fetch ;;
     (if feed_runner then act CloseClient else mret tt) ;;
     act CloseRedis)
    ((if feed_runner then act ClearFeedRunner else mret tt) ;;
     act ClearNextHop ;;
     act DisposeEngine).
End shutdown.
End Shutdown.
