(* ===== verification/WorkerLoopSpec.v ===== *)
(** * What the worker loop guarantees

    The iterations of the loop as runs of the gateway's transition system, the
    download slot and the pace of retries. *)

From S2P Require Import Prelude PyStr Ipaddress RuleMatch Models Db Apply ApplyInv.
From S2P Require Import PyNum Services Isolation ServicesInv FeedReconcile FeedInv.
From S2P Require Import FeedJobs Feeds Applier ApplierInv Evolution WorkerInv.
From S2P Require Import FeedRunner Processor WorldInv Api ApiInv OpsModels.
From S2P Require Import AlertRules AlertInv System WorkerLoop.
Open Scope Z_scope.

(** ** The job of a download stays a feed job

    Between the claim of a feed job and its completion other transactions
    commit; none of them turns the job into a service job. *)

Section system.
Context (sha256 : pystr → string) (capacity : Decimal) (ncpus : Z).
Context (xdpgw_apply : World → list Z → HelperOutcome).
Context (fetch_source : World → ThreatFeedSource → exn + list Z).

Abbreviation sys_inv := (inv sha256 (fun _ => True)).
Abbreviation sys_step := (step sha256 capacity ncpus xdpgw_apply fetch_source).
Abbreviation sys_reach := (reachable sha256 capacity ncpus xdpgw_apply fetch_source).

Lemma wstep_feed_job w w' ph id :
  sys_inv (w, ph) → wstep sha256 w w' → feed_job (w_db w) id → feed_job (w_db w') id.
Proof. intros [Hs Hf _ _ _] Hw Hj. by eapply jstep_next. Qed.

(** A mark keeps the keys of the jobs. *)
Lemma ledger_step_feed_job P d d' id : ledger_step P d d' → feed_job d id → feed_job d' id.
Proof.
  intros (ps & aj & -> & _ & Hk & _) [Hlt Hns]. split; [done|]. intros j sid Hj Ht. simpl in Hj.
  specialize (Hk id). rewrite Hj in Hk. destruct (agent_job d !! id) as [j0|] eqn:E; [|done].
  injection Hk as Hk. apply (Hns j0 sid E). unfold job_key in Hk. congruence.
Qed.

Lemma mark_once_feed_job jid error w r w' id :
  sys_inv (w, Applied jid error) → mark_once jid error w = (r, w') →
  feed_job (w_db w) id → feed_job (w_db w') id.
Proof.
  intros Hinv H Hid. destruct error as [e|].
  { eapply wstep_feed_job; [exact Hinv|by eapply mark_fail_wkeeps|done]. }
  unfold mark_once, session_scope in H. unfold get_db in H. rewrite run_gets in H.
  cbn [db new_session] in H.
  destruct (agent_job (w_db w) !! jid) as [job|] eqn:Hj.
  2: { by injection H as <- <-. }
  pose proof (sys_job_id _ _ _ _ (inv_sys _ _ _ Hinv) Hj) as Ejid. subst jid.
  match type of H with context [match ?m with _ => _ end] => destruct m as [[e|a] s1] eqn:E end.
  { injection H as <- <-. eapply wstep_feed_job; [exact Hinv| |done]. split; [apply rollback_moves|done]. }
  injection H as <- <-.
  destruct (decide (job_type job = JobType.service_update)) as [Ht|Ht].
  - rewrite Ht in E. simpl in E.
    pose proof (inv_mark_active _ _ _ _ _ _ Hinv E) as Hinv1.
    apply mark_active_marked in E; [|apply Hinv]. apply marked_step in E.
    eapply wstep_feed_job; [exact Hinv1|apply callbacks_wstep|]. simpl.
    by eapply ledger_step_feed_job.
  - eapply lc_succeed_moves in E; [|exact Hj|done].
    assert (wstep sha256 w (run_post_commit_callbacks (post_commit_callbacks s1) (w <| w_db := db s1 |>)))
      as Hw by (etrans; [|apply callbacks_wstep]; by split).
    by eapply wstep_feed_job.
Qed.

Lemma mark_attempts_feed_job down jid error todo attempt w r w' id :
  sys_inv (w, Applied jid error) → mark_attempts down todo attempt jid error w = (r, w') →
  feed_job (w_db w) id → feed_job (w_db w') id.
Proof.
  revert attempt w. induction todo as [|todo IH]; intros attempt w Hinv H Hid.
  - by injection H as <- <-.
  - cbn [mark_attempts] in H. unfold try_except in H.
    match type of H with (let (_, _) := ?m in _) = _ => destruct m as [[e|a] w1] eqn:E end.
    + assert (sys_inv (w1, Applied jid error) ∧ feed_job (w_db w1) id) as [Hinv1 Hid1].
      { destruct (down attempt); [by injection E as <- <-|].
        split; [by eapply inv_mark_once|by eapply mark_once_feed_job]. }
      destruct e; try (by injection H as <- <-).
      destruct (_ =? _)%nat; [by injection H as <- <-|by eapply IH].
    + injection H as <- <-. destruct (down attempt); [done|by eapply mark_once_feed_job].
Qed.

Lemma handle_feed_job_kept jid w r w' id :
  sys_inv (w, Claimed jid) → prepare jid (w_db w) = None →
  run_handler sha256 xdpgw_apply fetch_source (DoubleBufferApplier xdpgw_apply) jid w = (r, w') →
  feed_job (w_db w) id → feed_job (w_db w') id.
Proof.
  intros Hinv Hp H Hid. rewrite run_handler_found in H.
  destruct (agent_job (w_db w) !! jid) as [job|] eqn:Hj; [|by injection H as <- <-].
  pose proof (sys_job_id _ _ _ _ (inv_sys _ _ _ Hinv) Hj) as Ejid. subst jid.
  assert (∀ {A} (m : M World A), (m ;; mret true) w = (r, w') → ∃ r0, m w = (r0, w')) as Hm.
  { intros A m Hm. rewrite bind_run in Hm. destruct (m w) as [[e|a] w1]; injection Hm as <- <-; eauto. }
  apply Hm in H as [r0 H]. destruct (job_target job) as [sid| |] eqn:Ht.
  - assert (job_type job = JobType.service_update) as Etype by (unfold job_type; by rewrite Ht).
    rewrite Etype in H. pose proof (handle_service_split xdpgw_apply _ job sid w Hj Ht) as Hs.
    rewrite Hp in Hs. destruct Hs as [e Hs]. rewrite Hs in H. by injection H as <- <-.
  - unfold job_type in H. rewrite Ht in H. eapply wstep_feed_job; [exact Hinv| |done].
    eapply (handle_feed_jkeeps sha256); [exact H|apply Hinv..|].
    split; [apply (proj1 (inv_fresh _ _ _ Hinv)); by eexists|]. intros j sid Hj'. simplify_eq. congruence.
  - unfold job_type in H. rewrite Ht in H. eapply wstep_feed_job; [exact Hinv| |done].
    by eapply (handle_global_wkeeps sha256).
Qed.

Lemma step_feed_job x y id :
  sys_step x y → sys_inv x → feed_job (w_db x.1) id → feed_job (w_db y.1) id.
Proof.
  intros Hs Hinv Hid. destruct Hs; simpl in *; try done.
  - eapply wstep_feed_job; [exact Hinv|by eapply serve_wkeeps|done].
  - eapply wstep_feed_job; [exact Hinv|by eapply claim_job_wkeeps|done].
  - eapply wstep_feed_job; [exact Hinv|by eapply claim_job_wkeeps|done].
  - assert (w_db w' = w_db w) as ->; [|done]. revert H. unfold run_helper, gets, mbind, M_bind.
    by destruct (xdpgw_apply w payload) as [| |[] ? ?]; intros [= <- <-].
  - by eapply handle_feed_job_kept.
  - by eapply mark_attempts_feed_job.
  - eapply wstep_feed_job; [exact Hinv|by eapply recover_once_wkeeps|done].
  - eapply wstep_feed_job; [exact Hinv| |done]. destruct Hinv. by eapply (complete_fetch_jkeeps sha256).
  - eapply wstep_feed_job; [exact Hinv|by eapply schedule_wkeeps|done].
Qed.

Lemma steps_feed_job x y id :
  rtc sys_step x y → sys_inv x → feed_job (w_db x.1) id → feed_job (w_db y.1) id.
Proof.
  induction 1 as [|x y z Hs _ IH]; [done|]. intros Hinv Hid.
  apply IH; [by eapply step_inv|by eapply step_feed_job].
Qed.

Lemma reach_steps x y : sys_reach x → rtc sys_step x y → sys_reach y.
Proof. intros (x0 & Hi & H1) H2. exists x0. split; [done|by etrans]. Qed.
End system.

(** ** The slot of the coordinator *)

(** A download is running, or it ended and its completion waits; never more
    than one, and always of the job that holds the slot. *)
Definition coordinator_ok (c : FeedCoordinator) : Prop :=
  match fco_active_job c with
  | None => fco_fetch_task c = None ∧ fco_completion_queue c = []
  | Some job => ∃ t, fco_fetch_task c = Some t ∧ ft_job t = job ∧
      if ft_done t then ∃ x, fco_completion_queue c = [x] ∧ fc_job x = job
      else fco_completion_queue c = []
  end.

Lemma new_coordinator_ok : coordinator_ok new_coordinator.
Proof. done. Qed.

Lemma start_ok job source now c :
  coordinator_ok c → coordinator_ok (Coordinator.start job source now c).2.
Proof.
  unfold Coordinator.start, Coordinator.busy. case_bool_decide as Hb; [done|]. intros Hc.
  unfold coordinator_ok in *. destruct (fco_active_job c); [by destruct Hb; eexists|].
  destruct Hc as [_ Hq]. simpl. by eexists.
Qed.

Lemma run_fetch_ok fetched c : coordinator_ok c → coordinator_ok (Coordinator._run_fetch fetched c).
Proof.
  unfold coordinator_ok, Coordinator._run_fetch. destruct (fco_active_job c) as [job|] eqn:Ea.
  - intros (t & Et & Ej & Hq). rewrite Et. destruct (ft_done t) eqn:Ed; [rewrite Ea; exists t; by rewrite Ed|].
    simpl. rewrite Ea, Hq. eexists. split_and!; [done|done|]. simpl. by eexists.
  - intros [Et Hq]. by rewrite Et, Ea.
Qed.

Lemma run_fetch_active fetched c :
  fco_active_job (Coordinator._run_fetch fetched c) = fco_active_job c.
Proof. unfold Coordinator._run_fetch. destruct (fco_fetch_task c) as [t|]; [|done]. by destruct (ft_done t). Qed.

(** The completion was taken off the queue and the slot is still held. *)
Definition taken (x : FeedFetchCompletion) (c : FeedCoordinator) : Prop :=
  fco_active_job c = Some (fc_job x) ∧ fco_completion_queue c = [].

Lemma next_completion_taken c x c' :
  coordinator_ok c → Coordinator.next_completion c = Some (x, c') →
  taken x c' ∧ fco_active_job c' = fco_active_job c.
Proof.
  unfold coordinator_ok, Coordinator.next_completion. destruct (fco_active_job c) as [job|] eqn:Ea.
  - intros (t & _ & _ & Hq). destruct (ft_done t); [destruct Hq as (y & Hq & Ey)|]; rewrite Hq; [|done].
    intros [= <- <-]. unfold taken. simpl. by rewrite Ea, Ey.
  - by intros [_ ->].
Qed.

Lemma release_taken x c : taken x c →
  Coordinator.release x c = inr (c <| fco_active_job := None |> <| fco_fetch_task := None |>) ∧
  coordinator_ok (c <| fco_active_job := None |> <| fco_fetch_task := None |>).
Proof.
  intros [Ea Hq]. unfold Coordinator.release. rewrite Ea, bool_decide_eq_true_2 by done. by split.
Qed.

Section loop.
Context (sha256 : pystr → string) (capacity : Decimal) (ncpus : Z).
Context (xdpgw_apply : World → list Z → HelperOutcome).
Context (fetch_source : World → ThreatFeedSource → exn + list Z).
Context (settings : LoopSettings).

Abbreviation sys_step := (step sha256 capacity ncpus xdpgw_apply fetch_source).
Abbreviation sys_reach := (reachable sha256 capacity ncpus xdpgw_apply fetch_source).
Abbreviation applier := (DoubleBufferApplier xdpgw_apply).
Abbreviation startup := (startup_iteration sha256 xdpgw_apply fetch_source applier settings).
Abbreviation main := (main_iteration sha256 xdpgw_apply fetch_source applier settings).

(** ** The loop among the rest of the system *)

Inductive stage := Starting | Running | Ended.

Definition fresh_loop (w : World) (feeds : bool) (now : Z) : Loop :=
  mkLoop w (if feeds then Some new_coordinator else None) None false false now.

(** Between two bodies the rest of the system acts, a download ends or the
    node-control lane asks for a sweep; an exception that leaves [run], a stop
    and a crash are followed by a new process. *)
Inductive loop_step : Loop * stage → Loop * stage → Prop :=
  | loop_startup it s o through s' :
      startup it s = (inr (o, through), s') →
      loop_step (s, Starting)
        (s', match o with Stop => Ended | Continue => if through : bool then Running else Starting end)
  | loop_main it s o s' :
      main it s = (inr o, s') →
      loop_step (s, Running) (s', match o with Stop => Ended | Continue => Running end)
  | loop_startup_raises it s e s' :
      startup it s = (inl e, s') → loop_step (s, Starting) (s', Ended)
  | loop_main_raises it s e s' :
      main it s = (inl e, s') → loop_step (s, Running) (s', Ended)
  | loop_fetched fetched s st :
      loop_step (s, st)
        (s <| lp_coordinator := Coordinator._run_fetch fetched <$> lp_coordinator s |>, st)
  | loop_request s st : loop_step (s, st) (s <| lp_reconcile_requested := true |>, st)
  | loop_outside s st w :
      sys_step (lp_world s, Idle) (w, Idle) → loop_step (s, st) (s <| lp_world := w |>, st)
  | loop_restart s st feeds now :
      loop_step (s, st) (fresh_loop (lp_world s) feeds now, Starting).

Definition loop_initial (x : Loop * stage) : Prop :=
  ∃ w feeds now, initial (w, Idle) ∧ x = (fresh_loop w feeds now, Starting).
Definition loop_reachable (x : Loop * stage) : Prop := ∃ x0, loop_initial x0 ∧ rtc loop_step x0 x.

(** ** The invariant *)

Definition in_system (s : Loop) : Prop := sys_reach (lp_world s, Idle).

Definition slot_ok (s : Loop) : Prop :=
  ∀ c, lp_coordinator s = Some c →
    coordinator_ok c ∧
    ∀ job, fco_active_job c = Some job → feed_job (w_db (lp_world s)) (job_id job).

(** The state between two bodies, and with a completion in hand. *)
Definition settled (s : Loop) : Prop := in_system s ∧ slot_ok s.
Definition holding (x : FeedFetchCompletion) (s : Loop) : Prop :=
  in_system s ∧ feed_job (w_db (lp_world s)) (job_id (fc_job x)) ∧
  ∃ c, lp_coordinator s = Some c ∧ taken x c.

Abbreviation keeps P := (moves (fun s s' : Loop => P s → P s')).

#[local] Instance keeps_preorder (P : Loop → Prop) : PreOrder (fun s s' => P s → P s').
Proof. split; [by intros s|]. intros s1 s2 s3 H1 H2 H. auto. Qed.

Lemma in_system_steps s w : in_system s → rtc sys_step (lp_world s, Idle) (w, Idle) →
  sys_reach (w, Idle) ∧
  ∀ id, feed_job (w_db (lp_world s)) id → feed_job (w_db w) id.
Proof.
  intros Hs Hst. split; [by eapply reach_steps|]. intros id Hid.
  eapply (steps_feed_job _ _ _ _ _ _ _ _ Hst); [by eapply reachable_inv|done].
Qed.

(** A transaction that is a sequence of steps of the system. *)
Definition steppy {A} (m : M World A) : Prop :=
  ∀ w r w', m w = (r, w') → rtc sys_step (w, Idle) (w', Idle).

Lemma settled_world s w :
  settled s → rtc sys_step (lp_world s, Idle) (w, Idle) → settled (s <| lp_world := w |>).
Proof.
  intros [Hs Hslot] Hst. destruct (in_system_steps s w Hs Hst) as [Hr Hf]. split; [exact Hr|].
  intros c Hc. destruct (Hslot c Hc) as [H1 H2]. split; [done|]. intros job Hj. by apply Hf, H2.
Qed.

Lemma with_db_settled {A} it op (m : M World A) : steppy m → keeps settled (with_db it op m).
Proof.
  intros Hm s Hs. unfold with_db, on_world. destruct (it_outage it op); [done|].
  destruct (m (lp_world s)) as [r w] eqn:E. simpl. apply settled_world; [done|by eapply Hm].
Qed.

Lemma with_db_holding {A} it op (m : M World A) x : steppy m → keeps (holding x) (with_db it op m).
Proof.
  intros Hm s (Hs & Hf & Hc). unfold with_db, on_world. destruct (it_outage it op); [done|].
  destruct (m (lp_world s)) as [r w] eqn:E. simpl.
  destruct (in_system_steps s w Hs) as [Hr Hk]; [by eapply Hm|]. split_and!; [done|by apply Hk|done].
Qed.

Lemma steppy_gets {A} (f : World → A) : steppy (gets f).
Proof. by intros w r w' [= <- <-]. Qed.
Lemma steppy_reconcile down orphans exclude :
  steppy (reconcile_once sha256 xdpgw_apply fetch_source applier down orphans exclude).
Proof. intros w r w' H. by eapply reconcile_once_steps. Qed.
Lemma steppy_process down id :
  steppy (process_job sha256 xdpgw_apply fetch_source applier down id).
Proof. intros w r w' H. by eapply process_steps. Qed.
Lemma steppy_schedule now limit : steppy (enqueue_due_feed_syncs now limit).
Proof. intros w r w' H. apply rtc_once. by eapply step_schedule. Qed.

Lemma steppy_claim id : steppy (claim_job id).
Proof.
  intros w r w' H. destruct r as [e|[job|]].
  - apply rtc_once. by eapply step_skip.
  - eapply rtc_l; [by eapply step_claim|]. apply rtc_once, step_crash.
  - apply rtc_once. by eapply step_skip.
Qed.

(** *** The claimed job *)

Lemma callbacks_job_row cbs w i :
  (fun j => (job_id j, job_target j)) <$> agent_job (w_db (run_post_commit_callbacks cbs w)) !! i =
  (fun j => (job_id j, job_target j)) <$> agent_job (w_db w) !! i.
Proof.
  revert w. induction cbs as [|c cbs IH]; intros w; [done|].
  change (run_post_commit_callbacks (c :: cbs) w) with
    (run_post_commit_callbacks cbs (dispatch w (callback_job c))).
  rewrite IH. assert (w_db (dispatch w (callback_job c)) =
    if w_redis_up w then mark_dispatched (w_db w) (callback_job c) else w_db w) as ->.
  { unfold dispatch. by destruct (w_redis_up w). }
  destruct (w_redis_up w); [|done]. rewrite mark_dispatched_lookup. destruct (agent_job (w_db w) !! i); [|done]. simpl. by case_match.
Qed.

Lemma claim_job_row id w job w' :
  claim_job id w = (inr (Some job), w') →
  ∃ j, agent_job (w_db w') !! id = Some j ∧ job_id j = job_id job ∧ job_target j = job_target job.
Proof.
  unfold claim_job, session_scope. intros H.
  match type of H with context [match ?m with _ => _ end] => destruct m as [[e|a] s1] eqn:E end; [done|].
  injection H as -> <-. assert (agent_job (db s1) !! id = Some job) as Hj.
  { unfold get_db in E. rewrite run_gets in E. cbn [db new_session] in E.
    destruct (agent_job (w_db w) !! id) as [j0|]; [|done].
    apply bind_inr in E as (held & s2 & _ & E). destruct held; [done|].
    apply bind_inr in E as (p & s3 & _ & E). rewrite run_gets in E. apply ret_inr in E as [E ->].
    by destruct p. }
  pose proof (callbacks_job_row (post_commit_callbacks s1) (w <| w_db := db s1 |>) id) as Hr.
  simpl in Hr. rewrite Hj in Hr. simpl in Hr. apply fmap_Some in Hr as (j & -> & [= -> ->]). eauto.
Qed.

Lemma load_source_read job w :
  ∃ o, load_source_for_fetch job w = (inr o, w) ∧
    ∀ job', job_target job' = job_target job → load_source_for_fetch job' w = (inr o, w).
Proof.
  unfold load_source_for_fetch, _load_run_and_source.
  assert (∀ j', job_target j' = job_target job → feed_sync_run_id j' = feed_sync_run_id job) as Hf.
  { intros j' E. unfold feed_sync_run_id. by rewrite E. }
  destruct (feed_sync_run_id job) as [rid|] eqn:Er.
  - eexists. split; [rewrite bind_run; erewrite scope_read by reflexivity; reflexivity|].
    intros j' E. rewrite (Hf j' E), bind_run. erewrite scope_read by reflexivity. reflexivity.
  - exists None. split; [done|]. intros j' E. by rewrite (Hf j' E).
Qed.

(** Closing the run of a missing feed never raises. *)
Lemma finish_noop_inr job run s : ∃ s', _finish_noop job run s = (inr tt, s').
Proof. unfold _finish_noop. destruct run; eexists; reflexivity. Qed.

Lemma locked_job_run {B} id (k : option AgentJob → M Session B) s :
  (_locked_job id ≫= k) s = k (agent_job (db s) !! id) s.
Proof. done. Qed.
Lemma locked_run_run {B} o (k : option FeedSyncRun → M Session B) s :
  (_locked_run o ≫= k) s = k (o ≫= fun r => feed_sync_run (db s) !! r) s.
Proof. done. Qed.
Lemma locked_source_run {B} id (k : option ThreatFeedSource → M Session B) s :
  (_locked_feed_source id ≫= k) s = k (threat_feed_source (db s) !! id) s.
Proof. done. Qed.

Lemma with_running_returns job k s :
  (∀ j run src s0, ∃ s', k j run src s0 = (inr tt, s')) →
  ∃ s', FeedSyncJobLifecycle.with_running job k s = (inr tt, s').
Proof.
  intros Hk. unfold FeedSyncJobLifecycle.with_running. rewrite locked_job_run.
  destruct (agent_job (db s) !! job_id job) as [lj|]; [|by eexists].
  destruct (is_terminal _); [by eexists|]. destruct (negb _); [by eexists|].
  rewrite locked_run_run. destruct (feed_sync_run_id lj ≫= _) as [run|]; [|apply finish_noop_inr].
  rewrite locked_source_run.
  destruct (threat_feed_source (db s) !! run_feed_source_id run) as [src|]; [|apply finish_noop_inr].
  destruct (is_deleted src); [apply finish_noop_inr|]. destruct (negb _); [by eexists|]. apply Hk.
Qed.

Lemma finish_missing_inr job w : ∃ w', finish_missing_feed job w = (inr tt, w').
Proof.
  unfold finish_missing_feed, _finish_feed, session_scope, get_db. rewrite run_gets.
  cbn [db new_session]. destruct (agent_job (w_db w) !! job_id job) as [j|]; [|by eexists].
  rewrite run_ret.
  destruct (with_running_returns j (fun locked_job run source =>
    let final_status := default FeedSyncStatus.success (Some FeedSyncStatus.success) in
    require (bool_decide (final_status ∈ [FeedSyncStatus.success; FeedSyncStatus.partial]))
      (ValueError "Feed success outcome must be success or partial") ;;
    finished_at ← utc_now;
    put_job (locked_job <| job_status := JobStatus.succeeded |> <| job_error := None |>
                        <| job_finished_at := Some finished_at |>) ;;
    put_run (run <| run_status := final_status |> <| run_error := None |>
                 <| run_finished_at := Some finished_at |>
                 <| run_duration_ms := _duration_ms (run_started_at run) finished_at |>) ;;
    put_source (FeedSyncJobLifecycle.finish_source source final_status None finished_at))
    (new_session (w_db w))) as [s' E].
  { intros. cbv zeta. rewrite bool_decide_eq_true_2 by (by left). eexists. reflexivity. }
  assert (lc_succeed (JOB_LIFECYCLES JobType.feed_sync) j (Some FeedSyncStatus.success)
    (new_session (w_db w)) = (inr tt, s')) as -> by exact E. by eexists.
Qed.

(** From the claim of a feed job whose source is gone to its closing. *)
Lemma missing_feed_steps id w job w1 w2 :
  sys_reach (w, Idle) → claim_job id w = (inr (Some job), w1) → job_type job = JobType.feed_sync →
  load_source_for_fetch job w1 = (inr None, w1) → finish_missing_feed job w1 = (inr tt, w2) →
  rtc sys_step (w, Idle) (w2, Idle).
Proof.
  intros Hr Hc Ht Hl Hf. destruct (claim_job_row _ _ _ _ Hc) as (j & Hj & Eid & Etgt).
  eapply rtc_l; [by eapply step_claim|].
  assert (run_handler sha256 xdpgw_apply fetch_source applier id w1 = (inr true, w2)) as Hh.
  { rewrite run_handler_found, Hj. unfold job_type in Ht |- *. rewrite Etgt.
    destruct (job_target job) eqn:Et; try done. rewrite bind_run. unfold handle_feed_sync, try_except.
    rewrite bind_run. destruct (load_source_read job w1) as (o & E & Esame).
    rewrite Hl in E. injection E as <-. rewrite (Esame j) by congruence.
    assert (_finish_feed (job_id j) FeedSyncStatus.success None w1 = (inr tt, w2)) as ->; [|done].
    rewrite Eid. exact Hf. }
  apply (handler_steps sha256 capacity ncpus) in Hh. etrans; [exact Hh|]. apply rtc_once, step_crash.
Qed.

Lemma coordinator_start_settled it job source :
  moves (fun s s' => settled s ∧ feed_job (w_db (lp_world s)) (job_id job) → settled s')
    (coordinator_start it job source).
Proof.
  intros s [[Hs Hslot] Hj]. unfold coordinator_start. rewrite run_gets.
  destruct (lp_coordinator s) as [c|] eqn:Ec; [|by split].
  destruct (Coordinator.start job source (it_now it) c) as [ok c'] eqn:Est.
  rewrite run_modS. simpl. split; [exact Hs|]. intros c0 [= <-]. destruct (Hslot c Ec) as [Hok Hact].
  pose proof (start_ok job source (it_now it) c Hok) as Hok'. rewrite Est in Hok'. split; [exact Hok'|].
  intros job' Hj'. unfold Coordinator.start in Est. destruct (Coordinator.busy c); injection Est as <- <-.
  - by apply Hact.
  - simpl in Hj'. by injection Hj' as <-.
Qed.

Lemma claimed_feed_job id w job w1 :
  sys_reach (w1, Idle) → claim_job id w = (inr (Some job), w1) → job_type job = JobType.feed_sync →
  feed_job (w_db w1) (job_id job).
Proof.
  intros Hr Hc Ht. destruct (claim_job_row _ _ _ _ Hc) as (j & Hj & Eid & Etgt).
  pose proof (reachable_inv _ _ _ _ _ (fun _ => True) (fun _ _ _ _ _ => I) _ Hr) as Hinv.
  assert (job_id job = id) as -> by (rewrite <- Eid; by eapply (sys_job_id _ _ _ _ (inv_sys _ _ _ Hinv))).
  split; [apply (proj1 (inv_fresh _ _ _ Hinv)); by eexists|].
  intros j' sid Hj' Ht'. simpl in Hj'. rewrite Hj in Hj'. injection Hj' as <-.
  unfold job_type in Ht. rewrite Etgt in Ht'. by rewrite Ht' in Ht.
Qed.

Lemma start_feed_fetch_settled it id : keeps settled (_start_feed_fetch it id).
Proof.
  intros s Hs. unfold _start_feed_fetch, coordinator_busy. rewrite run_gets.
  destruct (match lp_coordinator s with Some c => Coordinator.busy c | None => false end); [done|].
  unfold with_db. destruct (it_outage it OpStartFeed); [done|]. rewrite bind_run. unfold on_world at 1.
  destruct (claim_job id (lp_world s)) as [rc w1] eqn:Hc.
  pose proof (settled_world s w1 Hs (steppy_claim _ _ _ _ Hc)) as Hs1.
  destruct rc as [e|[job|]]; [exact Hs1| |exact Hs1]. cbv iota.
  destruct (bool_decide_reflect (job_type job = JobType.feed_sync)) as [Ht|]; [|exact Hs1].
  rewrite run_require, bind_run. unfold on_world at 1.
  destruct (load_source_read job w1) as (o & Hl & _). change (lp_world (s <| lp_world := w1 |>)) with w1. rewrite Hl.
  change (s <| lp_world := w1 |> <| lp_world := w1 |>) with (s <| lp_world := w1 |>). destruct o as [source|].
  - rewrite bind_run.
    pose proof (coordinator_start_settled it job source (s <| lp_world := w1 |>)) as Hst.
    destruct (coordinator_start it job source (s <| lp_world := w1 |>)) as [[e|ok] s2] eqn:E.
    all: simpl in Hst; assert (settled s2) as Hs2
      by (apply Hst; split; [exact Hs1|]; eapply claimed_feed_job; [apply Hs1|exact Hc|done]).
    + done.
    + by destruct ok.
  - rewrite bind_run. unfold on_world. destruct (finish_missing_inr job w1) as [w2 Hf].
    change (lp_world (s <| lp_world := w1 |>)) with w1. rewrite Hf. simpl. apply (settled_world s w2 Hs). by eapply missing_feed_steps; try apply Hs.
Qed.

#[local] Hint Resolve with_db_settled with_db_holding steppy_gets steppy_reconcile steppy_process
  steppy_schedule start_feed_fetch_settled : ops.

Abbreviation reconcile_task := (reconcile sha256 xdpgw_apply fetch_source applier).

Lemma schedule_settled it : keeps settled (_schedule_due_feeds settings it).
Proof. unfold _schedule_due_feeds, _back_off. moves_auto. Qed.
Lemma reconcile_settled it orphans : keeps settled (reconcile_task it orphans).
Proof. unfold reconcile. moves_auto. Qed.
#[local] Hint Resolve schedule_settled reconcile_settled : ops.

Lemma finish_task_settled it task k :
  keeps settled task → keeps settled k → keeps settled (finish_task settings it task k).
Proof. intros Ht Hk. unfold finish_task, _back_off. moves_auto. Qed.
#[local] Hint Resolve finish_task_settled : ops.

Lemma start_next_settled it : keeps settled (_start_next_feed_fetch it).
Proof. unfold _start_next_feed_fetch. moves_auto. Qed.
Lemma degraded_settled it :
  keeps settled (degraded sha256 xdpgw_apply fetch_source applier settings it).
Proof.
  unfold degraded. moves_auto. apply finish_task_settled; [by auto with ops|].
  unfold _back_off. moves_auto.
Qed.
Lemma sweep_settled it : keeps settled (sweep sha256 xdpgw_apply fetch_source applier settings it).
Proof.
  unfold sweep. moves_auto. apply finish_task_settled; [by auto with ops|]. moves_auto.
Qed.
Lemma popped_settled it id :
  keeps settled (handle_popped sha256 xdpgw_apply fetch_source applier settings it id).
Proof.
  unfold handle_popped, coordinator_busy, _is_feed_sync_job. moves_auto.
Qed.
#[local] Hint Resolve start_next_settled degraded_settled sweep_settled popped_settled : ops.

Lemma startup_settled it : keeps settled (startup it).
Proof. unfold startup_iteration, _back_off. moves_auto. Qed.

(** *** Completing a download *)

Lemma release_settled x s :
  holding x s → ∃ s', coordinator_release x s = (inr tt, s') ∧ settled s'.
Proof.
  intros (Hs & _ & c & Hc & Ht). destruct (release_taken x c Ht) as [Hrel Hok].
  unfold coordinator_release. rewrite run_gets, Hc, run_get_some, Hrel, run_lift.
  eexists. split; [reflexivity|]. split; [exact Hs|]. intros c0 [= <-]. split; [exact Hok|done].
Qed.

Lemma complete_settled it x s :
  holding x s → settled (_complete_feed_fetch sha256 xdpgw_apply it x s).2.
Proof.
  intros Hh. pose proof Hh as (Hs & Hf & c & Hc & Ht). unfold _complete_feed_fetch.
  rewrite run_gets, Hc, run_get_some, bind_run. unfold try_except.
  assert (∃ r s1, with_db it OpComplete
    (complete_feed_fetch sha256 xdpgw_apply (fc_job x) (fc_fetched x)) s = (r, s1) ∧ holding x s1)
    as (r & s1 & -> & Hh1).
  { unfold with_db. destruct (it_outage it OpComplete); [by eexists _, _|]. unfold on_world.
    destruct (complete_feed_fetch _ _ _ _ (lp_world s)) as [r w] eqn:E. eexists _, _. split; [reflexivity|].
    destruct (in_system_steps s w Hs) as [Hr Hk]; [apply rtc_once; by eapply step_feed_completed|].
    split_and!; [exact Hr|by apply Hk|by exists c]. }
  destruct (release_settled x s1 Hh1) as (s2 & Hrel & Hs2).
  destruct r as [e|u]; [rewrite bind_run|]; by rewrite Hrel.
Qed.

(** *** Waiting *)

Lemma brpop_settled s : settled s → ∃ p s', _brpop s = (inr p, s') ∧ settled s' ∧
  lp_coordinator s' = lp_coordinator s.
Proof.
  intros Hs. unfold _brpop. rewrite run_gets. destruct (negb _); [by eexists _, _|].
  destruct (last _) as [id|]; [|by eexists _, _]. eexists _, _. split; [reflexivity|].
  split; [|done]. apply (settled_world s _ Hs). apply rtc_once.
  pose proof (step_redis sha256 capacity ncpus xdpgw_apply fetch_source (w_redis_up (lp_world s))
    (removelast (w_queue (lp_world s))) (lp_world s) Idle) as H. by destruct (lp_world s).
Qed.

Lemma pop_task_settled it s : settled s → ∃ p s', pop_task it s = (inr p, s') ∧ settled s' ∧
  lp_coordinator s' = lp_coordinator s.
Proof. intros Hs. unfold pop_task. destruct (it_pop it); [by apply brpop_settled|by eexists _, _]. Qed.

Lemma fetched_settled fetched s :
  settled s → settled (s <| lp_coordinator := Coordinator._run_fetch fetched <$> lp_coordinator s |>).
Proof.
  intros [Hs Hslot]. split; [exact Hs|]. intros c Hc. simpl in Hc.
  apply fmap_Some in Hc as (c0 & Hc0 & ->). destruct (Hslot c0 Hc0) as [Hok Hact].
  split; [by apply run_fetch_ok|]. intros job. rewrite run_fetch_active. apply Hact.
Qed.

(** What [take_completion] leaves. *)
Definition in_hand (o : option FeedFetchCompletion) (s : Loop) : Prop :=
  match o with Some x => holding x s | None => settled s end.

Lemma in_hand_system o s : in_hand o s → in_system s.
Proof. destruct o; by intros [? ?]. Qed.

Lemma take_completion_run s : settled s → ∃ o s', take_completion s = (inr o, s') ∧ in_hand o s'.
Proof.
  intros Hset. pose proof Hset as [Hs Hslot]. unfold take_completion. rewrite run_gets.
  destruct (lp_coordinator s) as [c|] eqn:Ec; [|by eexists _, _].
  simpl. destruct (Coordinator.next_completion c) as [[x c']|] eqn:En; [|by eexists _, _].
  eexists _, _. split; [reflexivity|]. destruct (Hslot c Ec) as [Hok Hact].
  destruct (next_completion_taken c x c' Hok En) as [Ht Ea]. split_and!; [exact Hs| |by exists c'].
  apply Hact. rewrite <- Ea. apply Ht.
Qed.

(** The wait never raises; unless the loop is to stop it leaves the loop settled
    or with one completion in hand. *)
Lemma wait_phase_run it s :
  settled s → ∃ w s', wait_phase it s = (inr w, s') ∧ in_system s' ∧
    match w with
    | WaitRedisError => it_stop it = false ∧ settled s'
    | WaitDone _ o => it_stop it = false → in_hand o s'
    end.
Proof.
  intros Hs. unfold wait_phase, coordinator_busy. rewrite run_gets.
  destruct (match lp_coordinator s with Some c => Coordinator.busy c | None => false end).
  - rewrite run_gets. destruct (match lp_coordinator s with Some c => _ | None => [] end).
    + unfold _wait_for_work. destruct (pop_task_settled it s Hs) as (p & s1 & E1 & Hs1 & _).
      rewrite bind_run, E1.
      assert (∃ s2, fetch_ended it s1 = (inr tt, s2) ∧ settled s2) as (s2 & E2 & Hs2).
      { unfold fetch_ended. destruct (it_fetched it); eexists; split; [reflexivity| |reflexivity|done].
        by apply fetched_settled. }
      rewrite bind_run, E2. destruct (take_completion_run s2 Hs2) as (o & s3 & E3 & H3).
      rewrite bind_run, E3. pose proof (in_hand_system _ _ H3) as Hsys.
      destruct (it_stop it) eqn:Estop; [by eexists _, _|].
      destruct o as [x|]; [by eexists _, _|]. eexists _, _. split; [reflexivity|]. split; [done|].
      destruct p; [split; [done|exact H3]|intros _; exact H3..].
    + destruct (take_completion_run s Hs) as (o & s3 & E3 & H3). rewrite bind_run, E3.
      eexists _, _. split; [reflexivity|]. split; [by eapply in_hand_system|done].
  - unfold _wait_for_pop. destruct (pop_task_settled it s Hs) as (p & s1 & E1 & Hs1 & _).
    rewrite bind_run, E1, run_modS, run_gets.
    match goal with |- context [it_stop it || ?b] => destruct (it_stop it) eqn:Estop, b end.
    all: simpl; eexists _, _; split; [reflexivity|]; split; [exact (proj1 Hs1)|].
    all: try (intros _; exact Hs1); try done.
    destruct p; [by split|intros _; exact Hs1..].
Qed.

(** *** The bodies *)

Lemma finish_task_from (P : Loop → Prop) it task k s :
  (∀ s, P s → settled (task s).2) → keeps settled k → P s → settled (finish_task settings it task k s).2.
Proof.
  intros Ht Hk Hs. specialize (Ht s Hs). unfold finish_task. destruct (it_stopping it).
  { rewrite bind_run. by destruct (task s) as [[e|u] s1]. }
  rewrite bind_run. unfold try_except. rewrite bind_run.
  destruct (task s) as [[e|u] s1]; simpl in *; [|by apply Hk].
  destruct (is_operational_error e); [|done]. simpl.
  assert (keeps settled (_back_off settings ;; mret Continue)) as Hb by (unfold _back_off; moves_auto).
  by apply Hb.
Qed.

Lemma main_run it s r s' :
  settled s → main it s = (r, s') → in_system s' ∧ (r = inr Continue → settled s').
Proof.
  intros Hs H. unfold main_iteration, coordinator_busy in H. rewrite !run_gets, bind_run in H.
  assert (keeps settled (if bool_decide (is_Some (lp_coordinator s)) &&
    negb match lp_coordinator s with Some c => Coordinator.busy c | None => false end
    then _start_next_feed_fetch it else mret false)) as Hst by moves_auto.
  specialize (Hst s Hs). match type of H with (let (_, _) := ?m in _) = _ => destruct m as [[e|started] s1] end.
  { injection H as <- <-. by split; [apply Hst|]. }
  simpl in Hst. destruct started; [injection H as <- <-; by split; [apply Hst|]|].
  destruct (wait_phase_run it s1 Hst) as (w & s2 & E & Hsys & Hw). rewrite bind_run, E in H.
  assert (∀ (m : M Loop outcome) s0, settled (m s0).2 → m s0 = (r, s') →
    in_system s' ∧ (r = inr Continue → settled s')) as Hdone.
  { intros m s0 Hm Em. rewrite Em in Hm. by split; [apply Hm|]. }
  destruct w as [|jid o].
  { destruct Hw as [_ Hw]. eapply Hdone; [|exact H]. by apply degraded_settled. }
  destruct (it_stop it); [injection H as <- <-; by split|]. specialize (Hw eq_refl).
  rewrite run_modS in H. destruct o as [x|].
  - eapply Hdone; [|exact H]. apply (finish_task_from (holding x)); [apply complete_settled|moves_auto|].
    exact Hw.
  - destruct jid as [id|]; (eapply Hdone; [|exact H]); [apply popped_settled|apply sweep_settled]; exact Hw.
Qed.

Definition loop_inv (x : Loop * stage) : Prop := in_system x.1 ∧ (x.2 ≠ Ended → settled x.1).

Lemma fresh_settled w feeds now : sys_reach (w, Idle) → settled (fresh_loop w feeds now).
Proof.
  intros Hw. split; [exact Hw|]. intros c Hc. simpl in Hc. destruct feeds; [|done]. by injection Hc as <-.
Qed.

Lemma loop_step_inv x y : loop_step x y → loop_inv x → loop_inv y.
Proof.
  intros Hst [Hsys Hset]. destruct Hst; simpl in *.
  - pose proof (startup_settled it s (Hset ltac:(done))) as Hs. rewrite H in Hs. split; [apply Hs|done].
  - destruct (main_run it s _ _ (Hset ltac:(done)) H) as [H1 H2]. split; [done|].
    destruct o; [by intros _; apply H2|done].
  - pose proof (startup_settled it s (Hset ltac:(done))) as Hs. rewrite H in Hs. split; [apply Hs|done].
  - destruct (main_run it s _ _ (Hset ltac:(done)) H) as [H1 _]. by split.
  - split; [exact Hsys|]. intros Hne. by apply fetched_settled, Hset.
  - split; [exact Hsys|]. intros Hne. exact (Hset Hne).
  - split.
    + apply (in_system_steps s w Hsys). by apply rtc_once.
    + intros Hne. apply (settled_world s w (Hset Hne)). by apply rtc_once.
  - by split; [exact Hsys|intros _; apply fresh_settled].
Qed.

Lemma loop_reachable_inv x : loop_reachable x → loop_inv x.
Proof.
  intros (x0 & (w & feeds & now & Hi & ->) & Hst).
  assert (loop_inv (fresh_loop w feeds now, Starting)) as H0.
  { assert (sys_reach (w, Idle)) as Hr by (by exists (w, Idle)).
    split; [exact Hr|]. intros _. by apply fresh_settled. }
  remember (fresh_loop w feeds now, Starting) as x0 eqn:E. clear Hi E.
  induction Hst as [|x y z Hs _ IH]; [done|]. apply IH. by eapply loop_step_inv.
Qed.

(** ** Theorems *)

(** C6: The worker loop stays inside the gateway's transition system.  In every
    state the loop and its surroundings reach, through startup, jobs popped from
    Redis, sweeps of the ledger, feed downloads, database and Redis outages,
    exceptions and restarts, the world is one the transition system reaches, so
    each invariant proved there holds of the running worker. *)
Theorem worker_loop_refines_system s st : loop_reachable (s, st) → sys_reach (lp_world s, Idle).
Proof. intros H. by destruct (loop_reachable_inv _ H) as [Hs _]. Qed.

(** C35: One feed download at a time.  While the worker runs, its slot is free
    with nothing running and nothing waiting, or is held by one feed job whose
    download runs or whose single completion waits; every completion that waits
    owns the slot, so releasing it succeeds and frees the slot. *)
Theorem one_download_at_a_time s st c :
  loop_reachable (s, st) → st ≠ Ended → lp_coordinator s = Some c →
  (length (fco_completion_queue c) <= 1)%nat ∧
  (Coordinator.busy c = true ↔ is_Some (fco_fetch_task c)) ∧
  (∀ job, fco_active_job c = Some job → ∀ j sid,
     agent_job (w_db (lp_world s)) !! job_id job = Some j → job_target j ≠ TargetService sid) ∧
  (∀ x, x ∈ fco_completion_queue c →
     ∃ c', Coordinator.release x c = inr c' ∧ Coordinator.busy c' = false).
Proof.
  intros H Hne Hc. destruct (loop_reachable_inv _ H) as [_ Hset]. destruct (Hset Hne) as [_ Hslot].
  destruct (Hslot c Hc) as [Hok Hact]. unfold coordinator_ok in Hok. unfold Coordinator.busy.
  rewrite bool_decide_eq_true. destruct (fco_active_job c) as [job|] eqn:Ea.
  - destruct Hok as (t & Et & Ej & Hq). split_and!.
    + destruct (ft_done t); [destruct Hq as (x & -> & _)|rewrite Hq]; simpl; lia.
    + rewrite Et. split; intros _; by eexists.
    + intros job' [= <-]. apply (Hact job eq_refl).
    + intros x Hx. destruct (ft_done t).
      * destruct Hq as (y & Hq & Ey). rewrite Hq in Hx. apply list_elem_of_singleton in Hx as ->.
        unfold Coordinator.release. rewrite Ea, Ey, bool_decide_eq_true_2 by done. by eexists.
      * rewrite Hq in Hx. by apply not_elem_of_nil in Hx.
  - destruct Hok as [Et Hq]. rewrite Et, Hq. split_and!; try done; simpl; [lia|].
    by intros x Hx%not_elem_of_nil.
Qed.

(** ** Pace *)

(** No delay, or the initial one doubled some number of times, up to the limit. *)
Definition paced (s : Loop) : Prop :=
  lp_backoff s = None ∨
  ∃ n : nat, lp_backoff s =
    Some (Z.min (worker_backoff_initial settings * 2 ^ Z.of_nat n) (worker_backoff_max settings)).

Section pace.
Hypothesis initial_pos : 0 < worker_backoff_initial settings.
Hypothesis max_pos : 0 < worker_backoff_max settings.

Lemma back_off_paced : keeps paced (_back_off settings).
Proof.
  intros s Hs. right. simpl. destruct Hs as [-> | [n ->]]; simpl.
  - exists 0%nat. by rewrite Z.mul_1_r.
  - exists (S n). f_equal. rewrite Nat2Z.inj_succ, Z.pow_succ_r by lia.
    pose proof (Z.pow_pos_nonneg 2 (Z.of_nat n)). nia.
Qed.

Lemma with_db_paced {A} it op (m : M World A) : keeps paced (with_db it op m).
Proof.
  intros s Hs. unfold with_db, on_world. destruct (it_outage it op); [done|].
  by destruct (m (lp_world s)).
Qed.
#[local] Hint Resolve back_off_paced with_db_paced : ops.

Lemma schedule_paced it : keeps paced (_schedule_due_feeds settings it).
Proof. unfold _schedule_due_feeds. moves_auto. by left. Qed.
Lemma reconcile_paced it orphans : keeps paced (reconcile_task it orphans).
Proof. unfold reconcile. moves_auto. Qed.
#[local] Hint Resolve schedule_paced reconcile_paced : ops.

Lemma finish_task_paced it task k :
  keeps paced task → keeps paced k → keeps paced (finish_task settings it task k).
Proof. intros Ht Hk. unfold finish_task. moves_auto. Qed.

Lemma startup_paced it : keeps paced (startup it).
Proof. unfold startup_iteration. moves_auto. Qed.

Lemma start_feed_paced it id : keeps paced (_start_feed_fetch it id).
Proof. unfold _start_feed_fetch, coordinator_busy, coordinator_start. moves_auto. Qed.
#[local] Hint Resolve start_feed_paced : ops.

Lemma wait_paced it : keeps paced (wait_phase it).
Proof.
  unfold wait_phase, coordinator_busy, _wait_for_work, _wait_for_pop, pop_task, _brpop, fetch_ended,
    take_completion. moves_auto.
Qed.
Lemma complete_paced it x : keeps paced (_complete_feed_fetch sha256 xdpgw_apply it x).
Proof. unfold _complete_feed_fetch, coordinator_release. moves_auto. Qed.
#[local] Hint Resolve wait_paced complete_paced : ops.

Lemma main_paced it : keeps paced (main it).
Proof.
  unfold main_iteration, coordinator_busy, _start_next_feed_fetch, degraded, handle_popped,
    _is_feed_sync_job, sweep, coordinator_busy.
  moves_auto; try (by left);
    (apply finish_task_paced; [by auto with ops|]; moves_auto).
Qed.

Lemma loop_step_paced x y : loop_step x y → paced x.1 → paced y.1.
Proof.
  intros Hst Hp. destruct Hst; simpl in *; try done.
  - pose proof (startup_paced it s Hp) as H1. by rewrite H in H1.
  - pose proof (main_paced it s Hp) as H1. by rewrite H in H1.
  - pose proof (startup_paced it s Hp) as H1. by rewrite H in H1.
  - pose proof (main_paced it s Hp) as H1. by rewrite H in H1.
  - by left.
Qed.

(** The pace of retries is bounded.  In every reachable state the delay the
    worker waits before it tries again is the configured initial one doubled
    some number of times and cut at the configured maximum, so it is positive
    and never exceeds that maximum however long an outage lasts. *)
Theorem backoff_bounded s st :
  loop_reachable (s, st) →
  lp_backoff s = None ∨
  ∃ (n : nat) delay, lp_backoff s = Some delay ∧
    delay = Z.min (worker_backoff_initial settings * 2 ^ Z.of_nat n) (worker_backoff_max settings) ∧
    0 < delay <= worker_backoff_max settings.
Proof.
  intros (x0 & (w & feeds & now & _ & ->) & Hst).
  assert (paced (s, st).1) as [?|[n Hn]]; [|by left|right].
  { assert (paced (fresh_loop w feeds now, Starting).1) as H0 by (by left).
    remember (fresh_loop w feeds now, Starting) as x0 eqn:E. clear E.
    induction Hst as [|x y z Hs _ IH]; [done|]. apply IH. by eapply loop_step_paced. }
  eexists n, _. split; [exact Hn|]. split; [done|].
  pose proof (Z.pow_pos_nonneg 2 (Z.of_nat n)). nia.
Qed.
End pace.

(** ** Outages *)

(** A database outage that meets a sweep is absorbed: the iteration returns,
    the delay grows and nothing else changes.  One that meets the search for the
    next feed job is not: the exception leaves the loop and ends the worker,
    although the loop is meant to retry until the database is back. *)
Theorem feed_lookup_outage_ends_worker it s c :
  lp_coordinator s = Some c → Coordinator.busy c = false → it_outage it OpFindFeed = true →
  it_outage it OpReconcile = true → it_stopping it = false →
  main it s = (inl (OperationalError "connection refused"), s) ∧
  finish_task settings it (reconcile_task it false) (mret Continue) s =
    (inr Continue, s <| lp_backoff := Some (_next_backoff settings (lp_backoff s)) |>).
Proof.
  intros Hc Hb Hout Hrec Hst. split.
  - unfold main_iteration, coordinator_busy. rewrite !run_gets, Hc, Hb. simpl. rewrite bind_run.
    unfold _start_next_feed_fetch, with_db. by rewrite Hout.
  - unfold finish_task. rewrite Hst, bind_run. unfold try_except, reconcile, with_db.
    rewrite Hrec. reflexivity.
Qed.
End loop.

(** ** Stopping *)

Section stopping.
Import Shutdown.
Context (grace : Z) (Hgrace : 0 <= grace).

Fixpoint seconds (l : list action) : Z :=
  match l with [] => 0 | Waited n :: l => n + seconds l | _ :: l => seconds l end.
Definition cancels (l : list action) : nat :=
  length (List.filter (fun a => match a with Cancel => true | _ => false end) l).

(** A running task that does not end by itself within the grace. *)
Definition overruns (t : option Task) : bool :=
  match t with Some (Running rest _ _ _) => negb (in_time grace rest) | _ => false end.

(** The time spent on a task: its own end, or the grace and its end after the
    cancellation. *)
Definition time_on (t : option Task) : Z :=
  match t with
  | Some (Running rest _ after _) =>
      if in_time grace rest then Z.max 0 (default 0 rest) else grace + Z.max 0 (default 0 after)
  | _ => 0
  end.

(** Once cancelled, the task ends within [c] seconds. *)
Definition ends_within (c : Z) (t : option Task) : Prop :=
  match t with
  | Some (Running _ _ after _) => ∃ n, after = Some n ∧ n <= c
  | _ => True
  end.

Lemma seconds_app l1 l2 : seconds (l1 ++ l2) = seconds l1 + seconds l2.
Proof. induction l1 as [|a l1 IH]; simpl; [done|]. rewrite IH. destruct a; lia. Qed.
Lemma cancels_app l1 l2 : cancels (l1 ++ l2) = (cancels l1 + cancels l2)%nat.
Proof. unfold cancels. by rewrite List.filter_app, length_app. Qed.

(** [m] ends, within [t] seconds; when it does not raise, after exactly [t]
    seconds and [n] cancellations. *)
Definition takes {A} (m : T A) (t : Z) (n : nat) : Prop :=
  ∃ r, m.2 = Some r ∧ seconds m.1 <= t ∧ ∀ a, r = inr a → seconds m.1 = t ∧ cancels m.1 = n.

Lemma takes_bind {A B} (m : T A) (k : A → T B) t n t' n' :
  0 <= t' → takes m t n → (∀ a, takes (k a) t' n') → takes (m ≫= k) (t + t') (n + n').
Proof.
  intros Ht (r & Er & Hs & Hex) Hk. unfold takes, mbind, T_bind. rewrite Er.
  destruct r as [r|a]; simpl.
  { exists (inl r). split_and!; [done|lia|done]. }
  destruct (Hk a) as (r' & Er' & Hs' & Hex'). destruct (Hex a eq_refl) as [Es Ec].
  exists r'. rewrite seconds_app, cancels_app. split_and!; [done|lia|].
  intros b Hb. destruct (Hex' b Hb). lia.
Qed.

Lemma takes_act a : a ≠ Cancel → (∀ n, a ≠ Waited n) → takes (act a) 0 0.
Proof.
  intros Hc Hw. exists (inr tt). split_and!; [done|..]; destruct a; simpl; try lia; try done;
    naive_solver.
Qed.

Lemma takes_wait n : takes (act (Waited n)) n 0.
Proof. exists (inr tt). split_and!; [done|simpl; lia|]. simpl. split; [lia|done]. Qed.

Lemma takes_ret {A} (a : A) : takes (mret a) 0 0.
Proof. exists (inr a). split_and!; [done|simpl; lia|done]. Qed.

Lemma takes_ended e : takes (ended e) 0 0.
Proof.
  destruct e as [|r]; [apply takes_ret|]. exists (inl r). split_and!; [done|simpl; lia|done].
Qed.

(** Logging costs no time. *)
Lemma takes_logged m t n :
  seconds m.1 = t → cancels m.1 = n → m.2 ≠ None → takes (logged m) t n.
Proof.
  destruct m as [l [[r|[]]|]]; simpl; intros <- <- Hm; [|by eexists|done].
  destruct r; (eexists; split; [reflexivity|]); simpl; rewrite ?seconds_app, ?cancels_app; simpl;
    unfold cancels at 2; simpl; (split; [lia|]); intros; split; lia || done.
Qed.

Lemma takes_after_wait {A} (m : T A) k t n :
  takes m t n → takes (Waited k :: m.1, m.2) (k + t) n.
Proof.
  intros (r & Er & Hs & Hex). exists r. simpl. split_and!; [done|lia|].
  intros a Ha. destruct (Hex a Ha). split; [lia|done].
Qed.

Lemma takes_discard n e : takes (_discard_cancelled (Some n) e) (Z.max 0 n) 0.
Proof.
  assert (takes (match e with Raised CancelledError => mret tt | e => ended e end) 0 0) as H
    by (destruct e as [|[]]; apply takes_ret || apply takes_ended).
  apply (takes_after_wait _ (Z.max 0 n)) in H. by rewrite Z.add_0_r in H.
Qed.

Lemma takes_cancel rest e after c :
  in_time grace rest = false → is_Some after →
  takes (cancel_and_discard grace rest e after c) (Z.max 0 (default 0 after)) 1.
Proof.
  intros Ht (n & ->). unfold cancel_and_discard. rewrite Ht.
  apply (takes_bind _ _ 0 1 (Z.max 0 n) 0); [lia| |intros _; apply takes_discard].
  exists (inr tt). split_and!; [done|simpl; lia|done].
Qed.

Definition overrun (t : option Task) : nat := if overruns t then 1 else 0.

(** The wait for a running task, where [finish] is what is done with its end. *)
Lemma takes_running rest e after c finish :
  is_Some after → (∀ e, takes (finish e) 0 0) →
  takes (r ← wait_for grace rest e;
         match r with None => cancel_and_discard grace rest e after c | Some e => finish e end)
    (time_on (Some (Running rest e after c))) (overrun (Some (Running rest e after c))).
Proof.
  intros Ha Hf. unfold wait_for, overrun. simpl. destruct (in_time grace rest) eqn:Ht; simpl.
  - assert (∀ m : T unit, takes m 0 0 → takes (Waited (Z.max 0 (default 0 rest)) :: m.1, m.2)
      (Z.max 0 (default 0 rest)) 0) as Hw.
    { intros m Hm. apply (takes_after_wait _ (Z.max 0 (default 0 rest))) in Hm.
      by rewrite Z.add_0_r in Hm. }
    destruct e as [|[x| |]]; [apply Hw, Hf..| |apply Hw, Hf].
    apply (Hw (cancel_and_discard grace rest (Raised TimeoutError) after c)).
    unfold cancel_and_discard. rewrite Ht. by exists (inl TimeoutError).
  - by apply (takes_after_wait (cancel_and_discard grace rest e after c)), takes_cancel.
Qed.

Lemma ends_within_some c rest e after x :
  ends_within c (Some (Running rest e after x)) → is_Some after.
Proof. intros (n & -> & _). eauto. Qed.

Lemma takes_inflight c t : ends_within c t → takes (_finish_inflight grace t) (time_on t) (overrun t).
Proof.
  destruct t as [[e|rest e after x]|]; intros Ht; [apply takes_ret| |apply takes_ret].
  apply takes_running; [by eapply ends_within_some|apply takes_ended].
Qed.

Lemma takes_lane c t :
  ends_within c t → takes (_finish_background_lane grace t) (time_on t) (overrun t).
Proof.
  destruct t as [[e|rest e after x]|]; intros Ht; [| |apply takes_ret].
  - apply takes_logged; by destruct e as [|[]].
  - apply (takes_running rest e after x (fun e => logged (ended e))).
    + by eapply ends_within_some.
    + intros e'. apply takes_logged; by destruct e' as [|[]].
Qed.

Definition total_time (ts : list (option Task)) : Z := foldr (fun t acc => time_on t + acc) 0 ts.
Definition overrunning (ts : list (option Task)) : nat := length (List.filter overruns ts).

Lemma time_on_nonneg t : 0 <= time_on t.
Proof. destruct t as [[|rest ? after ?]|]; simpl; [lia|destruct (in_time grace rest); lia|lia]. Qed.
Lemma total_time_nonneg ts : 0 <= total_time ts.
Proof. induction ts as [|t ts IH]; simpl; [lia|]. pose proof (time_on_nonneg t). lia. Qed.

Lemma total_time_snoc ts t : total_time (ts ++ [t]) = total_time ts + time_on t.
Proof.
  induction ts as [|x ts IH]; [simpl; lia|].
  change (time_on x + total_time (ts ++ [t]) = time_on x + total_time ts + time_on t). lia.
Qed.

Lemma overrunning_cons t ts : overrunning (t :: ts) = (overrun t + overrunning ts)%nat.
Proof. unfold overrunning, overrun. simpl. by destruct (overruns t). Qed.

Lemma takes_lanes c lanes :
  Forall (ends_within c) lanes →
  takes (finish_lanes grace lanes) (total_time lanes) (overrunning lanes).
Proof.
  induction 1 as [|t lanes Ht _ IH]; [apply takes_ret|]. rewrite overrunning_cons. simpl.
  apply takes_bind; [apply total_time_nonneg|by eapply takes_lane|done].
Qed.

Lemma takes_try_finally {A} (m : T A) f t n :
  takes m t n → f.2 = Some (inr tt) → seconds f.1 = 0 → cancels f.1 = 0%nat →
  takes (try_finally m f) t n.
Proof.
  intros (r & Er & Hs & Hex) Hf Hfs Hfc. exists r. unfold try_finally. rewrite Er, Hf. simpl.
  rewrite seconds_app, cancels_app, Hfs, Hfc. split_and!; [done|lia|].
  intros a Ha. destruct (Hex a Ha). lia.
Qed.

Lemma total_time_bound c ts :
  0 <= c → Forall (ends_within c) ts → total_time ts <= Z.of_nat (length ts) * (grace + c).
Proof.
  intros Hc. induction 1 as [|t ts Ht _ IH]; [simpl; lia|].
  assert (time_on t <= grace + c).
  { destruct t as [[|rest e after x]|]; simpl; [lia| |lia]. destruct Ht as (n & -> & Hn).
    destruct (in_time grace rest) eqn:E; [|simpl; lia].
    destruct rest as [k|]; simpl in *; [|lia]. apply Z.ltb_lt in E. lia. }
  cbn [total_time foldr length] in *. fold (total_time ts). lia.
Qed.

(** C21: Stopping takes bounded time, as long as cancelled tasks end.  If every
    task of the worker ends within [c] seconds of its cancellation, the clean-up
    returns or raises after at most a grace period and [c] seconds for the job in
    flight, for each background lane and for the download.  When it returns, it
    has waited for every task: until its own end, if that came within the grace,
    and otherwise for the grace and the end after the cancellation; and the
    tasks it has cancelled are those that overran the grace. *)
Theorem shutdown_bounded c inflight lanes fetch feed_runner
    (Hc : 0 <= c) (Hends : Forall (ends_within c) (inflight :: lanes ++ [fetch])) :
  let tasks := inflight :: lanes ++ [fetch] in
  let '(actions, r) := finally_ grace inflight lanes fetch feed_runner in
  r ≠ None ∧
  seconds actions <= (Z.of_nat (length lanes) + 2) * (grace + c) ∧
  (r = Some (inr tt) → seconds actions = total_time tasks ∧ cancels actions = overrunning tasks).
Proof.
  cbv zeta. pose proof (total_time_bound c _ Hc Hends) as Hb.
  apply Forall_cons in Hends as [Hi [Hl [Hf _]%Forall_cons]%Forall_app].
  assert (takes (finally_ grace inflight lanes fetch feed_runner)
    (0 + (0 + (time_on inflight + (total_time lanes + (time_on fetch + 0)))))
    (0 + (0 + (overrun inflight + (overrunning lanes + (overrun fetch + 0)))))) as Ht.
  { pose proof (time_on_nonneg inflight). pose proof (total_time_nonneg lanes).
    pose proof (time_on_nonneg fetch). unfold finally_.
    apply takes_bind; [lia|by apply takes_act|intros _].
    apply takes_bind; [lia|by apply takes_act|intros _].
    apply takes_bind; [lia|by eapply takes_inflight|intros _].
    apply takes_try_finally; [|by destruct feed_runner..].
    apply takes_bind; [lia|by eapply takes_lanes|intros _].
    apply takes_bind; [lia|by eapply takes_inflight|intros _].
    by destruct feed_runner; exists (inr tt). }
  assert (total_time (inflight :: lanes ++ [fetch]) =
          time_on inflight + (total_time lanes + time_on fetch)) as Et.
  { change (time_on inflight + total_time (lanes ++ [fetch]) =
            time_on inflight + (total_time lanes + time_on fetch)). f_equal.
    apply total_time_snoc. }
  assert (overrunning (inflight :: lanes ++ [fetch]) =
          overrun inflight + (overrunning lanes + overrun fetch))%nat as Eo.
  { rewrite overrunning_cons. unfold overrunning. rewrite List.filter_app, length_app.
    unfold overrun. simpl. by destruct (overruns fetch). }
  destruct (finally_ grace inflight lanes fetch feed_runner) as [actions r].
  destruct Ht as (x & Er & Hs & Hex). simpl in Er, Hs, Hex. subst r.
  rewrite Et, length_cons, length_app in Hb. cbn [length] in Hb.
  replace (Z.of_nat (S (length lanes + 1))) with (Z.of_nat (length lanes) + 2) in Hb by lia.
  split_and!; [done|lia|].
  intros [= ->]. destruct (Hex tt eq_refl). lia.
Qed.

(** The condition on cancelled tasks is needed: the wait for them has no
    timeout, so a job in flight that ignores its cancellation blocks the
    clean-up for ever, and nothing is closed. *)
Lemma shutdown_blocked e x lanes fetch feed_runner :
  finally_ grace (Some (Running None e None x)) lanes fetch feed_runner =
  ([SetStop; RemoveSignals; Waited grace; Cancel], None).
Proof. reflexivity. Qed.

Lemma finish_inflight_no_dispose t : DisposeEngine ∉ (_finish_inflight grace t).1.
Proof.
  destruct t as [[e|rest e after c]|]; simpl; [set_solver| |set_solver].
  unfold wait_for, cancel_and_discard. destruct (in_time grace rest); simpl.
  - destruct e as [|[]]; simpl; set_solver.
  - destruct after as [n|]; [destruct c as [|[]]|]; simpl; set_solver.
Qed.

(** When the tasks end once cancelled, the engine is disposed of when, and only
    when, the job in flight does not end in an exception while it is waited for:
    the wait stands before the [try], so an exception leaves the lanes, the Redis
    client and the engine behind. *)
Lemma shutdown_releases c inflight lanes fetch feed_runner :
  Forall (ends_within c) (inflight :: lanes ++ [fetch]) →
  DisposeEngine ∈ (finally_ grace inflight lanes fetch feed_runner).1 ↔
  (_finish_inflight grace inflight).2 = Some (inr tt).
Proof.
  intros [Hi [Hl [Hf _]%Forall_cons]%Forall_app]%Forall_cons.
  unfold finally_. pose proof (finish_inflight_no_dispose inflight) as Hn.
  destruct (_finish_inflight grace inflight) as [l [[r|[]]|]] eqn:E; simpl in *.
  1,3: split; [|done]; unfold mbind, T_bind; simpl; set_solver.
  split; [done|]. intros _.
  assert (takes (finish_lanes grace lanes ;; _finish_inflight grace fetch ;;
    (if feed_runner then act CloseClient else mret tt) ;; act CloseRedis)
    (total_time lanes + (time_on fetch + 0)) (overrunning lanes + (overrun fetch + 0))) as (r & Er & _).
  { pose proof (time_on_nonneg fetch).
    apply takes_bind; [lia|by eapply takes_lanes|intros _].
    apply takes_bind; [lia|by eapply takes_inflight|intros _].
    by destruct feed_runner; exists (inr tt). }
  revert Er. generalize (finish_lanes grace lanes ;; _finish_inflight grace fetch ;;
    (if feed_runner then act CloseClient else mret tt) ;; act CloseRedis). intros m Er.
  unfold try_finally. rewrite Er. destruct feed_runner; simpl; set_solver.
Qed.
End stopping.

(** A worker whose lanes never end by themselves and take a second to be
    cancelled, whose job in flight ends in three, with a grace of ten seconds. *)
Definition lane_task : option Shutdown.Task :=
  Some (Shutdown.Running None Shutdown.Returned (Some 1) (Shutdown.Raised Shutdown.CancelledError)).
Definition job_task : option Shutdown.Task :=
  Some (Shutdown.Running (Some 3) Shutdown.Returned (Some 0) Shutdown.Returned).

Lemma shutdown_bounded_witness :
  let '(actions, r) := Shutdown.finally_ 10 job_task (replicate 6 lane_task) None true in
  r = Some (inr tt) ∧ seconds actions = 69 ∧ cancels actions = 6%nat ∧
  seconds actions <= (6 + 2) * (10 + 1).
Proof.
  split; [reflexivity|]. split; [reflexivity|]. split; [reflexivity|].
  apply (shutdown_bounded 10 ltac:(lia) 1 job_task (replicate 6 lane_task) None true ltac:(lia)).
  repeat constructor; eexists; (split; [reflexivity|lia]).
Defined.
