(* ===== verification/FeedLane.v ===== *)
(** * The download lane does not starve

    The oldest queued feed job is taken as soon as the slot is free. *)

From S2P Require Import Prelude PyStr Ipaddress RuleMatch Models Db Apply ApplyInv.
From S2P Require Import PyNum Services Isolation ServicesInv FeedReconcile FeedInv.
From S2P Require Import FeedJobs Feeds Applier ApplierInv Evolution WorkerInv.
From S2P Require Import FeedRunner Processor WorldInv Api ApiInv FeedLedger LedgerInv.
From S2P Require Import Demo FeedSpec OpsModels AlertRules AlertInv System WorkerLoop.
From S2P Require Import WorkerLoopSpec.
Open Scope Z_scope.

Section lane.
Context (d : Db) (id rid : uuid) (job : AgentJob) (run : FeedSyncRun) (src : ThreatFeedSource).
Hypothesis d_ok : feed_ok d.
Hypothesis job_row : agent_job d !! id = Some job.
Hypothesis job_run : job_target job = TargetFeedRun rid.
Hypothesis run_row : feed_sync_run d !! rid = Some run.
Hypothesis src_row : threat_feed_source d !! run_feed_source_id run = Some src.
Hypothesis queued : job_status job = JobStatus.queued.

Definition claimed_job : AgentJob :=
  job <| job_status := JobStatus.applying |> <| job_error := None |>
      <| job_started_at := Some (clock d) |> <| job_attempts := job_attempts job + 1 |>.
Definition claimed_run : FeedSyncRun :=
  run <| run_status := FeedSyncStatus.running |> <| run_error := None |>
      <| run_started_at := Some (clock d) |> <| run_finished_at := None |> <| run_duration_ms := None |>.
Definition claimed_db : Db :=
  d <| agent_job := <[id := claimed_job]> (agent_job d) |>
    <| feed_sync_run := <[rid := claimed_run]> (feed_sync_run d) |>.

Lemma run_queued : run_status run = FeedSyncStatus.queued.
Proof.
  destruct (fo_job _ d_ok id job rid job_row) as (r & Hr & _ & Hc).
  { unfold feed_sync_run_id. by rewrite job_run. }
  rewrite run_row in Hr. injection Hr as <-. rewrite queued in Hc. by destruct (run_status run).
Qed.

Lemma claim_job_unfold w : w_db w = d →
  claim_job id w = session_scope (
    proceed ← FeedSyncJobLifecycle.claim job;
    jobs ← get_db agent_job;
    mret (if proceed : bool then jobs !! id else None)) w.
Proof.
  intros Ew. unfold claim_job, session_scope.
  assert (∀ k : gmap uuid AgentJob → M Session (option AgentJob),
    (get_db agent_job ≫= k) (new_session (w_db w)) = k (agent_job d) (new_session (w_db w))) as ->.
  { intros k. by rewrite <- Ew. }
  rewrite job_row. assert (job_type job = JobType.feed_sync) as Et by (unfold job_type; by rewrite job_run).
  rewrite Et, bool_decide_eq_false_2 by done. rewrite run_ret. reflexivity.
Qed.

Lemma claim_locked {B} (k : bool → M Session B) s :
  db s = d →
  (FeedSyncJobLifecycle.claim job ≫= k) s =
  if is_deleted src then (_finish_noop job (Some run) ;; k false) s
  else k true (s <| db := claimed_db |>).
Proof.
  intros Es. rewrite bind_run. unfold FeedSyncJobLifecycle.claim. rewrite locked_job_run, Es.
  assert (job_id job = id) as Eid by (by eapply (fo_job_id _ d_ok)). rewrite Eid, job_row.
  unfold has_status. rewrite queued.
  rewrite bool_decide_eq_true_2 by done. change (is_terminal JobStatus.queued) with false.
  cbv beta iota delta [negb]. rewrite locked_run_run, Es.
  unfold feed_sync_run_id. rewrite job_run. cbn [option_bind mbind]. rewrite run_row.
  rewrite locked_source_run, Es, src_row. destruct (is_deleted src).
  - rewrite !bind_run. by destruct (_finish_noop job (Some run) s) as [[e|u] s1].
  - unfold run_is. rewrite run_queued, bool_decide_eq_true_2 by done.
    cbv beta iota delta [negb]. unfold utc_now, get_db.
    rewrite run_gets, Es. unfold put_job, put_run, mod_db. rewrite !run_modS.
    assert (run_id run = rid) as Erun by (by eapply (fo_run_id _ d_ok)).
    unfold claimed_db, claimed_job, claimed_run. rewrite <- Erun, <- Eid, <- Es. by destruct s.
Qed.

Lemma claim_live w : w_db w = d → is_deleted src = false →
  claim_job id w = (inr (Some claimed_job), w <| w_db := claimed_db |>).
Proof.
  intros Ew Hdel. rewrite (claim_job_unfold w Ew). unfold session_scope.
  rewrite claim_locked, Hdel by done. unfold get_db. rewrite run_gets. simpl.
  rewrite lookup_insert_eq. by destruct w.
Qed.

Lemma claim_deleted w : w_db w = d → is_deleted src = true →
  ∃ w' j, claim_job id w = (inr None, w') ∧ agent_job (w_db w') !! id = Some j ∧
    job_status j = JobStatus.succeeded.
Proof.
  intros Ew Hdel. rewrite (claim_job_unfold w Ew). unfold session_scope.
  rewrite claim_locked, Hdel by done. unfold _finish_noop, utc_now, get_db, put_job, put_run, mod_db.
  assert (job_id job = id) as Eid by (by eapply (fo_job_id _ d_ok)).
  eexists _, _. split; [reflexivity|]. simpl. rewrite Eid. split; [apply lookup_insert_eq|done].
Qed.
End lane.

Lemma next_feed_job_row d id :
  feed_ok d → next_feed_job d = Some id →
  ∃ job rid run src, agent_job d !! id = Some job ∧ job_target job = TargetFeedRun rid ∧
    feed_sync_run d !! rid = Some run ∧ threat_feed_source d !! run_feed_source_id run = Some src ∧
    job_status job = JobStatus.queued.
Proof.
  intros Hok H. unfold next_feed_job, jobs_with in H.
  apply head_Some_elem_of, list_elem_of_fmap in H as (job & -> & Hj). rewrite merge_sort_Permutation in Hj.
  apply elem_of_select in Hj as [Hp (k & Hk)].
  apply andb_true_iff in Hp as [Hq%bool_decide_eq_true Ht%bool_decide_eq_true].
  rewrite (fo_job_id _ Hok _ _ Hk). unfold job_type in Ht. destruct (job_target job) as [|rid|] eqn:Etgt; try done.
  destruct (fo_job _ Hok k job rid Hk) as (run & Hrun & _); [unfold feed_sync_run_id; by rewrite Etgt|].
  destruct (fo_run _ Hok rid run Hrun) as (src & Hsrc & _). by exists job, rid, run, src.
Qed.

Section starting.
Context (sha256 : pystr → string) (capacity : Decimal) (ncpus : Z).
Context (xdpgw_apply : World → list Z → HelperOutcome).
Context (fetch_source : World → ThreatFeedSource → exn + list Z).
Context (settings : LoopSettings).

Abbreviation main :=
  (main_iteration sha256 xdpgw_apply fetch_source (DoubleBufferApplier xdpgw_apply) settings).

Lemma load_claimed w rid job run src :
  feed_sync_run_id job = Some rid → feed_sync_run (w_db w) !! rid = Some run →
  threat_feed_source (w_db w) !! run_feed_source_id run = Some src → is_deleted src = false →
  load_source_for_fetch job w = (inr (Some src), w).
Proof.
  intros Hj Hr Hs Hd. unfold load_source_for_fetch, _load_run_and_source. rewrite Hj, bind_run.
  erewrite scope_read; [|unfold get_db; rewrite !run_gets; cbn [db new_session];
    rewrite Hr, Hs, Hd; reflexivity]. reflexivity.
Qed.

(** Finding the oldest feed job, and the two ends of [_start_feed_fetch]. *)
Lemma find_next {A} it s id (k : option uuid → M Loop A) :
  it_outage it OpFindFeed = false → next_feed_job (w_db (lp_world s)) = Some id →
  (with_db it OpFindFeed (gets (fun w => next_feed_job (w_db w))) ≫= k) s = k (Some id) s.
Proof.
  intros Ho Hn. unfold with_db, on_world. rewrite Ho, bind_run. simpl. rewrite Hn. by destruct s.
Qed.

Section start_feed.
Context (it : Iteration) (s : Loop) (id : uuid) (c : FeedCoordinator).
Context (Hc : lp_coordinator s = Some c) (Hb : Coordinator.busy c = false).
Context (Ho : it_outage it OpStartFeed = false).

Lemma start_unclaimed w' :
  claim_job id (lp_world s) = (inr None, w') →
  _start_feed_fetch it id s = (inr false, s <| lp_world := w' |>).
Proof.
  intros Hcl. unfold _start_feed_fetch, coordinator_busy. rewrite run_gets, Hc, Hb.
  unfold with_db. rewrite Ho, bind_run. unfold on_world at 1. by rewrite Hcl.
Qed.

Lemma start_claimed cj src w1 :
  claim_job id (lp_world s) = (inr (Some cj), w1) → job_type cj = JobType.feed_sync →
  load_source_for_fetch cj w1 = (inr (Some src), w1) →
  ∃ s' c' t, _start_feed_fetch it id s = (inr true, s') ∧ lp_coordinator s' = Some c' ∧
    fco_active_job c' = Some cj ∧ fco_fetch_task c' = Some t ∧ ft_done t = false.
Proof.
  intros Hcl Ht Hl. unfold _start_feed_fetch, coordinator_busy. rewrite run_gets, Hc, Hb.
  unfold with_db. rewrite Ho, bind_run. unfold on_world at 1. rewrite Hcl.
  rewrite bool_decide_eq_true_2, run_require, bind_run by done. unfold on_world at 1.
  change (lp_world (s <| lp_world := w1 |>)) with w1. rewrite Hl.
  unfold coordinator_start. rewrite bind_run, run_gets.
  change (lp_coordinator (s <| lp_world := w1 |> <| lp_world := w1 |>)) with (lp_coordinator s).
  rewrite Hc. unfold Coordinator.start. rewrite Hb, run_modS. cbv beta iota.
  eexists _, _, _. split; [reflexivity|]. by split_and!.
Qed.
End start_feed.

(** A free download slot is filled.  When feed jobs are queued, the slot is
    free and the database answers, the next iteration takes the oldest of them:
    its download starts and holds the slot, or, when its source was deleted in
    the meantime, the job is closed without a download. *)
Theorem oldest_feed_job_taken it s id c :
  loop_reachable sha256 capacity ncpus xdpgw_apply fetch_source settings (s, Running) →
  lp_coordinator s = Some c → Coordinator.busy c = false →
  next_feed_job (w_db (lp_world s)) = Some id →
  it_outage it OpFindFeed = false → it_outage it OpStartFeed = false →
  (∃ s' c' job t, main it s = (inr Continue, s') ∧ lp_coordinator s' = Some c' ∧
     fco_active_job c' = Some job ∧ job_id job = id ∧ fco_fetch_task c' = Some t ∧ ft_done t = false) ∨
  (∃ s' j, _start_next_feed_fetch it s = (inr false, s') ∧
     agent_job (w_db (lp_world s')) !! id = Some j ∧ job_status j = JobStatus.succeeded).
Proof.
  intros Hr Hc Hb Hn Ho1 Ho2. destruct (loop_reachable_inv _ _ _ _ _ _ _ Hr) as [Hsys _].
  pose proof (reachable_feed _ _ _ _ _ _ Hsys) as Hok. cbn [fst] in Hok.
  destruct (next_feed_job_row _ _ Hok Hn) as (job & rid & run & src & Hj & Ht & Hrun & Hsrc & Hq).
  destruct (is_deleted src) eqn:Hd.
  - right. destruct (claim_deleted _ id rid job run src Hok Hj Ht Hrun Hsrc Hq (lp_world s) eq_refl Hd)
      as (w' & j & Hcl & Hj' & Hst).
    exists (s <| lp_world := w' |>), j. split; [|by split]. unfold _start_next_feed_fetch.
    rewrite (find_next _ _ id) by done. by apply (start_unclaimed _ _ _ c).
  - left. pose proof (claim_live _ id rid job run src Hok Hj Ht Hrun Hsrc Hq (lp_world s) eq_refl Hd) as Hcl.
    edestruct (start_claimed it s id c Hc Hb Ho2) as (s' & c' & t & Hs & Hc' & Ha & Hft & Hdone);
      [exact Hcl| | |].
    { unfold job_type, claimed_job. simpl. by rewrite Ht. }
    { apply (load_claimed _ rid _ (claimed_run (w_db (lp_world s)) run)); [|apply lookup_insert_eq|done|done].
      unfold feed_sync_run_id, claimed_job. simpl. by rewrite Ht. }
    exists s', c', (claimed_job (w_db (lp_world s)) job), t. split; [|split_and!; [done|exact Ha|by apply (fo_job_id _ Hok _ _ Hj)|done|done]].
    unfold main_iteration. rewrite run_gets. unfold coordinator_busy at 1. rewrite run_gets, Hc, Hb.
    simpl negb. rewrite bool_decide_eq_true_2 by (by eexists). rewrite bind_run. cbv beta iota delta [andb].
    unfold _start_next_feed_fetch. by rewrite (find_next _ _ id), Hs by done.
Qed.
End starting.

(** ** The worker loop on a concrete run

    The worker starts on an empty gateway, an administrator adds a feed and asks
    for its synchronization, and the loop takes the job; Redis goes away. *)

Definition demo_settings : LoopSettings := mkLoopSettings 15000000 500000 30000000.
Abbreviation demo_startup :=
  (startup_iteration demo_sha demo_helper demo_fetch (DoubleBufferApplier demo_helper) demo_settings).
Abbreviation demo_main :=
  (main_iteration demo_sha demo_helper demo_fetch (DoubleBufferApplier demo_helper) demo_settings).
Abbreviation demo_loop_step :=
  (loop_step demo_sha demo_capacity 4 demo_helper demo_fetch demo_settings).
Abbreviation demo_loop_reach :=
  (loop_reachable demo_sha demo_capacity 4 demo_helper demo_fetch demo_settings).

(** Nothing special happens; the database is gone. *)
Definition quiet : Iteration :=
  mkIteration 0 0 false true false None (fun _ => false) (fun _ => false) false.
Definition outage : Iteration :=
  mkIteration 0 0 false true false None (fun _ => true) (fun _ => false) false.

Definition loop0 : Loop := fresh_loop world0 true 0.
Definition loop1 : Loop := Eval vm_compute in (demo_startup quiet loop0).2.
Definition loop2 : Loop := Eval vm_compute in
  loop1 <| lp_world := lp_world loop1
            <| w_db := w_db (lp_world loop1) <| tenants := demo_tenants |> <| users := demo_users |> |> |>.
Definition loop_requests : list (option SessionData * request) :=
  [(root_session, CreateFeed demo_feed); (root_session, SyncFeed 1 false)].
Definition loop3 : Loop := Eval vm_compute in
  loop2 <| lp_world := default (lp_world loop2) (serve_all loop_requests (lp_world loop2)) |>.
Definition loop4 : Loop := Eval vm_compute in (demo_main quiet loop3).2.
Definition loop5 : Loop := Eval vm_compute in
  loop4 <| lp_coordinator := Coordinator._run_fetch (inr demo_body) <$> lp_coordinator loop4 |>.
Definition loop_down : Loop := Eval vm_compute in
  loop5 <| lp_world := lp_world loop5 <| w_redis_up := false |> <| w_queue := [] |> |>.

Lemma outside_serve rs s st w :
  serve_all rs (lp_world s) = Some w → rtc demo_loop_step (s, st) (s <| lp_world := w |>, st).
Proof.
  revert s. induction rs as [|[session r] rs IH]; intros s H; simpl in H.
  { injection H as <-. by destruct s. }
  destruct (demo_serve session r (lp_world s)) as [[e|u] w1] eqn:E; [done|].
  eapply rtc_l; [apply loop_outside; by eapply step_request|].
  destruct s as [w0 c b rd rr nx]. exact (IH (mkLoop w1 c b rd rr nx) H).
Qed.

Lemma loop3_steps : rtc demo_loop_step (loop0, Starting) (loop3, Running).
Proof.
  apply (rtc_l _ _ (loop1, Running)).
  { apply (loop_startup _ _ _ _ _ _ quiet loop0 Continue true loop1). vm_compute. reflexivity. }
  apply (rtc_l _ _ (loop2, Running)).
  { apply (loop_outside _ _ _ _ _ _ loop1 Running (lp_world loop2)).
    apply (step_accounts _ _ _ _ _ demo_tenants demo_users (lp_world loop1)). }
  apply (outside_serve loop_requests loop2 Running (lp_world loop3)). vm_compute. reflexivity.
Qed.

Lemma loop5_steps : rtc demo_loop_step (loop0, Starting) (loop5, Running).
Proof.
  etrans; [exact loop3_steps|]. apply (rtc_l _ _ (loop4, Running)).
  { apply (loop_main _ _ _ _ _ _ quiet loop3 Continue loop4). vm_compute. reflexivity. }
  apply rtc_once. apply (loop_fetched _ _ _ _ _ _ (inr demo_body) loop4 Running).
Qed.

Lemma loop_initial0 : loop_initial (loop0, Starting).
Proof. by exists world0, true, 0. Qed.
Lemma loop3_reach : demo_loop_reach (loop3, Running).
Proof. exists (loop0, Starting). split; [exact loop_initial0|exact loop3_steps]. Qed.
Lemma loop5_reach : demo_loop_reach (loop5, Running).
Proof. exists (loop0, Starting). split; [exact loop_initial0|exact loop5_steps]. Qed.

(** The oldest queued job of [loop3], and the slot of the later states. *)
Definition slot (s : Loop) : FeedCoordinator := default new_coordinator (lp_coordinator s).

Example demo_slot :
  (next_feed_job (w_db (lp_world loop3)), Coordinator.busy (slot loop3), Coordinator.busy (slot loop4),
   length (fco_completion_queue (slot loop4)), length (fco_completion_queue (slot loop5))) =
  (Some 3%positive, false, true, 0%nat, 1%nat).
Proof. vm_compute. reflexivity. Qed.

(** Processing the completion closes the job and frees the slot. *)
Example demo_completed :
  let '(r, s) := demo_main quiet loop5 in
  (r, Coordinator.busy (slot s), job_status <$> agent_job (w_db (lp_world s)) !! 3%positive) =
  (inr Continue, false, Some JobStatus.succeeded).
Proof. vm_compute. reflexivity. Qed.

Lemma worker_loop_refines_system_witness :
  reachable demo_sha demo_capacity 4 demo_helper demo_fetch (lp_world loop5, Idle).
Proof. exact (worker_loop_refines_system _ _ _ _ _ _ loop5 Running loop5_reach). Defined.

Lemma one_download_at_a_time_witness :
  (length (fco_completion_queue (slot loop5)) <= 1)%nat ∧
  (∀ x, x ∈ fco_completion_queue (slot loop5) →
     ∃ c', Coordinator.release x (slot loop5) = inr c' ∧ Coordinator.busy c' = false).
Proof.
  destruct (one_download_at_a_time _ _ _ _ _ _ loop5 Running (slot loop5) loop5_reach) as (H1 & _ & _ & H2).
  - discriminate.
  - reflexivity.
  - split; [exact H1|exact H2].
Defined.

(** Three attempts to start without a database; each backs off twice. *)
Definition waiting : Loop := Eval vm_compute in
  let fail s := (demo_startup outage s).2 in fail (fail (fail loop0)).

Lemma waiting_reach : demo_loop_reach (waiting, Starting).
Proof.
  exists (loop0, Starting). split; [exact loop_initial0|].
  eapply rtc_l; [apply (loop_startup _ _ _ _ _ _ outage loop0 Continue false); vm_compute; reflexivity|].
  eapply rtc_l; [apply (loop_startup _ _ _ _ _ _ outage _ Continue false); vm_compute; reflexivity|].
  apply rtc_once, (loop_startup _ _ _ _ _ _ outage _ Continue false). vm_compute. reflexivity.
Qed.

Lemma backoff_bounded_witness :
  lp_backoff waiting = Some 16000000 ∧
  (lp_backoff waiting = None ∨
   ∃ (n : nat) delay, lp_backoff waiting = Some delay ∧
     delay = Z.min (500000 * 2 ^ Z.of_nat n) 30000000 ∧ 0 < delay <= 30000000).
Proof.
  split; [reflexivity|].
  apply (backoff_bounded demo_sha demo_capacity 4 demo_helper demo_fetch demo_settings
    eq_refl eq_refl waiting Starting). exact waiting_reach.
Defined.

Lemma feed_lookup_outage_ends_worker_witness :
  demo_main outage loop1 = (inl (OperationalError "connection refused"), loop1).
Proof.
  refine (proj1 (feed_lookup_outage_ends_worker demo_sha demo_helper demo_fetch demo_settings
    outage loop1 new_coordinator _ _ _ _ _)); reflexivity.
Defined.

Lemma oldest_feed_job_taken_witness :
  (∃ s' c' job t, demo_main quiet loop3 = (inr Continue, s') ∧ lp_coordinator s' = Some c' ∧
     fco_active_job c' = Some job ∧ job_id job = 3%positive ∧ fco_fetch_task c' = Some t ∧
     ft_done t = false) ∨
  (∃ s' j, _start_next_feed_fetch quiet loop3 = (inr false, s') ∧
     agent_job (w_db (lp_world s')) !! 3%positive = Some j ∧ job_status j = JobStatus.succeeded).
Proof.
  apply (oldest_feed_job_taken demo_sha demo_capacity 4 demo_helper demo_fetch demo_settings
    quiet loop3 3%positive (slot loop3) loop3_reach); vm_compute; reflexivity.
Defined.
