(* ===== verification/NodeLanesSpec.v ===== *)
(** * What the data-plane lanes achieve, with concrete runs *)

From S2P Require Import Prelude PyStr Ipaddress Models Db Services NodeControl Api.
From S2P Require Import NodeLanes.
Import Deps.
Open Scope Z_scope.

(** ** Convergence *)

(** What the helper documents: it exits with status 0 only when the value is
    written.  A call that fails or is killed may have written it or not. *)
Definition honest (o : CallOutcome) : Prop := acknowledged o = true → took_effect o = true.

(** What happens to a lane: a tick that wants a value and whose call, if it makes
    one, ends in some way; a restart of the worker, which forgets what was
    acknowledged; a reload of the data plane, which loses the value. *)
Inductive lane_event (V : Type) :=
  | Tick (desired : V) (o : CallOutcome)
  | WorkerRestart
  | Reload.
Arguments Tick {V}.
Arguments WorkerRestart {V}.
Arguments Reload {V}.

Definition event_honest {V} (e : lane_event V) : Prop :=
  match e with Tick _ o => honest o | _ => True end.

Section converging.
Context {V : Type} `{EqDecision V}.

Definition happen (e : lane_event V) (s : Asserted V) : Asserted V :=
  match e with
  | Tick v o => assert_value v o s
  | WorkerRestart => mkAsserted None (as_dataplane s)
  | Reload => mkAsserted (as_value s) None
  end.

(** Whether the data plane is as it was left by the last acknowledged call since
    the worker started: no reload since then, and no call that took effect
    without being acknowledged. *)
Definition stays_undisturbed (e : lane_event V) (s : Asserted V) (u : bool) : bool :=
  match e with
  | Tick v o =>
      if bool_decide (as_value s = Some v) then u
      else acknowledged o || (u && negb (took_effect o))
  | WorkerRestart => true
  | Reload => false
  end.

Definition lane_history (es : list (lane_event V)) : Asserted V * bool :=
  foldl (fun x e => (happen e x.1, stays_undisturbed e x.1 x.2)) (mkAsserted None None, true) es.

Definition in_step (s : Asserted V) : Prop := ∀ v, as_value s = Some v → as_dataplane s = Some v.

Lemma happen_in_step e s u :
  event_honest e → (u = true → in_step s) →
  stays_undisturbed e s u = true → in_step (happen e s).
Proof.
  intros He Hs. destruct e as [v o| |]; simpl in *; [|done|done].
  unfold assert_value. case_bool_decide as Ev; [done|]. intros Hu x. simpl. unfold honest in He.
  destruct (acknowledged o) eqn:Ea; [by rewrite He|]. simpl in Hu.
  apply andb_true_iff in Hu as [Hu Ht]. apply negb_true_iff in Ht. rewrite Ht. by apply Hs.
Qed.

Lemma lane_history_in_step es :
  Forall event_honest es → (lane_history es).2 = true → in_step (lane_history es).1.
Proof.
  intros Hes. unfold lane_history.
  assert ((mkAsserted None None : Asserted V, true).2 = true →
          in_step (mkAsserted None None : Asserted V, true).1) as H0 by done.
  revert H0. generalize (mkAsserted None None : Asserted V, true).
  induction Hes as [|e es He _ IH]; intros [s u] Hs; [done|]. simpl. apply IH. simpl.
  by apply happen_in_step.
Qed.

(** A tick whose call, if any, is acknowledged. *)
Lemma assert_reaches desired o (s : Asserted V) :
  honest o → acknowledged o = true → as_value s ≠ Some desired ∨ in_step s →
  as_dataplane (assert_value desired o s) = Some desired.
Proof.
  intros Ho Ha Hs. unfold assert_value. case_bool_decide as E.
  - destruct Hs as [Hs|Hs]; [done|by apply Hs].
  - simpl. by rewrite (Ho Ha).
Qed.

Lemma assert_settled desired o o' (s : Asserted V) :
  acknowledged o = true →
  assert_value desired o' (assert_value desired o s) = assert_value desired o s.
Proof.
  intros Ha. assert (as_value (assert_value desired o s) = Some desired) as Hv.
  { unfold assert_value. case_bool_decide; [done|]. simpl. by rewrite Ha. }
  unfold assert_value at 1. by rewrite bool_decide_eq_true_2.
Qed.
End converging.

(** *** The two lanes *)

Definition desired_bypass (d : Db) : Z := Z.b2z (nc_bypass_enabled (node_control_of d)).

Definition fresh_control : NodeControlReconciler := mkNodeControlReconciler (mkAsserted None None) None.

(** A history of the worker: both lanes tick on a database, each with its call. *)
Inductive worker_event :=
  | LanesTick (d : Db) (ports_call bypass_call : CallOutcome)
  | WorkerRestarts
  | DataPlaneReloads.

Definition worker_event_honest (e : worker_event) : Prop :=
  match e with LanesTick _ o1 o2 => honest o1 ∧ honest o2 | _ => True end.

Definition lanes_happen (e : worker_event) (s : BlockedPortReconciler * NodeControlReconciler)
    : BlockedPortReconciler * NodeControlReconciler :=
  match e with
  | LanesTick d o1 o2 => (reconcile_ports d o1 s.1, (reconcile_control d o2 s.2).1)
  | WorkerRestarts =>
      (mkAsserted None (as_dataplane s.1),
       mkNodeControlReconciler (mkAsserted None (as_dataplane (ncr_bypass s.2))) None)
  | DataPlaneReloads =>
      (mkAsserted (as_value s.1) None,
       mkNodeControlReconciler (mkAsserted (as_value (ncr_bypass s.2)) None)
         (ncr_maintenance_active s.2))
  end.
Definition lanes_after (es : list worker_event) : BlockedPortReconciler * NodeControlReconciler :=
  foldl (fun s e => lanes_happen e s) (mkAsserted None None, fresh_control) es.

(** What the events are to each lane. *)
Definition ports_event (e : worker_event) : lane_event (gset Z) :=
  match e with
  | LanesTick d o _ => Tick (desired_ports d) o
  | WorkerRestarts => WorkerRestart
  | DataPlaneReloads => Reload
  end.
Definition bypass_event (e : worker_event) : lane_event Z :=
  match e with
  | LanesTick d _ o => Tick (desired_bypass d) o
  | WorkerRestarts => WorkerRestart
  | DataPlaneReloads => Reload
  end.

Lemma lanes_after_events es :
  (lanes_after es).1 = (lane_history (ports_event <$> es)).1 ∧
  ncr_bypass (lanes_after es).2 = (lane_history (bypass_event <$> es)).1.
Proof.
  induction es as [|e es IH] using rev_ind; [done|]. unfold lanes_after, lane_history in *.
  rewrite !fmap_app, !foldl_app. simpl. destruct IH as [<- <-]. by destruct e.
Qed.

Definition ports_undisturbed (es : list worker_event) : bool :=
  (lane_history (ports_event <$> es)).2.
Definition bypass_undisturbed (es : list worker_event) : bool :=
  (lane_history (bypass_event <$> es)).2.

Lemma events_honest es :
  Forall worker_event_honest es →
  Forall event_honest (ports_event <$> es) ∧ Forall event_honest (bypass_event <$> es).
Proof.
  intros H. rewrite !Forall_fmap. split; (eapply Forall_impl; [exact H|]); intros []; simpl; tauto.
Qed.

Lemma elem_of_desired_ports d port :
  port ∈ desired_ports d ↔ ∃ k b, blocked_udp_port d !! k = Some b ∧ bp_port b = port.
Proof.
  unfold desired_ports, list_blocked_ports. rewrite elem_of_list_to_set, list_elem_of_fmap.
  setoid_rewrite elem_of_order_by. setoid_rewrite elem_of_rows. naive_solver.
Qed.

(** C36: The lanes bring the data plane to what the database says and then leave
    it alone.  Take any history of ticks on any databases, of restarts of the
    worker and reloads of the data plane, in which failed and killed calls may
    have taken effect or not; assumed is only that a call the helper
    acknowledges did.  Then a tick whose calls are acknowledged leaves exactly
    the configured ports blocked and the bypass as switched, for each lane under
    the condition that its remembered value is another than the wanted one (so
    it does call), or that the data plane was not disturbed since the last
    acknowledged call.  Right after a restart of the worker the condition holds
    whatever went before.  Further ticks change nothing. *)
Theorem lanes_converge history d o1 o2 :
  Forall worker_event_honest history → honest o1 → honest o2 →
  acknowledged o1 = true → acknowledged o2 = true →
  let '(p, c) := lanes_after history in
  let p' := reconcile_ports d o1 p in
  let c' := (reconcile_control d o2 c).1 in
  (as_value p ≠ Some (desired_ports d) ∨ ports_undisturbed history = true →
   ∃ ports, as_dataplane p' = Some ports ∧
     ∀ port, port ∈ ports ↔ ∃ k b, blocked_udp_port d !! k = Some b ∧ bp_port b = port) ∧
  (as_value (ncr_bypass c) ≠ Some (desired_bypass d) ∨ bypass_undisturbed history = true →
   as_dataplane (ncr_bypass c') = Some (Z.b2z (nc_bypass_enabled (node_control_of d)))) ∧
  (last history = Some WorkerRestarts →
   ports_undisturbed history = true ∧ bypass_undisturbed history = true) ∧
  (∀ o', reconcile_ports d o' p' = p' ∧ (reconcile_control d o' c').1 = c').
Proof.
  intros Hh H1 H2 A1 A2. destruct (lanes_after_events history) as [Ep Ec].
  destruct (events_honest _ Hh) as [Hp Hc].
  destruct (lanes_after history) as [p c]. simpl in Ep, Ec. cbv zeta. split_and!.
  - intros Hor. exists (desired_ports d). split; [|apply elem_of_desired_ports].
    apply assert_reaches; [done..|]. destruct Hor as [?|Hu]; [by left|right].
    rewrite Ep. by apply lane_history_in_step.
  - intros Hor. apply (assert_reaches (desired_bypass d)); [done..|].
    destruct Hor as [?|Hu]; [by left|right]. rewrite Ec. by apply lane_history_in_step.
  - intros Hl. apply last_Some in Hl as (es & ->).
    unfold ports_undisturbed, bypass_undisturbed, lane_history. by rewrite !fmap_app, !foldl_app.
  - intros o'. split; [by apply assert_settled|]. unfold reconcile_control. simpl.
    by rewrite assert_settled.
Qed.

(** Ticks that want the remembered value do nothing. *)
Lemma quiet_ticks d outs v x s :
  Z.b2z (nc_bypass_enabled (node_control_of d)) = v → ncr_bypass s = mkAsserted (Some v) (Some x) →
  ncr_bypass (foldl (fun s o => (reconcile_control d o s).1) s outs) = mkAsserted (Some v) (Some x).
Proof.
  intros Hv. revert s. induction outs as [|o outs IH]; intros s Hs; [done|]. simpl. apply IH.
  unfold reconcile_control. simpl. rewrite Hv, Hs. unfold assert_value.
  by rewrite bool_decide_eq_true_2.
Qed.

(** A bypass that was switched on by a call that timed out stays on.  The
    lane remembers only acknowledged writes; when the switch is turned off again
    before one is acknowledged, the remembered value already is the wanted one
    and no later tick calls the helper, so traffic keeps bypassing the gateway. *)
Theorem timed_out_bypass_stays_on s d_on d_off outs :
  as_value (ncr_bypass s) = Some 0 →
  nc_bypass_enabled (node_control_of d_on) = true →
  nc_bypass_enabled (node_control_of d_off) = false →
  let s1 := (reconcile_control d_on (TimedOut true) s).1 in
  let s2 := foldl (fun s o => (reconcile_control d_off o s).1) s1 outs in
  as_value (ncr_bypass s2) = Some 0 ∧ as_dataplane (ncr_bypass s2) = Some 1.
Proof.
  intros Hs Hon Hoff. cbv zeta. rewrite (quiet_ticks d_off outs 0 1); [done|by rewrite Hoff|].
  unfold reconcile_control. rewrite Hon. simpl. unfold assert_value. rewrite Hs.
  by rewrite bool_decide_eq_false_2.
Qed.

(** ** Maintenance *)

(** Leaving maintenance is noticed once.  Over any history of ticks the lane
    asks the worker for a sweep exactly at the ticks that find maintenance off
    where the tick before found it on. *)
Theorem maintenance_end_signalled d d' o o' s :
  let s1 := (reconcile_control d o s).1 in
  (reconcile_control d' o' s1).2 = true ↔
  nc_maintenance_enabled (node_control_of d) = true ∧
  nc_maintenance_enabled (node_control_of d') = false.
Proof.
  cbv zeta. simpl. rewrite andb_true_iff, bool_decide_eq_true, negb_true_iff.
  split; intros [H H']; (split; [congruence|done]).
Qed.

(** ** Next hops *)

Section hops.
Context (resolves : Z → string → bool) (evicts : Z → bool).

Lemma hop_resolve_lookup dp_id ip h k :
  hops_table (hop_resolve resolves dp_id ip h) !! k =
  if bool_decide (k = dp_id) && resolves dp_id ip then Some ip else hops_table h !! k.
Proof.
  unfold hop_resolve. destruct (resolves dp_id ip); simpl; case_bool_decide as E; simpl; try done.
  - subst. apply lookup_insert_eq.
  - by rewrite lookup_insert_ne.
Qed.

Lemma resolve_all_other l h k :
  k ∉ l.*1 → hops_table (foldl (fun h x => hop_resolve resolves x.1 x.2 h) h l) !! k = hops_table h !! k.
Proof.
  revert h. induction l as [|[dp ip] l IH]; intros h Hk; [done|]. simpl in *.
  apply not_elem_of_cons in Hk as [Hne Hk]. rewrite IH, hop_resolve_lookup by done.
  by rewrite bool_decide_eq_false_2.
Qed.

Lemma resolve_all_lookup l h dp ip :
  NoDup l.*1 → (dp, ip) ∈ l →
  hops_table (foldl (fun h x => hop_resolve resolves x.1 x.2 h) h l) !! dp =
  if resolves dp ip then Some ip else hops_table h !! dp.
Proof.
  revert h. induction l as [|[dp0 ip0] l IH]; intros h Hnd Hin; [by apply not_elem_of_nil in Hin|].
  simpl in *. apply NoDup_cons in Hnd as [Hni Hnd]. apply elem_of_cons in Hin as [[= -> ->]|Hin].
  - rewrite resolve_all_other, hop_resolve_lookup by done. by rewrite bool_decide_eq_true_2.
  - rewrite IH by done. destruct (resolves dp ip); [done|]. rewrite hop_resolve_lookup.
    rewrite bool_decide_eq_false_2; [done|]. intros ->. apply Hni.
    apply list_elem_of_fmap. by exists (dp0, ip).
Qed.

Lemma evict_all_lookup l h k :
  hops_table (foldl (fun h dp => hop_evict evicts dp h) h l) !! k =
  if bool_decide (k ∈ l) && evicts k then None else hops_table h !! k.
Proof.
  revert h. induction l as [|dp l IH]; intros h; [done|]. simpl foldl.
  rewrite IH. unfold hop_evict. destruct (decide (k = dp)) as [->|Hne].
  - rewrite (bool_decide_eq_true_2 (dp ∈ dp :: l)) by (by left). simpl.
    destruct (evicts dp); [|by rewrite andb_false_r]. simpl. rewrite lookup_delete_eq. by case_match.
  - assert (bool_decide (k ∈ dp :: l) = bool_decide (k ∈ l)) as ->.
    { apply bool_decide_ext. rewrite elem_of_cons. naive_solver. }
    case_match; [done|]. destruct (evicts dp); [|done]. simpl. by rewrite lookup_delete_ne.
Qed.

(** A pass of the next-hop lane, entry by entry.  An enabled service whose
    probe answers gets the address of its destination, one whose probe fails
    keeps the entry it had; an entry without an enabled service goes when the
    snapshot could be read and the helper removes it, and stays otherwise. *)
Theorem nexthop_pass d snapshot h :
  NoDup (enabled_services d).*1 →
  let h' := resolve_once resolves evicts d snapshot h in
  (∀ dp ip, (dp, ip) ∈ enabled_services d →
     hops_table h' !! dp = if resolves dp ip then Some ip else hops_table h !! dp) ∧
  (∀ dp, dp ∉ (enabled_services d).*1 →
     hops_table h' !! dp = if snapshot && evicts dp then None else hops_table h !! dp).
Proof.
  intros Hnd. cbv zeta. unfold resolve_once. set (h1 := foldl _ h (enabled_services d)).
  split.
  - intros dp ip Hin. rewrite evict_all_lookup, bool_decide_eq_false_2.
    { by apply resolve_all_lookup. }
    intros Hd%list_elem_of_In%filter_In. destruct Hd as [_ Hd].
    apply negb_true_iff, bool_decide_eq_false in Hd. apply Hd, list_elem_of_fmap. by exists (dp, ip).
  - intros dp Hni. rewrite evict_all_lookup. rewrite <- (resolve_all_other _ h dp Hni). fold h1.
    destruct snapshot; simpl.
    2: done.
    destruct (evicts dp); [|by rewrite andb_false_r]. rewrite andb_true_r. case_bool_decide as Hd; [done|].
    destruct (hops_table h1 !! dp) as [ip|] eqn:E; [|done]. destruct Hd.
    apply list_elem_of_In, filter_In. split; [|by rewrite bool_decide_eq_false_2].
    apply list_elem_of_In, list_elem_of_fmap. exists (dp, ip). split; [done|]. by apply elem_of_map_to_list.
Qed.
End hops.

(** ** The data-plane lanes on concrete histories *)

Definition lane_admin : Principal := mkPrincipal 1000 "root" admin None "r".
Definition lane_db0 : Db := empty_db <| clock := 5 |>.

(** Port 69 is blocked, and the bypass switched on and off. *)
Definition block_tftp : BlockedPortCreateRequest := mkBlockedPortCreateRequest 69 (Some "tftp"%string).
Definition lane_db1 : Db := Eval vm_compute in
  db (add_blocked_udp_port block_tftp lane_admin (new_session lane_db0)).2.
Definition bypassed (b : bool) (d : Db) : Db :=
  d <| node_control := Some (mkNodeControl b false None None None None None) |>.

Lemma blocked_port_routes_witness :
  ∃ r s1 s2, add_blocked_udp_port block_tftp lane_admin (new_session lane_db0) = (inr r, s1) ∧
    bps_port r = 69 ∧ remove_blocked_udp_port 69 lane_admin s1 = (inr tt, s2) ∧
    blocked_udp_port (db s2) = blocked_udp_port lane_db0.
Proof.
  destruct (proj2 (blocked_port_routes block_tftp lane_admin (new_session lane_db0) eq_refl) eq_refl)
    as (r & s1 & s2 & e1 & e2 & H1 & H2 & _ & H3 & H4 & _).
  exists r, s1, s2. split; [exact H1|]. split; [exact H2|]. split; [exact H3|exact H4].
Defined.

(** A call that is not started, one that is killed after it blocked the port, a
    reload, a restart of the worker, and a failed call. *)
Definition rough_history : list worker_event :=
  [LanesTick lane_db0 NotStarted NotStarted; LanesTick lane_db1 (TimedOut true) (Ended 0 true);
   DataPlaneReloads; WorkerRestarts; LanesTick lane_db0 (Ended 1 false) (Ended 1 false)].

Lemma lanes_converge_witness :
  ports_undisturbed rough_history = true ∧
  as_dataplane (reconcile_ports (bypassed true lane_db1) (Ended 0 true) (lanes_after rough_history).1) =
    Some {[69]} ∧
  as_dataplane (ncr_bypass (reconcile_control (bypassed true lane_db1) (Ended 0 true)
    (lanes_after rough_history).2).1) = Some 1.
Proof.
  split; [vm_compute; reflexivity|]. split; [vm_compute; reflexivity|].
  apply (lanes_converge rough_history (bypassed true lane_db1) (Ended 0 true) (Ended 0 true)).
  - repeat constructor; done.
  - done.
  - done.
  - reflexivity.
  - reflexivity.
  - right. vm_compute. reflexivity.
Defined.

Definition off_control : NodeControlReconciler :=
  mkNodeControlReconciler (mkAsserted (Some 0) (Some 0)) (Some false).

Lemma timed_out_bypass_stays_on_witness :
  let s1 := (reconcile_control (bypassed true lane_db0) (TimedOut true) off_control).1 in
  as_dataplane (ncr_bypass (foldl (fun s o => (reconcile_control (bypassed false lane_db0) o s).1) s1
    [Ended 0 true; Ended 0 true])) = Some 1.
Proof.
  refine (proj2 (timed_out_bypass_stays_on off_control (bypassed true lane_db0) (bypassed false lane_db0)
    [Ended 0 true; Ended 0 true] _ _ _)); reflexivity.
Defined.

Definition hop_service : ProtectedService :=
  mkProtectedService 2 7 1 "web" (Net 167772165 32) allow_rule_only true None None None None
    ApplyStatus.active 1 (Some 1) None 0 0.
Definition hop_db : Db := lane_db0 <| protected_service := {[2%positive := hop_service]} |>.
Definition stale_hops : Hops := mkHops {[9 := "10.9.9.9"%string]} ∅.

Lemma nexthop_pass_witness :
  let h := resolve_once (fun _ _ => true) (fun _ => true) hop_db true stale_hops in
  hops_table h !! 7 = Some "10.0.0.5"%string ∧ hops_table h !! 9 = None.
Proof.
  destruct (nexthop_pass (fun _ _ => true) (fun _ => true) hop_db true stale_hops) as [H1 H2].
  - apply (bool_decide_unpack _). vm_compute. exact I.
  - split.
    + apply (H1 7 "10.0.0.5"%string). apply (bool_decide_unpack _). vm_compute. exact I.
    + apply (H2 9). apply (bool_decide_unpack _). vm_compute. exact I.
Defined.
