(* ===== verification/Schema.v ===== *)
(** * PostgreSQL as the migrations change it

    The migrations under [src/control-plane/migrations/versions] are sequences
    of Alembic operations.  Here is what such an operation does to a database:
    to its tables, constraints, indexes and sequences, and to the rows that are
    already there.  An operation fails, as it does in PostgreSQL, when an object
    exists or is missing, when another object depends on what it drops, or when
    the rows do not satisfy what it declares. *)

From S2P Require Import Prelude Ipaddress Models Db.
Open Scope Z_scope.

(** ** Types, values and predicates *)

Inductive coltype :=
  | UUID | CITEXT | Text | VARCHAR (length : Z) | Integer | BigInteger | SmallInteger
  | Boolean | DateTime | Numeric (precision scale : Z) | JSONB | CIDR.

(** [sa.Enum(..., native_enum=False)]: a [VARCHAR] of the longest value,
    without a check constraint. *)
Definition Enum (values : list string) : coltype :=
  VARCHAR (foldr (fun v n => Z.max (Z.of_nat (String.length v)) n) 0 values).

(** A stored value; [NULL] is the absence of one. *)
Inductive value :=
  | VUuid (id : uuid) | VText (s : string) | VInt (n : Z) | VBool (b : bool)
  | VTime (t : timestamp) | VCidr (c : ipv4net) | VJson (text : string).

Abbreviation row := (gmap string value).

Inductive comparison_op := Eq | Ne | Le | Ge.
Inductive operand := Col (name : string) | IntLit (n : Z) | StrLit (s : string).
Inductive predicate :=
  | Compare (op : comparison_op) (a b : operand)
  | IsNull (column : string)
  | IsNotNull (column : string)
  | And (p q : predicate)
  | Or (p q : predicate).

Notation "p 'AND' q" := (And p q) (at level 58, left associativity).
Notation "p 'OR' q" := (Or p q) (at level 59, left associativity).
Definition text_is (column text : string) : predicate := Compare Eq (Col column) (StrLit text).
Definition text_isnt (column text : string) : predicate := Compare Ne (Col column) (StrLit text).
Definition int_eq (column : string) (n : Z) : predicate := Compare Eq (Col column) (IntLit n).
Definition int_le (column : string) (n : Z) : predicate := Compare Le (Col column) (IntLit n).
Definition int_ge (column : string) (n : Z) : predicate := Compare Ge (Col column) (IntLit n).
Definition cols_le (a b : string) : predicate := Compare Le (Col a) (Col b).

(** SQL's three-valued logic; [None] is unknown. *)
Definition operand_value (r : row) (o : operand) : option value :=
  match o with Col c => r !! c | IntLit n => Some (VInt n) | StrLit s => Some (VText s) end.

Definition and3 (a b : option bool) : option bool :=
  match a, b with
  | Some false, _ | _, Some false => Some false
  | Some true, Some true => Some true
  | _, _ => None
  end.
Definition or3 (a b : option bool) : option bool := negb <$> and3 (negb <$> a) (negb <$> b).

Definition compare_values (op : comparison_op) (a b : value) : option bool :=
  match op, a, b with
  | Le, VInt m, VInt n => Some (m <=? n)
  | Ge, VInt m, VInt n => Some (n <=? m)
  | Eq, VInt m, VInt n => Some (m =? n)
  | Ne, VInt m, VInt n => Some (negb (m =? n))
  | Eq, VText s, VText t => Some (String.eqb s t)
  | Ne, VText s, VText t => Some (negb (String.eqb s t))
  | _, _, _ => None
  end.

Fixpoint eval (r : row) (p : predicate) : option bool :=
  match p with
  | Compare op a b => x ← operand_value r a; y ← operand_value r b; compare_values op x y
  | IsNull c => Some (bool_decide (r !! c = None))
  | IsNotNull c => Some (negb (bool_decide (r !! c = None)))
  | And p q => and3 (eval r p) (eval r q)
  | Or p q => or3 (eval r p) (eval r q)
  end.

(** [WHERE p]: the rows for which the predicate is true. *)
Definition holds (p : predicate) (r : row) : bool := bool_decide (eval r p = Some true).
Definition where_holds (p : option predicate) (r : row) : bool :=
  match p with None => true | Some p => holds p r end.

Fixpoint predicate_columns (p : predicate) : list string :=
  match p with
  | Compare _ a b =>
      omap (fun o => match o with Col c => Some c | _ => None end) [a; b]
  | IsNull c | IsNotNull c => [c]
  | And p q | Or p q => predicate_columns p ++ predicate_columns q
  end%list.

(** ** Schema objects *)

Record Column := mkColumn {
  col_type : coltype;
  col_nullable : bool;
  col_nextval : option string
}.

Inductive ondelete := RESTRICT | CASCADE | SET_NULL.

Inductive constr :=
  | PrimaryKeyConstraint (columns : list string)
  | UniqueConstraint (columns : list string)
  | ForeignKeyConstraint (columns : list string) (table : string) (refcolumns : list string)
      (action : ondelete)
  | CheckConstraint (p : predicate)
  | ExcludeOverlap (column : string) (where_ : option predicate).

Inductive ixpart := Plain (column : string) | Lower (column : string) | Desc (column : string).
Definition part_column (p : ixpart) : string :=
  match p with Plain c | Lower c | Desc c => c end.

Record Index := mkIndex {
  ix_table : string;
  ix_parts : list ixpart;
  ix_unique : bool;
  ix_where : option predicate;
  ix_gist : bool
}.

Record Table := mkTable {
  tb_columns : gmap string Column;
  tb_constraints : gmap string constr
}.

Record Schema := mkSchema {
  sch_tables : gmap string Table;
  sch_indexes : gmap string Index;
  sch_extensions : gset string
}.

(** A database: its schema, its rows, and the next value of each sequence. *)
Record Pg := mkPg {
  pg_schema : Schema;
  pg_rows : gmap string (list row);
  pg_sequences : gmap string Z
}.

#[global] Instance Table_eta : Eta Table := MkEta (fun r => mkTable (tb_columns r) (tb_constraints r)).
#[global] Instance Column_eta : Eta Column :=
  MkEta (fun r => mkColumn (col_type r) (col_nullable r) (col_nextval r)).
#[global] Instance Schema_eta : Eta Schema :=
  MkEta (fun r => mkSchema (sch_tables r) (sch_indexes r) (sch_extensions r)).
#[global] Instance Pg_eta : Eta Pg := MkEta (fun r => mkPg (pg_schema r) (pg_rows r) (pg_sequences r)).

#[global] Instance coltype_eq_dec : EqDecision coltype.
Proof. solve_decision. Defined.
#[global] Instance value_eq_dec : EqDecision value.
Proof. solve_decision. Defined.
#[global] Instance comparison_op_eq_dec : EqDecision comparison_op.
Proof. solve_decision. Defined.
#[global] Instance operand_eq_dec : EqDecision operand.
Proof. solve_decision. Defined.
#[global] Instance ondelete_eq_dec : EqDecision ondelete.
Proof. solve_decision. Defined.
#[global] Instance ixpart_eq_dec : EqDecision ixpart.
Proof. solve_decision. Defined.
#[global] Instance predicate_eq_dec : EqDecision predicate.
Proof. solve_decision. Defined.
#[global] Instance Column_eq_dec : EqDecision Column.
Proof. solve_decision. Defined.
#[global] Instance constr_eq_dec : EqDecision constr.
Proof. solve_decision. Defined.
#[global] Instance Index_eq_dec : EqDecision Index.
Proof. solve_decision. Defined.
#[global] Instance Table_eq_dec : EqDecision Table.
Proof. solve_decision. Defined.
#[global] Instance Schema_eq_dec : EqDecision Schema.
Proof. solve_decision. Defined.

Definition empty_schema : Schema := mkSchema ∅ ∅ ∅.
Definition empty_pg : Pg := mkPg empty_schema ∅ ∅.

(** ** Errors *)

Inductive pg_error :=
  | Duplicate (name : string)
  | Undefined (name : string)
  | DependentObjects (name : string)
  | NotUnique (name : string)
  | NotNullViolation (table column : string)
  | ConstraintViolation (name : string)
  | StringTruncation (table column : string)
  | CascadeLoop.

Definition pg (A : Type) : Type := (pg_error + A)%type.
#[global] Instance pg_ret : MRet pg := fun _ x => inr x.
#[global] Instance pg_bind : MBind pg :=
  fun _ _ f m => match m with inl e => inl e | inr x => f x end.

Definition fail_if (b : bool) (e : pg_error) : pg unit := if b then inl e else inr tt.
Definition found {A} (o : option A) (name : string) : pg A :=
  match o with Some x => inr x | None => inl (Undefined name) end.

(** Run [f] over a list, from the left. *)
Fixpoint each {A B} (f : A → B → pg B) (l : list A) (b : B) : pg B :=
  match l with [] => inr b | x :: l => f x b ≫= each f l end.

(** ** Names *)

Definition join_names (l : list string) : string := String.concat "_" l.

(** The name PostgreSQL gives a constraint declared without one. *)
Definition default_name (table : string) (c : constr) : string :=
  match c with
  | PrimaryKeyConstraint _ => table +:+ "_pkey"
  | UniqueConstraint cs => table +:+ "_" +:+ join_names cs +:+ "_key"
  | ForeignKeyConstraint cs _ _ _ => table +:+ "_" +:+ join_names cs +:+ "_fkey"
  | CheckConstraint _ => table +:+ "_check"
  | ExcludeOverlap c _ => table +:+ "_" +:+ c +:+ "_excl"
  end.

(** A primary key, a unique and an exclusion constraint own an index of their
    name; these share one name space with tables, indexes and sequences. *)
Definition indexed (c : constr) : bool :=
  match c with
  | PrimaryKeyConstraint _ | UniqueConstraint _ | ExcludeOverlap _ _ => true
  | _ => false
  end.

Definition relation_taken (name : string) (d : Pg) : bool :=
  bool_decide (is_Some (sch_tables (pg_schema d) !! name)) ||
  bool_decide (is_Some (sch_indexes (pg_schema d) !! name)) ||
  bool_decide (is_Some (pg_sequences d !! name)) ||
  existsb (fun kv => default false (indexed <$> tb_constraints kv.2 !! name))
    (map_to_list (sch_tables (pg_schema d))).

(** ** Constraints on rows *)

Definition rows_of (d : Pg) (t : string) : list row := default [] (pg_rows d !! t).

(** The key of a row; [None] when a column is [NULL], which no other key equals. *)
Definition key (columns : list string) (r : row) : option (list value) :=
  mapM (fun c => r !! c) columns.

(** What a unique index compares: [CITEXT] columns and [lower(...)] fold case. *)
Definition fold_case (v : value) : value := match v with VText s => VText (lower s) | _ => v end.
Definition index_value (tb : Table) (r : row) (p : ixpart) : option value :=
  let fold := match p with
              | Lower _ => true
              | _ => bool_decide ((col_type <$> tb_columns tb !! part_column p) = Some CITEXT)
              end in
  (if fold then fold_case else id) <$> r !! part_column p.
Definition index_key (tb : Table) (parts : list ixpart) (r : row) : option (list value) :=
  mapM (index_value tb r) parts.

Definition distinct_keys (keys : list (option (list value))) : bool :=
  let present := omap id keys in bool_decide (NoDup present).

Fixpoint pairwise {A} (ok : A → A → bool) (l : list A) : bool :=
  match l with [] => true | x :: l => forallb (ok x) l && pairwise ok l end.

Definition apart (c : string) (r s : row) : bool :=
  match r !! c, s !! c with
  | Some (VCidr a), Some (VCidr b) => negb (cidr_overlap a b)
  | _, _ => true
  end.

Definition satisfies (d : Pg) (t : string) (tb : Table) (c : constr) : bool :=
  let rows := rows_of d t in
  match c with
  | PrimaryKeyConstraint cs =>
      forallb (fun r => bool_decide (is_Some (key cs r))) rows &&
      distinct_keys (index_key tb (Plain <$> cs) <$> rows)
  | UniqueConstraint cs => distinct_keys (index_key tb (Plain <$> cs) <$> rows)
  | ForeignKeyConstraint cs u refs _ =>
      forallb (fun r => match key cs r with
                        | None => true
                        | Some k => existsb (fun p => bool_decide (key refs p = Some k)) (rows_of d u)
                        end) rows
  | CheckConstraint p => forallb (fun r => negb (bool_decide (eval r p = Some false))) rows
  | ExcludeOverlap c w => pairwise (apart c) (List.filter (where_holds w) rows)
  end.

Definition index_satisfied (d : Pg) (tb : Table) (ix : Index) : bool :=
  negb (ix_unique ix) ||
  distinct_keys (index_key tb (ix_parts ix) <$> List.filter (where_holds (ix_where ix)) (rows_of d (ix_table ix))).

(** A foreign key needs a unique key on what it refers to. *)
Definition unique_on (cs : list string) (c : constr) : bool :=
  match c with
  | PrimaryKeyConstraint ds | UniqueConstraint ds => bool_decide (ds = cs)
  | _ => false
  end.
Definition has_key (tb : Table) (cs : list string) : bool :=
  existsb (fun kv => unique_on cs kv.2) (map_to_list (tb_constraints tb)).

(** The foreign keys that refer to a table: the table they are on, their columns,
    the columns referred to and the action. *)
Definition references_in (t : string) (u : string * Table)
    : list (string * (list string * list string * ondelete)) :=
  omap (fun kc => match kc.2 with
                  | ForeignKeyConstraint cs t' refs a =>
                      if bool_decide (t' = t) then Some (u.1, (cs, refs, a)) else None
                  | _ => None
                  end) (map_to_list (tb_constraints u.2)).
Definition references (s : Schema) (t : string)
    : list (string * (list string * list string * ondelete)) :=
  map_to_list (sch_tables s) ≫= references_in t.

Definition constr_columns (c : constr) : list string :=
  match c with
  | PrimaryKeyConstraint cs | UniqueConstraint cs | ForeignKeyConstraint cs _ _ _ => cs
  | CheckConstraint p => predicate_columns p
  | ExcludeOverlap c w => c :: default [] (predicate_columns <$> w)
  end.
Definition index_columns (ix : Index) : list string :=
  ((part_column <$> ix_parts ix) ++ default [] (predicate_columns <$> ix_where ix))%list.

(** ** Writing *)

Definition put_table (t : string) (tb : Table) (d : Pg) : Pg :=
  d <| pg_schema := pg_schema d <| sch_tables := <[t := tb]> (sch_tables (pg_schema d)) |> |>.
Definition put_rows (t : string) (rows : list row) (d : Pg) : Pg :=
  d <| pg_rows := <[t := rows]> (pg_rows d) |>.
Definition table_of (d : Pg) (t : string) : pg Table := found (sch_tables (pg_schema d) !! t) t.

Definition sequence_exists (d : Pg) (c : Column) : pg unit :=
  match col_nextval c with
  | None => inr tt
  | Some s => fail_if (bool_decide (pg_sequences d !! s = None)) (Undefined s)
  end.

Definition add_constraint (t : string) (nc : option string * constr) (d : Pg) : pg Pg :=
  let name := default (default_name t nc.2) nc.1 in
  tb ← table_of d t;
  fail_if (bool_decide (is_Some (tb_constraints tb !! name)) ||
           indexed nc.2 && relation_taken name d) (Duplicate name);;
  fail_if (existsb (fun c => bool_decide (tb_columns tb !! c = None)) (constr_columns nc.2))
    (Undefined name);;
  match nc.2 with
  | ForeignKeyConstraint _ u refs _ =>
      ref ← table_of d u; fail_if (negb (has_key ref refs)) (NotUnique name)
  | _ => inr tt
  end;;
  fail_if (negb (satisfies d t tb nc.2)) (ConstraintViolation name);;
  inr (put_table t (tb <| tb_constraints := <[name := nc.2]> (tb_constraints tb) |>) d).

(** Deleting rows, with what their references ask for.  Each level of the
    recursion follows one reference; [fuel] bounds the length of such a chain. *)
Definition refers (cs refs : list string) (gone : list row) (r : row) : bool :=
  match key cs r with
  | None => false
  | Some k => existsb (fun g => bool_decide (key refs g = Some k)) gone
  end.

Definition clear_columns (cs : list string) (r : row) : row := foldr delete r cs.

Fixpoint delete_rows (fuel : nat) (t : string) (gone : row → bool) (d : Pg) : pg Pg :=
  match fuel with
  | O => inl CascadeLoop
  | S fuel =>
      let dead := List.filter gone (rows_of d t) in
      let d := put_rows t (List.filter (fun r => negb (gone r)) (rows_of d t)) d in
      each (fun ref d =>
        let '(u, (cs, refs, action)) := ref in
        let hit := refers cs refs dead in
        if negb (existsb hit (rows_of d u)) then inr d else
        match action with
        | RESTRICT => inl (ConstraintViolation (u +:+ "_" +:+ join_names cs +:+ "_fkey"))
        | CASCADE => delete_rows fuel u hit d
        | SET_NULL => inr (put_rows u ((fun r => if hit r then clear_columns cs r else r) <$> rows_of d u) d)
        end) (references (pg_schema d) t) d
  end.

(** [UPDATE t SET c = nextval(seq)], the rows taken in the order they are stored. *)
Fixpoint number_rows (c : string) (n : Z) (rows : list row) : list row :=
  match rows with [] => [] | r :: rows => <[c := VInt n]> r :: number_rows c (n + 1) rows end.

(** ** Alembic operations *)

(** A column as [op.create_table] and [op.add_column] take it. *)
Definition column_def : Type := string * Column.
Definition colm (name : string) (type : coltype) (nullable : bool) : column_def :=
  (name, mkColumn type nullable None).

Inductive operation :=
  | create_table (name : string) (columns : list column_def)
      (constraints : list (option string * constr))
  | drop_table (name : string)
  | add_column (table : string) (column : column_def) (reference : option (string * string * ondelete))
  | drop_column (table column : string)
  | alter_column (table column : string) (type : option coltype) (nullable : option bool)
      (server_default : option string)
  | create_constraint (name table : string) (c : constr)
  | drop_constraint (name table : string)
  | create_index (name : string) (ix : Index)
  | drop_index (name table : string)
  | create_extension (name : string)
  | create_sequence (name : string) (start : Z)
  | drop_sequence (name : string)
  | update_nextval (table column sequence : string)
  | delete_where (table : string) (p : predicate).

(** Text that fits the new type of a column. *)
Definition value_fits (ty : coltype) (v : value) : bool :=
  match ty, v with
  | VARCHAR n, VText s => Z.of_nat (String.length s) <=? n
  | _, _ => true
  end.
Definition cell_fits (ty : coltype) (c : string) (r : row) : bool :=
  default true (value_fits ty <$> r !! c).

Definition no_nulls (c : string) (rows : list row) : bool :=
  forallb (fun r => bool_decide (is_Some (r !! c))) rows.

Definition run_create_table (t : string) (columns : list column_def)
    (constraints : list (option string * constr)) (d : Pg) : pg Pg :=
  fail_if (relation_taken t d) (Duplicate t);;
  each (fun c d => sequence_exists d c.2;; inr d) columns d ≫= fun d =>
  let d := put_rows t [] (put_table t (mkTable (list_to_map columns) ∅) d) in
  each (add_constraint t) constraints d.

Definition run_drop_table (t : string) (d : Pg) : pg Pg :=
  table_of d t;;
  fail_if (existsb (fun ref => negb (bool_decide (ref.1 = t))) (references (pg_schema d) t))
    (DependentObjects t);;
  inr (d <| pg_schema := pg_schema d
               <| sch_tables := delete t (sch_tables (pg_schema d)) |>
               <| sch_indexes := filter (fun kv => ix_table kv.2 ≠ t) (sch_indexes (pg_schema d)) |> |>
         <| pg_rows := delete t (pg_rows d) |>).

Definition run_add_column (t : string) (c : column_def) (reference : option (string * string * ondelete))
    (d : Pg) : pg Pg :=
  tb ← table_of d t;
  fail_if (bool_decide (is_Some (tb_columns tb !! c.1))) (Duplicate c.1);;
  sequence_exists d c.2;;
  fail_if (negb (col_nullable c.2) && negb (bool_decide (rows_of d t = []))) (NotNullViolation t c.1);;
  let d := put_table t (tb <| tb_columns := <[c.1 := c.2]> (tb_columns tb) |>) d in
  match reference with
  | None => inr d
  | Some (u, ref, action) => add_constraint t (None, ForeignKeyConstraint [c.1] u [ref] action) d
  end.

(** Dropping a column takes the table's constraints and indexes on it along. *)
Definition run_drop_column (t c : string) (d : Pg) : pg Pg :=
  tb ← table_of d t;
  found (tb_columns tb !! c) c;;
  fail_if (existsb (fun ref => negb (bool_decide (ref.1 = t)) && bool_decide (c ∈ ref.2.1.2))
             (references (pg_schema d) t)) (DependentObjects c);;
  let tb := mkTable (delete c (tb_columns tb))
              (filter (fun kv => c ∉ constr_columns kv.2) (tb_constraints tb)) in
  let s := pg_schema d in
  let d := d <| pg_schema := s <| sch_indexes :=
      filter (fun kv => ¬ (ix_table kv.2 = t ∧ c ∈ index_columns kv.2)) (sch_indexes s) |> |> in
  inr (put_rows t (delete c <$> rows_of d t) (put_table t tb d)).

Definition run_alter_column (t c : string) (type : option coltype) (nullable : option bool)
    (server_default : option string) (d : Pg) : pg Pg :=
  tb ← table_of d t;
  col ← found (tb_columns tb !! c) c;
  fail_if (bool_decide (nullable = Some false) && negb (no_nulls c (rows_of d t))) (NotNullViolation t c);;
  fail_if (negb (default true ((fun ty => forallb (cell_fits ty c) (rows_of d t)) <$> type)))
    (StringTruncation t c);;
  let col := mkColumn (default (col_type col) type) (default (col_nullable col) nullable)
               (match server_default with Some s => Some s | None => col_nextval col end) in
  sequence_exists d col;;
  inr (put_table t (tb <| tb_columns := <[c := col]> (tb_columns tb) |>) d).

(** A key that a foreign key refers to cannot be dropped. *)
Definition run_drop_constraint (name t : string) (d : Pg) : pg Pg :=
  tb ← table_of d t;
  c ← found (tb_constraints tb !! name) name;
  fail_if (existsb (fun ref => unique_on ref.2.1.2 c) (references (pg_schema d) t))
    (DependentObjects name);;
  inr (put_table t (tb <| tb_constraints := delete name (tb_constraints tb) |>) d).

Definition run_create_index (name : string) (ix : Index) (d : Pg) : pg Pg :=
  tb ← table_of d (ix_table ix);
  fail_if (relation_taken name d) (Duplicate name);;
  fail_if (existsb (fun c => bool_decide (tb_columns tb !! c = None)) (index_columns ix)) (Undefined name);;
  fail_if (negb (index_satisfied d tb ix)) (ConstraintViolation name);;
  inr (d <| pg_schema := pg_schema d
               <| sch_indexes := <[name := ix]> (sch_indexes (pg_schema d)) |> |>).

Definition run_drop_index (name t : string) (d : Pg) : pg Pg :=
  ix ← found (sch_indexes (pg_schema d) !! name) name;
  inr (d <| pg_schema := pg_schema d
               <| sch_indexes := delete name (sch_indexes (pg_schema d)) |> |>).

(** A sequence that a column takes its default from cannot be dropped. *)
Definition run_drop_sequence (name : string) (d : Pg) : pg Pg :=
  found (pg_sequences d !! name) name;;
  fail_if (existsb (fun kv => existsb (fun c => bool_decide (col_nextval c.2 = Some name))
                                (map_to_list (tb_columns kv.2)))
             (map_to_list (sch_tables (pg_schema d)))) (DependentObjects name);;
  inr (d <| pg_sequences := delete name (pg_sequences d) |>).

(** An update is checked against the constraints of its table. *)
Definition run_update_nextval (t c s : string) (d : Pg) : pg Pg :=
  tb ← table_of d t;
  found (tb_columns tb !! c) c;;
  n ← found (pg_sequences d !! s) s;
  let rows := number_rows c n (rows_of d t) in
  let d := put_rows t rows (d <| pg_sequences :=
             <[s := n + Z.of_nat (length rows)]> (pg_sequences d) |>) in
  fail_if (negb (forallb (fun kv => satisfies d t tb kv.2) (map_to_list (tb_constraints tb))))
    (ConstraintViolation c);;
  inr d.

Definition run_operation (o : operation) (d : Pg) : pg Pg :=
  match o with
  | create_table t columns constraints => run_create_table t columns constraints d
  | drop_table t => run_drop_table t d
  | add_column t c reference => run_add_column t c reference d
  | drop_column t c => run_drop_column t c d
  | alter_column t c type nullable server_default => run_alter_column t c type nullable server_default d
  | create_constraint name t c => add_constraint t (Some name, c) d
  | drop_constraint name t => run_drop_constraint name t d
  | create_index name ix => run_create_index name ix d
  | drop_index name t => run_drop_index name t d
  | create_extension name =>
      inr (d <| pg_schema := pg_schema d
                  <| sch_extensions := {[name]} ∪ sch_extensions (pg_schema d) |> |>)
  | create_sequence name start =>
      fail_if (relation_taken name d) (Duplicate name);;
      inr (d <| pg_sequences := <[name := start]> (pg_sequences d) |>)
  | drop_sequence name => run_drop_sequence name d
  | update_nextval t c s => run_update_nextval t c s d
  | delete_where t p =>
      table_of d t;;
      delete_rows (S (size (sch_tables (pg_schema d)))) t (holds p) d
  end.

Definition run (ops : list operation) (d : Pg) : pg Pg := each run_operation ops d.

(** ** Revisions *)

Record Revision := mkRevision {
  rev_id : string;
  rev_down : option string;
  rev_upgrade : list operation;
  rev_downgrade : list operation
}.

(** [context.begin_transaction()] around [context.run_migrations()]: all the
    revisions asked for commit together, or none does. *)
Definition run_migrations (steps : list (list operation)) (d : Pg) : option pg_error * Pg :=
  match run (concat steps) d with
  | inl e => (Some e, d)
  | inr d' => (None, d')
  end.
