(* ===== verification/Migrations.v ===== *)
(** * The migrations ([src/control-plane/migrations/versions])

    One list of operations per [upgrade] and [downgrade], in the order of the
    source, and the chain of revisions. *)

From S2P Require Import Prelude Schema.
Open Scope Z_scope.
Open Scope string_scope.
Open Scope list_scope.

(** ** 0001: baseline *)

Definition upgrade_0001 : list operation :=
  [].

Definition downgrade_0001 : list operation :=
  [].

Definition rev_0001 : Revision :=
  mkRevision "20260707_0001" None upgrade_0001 downgrade_0001.

(** ** 0002: auth models *)

Definition upgrade_0002 : list operation :=
  [create_extension "citext";
   create_table "tenants"
     [colm "id" UUID false;
      colm "name" (VARCHAR 255) false;
      colm "status" (Enum ["active"; "suspended"]) false;
      colm "created_at" DateTime false;
      colm "updated_at" DateTime false]
     [(None, PrimaryKeyConstraint ["id"])];
   create_table "users"
     [colm "id" UUID false;
      colm "tenant_id" UUID true;
      colm "role" (Enum ["admin"; "tenant_user"]) false;
      colm "username" CITEXT false;
      colm "password_hash" Text false;
      colm "status" (Enum ["active"; "disabled"]) false;
      colm "session_version" Integer false;
      colm "last_login_at" DateTime true;
      colm "created_at" DateTime false;
      colm "updated_at" DateTime false]
     [(Some "ck_users_role_tenant", CheckConstraint (text_is "role" "admin" AND
       IsNull "tenant_id" OR text_is "role" "tenant_user" AND IsNotNull "tenant_id"));
      (None, ForeignKeyConstraint ["tenant_id"] "tenants" ["id"] RESTRICT);
      (None, PrimaryKeyConstraint ["id"]);
      (None, UniqueConstraint ["username"])];
   create_table "audit_events"
     [colm "id" UUID false;
      colm "actor_user_id" UUID true;
      colm "actor_username" (VARCHAR 255) false;
      colm "action" (VARCHAR 128) false;
      colm "target_type" (VARCHAR 64) true;
      colm "target_id" (VARCHAR 128) true;
      colm "outcome" (VARCHAR 32) false;
      colm "ip_address" (VARCHAR 64) true;
      colm "metadata" JSONB false;
      colm "created_at" DateTime false]
     [(None, ForeignKeyConstraint ["actor_user_id"] "users" ["id"] SET_NULL);
      (None, PrimaryKeyConstraint ["id"])];
   create_index "ix_audit_events_created_at"
     (mkIndex "audit_events" [Plain "created_at"] false None false)].

Definition downgrade_0002 : list operation :=
  [drop_index "ix_audit_events_created_at" "audit_events";
   drop_table "audit_events";
   drop_table "users";
   drop_table "tenants"].

Definition rev_0002 : Revision :=
  mkRevision "20260707_0002" (Some "20260707_0001") upgrade_0002 downgrade_0002.

(** ** 0003: allocated cidr *)

Definition upgrade_0003 : list operation :=
  [alter_column "tenants" "name" (Some CITEXT) None None;
   create_constraint "uq_tenants_name" "tenants" (UniqueConstraint ["name"]);
   create_table "allocated_cidr"
     [colm "id" UUID false;
      colm "tenant_id" UUID false;
      colm "cidr" CIDR false;
      colm "status" (Enum ["active"; "revoked"]) false;
      colm "allocated_by" UUID true;
      colm "created_at" DateTime false;
      colm "updated_at" DateTime false]
     [(None, ForeignKeyConstraint ["allocated_by"] "users" ["id"] SET_NULL);
      (None, ForeignKeyConstraint ["tenant_id"] "tenants" ["id"] RESTRICT);
      (None, PrimaryKeyConstraint ["id"])];
   create_constraint "allocated_cidr_active_no_overlap" "allocated_cidr" (ExcludeOverlap "cidr"
     (Some (text_is "status" "active")));
   create_index "ix_allocated_cidr_tenant_active"
     (mkIndex "allocated_cidr" [Plain "tenant_id"] false (Some
     (text_is "status" "active")) false)].

Definition downgrade_0003 : list operation :=
  [drop_index "ix_allocated_cidr_tenant_active" "allocated_cidr";
   drop_constraint "allocated_cidr_active_no_overlap" "allocated_cidr";
   drop_table "allocated_cidr";
   drop_constraint "uq_tenants_name" "tenants";
   alter_column "tenants" "name" (Some (VARCHAR 255)) None None].

Definition rev_0003 : Revision :=
  mkRevision "20260707_0003" (Some "20260707_0002") upgrade_0003 downgrade_0003.

(** ** 0004: service rule list *)

Definition upgrade_0004 : list operation :=
  [create_table "protected_service"
     [colm "id" UUID false;
      colm "tenant_id" UUID false;
      colm "name" (VARCHAR 255) false;
      colm "cidr_or_ip" CIDR false;
      colm "mode" (Enum ["allow-rule-only"]) false;
      colm "enabled" Boolean false;
      colm "vip_pps" BigInteger true;
      colm "vip_bps" BigInteger true;
      colm "apply_status" (Enum ["pending"; "queued"; "applying"; "active"; "failed"]) false;
      colm "version" Integer false;
      colm "active_version" Integer true;
      colm "created_by" UUID true;
      colm "created_at" DateTime false;
      colm "updated_at" DateTime false]
     [(None, ForeignKeyConstraint ["created_by"] "users" ["id"] SET_NULL);
      (None, ForeignKeyConstraint ["tenant_id"] "tenants" ["id"] RESTRICT);
      (None, PrimaryKeyConstraint ["id"])];
   create_constraint "protected_service_dest_no_overlap" "protected_service"
     (ExcludeOverlap "cidr_or_ip" None);
   create_index "ix_protected_service_tenant"
     (mkIndex "protected_service" [Plain "tenant_id"] false None false);
   create_index "uq_protected_service_tenant_lower_name"
     (mkIndex "protected_service" [Plain "tenant_id"; Lower "name"] true None false);
   create_table "service_plan"
     [colm "id" UUID false;
      colm "service_id" UUID false;
      colm "committed_clean_gbps" (Numeric 10 2) false;
      colm "ceiling_clean_gbps" (Numeric 10 2) false;
      colm "billing_metric" (VARCHAR 64) false;
      colm "overage_policy" (Enum ["billed"; "capped"]) false;
      colm "created_at" DateTime false;
      colm "updated_at" DateTime false]
     [(Some "ck_service_plan_committed_le_ceiling", CheckConstraint
       (int_ge "committed_clean_gbps" 0 AND
       cols_le "committed_clean_gbps" "ceiling_clean_gbps"));
      (None, ForeignKeyConstraint ["service_id"] "protected_service" ["id"] CASCADE);
      (None, PrimaryKeyConstraint ["id"]);
      (None, UniqueConstraint ["service_id"])];
   create_table "allow_rule"
     [colm "id" UUID false;
      colm "service_id" UUID false;
      colm "priority" Integer false;
      colm "protocol" (Enum ["tcp"; "udp"; "icmp"; "any"]) false;
      colm "src_port_lo" Integer true;
      colm "src_port_hi" Integer true;
      colm "dst_port_lo" Integer true;
      colm "dst_port_hi" Integer true;
      colm "pps" BigInteger true;
      colm "bps" BigInteger true;
      colm "enabled" Boolean false;
      colm "created_at" DateTime false;
      colm "updated_at" DateTime false]
     [(Some "ck_allow_rule_src_port_range", CheckConstraint (IsNull "src_port_lo" AND
       IsNull "src_port_hi" OR int_ge "src_port_lo" 0 AND int_le "src_port_lo" 65535 AND
       int_ge "src_port_hi" 0 AND int_le "src_port_hi" 65535 AND
       cols_le "src_port_lo" "src_port_hi"));
      (Some "ck_allow_rule_dst_port_range", CheckConstraint (IsNull "dst_port_lo" AND
        IsNull "dst_port_hi" OR int_ge "dst_port_lo" 0 AND int_le "dst_port_lo" 65535 AND
        int_ge "dst_port_hi" 0 AND int_le "dst_port_hi" 65535 AND
        cols_le "dst_port_lo" "dst_port_hi"));
      (None, ForeignKeyConstraint ["service_id"] "protected_service" ["id"] CASCADE);
      (None, PrimaryKeyConstraint ["id"]);
      (Some "uq_allow_rule_service_priority", UniqueConstraint ["service_id"; "priority"])];
   create_table "whitelist_entry"
     [colm "id" UUID false;
      colm "service_id" UUID false;
      colm "source_cidr" CIDR false;
      colm "created_by" UUID true;
      colm "created_at" DateTime false]
     [(None, ForeignKeyConstraint ["created_by"] "users" ["id"] SET_NULL);
      (None, ForeignKeyConstraint ["service_id"] "protected_service" ["id"] CASCADE);
      (None, PrimaryKeyConstraint ["id"]);
      (Some "uq_whitelist_service_source_cidr", UniqueConstraint ["service_id";
        "source_cidr"])];
   create_table "blacklist_entry"
     [colm "id" UUID false;
      colm "service_id" UUID true;
      colm "scope" (Enum ["service"; "global"]) false;
      colm "source" (Enum ["manual"; "feed"]) false;
      colm "source_cidr" CIDR false;
      colm "created_by" UUID true;
      colm "created_at" DateTime false]
     [(Some "ck_blacklist_scope_service_id", CheckConstraint (text_is "scope" "service" AND
       IsNotNull "service_id" OR text_is "scope" "global" AND IsNull "service_id"));
      (None, ForeignKeyConstraint ["created_by"] "users" ["id"] SET_NULL);
      (None, ForeignKeyConstraint ["service_id"] "protected_service" ["id"] CASCADE);
      (None, PrimaryKeyConstraint ["id"])];
   create_index "uq_blacklist_service_source_cidr"
     (mkIndex "blacklist_entry" [Plain "service_id"; Plain "source_cidr"] true (Some
     (text_is "scope" "service")) false);
   create_index "uq_blacklist_global_source_cidr"
     (mkIndex "blacklist_entry" [Plain "source_cidr"] true (Some
     (text_is "scope" "global")) false)].

Definition downgrade_0004 : list operation :=
  [drop_index "uq_blacklist_global_source_cidr" "blacklist_entry";
   drop_index "uq_blacklist_service_source_cidr" "blacklist_entry";
   drop_table "blacklist_entry";
   drop_table "whitelist_entry";
   drop_table "allow_rule";
   drop_table "service_plan";
   drop_index "uq_protected_service_tenant_lower_name" "protected_service";
   drop_index "ix_protected_service_tenant" "protected_service";
   drop_constraint "protected_service_dest_no_overlap" "protected_service";
   drop_table "protected_service"].

Definition rev_0004 : Revision :=
  mkRevision "20260707_0004" (Some "20260707_0003") upgrade_0004 downgrade_0004.

(** ** 0005: apply status *)

Definition upgrade_0005 : list operation :=
  [create_table "agent_job"
     [colm "id" UUID false;
      colm "target_type" (VARCHAR 32) false;
      colm "target_id" UUID false;
      colm "version" Integer false;
      colm "job_type" (Enum ["SERVICE_UPDATE"]) false;
      colm "trigger" (Enum ["service"; "plan"; "rule"; "whitelist"; "blacklist"; "enable";
        "disable"]) false;
      colm "status" (Enum ["queued"; "applying"; "succeeded"; "failed"; "superseded"]) false;
      colm "error" Text true;
      colm "attempts" Integer false;
      colm "dispatched_at" DateTime true;
      colm "created_at" DateTime false;
      colm "started_at" DateTime true;
      colm "finished_at" DateTime true]
     [(None, ForeignKeyConstraint ["target_id"] "protected_service" ["id"] CASCADE);
      (None, PrimaryKeyConstraint ["id"]);
      (Some "agent_job_target_version_unique", UniqueConstraint ["target_type"; "target_id";
        "version"])];
   create_index "ix_agent_job_status" (mkIndex "agent_job" [Plain "status"] false None false);
   create_index "ix_agent_job_target" (mkIndex "agent_job" [Plain "target_type";
     Plain "target_id"] false None false)].

Definition downgrade_0005 : list operation :=
  [drop_index "ix_agent_job_target" "agent_job";
   drop_index "ix_agent_job_status" "agent_job";
   drop_table "agent_job"].

Definition rev_0005 : Revision :=
  mkRevision "20260708_0005" (Some "20260707_0004") upgrade_0005 downgrade_0005.

(** ** 0006: threat feed persistence *)

Definition upgrade_0006 : list operation :=
  [create_table "threat_feed_source"
     [colm "id" UUID false;
      colm "name" CITEXT false;
      colm "url" Text false;
      colm "format" (Enum ["line_list"]) false;
      colm "enabled" Boolean false;
      colm "sync_interval_seconds" Integer false;
      colm "credential_env_var" (VARCHAR 128) true;
      colm "sync_sequence" BigInteger false;
      colm "last_status" (Enum ["queued"; "running"; "success"; "partial"; "failed"]) true;
      colm "last_error" Text true;
      colm "last_sync_at" DateTime true;
      colm "next_sync_at" DateTime true;
      colm "deleted_at" DateTime true;
      colm "created_at" DateTime false;
      colm "updated_at" DateTime false]
     [(Some "ck_threat_feed_source_sync_interval", CheckConstraint
       (int_ge "sync_interval_seconds" 300 AND int_le "sync_interval_seconds" 604800));
      (None, PrimaryKeyConstraint ["id"]);
      (Some "uq_threat_feed_source_name", UniqueConstraint ["name"])];
   create_table "feed_sync_run"
     [colm "id" UUID false;
      colm "feed_source_id" UUID false;
      colm "source_name" (VARCHAR 255) false;
      colm "sequence" BigInteger false;
      colm "trigger" (Enum ["service"; "plan"; "rule"; "whitelist"; "blacklist"; "enable";
        "disable"; "feed_manual"; "feed_schedule"; "feed_delete"; "feed_dry_run";
        "global_deny_retry"]) false;
      colm "dry_run" Boolean false;
      colm "status" (Enum ["queued"; "running"; "success"; "partial"; "failed"]) false;
      colm "started_at" DateTime true;
      colm "finished_at" DateTime true;
      colm "duration_ms" Integer true;
      colm "error" Text true;
      colm "fetched_lines" Integer false;
      colm "valid" Integer false;
      colm "duplicates" Integer false;
      colm "added" Integer false;
      colm "removed" Integer false;
      colm "skipped_invalid" Integer false;
      colm "overlap_count" Integer false;
      colm "global_changed" Boolean false;
      colm "desired_revision" BigInteger true;
      colm "node_map_version" BigInteger true]
     [(None, ForeignKeyConstraint ["feed_source_id"] "threat_feed_source" ["id"] RESTRICT);
      (None, PrimaryKeyConstraint ["id"]);
      (Some "uq_feed_sync_run_source_sequence", UniqueConstraint ["feed_source_id";
        "sequence"])];
   create_table "feed_blacklist_assertion"
     [colm "feed_source_id" UUID false;
      colm "blacklist_entry_id" UUID false;
      colm "first_seen_at" DateTime false;
      colm "last_seen_at" DateTime false]
     [(None, ForeignKeyConstraint ["blacklist_entry_id"] "blacklist_entry" ["id"] CASCADE);
      (None, ForeignKeyConstraint ["feed_source_id"] "threat_feed_source" ["id"] CASCADE);
      (None, PrimaryKeyConstraint ["feed_source_id"; "blacklist_entry_id"])];
   create_index "ix_feed_blacklist_assertion_blacklist_entry_id"
     (mkIndex "feed_blacklist_assertion" [Plain "blacklist_entry_id"] false None false);
   create_table "feed_sync_overlap"
     [colm "id" UUID false;
      colm "feed_sync_run_id" UUID false;
      colm "feed_source_cidr" CIDR false;
      colm "whitelist_entry_id" UUID false;
      colm "service_id" UUID false;
      colm "created_at" DateTime false]
     [(None, ForeignKeyConstraint ["feed_sync_run_id"] "feed_sync_run" ["id"] CASCADE);
      (None, ForeignKeyConstraint ["whitelist_entry_id"] "whitelist_entry" ["id"] CASCADE);
      (None, PrimaryKeyConstraint ["id"]);
      (Some "uq_feed_sync_overlap_run_cidr_whitelist", UniqueConstraint ["feed_sync_run_id";
        "feed_source_cidr"; "whitelist_entry_id"])];
   create_table "global_deny_state"
     [colm "id" Integer false;
      colm "desired_revision" BigInteger false;
      colm "active_revision" BigInteger false;
      colm "desired_digest" (VARCHAR 64) true;
      colm "active_digest" (VARCHAR 64) true;
      colm "apply_status" (Enum ["pending"; "queued"; "applying"; "active"; "failed"]) false;
      colm "last_error" Text true;
      colm "last_node_map_version" BigInteger true;
      colm "updated_at" DateTime false]
     [(Some "ck_global_deny_state_singleton", CheckConstraint (int_eq "id" 1));
      (None, PrimaryKeyConstraint ["id"])];
   create_index "ix_whitelist_entry_source_cidr_gist"
     (mkIndex "whitelist_entry" [Plain "source_cidr"] false None true);
   add_column "agent_job" (colm "feed_sync_run_id" UUID true) None;
   alter_column "agent_job" "target_id" None (Some true) None;
   alter_column "agent_job" "job_type" (Some (VARCHAR 17)) None None;
   alter_column "agent_job" "trigger" (Some (VARCHAR 17)) None None;
   drop_constraint "agent_job_target_version_unique" "agent_job";
   create_constraint "agent_job_feed_sync_run_id_fkey" "agent_job"
     (ForeignKeyConstraint ["feed_sync_run_id"] "feed_sync_run" ["id"] CASCADE);
   create_constraint "ck_agent_job_target_shape" "agent_job"
     (CheckConstraint (text_is "job_type" "SERVICE_UPDATE" AND
       text_is "target_type" "service" AND IsNotNull "target_id" AND
       IsNull "feed_sync_run_id" OR text_is "job_type" "FEED_SYNC" AND
       text_is "target_type" "feed_sync_run" AND IsNull "target_id" AND
       IsNotNull "feed_sync_run_id" OR text_is "job_type" "GLOBAL_DENY_APPLY" AND
       text_is "target_type" "global_deny" AND IsNull "target_id" AND
       IsNull "feed_sync_run_id"));
   create_index "uq_agent_job_service_target_version" (mkIndex "agent_job" [Plain "target_id";
     Plain "version"] true (Some (text_is "job_type" "SERVICE_UPDATE")) false);
   create_index "uq_agent_job_feed_sync_run"
     (mkIndex "agent_job" [Plain "feed_sync_run_id"] true (Some
     (text_is "job_type" "FEED_SYNC")) false);
   create_index "uq_agent_job_global_deny_revision" (mkIndex "agent_job" [Plain "version"] true
     (Some (text_is "job_type" "GLOBAL_DENY_APPLY")) false)].

Definition downgrade_0006 : list operation :=
  [drop_index "uq_agent_job_global_deny_revision" "agent_job";
   drop_index "uq_agent_job_feed_sync_run" "agent_job";
   drop_index "uq_agent_job_service_target_version" "agent_job";
   drop_constraint "ck_agent_job_target_shape" "agent_job";
   drop_constraint "agent_job_feed_sync_run_id_fkey" "agent_job";
   drop_column "agent_job" "feed_sync_run_id";
   delete_where "agent_job" (text_isnt "job_type" "SERVICE_UPDATE");
   alter_column "agent_job" "target_id" None (Some false) None;
   alter_column "agent_job" "job_type" (Some (VARCHAR 14)) None None;
   alter_column "agent_job" "trigger" (Some (VARCHAR 9)) None None;
   create_constraint "agent_job_target_version_unique" "agent_job"
     (UniqueConstraint ["target_type"; "target_id"; "version"]);
   drop_index "ix_whitelist_entry_source_cidr_gist" "whitelist_entry";
   drop_table "global_deny_state";
   drop_table "feed_sync_overlap";
   drop_index "ix_feed_blacklist_assertion_blacklist_entry_id" "feed_blacklist_assertion";
   drop_table "feed_blacklist_assertion";
   drop_table "feed_sync_run";
   drop_table "threat_feed_source"].

Definition rev_0006 : Revision :=
  mkRevision "20260710_0006" (Some "20260708_0005") upgrade_0006 downgrade_0006.

(** ** 0007: add protected service data-plane surrogate *)

Definition upgrade_0007 : list operation :=
  [create_sequence "service_dp_id_seq" 1;
   add_column "protected_service" (colm "dp_id" Integer true) None;
   update_nextval "protected_service" "dp_id" "service_dp_id_seq";
   alter_column "protected_service" "dp_id" None (Some false) (Some "service_dp_id_seq");
   create_constraint "uq_protected_service_dp_id" "protected_service"
     (UniqueConstraint ["dp_id"])].

Definition downgrade_0007 : list operation :=
  [drop_constraint "uq_protected_service_dp_id" "protected_service";
   drop_column "protected_service" "dp_id";
   drop_sequence "service_dp_id_seq"].

Definition rev_0007 : Revision :=
  mkRevision "20260710_0007" (Some "20260710_0006") upgrade_0007 downgrade_0007.

(** ** 0008: add telemetry persistence models *)

Definition upgrade_0008 : list operation :=
  [create_table "telemetry_counter"
     [colm "id" UUID false;
      colm "scope" (Enum ["service"; "node"]) false;
      colm "service_id" UUID true;
      colm "dp_id" Integer true;
      colm "window_start" DateTime false;
      colm "window_seconds" Integer false;
      colm "clean_pkts" BigInteger false;
      colm "clean_bytes" BigInteger false;
      colm "drop_pkts" BigInteger false;
      colm "drop_bytes" BigInteger false;
      colm "drop_by_reason" JSONB false;
      colm "pps" BigInteger false;
      colm "bps" BigInteger false;
      colm "top_dst_ports" JSONB true;
      colm "top_src" JSONB true;
      colm "is_baseline" Boolean false;
      colm "created_at" DateTime false]
     [(None, ForeignKeyConstraint ["service_id"] "protected_service" ["id"] SET_NULL);
      (None, PrimaryKeyConstraint ["id"])];
   create_index "ix_telemetry_counter_scope_service_window_start"
     (mkIndex "telemetry_counter" [Plain "scope"; Plain "service_id";
     Desc "window_start"] false None false);
   create_index "ix_telemetry_counter_scope_window_start"
     (mkIndex "telemetry_counter" [Plain "scope"; Desc "window_start"] false None false);
   create_table "node_health_snapshot"
     [colm "id" UUID false;
      colm "captured_at" DateTime false;
      colm "window_seconds" Integer false;
      colm "xdp_mode" (Enum ["native"; "generic"; "offline"; "unknown"]) false;
      colm "active_slot" Integer true;
      colm "map_version" BigInteger true;
      colm "map_error_count" BigInteger false;
      colm "node_clean_bps" BigInteger false;
      colm "node_capacity_bps" BigInteger false;
      colm "bloom_stats" JSONB true]
     [(None, PrimaryKeyConstraint ["id"])];
   create_index "ix_node_health_snapshot_captured_at"
     (mkIndex "node_health_snapshot" [Desc "captured_at"] false None false)].

Definition downgrade_0008 : list operation :=
  [drop_index "ix_node_health_snapshot_captured_at" "node_health_snapshot";
   drop_table "node_health_snapshot";
   drop_index "ix_telemetry_counter_scope_window_start" "telemetry_counter";
   drop_index "ix_telemetry_counter_scope_service_window_start" "telemetry_counter";
   drop_table "telemetry_counter"].

Definition rev_0008 : Revision :=
  mkRevision "20260710_0008" (Some "20260710_0007") upgrade_0008 downgrade_0008.

(** ** 0009: add billing persistence models *)

Definition upgrade_0009 : list operation :=
  [create_table "billing_sample"
     [colm "id" UUID false;
      colm "service_id" UUID false;
      colm "dp_id" Integer true;
      colm "sample_ts" DateTime false;
      colm "clean_bps" BigInteger false;
      colm "window_seconds" Integer false;
      colm "is_reset" Boolean false;
      colm "created_at" DateTime false]
     [(None, ForeignKeyConstraint ["service_id"] "protected_service" ["id"] CASCADE);
      (None, PrimaryKeyConstraint ["id"]);
      (Some "uq_billing_sample_service_ts", UniqueConstraint ["service_id"; "sample_ts"])];
   create_index "ix_billing_sample_service_ts" (mkIndex "billing_sample" [Plain "service_id";
     Plain "sample_ts"] false None false);
   create_table "billing_usage"
     [colm "id" UUID false;
      colm "service_id" UUID true;
      colm "tenant_id" UUID true;
      colm "service_name" (VARCHAR 255) false;
      colm "period_start" DateTime false;
      colm "period_end" DateTime false;
      colm "billing_metric" (VARCHAR 64) false;
      colm "committed_clean_gbps" (Numeric 10 2) false;
      colm "p95_clean_gbps" (Numeric 10 2) false;
      colm "billed_gbps" (Numeric 10 2) false;
      colm "overage_gbps" (Numeric 10 2) false;
      colm "overage_policy" (Enum ["billed"; "capped"]) false;
      colm "sample_count" Integer false;
      colm "status" (Enum ["open"; "final"]) false;
      colm "finalized_at" DateTime true;
      colm "created_at" DateTime false;
      colm "updated_at" DateTime false]
     [(None, ForeignKeyConstraint ["service_id"] "protected_service" ["id"] SET_NULL);
      (None, ForeignKeyConstraint ["tenant_id"] "tenants" ["id"] SET_NULL);
      (None, PrimaryKeyConstraint ["id"]);
      (Some "uq_billing_usage_service_period", UniqueConstraint ["service_id";
        "period_start"])];
   create_index "ix_billing_usage_tenant_period" (mkIndex "billing_usage" [Plain "tenant_id";
     Plain "period_start"] false None false);
   create_index "ix_billing_usage_status_end" (mkIndex "billing_usage" [Plain "status";
     Plain "period_end"] false None false)].

Definition downgrade_0009 : list operation :=
  [drop_index "ix_billing_usage_status_end" "billing_usage";
   drop_index "ix_billing_usage_tenant_period" "billing_usage";
   drop_table "billing_usage";
   drop_index "ix_billing_sample_service_ts" "billing_sample";
   drop_table "billing_sample"].

Definition rev_0009 : Revision :=
  mkRevision "20260714_0009" (Some "20260710_0008") upgrade_0009 downgrade_0009.

(** ** 0010: add node control desired state *)

Definition upgrade_0010 : list operation :=
  [create_table "node_control"
     [colm "id" SmallInteger false;
      colm "bypass_enabled" Boolean false;
      colm "maintenance_enabled" Boolean false;
      colm "bypass_reason" (VARCHAR 512) true;
      colm "bypass_activated_at" DateTime true;
      colm "maintenance_activated_at" DateTime true;
      colm "bypass_actor_user_id" UUID true;
      colm "maintenance_actor_user_id" UUID true;
      colm "created_at" DateTime false;
      colm "updated_at" DateTime false]
     [(Some "ck_node_control_singleton", CheckConstraint (int_eq "id" 1));
      (None, ForeignKeyConstraint ["bypass_actor_user_id"] "users" ["id"] SET_NULL);
      (None, ForeignKeyConstraint ["maintenance_actor_user_id"] "users" ["id"] SET_NULL);
      (None, PrimaryKeyConstraint ["id"])]].

Definition downgrade_0010 : list operation :=
  [drop_table "node_control"].

Definition rev_0010 : Revision :=
  mkRevision "20260714_0010" (Some "20260714_0009") upgrade_0010 downgrade_0010.

(** ** 0011: add alerting persistence models *)

Definition upgrade_0011 : list operation :=
  [create_table "alert_rule"
     [colm "id" UUID false;
      colm "key" (VARCHAR 64) false;
      colm "enabled" Boolean false;
      colm "severity_override" (Enum ["info"; "warning"; "critical"]) true;
      colm "fire_threshold_override" (Numeric 18 4) true;
      colm "clear_threshold_override" (Numeric 18 4) true;
      colm "silence_in_maintenance" Boolean false;
      colm "created_at" DateTime false;
      colm "updated_at" DateTime false]
     [(None, PrimaryKeyConstraint ["id"]);
      (None, UniqueConstraint ["key"])];
   create_table "notification_channel"
     [colm "id" UUID false;
      colm "name" (VARCHAR 255) false;
      colm "kind" (Enum ["email"; "webhook"]) false;
      colm "tenant_id" UUID true;
      colm "enabled" Boolean false;
      colm "min_severity" (Enum ["info"; "warning"; "critical"]) false;
      colm "config" JSONB false;
      colm "secret" Text true;
      colm "created_at" DateTime false;
      colm "updated_at" DateTime false]
     [(None, ForeignKeyConstraint ["tenant_id"] "tenants" ["id"] CASCADE);
      (None, PrimaryKeyConstraint ["id"])];
   create_index "ix_notification_channel_tenant"
     (mkIndex "notification_channel" [Plain "tenant_id"; Plain "enabled"] false None false);
   create_table "alert"
     [colm "id" UUID false;
      colm "rule_key" (VARCHAR 64) false;
      colm "scope" (Enum ["node"; "service"]) false;
      colm "scope_key" (VARCHAR 128) false;
      colm "service_id" UUID true;
      colm "tenant_id" UUID true;
      colm "service_name" (VARCHAR 255) true;
      colm "severity" (Enum ["info"; "warning"; "critical"]) false;
      colm "state" (Enum ["pending"; "firing"; "resolved"]) false;
      colm "metric_value" (Numeric 18 4) true;
      colm "context" JSONB false;
      colm "fire_streak" Integer false;
      colm "clear_streak" Integer false;
      colm "first_observed_at" DateTime false;
      colm "fired_at" DateTime true;
      colm "resolved_at" DateTime true;
      colm "last_notified_at" DateTime true;
      colm "acknowledged_at" DateTime true;
      colm "acknowledged_by" UUID true;
      colm "created_at" DateTime false;
      colm "updated_at" DateTime false]
     [(None, ForeignKeyConstraint ["acknowledged_by"] "users" ["id"] SET_NULL);
      (None, ForeignKeyConstraint ["service_id"] "protected_service" ["id"] SET_NULL);
      (None, ForeignKeyConstraint ["tenant_id"] "tenants" ["id"] SET_NULL);
      (None, PrimaryKeyConstraint ["id"])];
   create_index "uq_alert_active_scope" (mkIndex "alert" [Plain "rule_key";
     Plain "scope_key"] true (Some (text_isnt "state" "resolved")) false);
   create_index "ix_alert_tenant_state" (mkIndex "alert" [Plain "tenant_id";
     Plain "state"] false None false);
   create_index "ix_alert_state_fired" (mkIndex "alert" [Plain "state";
     Plain "fired_at"] false None false);
   create_table "alert_notification"
     [colm "id" UUID false;
      colm "alert_id" UUID false;
      colm "channel_id" UUID true;
      colm "channel_name" (VARCHAR 255) false;
      colm "kind" (Enum ["email"; "webhook"]) false;
      colm "trigger" (VARCHAR 16) false;
      colm "state" (Enum ["pending"; "sent"; "retrying"; "failed"]) false;
      colm "attempts" Integer false;
      colm "last_error" Text true;
      colm "sent_at" DateTime true;
      colm "created_at" DateTime false;
      colm "updated_at" DateTime false]
     [(None, ForeignKeyConstraint ["alert_id"] "alert" ["id"] CASCADE);
      (None, ForeignKeyConstraint ["channel_id"] "notification_channel" ["id"] SET_NULL);
      (None, PrimaryKeyConstraint ["id"])];
   create_index "ix_alert_notification_alert"
     (mkIndex "alert_notification" [Plain "alert_id"] false None false)].

Definition downgrade_0011 : list operation :=
  [drop_index "ix_alert_notification_alert" "alert_notification";
   drop_table "alert_notification";
   drop_index "ix_alert_state_fired" "alert";
   drop_index "ix_alert_tenant_state" "alert";
   drop_index "uq_alert_active_scope" "alert";
   drop_table "alert";
   drop_index "ix_notification_channel_tenant" "notification_channel";
   drop_table "notification_channel";
   drop_table "alert_rule"].

Definition rev_0011 : Revision :=
  mkRevision "20260714_0011" (Some "20260714_0010") upgrade_0011 downgrade_0011.

(** ** 0012: add service rate limits and remove rule rate limits *)

Definition upgrade_0012 : list operation :=
  [add_column "protected_service" (colm "service_pps" BigInteger true) None;
   add_column "protected_service" (colm "service_bps" BigInteger true) None;
   drop_column "allow_rule" "pps";
   drop_column "allow_rule" "bps"].

Definition downgrade_0012 : list operation :=
  [add_column "allow_rule" (colm "pps" BigInteger true) None;
   add_column "allow_rule" (colm "bps" BigInteger true) None;
   drop_column "protected_service" "service_pps";
   drop_column "protected_service" "service_bps"].

Definition rev_0012 : Revision :=
  mkRevision "20260721_0012" (Some "20260714_0011") upgrade_0012 downgrade_0012.

(** ** 0013: add blocked_udp_port model *)

Definition upgrade_0013 : list operation :=
  [create_table "blocked_udp_port"
     [colm "port" Integer false;
      colm "note" (VARCHAR 256) true;
      colm "created_by" UUID true;
      colm "created_at" DateTime false]
     [(Some "ck_blocked_udp_port_range", CheckConstraint (int_ge "port" 0 AND
       int_le "port" 65535));
      (None, ForeignKeyConstraint ["created_by"] "users" ["id"] SET_NULL);
      (None, PrimaryKeyConstraint ["port"])]].

Definition downgrade_0013 : list operation :=
  [drop_table "blocked_udp_port"].

Definition rev_0013 : Revision :=
  mkRevision "20260722_0013" (Some "20260721_0012") upgrade_0013 downgrade_0013.

(** ** 0014: remove service blacklist *)

Definition upgrade_0014 : list operation :=
  [delete_where "blacklist_entry" (text_is "scope" "service" OR IsNotNull "service_id");
   drop_constraint "ck_blacklist_scope_service_id" "blacklist_entry";
   drop_index "uq_blacklist_service_source_cidr" "blacklist_entry";
   drop_column "blacklist_entry" "service_id"].

Definition downgrade_0014 : list operation :=
  [add_column "blacklist_entry" (colm "service_id" UUID true) (Some ("protected_service", "id",
    CASCADE));
   create_index "uq_blacklist_service_source_cidr"
     (mkIndex "blacklist_entry" [Plain "service_id"; Plain "source_cidr"] true (Some
     (text_is "scope" "service")) false);
   create_constraint "ck_blacklist_scope_service_id" "blacklist_entry"
     (CheckConstraint (text_is "scope" "service" AND IsNotNull "service_id" OR
       text_is "scope" "global" AND IsNull "service_id"))].

Definition rev_0014 : Revision :=
  mkRevision "20260723_0014" (Some "20260722_0013") upgrade_0014 downgrade_0014.

(** ** The history *)

Definition revisions : list Revision :=
  [rev_0001; rev_0002; rev_0003; rev_0004; rev_0005; rev_0006; rev_0007; rev_0008; rev_0009;
    rev_0010; rev_0011; rev_0012; rev_0013; rev_0014].
