(* ===== verification/Metadata.v ===== *)
(** * The tables [db/models.py] declares

    [Base.metadata] as the operations that would create it: per mapped class
    its table with the columns of its mixin, its constraints and its indexes,
    and the enumerations the columns use. *)

From S2P Require Import Prelude Schema.
Open Scope Z_scope.
Open Scope string_scope.
Open Scope list_scope.

(** ** Enumerations *)

Definition Role_values : list string := ["admin"; "tenant_user"].
Definition role_enum : coltype := Enum Role_values.
Definition UserStatus_values : list string := ["active"; "disabled"].
Definition user_status_enum : coltype := Enum UserStatus_values.
Definition TenantStatus_values : list string := ["active"; "suspended"].
Definition tenant_status_enum : coltype := Enum TenantStatus_values.
Definition CIDRStatus_values : list string := ["active"; "revoked"].
Definition cidr_status_enum : coltype := Enum CIDRStatus_values.
Definition ApplyStatus_values : list string := ["pending"; "queued"; "applying"; "active";
  "failed"].
Definition apply_status_enum : coltype := Enum ApplyStatus_values.
Definition JobStatus_values : list string := ["queued"; "applying"; "succeeded"; "failed";
  "superseded"].
Definition job_status_enum : coltype := Enum JobStatus_values.
Definition JobType_values : list string := ["SERVICE_UPDATE"; "FEED_SYNC"; "GLOBAL_DENY_APPLY"].
Definition job_type_enum : coltype := Enum JobType_values.
Definition ChangeTrigger_values : list string := ["service"; "plan"; "rule"; "whitelist";
  "enable"; "disable"; "feed_manual"; "feed_schedule"; "feed_delete"; "feed_dry_run";
  "global_deny_retry"].
Definition change_trigger_enum : coltype := Enum ChangeTrigger_values.
Definition FeedFormat_values : list string := ["line_list"].
Definition feed_format_enum : coltype := Enum FeedFormat_values.
Definition FeedSyncStatus_values : list string := ["queued"; "running"; "success"; "partial";
  "failed"].
Definition feed_sync_status_enum : coltype := Enum FeedSyncStatus_values.
Definition ServiceMode_values : list string := ["allow-rule-only"].
Definition service_mode_enum : coltype := Enum ServiceMode_values.
Definition Protocol_values : list string := ["tcp"; "udp"; "icmp"; "any"].
Definition protocol_enum : coltype := Enum Protocol_values.
Definition BlacklistScope_values : list string := ["service"; "global"].
Definition blacklist_scope_enum : coltype := Enum BlacklistScope_values.
Definition BlacklistSource_values : list string := ["manual"; "feed"].
Definition blacklist_source_enum : coltype := Enum BlacklistSource_values.
Definition OveragePolicy_values : list string := ["billed"; "capped"].
Definition overage_policy_enum : coltype := Enum OveragePolicy_values.
Definition BillingStatus_values : list string := ["open"; "final"].
Definition billing_status_enum : coltype := Enum BillingStatus_values.
Definition TelemetryScope_values : list string := ["service"; "node"].
Definition telemetry_scope_enum : coltype := Enum TelemetryScope_values.
Definition XdpMode_values : list string := ["native"; "generic"; "offline"; "unknown"].
Definition xdp_mode_enum : coltype := Enum XdpMode_values.
Definition AlertScope_values : list string := ["node"; "service"].
Definition alert_scope_enum : coltype := Enum AlertScope_values.
Definition AlertState_values : list string := ["pending"; "firing"; "resolved"].
Definition alert_state_enum : coltype := Enum AlertState_values.
Definition AlertSeverity_values : list string := ["info"; "warning"; "critical"].
Definition alert_severity_enum : coltype := Enum AlertSeverity_values.
Definition ChannelKind_values : list string := ["email"; "webhook"].
Definition channel_kind_enum : coltype := Enum ChannelKind_values.
Definition NotificationState_values : list string := ["pending"; "sent"; "retrying"; "failed"].
Definition notification_state_enum : coltype := Enum NotificationState_values.

(** ** Tables *)

Definition TimestampMixin : list column_def :=
  [colm "created_at" DateTime false; colm "updated_at" DateTime false].

Definition Tenant : list operation :=
  [create_table "tenants"
     (TimestampMixin ++
      [colm "id" UUID false;
      colm "name" CITEXT false;
      colm "status" tenant_status_enum false])
     [(None, PrimaryKeyConstraint ["id"]);
      (Some "uq_tenants_name", UniqueConstraint ["name"])]].

Definition User : list operation :=
  [create_table "users"
     (TimestampMixin ++
      [colm "id" UUID false;
      colm "tenant_id" UUID true;
      colm "role" role_enum false;
      colm "username" CITEXT false;
      colm "password_hash" Text false;
      colm "status" user_status_enum false;
      colm "session_version" Integer false;
      colm "last_login_at" DateTime true])
     [(None, PrimaryKeyConstraint ["id"]);
      (None, ForeignKeyConstraint ["tenant_id"] "tenants" ["id"] RESTRICT);
      (None, UniqueConstraint ["username"]);
      (Some "ck_users_role_tenant", CheckConstraint (text_is "role" "admin" AND
        IsNull "tenant_id" OR text_is "role" "tenant_user" AND IsNotNull "tenant_id"))]].

Definition AllocatedCIDR : list operation :=
  [create_table "allocated_cidr"
     (TimestampMixin ++
      [colm "id" UUID false;
      colm "tenant_id" UUID false;
      colm "cidr" CIDR false;
      colm "status" cidr_status_enum false;
      colm "allocated_by" UUID true])
     [(None, PrimaryKeyConstraint ["id"]);
      (None, ForeignKeyConstraint ["tenant_id"] "tenants" ["id"] RESTRICT);
      (None, ForeignKeyConstraint ["allocated_by"] "users" ["id"] SET_NULL);
      (Some "allocated_cidr_active_no_overlap", ExcludeOverlap "cidr" (Some
        (text_is "status" "active")))];
   create_index "ix_allocated_cidr_tenant_active"
     (mkIndex "allocated_cidr" [Plain "tenant_id"] false (Some
     (text_is "status" "active")) false)].

Definition AuditEvent : list operation :=
  [create_table "audit_events"
     [colm "id" UUID false;
      colm "actor_user_id" UUID true;
      colm "actor_username" (VARCHAR 255) false;
      colm "action" (VARCHAR 128) false;
      colm "target_type" (VARCHAR 64) true;
      colm "target_id" (VARCHAR 128) true;
      colm "outcome" (VARCHAR 32) false;
      colm "ip_address" (VARCHAR 64) true;
      colm "metadata" JSONB false;
      colm "created_at" DateTime false]
     [(None, PrimaryKeyConstraint ["id"]);
      (None, ForeignKeyConstraint ["actor_user_id"] "users" ["id"] SET_NULL)];
   create_index "ix_audit_events_created_at"
     (mkIndex "audit_events" [Plain "created_at"] false None false)].

Definition ProtectedService : list operation :=
  [create_table "protected_service"
     (TimestampMixin ++
      [colm "id" UUID false;
      ("dp_id", mkColumn Integer false (Some "service_dp_id_seq"));
      colm "tenant_id" UUID false;
      colm "name" (VARCHAR 255) false;
      colm "cidr_or_ip" CIDR false;
      colm "mode" service_mode_enum false;
      colm "enabled" Boolean false;
      colm "vip_pps" BigInteger true;
      colm "vip_bps" BigInteger true;
      colm "service_pps" BigInteger true;
      colm "service_bps" BigInteger true;
      colm "apply_status" apply_status_enum false;
      colm "version" Integer false;
      colm "active_version" Integer true;
      colm "created_by" UUID true])
     [(None, PrimaryKeyConstraint ["id"]);
      (None, UniqueConstraint ["dp_id"]);
      (None, ForeignKeyConstraint ["tenant_id"] "tenants" ["id"] RESTRICT);
      (None, ForeignKeyConstraint ["created_by"] "users" ["id"] SET_NULL);
      (Some "protected_service_dest_no_overlap", ExcludeOverlap "cidr_or_ip" None)];
   create_index "ix_protected_service_tenant"
     (mkIndex "protected_service" [Plain "tenant_id"] false None false);
   create_index "uq_protected_service_tenant_lower_name"
     (mkIndex "protected_service" [Plain "tenant_id"; Lower "name"] true None false)].

Definition ServicePlan : list operation :=
  [create_table "service_plan"
     (TimestampMixin ++
      [colm "id" UUID false;
      colm "service_id" UUID false;
      colm "committed_clean_gbps" (Numeric 10 2) false;
      colm "ceiling_clean_gbps" (Numeric 10 2) false;
      colm "billing_metric" (VARCHAR 64) false;
      colm "overage_policy" overage_policy_enum false])
     [(None, PrimaryKeyConstraint ["id"]);
      (None, UniqueConstraint ["service_id"]);
      (None, ForeignKeyConstraint ["service_id"] "protected_service" ["id"] CASCADE);
      (Some "ck_service_plan_committed_le_ceiling", CheckConstraint
        (int_ge "committed_clean_gbps" 0 AND
        cols_le "committed_clean_gbps" "ceiling_clean_gbps"))]].

Definition BillingSample : list operation :=
  [create_table "billing_sample"
     [colm "id" UUID false;
      colm "service_id" UUID false;
      colm "dp_id" Integer true;
      colm "sample_ts" DateTime false;
      colm "clean_bps" BigInteger false;
      colm "window_seconds" Integer false;
      colm "is_reset" Boolean false;
      colm "created_at" DateTime false]
     [(None, PrimaryKeyConstraint ["id"]);
      (None, ForeignKeyConstraint ["service_id"] "protected_service" ["id"] CASCADE);
      (Some "uq_billing_sample_service_ts", UniqueConstraint ["service_id"; "sample_ts"])];
   create_index "ix_billing_sample_service_ts" (mkIndex "billing_sample" [Plain "service_id";
     Plain "sample_ts"] false None false)].

Definition BillingUsage : list operation :=
  [create_table "billing_usage"
     (TimestampMixin ++
      [colm "id" UUID false;
      colm "service_id" UUID true;
      colm "tenant_id" UUID true;
      colm "service_name" (VARCHAR 255) false;
      colm "period_start" DateTime false;
      colm "period_end" DateTime false;
      colm "billing_metric" (VARCHAR 64) false;
      colm "committed_clean_gbps" (Numeric 10 2) false;
      colm "p95_clean_gbps" (Numeric 10 2) false;
      colm "billed_gbps" (Numeric 10 2) false;
      colm "overage_gbps" (Numeric 10 2) false;
      colm "overage_policy" overage_policy_enum false;
      colm "sample_count" Integer false;
      colm "status" billing_status_enum false;
      colm "finalized_at" DateTime true])
     [(None, PrimaryKeyConstraint ["id"]);
      (None, ForeignKeyConstraint ["service_id"] "protected_service" ["id"] SET_NULL);
      (None, ForeignKeyConstraint ["tenant_id"] "tenants" ["id"] SET_NULL);
      (Some "uq_billing_usage_service_period", UniqueConstraint ["service_id";
        "period_start"])];
   create_index "ix_billing_usage_tenant_period" (mkIndex "billing_usage" [Plain "tenant_id";
     Plain "period_start"] false None false);
   create_index "ix_billing_usage_status_end" (mkIndex "billing_usage" [Plain "status";
     Plain "period_end"] false None false)].

Definition AllowRule : list operation :=
  [create_table "allow_rule"
     (TimestampMixin ++
      [colm "id" UUID false;
      colm "service_id" UUID false;
      colm "priority" Integer false;
      colm "protocol" protocol_enum false;
      colm "src_port_lo" Integer true;
      colm "src_port_hi" Integer true;
      colm "dst_port_lo" Integer true;
      colm "dst_port_hi" Integer true;
      colm "enabled" Boolean false])
     [(None, PrimaryKeyConstraint ["id"]);
      (None, ForeignKeyConstraint ["service_id"] "protected_service" ["id"] CASCADE);
      (Some "uq_allow_rule_service_priority", UniqueConstraint ["service_id"; "priority"]);
      (Some "ck_allow_rule_src_port_range", CheckConstraint (IsNull "src_port_lo" AND
        IsNull "src_port_hi" OR int_ge "src_port_lo" 0 AND int_le "src_port_lo" 65535 AND
        int_ge "src_port_hi" 0 AND int_le "src_port_hi" 65535 AND
        cols_le "src_port_lo" "src_port_hi"));
      (Some "ck_allow_rule_dst_port_range", CheckConstraint (IsNull "dst_port_lo" AND
        IsNull "dst_port_hi" OR int_ge "dst_port_lo" 0 AND int_le "dst_port_lo" 65535 AND
        int_ge "dst_port_hi" 0 AND int_le "dst_port_hi" 65535 AND
        cols_le "dst_port_lo" "dst_port_hi"))]].

Definition WhitelistEntry : list operation :=
  [create_table "whitelist_entry"
     [colm "id" UUID false;
      colm "service_id" UUID false;
      colm "source_cidr" CIDR false;
      colm "created_by" UUID true;
      colm "created_at" DateTime false]
     [(None, PrimaryKeyConstraint ["id"]);
      (None, ForeignKeyConstraint ["service_id"] "protected_service" ["id"] CASCADE);
      (None, ForeignKeyConstraint ["created_by"] "users" ["id"] SET_NULL);
      (Some "uq_whitelist_service_source_cidr", UniqueConstraint ["service_id";
        "source_cidr"])];
   create_index "ix_whitelist_entry_source_cidr_gist"
     (mkIndex "whitelist_entry" [Plain "source_cidr"] false None true)].

Definition BlacklistEntry : list operation :=
  [create_table "blacklist_entry"
     [colm "id" UUID false;
      colm "scope" blacklist_scope_enum false;
      colm "source" blacklist_source_enum false;
      colm "source_cidr" CIDR false;
      colm "created_by" UUID true;
      colm "created_at" DateTime false]
     [(None, PrimaryKeyConstraint ["id"]);
      (None, ForeignKeyConstraint ["created_by"] "users" ["id"] SET_NULL)];
   create_index "uq_blacklist_global_source_cidr"
     (mkIndex "blacklist_entry" [Plain "source_cidr"] true (Some
     (text_is "scope" "global")) false)].

Definition BlockedUdpPort : list operation :=
  [create_table "blocked_udp_port"
     [colm "port" Integer false;
      colm "note" (VARCHAR 256) true;
      colm "created_by" UUID true;
      colm "created_at" DateTime false]
     [(None, PrimaryKeyConstraint ["port"]);
      (None, ForeignKeyConstraint ["created_by"] "users" ["id"] SET_NULL);
      (Some "ck_blocked_udp_port_range", CheckConstraint (int_ge "port" 0 AND
        int_le "port" 65535))]].

Definition ThreatFeedSource : list operation :=
  [create_table "threat_feed_source"
     (TimestampMixin ++
      [colm "id" UUID false;
      colm "name" CITEXT false;
      colm "url" Text false;
      colm "format" feed_format_enum false;
      colm "enabled" Boolean false;
      colm "sync_interval_seconds" Integer false;
      colm "credential_env_var" (VARCHAR 128) true;
      colm "sync_sequence" BigInteger false;
      colm "last_status" feed_sync_status_enum true;
      colm "last_error" Text true;
      colm "last_sync_at" DateTime true;
      colm "next_sync_at" DateTime true;
      colm "deleted_at" DateTime true])
     [(None, PrimaryKeyConstraint ["id"]);
      (Some "uq_threat_feed_source_name", UniqueConstraint ["name"]);
      (Some "ck_threat_feed_source_sync_interval", CheckConstraint
        (int_ge "sync_interval_seconds" 300 AND int_le "sync_interval_seconds" 604800))]].

Definition FeedSyncRun : list operation :=
  [create_table "feed_sync_run"
     [colm "id" UUID false;
      colm "feed_source_id" UUID false;
      colm "source_name" (VARCHAR 255) false;
      colm "sequence" BigInteger false;
      colm "trigger" change_trigger_enum false;
      colm "dry_run" Boolean false;
      colm "status" feed_sync_status_enum false;
      colm "started_at" DateTime true;
      colm "finished_at" DateTime true;
      colm "duration_ms" Integer true;
      colm "error" Text true;
      colm "fetched_lines" Integer false;
      colm "valid" Integer false;
      colm "duplicates" Integer false;
      colm "added" Integer false;
      colm "removed" Integer false;
      colm "skipped_invalid" Integer false;
      colm "overlap_count" Integer false;
      colm "global_changed" Boolean false;
      colm "desired_revision" BigInteger true;
      colm "node_map_version" BigInteger true]
     [(None, PrimaryKeyConstraint ["id"]);
      (None, ForeignKeyConstraint ["feed_source_id"] "threat_feed_source" ["id"] RESTRICT);
      (Some "uq_feed_sync_run_source_sequence", UniqueConstraint ["feed_source_id";
        "sequence"])]].

Definition FeedBlacklistAssertion : list operation :=
  [create_table "feed_blacklist_assertion"
     [colm "feed_source_id" UUID false;
      colm "blacklist_entry_id" UUID false;
      colm "first_seen_at" DateTime false;
      colm "last_seen_at" DateTime false]
     [(None, PrimaryKeyConstraint ["feed_source_id"; "blacklist_entry_id"]);
      (None, ForeignKeyConstraint ["feed_source_id"] "threat_feed_source" ["id"] CASCADE);
      (None, ForeignKeyConstraint ["blacklist_entry_id"] "blacklist_entry" ["id"] CASCADE)];
   create_index "ix_feed_blacklist_assertion_blacklist_entry_id"
     (mkIndex "feed_blacklist_assertion" [Plain "blacklist_entry_id"] false None false)].

Definition FeedSyncOverlap : list operation :=
  [create_table "feed_sync_overlap"
     [colm "id" UUID false;
      colm "feed_sync_run_id" UUID false;
      colm "feed_source_cidr" CIDR false;
      colm "whitelist_entry_id" UUID false;
      colm "service_id" UUID false;
      colm "created_at" DateTime false]
     [(None, PrimaryKeyConstraint ["id"]);
      (None, ForeignKeyConstraint ["feed_sync_run_id"] "feed_sync_run" ["id"] CASCADE);
      (None, ForeignKeyConstraint ["whitelist_entry_id"] "whitelist_entry" ["id"] CASCADE);
      (Some "uq_feed_sync_overlap_run_cidr_whitelist", UniqueConstraint ["feed_sync_run_id";
        "feed_source_cidr"; "whitelist_entry_id"])]].

Definition GlobalDenyState : list operation :=
  [create_table "global_deny_state"
     [colm "id" Integer false;
      colm "desired_revision" BigInteger false;
      colm "active_revision" BigInteger false;
      colm "desired_digest" (VARCHAR 64) true;
      colm "active_digest" (VARCHAR 64) true;
      colm "apply_status" apply_status_enum false;
      colm "last_error" Text true;
      colm "last_node_map_version" BigInteger true;
      colm "updated_at" DateTime false]
     [(None, PrimaryKeyConstraint ["id"]);
      (Some "ck_global_deny_state_singleton", CheckConstraint (int_eq "id" 1))]].

Definition NodeControl : list operation :=
  [create_table "node_control"
     (TimestampMixin ++
      [colm "id" SmallInteger false;
      colm "bypass_enabled" Boolean false;
      colm "maintenance_enabled" Boolean false;
      colm "bypass_reason" (VARCHAR 512) true;
      colm "bypass_activated_at" DateTime true;
      colm "maintenance_activated_at" DateTime true;
      colm "bypass_actor_user_id" UUID true;
      colm "maintenance_actor_user_id" UUID true])
     [(None, PrimaryKeyConstraint ["id"]);
      (None, ForeignKeyConstraint ["bypass_actor_user_id"] "users" ["id"] SET_NULL);
      (None, ForeignKeyConstraint ["maintenance_actor_user_id"] "users" ["id"] SET_NULL);
      (Some "ck_node_control_singleton", CheckConstraint (int_eq "id" 1))]].

Definition AgentJob : list operation :=
  [create_table "agent_job"
     [colm "id" UUID false;
      colm "target_type" (VARCHAR 32) false;
      colm "target_id" UUID true;
      colm "feed_sync_run_id" UUID true;
      colm "version" Integer false;
      colm "job_type" job_type_enum false;
      colm "trigger" change_trigger_enum false;
      colm "status" job_status_enum false;
      colm "error" Text true;
      colm "attempts" Integer false;
      colm "dispatched_at" DateTime true;
      colm "created_at" DateTime false;
      colm "started_at" DateTime true;
      colm "finished_at" DateTime true]
     [(None, PrimaryKeyConstraint ["id"]);
      (None, ForeignKeyConstraint ["target_id"] "protected_service" ["id"] CASCADE);
      (None, ForeignKeyConstraint ["feed_sync_run_id"] "feed_sync_run" ["id"] CASCADE);
      (Some "ck_agent_job_target_shape", CheckConstraint
        (text_is "job_type" "SERVICE_UPDATE" AND text_is "target_type" "service" AND
        IsNotNull "target_id" AND IsNull "feed_sync_run_id" OR
        text_is "job_type" "FEED_SYNC" AND text_is "target_type" "feed_sync_run" AND
        IsNull "target_id" AND IsNotNull "feed_sync_run_id" OR
        text_is "job_type" "GLOBAL_DENY_APPLY" AND text_is "target_type" "global_deny" AND
        IsNull "target_id" AND IsNull "feed_sync_run_id"))];
   create_index "ix_agent_job_status" (mkIndex "agent_job" [Plain "status"] false None false);
   create_index "ix_agent_job_target" (mkIndex "agent_job" [Plain "target_type";
     Plain "target_id"] false None false);
   create_index "uq_agent_job_service_target_version" (mkIndex "agent_job" [Plain "target_id";
     Plain "version"] true (Some (text_is "job_type" "SERVICE_UPDATE")) false);
   create_index "uq_agent_job_feed_sync_run"
     (mkIndex "agent_job" [Plain "feed_sync_run_id"] true (Some
     (text_is "job_type" "FEED_SYNC")) false);
   create_index "uq_agent_job_global_deny_revision" (mkIndex "agent_job" [Plain "version"] true
     (Some (text_is "job_type" "GLOBAL_DENY_APPLY")) false)].

Definition TelemetryCounter : list operation :=
  [create_table "telemetry_counter"
     [colm "id" UUID false;
      colm "scope" telemetry_scope_enum false;
      colm "service_id" UUID true;
      colm "dp_id" Integer true;
      colm "window_start" DateTime false;
      colm "window_seconds" Integer false;
      colm "clean_pkts" BigInteger false;
      colm "clean_bytes" BigInteger false;
      colm "drop_pkts" BigInteger false;
      colm "drop_bytes" BigInteger false;
      colm "drop_by_reason" JSONB false;
      colm "pps" BigInteger false;
      colm "bps" BigInteger false;
      colm "top_dst_ports" JSONB true;
      colm "top_src" JSONB true;
      colm "is_baseline" Boolean false;
      colm "created_at" DateTime false]
     [(None, PrimaryKeyConstraint ["id"]);
      (None, ForeignKeyConstraint ["service_id"] "protected_service" ["id"] SET_NULL)];
   create_index "ix_telemetry_counter_scope_service_window_start"
     (mkIndex "telemetry_counter" [Plain "scope"; Plain "service_id";
     Desc "window_start"] false None false);
   create_index "ix_telemetry_counter_scope_window_start"
     (mkIndex "telemetry_counter" [Plain "scope"; Desc "window_start"] false None false)].

Definition NodeHealthSnapshot : list operation :=
  [create_table "node_health_snapshot"
     [colm "id" UUID false;
      colm "captured_at" DateTime false;
      colm "window_seconds" Integer false;
      colm "xdp_mode" xdp_mode_enum false;
      colm "active_slot" Integer true;
      colm "map_version" BigInteger true;
      colm "map_error_count" BigInteger false;
      colm "node_clean_bps" BigInteger false;
      colm "node_capacity_bps" BigInteger false;
      colm "bloom_stats" JSONB true]
     [(None, PrimaryKeyConstraint ["id"])];
   create_index "ix_node_health_snapshot_captured_at"
     (mkIndex "node_health_snapshot" [Desc "captured_at"] false None false)].

Definition AlertRule : list operation :=
  [create_table "alert_rule"
     (TimestampMixin ++
      [colm "id" UUID false;
      colm "key" (VARCHAR 64) false;
      colm "enabled" Boolean false;
      colm "severity_override" alert_severity_enum true;
      colm "fire_threshold_override" (Numeric 18 4) true;
      colm "clear_threshold_override" (Numeric 18 4) true;
      colm "silence_in_maintenance" Boolean false])
     [(None, PrimaryKeyConstraint ["id"]);
      (None, UniqueConstraint ["key"])]].

Definition NotificationChannel : list operation :=
  [create_table "notification_channel"
     (TimestampMixin ++
      [colm "id" UUID false;
      colm "name" (VARCHAR 255) false;
      colm "kind" channel_kind_enum false;
      colm "tenant_id" UUID true;
      colm "enabled" Boolean false;
      colm "min_severity" alert_severity_enum false;
      colm "config" JSONB false;
      colm "secret" Text true])
     [(None, PrimaryKeyConstraint ["id"]);
      (None, ForeignKeyConstraint ["tenant_id"] "tenants" ["id"] CASCADE)];
   create_index "ix_notification_channel_tenant"
     (mkIndex "notification_channel" [Plain "tenant_id"; Plain "enabled"] false None false)].

Definition Alert : list operation :=
  [create_table "alert"
     (TimestampMixin ++
      [colm "id" UUID false;
      colm "rule_key" (VARCHAR 64) false;
      colm "scope" alert_scope_enum false;
      colm "scope_key" (VARCHAR 128) false;
      colm "service_id" UUID true;
      colm "tenant_id" UUID true;
      colm "service_name" (VARCHAR 255) true;
      colm "severity" alert_severity_enum false;
      colm "state" alert_state_enum false;
      colm "metric_value" (Numeric 18 4) true;
      colm "context" JSONB false;
      colm "fire_streak" Integer false;
      colm "clear_streak" Integer false;
      colm "first_observed_at" DateTime false;
      colm "fired_at" DateTime true;
      colm "resolved_at" DateTime true;
      colm "last_notified_at" DateTime true;
      colm "acknowledged_at" DateTime true;
      colm "acknowledged_by" UUID true])
     [(None, PrimaryKeyConstraint ["id"]);
      (None, ForeignKeyConstraint ["service_id"] "protected_service" ["id"] SET_NULL);
      (None, ForeignKeyConstraint ["tenant_id"] "tenants" ["id"] SET_NULL);
      (None, ForeignKeyConstraint ["acknowledged_by"] "users" ["id"] SET_NULL)];
   create_index "uq_alert_active_scope" (mkIndex "alert" [Plain "rule_key";
     Plain "scope_key"] true (Some (text_isnt "state" "resolved")) false);
   create_index "ix_alert_tenant_state" (mkIndex "alert" [Plain "tenant_id";
     Plain "state"] false None false);
   create_index "ix_alert_state_fired" (mkIndex "alert" [Plain "state";
     Plain "fired_at"] false None false)].

Definition AlertNotification : list operation :=
  [create_table "alert_notification"
     (TimestampMixin ++
      [colm "id" UUID false;
      colm "alert_id" UUID false;
      colm "channel_id" UUID true;
      colm "channel_name" (VARCHAR 255) false;
      colm "kind" channel_kind_enum false;
      colm "trigger" (VARCHAR 16) false;
      colm "state" notification_state_enum false;
      colm "attempts" Integer false;
      colm "last_error" Text true;
      colm "sent_at" DateTime true])
     [(None, PrimaryKeyConstraint ["id"]);
      (None, ForeignKeyConstraint ["alert_id"] "alert" ["id"] CASCADE);
      (None, ForeignKeyConstraint ["channel_id"] "notification_channel" ["id"] SET_NULL)];
   create_index "ix_alert_notification_alert"
     (mkIndex "alert_notification" [Plain "alert_id"] false None false)].

(** [Base.metadata] in the order of its references. *)
Definition metadata : list operation :=
  Tenant
    ++
    User
    ++
    AllocatedCIDR
    ++
    AuditEvent
    ++
    ProtectedService
    ++
    ServicePlan
    ++
    BillingSample
    ++
    BillingUsage
    ++
    AllowRule
    ++
    WhitelistEntry
    ++
    BlacklistEntry
    ++
    BlockedUdpPort
    ++
    ThreatFeedSource
    ++
    FeedSyncRun
    ++
    FeedBlacklistAssertion
    ++
    FeedSyncOverlap
    ++
    GlobalDenyState
    ++
    NodeControl
    ++
    AgentJob
    ++
    TelemetryCounter
    ++ NodeHealthSnapshot ++ AlertRule ++ NotificationChannel ++ Alert ++ AlertNotification.
