(* ===== verification/SchemaSpec.v ===== *)
(** * What the migrations achieve

    The schema they build is the one the models declare, each step can be taken
    back, and the two that rewrite rows do so as intended, whatever the tables
    hold. *)

From S2P Require Import Prelude Ipaddress Models Db Schema Migrations Metadata.
Open Scope Z_scope.

(** ** Runs *)

Lemma each_app {A B} (f : A → B → pg B) l1 l2 b : each f (l1 ++ l2) b = each f l1 b ≫= each f l2.
Proof.
  revert b. induction l1 as [|x l1 IH]; intros b; simpl; [done|].
  destruct (f x b); simpl; [done|apply IH].
Qed.

Definition upgrades (revs : list Revision) : list operation := revs ≫= rev_upgrade.

(** The database [alembic upgrade] leaves after the first [n] revisions, without
    rows, and its schema. *)
Definition after_revisions (n : nat) : pg Pg := run (upgrades (take n revisions)) empty_pg.
Definition schema_after (n : nat) : Schema :=
  match after_revisions n with inr d => pg_schema d | inl _ => empty_schema end.

(** [Base.metadata.create_all] on a database that has the extension and the
    sequence the models take for granted. *)
Definition declared : pg Pg :=
  run (create_extension "citext" :: create_sequence "service_dp_id_seq" 1 :: metadata) empty_pg.

Definition rename_constraint (t old new : string) (s : Schema) : Schema :=
  s <| sch_tables := alter (fun tb => tb <| tb_constraints :=
    match tb_constraints tb !! old with
    | Some c => <[new := c]> (delete old (tb_constraints tb))
    | None => tb_constraints tb
    end |>) t (sch_tables s) |>.

(** ** The schema *)

Definition renamed_declaration : pg Pg :=
  m ← declared;
  mret (m <| pg_schema := rename_constraint "protected_service" "protected_service_dp_id_key"
                            "uq_protected_service_dp_id" (pg_schema m) |>).

Definition same_pg (a b : Pg) : bool :=
  bool_decide (pg_schema a = pg_schema b) && bool_decide (pg_rows a = pg_rows b) &&
  bool_decide (pg_sequences a = pg_sequences b).

Lemma same_pg_eq a b : same_pg a b = true → a = b.
Proof.
  unfold same_pg. rewrite !andb_true_iff, !bool_decide_eq_true. destruct a, b; simpl. by intros [[-> ->] ->].
Qed.

(** Two runs that end in the same database, decided by evaluation. *)
Definition same_end (a b : pg Pg) : bool :=
  match a, b with inr a, inr b => same_pg a b | _, _ => false end.
Lemma same_end_inr a b : same_end a b = true → ∃ d, a = inr d ∧ b = inr d.
Proof. destruct a as [|a], b as [|b]; try done. simpl. intros ->%same_pg_eq. eauto. Qed.

(** The migrations and the models agree.  Running the whole history on an empty
    database succeeds and leaves exactly the tables, columns, types, constraints
    and indexes that [db/models.py] declares, up to the name of one unique
    constraint, with the extension and the sequence that only migrations create. *)
Theorem migrations_build_models :
  ∃ d, run_migrations (rev_upgrade <$> revisions) empty_pg = (None, d) ∧ renamed_declaration = inr d.
Proof.
  destruct (same_end_inr (run (concat (rev_upgrade <$> revisions)) empty_pg) renamed_declaration)
    as (d & H1 & H2); [vm_compute; reflexivity|].
  exists d. split; [|exact H2]. unfold run_migrations. by rewrite H1.
Qed.

(** The models alone do not create a database: the sequence their default needs
    is made by a migration only. *)
Lemma create_all_fails : run metadata empty_pg = inl (Undefined "service_dp_id_seq").
Proof. vm_compute. reflexivity. Qed.

(** ** Taking a step back *)

(** [IF NOT EXISTS]: an extension stays when its migration is taken back. *)
Definition with_extensions (e : gset string) (d : Pg) : Pg :=
  d <| pg_schema := pg_schema d <| sch_extensions := e |> |>.

Definition reversible (n : nat) : bool :=
  match revisions !! n, after_revisions n with
  | Some r, inr d =>
      match run (rev_upgrade r) d with
      | inr d1 =>
          same_end (run (rev_downgrade r) d1)
            (inr (with_extensions (sch_extensions (pg_schema d1)) d)) &&
          bool_decide (rev_down r = rev_id <$> last (take n revisions))
      | inl _ => false
      end
  | _, _ => false
  end.

Lemma all_reversible : forallb reversible (seq 0 (length revisions)) = true.
Proof. vm_compute. reflexivity. Qed.

(** Every revision can be taken back.  Each one names its predecessor in the
    history, runs on the database its predecessors leave (from an empty one, so
    without rows), and its downgrade, run after it, gives that database back, with every table, column type,
    constraint, index and sequence as it was (only the extension stays). *)
Theorem downgrade_restores before r after :
  revisions = before ++ r :: after →
  rev_down r = rev_id <$> last before ∧
  ∃ d d1, run (upgrades before) empty_pg = inr d ∧ run (rev_upgrade r) d = inr d1 ∧
    run (rev_downgrade r) d1 = inr (with_extensions (sch_extensions (pg_schema d1)) d).
Proof.
  intros E. assert (revisions !! length before = Some r) as Hr by (rewrite E; by apply list_lookup_middle).
  assert (take (length before) revisions = before) as Ht by (rewrite E; apply take_app_length).
  assert (reversible (length before) = true) as H.
  { apply (proj1 (forallb_forall _ _) all_reversible), in_seq. rewrite E, length_app. simpl. lia. }
  unfold reversible, after_revisions in H. rewrite Hr, Ht in H.
  destruct (run (upgrades before) empty_pg) as [?|d]; [done|].
  destruct (run (rev_upgrade r) d) as [?|d1] eqn:E1; [done|].
  apply andb_true_iff in H as [(d2 & H2 & [= <-])%same_end_inr Hd%bool_decide_eq_true].
  split; [done|]. by exists d, d1.
Qed.

Lemma downgrade_restores_witness :
  ∃ d d1, run (upgrades (take 13 revisions)) empty_pg = inr d ∧ run upgrade_0014 d = inr d1 ∧
    run downgrade_0014 d1 = inr (with_extensions (sch_extensions (pg_schema d1)) d).
Proof. apply (downgrade_restores (take 13 revisions) rev_0014 []). reflexivity. Defined.

(** ** Rows under schema changes *)

(** Operations that only look at the schema leave the rows alone. *)
Definition over_rows (R : gmap string (list row)) (Q : gmap string Z) (m : pg Pg) : pg Pg :=
  d ← m; mret (mkPg (pg_schema d) R Q).

Lemma drop_constraint_frame name t s R Q :
  run_drop_constraint name t (mkPg s R Q) = over_rows R Q (run_drop_constraint name t (mkPg s ∅ ∅)).
Proof.
  unfold run_drop_constraint, over_rows, table_of. simpl. destruct (sch_tables s !! t) as [tb|]; [|done].
  simpl. destruct (tb_constraints tb !! name) as [c|]; [|done]. simpl. by destruct (existsb _ _).
Qed.

Lemma drop_index_frame name t s R Q :
  run_drop_index name t (mkPg s R Q) = over_rows R Q (run_drop_index name t (mkPg s ∅ ∅)).
Proof. unfold run_drop_index, over_rows. simpl. by destruct (sch_indexes s !! name). Qed.

Lemma drop_column_frame t c s R Q :
  run_drop_column t c (mkPg s R Q) =
  over_rows (<[t := delete c <$> default [] (R !! t)]> R) Q (run_drop_column t c (mkPg s ∅ ∅)).
Proof.
  unfold run_drop_column, over_rows, table_of. simpl. destruct (sch_tables s !! t) as [tb|]; [|done].
  simpl. destruct (tb_columns tb !! c) as [col|]; [|done]. simpl. by destruct (existsb _ _).
Qed.

Definition is_ok (m : pg Pg) : bool := match m with inr _ => true | inl _ => false end.
Definition schema_of (m : pg Pg) : Schema := match m with inr d => pg_schema d | inl _ => empty_schema end.

Lemma over_rows_ok R Q m : is_ok m = true → over_rows R Q m = inr (mkPg (schema_of m) R Q).
Proof. by destruct m. Qed.

Lemma rows_of_put t u rows d : rows_of (put_rows t rows d) u = if decide (u = t) then rows else rows_of d u.
Proof.
  unfold rows_of, put_rows. simpl. case_decide as E; [subst; by rewrite lookup_insert_eq|].
  by rewrite lookup_insert_ne by done.
Qed.

Lemma filter_no_hit {A} (f : A → bool) l : existsb f l = false → List.filter (fun x => negb (f x)) l = l.
Proof.
  induction l as [|x l IH]; simpl; [done|]. intros [-> H]%orb_false_iff. simpl. by rewrite IH.
Qed.

Lemma delete_rows_leaf n t gone d :
  references (pg_schema d) t = [] →
  delete_rows (S n) t gone d = inr (put_rows t (List.filter (fun r => negb (gone r)) (rows_of d t)) d).
Proof.
  intros H. cbn [delete_rows]. cbv zeta. set (d1 := put_rows t _ d).
  change (references (pg_schema d1) t) with (references (pg_schema d) t).
  rewrite H. reflexivity.
Qed.

(** Deleting from a table that one other table refers to with [CASCADE]. *)
Lemma delete_rows_cascade n t u cs refs gone d :
  t ≠ u → references (pg_schema d) t = [(u, (cs, refs, CASCADE))] → references (pg_schema d) u = [] →
  let hit := refers cs refs (List.filter gone (rows_of d t)) in
  ∃ d', delete_rows (S (S n)) t gone d = inr d' ∧
    pg_schema d' = pg_schema d ∧ pg_sequences d' = pg_sequences d ∧
    rows_of d' t = List.filter (fun r => negb (gone r)) (rows_of d t) ∧
    rows_of d' u = List.filter (fun r => negb (hit r)) (rows_of d u) ∧
    ∀ v, v ≠ t → v ≠ u → rows_of d' v = rows_of d v.
Proof.
  intros Htu Ht Hu hit. remember (S n) as m eqn:Em. cbn [delete_rows]. cbv zeta.
  set (d1 := put_rows t _ d). rewrite (Ht : references (pg_schema d1) t = _). cbn [each]. fold hit.
  assert (rows_of d1 u = rows_of d u) as Eu.
  { unfold d1. by rewrite rows_of_put, decide_False by done. }
  assert (rows_of d1 t = List.filter (fun r => negb (gone r)) (rows_of d t)) as Et.
  { unfold d1. by rewrite rows_of_put, decide_True by done. }
  assert (∀ v, v ≠ t → rows_of d1 v = rows_of d v) as Ev.
  { intros v Hv. unfold d1. by rewrite rows_of_put, decide_False by done. }
  assert (pg_schema d1 = pg_schema d ∧ pg_sequences d1 = pg_sequences d) as [Es Eq] by done.
  clearbody d1. rewrite Eu. destruct (existsb hit (rows_of d u)) eqn:Eh; simpl negb; cbv iota.
  - rewrite Em, delete_rows_leaf by (by rewrite Es). eexists. split; [reflexivity|].
    split; [done|]. split; [done|]. rewrite Eu. split_and!.
    + by rewrite rows_of_put, decide_False.
    + by rewrite rows_of_put, decide_True.
    + intros v Hv Hv'. rewrite rows_of_put, decide_False by done. auto.
  - exists d1. rewrite (filter_no_hit hit) by done. auto 10.
Qed.

(** ** 0014: the blacklists of services go *)

Definition of_service (r : row) : bool := holds (text_is "scope" "service" OR IsNotNull "service_id") r.

Lemma schema_decided (a b : Schema) : bool_decide (a = b) = true → a = b.
Proof. apply bool_decide_eq_true. Qed.

Lemma pg_bind_inr {A B} (x : A) (f : A → pg B) : (inr x : pg A) ≫= f = f x.
Proof. done. Qed.

Lemma upgrade_0014_schema R Q :
  each run_operation (tail upgrade_0014) (mkPg (schema_after 13) R Q) =
  inr (mkPg (schema_after 14)
    (<["blacklist_entry"%string := delete "service_id"%string <$> default [] (R !! "blacklist_entry"%string)]> R) Q).
Proof.
  cbn [each run_operation tail upgrade_0014].
  rewrite drop_constraint_frame, over_rows_ok, pg_bind_inr by (vm_compute; reflexivity).
  rewrite drop_index_frame, over_rows_ok, pg_bind_inr by (vm_compute; reflexivity).
  rewrite drop_column_frame, over_rows_ok, pg_bind_inr by (vm_compute; reflexivity).
  match goal with |- inr (mkPg ?s _ _) = _ => assert (s = schema_after 14) as -> end; [|reflexivity].
  apply schema_decided. vm_compute. reflexivity.
Qed.

Lemma upgrade_0014_run d :
  pg_schema d = schema_after 13 →
  let dead := List.filter of_service (rows_of d "blacklist_entry") in
  ∃ d', run upgrade_0014 d = inr d' ∧ pg_schema d' = schema_after 14 ∧
    rows_of d' "blacklist_entry" = delete "service_id"%string <$>
      List.filter (fun r => negb (of_service r)) (rows_of d "blacklist_entry") ∧
    rows_of d' "feed_blacklist_assertion" = List.filter
      (fun a => negb (refers ["blacklist_entry_id"] ["id"] dead a)%string)
      (rows_of d "feed_blacklist_assertion") ∧
    ∀ t, t ≠ "blacklist_entry"%string → t ≠ "feed_blacklist_assertion"%string → rows_of d' t = rows_of d t.
Proof.
  intros Hs dead.
  assert (size (sch_tables (pg_schema d)) = 25%nat) as Hn by (rewrite Hs; vm_compute; reflexivity).
  destruct (delete_rows_cascade 24 "blacklist_entry" "feed_blacklist_assertion" ["blacklist_entry_id"%string]
    ["id"%string] of_service d) as (d1 & H1 & S1 & Q1 & Rb & Ra & Ro);
    [done|by rewrite Hs; vm_compute|by rewrite Hs; vm_compute|].
  destruct (sch_tables (pg_schema d) !! "blacklist_entry"%string) as [tb|] eqn:Htb;
    [|rewrite Hs in Htb; vm_compute in Htb; discriminate].
  assert (run_operation (hd (drop_table "") upgrade_0014) d = inr d1) as H0.
  { transitivity (delete_rows (S (size (sch_tables (pg_schema d)))) "blacklist_entry" of_service d);
      [|by rewrite Hn]. unfold run_operation, upgrade_0014, hd, table_of. by rewrite Htb. }
  change (run upgrade_0014 d) with
    (run_operation (hd (drop_table "") upgrade_0014) d ≫= each run_operation (tail upgrade_0014)).
  rewrite H0, pg_bind_inr.
  destruct d1 as [s R Q]. cbn [pg_schema] in S1. subst s. rewrite Hs, upgrade_0014_schema.
  eexists. split; [reflexivity|]. split; [reflexivity|]. unfold rows_of in *. cbn [pg_rows] in *.
  rewrite lookup_insert_eq, lookup_insert_ne by done. split; [by rewrite <- Rb|]. split; [exact Ra|].
  intros t H2 H3. rewrite lookup_insert_ne by done. by apply Ro.
Qed.

(** C17: Removing the blacklists of services removes exactly them.  Whatever the
    tables hold, revision 0014 runs to its end and leaves the schema of the head
    revision; every entry that is not of a service stays, without its emptied
    column, together with the feed assertions on it; the entries of services and
    the assertions on them are gone; no other table changes. *)
Theorem service_blacklists_removed d :
  pg_schema d = schema_after 13 →
  let dead := List.filter of_service (rows_of d "blacklist_entry") in
  ∃ d', run upgrade_0014 d = inr d' ∧ pg_schema d' = schema_after 14 ∧
    rows_of d' "blacklist_entry" = delete "service_id"%string <$>
      List.filter (fun r => negb (of_service r)) (rows_of d "blacklist_entry") ∧
    rows_of d' "feed_blacklist_assertion" = List.filter
      (fun a => negb (refers ["blacklist_entry_id"] ["id"] dead a)%string)
      (rows_of d "feed_blacklist_assertion") ∧
    ∀ t, t ≠ "blacklist_entry"%string → t ≠ "feed_blacklist_assertion"%string → rows_of d' t = rows_of d t.
Proof. apply upgrade_0014_run. Qed.

(** The revision also retires the trigger [blacklist], but not in the rows: a job
    queued by a change to such a blacklist keeps it, and [SAEnum] raises
    [LookupError] for a stored value that its class does not have. *)
Lemma blacklist_trigger_left_behind d j :
  pg_schema d = schema_after 13 → j ∈ rows_of d "agent_job" → j !! "trigger"%string = Some (VText "blacklist") →
  ("blacklist"%string ∉ ChangeTrigger_values) ∧
  ∃ d', run upgrade_0014 d = inr d' ∧ j ∈ rows_of d' "agent_job".
Proof.
  intros Hs Hj Ht. split; [apply (bool_decide_eq_true (_ ∉ _)); vm_compute; reflexivity|].
  destruct (upgrade_0014_run d Hs) as (d' & Hr & _ & _ & _ & Ho). exists d'. split; [done|].
  by rewrite Ho.
Qed.

(** A concrete database at revision 0013, with an entry of a service that a feed
    asserts and a global entry. *)
Definition entry (id : uuid) (scope : string) (service : option uuid) : row :=
  let r := {["id"%string := VUuid id; "scope"%string := VText scope; "source"%string := VText "feed"]} in
  match service with Some s => <["service_id"%string := VUuid s]> r | None => r end.
Definition assertion (source target : uuid) : row :=
  {["feed_source_id"%string := VUuid source; "blacklist_entry_id"%string := VUuid target]}.
Definition demo_0013 : Pg :=
  mkPg (schema_after 13)
    {["blacklist_entry"%string := [entry 1 "global" None; entry 2 "service" (Some 9%positive)];
      "feed_blacklist_assertion"%string := [assertion 5 1; assertion 5 2]]} ∅.

Lemma service_blacklists_removed_witness :
  ∃ d', run upgrade_0014 demo_0013 = inr d' ∧ rows_of d' "blacklist_entry" = [entry 1 "global" None] ∧
    rows_of d' "feed_blacklist_assertion" = [assertion 5 1].
Proof.
  destruct (service_blacklists_removed demo_0013 eq_refl) as (d' & Hr & _ & Hb & Ha & _).
  exists d'. split; [exact Hr|]. split; [rewrite Hb|rewrite Ha]; vm_compute; reflexivity.
Defined.

(** ** 0007: data-plane numbers for the services *)

Section numbering.
Context (c : string).

(** Rows that agree on every column but [c]. *)
Definition agree (r r' : row) : Prop := ∀ x, x ≠ c → r' !! x = r !! x.

Lemma number_rows_agree n rows : Forall2 agree rows (number_rows c n rows).
Proof.
  revert n. induction rows as [|r rows IH]; intros n; simpl; constructor; [|done].
  intros x Hx. by rewrite lookup_insert_ne.
Qed.

Lemma number_rows_lookup n rows i r :
  rows !! i = Some r → number_rows c n rows !! i = Some (<[c := VInt (n + Z.of_nat i)]> r).
Proof.
  revert n i. induction rows as [|r' rows IH]; intros n [|i]; simpl; try done.
  - intros [= ->]. by rewrite Z.add_0_r.
  - intros H. rewrite (IH _ _ H). by replace (n + 1 + Z.of_nat i) with (n + Z.of_nat (S i)) by lia.
Qed.

Lemma number_rows_length n rows : length (number_rows c n rows) = length rows.
Proof. revert n. induction rows; intros n; simpl; auto. Qed.

Lemma map_agree {A} (f g : row → A) rows rows' :
  Forall2 agree rows rows' → (∀ r r', agree r r' → g r' = f r) → g <$> rows' = f <$> rows.
Proof.
  intros H Hf. induction H as [|r r' rows rows' Hr Hrows IH]; [done|].
  by rewrite !fmap_cons, IH, (Hf r r').
Qed.

Lemma forallb_agree f g rows rows' :
  Forall2 agree rows rows' → (∀ r r', agree r r' → g r' = f r) → forallb g rows' = forallb f rows.
Proof.
  intros H Hf. induction H as [|r r' rows rows' Hr Hrows IH]; simpl; [done|].
  by rewrite IH, (Hf r r').
Qed.

Lemma key_agree cs r r' : agree r r' → c ∉ cs → key cs r' = key cs r.
Proof.
  intros H. unfold key. induction cs as [|x cs IH]; [done|]. intros [? ?]%not_elem_of_cons. simpl.
  by rewrite H, IH by done.
Qed.

Lemma index_key_agree tb tb' cs r r' :
  agree r r' → c ∉ cs → (∀ x, x ≠ c → tb_columns tb' !! x = tb_columns tb !! x) →
  index_key tb' (Plain <$> cs) r' = index_key tb (Plain <$> cs) r.
Proof.
  intros H Hc Ht. unfold index_key. induction cs as [|x cs IH]; [done|].
  apply not_elem_of_cons in Hc as [Hx Hc]. rewrite fmap_cons. specialize (IH Hc).
  set (ps := Plain <$> cs) in *. clearbody ps. simpl. rewrite IH. unfold index_value. cbn [part_column].
  by rewrite Ht, H by done.
Qed.

Lemma eval_agree p r r' : agree r r' → c ∉ predicate_columns p → eval r' p = eval r p.
Proof.
  intros H. induction p; simpl; rewrite ?not_elem_of_app; try (by intros [? ?]; rewrite IHp1, IHp2).
  - intros Hc. assert (∀ o, o = a ∨ o = b → operand_value r' o = operand_value r o) as Ho.
    { intros o Ho. destruct o as [x| |]; [|done|done]. simpl. apply H. intros ->.
      apply Hc. destruct Ho as [<- | <-]; [|destruct a]; set_solver. }
    by rewrite !Ho by auto.
  - intros Hc. by rewrite H by set_solver.
  - intros Hc. by rewrite H by set_solver.
Qed.

Lemma pairwise_agree x rows rows' :
  Forall2 agree rows rows' → x ≠ c → pairwise (apart x) rows' = pairwise (apart x) rows.
Proof.
  intros H Hx. induction H as [|r r' rows rows' Hr Hrows IH]; simpl; [done|]. rewrite IH. f_equal.
  apply forallb_agree; [done|]. intros s s' Hs. unfold apart. by rewrite Hr, Hs by done.
Qed.

Lemma filter_agree w rows rows' :
  Forall2 agree rows rows' → c ∉ default [] (predicate_columns <$> w) →
  Forall2 agree (List.filter (where_holds w) rows) (List.filter (where_holds w) rows').
Proof.
  intros H Hc. induction H as [|r r' rows rows' Hr Hrows IH]; simpl; [done|].
  replace (where_holds w r') with (where_holds w r).
  2: { destruct w as [p|]; simpl; [|done]. unfold holds. by rewrite (eval_agree p r r'). }
  case_match; [by constructor|done].
Qed.

(** A constraint that does not mention [c], on a table it does not refer to
    itself, does not notice a change of [c]. *)
Definition blind (t : string) (k : constr) : bool :=
  negb (bool_decide (c ∈ constr_columns k)) &&
  match k with ForeignKeyConstraint _ u _ _ => negb (bool_decide (u = t)) | _ => true end.

Lemma satisfies_agree d d' t tb tb' k :
  Forall2 agree (rows_of d t) (rows_of d' t) → (∀ u, u ≠ t → rows_of d' u = rows_of d u) →
  (∀ x, x ≠ c → tb_columns tb' !! x = tb_columns tb !! x) → blind t k = true →
  satisfies d' t tb' k = satisfies d t tb k.
Proof.
  intros Hr Ho Ht [Hc%negb_true_iff%bool_decide_eq_false Hk]%andb_true_iff. destruct k; simpl in Hc, Hk |- *.
  - f_equal; [|f_equal; apply map_agree; [done|]; intros; by apply index_key_agree].
    apply forallb_agree; [done|]. intros r r' Ha. by rewrite (key_agree _ r r').
  - f_equal. apply map_agree; [done|]. intros. by apply index_key_agree.
  - apply forallb_agree; [done|]. intros r r' Ha. rewrite (key_agree _ r r') by done.
    rewrite Ho; [done|]. by apply negb_true_iff, bool_decide_eq_false in Hk.
  - apply forallb_agree; [done|]. intros r r' Ha. by rewrite (eval_agree _ r r').
  - apply not_elem_of_cons in Hc as [Hx Hw]. apply pairwise_agree; [|done]. by apply filter_agree.
Qed.
End numbering.

Lemma add_column_frame t c ty s R Q :
  run_add_column t (colm c ty true) None (mkPg s R Q) =
  over_rows R Q (run_add_column t (colm c ty true) None (mkPg s ∅ ∅)).
Proof.
  unfold run_add_column, over_rows, table_of, colm. simpl. destruct (sch_tables s !! t) as [tb|]; [|done].
  simpl. by case_bool_decide.
Qed.

(** The rows of a table satisfy its constraints. *)
Definition table_valid (d : Pg) (t : string) : Prop :=
  ∀ tb name k, sch_tables (pg_schema d) !! t = Some tb → tb_constraints tb !! name = Some k →
    satisfies d t tb k = true.

Lemma distinct_numbers c n rows tb :
  (col_type <$> tb_columns tb !! c) = Some Integer →
  distinct_keys (index_key tb [Plain c] <$> number_rows c n rows) = true.
Proof.
  intros Hty. unfold distinct_keys. apply bool_decide_eq_true.
  assert (∀ n rows, omap id (index_key tb [Plain c] <$> number_rows c n rows) =
    (fun i => [VInt i]) <$> seqZ n (Z.of_nat (length rows))) as ->.
  { clear n rows. intros n rows. revert n. induction rows as [|r rows IH]; intros n; [done|].
    cbn [number_rows length]. rewrite fmap_cons. cbn [omap list_omap].
    rewrite seqZ_cons by lia. rewrite fmap_cons.
    replace (Z.pred (Z.of_nat (S (length rows)))) with (Z.of_nat (length rows)) by lia.
    replace (index_key tb [Plain c] (<[c:=VInt n]> r)) with (Some [VInt n]).
    2: { unfold index_key. simpl. unfold index_value. cbn [part_column].
         rewrite Hty, lookup_insert_eq. reflexivity. }
    cbn [id]. f_equal. apply IH. }
  apply NoDup_fmap; [|apply NoDup_seqZ]. intros i j [= ->]. done.
Qed.

Abbreviation services := "protected_service"%string.
Abbreviation dp_seq := "service_dp_id_seq"%string.

(** The table of services once the column is there. *)
Definition numbered_schema : Schema :=
  schema_of (run_add_column services (colm "dp_id" Integer true) None (mkPg (schema_after 6) ∅ ∅)).

Definition blind_services (s : Schema) : bool :=
  match sch_tables s !! services with
  | Some tb => forallb (fun kv => blind "dp_id" services kv.2) (map_to_list (tb_constraints tb))
  | None => false
  end.

(** Only the new column tells the tables of the two schemas apart. *)
Definition same_but_dp_id (a b : Table) : bool :=
  bool_decide (tb_constraints b = tb_constraints a) &&
  bool_decide (delete "dp_id"%string (tb_columns b) = delete "dp_id"%string (tb_columns a)) &&
  bool_decide (col_type <$> tb_columns b !! "dp_id"%string = Some Integer).

Lemma update_numbers s s1 tb tb1 R Q n :
  sch_tables s !! services = Some tb → sch_tables s1 !! services = Some tb1 →
  same_but_dp_id tb tb1 = true → blind_services s1 = true →
  Q !! dp_seq = Some n → table_valid (mkPg s R Q) services →
  run_update_nextval services "dp_id" dp_seq (mkPg s1 R Q) =
  let rows := number_rows "dp_id" n (default [] (R !! services)) in
  inr (mkPg s1 (<[services := rows]> R) (<[dp_seq := n + Z.of_nat (length rows)]> Q)).
Proof.
  intros Ht Ht1 [[Ec%bool_decide_eq_true Ed%bool_decide_eq_true]%andb_true_iff Ei%bool_decide_eq_true]%andb_true_iff
    Hb Hn Hv. unfold run_update_nextval, table_of, found. cbn [pg_schema pg_sequences]. rewrite Ht1, pg_bind_inr.
  destruct (tb_columns tb1 !! "dp_id"%string); [|discriminate Ei]. rewrite pg_bind_inr, Hn, pg_bind_inr.
  set (d1 := put_rows _ _ _).
  assert (forallb (fun kv => satisfies d1 services tb1 kv.2) (map_to_list (tb_constraints tb1)) = true) as ->;
    [|reflexivity].
  apply forallb_forall. intros [name k] Hk. apply list_elem_of_In, elem_of_map_to_list in Hk.
  unfold blind_services in Hb. rewrite Ht1 in Hb.
  rewrite (satisfies_agree "dp_id" (mkPg s R Q) d1 services tb tb1).
  - apply (Hv tb name k); [done|]. by rewrite <- Ec.
  - unfold d1. rewrite rows_of_put, decide_True by done. apply number_rows_agree.
  - intros u Hu. unfold d1. by rewrite rows_of_put, decide_False.
  - intros x Hx. apply (f_equal (.!! x)) in Ed. by rewrite !lookup_delete_ne in Ed by done.
  - apply (proj1 (forallb_forall _ _) Hb (name, k)). by apply list_elem_of_In, elem_of_map_to_list.
Qed.

Lemma alter_column_frame t c seq s R Q :
  no_nulls c (default [] (R !! t)) = true → is_Some (Q !! seq) →
  run_alter_column t c None (Some false) (Some seq) (mkPg s R Q) =
  over_rows R Q (run_alter_column t c None (Some false) (Some seq) (mkPg s ∅ {[seq := 0]})).
Proof.
  intros Hn [n Hq]. unfold run_alter_column, over_rows, table_of, sequence_exists, rows_of.
  cbn [pg_schema pg_rows pg_sequences]. destruct (sch_tables s !! t) as [tb|]; [|done]. simpl.
  destruct (tb_columns tb !! c) as [col|]; [|done]. simpl. rewrite Hn, Hq, lookup_singleton_eq. simpl. reflexivity.
Qed.

Lemma relation_taken_frame name s R Q :
  Q !! name = None → relation_taken name (mkPg s R Q) = relation_taken name (mkPg s ∅ ∅).
Proof. intros Hq. unfold relation_taken. cbn [pg_schema pg_sequences]. by rewrite Hq. Qed.

Lemma add_unique_frame name t cs s R Q tb :
  Q !! name = None → sch_tables s !! t = Some tb →
  distinct_keys (index_key tb (Plain <$> cs) <$> default [] (R !! t)) = true →
  add_constraint t (Some name, UniqueConstraint cs) (mkPg s R Q) =
  over_rows R Q (add_constraint t (Some name, UniqueConstraint cs) (mkPg s ∅ ∅)).
Proof.
  intros Hq Ht Hd. unfold add_constraint, over_rows, table_of. cbn [pg_schema fst snd].
  change (default _ (Some name)) with name. cbv zeta. rewrite Ht. unfold found. rewrite !pg_bind_inr, (relation_taken_frame name s R Q) by done.
  cbn [satisfies]. unfold rows_of at 1. cbn [pg_rows]. rewrite Hd.
  destruct (fail_if (_ || _) _); [reflexivity|]. by destruct (fail_if (existsb _ _) _).
Qed.

Lemma no_nulls_numbered c n rows : no_nulls c (number_rows c n rows) = true.
Proof.
  revert n. induction rows as [|r rows IH]; intros n; simpl; [done|].
  rewrite IH, bool_decide_eq_true_2; [done|]. rewrite lookup_insert_eq. eauto.
Qed.

Definition services_prepared (s s1 : Schema) : bool :=
  match sch_tables s !! services, sch_tables s1 !! services with
  | Some a, Some b => same_but_dp_id a b && blind_services s1
  | _, _ => false
  end.

(** The last two operations, on rows that are numbered. *)
Lemma upgrade_0007_close n rows R Q :
  is_Some (Q !! dp_seq) → Q !! "uq_protected_service_dp_id"%string = None →
  each run_operation (drop 3 upgrade_0007)
    (mkPg numbered_schema (<[services := number_rows "dp_id" n rows]> R) Q) =
  inr (mkPg (schema_after 7) (<[services := number_rows "dp_id" n rows]> R) Q).
Proof.
  intros Hq Hu. cbn [each run_operation drop upgrade_0007].
  rewrite alter_column_frame; [|by rewrite lookup_insert_eq; apply no_nulls_numbered|done].
  rewrite over_rows_ok, pg_bind_inr by (vm_compute; reflexivity). set (s2 := schema_of _).
  destruct (sch_tables s2 !! services) as [tb|] eqn:Et; [|vm_compute in Et; discriminate Et].
  erewrite add_unique_frame; [|exact Hu|exact Et|].
  - rewrite over_rows_ok, pg_bind_inr by (vm_compute; reflexivity).
    match goal with |- inr (mkPg ?s _ _) = _ => assert (s = schema_after 7) as -> end; [|reflexivity].
    apply schema_decided. vm_compute. reflexivity.
  - rewrite lookup_insert_eq. apply distinct_numbers.
    assert (default None ((fun t => col_type <$> tb_columns t !! "dp_id"%string) <$> sch_tables s2 !! services)
      = Some Integer) as H by (vm_compute; reflexivity).
    by rewrite Et in H.
Qed.

Definition ends_in (s : Schema) (m : pg Pg) : bool :=
  match m with inr d => bool_decide (pg_schema d = s) | inl _ => false end.
Lemma over_rows_ends R Q m s : ends_in s m = true → over_rows R Q m = inr (mkPg s R Q).
Proof. destruct m; [done|]. intros <-%bool_decide_eq_true. done. Qed.

(** The first three operations number the rows. *)
Lemma number_services s s1 R :
  relation_taken dp_seq (mkPg s ∅ ∅) = false →
  ends_in s1 (run_add_column services (colm "dp_id" Integer true) None (mkPg s ∅ ∅)) = true →
  services_prepared s s1 = true → table_valid (mkPg s R ∅) services →
  let rows := number_rows "dp_id" 1 (default [] (R !! services)) in
  each run_operation (take 3 upgrade_0007) (mkPg s R ∅) =
  inr (mkPg s1 (<[services := rows]> R) (<[dp_seq := 1 + Z.of_nat (length rows)]> (<[dp_seq := 1]> ∅))).
Proof.
  intros Hrt Hadd Hp Hv rows. unfold services_prepared in Hp.
  destruct (sch_tables s !! services) as [tb|] eqn:Ht; [|done].
  destruct (sch_tables s1 !! services) as [tb1|] eqn:Ht1; [|done].
  apply andb_true_iff in Hp as [Hsame Hblind]. cbn [each run_operation take upgrade_0007].
  rewrite relation_taken_frame, Hrt by done. cbn [fail_if]. rewrite !pg_bind_inr.
  change (over _ _ (mkPg s R ∅)) with (mkPg s R (<[dp_seq := 1]> ∅)).
  rewrite add_column_frame, (over_rows_ends _ _ _ s1), pg_bind_inr by exact Hadd.
  rewrite (update_numbers s s1 tb tb1 R _ 1) by done. by rewrite pg_bind_inr.
Qed.

Lemma upgrade_0007_run R :
  table_valid (mkPg (schema_after 6) R ∅) services →
  let rows := number_rows "dp_id" 1 (default [] (R !! services)) in
  run upgrade_0007 (mkPg (schema_after 6) R ∅) =
  inr (mkPg (schema_after 7) (<[services := rows]> R)
         (<[dp_seq := 1 + Z.of_nat (length rows)]> (<[dp_seq := 1]> ∅))).
Proof.
  intros Hv rows. unfold run. rewrite <- (take_drop 3 upgrade_0007), each_app.
  rewrite (number_services (schema_after 6) numbered_schema); cycle 1.
  - vm_compute. reflexivity.
  - vm_compute. reflexivity.
  - vm_compute. reflexivity.
  - exact Hv.
  - rewrite pg_bind_inr. apply upgrade_0007_close; [rewrite lookup_insert_eq; eauto|by rewrite !lookup_insert_ne].
Qed.

(** C18: Numbering the services that exist.  On a database at revision 0006
    whose services satisfy their constraints, revision 0007 runs to its end,
    whatever the number of services: each of them gets a data-plane id, no two
    the same, and changes in nothing else; the sequence goes on behind the last
    of them, so that a service created later gets a new id; no other table
    changes. *)
Theorem dp_ids_backfilled d :
  pg_schema d = schema_after 6 → pg_sequences d = ∅ → table_valid d services →
  ∃ d', run upgrade_0007 d = inr d' ∧ pg_schema d' = schema_after 7 ∧
    length (rows_of d' services) = length (rows_of d services) ∧
    (∀ i r, rows_of d services !! i = Some r →
       rows_of d' services !! i = Some (<["dp_id"%string := VInt (1 + Z.of_nat i)]> r)) ∧
    pg_sequences d' !! dp_seq = Some (1 + Z.of_nat (length (rows_of d services))) ∧
    ∀ t, t ≠ services → rows_of d' t = rows_of d t.
Proof.
  destruct d as [s R Q]. cbn [pg_schema pg_sequences]. intros -> -> Hv. eexists.
  split; [by apply upgrade_0007_run|]. split; [reflexivity|]. unfold rows_of.
  cbn [pg_rows pg_sequences]. rewrite !lookup_insert_eq, number_rows_length. cbn [default id from_option].
  rewrite number_rows_length. split; [done|]. split; [intros i r; apply number_rows_lookup|]. split; [done|].
  intros t Ht. by rewrite lookup_insert_ne.
Qed.

(** Two services of two tenants, at revision 0006. *)
Definition service_row (id tenant : uuid) (cidr : ipv4net) : row :=
  {["id"%string := VUuid id; "tenant_id"%string := VUuid tenant; "cidr_or_ip"%string := VCidr cidr]}.
Definition demo_0006 : Pg :=
  mkPg (schema_after 6)
    {["tenants"%string := [{["id"%string := VUuid 1]}; {["id"%string := VUuid 2]}];
      services := [service_row 3 1 (Net 167772160 24); service_row 4 2 (Net 167772416 24)]]} ∅.

Definition rows_valid (d : Pg) (t : string) : bool :=
  match sch_tables (pg_schema d) !! t with
  | Some tb => forallb (fun kv => satisfies d t tb kv.2) (map_to_list (tb_constraints tb))
  | None => true
  end.
Lemma rows_valid_table d t : rows_valid d t = true → table_valid d t.
Proof.
  unfold rows_valid. intros H tb name k Ht Hk. rewrite Ht in H.
  apply (proj1 (forallb_forall _ _) H (name, k)). by apply list_elem_of_In, elem_of_map_to_list.
Qed.

Lemma dp_ids_backfilled_witness :
  ∃ d', run upgrade_0007 demo_0006 = inr d' ∧ length (rows_of d' services) = 2%nat ∧
    pg_sequences d' !! dp_seq = Some 3.
Proof.
  destruct (dp_ids_backfilled demo_0006 eq_refl eq_refl) as (d' & Hr & _ & Hl & _ & Hq & _).
  - apply rows_valid_table. vm_compute. reflexivity.
  - exists d'. split; [exact Hr|]. split; [rewrite Hl|rewrite Hq]; vm_compute; reflexivity.
Defined.
