(* ===== verification/ReadRoutes.v ===== *)
(** * What callers can read ([api/routers], [api/schemas])

    The routes that only read: they resolve the caller, check access, query,
    and render rows as the response models of [api/schemas].  A response model
    refuses a value its field does not admit.  Two columns that the rows of
    [Models] do not carry are left out of the responses: the time stamps of a
    rule, and [updated_at] of a tenant. *)

From S2P Require Import Prelude PyStr Ipaddress RuleMatch Models Db.
From S2P Require Import Apply Allocations PyNum Services Rules Lists.
From S2P Require Import FeedReconcile NodeControl FeedJobs Feeds Api.
From S2P Require Import SessionStore Accounts TelemetryReader NodeLanes.
Import Deps.
Open Scope Z_scope.

(** ** [api/routers/services.py], [api/schemas/services.py] *)
Module ServiceViews.

Record ServicePlanResponse := mkServicePlanResponse {
  spr_committed_clean_gbps : Z;
  spr_ceiling_clean_gbps : Z;
  spr_billing_metric : string;
  spr_overage_policy : string
}.

Record ServiceResponse := mkServiceResponse {
  rs_id : uuid;
  rs_tenant_id : uuid;
  rs_tenant_name : option string;
  rs_created_by : option uuid;
  rs_creator_username : option string;
  rs_name : string;
  rs_cidr_or_ip : string;
  rs_mode : ServiceMode;
  rs_enabled : bool;
  rs_vip_pps : option Z;
  rs_vip_bps : option Z;
  rs_service_pps : option Z;
  rs_service_bps : option Z;
  rs_apply_status : ApplyStatus.t;
  rs_version : Z;
  rs_active_version : option Z;
  rs_plan : ServicePlanResponse;
  rs_warnings : list string;
  rs_created_at : timestamp;
  rs_updated_at : timestamp
}.

Definition overage_policy_value (p : OveragePolicy) : string :=
  match p with overage_billed => "billed" | overage_capped => "capped" end.

(** [record.tenant.name] needs a tenant, [record.creator] may be [None]. *)
Definition _service_response (warnings : list string) (record : ServiceRecord)
    : exn + ServiceResponse :=
  let service := sr_service record in
  let plan := sr_plan record in
  match sr_tenant record with
  | None => inl (AttributeError "name")
  | Some tenant =>
      inr (mkServiceResponse (svc_id service) (svc_tenant_id service) (Some (tenant_name tenant))
        (svc_created_by service) (user_username <$> sr_creator record) (svc_name service)
        (cidr_str (svc_cidr_or_ip service)) (svc_mode service) (svc_enabled service)
        (svc_vip_pps service) (svc_vip_bps service) (svc_service_pps service)
        (svc_service_bps service) (svc_apply_status service) (svc_version service)
        (svc_active_version service)
        (mkServicePlanResponse (plan_committed_clean_gbps plan) (plan_ceiling_clean_gbps plan)
           (plan_billing_metric plan) (overage_policy_value (plan_overage_policy plan)))
        warnings (svc_created_at service) (svc_updated_at service))
  end.

Definition list_services (principal : Principal) : M Session (list ServiceResponse) :=
  records ← get_db (fun d => list_services d (like principal));
  records ← lift records;
  lift (collect (_service_response []) records).

Definition get_service (service_id : uuid) (principal : Principal) : M Session ServiceResponse :=
  service ← load_service_for_principal service_id principal;
  record ← get_db (fun d => get_service d (svc_id service) (like principal));
  record ← lift record;
  lift (_service_response [] record).

(** *** Next hops *)

Record NextHopStatusResponse := mkNextHopStatusResponse {
  nh_dp_id : Z;
  nh_dst_mac : option string;
  nh_src_mac : option string;
  nh_resolved : bool;
  nh_age_s : option Z;
  nh_success_count : Z;
  nh_failure_count : Z
}.

(** [snapshot] is what [reader.snapshot()] returned, [m] the counts of
    [services/nexthop_metrics.py]. *)
Definition next_hop_status (snapshot : option TelemetrySnapshot) (m : ResolveMetrics) (dp_id : Z)
    : NextHopStatusResponse :=
  let nh := snapshot ≫= fun t => find (fun item => hop_dp_id item =? dp_id) (ts_nexthops t) in
  let '(success_count, failure_count) := get_resolve_metrics dp_id m in
  mkNextHopStatusResponse dp_id (hop_dst_mac <$> nh) (hop_src_mac <$> nh)
    (default false (hop_resolved <$> nh)) (hop_age_s <$> nh) success_count failure_count.

Definition get_service_nexthop (snapshot : option TelemetrySnapshot) (m : ResolveMetrics)
    (service_id : uuid) (principal : Principal) : M Session NextHopStatusResponse :=
  service ← load_service_for_principal service_id principal;
  mret (next_hop_status snapshot m (svc_dp_id service)).

(** [resolves] is the answer of the helper's probe; the next-hop table and the
    counts that the call leaves are part of the result. *)
Definition resolve_service_nexthop (resolves : Z → string → bool)
    (snapshot : Hops → option TelemetrySnapshot) (h : Hops) (service_id : uuid) (principal : Principal)
    : M Session (NextHopStatusResponse * Hops) :=
  principal ← get_admin_principal principal;
  service ← load_service_for_principal service_id principal;
  let h := hop_resolve resolves (svc_dp_id service) (hop_address service) h in
  mret (next_hop_status (snapshot h) (hops_metrics h) (svc_dp_id service), h).

End ServiceViews.

(** ** [api/routers/rules.py], [api/schemas/rules.py] *)
Module RuleViews.

Record RuleResponse := mkRuleResponse {
  rr_id : uuid;
  rr_service_id : uuid;
  rr_priority : Z;
  rr_protocol : Protocol.t;
  rr_src_port_lo : option Z;
  rr_src_port_hi : option Z;
  rr_dst_port_lo : option Z;
  rr_dst_port_hi : option Z;
  rr_enabled : bool;
  rr_warnings : list string
}.

Definition _rule_response (warnings : list string) (rule : AllowRule) : RuleResponse :=
  mkRuleResponse (rule_id rule) (rule_service_id rule) (rule_priority rule) (rule_protocol rule)
    (rule_src_port_lo rule) (rule_src_port_hi rule) (rule_dst_port_lo rule) (rule_dst_port_hi rule)
    (rule_enabled rule) warnings.

Definition list_rules (service_id : uuid) (principal : Principal) : M Session (list RuleResponse) :=
  service ← load_service_for_principal service_id principal;
  actor ← _load_actor principal;
  rules ← list_rules (svc_id service) actor;
  mret (_rule_response [] <$> rules).

End RuleViews.

(** ** [api/routers/lists.py], [api/routers/global_blacklist.py], [api/schemas/lists.py] *)
Module ListViews.

Record WhitelistEntryResponse := mkWhitelistEntryResponse {
  we_id : uuid;
  we_service_id : uuid;
  we_source_cidr : string;
  we_created_by : option uuid;
  we_created_at : timestamp
}.

Definition _whitelist_response (entry : WhitelistEntry) : WhitelistEntryResponse :=
  mkWhitelistEntryResponse (wl_id entry) (wl_service_id entry) (cidr_str (wl_source_cidr entry))
    (wl_created_by entry) (wl_created_at entry).

Definition list_whitelist (service_id : uuid) (principal : Principal)
    : M Session (list WhitelistEntryResponse) :=
  service ← load_service_for_principal service_id principal;
  actor ← _load_actor principal;
  entries ← list_whitelist (svc_id service) actor;
  mret (_whitelist_response <$> entries).

Record BlacklistEntryResponse := mkBlacklistEntryResponse {
  be_id : uuid;
  be_scope : BlacklistScope;
  be_source : BlacklistSource;
  be_source_cidr : string;
  be_created_by : option uuid;
  be_created_at : timestamp
}.

(** [Literal[BlacklistScope.global_]]: no other scope can be shown. *)
Definition _blacklist_response (entry : BlacklistEntry) : exn + BlacklistEntryResponse :=
  if bool_decide (bl_scope entry = scope_global) then
    inr (mkBlacklistEntryResponse (bl_id entry) (bl_scope entry) (bl_source entry)
           (cidr_str (bl_source_cidr entry)) (bl_created_by entry) (bl_created_at entry))
  else inl (ValidationError "BlacklistEntryResponse" "scope").

Definition list_global_blacklist (principal : Principal) : M Session (list BlacklistEntryResponse) :=
  principal ← get_admin_principal principal;
  actor ← _load_actor principal;
  entries ← get_db (fun d => list_blacklist d actor);
  entries ← lift entries;
  lift (collect _blacklist_response entries).

End ListViews.

(** ** [api/routers/allocations.py], [api/schemas/allocations.py] *)
Module AllocationViews.

Record AllocationResponse := mkAllocationResponse {
  ar_id : uuid;
  ar_tenant_id : uuid;
  ar_cidr : string;
  ar_status : CIDRStatus;
  ar_allocated_by : option uuid;
  ar_created_at : timestamp;
  ar_updated_at : timestamp
}.

Definition _allocation_response (allocation : AllocatedCIDR) : AllocationResponse :=
  mkAllocationResponse (alloc_id allocation) (alloc_tenant_id allocation)
    (cidr_str (alloc_cidr allocation)) (alloc_status allocation) (alloc_allocated_by allocation)
    (alloc_created_at allocation) (alloc_updated_at allocation).

Record AllocationUsageResponse := mkAllocationUsageResponse {
  au_allocation : AllocationResponse;
  au_dependent_count : nat
}.

Definition _usage_response (row : AllocatedCIDR * nat) : AllocationUsageResponse :=
  mkAllocationUsageResponse (_allocation_response row.1) row.2.

Record OverlapCheckResponse := mkOverlapCheckResponse {
  oc_overlaps : bool;
  oc_conflicts : list AllocationResponse
}.

Definition list_allocations (tenant_id_ : uuid) (principal : Principal)
    : M Session (list AllocationUsageResponse) :=
  get_admin_principal principal ;;
  rows ← get_db (fun d => list_for_tenant d tenant_id_);
  mret (_usage_response <$> rows).

Definition overlap_check (cidr : pystr) (principal : Principal) : M Session OverlapCheckResponse :=
  get_admin_principal principal ;;
  cidr ← lift (_validate_cidr cidr);
  result ← get_db (fun d => overlap_check d cidr);
  mret (mkOverlapCheckResponse result.1 (_allocation_response <$> result.2)).

Definition list_my_allocations (principal : Principal) : M Session (list AllocationResponse) :=
  rows ← AllocationsRouter.list_my_allocations principal;
  mret (_allocation_response <$> rows).

Definition get_my_allocation (allocation_id : uuid) (principal : Principal)
    : M Session AllocationResponse :=
  allocation ← AllocationsRouter.get_my_allocation allocation_id principal;
  mret (_allocation_response allocation).

End AllocationViews.

(** ** [api/routers/apply_status.py], [api/schemas/apply.py] *)
Module ApplyViews.

Record JobView := mkJobView {
  jv_id : uuid;
  jv_target_type : string;
  jv_target_id : uuid;
  jv_version : Z;
  jv_job_type : JobType.t;
  jv_trigger : ChangeTrigger.t;
  jv_status : JobStatus.t;
  jv_error : option string;
  jv_attempts : Z;
  jv_dispatched_at : option timestamp;
  jv_created_at : timestamp;
  jv_started_at : option timestamp;
  jv_finished_at : option timestamp
}.

(** The two columns behind [job_target]. *)
Definition target_type (j : AgentJob) : string :=
  match job_target j with
  | TargetService _ => "service"
  | TargetFeedRun _ => "feed_sync_run"
  | TargetGlobalDeny => "global_deny"
  end.
Definition target_id (j : AgentJob) : option uuid :=
  match job_target j with TargetService sid => Some sid | _ => None end.

(** [target_id: uuid.UUID] does not admit [None]. *)
Definition _job_view (job : AgentJob) : exn + JobView :=
  match target_id job with
  | None => inl (ValidationError "JobView" "target_id")
  | Some target =>
      inr (mkJobView (job_id job) (target_type job) target (job_version job) (job_type job)
        (job_trigger job) (job_status job) (job_error job) (job_attempts job)
        (job_dispatched_at job) (job_created_at job) (job_started_at job) (job_finished_at job))
  end.

Record ApplyStatusView := mkApplyStatusView {
  av_service_id : uuid;
  av_tenant_id : uuid;
  av_tenant_name : option string;
  av_apply_status : ApplyStatus.t;
  av_version : Z;
  av_active_version : option Z;
  av_last_error : option string;
  av_last_applied_at : option timestamp;
  av_latest_job : option JobView
}.

Definition _apply_status_view (record : ApplyStatusRecord) : exn + ApplyStatusView :=
  let view job := mkApplyStatusView (asr_service_id record) (asr_tenant_id record)
    (asr_tenant_name record) (asr_apply_status record) (asr_version record)
    (asr_active_version record) (asr_last_error record) (asr_last_applied_at record) job in
  match asr_latest_job record with
  | None => inr (view None)
  | Some job => match _job_view job with inl e => inl e | inr v => inr (view (Some v)) end
  end.

Definition get_apply_status (service_id : uuid) (principal : Principal) : M Session ApplyStatusView :=
  record ← ApplyStatusRouter.get_apply_status service_id principal;
  lift (_apply_status_view record).

Definition list_jobs (status_filter : option JobStatus.t) (principal : Principal)
    : M Session (list JobView) :=
  jobs ← ApplyStatusRouter.list_jobs status_filter principal;
  lift (collect _job_view jobs).

End ApplyViews.

(** ** [api/routers/feeds.py], [api/schemas/feeds.py] *)
Module FeedViews.

Record FeedSourceResponse := mkFeedSourceResponse {
  fs_id : uuid;
  fs_name : string;
  fs_url : string;
  fs_format : FeedFormat;
  fs_enabled : bool;
  fs_sync_interval_seconds : Z;
  fs_has_credential : bool;
  fs_last_status : option FeedSyncStatus.t;
  fs_last_error : option string;
  fs_last_sync_at : option timestamp;
  fs_next_sync_at : option timestamp;
  fs_created_at : timestamp;
  fs_updated_at : timestamp
}.

(** [record] is [source_record(source)]. *)
Definition _source_response (record : FeedSourceRecord) : FeedSourceResponse :=
  mkFeedSourceResponse (fsr_id record) (fsr_name record) (fsr_url record) (fsr_format record)
    (fsr_enabled record) (fsr_sync_interval_seconds record) (fsr_has_credential record)
    (fsr_last_status record) (fsr_last_error record) (fsr_last_sync_at record)
    (fsr_next_sync_at record) (fsr_created_at record) (fsr_updated_at record).

Record FeedSyncRunResponse := mkFeedSyncRunResponse {
  fr_id : uuid;
  fr_feed_source_id : uuid;
  fr_source_name : string;
  fr_sequence : Z;
  fr_trigger : ChangeTrigger.t;
  fr_dry_run : bool;
  fr_status : FeedSyncStatus.t;
  fr_started_at : option timestamp;
  fr_finished_at : option timestamp;
  fr_duration_ms : option Z;
  fr_error : option string;
  fr_fetched_lines : Z;
  fr_valid : Z;
  fr_duplicates : Z;
  fr_added : Z;
  fr_removed : Z;
  fr_skipped_invalid : Z;
  fr_overlap_count : Z;
  fr_global_changed : bool;
  fr_desired_revision : option Z;
  fr_node_map_version : option Z
}.

Definition _run_response (run : FeedSyncRun) : FeedSyncRunResponse :=
  mkFeedSyncRunResponse (run_id run) (run_feed_source_id run) (run_source_name run)
    (run_sequence run) (run_trigger run) (run_dry_run run) (run_status run) (run_started_at run)
    (run_finished_at run) (run_duration_ms run) (run_error run) (run_fetched_lines run)
    (run_valid run) (run_duplicates run) (run_added run) (run_removed run)
    (run_skipped_invalid run) (run_overlap_count run) (run_global_changed run)
    (run_desired_revision run) (run_node_map_version run).

Record FeedSyncJobResponse := mkFeedSyncJobResponse {
  fj_id : uuid;
  fj_feed_sync_run_id : uuid;
  fj_status : JobStatus.t;
  fj_attempts : Z;
  fj_dispatched_at : option timestamp;
  fj_created_at : timestamp;
  fj_started_at : option timestamp;
  fj_finished_at : option timestamp
}.

Definition _job_response (job : AgentJob) : exn + FeedSyncJobResponse :=
  match feed_sync_run_id job with
  | None => inl (HTTPException 500 "Feed sync job is missing its run")
  | Some rid =>
      inr (mkFeedSyncJobResponse (job_id job) rid (job_status job) (job_attempts job)
        (job_dispatched_at job) (job_created_at job) (job_started_at job) (job_finished_at job))
  end.

Definition list_feeds (principal : Principal) : M Session (list FeedSourceResponse) :=
  sources ← FeedsRouter.list_feeds principal;
  mret (_source_response <$> sources).

Definition get_feed (source_id : uuid) (principal : Principal) : M Session FeedSourceResponse :=
  source ← FeedsRouter.get_feed source_id principal;
  mret (_source_response source).

Definition list_syncs (source_id : uuid) (principal : Principal) : M Session (list FeedSyncRunResponse) :=
  runs ← FeedsRouter.list_syncs source_id principal;
  mret (_run_response <$> runs).

End FeedViews.

(** ** [api/routers/tenants.py], [users.py], [auth.py] *)
Module AccountViews.

Record TenantResponse := mkTenantResponse {
  tr_id : uuid;
  tr_name : string;
  tr_status : TenantStatus;
  tr_created_at : timestamp;
  tr_active_allocation_count : nat;
  tr_user_count : nat
}.

Definition _tenant_response (summary : TenantSummary) : TenantResponse :=
  let tenant := ts_tenant summary in
  mkTenantResponse (tenant_id tenant) (tenant_name tenant) (tenant_status tenant)
    (tenant_created_at tenant) (ts_active_allocation_count summary) (ts_user_count summary).

Definition list_tenants (principal : Principal) : M Session (list TenantResponse) :=
  get_admin_principal principal ;;
  summaries ← get_db list_tenants;
  mret (_tenant_response <$> summaries).

Definition get_tenant (t : uuid) (principal : Principal) : M Session TenantResponse :=
  get_admin_principal principal ;;
  summary ← get_tenant_summary t;
  summary ← get_or_raise summary (HTTPException 404 "Tenant not found");
  mret (_tenant_response summary).

Record UserResponse := mkUserResponse {
  ur_id : uuid;
  ur_username : string;
  ur_role : Role;
  ur_tenant_id : option uuid;
  ur_tenant_name : option string;
  ur_status : UserStatus;
  ur_last_login_at : option timestamp
}.

(** [tenant] is [user.__dict__.get("tenant")]: the tenant when the relationship
    was loaded, and [None] when it was not. *)
Definition _user_response (tenant : option Tenant) (user : User) : UserResponse :=
  mkUserResponse (user_id user) (user_username user) (user_role user) (user_tenant_id user)
    (tenant_name <$> tenant) (user_status user) (user_last_login_at user).

(** [list_users] loads the relationship with [selectinload]. *)
Definition list_users (principal : Principal) : M Session (list UserResponse) :=
  get_admin_principal principal ;;
  get_db (fun d => (fun u => _user_response (user_tenant_id u ≫= fun t => tenants d !! t) u) <$>
                     rows (users d)).

(** [db.get(User, user_id)] does not load it; the one row that has it, the
    caller's, is an administrator's and has no tenant. *)
Definition get_user (uid : uuid) (principal : Principal) : M Session UserResponse :=
  get_admin_principal principal ;;
  users ← get_db users;
  user ← get_or_raise (users !! uid) (HTTPException 404 "User not found");
  mret (_user_response None user).

Record PrincipalResponse := mkPrincipalResponse {
  pr_id : uuid;
  pr_username : string;
  pr_role : Role;
  pr_tenant_id : option uuid
}.

Definition _principal_response (principal : Principal) : PrincipalResponse :=
  mkPrincipalResponse (p_user_id principal) (p_username principal) (p_role principal)
    (p_tenant_id principal).

Definition me (principal : Principal) : M Session PrincipalResponse :=
  mret (_principal_response principal).

End AccountViews.

(** ** [main.py]: the built frontend beside the API *)
Module Frontend.

Definition slash : Ascii.ascii := Ascii.ascii_of_N 47.
Definition dot : Ascii.ascii := Ascii.ascii_of_N 46.

(** [s.split("/")]. *)
Fixpoint split_slash (s : string) : list string :=
  match s with
  | EmptyString => [""%string]
  | String c s =>
      if Ascii.eqb c slash then ""%string :: split_slash s
      else match split_slash s with
           | [] => [String c EmptyString]
           | part :: parts => String c part :: parts
           end
  end.

(** [PurePosixPath(path).name]: the last component that is not empty or a dot. *)
Definition path_name (path : string) : string :=
  default ""%string (last (List.filter (fun c => negb (bool_decide (c = ""%string)) &&
                                              negb (bool_decide (c = "."%string))) (split_slash path))).

(** [name.rfind(".")], counted from [n]. *)
Fixpoint rfind_dot (n : nat) (s : string) : option nat :=
  match s with
  | EmptyString => None
  | String c s =>
      match rfind_dot (S n) s with
      | Some i => Some i
      | None => if Ascii.eqb c dot then Some n else None
      end
  end.

(** [bool(Path(path).suffix)]. *)
Definition has_suffix (path : string) : bool :=
  let name := path_name path in
  match rfind_dot 0 name with
  | Some i => (0 <? i)%nat && (i <? String.length name - 1)%nat
  | None => false
  end.

Definition _API_PATH_PREFIXES : list string :=
  ["allocations"; "alerts"; "auth"; "billing"; "ddos"; "feeds"; "health"; "jobs"; "lists"; "node";
   "services"; "tenants"; "users"]%string.

(** The middleware answers with the page in place of the route. *)
Definition override_static_html_requests (method accept path : string) : bool :=
  bool_decide (method = "GET"%string) && str_contains "text/html" accept &&
  negb (String.prefix "/docs" path || String.prefix "/redoc" path ||
        String.prefix "/openapi.json" path || String.prefix "/health" path || has_suffix path).

(** The last route, for a [GET] that no other one takes; [path] is without its
    leading slash. *)
Definition frontend_history_fallback (path : string) : exn + unit :=
  if bool_decide (path = "assets"%string) || String.prefix "assets/" path ||
     bool_decide (hd ""%string (split_slash path) ∈ _API_PATH_PREFIXES) || has_suffix path
  then inl (HTTPException 404 "Not found") else inr tt.

(** What a [GET] gets: the page, an API answer, or an error.  [api] is the answer
    of the route that matches, if one does. *)
Inductive got (A : Type) := IndexPage | ApiAnswer (a : A) | Error (e : exn).
Arguments IndexPage {A}.
Arguments ApiAnswer {A} a.
Arguments Error {A} e.

Definition serve_get {A} (api : option A) (accept path : string) : got A :=
  if override_static_html_requests "GET" accept ("/" +:+ path) then IndexPage else
  match api with
  | Some a => ApiAnswer a
  | None =>
      if bool_decide (path = ""%string) || bool_decide (path = "index.html"%string) then IndexPage else
      match frontend_history_fallback path with inl e => Error e | inr _ => IndexPage end
  end.

(** [directory] is absent, or says whether it is a directory with an
    [index.html]; the result is whether the frontend is served. *)
Definition _configure_frontend_static (directory : option bool) : exn + bool :=
  match directory with
  | None => inr false
  | Some true => inr true
  | Some false =>
      inl (RuntimeError "CONTROL_PLANE_FRONTEND_STATIC_DIR must contain a built Vite index.html")
  end.

End Frontend.

(** ** Requests *)

Import ServiceViews RuleViews ListViews AllocationViews ApplyViews FeedViews AccountViews.

Inductive query :=
  | Me
  | ListServices
  | GetService (service_id : uuid)
  | GetServiceNexthop (service_id : uuid)
  | ListRules (service_id : uuid)
  | RuleOverlapCheck (service_id : uuid) (protocol : Protocol.t)
      (src_port_lo src_port_hi dst_port_lo dst_port_hi : option Z)
  | ListWhitelist (service_id : uuid)
  | GetApplyStatus (service_id : uuid)
  | ListMyAllocations
  | GetMyAllocation (allocation_id : uuid)
  | ListAllocations (tenant_id_ : uuid)
  | AllocationOverlapCheck (cidr : pystr)
  | ListGlobalBlacklist
  | ListJobs (status : option JobStatus.t)
  | ListFeeds
  | GetFeed (source_id : uuid)
  | ListSyncs (source_id : uuid)
  | ListTenants
  | GetTenant (tenant_id_ : uuid)
  | ListUsers
  | GetUser (user_id_ : uuid).

Inductive answer :=
  | AnPrincipal (r : PrincipalResponse)
  | AnServices (r : list ServiceResponse)
  | AnService (r : ServiceResponse)
  | AnNextHop (r : NextHopStatusResponse)
  | AnRules (r : list RuleResponse)
  | AnWarnings (r : list string)
  | AnWhitelist (r : list WhitelistEntryResponse)
  | AnApplyStatus (r : ApplyStatusView)
  | AnAllocations (r : list AllocationResponse)
  | AnAllocation (r : AllocationResponse)
  | AnUsage (r : list AllocationUsageResponse)
  | AnOverlap (r : OverlapCheckResponse)
  | AnBlacklist (r : list BlacklistEntryResponse)
  | AnJobs (r : list JobView)
  | AnFeeds (r : list FeedSourceResponse)
  | AnFeed (r : FeedSourceResponse)
  | AnSyncs (r : list FeedSyncRunResponse)
  | AnTenants (r : list TenantResponse)
  | AnTenant (r : TenantResponse)
  | AnUsers (r : list UserResponse)
  | AnUser (r : UserResponse).

Section reading.
Context (snapshot : option TelemetrySnapshot) (metrics : ResolveMetrics).

Definition read_route (q : query) (p : Principal) : M Session answer :=
  match q with
  | Me => AnPrincipal <$> me p
  | ListServices => AnServices <$> list_services p
  | GetService sid => AnService <$> get_service sid p
  | GetServiceNexthop sid => AnNextHop <$> get_service_nexthop snapshot metrics sid p
  | ListRules sid => AnRules <$> list_rules sid p
  | RuleOverlapCheck sid protocol sl sh dl dh =>
      AnWarnings <$> RulesRouter.overlap_check sid protocol sl sh dl dh p
  | ListWhitelist sid => AnWhitelist <$> list_whitelist sid p
  | GetApplyStatus sid => AnApplyStatus <$> get_apply_status sid p
  | ListMyAllocations => AnAllocations <$> list_my_allocations p
  | GetMyAllocation id => AnAllocation <$> get_my_allocation id p
  | ListAllocations t => AnUsage <$> list_allocations t p
  | AllocationOverlapCheck cidr => AnOverlap <$> overlap_check cidr p
  | ListGlobalBlacklist => AnBlacklist <$> list_global_blacklist p
  | ListJobs status => AnJobs <$> list_jobs status p
  | ListFeeds => AnFeeds <$> list_feeds p
  | GetFeed id => AnFeed <$> get_feed id p
  | ListSyncs id => AnSyncs <$> list_syncs id p
  | ListTenants => AnTenants <$> list_tenants p
  | GetTenant t => AnTenant <$> get_tenant t p
  | ListUsers => AnUsers <$> list_users p
  | GetUser id => AnUser <$> get_user id p
  end.

(** As for the routes that change something, one session serves the request. *)
Definition serve_read (session : option SessionData) (q : query) : M World answer :=
  session_scope (p ← resolve_current_user session; read_route q p).
End reading.

(** ** Reading alerts, bills and telemetry

    The remaining [GET] routes, over the operational tables of [OpsModels]; with
    [query] they are all the [GET] routes of [api/routers]. *)

From S2P Require Import OpsModels AlertApi BillingApi TelemetryApi.

Inductive ops_query :=
  | ListAlerts (state : option AlertState.t) (severity : option AlertSeverity.t)
      (scope : option AlertScope.t) (service_id : option uuid) (since : option timestamp)
  | GetAlert (alert_id : uuid)
  | ListAlertRules
  | ListChannels
  | ListUsage (service_id tenant_id_ : option uuid) (period : option string)
      (status : option BillingStatus.t)
  | UsageHistory (service_id : option uuid) (limit : Z)
  | ExportUsage (period : string) (csv : bool)
  | ServiceTelemetry (service_id : uuid)
  | ServiceTelemetryHistory (service_id : uuid) (limit : Z)
  | ExportServiceTelemetry (service_id : uuid) (csv : bool) (limit : Z)
  | NodeTelemetry
  | NodeTelemetryHistory (limit : Z)
  | ExportNodeTelemetry (csv : bool) (limit : Z)
  | GetNodeHealth
  | GetAmplificationConfig.

Inductive ops_answer :=
  | AnAlerts (r : AlertListResponse)
  | AnAlert (r : AlertResponse)
  | AnAlertRules (r : list AlertRuleResponse)
  | AnChannels (r : list NotificationChannelResponse)
  | AnBills (r : BillingUsageListResponse)
  | AnBillExport (r : Export)
  | AnWindow (r : TelemetryWindowResponse)
  | AnWindows (r : TelemetryHistoryResponse)
  | AnWindowExport (r : TelemetryExport)
  | AnNodeHealth (r : NodeHealthResponse)
  | AnAmplification (r : AmplificationConfigResponse).

Section ops_reading.
Context (snapshot : option TelemetrySnapshot) (metrics : ResolveMetrics).
Context (collate : string → string → bool) (quotes_cr : bool).

Definition ops_route (q : ops_query) (p : Principal) : M OSession ops_answer :=
  match q with
  | ListAlerts state severity scope sid since =>
      AnAlerts <$> list_alerts p state severity scope sid since
  | GetAlert id => AnAlert <$> get_alert id p
  | ListAlertRules => AnAlertRules <$> AlertApi.list_rules p
  | ListChannels => AnChannels <$> list_channels p
  | ListUsage sid t period status => AnBills <$> list_usage collate p sid t period status
  | UsageHistory sid limit => AnBills <$> usage_history collate p sid limit
  | ExportUsage period csv => AnBillExport <$> export_usage collate quotes_cr period csv p
  | ServiceTelemetry sid => AnWindow <$> get_service_telemetry sid p
  | ServiceTelemetryHistory sid limit => AnWindows <$> get_service_telemetry_history sid p limit
  | ExportServiceTelemetry sid csv limit =>
      AnWindowExport <$> export_service_telemetry quotes_cr sid csv p limit
  | NodeTelemetry => AnWindow <$> get_node_telemetry p
  | NodeTelemetryHistory limit => AnWindows <$> get_node_telemetry_history p limit
  | ExportNodeTelemetry csv limit => AnWindowExport <$> export_node_telemetry quotes_cr csv p limit
  | GetNodeHealth => AnNodeHealth <$> get_node_health snapshot p
  | GetAmplificationConfig => AnAmplification <$> core (get_amplification_config p)
  end.

(** Any read request, in a session over all tables. *)
Definition serve_any (session : option SessionData) (q : query + ops_query)
    : M OWorld (answer + ops_answer) :=
  ops_scope (
    p ← core (resolve_current_user session);
    match q with
    | inl q => inl <$> core (read_route snapshot metrics q p)
    | inr q => inr <$> ops_route q p
    end).
End ops_reading.
