(* ===== verification/ReadSpec.v ===== *)
(** * What a tenant can learn by reading

    Two databases look alike to a tenant when they agree on the tenant's own
    rows.  The answers of every [GET] route are the same in both: nothing that
    belongs to another tenant shows, not even its existence.  Also here: which
    listings of jobs can be rendered, and that reading changes nothing. *)

From S2P Require Import Prelude PyStr Ipaddress RuleMatch Models Db.
From S2P Require Import Apply ApplyInv Allocations PyNum Services Isolation Rules ServicesInv.
From S2P Require Import Lists FeedReconcile NodeControl FeedJobs Feeds Applier Api.
From S2P Require Import OpsModels AlertApi BillingApi TelemetryApi.
From S2P Require Import System Requests Demo SessionStore Accounts TelemetryReader NodeLanes ReadRoutes.
From stdpp Require gmap.
Import Deps ServiceViews RuleViews ListViews AllocationViews ApplyViews FeedViews AccountViews.
Open Scope Z_scope.

(** ** Queries and the rows they select *)

Section visible.
Context {A : Type} (p : A → bool).
(** A row that [p] lets through. *)
Definition visible (o : option A) : option A :=
  match o with Some x => if p x then Some x else None | None => None end.

Let keep (_ : positive) (x : A) (acc : list A) : list A := if p x then x :: acc else acc.

Lemma trie_cases {P} (mt : gmap.gmap_dep A P) : ∃ ml mx mr, mt = gmap.GNode ml mx mr.
Proof.
  induction mt using gmap.gmap_dep_ind; [|eauto]. by exists gmap.GEmpty, None, gmap.GEmpty.
Qed.

Lemma fold_invisible {P} (mt : gmap.gmap_dep A P) j y :
  (∀ i, visible (gmap.gmap_dep_lookup i mt) = None) → gmap.gmap_dep_fold keep j y mt = y.
Proof.
  revert j y. induction mt as [|P ml mx mr _ IHl IHr] using gmap.gmap_dep_ind; intros j y H; [done|].
  rewrite gmap.gmap_dep_fold_GNode, IHr, IHl.
  - specialize (H 1%positive). rewrite gmap.gmap_dep_lookup_GNode in H. destruct mx as [[q x]|]; [|done].
    simpl in H. unfold keep. by destruct (p x).
  - intros i. specialize (H (i~0)%positive). by rewrite gmap.gmap_dep_lookup_GNode in H.
  - intros i. specialize (H (i~1)%positive). by rewrite gmap.gmap_dep_lookup_GNode in H.
Qed.

Lemma fold_visible {P} (mt mt' : gmap.gmap_dep A P) j y :
  (∀ i, visible (gmap.gmap_dep_lookup i mt) = visible (gmap.gmap_dep_lookup i mt')) →
  gmap.gmap_dep_fold keep j y mt = gmap.gmap_dep_fold keep j y mt'.
Proof.
  revert mt' j y. induction mt as [|P ml mx mr _ IHl IHr] using gmap.gmap_dep_ind; intros mt' j y H.
  - symmetry. apply fold_invisible. intros i. by rewrite <- H.
  - destruct (trie_cases mt') as (ml' & mx' & mr' & ->).
    rewrite !gmap.gmap_dep_fold_GNode, (IHr mr'), (IHl ml').
    + do 2 f_equal. specialize (H 1%positive). rewrite !gmap.gmap_dep_lookup_GNode in H.
      destruct mx as [[q x]|], mx' as [[q' x']|]; simpl in H; unfold keep; repeat case_match; congruence.
    + intros i. specialize (H (i~0)%positive). by rewrite !gmap.gmap_dep_lookup_GNode in H.
    + intros i. specialize (H (i~1)%positive). by rewrite !gmap.gmap_dep_lookup_GNode in H.
Qed.

Lemma select_where_fold (t : gmap uuid A) :
  select_where p t = map_fold keep [] t.
Proof.
  rewrite map_fold_foldr. unfold select_where, rows. generalize (map_to_list t). intros l.
  induction l as [|[k x] l IH]; [done|]. rewrite fmap_cons, filter_cons. simpl. unfold keep at 1.
  destruct (p x); simpl; by rewrite IH.
Qed.

(** A query depends only on the rows it selects, their order included. *)
Lemma select_where_visible (t t' : gmap uuid A) :
  (∀ id, visible (t !! id) = visible (t' !! id)) → select_where p t = select_where p t'.
Proof.
  intros H. rewrite !select_where_fold. destruct t as [mt], t' as [mt']. unfold map_fold, gmap.gmap_fold.
  apply fold_visible. exact H.
Qed.
End visible.

Arguments visible {A} p o /.

(** Two tables agree on the rows that [own] lets through. *)
Definition sees {A} (own : A → bool) (m m' : gmap uuid A) : Prop :=
  ∀ id, visible own (m !! id) = visible own (m' !! id).

#[global] Instance sees_equivalence {A} (own : A → bool) : Equivalence (sees own).
Proof. split; [by intros m id|by intros m m' H id|]. intros m1 m2 m3 H1 H2 id. by rewrite H1. Qed.

Lemma sees_lookup {A} (own : A → bool) m m' id r :
  sees own m m' → own r = true → m !! id = Some r → m' !! id = Some r.
Proof.
  intros H Hr Hm. specialize (H id). rewrite Hm in H. simpl in H. rewrite Hr in H.
  destruct (m' !! id) as [r'|]; simpl in H; [|done]. by destruct (own r').
Qed.

(** A query that selects among the rows in sight gives the same answer. *)
Lemma sees_select {A} (own q : A → bool) m m' :
  sees own m m' → (∀ r, q r = true → own r = true) → select_where q m = select_where q m'.
Proof.
  intros H Hq. apply select_where_visible. intros id.
  destruct (m !! id) as [r|] eqn:E; simpl; [destruct (q r) eqn:Er|].
  - rewrite (sees_lookup own m m' id r) by auto. simpl. by rewrite Er.
  - destruct (m' !! id) as [r'|] eqn:E'; simpl; [destruct (q r') eqn:Er'|]; try done.
    rewrite (sees_lookup own m' m id r') in E by (auto; by symmetry). congruence.
  - destruct (m' !! id) as [r'|] eqn:E'; simpl; [destruct (q r') eqn:Er'|]; try done.
    rewrite (sees_lookup own m' m id r') in E by (auto; by symmetry). congruence.
Qed.

(** ** What a tenant's own rows are *)

Definition own_user (t : uuid) (u : User) : bool := bool_decide (user_tenant_id u = Some t).
Definition own_service (t : uuid) (s : ProtectedService) : bool := bool_decide (svc_tenant_id s = t).
Definition own_allocation (t : uuid) (a : AllocatedCIDR) : bool := bool_decide (alloc_tenant_id a = t).
Definition rule_of (sid : uuid) (r : AllowRule) : bool := bool_decide (rule_service_id r = sid).
Definition entry_of (sid : uuid) (e : WhitelistEntry) : bool := bool_decide (wl_service_id e = sid).

(** The parts of a service that lie in other tables.  Of the account that
    created it, which may be an administrator's, only the name shows. *)
Record service_alike (sid : uuid) (svc : ProtectedService) (d d' : Db) : Prop := {
  sa_plan : service_plan d !! sid = service_plan d' !! sid;
  sa_rules : sees (rule_of sid) (allow_rule d) (allow_rule d');
  sa_entries : sees (entry_of sid) (whitelist_entry d) (whitelist_entry d');
  sa_jobs : sees (is_job_of sid) (agent_job d) (agent_job d');
  sa_creator : ∀ u, svc_created_by svc = Some u →
    user_username <$> users d !! u = user_username <$> users d' !! u
}.

Record alike (t : uuid) (d d' : Db) : Prop := {
  al_tenant : tenants d !! t = tenants d' !! t;
  al_users : sees (own_user t) (users d) (users d');
  al_services : sees (own_service t) (protected_service d) (protected_service d');
  al_allocations : sees (own_allocation t) (allocated_cidr d) (allocated_cidr d');
  al_service : ∀ sid svc, protected_service d !! sid = Some svc → own_service t svc = true →
    service_alike sid svc d d'
}.

#[global] Instance service_alike_equivalence sid svc : Equivalence (service_alike sid svc).
Proof.
  split.
  - intros d. by split.
  - intros d d' [H1 H2 H3 H4 H5]. split; try (by symmetry). intros u Hu. symmetry. auto.
  - intros d1 d2 d3 [H1 H2 H3 H4 H5] [K1 K2 K3 K4 K5]. split; try (by etrans).
    intros u Hu. rewrite H5; auto.
Qed.

#[global] Instance alike_equivalence t : Equivalence (alike t).
Proof.
  split.
  - intros d. by split.
  - intros d d' [H1 H2 H3 H4 H5]. split; try (by symmetry). intros sid svc Hs Ho.
    symmetry. apply H5; [|done]. by apply (sees_lookup (own_service t) (protected_service d')).
  - intros d1 d2 d3 [H1 H2 H3 H4 H5] [K1 K2 K3 K4 K5]. split; try (by etrans).
    intros sid svc Hs Ho. etrans; [by apply H5|]. apply K5; [|done].
    by apply (sees_lookup (own_service t) (protected_service d1)).
Qed.

(** ** Reading in two databases at once

    [agree m Q]: from either session [m] gives the same result, which satisfies
    [Q] when it is a value, and leaves the session as it was. *)

Section agreement.
Context {St : Type} (s s' : St).

Definition agree {A} (m : M St A) (Q : A → Prop) : Prop :=
  ∃ r, m s = (r, s) ∧ m s' = (r, s') ∧ ∀ a, r = inr a → Q a.

Lemma agree_bind {A B} (m : M St A) (k : A → M St B) (Q : A → Prop) (R : B → Prop) :
  agree m Q → (∀ a, Q a → agree (k a) R) → agree (m ≫= k) R.
Proof.
  intros (r & H1 & H2 & HQ) Hk. unfold agree, mbind, M_bind. rewrite H1, H2.
  destruct r as [e|a]; [exists (inl e); naive_solver|]. by apply Hk, HQ.
Qed.

Lemma agree_mono {A} (m : M St A) (Q R : A → Prop) : agree m Q → (∀ a, Q a → R a) → agree m R.
Proof. intros (r & H1 & H2 & HQ) Hm. exists r. auto. Qed.

Lemma agree_ret {A} (a : A) (Q : A → Prop) : Q a → agree (mret a) Q.
Proof. intros H. exists (inr a). split_and!; [done..|]. by intros ? [= <-]. Qed.

Lemma agree_raise {A} e (Q : A → Prop) : agree (raise e) Q.
Proof. by exists (inl e). Qed.

Lemma agree_lift {A} (r : exn + A) (Q : A → Prop) : (∀ a, r = inr a → Q a) → agree (lift r) Q.
Proof. intros H. by exists r. Qed.

Lemma agree_get_or_raise {A} (o : option A) e (Q : A → Prop) :
  (∀ a, o = Some a → Q a) → agree (get_or_raise o e) Q.
Proof. destruct o as [a|]; intros H; [by apply agree_ret, H|apply agree_raise]. Qed.

Lemma agree_require b e (Q : unit → Prop) : (b = true → Q tt) → agree (require b e) Q.
Proof. destruct b; intros H; [by apply agree_ret, H|apply agree_raise]. Qed.

Lemma agree_fmap {A B} (f : A → B) (m : M St A) (Q : A → Prop) :
  agree m Q → agree (f <$> m) (fun _ => True).
Proof. intros H. eapply agree_bind; [exact H|]. intros a _. by apply agree_ret. Qed.
End agreement.

Lemma agree_get_db (s s' : Session) {A} (f : Db → A) (Q : A → Prop) :
  f (db s) = f (db s') → Q (f (db s)) → agree s s' (get_db f) Q.
Proof.
  intros E H. exists (inr (f (db s))). split_and!; [done|unfold get_db, gets; by rewrite E|].
  by intros ? [= <-].
Qed.

(** A read of the configuration tables, in the wider session. *)
Lemma agree_core (s s' : OSession) {A} (m : M Session A) (Q : A → Prop) :
  agree (os_session s) (os_session s') m Q → agree s s' (core m) Q.
Proof.
  intros (r & H1 & H2 & HQ). exists r. unfold core. rewrite H1, H2. by destruct s, s'.
Qed.

(** Rows are stored under their primary key. *)
Record keyed (d : Db) : Prop := {
  ky_service : ∀ sid svc, protected_service d !! sid = Some svc → svc_id svc = sid;
  ky_user : ∀ uid u, users d !! uid = Some u → user_id u = uid
}.

Create HintDb reads.
#[export] Hint Resolve agree_ret agree_raise agree_require : reads.

Section tenant.
Context (s s' : Session) (t : uuid) (p : Principal).
Hypothesis (Halike : alike t (db s) (db s')) (Hkeys : keyed (db s)).
Hypothesis (Hrole : p_role p = tenant_user) (Htenant : p_tenant_id p = Some t).
Hypothesis (Hself : ∃ u, users (db s) !! p_user_id p = Some u ∧ own_user t u = true).

Abbreviation agree := (agree s s').

Definition mine (svc : ProtectedService) : Prop :=
  protected_service (db s) !! svc_id svc = Some svc ∧ own_service t svc = true.

Lemma mine_there svc : mine svc → protected_service (db s') !! svc_id svc = Some svc.
Proof. intros [H1 H2]. exact (sees_lookup _ _ _ _ _ (al_services _ _ _ Halike) H2 H1). Qed.

Lemma mine_alike svc : mine svc → service_alike (svc_id svc) svc (db s) (db s').
Proof. intros [H1 H2]. by apply (al_service _ _ _ Halike). Qed.

(** A service of another tenant and one that does not exist are told alike. *)
Lemma load_named_agree sid :
  agree (load_service_for_principal sid p) (fun svc => mine svc ∧ svc_id svc = sid).
Proof.
  unfold load_service_for_principal, authorize_tenant_resource. rewrite Hrole, Htenant.
  pose proof (al_services _ _ _ Halike sid) as H.
  destruct (protected_service (db s) !! sid) as [svc|] eqn:E;
    [destruct (own_service t svc) eqn:Eo|].
  - pose proof (sees_lookup _ _ _ _ _ (al_services _ _ _ Halike) Eo E) as E'.
    exists (inr svc). unfold own_service in Eo. apply bool_decide_eq_true in Eo.
    unfold mbind, M_bind, get_db, gets. rewrite E, E'. simpl. rewrite bool_decide_eq_true_2 by congruence.
    pose proof (ky_service _ Hkeys _ _ E) as Hid. split_and!; [done..|]. intros a [= <-].
    split; [|done]. split; [by rewrite Hid|]. by apply bool_decide_eq_true.
  - exists (inl service_not_found). simpl in H. rewrite Eo in H. unfold own_service in *.
    apply bool_decide_eq_false in Eo. unfold mbind, M_bind, get_db, gets. rewrite E. simpl.
    rewrite bool_decide_eq_false_2 by congruence. split_and!; [done| |done].
    destruct (protected_service (db s') !! sid) as [svc'|]; [simpl|done]. simpl in H.
    case_bool_decide; [done|]. by rewrite bool_decide_eq_false_2 by congruence.
  - exists (inl service_not_found). unfold own_service in *. unfold mbind, M_bind, get_db, gets. rewrite E. simpl.
    split_and!; [done| |done]. destruct (protected_service (db s') !! sid) as [svc'|]; [simpl|done]. simpl in H.
    case_bool_decide; [done|]. by rewrite bool_decide_eq_false_2 by congruence.
Qed.

Lemma load_service_agree sid : agree (load_service_for_principal sid p) mine.
Proof. eapply agree_mono; [apply load_named_agree|]. by intros svc [? _]. Qed.

Lemma load_actor_agree : agree (_load_actor p) (fun _ => True).
Proof.
  destruct Hself as (u & Hu & Ho). apply agree_get_db; [|done].
  by rewrite Hu, (sees_lookup _ _ _ _ _ (al_users _ _ _ Halike) Ho Hu).
Qed.

Lemma require_locked_agree svc : mine svc → agree (_require_service_locked (svc_id svc)) mine.
Proof.
  intros Hm. exists (inr svc). unfold _require_service_locked, mbind, M_bind, get_db, gets.
  rewrite (proj1 Hm), (mine_there svc Hm). split_and!; [done..|]. by intros a [= <-].
Qed.

(** An administrator's route refuses before it reads. *)
Lemma admin_agree {A} (k : Principal → M Session A) :
  agree (get_admin_principal p ≫= k) (fun _ => True).
Proof.
  unfold get_admin_principal, require_admin. rewrite Hrole. by exists (inl forbidden).
Qed.

(** A query over the rows of an own service. *)
Lemma select_agree {A} (f : Db → gmap uuid A) (own : A → bool) (g : list A → list A) :
  sees own (f (db s)) (f (db s')) →
  agree (get_db (fun d => g (select_where own (f d)))) (fun _ => True).
Proof. intros H. apply agree_get_db; [|done]. by rewrite (sees_select own own _ _ H). Qed.

(** [bind] on a read that needs the service, or the actor. *)
Lemma with_service {B} sid (k : ProtectedService → M Session B) :
  (∀ svc, mine svc → agree (k svc) (fun _ => True)) →
  agree (load_service_for_principal sid p ≫= k) (fun _ => True).
Proof. intros H. eapply agree_bind; [apply load_service_agree|exact H]. Qed.

Lemma with_actor {B} (k : option User → M Session B) :
  (∀ actor, agree (k actor) (fun _ => True)) → agree (_load_actor p ≫= k) (fun _ => True).
Proof. intros H. eapply agree_bind; [apply load_actor_agree|auto]. Qed.

(** What the services of rules and lists do first. *)
Lemma with_locked {B} svc actor (k : ProtectedService → M Session B) :
  mine svc → (∀ svc, mine svc → agree (k svc) (fun _ => True)) →
  agree (service ← _require_service_locked (svc_id svc);
         lift (_authorize_actor actor service) ;; k service) (fun _ => True).
Proof.
  intros Hm H. eapply agree_bind; [by apply require_locked_agree|]. intros x Hx.
  eapply agree_bind; [by apply (agree_lift _ _ _ (fun _ => True))|]. intros _ _. by apply H.
Qed.
(** *** The routes *)

Lemma agree_db {A} (f : Db → exn + A) (Q : A → Prop) :
  f (db s) = f (db s') → (∀ a, f (db s) = inr a → Q a) → agree (d ← get_db id; lift (f d)) Q.
Proof.
  intros E H. exists (f (db s)). split_and!; [done| |done].
  unfold mbind, M_bind, get_db, gets, lift, id. by rewrite E.
Qed.

Lemma get_db_lift {A B} (f : Db → exn + A) (g : A → exn + B) (Q : B → Prop) :
  (f (db s) ≫= g) = (f (db s') ≫= g) → (∀ b, Q b) →
  agree (r ← get_db f; a ← lift r; lift (g a)) Q.
Proof.
  intros E H. exists (f (db s) ≫= g). split_and!; [..|done].
  - unfold mbind, M_bind, sum_bind, get_db, gets, lift. by destruct (f (db s)).
  - rewrite E. unfold mbind, M_bind, sum_bind, get_db, gets, lift. by destruct (f (db s')).
Qed.

(** Results that fail alike, or are rendered alike. *)
Definition rendered_alike {A B} (render : A → exn + B) (r r' : exn + A) : Prop :=
  match r, r' with
  | inl e, inl e' => e = e'
  | inr a, inr a' => render a = render a'
  | _, _ => False
  end.

Lemma rendered_bind {A B} (render : A → exn + B) r r' :
  rendered_alike render r r' → r ≫= render = r' ≫= render.
Proof. by destruct r, r'; simpl; intros; subst. Qed.

Lemma record_alike svc :
  mine svc →
  rendered_alike (_service_response []) (_record_from_loaded (db s) svc) (_record_from_loaded (db s') svc).
Proof.
  intros Hm. pose proof (mine_alike svc Hm) as [Hp _ _ _ Hc]. unfold _record_from_loaded. rewrite <- Hp.
  destruct (service_plan (db s) !! svc_id svc) as [plan|]; simpl; [|done].
  destruct Hm as [_ Ho%bool_decide_eq_true]. rewrite Ho, <- (al_tenant _ _ _ Halike).
  unfold _service_response. simpl. destruct (tenants (db s) !! t) as [tenant|]; [|done].
  do 2 f_equal. destruct (svc_created_by svc) as [u|]; [|done]. by apply Hc.
Qed.

Lemma collect_alike svcs :
  Forall mine svcs →
  rendered_alike (collect (_service_response []))
    (collect (_record_from_loaded (db s)) svcs) (collect (_record_from_loaded (db s')) svcs).
Proof.
  induction 1 as [|svc svcs Hm _ IH]; [done|]. simpl. pose proof (record_alike svc Hm) as Hr.
  destruct (_record_from_loaded (db s) svc) as [e|r], (_record_from_loaded (db s') svc) as [e'|r'];
    simpl in Hr; try done.
  destruct (collect (_record_from_loaded (db s)) svcs), (collect (_record_from_loaded (db s')) svcs);
    simpl in *; try done. by rewrite Hr, IH.
Qed.

Lemma list_services_agree : agree (ServiceViews.list_services p) (fun _ => True).
Proof.
  apply get_db_lift; [|done]. unfold Services.list_services. cbn [like principal_role principal_tenant_id].
  rewrite Hrole, Htenant. rewrite bool_decide_eq_false_2 by done.
  change (fun s => bool_decide (svc_tenant_id s = t)) with (own_service t).
  rewrite <- (sees_select _ (own_service t) _ _ (al_services _ _ _ Halike)) by done.
  apply rendered_bind, collect_alike, Forall_forall. intros svc (Ho & sid & Hs)%elem_of_order_by%elem_of_select.
  split; [|done]. by rewrite (ky_service _ Hkeys _ _ Hs).
Qed.

Lemma get_service_agree sid : agree (ServiceViews.get_service sid p) (fun _ => True).
Proof.
  apply with_service. intros svc Hm. apply get_db_lift; [|done].
  unfold Services.get_service, _load_service. rewrite (proj1 Hm), (mine_there svc Hm).
  destruct (_principal_can_access _ _); [|done]. by apply rendered_bind, record_alike.
Qed.

Lemma list_rules_agree sid : agree (RuleViews.list_rules sid p) (fun _ => True).
Proof.
  apply with_service. intros svc Hm. apply with_actor. intros actor.
  eapply agree_bind; [|intros a _; by apply agree_ret]. apply with_locked; [done|]. clear svc Hm. intros svc Hm.
  apply (select_agree allow_rule (rule_of (svc_id svc)) (order_by rule_priority)).
  by apply sa_rules with svc, mine_alike.
Qed.

Lemma list_whitelist_agree sid : agree (ListViews.list_whitelist sid p) (fun _ => True).
Proof.
  apply with_service. intros svc Hm. apply with_actor. intros actor.
  eapply agree_bind; [|intros a _; by apply agree_ret]. apply with_locked; [done|]. clear svc Hm. intros svc Hm.
  apply (select_agree whitelist_entry (entry_of (svc_id svc)) (order_by wl_created_at)).
  by apply sa_entries with svc, mine_alike.
Qed.

Lemma overlap_check_agree sid protocol sl sh dl dh :
  agree (RulesRouter.overlap_check sid protocol sl sh dl dh p) (fun _ => True).
Proof.
  apply with_service. intros svc Hm. apply with_actor. intros actor.
  apply with_locked; [done|]. clear svc Hm. intros svc Hm.
  eapply agree_bind; [by apply (agree_lift _ _ _ (fun _ => True))|]. intros candidate _.
  apply agree_db; [|done]. unfold _overlap_warnings.
  rewrite (sees_select _ _ _ _ (sa_rules _ _ _ _ (mine_alike svc Hm))); [done|].
  intros r [H _]%andb_true_iff. exact H.
Qed.

Lemma get_apply_status_agree sid : agree (ApplyViews.get_apply_status sid p) (fun _ => True).
Proof.
  eapply (agree_bind _ _ _ _ (fun _ => True)); [|intros a _; by apply agree_lift].
  apply with_service. intros svc Hm. apply agree_get_db; [|done].
  pose proof (sa_jobs _ _ _ _ (mine_alike svc Hm)) as Hj. unfold Apply.get_apply_status, _latest_job, _latest_success.
  rewrite (sees_select _ (is_job_of (svc_id svc)) _ _ Hj) by done.
  rewrite (sees_select _ (fun j => is_job_of (svc_id svc) j && _) _ _ Hj) by (by intros j [? _]%andb_true_iff).
  destruct Hm as [_ ->%bool_decide_eq_true]. by rewrite (al_tenant _ _ _ Halike).
Qed.

Lemma nexthop_agree snapshot m sid : agree (get_service_nexthop snapshot m sid p) (fun _ => True).
Proof. apply with_service. intros svc _. by apply agree_ret. Qed.

Lemma list_my_allocations_agree : agree (AllocationViews.list_my_allocations p) (fun _ => True).
Proof.
  eapply (agree_bind _ _ _ _ (fun _ => True)); [|intros a _; by apply agree_ret].
  unfold AllocationsRouter.list_my_allocations, AllocationsRouter._require_tenant_scope. rewrite Htenant.
  unfold agree, mbind, M_bind, lift, get_db, gets. eexists. split; [reflexivity|]. split; [|done].
  unfold list_for_tenant. rewrite <- !list_fmap_compose.
  rewrite (sees_select _ _ _ _ (al_allocations _ _ _ Halike)); done.
Qed.

Lemma get_my_allocation_agree id : agree (AllocationViews.get_my_allocation id p) (fun _ => True).
Proof.
  eapply (agree_bind _ _ _ _ (fun _ => True)); [|intros a _; by apply agree_ret].
  unfold AllocationsRouter.get_my_allocation, AllocationsRouter._require_tenant_scope. rewrite Htenant.
  pose proof (al_allocations _ _ _ Halike id) as H.
  unfold agree, mbind, M_bind, lift, get_db, gets, get_or_raise, require. simpl in H |- *.
  unfold own_allocation in H.
  destruct (allocated_cidr (db s) !! id) as [a|], (allocated_cidr (db s') !! id) as [a'|]; simpl in *;
    repeat (case_bool_decide; simpl in *); simplify_eq; eexists; (split; [reflexivity|]); (split; [|done]);
    done.
Qed.

Lemma list_jobs_refused st : agree (ApplyViews.list_jobs st p) (fun _ => True).
Proof.
  unfold ApplyViews.list_jobs, ApplyStatusRouter.list_jobs, require_admin. rewrite Hrole.
  by exists (inl forbidden).
Qed.

Lemma admin_agree_bind {A B} (k : Principal → M Session A) (g : A → M Session B) :
  agree ((get_admin_principal p ≫= k) ≫= g) (fun _ => True).
Proof. unfold get_admin_principal, require_admin. rewrite Hrole. by exists (inl forbidden). Qed.

Lemma read_route_agree snapshot m q : agree (read_route snapshot m q p) (fun _ => True).
Proof.
  destruct q; cbn [read_route]; eapply (agree_fmap _ _ _ _ (fun _ => True)).
  1: by apply agree_ret.
  1: apply list_services_agree.
  1: apply get_service_agree.
  1: apply nexthop_agree.
  1: apply list_rules_agree.
  1: apply overlap_check_agree.
  1: apply list_whitelist_agree.
  1: apply get_apply_status_agree.
  1: apply list_my_allocations_agree.
  1: apply get_my_allocation_agree.
  all: first [apply admin_agree | apply admin_agree_bind | apply list_jobs_refused].
Qed.
End tenant.

(** ** Alerts, bills and telemetry *)

Definition own_alert (t : uuid) (a : Alert) : bool :=
  bool_decide (al_scope a = AlertScope.service) && bool_decide (al_tenant_id a = Some t).
Definition message_of (a : Alert) (n : AlertNotification) : bool := bool_decide (an_alert_id n = al_id a).
Definition own_bill (t : uuid) (u : BillingUsage) : bool := bool_decide (bu_tenant_id u = Some t).

(** The operational rows of a tenant: the alerts on its services with their
    notifications, its bills, and the windows of its services in [d]. *)
Record ops_alike (t : uuid) (d : Db) (o o' : OpsDb) : Prop := {
  oa_alerts : sees (own_alert t) (alert o) (alert o');
  oa_messages : ∀ i a, alert o !! i = Some a → own_alert t a = true →
    sees (message_of a) (alert_notification o) (alert_notification o');
  oa_bills : sees (own_bill t) (billing_usage o) (billing_usage o');
  oa_windows : ∀ sid svc, protected_service d !! sid = Some svc → own_service t svc = true →
    sees (service_row sid) (telemetry_counter o) (telemetry_counter o')
}.

Section ops_tenant.
Context (s s' : OSession) (t : uuid) (p : Principal).
Hypothesis (Halike : alike t (os_db s) (os_db s')) (Hkeys : keyed (os_db s)).
Hypothesis (Hops : ops_alike t (os_db s) (ops s) (ops s')) (Hclock : clock (os_db s) = clock (os_db s')).
Hypothesis (Hrole : p_role p = tenant_user) (Htenant : p_tenant_id p = Some t).

Abbreviation agree := (agree s s').

Lemma agree_ops {A} (f : OpsDb → A) :
  f (ops s) = f (ops s') → agree (o ← get_ops id; mret (f o)) (fun _ => True).
Proof. intros E. exists (inr (f (ops s))). split_and!; [done| |done]. by rewrite E. Qed.

Lemma visible_own a : visible_to p a = own_alert t a.
Proof. unfold visible_to, own_alert. by rewrite Hrole, Htenant. Qed.

Lemma usage_visible_own u : usage_visible p u = own_bill t u.
Proof. unfold usage_visible, own_bill. by rewrite Hrole, Htenant. Qed.

(** The messages shown with an own alert. *)
Lemma response_alike i a :
  alert (ops s) !! i = Some a → own_alert t a = true → _response (ops s) a = _response (ops s') a.
Proof.
  intros Ha Ho. unfold _response.
  change (fun n => bool_decide (an_alert_id n = al_id a)) with (message_of a).
  by rewrite (sees_select _ (message_of a) _ _ (oa_messages _ _ _ _ Hops i a Ha Ho)) by done.
Qed.

Lemma check_service_agree sid : agree (check_service sid p) (fun _ => True).
Proof.
  destruct sid as [sid|]; [|by apply agree_ret].
  eapply agree_bind; [|intros svc _; by apply agree_ret]. by eapply agree_core, load_service_agree.
Qed.

Lemma require_tenant_agree : agree (require_tenant p) (fun _ => True).
Proof. by apply agree_require. Qed.

(** What the listings of alerts and bills do first. *)
Lemma with_checks {B} sid (k : M OSession B) :
  agree k (fun _ => True) → agree (check_service sid p ;; require_tenant p ;; k) (fun _ => True).
Proof.
  intros H. eapply agree_bind; [apply check_service_agree|]. intros _ _.
  eapply agree_bind; [apply require_tenant_agree|]. by intros _ _.
Qed.

Lemma list_alerts_agree state severity scope sid since :
  agree (list_alerts p state severity scope sid since) (fun _ => True).
Proof.
  apply (with_checks sid), agree_ops. set (q := fun a : Alert => _ && _).
  assert (∀ a, q a = true → own_alert t a = true) as Hq.
  { intros a. unfold q. rewrite visible_own. by intros [[[[[H _]%andb_true_iff _]%andb_true_iff _]%andb_true_iff
      _]%andb_true_iff _]%andb_true_iff. }
  rewrite <- (sees_select _ q _ _ (oa_alerts _ _ _ _ Hops)) by exact Hq.
  assert (_response (ops s) <$> order_by_desc (fun a => [al_first_observed_at a; Zpos (al_id a)])
            (select_where q (alert (ops s))) =
          _response (ops s') <$> order_by_desc (fun a => [al_first_observed_at a; Zpos (al_id a)])
            (select_where q (alert (ops s)))) as ->; [|done].
  apply list_fmap_ext. intros n a Ha%list_elem_of_lookup_2. unfold order_by_desc in Ha.
  rewrite merge_sort_Permutation in Ha. apply elem_of_select in Ha as [Ha [i Hi]].
  eapply response_alike; [exact Hi|by apply Hq].
Qed.

Lemma get_alert_agree id : agree (get_alert id p) (fun _ => True).
Proof.
  eapply agree_bind; [apply require_tenant_agree|]. intros _ _.
  pose proof (oa_alerts _ _ _ _ Hops id) as H.
  unfold ReadSpec.agree, mbind, M_bind, get_ops, gets, Datatypes.id. simpl in H.
  destruct (alert (ops s) !! id) as [a|] eqn:E, (alert (ops s') !! id) as [a'|]; rewrite ?visible_own in *.
  - destruct (own_alert t a) eqn:Eo, (own_alert t a'); simplify_eq; eexists; (split; [done|]); (split; [|done]).
    + by rewrite (response_alike id a') by done.
    + done.
  - destruct (own_alert t a); [done|]. by eexists.
  - destruct (own_alert t a'); [done|]. by eexists.
  - by eexists.
Qed.

(** A listing of bills, of which the query selects the tenant's own. *)
Lemma bills_agree {A} (f : list BillingUsage → A) (q : BillingUsage → bool) :
  (∀ u, q u = true → own_bill t u = true) →
  agree (o ← get_ops id; mret (f (select_where q (billing_usage o)))) (fun _ => True).
Proof.
  intros Hq. apply (agree_ops (fun o => f (select_where q (billing_usage o)))).
  by rewrite (sees_select _ q _ _ (oa_bills _ _ _ _ Hops)).
Qed.

Lemma list_usage_agree collate sid tid period status :
  agree (list_usage collate p sid tid period status) (fun _ => True).
Proof.
  eapply (agree_bind _ _ _ _ (fun _ => True)); [by destruct period; [apply agree_require|apply agree_ret]|].
  intros _ _. apply with_checks. eapply (agree_bind _ _ _ _ (fun _ => True)).
  - destruct period; [|by apply agree_ret]. eapply (agree_bind _ _ _ _ (fun _ => True)); [by apply agree_lift|].
    intros b _. by apply agree_ret.
  - intros bounds _. apply (bills_agree (fun l => usage_list_response (sorted_usage (by_period collate) l))).
    intros u. rewrite usage_visible_own. intros H. by repeat apply andb_true_iff in H as [H _].
Qed.

Lemma usage_history_agree collate sid limit : agree (usage_history collate p sid limit) (fun _ => True).
Proof.
  eapply (agree_bind _ _ _ _ (fun _ => True)); [by apply agree_require|]. intros _ _. apply with_checks.
  apply (bills_agree (fun l => usage_list_response (take (Z.to_nat limit) (sorted_usage (by_period collate) l)))).
  intros u. rewrite usage_visible_own. by intros [[_ H]%andb_true_iff _]%andb_true_iff.
Qed.

(** The windows of a service the caller may load. *)
Lemma with_windows {B} sid (k : M OSession B) :
  (sees (service_row sid) (telemetry_counter (ops s)) (telemetry_counter (ops s')) →
   service_plan (os_db s) !! sid = service_plan (os_db s') !! sid → agree k (fun _ => True)) →
  agree (core (load_service_for_principal sid p) ;; k) (fun _ => True).
Proof.
  intros H. eapply agree_bind; [by eapply agree_core, load_named_agree|]. intros svc [[Hs Ho] <-].
  apply H; [by eapply (oa_windows _ _ _ _ Hops)|].
  exact (sa_plan _ _ _ _ (al_service _ _ _ Halike _ _ Hs Ho)).
Qed.

Lemma newest_alike limit sid :
  sees (service_row sid) (telemetry_counter (ops s)) (telemetry_counter (ops s')) →
  newest limit (service_row sid) (ops s) = newest limit (service_row sid) (ops s').
Proof. intros H. unfold newest. by rewrite (sees_select _ _ _ _ H). Qed.

Lemma service_telemetry_agree sid : agree (get_service_telemetry sid p) (fun _ => True).
Proof.
  apply with_windows. intros Hw Hplan. unfold ReadSpec.agree, mbind, M_bind, get_ops, core, utc_now, get_db, gets, id.
  eexists. split; [by destruct s|]. split; [|done]. cbn [fst snd]. rewrite <- (newest_alike 1 sid Hw).
  unfold os_db in Hplan, Hclock. destruct s', s. simpl in *. by rewrite Hplan, Hclock.
Qed.

Lemma telemetry_history_agree sid limit : agree (get_service_telemetry_history sid p limit) (fun _ => True).
Proof.
  eapply (agree_bind _ _ _ _ (fun _ => True)); [by apply agree_require|]. intros _ _.
  apply with_windows. intros Hw _. apply agree_ops. unfold _service_windows. by rewrite (newest_alike _ _ Hw).
Qed.

Lemma telemetry_export_agree quotes_cr sid csv limit :
  agree (export_service_telemetry quotes_cr sid csv p limit) (fun _ => True).
Proof.
  eapply (agree_bind _ _ _ _ (fun _ => True)); [by apply agree_require|]. intros _ _.
  apply with_windows. intros Hw _. apply (agree_ops (fun o => _export quotes_cr (_service_windows sid limit o) csv _)).
  unfold _service_windows. by rewrite (newest_alike _ _ Hw).
Qed.

(** The routes of administrators refuse. *)
Lemma ops_admin_refused {A} (k : M OSession A) : agree (lift (require_admin p) ;; k) (fun _ => True).
Proof. unfold require_admin. rewrite Hrole. by exists (inl forbidden). Qed.

Lemma admin_only_refused {A} (k : M OSession A) : agree (admin_only p ;; k) (fun _ => True).
Proof.
  unfold admin_only, require_admin. rewrite Hrole. exists (inl forbidden).
  unfold mbind, M_bind, core, lift. by destruct s, s'.
Qed.

Lemma ops_checked_admin_refused {A} b e (k : M OSession A) :
  agree (require b e ;; lift (require_admin p) ;; k) (fun _ => True).
Proof.
  eapply (agree_bind _ _ _ _ (fun _ => True)); [by apply agree_require|]. intros _ _. apply ops_admin_refused.
Qed.

Lemma amplification_refused : agree (core (get_amplification_config p)) (fun _ => True).
Proof.
  apply agree_core. unfold get_amplification_config, require_admin. rewrite Hrole. by exists (inl forbidden).
Qed.

Lemma ops_route_agree snapshot collate quotes_cr q :
  agree (ops_route snapshot collate quotes_cr q p) (fun _ => True).
Proof.
  destruct q; cbn [ops_route]; eapply (agree_fmap _ _ _ _ (fun _ => True)).
  - apply list_alerts_agree.
  - apply get_alert_agree.
  - apply admin_only_refused.
  - apply admin_only_refused.
  - apply list_usage_agree.
  - apply usage_history_agree.
  - apply ops_checked_admin_refused.
  - apply service_telemetry_agree.
  - apply telemetry_history_agree.
  - apply telemetry_export_agree.
  - apply ops_admin_refused.
  - apply ops_checked_admin_refused.
  - apply ops_checked_admin_refused.
  - apply ops_admin_refused.
  - apply amplification_refused.
Qed.
End ops_tenant.

(** The caller is the same in both. *)
Lemma resolve_agree s s' t session p s0 :
  alike t (db s) (db s') → keyed (db s) →
  resolve_current_user session s = (inr p, s0) → p_role p = tenant_user → p_tenant_id p = Some t →
  s0 = s ∧ resolve_current_user session s' = (inr p, s') ∧
  ∃ u, users (db s) !! p_user_id p = Some u ∧ own_user t u = true.
Proof.
  intros Ha Hk H Hrole Ht. unfold resolve_current_user, get_db in H. minv.
  rename a1 into u. assert (own_user t u = true) as Ho by (by apply bool_decide_eq_true).
  split; [done|]. split; [|by exists u; rewrite (ky_user _ Hk _ _ H2)].
  unfold resolve_current_user, get_db, gets, mbind, M_bind. simpl.
  rewrite (sees_lookup _ _ _ _ _ (al_users _ _ _ Ha) Ho H2). simpl. unfold require.
  rewrite H3, H4. rewrite Ht in H6 |- *. unfold tenant_is_active in H6 |- *. simpl in H6 |- *.
  by rewrite <- (al_tenant _ _ _ Ha), H6.
Qed.

(** ** The request *)

(** Numeric columns as a commit leaves them: within their precision, rounded. *)
Definition settled (o : OpsDb) : Prop := numerics_fit o = true ∧ store_numerics o = o.

Lemma fits_stored d : opt_fits d = true → opt_fits (store_numeric_18_4 <$> d) = true.
Proof.
  destruct d as [[c e| |]|]; [|done..]. unfold opt_fits. simpl. unfold round_numeric4 at 2. simpl.
  by rewrite Z.mul_1_r.
Qed.

Lemma store_alert_idem a : store_alert (store_alert a) = store_alert a.
Proof. destruct a as [? ? ? ? ? ? ? ? ? [v|]]; [|done]. unfold store_alert. cbn. by rewrite store_numeric_idem. Qed.

Lemma store_rule_idem r : store_rule (store_rule r) = store_rule r.
Proof. destruct r as [? ? ? ? [v|] [v'|]]; unfold store_rule; cbn; by rewrite ?store_numeric_idem. Qed.

Lemma rows_fmap {K A} `{Countable K} (f : A → A) (m : gmap K A) x :
  x ∈ (map_to_list (f <$> m)).*2 → ∃ y, x = f y ∧ y ∈ (map_to_list m).*2.
Proof.
  intros ([k v] & -> & Hv)%list_elem_of_fmap. apply elem_of_map_to_list, lookup_fmap_Some in Hv as (y & <- & Hy).
  exists y. split; [done|]. apply list_elem_of_fmap. exists (k, y). split; [done|]. by apply elem_of_map_to_list.
Qed.

(** Every commit leaves them so. *)
Lemma commit_settled {A} (m : M OSession A) w a w' : ops_scope m w = (inr a, w') → settled (ow_ops w').
Proof.
  intros (s & _ & Hfit & -> & _)%ops_scope_inr. unfold numerics_fit in Hfit.
  apply andb_true_iff in Hfit as [Ha Hr]. rewrite forallb_forall in Ha, Hr. split.
  - unfold numerics_fit. apply andb_true_iff. rewrite !forallb_forall. split; intros x Hx%list_elem_of_In.
    + apply rows_fmap in Hx as (y & -> & Hy). simpl. apply fits_stored, Ha. by apply list_elem_of_In.
    + apply rows_fmap in Hx as (y & -> & [H1 H2]%list_elem_of_In%Hr%andb_true_iff).
      apply andb_true_iff. split; by apply fits_stored.
  - unfold store_numerics. destruct (ops s). simpl. f_equal; rewrite <- map_fmap_compose; apply map_fmap_ext;
      intros i x _; [apply store_rule_idem|apply store_alert_idem].
Qed.

Lemma ops_scope_read {A} (m : M OSession A) w r :
  settled (ow_ops w) →
  (let s := mkOSession (new_session (ow_db w)) (ow_ops w) (ow_outbox w) in m s = (r, s)) →
  ops_scope m w = (r, w).
Proof.
  cbv zeta. intros [Hf Hs] H. unfold ops_scope, mbind, M_bind at 1. rewrite H. destruct r as [e|a].
  - unfold os_db. simpl. rewrite rollback_same. by destruct w as [[] ? ?].
  - unfold flush, get_ops, mbind, M_bind, gets, require, id. simpl. rewrite Hf. simpl. rewrite Hs.
    by destruct w as [[] ? ?].
Qed.

(** Two worlds at the same instant that agree on what belongs to a tenant. *)
Definition worlds_alike (t : uuid) (w w' : OWorld) : Prop :=
  alike t (ow_db w) (ow_db w') ∧ ops_alike t (ow_db w) (ow_ops w) (ow_ops w') ∧
  clock (ow_db w) = clock (ow_db w').

(** C5: A tenant's reads show nothing of other tenants.  When two worlds agree on
    a tenant's rows (its record, accounts, allocations and services, with their
    plans, rules, whitelists, jobs and telemetry windows, its alerts with their
    notifications, and its bills), every [GET] request of a user of the tenant,
    with any identifier and any filter, gets the same answer in both, be it a
    page or an error, and changes neither; in particular an identifier of another
    tenant's service or alert and one that does not exist are answered alike. *)
Theorem tenant_reads_confined snapshot metrics collate quotes_cr session q w w' p s0 t
    (Hkeys : keyed (ow_db w)) (Halike : worlds_alike t w w')
    (Hsettled : settled (ow_ops w)) (Hsettled' : settled (ow_ops w'))
    (Hcaller : resolve_current_user session (new_session (ow_db w)) = (inr p, s0))
    (Hrole : p_role p = tenant_user) (Htenant : p_tenant_id p = Some t) :
  ∃ r, serve_any snapshot metrics collate quotes_cr session q w = (r, w) ∧
       serve_any snapshot metrics collate quotes_cr session q w' = (r, w').
Proof.
  destruct Halike as (Hdb & Hops & Hclock).
  destruct (resolve_agree (new_session (ow_db w)) (new_session (ow_db w')) t session p s0 Hdb Hkeys Hcaller Hrole Htenant)
    as (-> & Hp & Hself).
  set (s := mkOSession (new_session (ow_db w)) (ow_ops w) (ow_outbox w)).
  set (s' := mkOSession (new_session (ow_db w')) (ow_ops w') (ow_outbox w')).
  assert (agree s s' (match q with
    | inl q => inl <$> core (read_route snapshot metrics q p)
    | inr q => inr <$> ops_route snapshot collate quotes_cr q p
    end) (fun _ => True)) as (r & H1 & H2 & _).
  { destruct q as [q|q]; eapply (agree_fmap _ _ _ _ (fun _ => True)); [|by eapply ops_route_agree].
    by eapply agree_core, read_route_agree. }
  exists r. split; (apply ops_scope_read; [done|]); cbv zeta; rewrite bind_run; unfold core at 1;
    cbn [os_session]; by rewrite ?Hcaller, ?Hp.
Qed.

Lemma sees_insert {A} (own : A → bool) (m : gmap uuid A) id r :
  m !! id = None → own r = false → sees own m (<[id := r]> m).
Proof.
  intros Hm Hr k. destruct (decide (k = id)) as [->|Hne];
    [by rewrite lookup_insert_eq, Hm; simpl; rewrite Hr|by rewrite lookup_insert_ne].
Qed.

(** Another tenant's service does not show. *)
Definition with_service_row (sid : uuid) (svc : ProtectedService) (plan : ServicePlan) (d : Db) : Db :=
  d <| protected_service := <[sid := svc]> (protected_service d) |>
    <| service_plan := <[sid := plan]> (service_plan d) |>.

Lemma foreign_service_alike t sid svc plan d :
  protected_service d !! sid = None → own_service t svc = false → alike t d (with_service_row sid svc plan d).
Proof.
  intros Hs Ho. destruct d. unfold with_service_row. simpl in *. split; try done; simpl.
  - by apply sees_insert.
  - intros sid' svc' Hs' _. split; try done. simpl. rewrite lookup_insert_ne; [done|]. congruence.
Qed.

(** Nor do its alert with the message sent about it, its bill and its windows. *)
Definition with_ops_rows (i : uuid) (a : Alert) (n : AlertNotification) (u : BillingUsage)
    (c : TelemetryCounter) (o : OpsDb) : OpsDb :=
  o <| alert := <[i := a]> (alert o) |> <| alert_notification := <[i := n]> (alert_notification o) |>
    <| billing_usage := <[i := u]> (billing_usage o) |>
    <| telemetry_counter := <[i := c]> (telemetry_counter o) |>.

Lemma foreign_ops_alike t d o i a n u c :
  alert o !! i = None → alert_notification o !! i = None → billing_usage o !! i = None →
  telemetry_counter o !! i = None →
  own_alert t a = false → own_bill t u = false →
  (∀ j b, alert o !! j = Some b → message_of b n = false) →
  (∀ sid svc, protected_service d !! sid = Some svc → service_row sid c = false) →
  ops_alike t d o (with_ops_rows i a n u c o).
Proof.
  intros Ha Hn Hu Hc Fa Fu Fn Fc. destruct o. split; simpl in *.
  - by apply sees_insert.
  - intros j b Hb _. apply sees_insert; [done|]. by eapply Fn.
  - by apply sees_insert.
  - intros sid svc Hs _. apply sees_insert; [done|]. by eapply Fc.
Qed.

(** The demo run with an alert, a message, a bill and a window of the tenant, and
    the same world in which the other tenant has a service with such rows too. *)
Definition demo_alert (id sid t : uuid) : Alert :=
  mkAlert id "service_over_committed" AlertScope.service "s" (Some sid) (Some t) None AlertSeverity.warning
    AlertState.firing None [] 2 0 5 (Some 6) None None None None.
Definition demo_message (id alert_id : uuid) : AlertNotification :=
  mkAlertNotification id alert_id None "ops" ChannelKind.webhook "firing" NotificationState.sent 1 None
    (Some 7) 6 7.
Definition demo_bill (id sid t : uuid) : BillingUsage :=
  mkBillingUsage id (Some sid) (Some t) "web" 0 100 "p95" 0 0 0 0 overage_billed 3 BillingStatus.open None.
Definition demo_window (id sid : uuid) : TelemetryCounter :=
  mkTelemetryCounter id TelemetryScope.service (Some sid) (Some 1) 5 2 10 1000 1 100 [] 5 4000 None None false.

Definition read_world : OWorld :=
  mkOWorld world3 (with_ops_rows 60 (demo_alert 60 3 tenant_a) (demo_message 60 60)
    (demo_bill 60 3 tenant_a) (demo_window 60 3) empty_ops) [].
Definition read_world' : OWorld :=
  mkOWorld
    (world3 <| w_db := with_service_row 77
      (mkProtectedService 77 9 tenant_b "hidden" (Net 167772416 32) allow_rule_only true None None None
         None ApplyStatus.active 3 (Some 3) None 5 5)
      (mkServicePlan 77 0 0 "p95" overage_billed) (w_db world3) |>)
    (with_ops_rows 70 (demo_alert 70 77 tenant_b) (demo_message 70 70) (demo_bill 70 77 tenant_b)
       (demo_window 70 77) (ow_ops read_world)) [].

Definition keyed_now (d : Db) : bool :=
  forallb (fun kv => bool_decide (svc_id kv.2 = kv.1)) (map_to_list (protected_service d)) &&
  forallb (fun kv => bool_decide (user_id kv.2 = kv.1)) (map_to_list (users d)).
Lemma keyed_decided d : keyed_now d = true → keyed d.
Proof.
  intros [H1 H2]%andb_true_iff. rewrite forallb_forall in H1, H2. split.
  - intros sid svc Hs%elem_of_map_to_list%list_elem_of_In. by apply H1, bool_decide_eq_true in Hs.
  - intros uid u Hs%elem_of_map_to_list%list_elem_of_In. by apply H2, bool_decide_eq_true in Hs.
Qed.

Lemma read_worlds_alike : worlds_alike tenant_a read_world read_world'.
Proof.
  split_and!; [by apply foreign_service_alike| |done]. apply foreign_ops_alike; try done.
  - intros j b Hj. simpl in Hj. rewrite insert_empty in Hj. by apply lookup_singleton_Some in Hj as [_ <-].
  - intros sid svc Hs. unfold service_row. simpl. rewrite andb_true_r. apply bool_decide_eq_false_2.
    intros [= <-]. vm_compute in Hs. done.
Qed.

(** The listing of alerts has the tenant's own, also where the other tenant has one. *)
Lemma tenant_reads_confined_witness :
  ∃ r, serve_any None ∅ String.leb false alice_session (inr (ListAlerts None None None None None))
         read_world = (inr (inr (AnAlerts r)), read_world) ∧
       serve_any None ∅ String.leb false alice_session (inr (ListAlerts None None None None None))
         read_world' = (inr (inr (AnAlerts r)), read_world') ∧
       alr_id <$> all_alerts r = [60%positive] ∧
       (fun x => anr_id <$> alr_notifications x) <$> all_alerts r = [[60%positive]].
Proof.
  destruct (tenant_reads_confined None ∅ String.leb false alice_session
    (inr (ListAlerts None None None None None)) read_world read_world' alice
    (new_session (w_db world3)) tenant_a) as (r & H1 & H2).
  - apply keyed_decided. vm_compute. reflexivity.
  - apply read_worlds_alike.
  - split; vm_compute; reflexivity.
  - split; vm_compute; reflexivity.
  - vm_compute. reflexivity.
  - reflexivity.
  - reflexivity.
  - assert (r = inr (inr (AnAlerts (mkAlertListResponse
      [_response (ow_ops read_world) (demo_alert 60 3 tenant_a)] true)))) as ->.
    { apply (f_equal fst) in H1. vm_compute in H1. rewrite <- H1. vm_compute. reflexivity. }
    eexists. split; [exact H1|]. split; [exact H2|]. split; vm_compute; reflexivity.
Defined.

(** ** Listing jobs *)

Definition of_a_service (j : AgentJob) : bool := bool_decide (is_Some (target_id j)).

Lemma collect_jobs jobs :
  collect _job_view jobs =
  if forallb of_a_service jobs then inr (omap (fun j => match _job_view j with inr v => Some v | inl _ => None end) jobs)
  else inl (ValidationError "JobView" "target_id").
Proof.
  induction jobs as [|j jobs IH]; simpl; [done|]. rewrite IH. unfold of_a_service at 2.
  destruct (_job_view j) as [e|v] eqn:E; unfold _job_view in E; destruct (target_id j) as [sid|] eqn:Et; try done.
  - rewrite bool_decide_eq_false_2 by (by intros [? ?]). simplify_eq. done.
  - rewrite bool_decide_eq_true_2 by eauto. simpl. by destruct (forallb of_a_service jobs).
Qed.

Lemma omap_jobs jobs :
  forallb of_a_service jobs = true →
  jv_id <$> omap (fun j => match _job_view j with inr v => Some v | inl _ => None end) jobs = job_id <$> jobs.
Proof.
  induction jobs as [|j jobs IH]; [done|]. cbn [forallb]. intros [H1 H2]%andb_true_iff.
  unfold of_a_service in H1. apply bool_decide_eq_true in H1 as [sid Hs]. cbn [omap list_omap].
  unfold _job_view at 1. rewrite Hs. rewrite !fmap_cons. by rewrite <- IH.
Qed.

(** C20: The listing of jobs can be rendered when, and only when, all jobs it
    selects are of services.  One job of a feed, or of the global deny list,
    among them, and the administrator gets a server error in place of the list:
    its [target_id] is [NULL], which the response model does not admit. *)
Theorem jobs_listed_only_of_services snapshot metrics session status w p s0
    (Hcaller : resolve_current_user session (new_session (w_db w)) = (inr p, s0))
    (Hrole : p_role p = admin) :
  let jobs := Apply.list_jobs (w_db w) status in
  ((∀ j, j ∈ jobs → ∃ sid, job_target j = TargetService sid) →
     ∃ views, serve_read snapshot metrics session (ListJobs status) w = (inr (AnJobs views), w) ∧
       jv_id <$> views = job_id <$> jobs) ∧
  ((∃ j, j ∈ jobs ∧ ∀ sid, job_target j ≠ TargetService sid) →
     serve_read snapshot metrics session (ListJobs status) w =
       (inl (ValidationError "JobView" "target_id"), w)).
Proof.
  intros jobs. assert (s0 = new_session (w_db w)) as ->.
  { unfold resolve_current_user, get_db in Hcaller. by minv. }
  assert (serve_read snapshot metrics session (ListJobs status) w =
    (match collect _job_view jobs with inl e => inl e | inr v => inr (AnJobs v) end, w)) as ->.
  { apply session_scope_read. unfold mbind, M_bind. rewrite Hcaller. cbn [read_route].
    unfold ApplyViews.list_jobs, ApplyStatusRouter.list_jobs, require_admin. rewrite Hrole.
    unfold fmap, M_fmap, mbind, M_bind, lift, get_db, gets. simpl. fold jobs. by destruct (collect _ _). }
  rewrite collect_jobs. split.
  - intros H. assert (forallb of_a_service jobs = true) as E.
    { apply forallb_forall. intros j [sid Hj]%list_elem_of_In%H. apply bool_decide_eq_true.
      unfold target_id. rewrite Hj. eauto. }
    rewrite E. eexists. split; [done|]. by apply omap_jobs.
  - intros (j & Hj & Ht). destruct (forallb of_a_service jobs) eqn:E; [|done].
    rewrite forallb_forall in E. apply list_elem_of_In, E, bool_decide_eq_true in Hj as [sid Hs].
    unfold target_id in Hs. destruct (job_target j) eqn:Et; try done. by destruct (Ht service_id).
Qed.

(** The demo world with the job of a feed run added. *)
Definition world3_feed : World :=
  world3 <| w_db := w_db world3 <| agent_job := <[90%positive :=
    new_job 90 (TargetFeedRun 91) 1 ChangeTrigger.feed_manual 7]> (agent_job (w_db world3)) |> |>.

Lemma jobs_listed_only_of_services_witness :
  serve_read None ∅ root_session (ListJobs None) world3_feed =
    (inl (ValidationError "JobView" "target_id"), world3_feed).
Proof.
  eapply (jobs_listed_only_of_services None ∅ root_session None world3_feed).
  - vm_compute. reflexivity.
  - reflexivity.
  - exists (new_job 90 (TargetFeedRun 91) 1 ChangeTrigger.feed_manual 7). split; [|done].
    apply list_elem_of_In. vm_compute. repeat (first [left; reflexivity | right]).
Defined.

(** A user's tenant is named in the listing of accounts, and never when the
    account is asked for alone. *)
Lemma get_user_without_tenant uid p s r s1 :
  AccountViews.get_user uid p s = (inr r, s1) → ur_tenant_name r = None.
Proof. unfold AccountViews.get_user, get_admin_principal, get_db. intros H. by minv. Qed.

(** ** The frontend beside the API *)

Import Frontend.

(** A client that does not ask for HTML gets the answer of the API when a route
    matches, and 404 when none does below one of the listed prefixes or for a
    missing asset: the page never stands in for an API answer. *)
Lemma frontend_keeps_api {A} (api : option A) accept path :
  str_contains "text/html" accept = false →
  serve_get api accept path =
  match api with
  | Some a => ApiAnswer a
  | None =>
      if bool_decide (path = ""%string) || bool_decide (path = "index.html"%string) then IndexPage else
      if bool_decide (path = "assets"%string) || String.prefix "assets/" path ||
         bool_decide (hd ""%string (split_slash path) ∈ _API_PATH_PREFIXES) || has_suffix path
      then Error (HTTPException 404 "Not found") else IndexPage
  end.
Proof.
  intros H. unfold serve_get, override_static_html_requests, frontend_history_fallback. rewrite H.
  rewrite andb_false_r. simpl. destruct api; [done|]. by repeat case_match; simplify_eq.
Qed.

(** The prefixes of two routers are not in the list: unknown paths below them get
    the page instead of 404, also from clients that do not ask for HTML. *)
Lemma unlisted_prefixes_get_the_page :
  serve_get (None : option unit) "application/json" "blacklist/entries" = IndexPage ∧
  serve_get (None : option unit) "application/json" "me/services" = IndexPage ∧
  serve_get (None : option unit) "application/json" "feeds/none/of/these" = Error (HTTPException 404 "Not found").
Proof. vm_compute. auto. Qed.
